(* ===== verification/_CoqProject ===== *)
-Q . S2P
Prelude.v
Links.v
Collections.v
FreeList.v
Hole.v
Heap.v
Pte.v
Mmu.v
Paging.v
PageAlloc.v
Mm.v
Mpk.v
Cpu.v
Isolation.v
Gate.v
Confined.v
Switch.v
TaskQueue.v
Spinlock.v
Tasks.v
KernelStack.v
NewTask.v
Scheduler.v
Ready.v
Waiting.v
Scheduling.v
Dispatch.v
Tasking.v
Cores.v
WaitQueue.v
Synch.v
Calls.v
Clock.v
Bytes.v
Room.v
MmInit.v
Acpi.v
Firmware.v
Irq.v
CopySafe.v
Storage.v
BootInfo.v
Processor.v
Timer.v
Pci.v
Serial.v
Environment.v
Loader.v
Hypercall.v
Interfaces.v
Percore.v
Gdt.v
Vga.v
Apic.v
Madt.v
Net.v
