(* ===== verification/Prelude.v ===== *)
(** * A verification development for libhermitMPK

    libhermitMPK is the kernel of HermitCore, a unikernel: the kernel and one application
    share an address space and the privilege level. What protects the kernel's data from
    the application, and from the unsafe Rust code of the kernel itself, are the memory
    protection keys (MPK) of x86-64: a page has one of 16 keys in its page table entry, and
    the register PKRU of a core says which keys may be read and written. Safe memory has
    key 1, unsafe memory of the kernel key 2, shared memory key 3, the application's memory key 0.

    ** Parts, and how they interact

    Memory. The lists of free regions (FreeList.v, mm/freelist.rs, on the linked lists of
    Collections.v, collections/doublylinkedlist.rs) are the state of the managers of
    physical and virtual memory (PageAlloc.v, arch/x86_64/mm/physicalmem.rs and
    virtualmem.rs). Paging (Pte.v, Mmu.v, Paging.v, arch/x86_64/mm/paging.rs) takes frames
    from the one; the memory manager (Mm.v, mm/mod.rs) joins all three and hands out mapped
    memory of each kind with its key. The heap of the kernel lies in such memory (Hole.v,
    Heap.v, mm/hole.rs and mm/allocator.rs), from the start of the memory management on
    (MmInit.v, [init] of mm/mod.rs). Mpk.v (arch/x86_64/mm/mpk.rs) changes PKRU and
    the keys of pages.

    Isolation. The macros of macros.rs (Cpu.v, Isolation.v) change PKRU and the stack around
    calls between application and kernel and around unsafe parts of the kernel. Confined.v
    has what the isolated calls guarantee for code that does not write PKRU or page tables,
    Gate.v the gate of a system call for the states of other parts. What
    isolated code needs of safe memory goes through a page of unsafe memory (CopySafe.v,
    Storage.v, arch/x86_64/kernel/copy_safe.rs), so the boot information (BootInfo.v,
    arch/x86_64/kernel/mod.rs), the per-core variables (Percore.v, percore.rs) and the
    registers of devices (Apic.v) are accessed through it.

    Tasks. Task control blocks and their priority queues (TaskQueue.v, Tasks.v,
    scheduler/task.rs) are what the scheduler works on (Scheduler.v, scheduler/mod.rs), whose
    theorems are in Ready.v, Waiting.v, Scheduling.v, Dispatch.v, Tasking.v and Cores.v.
    Semaphores, recursive mutexes and condition variables (WaitQueue.v, Synch.v,
    synch/semaphore.rs, synch/recmutex.rs, syscalls/condvar.rs) block and wake tasks; the
    system calls (Calls.v, syscalls/semaphore.rs, recmutex.rs, condvar.rs, spinlock.rs and
    tasks.rs) offer them to applications. Spinlock.v (synch/spinlock.rs) is the lock
    that makes an operation of the others one step. The switch between two tasks is Switch.v
    (arch/x86_64/kernel/switch.rs), the function it calls in between KernelStack.v
    ([set_current_kernel_stack] of gdt.rs on the words of that machine; Gdt.v has it on
    bytes), the frame it begins a task from NewTask.v (arch/x86_64/kernel/scheduler.rs).

    Hardware. ACPI tables (Bytes.v, Room.v, Acpi.v, Firmware.v, acpi.rs) tell the interrupt
    controllers (Apic.v, Madt.v, apic.rs) which processors there are. Irq.v (idt.rs, irq.rs,
    pic.rs, pit.rs), Gdt.v (gdt.rs), Processor.v (processor.rs), Clock.v (systemtime.rs),
    Vga.v (vga.rs), Serial.v (serial.rs, console.rs) and Pci.v (pci.rs) are the drivers of the
    other devices; Timer.v (syscalls/timer.rs, syscalls/random.rs) offers the clock to
    applications. The calls on files (Interfaces.v, syscalls/mod.rs and
    syscalls/interfaces) print to the console or ask the hypervisor uhyve (Hypercall.v,
    syscalls/interfaces/uhyve.rs), as does the network driver (Net.v, drivers/net/mod.rs and
    uhyve.rs). Environment.v (environment.rs) reads the command line, and Loader.v
    (src/loader: src/lib.rs, elf.rs, physicalmem.rs and arch/x86_64/bootinfo.rs) has what the
    loader checks and hands over. (Where no directory is named, these are files of
    src/src/arch/x86_64/kernel/; all others are below src/src/.)

    ** How the code is modelled

    An operation is a function in the monad [M S A] of this file: it takes a state and ends
    in a value and a state, in a panic, or out of fuel. A panic aborts the kernel, so it has
    no state; a page fault, a failed assertion, an index out of range and, as in the
    default profile, an overflow are panics. A [u64] is an integer in [0, 2^64) with the
    checked operations [add64], [sub64] and [mul64]; [fetch_add] and explicit wrapping
    operations wrap. A struct is a record with the names of its fields; where two files
    use a name, one says which it means by the file. Reference-counted nodes live in a
    store by their identity, so that aliasing and links that are left behind are visible.
    Memory that is read through pointers is a map from addresses; page tables are words of
    physical memory that the processor walks, and the code reaches them, as it does, through
    the recursive entry of the first table. Inline assembly is a sequence of instructions
    on a core with registers, PKRU, page tables and memory. A loop takes fuel.

    Interfaces are type classes: [FrameSource] is where paging takes frames from,
    [PageAllocator] what the memory manager relies on (VirtMem and PhysMem are its
    instances), [RoomLaws] when an allocation succeeds, [KernelMemory] what tasks need of the
    memory manager (Mm is an instance), [Waitable] what tasks can wait for, [OnCore] where a
    state has its core, [SyscallInterface] the calls on files.

    Not code of this repository, and so parameters: what the firmware left in memory
    ([rom]); what a device answers after a history of accesses ([hardware] in Apic, Irq, Pci,
    Serial; the CMOS clock in Clock); the answers of CPUID, the model specific registers and
    the time stamp counter (Processor); what the hypervisor does with a request ([vmexit] in
    Hypercall and Net); the descriptors and stacks that the crate x86 and the
    allocator give (Gdt); the addresses that the linker and Box::new choose. Where a theorem
    needs more of a device, there is a model of one that behaves as its specification
    says: [Uart] in Serial, [Bus] in Pci.

    ** What is shown

    - Lists and memory: every operation of the linked lists, free lists, holes and priority
      queues does to the sequence or set it represents what it should; free regions and
      holes stay sorted, disjoint and merged; in any sequence of allocations and
      deallocations, of the heap and of the memory manager, blocks in use are disjoint, and
      mapped memory has the key of its kind ([deallocate_correct], [hole_allocate_correct],
      [hole_deallocate_correct], [heap_clients_safe], [mm_clients_safe],
      [mm_allocate_correct]).
    - Paging: [map] and the change of keys do to the translations the processor makes what
      they should and nothing else ([map_correct], [set_pkey_correct]).
    - Isolation: code that does not write PKRU or page tables, called with
      [isolate_function_strong] or [isolate_function_weak], can reach no safe memory, or only
      the pages on which the frame of its caller lies ([.._confines]); what gets around it
      is shown, too ([isolation_does_not_nest], [nanosleep_unlocks_safe_memory],
      [clock_getres_writes_safe_memory], [write_locks_kernel]).
    - Tasks: [switch] saves and restores everything ([switch_correct], [switch_round_trip],
      [new_task_starts]), together with [set_current_kernel_stack]; from the start on,
      whatever legal steps the cores take, no task is lost and, without deadlines, no
      wakeup of a semaphore is lost ([no_task_lost], [no_wakeup_lost]); the scheduler serves
      priorities and deadlines ([scheduler_correct], [scheduler_serves_priority],
      [timer_wakes_due]); spinlocks exclude each other and are fair
      ([spinlock_mutual_exclusion], [spinlock_starvation_free]); system calls without
      deadlines are operations of this machine ([calls_refine_acts]).
    - Hardware: reading the firmware's tables through mappings finds what is in physical
      memory ([acpi_init_correct], [detect_from_acpi_correct]); the interrupt table, the
      control registers, the timer, the bus and the screen are set as the
      processor and the devices understand them ([install_correct], [idt_well_typed],
      [configure_correct], [set_oneshot_timer_correct], [pci_init_correct],
      [vga_refines_terminal], [write_str_sends]); dates are converted as the calendar says
      ([microseconds_from_date_correct], [date_from_microseconds_correct]).
    - Hosts: a request to the hypervisor carries the call's arguments and brings its answer
      ([uhyve_request_correct]); the kernel's heap has its own memory ([init_heap_correct]);
      no network packet goes unannounced ([packets_announced]).
    - Defects of the code are theorems of what it does do: [spinlock_second_waits],
      [uhyve_irqhandler_faults], [loaded_tss_keeps_stacks], [recmutex_interrupt_loses_waiter],
      [ioapic_never_programmed], [semaphore_timeout_loses_waiter],
      [remove_of_last_task_loses_tasks], [measurement_never_ends], [io_bar_sizes] and others.

    Theorems with hypotheses have a witness, an instance at a concrete state, at the end of
    their file.

    ** Fuel

    Loops over lists get one or two rounds more than nodes were ever made ([iter_fuel],
    [loop_fuel], [Collections.next_rc]); loops over pages as many as there are pages in the
    range ([range_fuel], [map_heap_loop]); the search for a task identifier one more than
    there are tasks ([get_tid]); the loop over waiting tasks of a condition variable one more
    than there are tasks. The theorems about these operations say that they end, so this is
    enough. Where the number of rounds is up to a device or a table ([Apic.wait_delivered],
    [Clock.wait_update], [Processor.delay_until], [Serial.wait_transmitting],
    [Madt.detect_records]) the fuel is a parameter, and the theorems name a bound that is
    enough.

    ** Not modelled

    Of the loader the paging, an older copy of the kernel's, moving the kernel and its start;
    AArch64; of the host interfaces the arguments of the application and the branches with
    newlib; drivers/net/rtl8139.rs, which is not compiled, and syscalls/lwip.rs; the generated
    table arch/x86_64/kernel/pci_ids.rs; logging and other
    texts; the order in which lib.rs and arch/x86_64/kernel/mod.rs initialise the parts;
    the naked entry points of start.rs and of interrupt handlers, of which Irq.v has what
    they do as a list of actions; thread-local storage of a starting task. Weak memory
    is not modelled: the atomics of the code are sequentially consistent, and operations
    under a lock are single steps. So are, in the machine of Synch.v, the operations of
    recursive mutexes, whose lock leaves interrupts enabled, and of condition variables,
    which have none: there an interrupt or another core in between is shown to lose a task
    ([recmutex_interrupt_loses_waiter]) and otherwise left out. Nor are conflicts of RefCell
    borrows between cores or with an interrupt, which panic, or an isolated function that
    writes PKRU or page tables itself. *)

From stdpp Require Import base numbers list gmap.
From Stdlib Require Import ZArith Lia.

#[local] Open Scope Z_scope.

(** ** Outcomes: values, panics and exhausted fuel *)

Inductive outcome (A : Type) : Type :=
  | Done (a : A)
  | Panic
  | OutOfFuel.
Arguments Done {A} a.
Arguments Panic {A}.
Arguments OutOfFuel {A}.

(** Rust's [Result<T, E>], a value like any other. *)
Inductive result (A E : Type) : Type :=
  | Ok (a : A)
  | Err (e : E).
Arguments Ok {A E} a.
Arguments Err {A E} e.

#[export] Instance outcome_eq_dec {A} `{EqDecision A} : EqDecision (outcome A).
Proof. solve_decision. Defined.
#[export] Instance result_eq_dec {A E} `{EqDecision A, EqDecision E} : EqDecision (result A E).
Proof. solve_decision. Defined.

Definition obind {A B} (m : outcome A) (k : A -> outcome B) : outcome B :=
  match m with
  | Done a => k a
  | Panic => Panic
  | OutOfFuel => OutOfFuel
  end.

(** A stateful computation of the kernel. A panic aborts the kernel
    (the profiles of Cargo.toml say [panic = "abort"]), so it carries no state. *)
Definition M (S A : Type) : Type := S -> outcome (A * S).

Definition ret {S A} (a : A) : M S A := fun s => Done (a, s).
Definition bind {S A B} (m : M S A) (k : A -> M S B) : M S B :=
  fun s => obind (m s) (fun r => k r.1 r.2).
Definition lift {S A} (o : outcome A) : M S A :=
  fun s => obind o (fun a => Done (a, s)).
Definition gets {S A} (f : S -> A) : M S A := fun s => Done (f s, s).
Definition modify {S} (f : S -> S) : M S unit := fun s => Done (tt, f s).
Definition panic {S A} : M S A := fun _ => Panic.
Definition out_of_fuel {S A} : M S A := fun _ => OutOfFuel.

(** [assert!(b)] *)
Definition oassert (b : bool) : outcome unit := if b then Done tt else Panic.
Definition massert {S} (b : bool) : M S unit := lift (oassert b).

(** [Option::unwrap] and [Result::unwrap] *)
Definition unwrap {A} (o : option A) : outcome A :=
  match o with Some a => Done a | None => Panic end.
Definition unwrap_res {A E} (r : result A E) : outcome A :=
  match r with Ok a => Done a | Err _ => Panic end.

Declare Scope kernel_scope.
Delimit Scope kernel_scope with kernel.
Notation "'let!' x ':=' c 'in' k" := (bind c (fun x => k))
  (at level 10, x pattern, c at level 200, k at level 200) : kernel_scope.
Notation "'let?' x ':=' c 'in' k" := (obind c (fun x => k))
  (at level 10, x pattern, c at level 200, k at level 200) : kernel_scope.
Notation "c ;;; k" := (bind c (fun _ => k))
  (at level 199, right associativity) : kernel_scope.
#[global] Open Scope kernel_scope.

(** Whether a computation ends in a value. *)
Definition is_done {A} (o : outcome A) : Prop := exists a, o = Done a.

Lemma bind_done {S A B} (m : M S A) (k : A -> M S B) s a s' :
  m s = Done (a, s') -> bind m k s = k a s'.
Proof. intros H. unfold bind. rewrite H. reflexivity. Qed.

Lemma bind_ret {S A B} (a : A) (k : A -> M S B) s : bind (ret a) k s = k a s.
Proof. reflexivity. Qed.

Lemma bind_lift_done {S A B} (o : outcome A) (k : A -> M S B) a s :
  o = Done a -> bind (lift o) k s = k a s.
Proof. intros ->. reflexivity. Qed.

Lemma bind_assoc {S A B C} (m : M S A) (f : A -> M S B) (g : B -> M S C) s :
  bind (bind m f) g s = bind m (fun a => bind (f a) g) s.
Proof. unfold bind. destruct (m s) as [[a s']| |]; reflexivity. Qed.

Lemma bind_cong {S A B} (m : M S A) (k1 k2 : A -> M S B) s :
  (forall a s', k1 a s' = k2 a s') -> bind m k1 s = bind m k2 s.
Proof. intros H. unfold bind. destruct (m s) as [[a s']| |]; [apply H|reflexivity|reflexivity]. Qed.

Lemma bind_gets {S A B} (f : S -> A) (k : A -> M S B) s : bind (gets f) k s = k (f s) s.
Proof. reflexivity. Qed.

Lemma bind_modify {S B} (f : S -> S) (k : unit -> M S B) s : bind (modify f) k s = k tt (f s).
Proof. reflexivity. Qed.

Lemma bind_massert {S B} (b : bool) (k : unit -> M S B) (s : S) :
  b = true -> bind (massert b) k s = k tt s.
Proof. intros ->. reflexivity. Qed.

(** Runs the steps of a computation whose results are evident; [side] closes
    the conditions of the steps that may panic. *)
Create Rewrite HintDb step.
#[export] Hint Rewrite @bind_assoc @bind_ret @bind_gets @bind_modify : step.
Ltac mrun_with side :=
  repeat (autorewrite with step; cbv beta;
          try (rewrite bind_massert; [|solve [side]])).
Ltac mrun := mrun_with ltac:(done).

(** ** 64-bit machine words

    [usize] and [u64] are integers in [0, 2^64). The default build (profile
    dev, [debug-assertions = true]) checks [+], [-] and [*] for overflow and
    panics; [add64], [sub64] and [mul64] are these checked operations. *)

Definition W64 : Z := 2 ^ 64.
Definition in_u64 (x : Z) : Prop := 0 <= x < W64.

Definition checked (x : Z) : outcome Z :=
  if (0 <=? x) && (x <? W64) then Done x else Panic.
Definition add64 (a b : Z) : outcome Z := checked (a + b).
Definition sub64 (a b : Z) : outcome Z := checked (a - b).
Definition mul64 (a b : Z) : outcome Z := checked (a * b).
Definition not64 (x : Z) : Z := Z.ldiff (Z.ones 64) x.

Lemma checked_done x : in_u64 x -> checked x = Done x.
Proof.
  unfold checked, in_u64. intros [H1 H2].
  rewrite (proj2 (Z.leb_le _ _) H1), (proj2 (Z.ltb_lt _ _) H2). reflexivity.
Qed.

Lemma checked_inv x y : checked x = Done y -> y = x /\ in_u64 x.
Proof.
  unfold checked, in_u64. destruct (Z.leb_spec 0 x), (Z.ltb_spec x W64); simpl; intros; simplify_eq.
  split; [done|lia].
Qed.

Lemma checked_panic x : ~ in_u64 x -> checked x = Panic.
Proof.
  unfold checked, in_u64. intros H.
  destruct (Z.leb_spec 0 x), (Z.ltb_spec x W64); simpl; try done. lia.
Qed.

Lemma add64_done a b : 0 <= a + b < W64 -> add64 a b = Done (a + b).
Proof. apply checked_done. Qed.
Lemma sub64_done a b : 0 <= a - b < W64 -> sub64 a b = Done (a - b).
Proof. apply checked_done. Qed.
Lemma mul64_done a b : 0 <= a * b < W64 -> mul64 a b = Done (a * b).
Proof. apply checked_done. Qed.

Create Rewrite HintDb word.
#[export] Hint Rewrite add64_done sub64_done mul64_done using lia : word.

(** ** Alignment: [align_down!] and [align_up!] of src/macros.rs *)

Definition align_down (value alignment : Z) : outcome Z :=
  let? m := sub64 alignment 1 in Done (Z.land value (not64 m)).

Definition align_up (value alignment : Z) : outcome Z :=
  let? m := sub64 alignment 1 in
  let? v := add64 value m in
  align_down v alignment.

(** The alignments the code uses are powers of two below 2^64. *)
Definition pow2 (a : Z) : Prop := exists k, 0 <= k < 64 /\ a = 2 ^ k.

Lemma pow2_pos a : pow2 a -> 0 < a < W64.
Proof.
  intros (k & Hk & ->). split; [apply Z.pow_pos_nonneg; lia|].
  apply Z.pow_lt_mono_r; lia.
Qed.

Lemma land_not64 v m : in_u64 v -> Z.land v (not64 m) = Z.ldiff v m.
Proof.
  intros Hv. apply Z.bits_inj'. intros n Hn. unfold not64.
  rewrite Z.land_spec, !Z.ldiff_spec.
  destruct (Z.lt_ge_cases n 64).
  - rewrite Z.ones_spec_low by lia. reflexivity.
  - rewrite Z.ones_spec_high by lia.
    assert (Z.testbit v n = false) as ->; [|done].
    destruct (Z.eq_dec v 0) as [->|]; [apply Z.bits_0|].
    apply Z.bits_above_log2; [unfold in_u64 in Hv; lia|].
    apply Z.log2_lt_pow2; [unfold in_u64 in Hv; lia|].
    unfold in_u64, W64 in Hv. pose proof (Z.pow_le_mono_r 2 64 n). lia.
Qed.

Lemma ldiff_pow2 v k : 0 <= k -> Z.ldiff v (2 ^ k - 1) = v - v mod 2 ^ k.
Proof.
  intros Hk. replace (2 ^ k - 1) with (Z.ones k) by (rewrite Z.ones_equiv; lia).
  rewrite Z.ldiff_ones_r by lia.
  rewrite Z.shiftl_mul_pow2, Z.shiftr_div_pow2 by lia.
  pose proof (Z.div_mod v (2 ^ k)). nia.
Qed.

Lemma align_down_done v a :
  in_u64 v -> pow2 a -> align_down v a = Done (v - v mod a).
Proof.
  intros Hv Ha. pose proof (pow2_pos a Ha). unfold align_down.
  rewrite sub64_done by lia. simpl. rewrite land_not64 by done.
  destruct Ha as (k & Hk & ->). rewrite ldiff_pow2 by lia. reflexivity.
Qed.

(** The value [align_up!] computes when nothing overflows. *)
Definition align_up_val (v a : Z) : Z := (v + (a - 1)) - (v + (a - 1)) mod a.

Lemma align_up_done v a :
  0 <= v -> pow2 a -> v + (a - 1) < W64 -> align_up v a = Done (align_up_val v a).
Proof.
  intros Hv Ha Hb. pose proof (pow2_pos a Ha). unfold align_up.
  rewrite sub64_done by lia. simpl. rewrite add64_done by lia. simpl.
  apply align_down_done; [unfold in_u64; lia|done].
Qed.

Lemma align_up_inv v a x :
  0 <= v -> pow2 a -> align_up v a = Done x -> x = align_up_val v a /\ v + (a - 1) < W64.
Proof.
  intros Hv Ha. pose proof (pow2_pos a Ha). unfold align_up.
  rewrite sub64_done by lia. simpl.
  destruct (add64 v (a - 1)) as [w| |] eqn:E; simpl; try done.
  apply checked_inv in E as [-> Hw]. intros H'.
  rewrite align_down_done in H' by done. unfold in_u64 in Hw.
  simplify_eq. split; [done|lia].
Qed.

Lemma align_up_val_spec v a :
  0 < a ->
  v <= align_up_val v a < v + a /\ align_up_val v a mod a = 0.
Proof.
  intros Ha. unfold align_up_val. pose proof (Z.mod_pos_bound (v + (a - 1)) a Ha).
  split; [lia|].
  pose proof (Z.div_mod (v + (a - 1)) a ltac:(lia)) as E.
  replace (v + (a - 1) - (v + (a - 1)) mod a) with ((v + (a - 1)) / a * a) by lia.
  apply Z.mod_mul. lia.
Qed.

(** The aligned address is the least multiple of the alignment not below the value. *)
Lemma align_up_val_least v a x :
  0 < a -> v <= x -> x mod a = 0 -> align_up_val v a <= x.
Proof.
  intros Ha Hx Hm. pose proof (align_up_val_spec v a Ha) as [Hb Hm'].
  destruct (Z.le_gt_cases (align_up_val v a) x) as [|Hlt]; [done|].
  apply Z.mod_divide in Hm as [p ->]; [|lia].
  apply Z.mod_divide in Hm' as [q Hq]; [|lia].
  rewrite Hq in Hb, Hlt. rewrite Hq. assert (q <= p) by nia. nia.
Qed.

Lemma align_up_val_id v a : 0 < a -> v mod a = 0 -> align_up_val v a = v.
Proof.
  intros Ha Hm. pose proof (align_up_val_spec v a Ha) as [Hb _].
  pose proof (align_up_val_least v a v Ha (Z.le_refl v) Hm). lia.
Qed.

(** ** Bits of machine words *)

Lemma testbit_u64_high x n : in_u64 x -> 64 <= n -> Z.testbit x n = false.
Proof.
  unfold in_u64, W64. intros Hx Hn. destruct (Z.eq_dec x 0) as [->|]; [apply Z.bits_0|].
  apply Z.bits_above_log2; [lia|]. apply Z.log2_lt_pow2; [lia|].
  pose proof (Z.pow_le_mono_r 2 64 n). lia.
Qed.

(** A non-negative number without bits from [k] on is below [2 ^ k]. *)
Lemma testbit_bound x k : 0 <= k -> 0 <= x -> (forall n, k <= n -> Z.testbit x n = false) -> x < 2 ^ k.
Proof.
  intros Hk Hx H. destruct (Z.lt_ge_cases x (2 ^ k)) as [|L]; [done|].
  assert (0 < x) by (pose proof (Z.pow_pos_nonneg 2 k); lia).
  pose proof (Z.bit_log2 x ltac:(done)) as B. rewrite H in B; [done|].
  apply Z.log2_le_pow2; done.
Qed.

Lemma in_u64_bits x : 0 <= x -> (forall n, 64 <= n -> Z.testbit x n = false) -> in_u64 x.
Proof. intros. split; [done|]. apply testbit_bound; [lia|done|done]. Qed.

Lemma in_u64_ldiff x y : in_u64 x -> in_u64 (Z.ldiff x y).
Proof.
  intros Hx. apply in_u64_bits; [apply Z.ldiff_nonneg; left; apply Hx|].
  intros n Hn. by rewrite Z.ldiff_spec, testbit_u64_high.
Qed.

Lemma in_u64_lor x y : in_u64 x -> in_u64 y -> in_u64 (Z.lor x y).
Proof.
  intros Hx Hy. apply in_u64_bits; [apply Z.lor_nonneg; split; [apply Hx|apply Hy]|].
  intros n Hn. by rewrite Z.lor_spec, !testbit_u64_high.
Qed.

Lemma in_u64_land x y : in_u64 x -> in_u64 (Z.land x y).
Proof.
  intros Hx. apply in_u64_bits; [apply Z.land_nonneg; left; apply Hx|].
  intros n Hn. by rewrite Z.land_spec, testbit_u64_high.
Qed.

#[export] Hint Resolve in_u64_ldiff in_u64_lor in_u64_land : core.

(** The bits of a run of [k] ones from bit [s] on. *)
Lemma testbit_field k s n : 0 <= k -> 0 <= s -> 0 <= n ->
  Z.testbit (Z.shiftl (Z.ones k) s) n = (s <=? n) && (n <? s + k).
Proof.
  intros. rewrite Z.shiftl_spec by lia. destruct (Z.leb_spec s n); simpl.
  - rewrite Z.testbit_ones_nonneg by lia. destruct (Z.ltb_spec (n - s) k), (Z.ltb_spec n (s + k)); try done; lia.
  - apply Z.testbit_neg_r. lia.
Qed.

Lemma testbit_mod_pow2 a k n : 0 <= k -> 0 <= n -> Z.testbit (a mod 2 ^ k) n = (n <? k) && Z.testbit a n.
Proof.
  intros. destruct (Z.ltb_spec n k).
  - by rewrite Z.mod_pow2_bits_low.
  - by rewrite Z.mod_pow2_bits_high.
Qed.

(** Multiples of [2 ^ k] have no bits below [k]. *)
Lemma testbit_mod_low x k n : 0 <= n < k -> x mod 2 ^ k = 0 -> Z.testbit x n = false.
Proof.
  intros Hn Hm. rewrite <- (Z.mod_pow2_bits_low x k n) by lia. rewrite Hm. apply Z.bits_0.
Qed.

Lemma mod_pow2_bits x k : 0 <= k -> (forall n, 0 <= n < k -> Z.testbit x n = false) -> x mod 2 ^ k = 0.
Proof.
  intros Hk H. apply Z.bits_inj'. intros n Hn. rewrite testbit_mod_pow2, Z.bits_0 by lia.
  destruct (Z.ltb_spec n k); [apply H; lia|done].
Qed.

(** Decides an equation between words bit by bit; the case splits of the index
    are left to [lia]. *)
Create Rewrite HintDb zbit.
#[export] Hint Rewrite Z.lor_spec Z.land_spec Z.ldiff_spec Z.bits_0 : zbit.
#[export] Hint Rewrite Z.shiftl_spec Z.shiftr_spec Z.testbit_ones_nonneg Z.pow2_bits_eqb
  testbit_mod_pow2 using lia : zbit.

Ltac zbit_cases :=
  repeat match goal with
  | |- context [Z.ltb ?a ?b] => destruct (Z.ltb_spec a b); [|]
  | |- context [Z.leb ?a ?b] => destruct (Z.leb_spec a b); [|]
  | |- context [Z.eqb ?a ?b] => destruct (Z.eqb_spec a b); [|]
  end; try lia.

Ltac zbits :=
  apply Z.bits_inj'; let n := fresh "n" in let Hn := fresh "Hn" in intros n Hn;
  autorewrite with zbit; zbit_cases.

(** Words without common bits are added by [|]. *)
Lemma lor_add_low a b k : 0 <= k -> a mod 2 ^ k = 0 -> 0 <= b < 2 ^ k -> Z.lor a b = a + b.
Proof.
  intros Hk Ha Hb. assert (Z.land a b = 0) as E.
  { apply Z.bits_inj'. intros n Hn. rewrite Z.land_spec, Z.bits_0. destruct (Z.lt_ge_cases n k).
    - by rewrite (testbit_mod_low a k).
    - rewrite <- (Z.mod_small b (2 ^ k)) by done. rewrite testbit_mod_pow2 by lia.
      destruct (Z.ltb_spec n k); [lia|]. apply andb_false_r. }
  pose proof (Z.add_lor_land a b). lia.
Qed.
