(* ===== verification/Links.v ===== *)
(** * Doubly linked segments

    Two structures of the kernel are doubly linked lists threaded through
    reference-counted nodes: [DoublyLinkedList] of
    src/collections/doublylinkedlist.rs, whose nodes own a value, and the
    queues of src/scheduler/task.rs, whose nodes are the tasks themselves. Both
    keep a store of nodes indexed by the identity of the [Rc]; this file proves
    once, for any node type with two link fields, how a chain of nodes behaves
    when a node is linked in, linked out or given a new link. *)

From S2P Require Import Prelude.
From stdpp Require Import base list gmap.

(** A node with a payload and two links, and the laws of its field updates. *)
Class Linked (N P : Type) := {
  l_val : N -> P;
  l_prev : N -> option nat;
  l_next : N -> option nat;
  set_prev : option nat -> N -> N;
  set_next : option nat -> N -> N;
}.

Class LinkedLaws (N P : Type) `{Linked N P} := {
  val_set_prev : forall p (n : N), l_val (set_prev p n) = l_val n;
  val_set_next : forall p (n : N), l_val (set_next p n) = l_val n;
  prev_set_prev : forall p (n : N), l_prev (set_prev p n) = p;
  prev_set_next : forall p (n : N), l_prev (set_next p n) = l_prev n;
  next_set_prev : forall p (n : N), l_next (set_prev p n) = l_next n;
  next_set_next : forall p (n : N), l_next (set_next p n) = p;
}.

Section segments.
Context {N P : Type} `{LinkedLaws N P}.
Implicit Types (m : gmap nat N) (l : list (nat * P)).

(** The node a chain starts with, and the one it ends with. *)
Definition first (l : list (nat * P)) (n : option nat) : option nat :=
  match l with [] => n | (i, _) :: _ => Some i end.

Fixpoint last_id (l : list (nat * P)) (p : option nat) : option nat :=
  match l with [] => p | (i, _) :: l' => last_id l' (Some i) end.

(** [seg m p l n]: the store [m] holds the chain [l]; its first node has
    [p] before it and its last node has [n] after it. *)
Fixpoint seg (m : gmap nat N) (p : option nat) (l : list (nat * P)) (n : option nat) : Prop :=
  match l with
  | [] => True
  | (i, v) :: l' =>
      (exists nd, m !! i = Some nd /\ l_val nd = v /\ l_prev nd = p /\ l_next nd = first l' n)
      /\ seg m (Some i) l' n
  end.

Lemma first_app l1 l2 n : first (l1 ++ l2) n = first l1 (first l2 n).
Proof. destruct l1 as [|[i v] l1]; done. Qed.

Lemma last_id_app l1 l2 p : last_id (l1 ++ l2) p = last_id l2 (last_id l1 p).
Proof. revert p. induction l1 as [|[i v] l1 IH]; intros p; simpl; done. Qed.

Lemma last_id_snoc l i v p : last_id (l ++ [(i, v)]) p = Some i.
Proof. rewrite last_id_app. done. Qed.

Lemma seg_app m p l1 l2 n :
  seg m p (l1 ++ l2) n <-> seg m p l1 (first l2 n) /\ seg m (last_id l1 p) l2 n.
Proof.
  revert p. induction l1 as [|[i v] l1 IH]; intros p; simpl; [tauto|].
  rewrite IH, first_app. tauto.
Qed.

Lemma seg_ext m m' p l n :
  (forall i, i ∈ l.*1 -> m' !! i = m !! i) -> seg m p l n -> seg m' p l n.
Proof.
  revert p. induction l as [|[i v] l IH]; intros p Hm; simpl; [done|].
  intros [Hn Hs]. rewrite Hm by (simpl; apply list_elem_of_here). split; [done|].
  apply IH; [|done]. intros j Hj. apply Hm. simpl. apply list_elem_of_further. done.
Qed.

Lemma seg_insert_other m p l n i nd :
  i ∉ l.*1 -> seg m p l n -> seg (<[i:=nd]> m) p l n.
Proof.
  intros Hi. apply seg_ext. intros j Hj. apply lookup_insert_ne. congruence.
Qed.

Lemma seg_lookup m p l1 i v l2 n :
  seg m p (l1 ++ (i, v) :: l2) n ->
  exists nd, m !! i = Some nd /\ l_val nd = v
             /\ l_prev nd = last_id l1 p /\ l_next nd = first l2 n.
Proof. rewrite seg_app. simpl. tauto. Qed.

(** A chain is either empty or ends in a node. *)
Lemma chain_snoc l p :
  (l = [] /\ last_id l p = p) \/ exists l' i v, l = l' ++ [(i, v)] /\ last_id l p = Some i.
Proof.
  destruct l as [|[i v] l'] using rev_ind; [by left|].
  right. exists l', i, v. rewrite last_id_snoc. done.
Qed.

Lemma seg_alter_other m p l n i f :
  i ∉ l.*1 -> seg m p l n -> seg (alter f i m) p l n.
Proof.
  intros Hi. apply seg_ext. intros j Hj. apply lookup_alter_ne. congruence.
Qed.

(** Relinking the last node to [n']. *)
Lemma seg_alter_next m p l i v n n' :
  i ∉ l.*1 ->
  seg m p (l ++ [(i, v)]) n -> seg (alter (set_next n') i m) p (l ++ [(i, v)]) n'.
Proof.
  intros Hi. rewrite !seg_app. simpl. intros [Hl [(nd & Hnd & Hv & Hp & Hn) _]].
  split; [apply seg_alter_other; done|]. split; [|done].
  exists (set_next n' nd). rewrite lookup_alter_eq, Hnd.
  rewrite val_set_next, prev_set_next, next_set_next. done.
Qed.

(** Relinking the first node to [p']. *)
Lemma seg_alter_prev m p l i v n p' :
  i ∉ l.*1 ->
  seg m p ((i, v) :: l) n -> seg (alter (set_prev p') i m) p' ((i, v) :: l) n.
Proof.
  intros Hi. simpl. intros [(nd & Hnd & Hv & Hp & Hn) Hl].
  split; [|apply seg_alter_other; done].
  exists (set_prev p' nd). rewrite lookup_alter_eq, Hnd.
  rewrite val_set_prev, prev_set_prev, next_set_prev. done.
Qed.

(** Relinking the node in front of a chain, or behind it, if there is one. *)
Definition link_next (o : option nat) (x : option nat) m : gmap nat N :=
  match o with Some a => alter (set_next x) a m | None => m end.
Definition link_prev (o : option nat) (x : option nat) m : gmap nat N :=
  match o with Some a => alter (set_prev x) a m | None => m end.

Lemma seg_link_next m l n x :
  NoDup l.*1 -> seg m None l n -> seg (link_next (last_id l None) x m) None l x.
Proof.
  destruct (chain_snoc l None) as [[-> E]|(l' & a & v & -> & E)]; [done|].
  rewrite E. simpl. rewrite fmap_app. intros (_ & Hd & _)%NoDup_app Hs.
  apply seg_alter_next with n; [|done].
  intros Ha. apply (Hd _ Ha). apply list_elem_of_here.
Qed.

Lemma seg_link_prev m p l x :
  NoDup l.*1 -> seg m p l None -> seg (link_prev (first l None) x m) x l None.
Proof.
  destruct l as [|[a v] l]; [done|]. simpl first. intros [Ha _]%NoDup_cons Hs.
  apply seg_alter_prev with p; done.
Qed.

Lemma last_id_in l p a : last_id l p = Some a -> p = Some a \/ a ∈ l.*1.
Proof.
  destruct (chain_snoc l p) as [[-> E]|(l' & i & v & -> & E)]; rewrite E; intros; simplify_eq; [by left|].
  right. rewrite fmap_app. set_solver.
Qed.

Lemma first_in l n a : first l n = Some a -> n = Some a \/ a ∈ l.*1.
Proof. destruct l as [|[i v] l]; simpl; intros; simplify_eq; [by left|set_solver]. Qed.

Lemma seg_link_next_other m p l n o x :
  (forall a, o = Some a -> a ∉ l.*1) -> seg m p l n -> seg (link_next o x m) p l n.
Proof. destruct o; simpl; [|done]. intros Ha. apply seg_alter_other. apply Ha. done. Qed.

Lemma seg_link_prev_other m p l n o x :
  (forall a, o = Some a -> a ∉ l.*1) -> seg m p l n -> seg (link_prev o x m) p l n.
Proof. destruct o; simpl; [|done]. intros Ha. apply seg_alter_other. apply Ha. done. Qed.

Lemma mid_nodup l1 i v l2 :
  NoDup (l1 ++ (i, v) :: l2).*1 <-> i ∉ (l1 ++ l2).*1 /\ NoDup (l1 ++ l2).*1.
Proof. rewrite !fmap_app. simpl. rewrite <- Permutation_middle. apply NoDup_cons. Qed.

Lemma mid_in l1 i v l2 j :
  j ∈ (l1 ++ (i, v) :: l2).*1 <-> j = i \/ j ∈ (l1 ++ l2).*1.
Proof. rewrite !fmap_app. simpl. set_solver. Qed.

Lemma last_first_disjoint l1 l2 a :
  NoDup (l1 ++ l2).*1 -> last_id l1 None = Some a -> a ∉ l2.*1.
Proof.
  rewrite fmap_app. intros (_ & Hd & _)%NoDup_app [|Ha]%last_id_in; [done|]. apply Hd. done.
Qed.

Lemma first_last_disjoint l1 l2 a :
  NoDup (l1 ++ l2).*1 -> first l2 None = Some a -> a ∉ l1.*1.
Proof.
  rewrite fmap_app. intros (_ & Hd & _)%NoDup_app [|Ha]%first_in Hin; [done|]. apply (Hd a Hin Ha).
Qed.

(** Both neighbours of a gap relinked: to the node [i] now between them, or
    to each other. *)
Lemma seg_relink m l1 l2 x y :
  NoDup (l1 ++ l2).*1 -> seg m None l1 x -> seg m y l2 None ->
  forall x' y',
    let m' := link_prev (first l2 None) y' (link_next (last_id l1 None) x' m) in
    seg m' None l1 x' /\ seg m' y' l2 None.
Proof.
  intros Hnd H1 H2 x' y'. simpl.
  pose proof Hnd as Hnd2. rewrite fmap_app in Hnd2. apply NoDup_app in Hnd2 as (Hn1 & _ & Hn2).
  split.
  - apply seg_link_prev_other; [intros a Ha; apply (first_last_disjoint l1 l2 a Hnd Ha)|].
    apply seg_link_next with x; done.
  - apply seg_link_prev with y; [done|].
    apply seg_link_next_other; [intros a Ha; apply (last_first_disjoint l1 l2 a Hnd Ha)|done].
Qed.

(** Splicing a node into a chain, and taking one out. *)
Lemma seg_splice m l1 i v l2 nd :
  NoDup (l1 ++ (i, v) :: l2).*1 ->
  seg m None (l1 ++ l2) None ->
  m !! i = Some nd -> l_val nd = v ->
  l_prev nd = last_id l1 None -> l_next nd = first l2 None ->
  seg (link_prev (first l2 None) (Some i) (link_next (last_id l1 None) (Some i) m))
      None (l1 ++ (i, v) :: l2) None.
Proof.
  intros [Hi Hnd]%mid_nodup [H1 H2]%seg_app Hnd' Hv Hp Hn.
  destruct (seg_relink m l1 l2 _ _ Hnd H1 H2 (Some i) (Some i)) as [H1' H2'].
  rewrite seg_app. simpl. split; [done|]. split; [|done].
  exists nd. split; [|done]. rewrite fmap_app in Hi.
  assert (forall a, first l2 None = Some a -> a <> i) as Ha.
  { intros a Ha ->. apply first_in in Ha as [|]; [done|set_solver]. }
  assert (forall a, last_id l1 None = Some a -> a <> i) as Hb.
  { intros a Hb ->. apply last_id_in in Hb as [|]; [done|set_solver]. }
  unfold link_prev, link_next.
  destruct (first l2 None) eqn:E1, (last_id l1 None) eqn:E2;
    rewrite ?lookup_alter_ne by eauto; done.
Qed.

Lemma seg_unlink m l1 i v l2 f :
  NoDup (l1 ++ (i, v) :: l2).*1 ->
  seg m None (l1 ++ (i, v) :: l2) None ->
  seg (link_prev (first l2 None) (last_id l1 None)
        (link_next (last_id l1 None) (first l2 None) (alter f i m))) None (l1 ++ l2) None.
Proof.
  intros [Hi Hnd]%mid_nodup Hs. apply seg_app in Hs as [H1 [_ H2]].
  rewrite fmap_app in Hi. apply seg_app.
  apply (seg_alter_other _ _ _ _ i f) in H1; [|set_solver].
  apply (seg_alter_other _ _ _ _ i f) in H2; [|set_solver].
  eapply seg_relink; done.
Qed.

Lemma link_lookup_ne m o x j :
  (forall a, o = Some a -> a <> j) ->
  link_next o x m !! j = m !! j /\ link_prev o x m !! j = m !! j.
Proof. destruct o; simpl; [|done]. intros Ha. rewrite !lookup_alter_ne by eauto. done. Qed.

Lemma link_lookup_None m o x j :
  (link_next o x m !! j = None <-> m !! j = None) /\
  (link_prev o x m !! j = None <-> m !! j = None).
Proof. destruct o; simpl; [|done]. rewrite !lookup_alter_None. done. Qed.

(** Replacing a node by one with the same links and another payload. *)
Lemma seg_set_val m p l1 i v l2 n nd v' :
  NoDup (l1 ++ (i, v) :: l2).*1 ->
  l_val nd = v' -> l_prev nd = last_id l1 p -> l_next nd = first l2 n ->
  seg m p (l1 ++ (i, v) :: l2) n ->
  seg (<[i:=nd]> m) p (l1 ++ (i, v') :: l2) n.
Proof.
  rewrite fmap_app. simpl. intros Hnd Hv Hp Hn. rewrite !seg_app. simpl.
  apply NoDup_app in Hnd as (_ & Hd & [Hi _]%NoDup_cons).
  intros [H1 [_ H2]]. split; [|split].
  - apply seg_insert_other; [|done]. intros Hin. apply (Hd i Hin). apply list_elem_of_here.
  - exists nd. split; [apply lookup_insert_eq|]. done.
  - apply seg_insert_other; done.
Qed.

(** The identities of a chain whose nodes are below a bound are few. *)
Lemma chain_length l b :
  NoDup l.*1 -> (forall i, i ∈ l.*1 -> (i < b)%nat) -> (length l <= b)%nat.
Proof.
  intros Hnd Hb.
  assert (length l.*1 <= length (seq 0 b))%nat as Hle.
  { apply submseteq_length, NoDup_submseteq; [done|].
    intros i Hi. apply elem_of_seq. specialize (Hb i Hi). lia. }
  rewrite length_fmap, length_seq in Hle. done.
Qed.
End segments.
