(* ===== verification/Collections.v ===== *)
(** * src/collections/doublylinkedlist.rs

    [DoublyLinkedList<T>]: a list of reference-counted nodes. The model keeps
    the nodes in a store indexed by the identity of their [Rc]; [Node_new]
    allocates a fresh identity. [RefCell] is checked: taking [borrow_mut] of a
    node that the same operation still borrows panics, as it does in Rust.

    The second half shows that each operation implements the operation on
    sequences it stands for, on any list that satisfies [dll_repr]. *)

From S2P Require Import Prelude Links.
From stdpp Require Import base list gmap.

Record Node (T : Type) := mkNode {
  value : T;
  prev : option nat;
  next : option nat;
}.
Arguments mkNode {T} _ _ _.
Arguments value {T} _.
Arguments prev {T} _.
Arguments next {T} _.

#[export] Instance Node_linked T : Linked (Node T) T := {
  l_val := value;
  l_prev := prev;
  l_next := next;
  set_prev p n := mkNode (value n) p (next n);
  set_next p n := mkNode (value n) (prev n) p;
}.

#[export] Instance Node_linked_laws T : LinkedLaws (Node T) T.
Proof. split; reflexivity. Qed.

Definition set_value {T} (v : T) (n : Node T) : Node T := mkNode v (prev n) (next n).

Record DoublyLinkedList (T : Type) := mkDll {
  mem : gmap nat (Node T);
  next_rc : nat;
  head : option nat;
  tail : option nat;
}.
Arguments mkDll {T} _ _ _ _.
Arguments mem {T} _.
Arguments next_rc {T} _.
Arguments head {T} _.
Arguments tail {T} _.

Definition with_mem {T} (f : gmap nat (Node T) -> gmap nat (Node T)) (L : DoublyLinkedList T) :=
  mkDll (f (mem L)) (next_rc L) (head L) (tail L).
Definition with_head {T} (h : option nat) (L : DoublyLinkedList T) :=
  mkDll (mem L) (next_rc L) h (tail L).
Definition with_tail {T} (t : option nat) (L : DoublyLinkedList T) :=
  mkDll (mem L) (next_rc L) (head L) t.

Definition DoublyLinkedList_new {T} : DoublyLinkedList T := mkDll ∅ 0 None None.

Section operations.
Context {T : Type}.
Abbreviation dllM := (M (DoublyLinkedList T)).

(** [Node::new]: a fresh node, not mounted to any list. *)
Definition Node_new (v : T) : dllM nat :=
  fun L => Done (next_rc L,
    mkDll (<[next_rc L := mkNode v None None]> (mem L)) (S (next_rc L)) (head L) (tail L)).

(** [node.borrow()] *)
Definition borrow (i : nat) : dllM (Node T) :=
  fun L => match mem L !! i with Some n => Done (n, L) | None => Panic end.

(** [node.borrow_mut()] while the nodes of [held] are borrowed. *)
Definition borrow_mut (held : list nat) (i : nat) : dllM (Node T) :=
  massert (negb (existsb (Nat.eqb i) held)) ;;; borrow i.

(** A write through a mutable borrow. *)
Definition update (i : nat) (f : Node T -> Node T) : dllM unit :=
  modify (with_mem (alter f i)).

Definition is_unmounted (n : Node T) : bool :=
  match prev n, next n with None, None => true | _, _ => false end.

Definition push (new_node : nat) : dllM unit :=
  let! new_node_borrowed := borrow_mut [] new_node in
  massert (is_unmounted new_node_borrowed) ;;;
  let! old_tail := gets tail in
  modify (with_tail None) ;;;
  (match old_tail with
   | Some t =>
       let! _ := borrow_mut [new_node] t in
       update t (set_next (Some new_node)) ;;;
       update new_node (set_prev (Some t))
   | None => modify (with_head (Some new_node))
   end) ;;;
  modify (with_tail (Some new_node)).

Definition insert_before (new_node node : nat) : dllM unit :=
  let! node_borrowed := borrow_mut [] node in
  let! new_node_borrowed := borrow_mut [node] new_node in
  massert (is_unmounted new_node_borrowed) ;;;
  update node (set_prev None) ;;;
  (match prev node_borrowed with
   | Some prev_node =>
       let! _ := borrow_mut [node; new_node] prev_node in
       update prev_node (set_next (Some new_node)) ;;;
       update new_node (set_prev (Some prev_node))
   | None => modify (with_head (Some new_node))
   end) ;;;
  update new_node (set_next (Some node)) ;;;
  update node (set_prev (Some new_node)).

Definition insert_after (new_node node : nat) : dllM unit :=
  let! node_borrowed := borrow_mut [] node in
  let! new_node_borrowed := borrow_mut [node] new_node in
  massert (is_unmounted new_node_borrowed) ;;;
  update node (set_next None) ;;;
  (match next node_borrowed with
   | Some next_node =>
       let! _ := borrow_mut [node; new_node] next_node in
       update next_node (set_prev (Some new_node)) ;;;
       update new_node (set_next (Some next_node))
   | None => modify (with_tail (Some new_node))
   end) ;;;
  update new_node (set_prev (Some node)) ;;;
  update node (set_next (Some new_node)).

Definition remove (node : nat) : dllM unit :=
  let! borrowed := borrow_mut [] node in
  update node (fun n => set_next None (set_prev None n)) ;;;
  (match prev borrowed with
   | Some prev_node =>
       let! _ := borrow_mut [] prev_node in update prev_node (set_next (next borrowed))
   | None => modify (with_head (next borrowed))
   end) ;;;
  (match next borrowed with
   | Some next_node =>
       let! _ := borrow_mut [] next_node in update next_node (set_prev (prev borrowed))
   | None => modify (with_tail (prev borrowed))
   end).

(** [Iter::next]: the iterator holds the node it will return next; it steps
    to the successor before it hands the node out, so the body of a [for]
    loop may remove the node it is visiting. *)
Definition iter : dllM (option nat) := gets head.
Definition Iter_next (current : option nat) : dllM (option (nat * option nat)) :=
  match current with
  | None => ret None
  | Some node => let! n := borrow node in ret (Some (node, next n))
  end.

(** [for node in list.iter() { .. return r .. }]: [body] returns [Some r]
    where the Rust code leaves the enclosing function with [r]. *)
Fixpoint for_nodes {R} (fuel : nat) (current : option nat)
    (body : nat -> dllM (option R)) : dllM (option R) :=
  match fuel with
  | O => out_of_fuel
  | S fuel =>
      let! step := Iter_next current in
      match step with
      | None => ret None
      | Some (node, rest) =>
          let! r := body node in
          match r with
          | Some x => ret (Some x)
          | None => for_nodes fuel rest body
          end
      end
  end.

(** A list of [n] allocated nodes has at most [n] mounted ones. *)
Definition iter_fuel (L : DoublyLinkedList T) : nat := S (S (next_rc L)).
End operations.

(** ** What a list represents *)

Section refinement.
Context {T : Type}.
Implicit Types (L : DoublyLinkedList T) (l : list (nat * T)).

(** [L] holds the nodes [l], identity and value, in order. *)
Record dll_repr L l : Prop := mkRepr {
  repr_nodup : NoDup l.*1;
  repr_bound : forall i, i ∈ l.*1 -> (i < next_rc L)%nat;
  repr_fresh : forall i, (next_rc L <= i)%nat -> mem L !! i = None;
  repr_head : head L = first l None;
  repr_tail : tail L = last_id l None;
  repr_seg : seg (mem L) None l None;
}.

(** A node that was created and is in no list. *)
Definition detached L l (i : nat) (v : T) : Prop :=
  mem L !! i = Some (mkNode v None None) /\ i ∉ l.*1 /\ (i < next_rc L)%nat.

Lemma dll_repr_empty : dll_repr (DoublyLinkedList_new (T:=T)) [].
Proof.
  split; simpl; [constructor|intros i Hi; set_solver| | | |]; try done.
Qed.

Lemma Node_new_repr L l v :
  dll_repr L l ->
  exists L', Node_new v L = Done (next_rc L, L') /\ dll_repr L' l /\ detached L' l (next_rc L) v.
Proof.
  intros [Hnd Hb Hf Hh Ht Hs]. eexists. split; [reflexivity|].
  assert (next_rc L ∉ l.*1) as Hnew by (intros Hi; apply Hb in Hi; lia).
  split.
  - split; simpl; try done.
    + intros i Hi. apply Hb in Hi. lia.
    + intros i Hi. rewrite lookup_insert_ne by lia. apply Hf. lia.
    + apply seg_insert_other; done.
  - split; [apply lookup_insert_eq|]. simpl. split; [done|lia].
Qed.

Lemma borrow_repr L l1 i v l2 :
  dll_repr L (l1 ++ (i, v) :: l2) ->
  borrow i L = Done (mkNode v (last_id l1 None) (first l2 None), L).
Proof.
  intros HR. destruct (seg_lookup _ _ _ _ _ _ _ (repr_seg _ _ HR)) as (nd & Hi & Hv & Hp & Hn).
  unfold borrow. rewrite Hi. destruct nd as [v' p' n']. simpl in *. subst. reflexivity.
Qed.

Lemma dll_repr_length L l : dll_repr L l -> (length l <= next_rc L)%nat.
Proof. intros HR. apply chain_length; [apply (repr_nodup _ _ HR)|apply (repr_bound _ _ HR)]. Qed.
End refinement.

(** Pointwise equality of stores built by updates. *)
Ltac map_pt :=
  apply map_eq; intros ?j;
  repeat (rewrite ?lookup_alter, ?lookup_insert; case_decide; subst; simpl; try congruence);
  rewrite ?lookup_alter, ?lookup_insert; simplify_map_eq; try done.

Section list_operations.
Context {T : Type}.
Implicit Types (L : DoublyLinkedList T) (l : list (nat * T)).

Lemma bind_borrow_mut {B} held i (k : Node T -> M _ B) L n :
  mem L !! i = Some n -> i ∉ held -> bind (borrow_mut held i) k L = k n L.
Proof.
  intros Hi Hh. unfold borrow_mut. mrun. rewrite bind_massert.
  - unfold borrow, bind. rewrite Hi. done.
  - apply negb_true_iff, not_true_iff_false. rewrite existsb_exists.
    intros (x & Hx & ->%Nat.eqb_eq). apply Hh. apply list_elem_of_In. done.
Qed.

Lemma bind_update {B} i f (k : unit -> M _ B) L :
  bind (update i f) k L = k tt (with_mem (alter f i) L).
Proof. reflexivity. Qed.

(** A chain with a new node spliced in, or with a node taken out. *)
Lemma repr_splice L L' l1 i v l2 :
  dll_repr L (l1 ++ l2) -> detached L (l1 ++ l2) i v ->
  next_rc L' = next_rc L ->
  mem L' = link_prev (first l2 None) (Some i)
             (link_next (last_id l1 None) (Some i)
               (<[i := mkNode v (last_id l1 None) (first l2 None)]> (mem L))) ->
  head L' = first (l1 ++ (i, v) :: l2) None ->
  tail L' = last_id (l1 ++ (i, v) :: l2) None ->
  dll_repr L' (l1 ++ (i, v) :: l2).
Proof.
  intros [Hnd Hb Hf Hh Ht Hs] (Hi & Hil & Hib) Hrc Hm Hh' Ht'.
  assert (NoDup (l1 ++ (i, v) :: l2).*1) as Hnd' by (apply mid_nodup; done).
  split; try done.
  - intros j [->|Hj]%mid_in; rewrite Hrc; [done|]. apply Hb. done.
  - intros j Hj. rewrite Hm. apply link_lookup_None, link_lookup_None.
    rewrite lookup_insert_ne by lia. apply Hf. lia.
  - rewrite Hm. eapply seg_splice; [done| |apply lookup_insert_eq|done..].
    apply seg_insert_other; done.
Qed.

Lemma repr_unlink L L' l1 i v l2 f :
  dll_repr L (l1 ++ (i, v) :: l2) ->
  next_rc L' = next_rc L ->
  mem L' = link_prev (first l2 None) (last_id l1 None)
             (link_next (last_id l1 None) (first l2 None) (alter f i (mem L))) ->
  head L' = first (l1 ++ l2) None ->
  tail L' = last_id (l1 ++ l2) None ->
  dll_repr L' (l1 ++ l2).
Proof.
  intros [Hnd Hb Hf Hh Ht Hs] Hrc Hm Hh' Ht'.
  pose proof Hnd as [_ Hnd']%mid_nodup.
  split; try done.
  - intros j Hj. rewrite Hrc. apply Hb. apply mid_in. by right.
  - intros j Hj. rewrite Hm. apply link_lookup_None, link_lookup_None.
    rewrite lookup_alter_None. apply Hf. lia.
  - rewrite Hm. eapply seg_unlink; done.
Qed.

Lemma repr_lookup L l1 i v l2 :
  dll_repr L (l1 ++ (i, v) :: l2) ->
  mem L !! i = Some (mkNode v (last_id l1 None) (first l2 None)).
Proof.
  intros HR. destruct (seg_lookup _ _ _ _ _ _ _ (repr_seg _ _ HR)) as (nd & Hi & Hv & Hp & Hn).
  rewrite Hi. destruct nd. simpl in *. subst. done.
Qed.

Lemma repr_lookup_in L l j : dll_repr L l -> j ∈ l.*1 -> exists n, mem L !! j = Some n.
Proof.
  intros HR ([i v] & -> & Hin)%list_elem_of_fmap.
  apply list_elem_of_split in Hin as (l1 & l2 & ->). eexists. apply (repr_lookup _ _ _ _ _ HR).
Qed.

(** A neighbour of the node [n] that an operation borrows: it exists in the
    store even after [n] was written, and it is not [n]. *)
Lemma repr_neighbour L l1 n w l2 j f :
  dll_repr L (l1 ++ (n, w) :: l2) -> last_id l1 None = Some j \/ first l2 None = Some j ->
  j <> n /\ j ∈ (l1 ++ (n, w) :: l2).*1 /\ exists x, alter f n (mem L) !! j = Some x.
Proof.
  intros HR Hj. pose proof (repr_nodup _ _ HR) as [Hnl _]%mid_nodup.
  assert (j ∈ (l1 ++ l2).*1) as Hin.
  { rewrite fmap_app. destruct Hj as [Hj|Hj]; [apply last_id_in in Hj|apply first_in in Hj];
      destruct Hj; set_solver. }
  assert (j <> n) as Hjn by (intros ->; done).
  assert (j ∈ (l1 ++ (n, w) :: l2).*1) as Hin' by (apply mid_in; by right).
  split; [done|]. split; [done|].
  destruct (repr_lookup_in _ _ _ HR Hin') as (x & Hx).
  exists x. rewrite lookup_alter_ne by done. done.
Qed.

Lemma push_repr L l i v :
  dll_repr L l -> detached L l i v ->
  exists L', push i L = Done (tt, L') /\ dll_repr L' (l ++ [(i, v)]).
Proof.
  intros HR Hd. pose proof HR as [Hnd Hb Hf Hh Ht Hs]. pose proof Hd as (Hi & Hil & Hib).
  unfold push. rewrite (bind_borrow_mut _ _ _ _ _ Hi) by set_solver. mrun. rewrite Ht.
  rewrite <- (app_nil_r l) in HR, Hd.
  destruct (chain_snoc l None) as [[-> E]|(l' & t & tv & -> & E)].
  - simpl last_id. cbv iota. mrun. eexists. split; [reflexivity|].
    apply (repr_splice L _ [] i v []); try done. simpl. map_pt.
  - rewrite E. cbv iota.
    destruct (repr_lookup_in L _ t HR) as (nt & Hnt); [rewrite !fmap_app; set_solver|].
    rewrite fmap_app in Hil. simpl in Hil. mrun.
    rewrite (bind_borrow_mut _ _ _ _ nt) by (try done; set_solver).
    rewrite !bind_assoc, bind_update. unfold update, modify at 1. mrun.
    eexists. split; [reflexivity|].
    apply (repr_splice L _ _ i v []); try done; simpl.
    + rewrite E. simpl. map_pt.
    + rewrite !first_app, Hh, first_app. done.
    + rewrite last_id_snoc. done.
Qed.

Lemma insert_before_repr L l1 n w l2 i v :
  dll_repr L (l1 ++ (n, w) :: l2) -> detached L (l1 ++ (n, w) :: l2) i v ->
  exists L', insert_before i n L = Done (tt, L')
             /\ dll_repr L' (l1 ++ (i, v) :: (n, w) :: l2).
Proof.
  intros HR Hd. pose proof HR as [Hnd Hb Hf Hh Ht Hs]. pose proof Hd as (Hi & Hil & Hib).
  pose proof (repr_lookup _ _ _ _ _ HR) as Hn.
  assert (i <> n) as Hin by (intros ->; apply Hil, mid_in; by left).
  unfold insert_before. rewrite (bind_borrow_mut _ _ _ _ _ Hn) by set_solver.
  rewrite (bind_borrow_mut _ _ _ _ _ Hi) by set_solver. mrun. rewrite bind_update. cbn [prev].
  destruct (last_id l1 None) as [p|] eqn:E.
  - destruct (repr_neighbour L l1 n w l2 p (set_prev None) HR) as (Hpn & Hpl & x & Hx); [by left|].
    assert (p <> i) by (intros ->; done).
    mrun. rewrite (bind_borrow_mut _ _ _ _ x) by (try done; set_solver).
    mrun. rewrite !bind_update. unfold update, modify. eexists. split; [reflexivity|].
    apply (repr_splice L _ l1 i v ((n, w) :: l2)); try done; simpl.
    + rewrite E. simpl. map_pt.
    + rewrite Hh, !first_app. destruct l1 as [|[] ]; done.
    + rewrite Ht, !last_id_app. done.
  - destruct (chain_snoc l1 None) as [[-> _]|(? & ? & ? & -> & E')]; [|congruence].
    mrun. rewrite bind_update. unfold update, modify. eexists. split; [reflexivity|].
    apply (repr_splice L _ [] i v ((n, w) :: l2)); try done. simpl. map_pt.
Qed.

Lemma insert_after_repr L l1 n w l2 i v :
  dll_repr L (l1 ++ (n, w) :: l2) -> detached L (l1 ++ (n, w) :: l2) i v ->
  exists L', insert_after i n L = Done (tt, L')
             /\ dll_repr L' (l1 ++ (n, w) :: (i, v) :: l2).
Proof.
  intros HR Hd. pose proof HR as [Hnd Hb Hf Hh Ht Hs]. pose proof Hd as (Hi & Hil & Hib).
  pose proof (repr_lookup _ _ _ _ _ HR) as Hn.
  assert (i <> n) as Hin by (intros ->; apply Hil, mid_in; by left).
  unfold insert_after. rewrite (bind_borrow_mut _ _ _ _ _ Hn) by set_solver.
  rewrite (bind_borrow_mut _ _ _ _ _ Hi) by set_solver. mrun. rewrite bind_update. cbn [next].
  assert (l1 ++ (n, w) :: l2 = (l1 ++ [(n, w)]) ++ l2) as Eapp by (rewrite <- app_assoc; done).
  replace (l1 ++ (n, w) :: (i, v) :: l2) with ((l1 ++ [(n, w)]) ++ (i, v) :: l2)
    by (rewrite <- app_assoc; done).
  destruct (first l2 None) as [x|] eqn:E.
  - destruct (repr_neighbour L l1 n w l2 x (set_next None) HR) as (Hxn & Hxl & y & Hy); [by right|].
    assert (x <> i) by (intros ->; done). rewrite Eapp in *.
    mrun. rewrite (bind_borrow_mut _ _ _ _ y) by (try done; set_solver).
    mrun. rewrite !bind_update. unfold update, modify. eexists. split; [reflexivity|].
    apply (repr_splice L _ (l1 ++ [(n, w)]) i v l2); try done; simpl.
    + rewrite last_id_snoc, E. simpl. map_pt.
    + rewrite Hh, !first_app. done.
    + rewrite Ht, !last_id_app. destruct l2 as [|[]]; done.
  - destruct l2 as [|[] l2]; [|done]. rewrite Eapp in HR, Hd.
    mrun. rewrite bind_update. unfold update, modify. eexists. split; [reflexivity|].
    apply (repr_splice L _ (l1 ++ [(n, w)]) i v []); try done; simpl.
    + rewrite last_id_snoc. simpl. map_pt.
    + rewrite Hh, !first_app. done.
    + rewrite last_id_snoc. done.
Qed.

Definition clear_links (n : Node T) : Node T := set_next None (set_prev None n).

(** The list [remove] leaves behind. *)
Definition unlinked L l1 n l2 : DoublyLinkedList T :=
  mkDll (link_prev (first l2 None) (last_id l1 None)
          (link_next (last_id l1 None) (first l2 None) (alter clear_links n (mem L))))
        (next_rc L) (first (l1 ++ l2) None) (last_id (l1 ++ l2) None).

Lemma unlinked_repr L l1 n w l2 :
  dll_repr L (l1 ++ (n, w) :: l2) ->
  dll_repr (unlinked L l1 n l2) (l1 ++ l2) /\ detached (unlinked L l1 n l2) (l1 ++ l2) n w.
Proof.
  intros HR. split; [eapply repr_unlink; done|].
  pose proof (repr_nodup _ _ HR) as [Hnl _]%mid_nodup.
  split; [|split; [done|apply (repr_bound _ _ HR); rewrite mid_in; by left]].
  assert (alter clear_links n (mem L) !! n = Some (mkNode w None None)) as E.
  { rewrite lookup_alter_eq, (repr_lookup _ _ _ _ _ HR). done. }
  simpl. rewrite (proj2 (link_lookup_ne _ _ _ n
    ltac:(intros a Ha; apply (repr_neighbour L l1 n w l2 a clear_links HR); by right))).
  rewrite (proj1 (link_lookup_ne _ _ _ n
    ltac:(intros a Ha; apply (repr_neighbour L l1 n w l2 a clear_links HR); by left))).
  done.
Qed.

Lemma remove_run L l1 n w l2 :
  dll_repr L (l1 ++ (n, w) :: l2) -> remove n L = Done (tt, unlinked L l1 n l2).
Proof.
  intros HR. pose proof HR as [Hnd Hb Hf Hh Ht Hs].
  unfold remove. rewrite (bind_borrow_mut _ _ _ _ _ (repr_lookup _ _ _ _ _ HR)) by set_solver.
  mrun. rewrite bind_update. fold clear_links. cbn [prev]. cbn [next].
  assert (forall j, first l2 None = Some j ->
    exists y, link_next (last_id l1 None) (first l2 None) (alter clear_links n (mem L)) !! j = Some y)
    as Hfirst.
  { intros j Hj. destruct (repr_neighbour L l1 n w l2 j clear_links HR) as (_ & _ & y & Hy); [by right|].
    destruct (link_next _ _ _ !! j) eqn:E; [eauto|].
    apply (proj1 (proj1 (link_lookup_None _ _ _ _))) in E. congruence. }
  unfold unlinked. rewrite first_app, last_id_app.
  rewrite first_app in Hh. rewrite last_id_app in Ht. simpl in Hh, Ht.
  destruct (last_id l1 None) as [p|] eqn:E.
  - destruct (repr_neighbour L l1 n w l2 p clear_links HR) as (_ & _ & x & Hx); [by left|].
    mrun. rewrite (bind_borrow_mut _ _ _ _ x) by (try done; set_solver).
    rewrite bind_update. destruct l1 as [|[]]; [done|].
    destruct l2 as [|[j jv] l2]; cbn [first]; cbv iota.
    + unfold modify, with_tail, with_mem. simpl. rewrite Hh. done.
    + destruct (Hfirst j) as [y Hy]; [done|]. change (first ((j, jv) :: l2) None) with (Some j) in *. cbv iota.
      rewrite (bind_borrow_mut _ _ _ _ y) by (try done; set_solver).
      unfold update, modify, with_mem. simpl. rewrite Hh, Ht. done.
  - destruct (chain_snoc l1 None) as [[-> _]|(? & ? & ? & -> & E')]; [|congruence].
    mrun. destruct l2 as [|[j jv] l2]; cbn [first]; cbv iota; [done|].
    destruct (Hfirst j) as [y Hy]; [done|]. change (first ((j, jv) :: l2) None) with (Some j) in *. cbv iota.
    rewrite (bind_borrow_mut _ _ _ _ y) by (try done; set_solver).
    unfold update, modify, with_mem, with_head. simpl. rewrite Ht. done.
Qed.

Lemma remove_repr L l1 n w l2 :
  dll_repr L (l1 ++ (n, w) :: l2) ->
  exists L', remove n L = Done (tt, L') /\ dll_repr L' (l1 ++ l2)
             /\ detached L' (l1 ++ l2) n w /\ next_rc L' = next_rc L.
Proof.
  intros HR. exists (unlinked L l1 n l2). rewrite (remove_run _ _ _ _ _ HR).
  destruct (unlinked_repr _ _ _ _ _ HR). done.
Qed.

(** Writing the value of a mounted node. *)
Lemma set_value_repr L l1 n w l2 w' :
  dll_repr L (l1 ++ (n, w) :: l2) ->
  exists L', update n (set_value w') L = Done (tt, L') /\ dll_repr L' (l1 ++ (n, w') :: l2)
             /\ next_rc L' = next_rc L.
Proof.
  intros HR. pose proof HR as [Hnd Hb Hf Hh Ht Hs]. pose proof (repr_lookup _ _ _ _ _ HR) as Hn.
  eexists. split; [reflexivity|]. split; [|done].
  assert ((l1 ++ (n, w') :: l2).*1 = (l1 ++ (n, w) :: l2).*1) as E by (rewrite !fmap_app; done).
  split; simpl; rewrite ?E; try done.
  - intros j Hj. rewrite lookup_alter_None. apply Hf. done.
  - rewrite Hh, !first_app. done.
  - rewrite Ht, !last_id_app. done.
  - replace (alter (set_value w') n (mem L)) with
      (<[n:=set_value w' (mkNode w (last_id l1 None) (first l2 None))]> (mem L))
      by (map_pt; rewrite Hn; done).
    eapply seg_set_val; done.
Qed.

Lemma iter_run L l : dll_repr L l -> iter L = Done (first l None, L).
Proof. intros HR. unfold iter, gets. rewrite (repr_head _ _ HR). done. Qed.

Lemma Iter_next_run L l1 i v l2 :
  dll_repr L (l1 ++ (i, v) :: l2) -> Iter_next (Some i) L = Done (Some (i, first l2 None), L).
Proof.
  intros HR. unfold Iter_next, bind, borrow. rewrite (repr_lookup _ _ _ _ _ HR). done.
Qed.
End list_operations.

(** ** Lists as sequences of values

    [list_repr L vs] forgets the identities: [L] holds the values [vs] in order.
    A [for] loop over such a list either leaves it as it is or stops at the
    first node its body accepts; [scan] is that loop on sequences. *)

Section sequences.
Context {T : Type}.
Implicit Types (L : DoublyLinkedList T) (vs : list T).

Definition list_repr L vs : Prop := exists l, dll_repr L l /\ l.*2 = vs.

Definition push_value (v : T) : M (DoublyLinkedList T) unit :=
  let! new_node := Node_new v in push new_node.

Lemma list_repr_empty : list_repr (DoublyLinkedList_new (T:=T)) [].
Proof. exists []. split; [apply dll_repr_empty|done]. Qed.

Lemma push_value_repr L vs v :
  list_repr L vs -> exists L', push_value v L = Done (tt, L') /\ list_repr L' (vs ++ [v]).
Proof.
  intros (l & HR & <-). destruct (Node_new_repr L l v HR) as (L1 & E1 & HR1 & Hd1).
  destruct (push_repr L1 l _ v HR1 Hd1) as (L2 & E2 & HR2).
  exists L2. unfold push_value, bind. rewrite E1. simpl. split; [done|].
  exists (l ++ [(next_rc L, v)]). rewrite fmap_app. done.
Qed.

(** The list that results from pushing some values onto an empty one. *)
Definition build (vs : list T) : DoublyLinkedList T :=
  fold_left (fun L v => match push_value v L with Done (_, L') => L' | _ => L end)
    vs DoublyLinkedList_new.

Lemma build_repr vs : list_repr (build vs) vs.
Proof.
  unfold build. rewrite <- (app_nil_l vs) at 2.
  generalize (list_repr_empty). generalize (DoublyLinkedList_new (T:=T)) (@nil T).
  induction vs as [|v vs IH]; intros L us HR; simpl; [rewrite app_nil_r; done|].
  destruct (push_value_repr L us v HR) as (L' & E & HR'). rewrite E.
  specialize (IH L' (us ++ [v]) HR'). rewrite <- app_assoc in IH. done.
Qed.

Fixpoint scan {R} (step : T -> option (R * list T)) vs : option (R * list T) :=
  match vs with
  | [] => None
  | v :: vs' =>
      match step v with
      | Some (r, repl) => Some (r, repl ++ vs')
      | None =>
          match scan step vs' with
          | Some (r, vs'') => Some (r, v :: vs'')
          | None => None
          end
      end
  end.

(** [body] implements [step] on the nodes whose values satisfy [P]. *)
Definition implements {R} (P : T -> Prop) (body : nat -> M (DoublyLinkedList T) (option R))
    (step : T -> option (R * list T)) : Prop :=
  forall L l1 i v l2, P v -> dll_repr L (l1 ++ (i, v) :: l2) ->
    match step v with
    | None => body i L = Done (None, L)
    | Some (r, repl) =>
        exists L', body i L = Done (Some r, L') /\ list_repr L' (l1.*2 ++ repl ++ l2.*2)
    end.

Lemma for_nodes_scan {R} P body (step : T -> option (R * list T)) :
  implements P body step ->
  forall l2 l1 L fuel, dll_repr L (l1 ++ l2) -> Forall P l2.*2 -> (length l2 < fuel)%nat ->
    match scan step l2.*2 with
    | None => for_nodes fuel (first l2 None) body L = Done (None, L)
    | Some (r, vs') =>
        exists L', for_nodes fuel (first l2 None) body L = Done (Some r, L')
                   /\ list_repr L' (l1.*2 ++ vs')
    end.
Proof.
  intros Hbody. induction l2 as [|[i v] l2 IH]; intros l1 L fuel HR HP Hf;
    (destruct fuel as [|fuel]; [simpl in Hf; lia|]); [done|].
  apply Forall_cons in HP as [Hv HP]. specialize (Hbody L l1 i v l2 Hv HR).
  rewrite fmap_cons. simpl. rewrite (bind_done _ _ _ _ _ (Iter_next_run _ _ _ _ _ HR)).
  destruct (step v) as [[r repl]|] eqn:E.
  - destruct Hbody as (L' & Hb & HR'). exists L'. rewrite (bind_done _ _ _ _ _ Hb). done.
  - rewrite (bind_done _ _ _ _ _ Hbody).
    assert (dll_repr L ((l1 ++ [(i, v)]) ++ l2)) as HR' by (rewrite <- app_assoc; done).
    specialize (IH _ L fuel HR' HP ltac:(simpl in Hf; lia)).
    destruct (scan step l2.*2) as [[r vs']|]; [|done].
    destruct IH as (L' & E' & HL'). exists L'. split; [done|].
    rewrite fmap_app, <- app_assoc in HL'. done.
Qed.

(** The same from the head of the list, with the fuel the operations use. *)
Lemma for_nodes_list {R} P body (step : T -> option (R * list T)) L vs :
  implements P body step -> list_repr L vs -> Forall P vs ->
  match scan step vs with
  | None => for_nodes (iter_fuel L) (head L) body L = Done (None, L)
  | Some (r, vs') =>
      exists L', for_nodes (iter_fuel L) (head L) body L = Done (Some r, L') /\ list_repr L' vs'
  end.
Proof.
  intros Hb (l & HR & <-) HP. rewrite (repr_head _ _ HR).
  apply (for_nodes_scan P body step Hb l [] L); [done|done|].
  pose proof (dll_repr_length _ _ HR). unfold iter_fuel. lia.
Qed.
End sequences.
