(* ===== verification/FreeList.v ===== *)
(** * src/mm/freelist.rs

    A [FreeList] keeps the free regions of an address space in a
    [DoublyLinkedList]. The operations below are those of the source, on the
    node store of Collections.v; [list_repr] relates them to the sequence of
    regions, on which the theorems speak. *)

From stdpp Require Import base numbers list gmap.
From Stdlib Require Import ZArith Lia.
From S2P Require Import Prelude Links Collections.

#[local] Open Scope Z_scope.

Record FreeListEntry := mkEntry { start : Z; end_ : Z }.

#[export] Instance FreeListEntry_eq_dec : EqDecision FreeListEntry.
Proof. solve_decision. Defined.

(** [struct FreeList { list }] *)
Abbreviation FreeList := (DoublyLinkedList FreeListEntry).
Abbreviation flM := (M FreeList).

Definition FreeList_new : FreeList := DoublyLinkedList_new.

(** [node.borrow_mut().value.start = x] and [.end = x] *)
Definition set_start (node : nat) (x : Z) : flM unit :=
  let! n := borrow_mut [] node in
  update node (set_value (mkEntry x (end_ (value n)))).
Definition set_end (node : nat) (x : Z) : flM unit :=
  let! n := borrow_mut [] node in
  update node (set_value (mkEntry (start (value n)) x)).

(** The [for] loop of an operation, and the [Result] it ends in. *)
Definition for_list {R} (body : nat -> flM (option R)) : flM (result R unit) :=
  let! fuel := gets iter_fuel in
  let! current := iter in
  let! r := for_nodes fuel current body in
  ret (match r with Some x => Ok x | None => Err tt end).

Definition allocate_body (size : Z) (node : nat) : flM (option Z) :=
  let! borrowed := borrow node in
  let region_start := start (value borrowed) in
  let! region_size := lift (sub64 (end_ (value borrowed)) (start (value borrowed))) in
  if region_size >? size then
    let! new_start := lift (add64 (start (value borrowed)) size) in
    set_start node new_start ;;;
    ret (Some region_start)
  else if region_size =? size then
    remove node ;;;
    ret (Some region_start)
  else ret None.

Definition allocate (size : Z) : flM (result Z unit) := for_list (allocate_body size).

Definition allocate_address_for_node (address end' : Z) (node : nat) : flM bool :=
  let! borrowed := borrow node in
  let region_start := start (value borrowed) in
  let region_end := end_ (value borrowed) in
  if (region_start =? address) && (region_end =? end') then
    remove node ;;; ret true
  else if (region_start <? address) && (region_end =? end') then
    set_end node address ;;; ret true
  else if (region_start =? address) && (region_end >? end') then
    set_start node end' ;;; ret true
  else if (region_start <? address) && (region_end >? end') then
    set_end node address ;;;
    let! new_node := Node_new (mkEntry end' region_end) in
    insert_after new_node node ;;;
    ret true
  else ret false.

Definition allocate_aligned_body (size alignment : Z) (node : nat) : flM (option Z) :=
  let! n := borrow node in
  let! address := lift (align_up (start (value n)) alignment) in
  let! end' := lift (add64 address size) in
  let! found := allocate_address_for_node address end' node in
  ret (if found then Some address else None).

Definition allocate_aligned (size alignment : Z) : flM (result Z unit) :=
  for_list (allocate_aligned_body size alignment).

Definition reserve_body (address end' : Z) (node : nat) : flM (option unit) :=
  let! found := allocate_address_for_node address end' node in
  ret (if found then Some tt else None).

Definition reserve (address size : Z) : flM (result unit unit) :=
  let! end' := lift (add64 address size) in
  for_list (reserve_body address end').

(** The [while let] loop of [deallocate]; [true] when the function returned
    from inside it. The block that looks for a region to reunite with reads
    [node] again, not [next_node], as the source does. *)
Fixpoint deallocate_loop (fuel : nat) (current : option nat) (address end' : Z) : flM bool :=
  match fuel with
  | O => out_of_fuel
  | S fuel =>
      let! step := Iter_next current in
      match step with
      | None => ret false
      | Some (node, rest) =>
          let! borrowed := borrow node in
          let region_start := start (value borrowed) in
          let region_end := end_ (value borrowed) in
          if region_start =? end' then
            set_start node address ;;; ret true
          else if region_end =? address then
            let! step' := Iter_next rest in
            match step' with
            | Some (next_node, _) =>
                let! next_borrowed := borrow node in
                if start (value next_borrowed) =? end' then
                  set_end node (end_ (value next_borrowed)) ;;;
                  remove next_node ;;;
                  ret true
                else set_end node end' ;;; ret true
            | None => set_end node end' ;;; ret true
            end
          else if end' <? region_start then
            let! new_node := Node_new (mkEntry address end') in
            insert_before new_node node ;;;
            ret true
          else deallocate_loop fuel rest address end'
      end
  end.

Definition deallocate (address size : Z) : flM unit :=
  let! end' := lift (add64 address size) in
  let! fuel := gets iter_fuel in
  let! current := iter in
  let! returned := deallocate_loop fuel current address end' in
  if returned then ret tt
  else
    let! new_node := Node_new (mkEntry address end') in
    let! t := gets tail in
    match t with
    | Some t => insert_after new_node t
    | None => push new_node
    end.

(** ** What the operations do to the sequence of regions *)

Definition allocate_step (size : Z) (e : FreeListEntry) : option (Z * list FreeListEntry) :=
  if end_ e - start e >? size then Some (start e, [mkEntry (start e + size) (end_ e)])
  else if end_ e - start e =? size then Some (start e, [])
  else None.

(** What is left of a region when [address, end') is cut out of it. *)
Definition carve (address end' : Z) (e : FreeListEntry) : option (list FreeListEntry) :=
  if (start e =? address) && (end_ e =? end') then Some []
  else if (start e <? address) && (end_ e =? end') then Some [mkEntry (start e) address]
  else if (start e =? address) && (end_ e >? end') then Some [mkEntry end' (end_ e)]
  else if (start e <? address) && (end_ e >? end') then
    Some [mkEntry (start e) address; mkEntry end' (end_ e)]
  else None.

Definition aligned_step (size alignment : Z) (e : FreeListEntry) :
    option (Z * list FreeListEntry) :=
  let address := align_up_val (start e) alignment in
  match carve address (address + size) e with
  | Some repl => Some (address, repl)
  | None => None
  end.

Definition reserve_step (address end' : Z) (e : FreeListEntry) :
    option (unit * list FreeListEntry) :=
  match carve address end' e with Some repl => Some (tt, repl) | None => None end.

(** [deallocate] walks the regions from low to high addresses. *)
Fixpoint insert_region (address end' : Z) (es : list FreeListEntry) : list FreeListEntry :=
  match es with
  | [] => [mkEntry address end']
  | e :: es' =>
      if start e =? end' then mkEntry address (end_ e) :: es'
      else if end_ e =? address then mkEntry (start e) end' :: es'
      else if end' <? start e then mkEntry address end' :: e :: es'
      else e :: insert_region address end' es'
  end.

(** ** The operations implement these steps *)

Section implementation.
Implicit Types (L : FreeList) (es : list FreeListEntry).

Lemma list_repr_intro {T} (L : DoublyLinkedList T) l vs :
  dll_repr L l -> l.*2 = vs -> list_repr L vs.
Proof. intros HR E. exists l. done. Qed.

Lemma set_start_run L l1 i e l2 x :
  dll_repr L (l1 ++ (i, e) :: l2) ->
  exists L', set_start i x L = Done (tt, L')
             /\ dll_repr L' (l1 ++ (i, mkEntry x (end_ e)) :: l2).
Proof.
  intros HR. unfold set_start.
  rewrite (bind_borrow_mut _ _ _ _ _ (repr_lookup _ _ _ _ _ HR)) by set_solver.
  destruct (set_value_repr L l1 i e l2 (mkEntry x (end_ e)) HR) as (L' & E & HR' & _).
  exists L'. done.
Qed.

Lemma set_end_run L l1 i e l2 x :
  dll_repr L (l1 ++ (i, e) :: l2) ->
  exists L', set_end i x L = Done (tt, L')
             /\ dll_repr L' (l1 ++ (i, mkEntry (start e) x) :: l2).
Proof.
  intros HR. unfold set_end.
  rewrite (bind_borrow_mut _ _ _ _ _ (repr_lookup _ _ _ _ _ HR)) by set_solver.
  destruct (set_value_repr L l1 i e l2 (mkEntry (start e) x) HR) as (L' & E & HR' & _).
  exists L'. done.
Qed.

Lemma borrow_run {B} L l1 i (e : FreeListEntry) l2 (k : Node FreeListEntry -> flM B) :
  dll_repr L (l1 ++ (i, e) :: l2) ->
  bind (borrow i) k L = k (mkNode e (last_id l1 None) (first l2 None)) L.
Proof. intros HR. unfold bind, borrow. rewrite (repr_lookup _ _ _ _ _ HR). done. Qed.

(** A fresh node spliced in behind, or before, a mounted one. *)
Lemma new_after_run L l1 i e l2 e' :
  dll_repr L (l1 ++ (i, e) :: l2) ->
  exists L', (let! n := Node_new e' in insert_after n i) L = Done (tt, L')
             /\ list_repr L' (l1.*2 ++ e :: e' :: l2.*2).
Proof.
  intros HR. destruct (Node_new_repr L _ e' HR) as (L1 & E1 & HR1 & Hd1).
  destruct (insert_after_repr L1 l1 i e l2 _ e' HR1 Hd1) as (L2 & E2 & HR2).
  exists L2. rewrite (bind_done _ _ _ _ _ E1). split; [done|].
  eapply list_repr_intro; [done|]. rewrite fmap_app. done.
Qed.

Lemma new_before_run L l1 i e l2 e' :
  dll_repr L (l1 ++ (i, e) :: l2) ->
  exists L', (let! n := Node_new e' in insert_before n i) L = Done (tt, L')
             /\ list_repr L' (l1.*2 ++ e' :: e :: l2.*2).
Proof.
  intros HR. destruct (Node_new_repr L _ e' HR) as (L1 & E1 & HR1 & Hd1).
  destruct (insert_before_repr L1 l1 i e l2 _ e' HR1 Hd1) as (L2 & E2 & HR2).
  exists L2. rewrite (bind_done _ _ _ _ _ E1). split; [done|].
  eapply list_repr_intro; [done|]. rewrite fmap_app. done.
Qed.

Definition entry_ok (e : FreeListEntry) : Prop := 0 <= start e <= end_ e /\ end_ e < W64.

Lemma allocate_implements size :
  0 <= size -> implements entry_ok (allocate_body size) (allocate_step size).
Proof.
  intros Hsz L l1 i e l2 [He1 He2] HR. unfold allocate_body, allocate_step.
  rewrite (borrow_run _ _ _ _ _ _ HR). cbv zeta. cbn [value].
  rewrite (bind_lift_done _ _ (end_ e - start e)) by (apply sub64_done; lia).
  destruct (Z.gtb_spec (end_ e - start e) size).
  - rewrite (bind_lift_done _ _ (start e + size)) by (apply add64_done; lia).
    destruct (set_start_run _ _ _ _ _ (start e + size) HR) as (L' & E & HR').
    exists L'. rewrite (bind_done _ _ _ _ _ E). split; [done|].
    eapply list_repr_intro; [done|]. rewrite fmap_app. done.
  - destruct (Z.eqb_spec (end_ e - start e) size); [|done].
    destruct (remove_repr _ _ _ _ _ HR) as (L' & E & HR' & _).
    exists L'. rewrite (bind_done _ _ _ _ _ E). split; [done|].
    eapply list_repr_intro; [done|]. rewrite fmap_app. done.
Qed.

Lemma address_for_node_run L l1 i e l2 address end' :
  dll_repr L (l1 ++ (i, e) :: l2) ->
  match carve address end' e with
  | None => allocate_address_for_node address end' i L = Done (false, L)
  | Some repl =>
      exists L', allocate_address_for_node address end' i L = Done (true, L')
                 /\ list_repr L' (l1.*2 ++ repl ++ l2.*2)
  end.
Proof.
  intros HR. unfold allocate_address_for_node, carve.
  rewrite (borrow_run _ _ _ _ _ _ HR). cbv zeta. cbn [value].
  destruct ((start e =? address) && (end_ e =? end'));
    [|destruct ((start e <? address) && (end_ e =? end'));
      [|destruct ((start e =? address) && (end_ e >? end'));
        [|destruct ((start e <? address) && (end_ e >? end')); [|done]]]].
  - destruct (remove_repr _ _ _ _ _ HR) as (L' & E & HR' & _).
    exists L'. rewrite (bind_done _ _ _ _ _ E). split; [done|].
    eapply list_repr_intro; [done|]. rewrite fmap_app. done.
  - destruct (set_end_run _ _ _ _ _ address HR) as (L' & E & HR').
    exists L'. rewrite (bind_done _ _ _ _ _ E). split; [done|].
    eapply list_repr_intro; [done|]. rewrite fmap_app. done.
  - destruct (set_start_run _ _ _ _ _ end' HR) as (L' & E & HR').
    exists L'. rewrite (bind_done _ _ _ _ _ E). split; [done|].
    eapply list_repr_intro; [done|]. rewrite fmap_app. done.
  - destruct (set_end_run _ _ _ _ _ address HR) as (L1 & E1 & HR1).
    destruct (new_after_run _ _ _ _ _ (mkEntry end' (end_ e)) HR1) as (L2 & E2 & HR2).
    exists L2. rewrite (bind_done _ _ _ _ _ E1). rewrite <- bind_assoc.
    rewrite (bind_done _ _ _ _ _ E2). done.
Qed.

(** Enough address space is left above a region to align its start up. *)
Definition room_ok (alignment size : Z) (e : FreeListEntry) : Prop :=
  0 <= start e /\ start e + (alignment - 1) + size < W64.

Lemma aligned_implements size alignment :
  0 <= size -> pow2 alignment ->
  implements (room_ok alignment size) (allocate_aligned_body size alignment)
    (aligned_step size alignment).
Proof.
  intros Hsz Hal L l1 i e l2 [He1 He2] HR. pose proof (pow2_pos _ Hal).
  pose proof (align_up_val_spec (start e) alignment ltac:(lia)) as [Hb _].
  unfold allocate_aligned_body, aligned_step. cbv zeta.
  rewrite (borrow_run _ _ _ _ _ _ HR). cbn [value].
  rewrite (bind_lift_done _ _ (align_up_val (start e) alignment)) by (apply align_up_done; done || lia).
  rewrite (bind_lift_done _ _ (align_up_val (start e) alignment + size)) by (apply add64_done; lia).
  pose proof (address_for_node_run L l1 i e l2 (align_up_val (start e) alignment)
    (align_up_val (start e) alignment + size) HR) as Hrun.
  destruct (carve _ _ e) as [repl|].
  - destruct Hrun as (L' & E & HR'). exists L'. rewrite (bind_done _ _ _ _ _ E). done.
  - rewrite (bind_done _ _ _ _ _ Hrun). done.
Qed.

Lemma reserve_implements address end' :
  implements (fun _ => True) (reserve_body address end') (reserve_step address end').
Proof.
  intros L l1 i e l2 _ HR. unfold reserve_body, reserve_step.
  pose proof (address_for_node_run L l1 i e l2 address end' HR) as Hrun.
  destruct (carve _ _ e) as [repl|].
  - destruct Hrun as (L' & E & HR'). exists L'. rewrite (bind_done _ _ _ _ _ E). done.
  - rewrite (bind_done _ _ _ _ _ Hrun). done.
Qed.

(** A [for] loop that implements [step] gives the [Result] of [scan step]. *)
Lemma for_list_run {R} P (body : nat -> flM (option R)) step L es :
  implements P body step -> list_repr L es -> Forall P es ->
  match scan step es with
  | None => for_list body L = Done (Err tt, L)
  | Some (r, es') => exists L', for_list body L = Done (Ok r, L') /\ list_repr L' es'
  end.
Proof.
  intros Hb HR HP. pose proof (for_nodes_list P body step L es Hb HR HP) as Hrun.
  unfold for_list, iter. mrun.
  destruct (scan step es) as [[r es']|].
  - destruct Hrun as (L' & E & HR'). exists L'. rewrite (bind_done _ _ _ _ _ E). done.
  - rewrite (bind_done _ _ _ _ _ Hrun). done.
Qed.

Lemma deallocate_loop_run address end' : address <= end' ->
  forall l2 l1 L fuel, dll_repr L (l1 ++ l2) ->
    Forall (fun e => start e < end_ e) l2.*2 -> (length l2 < fuel)%nat ->
    exists returned L', deallocate_loop fuel (first l2 None) address end' L = Done (returned, L')
      /\ if returned : bool
         then list_repr L' (l1.*2 ++ insert_region address end' l2.*2)
         else L' = L /\ insert_region address end' l2.*2 = l2.*2 ++ [mkEntry address end'].
Proof.
  intros Hae. induction l2 as [|[i e] l2 IH]; intros l1 L fuel HR HP Hf;
    (destruct fuel as [|fuel]; [simpl in Hf; lia|]); [by exists false, L|].
  apply Forall_cons in HP as [He HP]. simpl in He. rewrite fmap_cons. cbn [insert_region].
  cbn [deallocate_loop]. rewrite (bind_done _ _ _ _ _ (Iter_next_run _ _ _ _ _ HR)).
  cbv beta iota zeta. rewrite (borrow_run _ _ _ _ _ _ HR). cbn [value snd].
  destruct (Z.eqb_spec (start e) end').
  { destruct (set_start_run _ _ _ _ _ address HR) as (L' & E & HR').
    exists true, L'. rewrite (bind_done _ _ _ _ _ E). split; [done|].
    eapply list_repr_intro; [done|]. rewrite fmap_app. done. }
  destruct (Z.eqb_spec (end_ e) address).
  { destruct (set_end_run _ _ _ _ _ end' HR) as (L' & E & HR'). exists true, L'. split.
    - destruct l2 as [|[j e'] l2]; cbn [first].
      + cbn [Iter_next]. rewrite bind_ret. rewrite (bind_done _ _ _ _ _ E). done.
      + rewrite (bind_done _ _ _ _ _ (Iter_next_run L (l1 ++ [(i, e)]) j e' l2
          ltac:(rewrite <- app_assoc; done))).
        cbv beta iota. rewrite (borrow_run _ _ _ _ _ _ HR). cbn [value].
        destruct (Z.eqb_spec (start e) end'); [lia|].
        rewrite (bind_done _ _ _ _ _ E). done.
    - eapply list_repr_intro; [done|]. rewrite fmap_app. done. }
  destruct (Z.ltb_spec end' (start e)).
  { destruct (new_before_run _ _ _ _ _ (mkEntry address end') HR) as (L' & E & HR').
    exists true, L'. rewrite <- bind_assoc. rewrite (bind_done _ _ _ _ _ E). done. }
  assert (dll_repr L ((l1 ++ [(i, e)]) ++ l2)) as HR' by (rewrite <- app_assoc; done).
  destruct (IH _ L fuel HR' HP ltac:(simpl in Hf; lia)) as (b & L' & E & Hb).
  exists b, L'. split; [done|]. rewrite fmap_app, <- app_assoc in Hb. destruct b; [done|].
  destruct Hb as [-> Hb]. rewrite Hb. done.
Qed.

Lemma deallocate_run L es address size :
  list_repr L es -> Forall (fun e => start e < end_ e) es ->
  0 <= address -> 0 <= size -> address + size < W64 ->
  exists L', deallocate address size L = Done (tt, L')
             /\ list_repr L' (insert_region address (address + size) es).
Proof.
  intros (l & HR & <-) HP Ha Hs Hb. unfold deallocate.
  rewrite (bind_lift_done _ _ (address + size)) by (apply add64_done; lia).
  unfold iter. mrun. rewrite (repr_head _ _ HR).
  pose proof (dll_repr_length _ _ HR).
  destruct (deallocate_loop_run address (address + size) ltac:(lia) l [] L (iter_fuel L) HR HP
    ltac:(unfold iter_fuel; lia)) as (b & L' & E & Hres).
  rewrite (bind_done _ _ _ _ _ E). destruct b; [by exists L'|].
  destruct Hres as [-> ->].
  destruct (Node_new_repr L l (mkEntry address (address + size)) HR) as (L1 & E1 & HR1 & Hd1).
  rewrite (bind_done _ _ _ _ _ E1). mrun. rewrite (repr_tail _ _ HR1).
  destruct (chain_snoc l None) as [[-> El]|(l' & t & tv & -> & El)]; rewrite El.
  - destruct (push_repr L1 [] _ _ HR1 Hd1) as (L2 & E2 & HR2).
    exists L2. split; [done|]. eapply list_repr_intro; done.
  - destruct (insert_after_repr L1 l' t tv [] _ _ HR1 Hd1) as (L2 & E2 & HR2).
    exists L2. split; [done|]. eapply list_repr_intro; [done|].
    rewrite !fmap_app, <- app_assoc. done.
Qed.
End implementation.

(** ** Sequences of free regions *)

(** The addresses a sequence of regions offers. *)
Definition free (es : list FreeListEntry) (x : Z) : Prop :=
  exists e, e ∈ es /\ start e <= x < end_ e.

(** Non-empty regions in ascending order that do not overlap, from [lo] on. *)
Fixpoint regions_ok (lo : Z) (es : list FreeListEntry) : Prop :=
  match es with
  | [] => True
  | e :: es' => lo <= start e /\ start e < end_ e /\ end_ e < W64 /\ regions_ok (end_ e) es'
  end.

(** Region boundaries are multiples of [g]. *)
Definition granular (g : Z) (e : FreeListEntry) : Prop := start e mod g = 0 /\ end_ e mod g = 0.

(** The block [a, b) was free in [es] and is the only thing missing in [es']. *)
Definition taken (es es' : list FreeListEntry) (a b : Z) : Prop :=
  (forall x, a <= x < b -> free es x) /\
  (forall x, free es' x <-> free es x /\ ~ (a <= x < b)).

(** The block [a, b) is the only thing [es'] has more than [es]. *)
Definition given_back (es es' : list FreeListEntry) (a b : Z) : Prop :=
  forall x, free es' x <-> free es x \/ a <= x < b.

(** What remains of [e] around the block [a, b). *)
Definition pieces (a b : Z) (e : FreeListEntry) : list FreeListEntry :=
  (if start e <? a then [mkEntry (start e) a] else []) ++
  (if b <? end_ e then [mkEntry b (end_ e)] else []).

Section regions.
Implicit Types (es : list FreeListEntry) (e : FreeListEntry).

Lemma free_nil x : free [] x <-> False.
Proof. unfold free. set_solver. Qed.
Lemma free_cons e es x : free (e :: es) x <-> start e <= x < end_ e \/ free es x.
Proof. unfold free. set_solver. Qed.
Lemma free_app es1 es2 x : free (es1 ++ es2) x <-> free es1 x \/ free es2 x.
Proof. unfold free. set_solver. Qed.

Lemma regions_ok_weaken lo lo' es : lo' <= lo -> regions_ok lo es -> regions_ok lo' es.
Proof. destruct es as [|e es]; simpl; [done|]. intros ? (? & ? & ? & ?). split; [lia|done]. Qed.

Lemma regions_ok_forall lo es :
  regions_ok lo es -> Forall (fun e => lo <= start e /\ start e < end_ e /\ end_ e < W64) es.
Proof.
  revert lo. induction es as [|e es IH]; intros lo; simpl; [by constructor|].
  intros (? & ? & ? & Hes). constructor; [done|].
  eapply Forall_impl; [apply (IH _ Hes)|]. simpl. intros; lia.
Qed.

Lemma regions_ok_above lo es x : regions_ok lo es -> free es x -> lo <= x < W64.
Proof.
  intros H (e & He & Hx). apply regions_ok_forall in H. rewrite Forall_forall in H.
  specialize (H e He). simpl in H. lia.
Qed.

Lemma pieces_free a b e x :
  start e <= a -> b <= end_ e -> a < b ->
  free (pieces a b e) x <-> start e <= x < end_ e /\ ~ (a <= x < b).
Proof.
  intros Ha Hb Hab. unfold pieces. rewrite free_app.
  destruct (Z.ltb_spec (start e) a), (Z.ltb_spec b (end_ e));
    rewrite ?free_cons, ?free_nil; simpl; lia.
Qed.

Lemma pieces_ok lo a b e es :
  start e <= a -> b <= end_ e -> a < b ->
  regions_ok lo (e :: es) -> regions_ok lo (pieces a b e ++ es).
Proof.
  intros Ha Hb Hab (H1 & H2 & H3 & H4). unfold pieces.
  destruct (Z.ltb_spec (start e) a), (Z.ltb_spec b (end_ e)); simpl;
    repeat split; try lia; try done;
    (eapply regions_ok_weaken; [|done]); lia.
Qed.

Lemma pieces_granular g a b e :
  granular g e -> a mod g = 0 -> b mod g = 0 -> Forall (granular g) (pieces a b e).
Proof.
  intros [Hs He] Ha Hb. unfold pieces, granular.
  destruct (start e <? a), (b <? end_ e); simpl; repeat constructor; done.
Qed.

Lemma carve_spec a b e :
  a < b -> carve a b e = if (start e <=? a) && (b <=? end_ e) then Some (pieces a b e) else None.
Proof.
  intros Hab. unfold carve, pieces.
  destruct (Z.leb_spec (start e) a), (Z.leb_spec b (end_ e)),
    (Z.eqb_spec (start e) a), (Z.eqb_spec (end_ e) b),
    (Z.ltb_spec (start e) a), (Z.gtb_spec (end_ e) b), (Z.ltb_spec b (end_ e));
    simpl; try lia; try done.
Qed.

(** A step that cuts the block of its result out of the region it accepts. *)
Definition cutting {R} (step : FreeListEntry -> option (R * list FreeListEntry))
    (block : R -> Z * Z) : Prop :=
  forall e r repl, start e < end_ e -> step e = Some (r, repl) ->
    start e <= (block r).1 /\ (block r).1 < (block r).2 /\ (block r).2 <= end_ e
    /\ repl = pieces (block r).1 (block r).2 e.

Lemma scan_cut {R} (step : FreeListEntry -> option (R * list FreeListEntry)) block lo es r es' :
  cutting step block -> regions_ok lo es -> scan step es = Some (r, es') ->
  regions_ok lo es' /\ taken es es' (block r).1 (block r).2
  /\ exists e repl, e ∈ es /\ step e = Some (r, repl).
Proof.
  intros Hc. revert lo es'. induction es as [|e es IH]; intros lo es' Hok; simpl; [done|].
  destruct Hok as (H1 & H2 & H3 & H4).
  destruct (step e) as [[r' repl]|] eqn:E.
  - intros [= -> <-]. destruct (Hc e r repl H2 E) as (Ha & Hab & Hb & ->).
    split; [apply pieces_ok; simpl; done|].
    split; [|exists e; eexists; split; [apply list_elem_of_here|done]].
    split; [intros x Hx; rewrite free_cons; lia|].
    intros x. rewrite free_app, free_cons, pieces_free by done.
    split; [|tauto]. intros [|Hx]; [tauto|]. split; [by right|].
    pose proof (regions_ok_above _ _ _ H4 Hx). lia.
  - destruct (scan step es) as [[r' es1]|] eqn:E1; [|done]. intros [= -> <-].
    destruct (IH (end_ e) es1 H4 eq_refl) as (Hok1 & [Hin Hiff] & e0 & repl & He0 & Hs0).
    split; [simpl; done|]. split; [|exists e0, repl; split; [by apply list_elem_of_further|done]].
    split; [intros x Hx; rewrite free_cons; right; apply Hin; done|].
    intros x. rewrite !free_cons, Hiff.
    assert (free es x -> end_ e <= x) by (intros Hx; apply (regions_ok_above _ _ _ H4 Hx)).
    split; [|tauto]. intros [Hx|]; [|tauto]. split; [by left|]. intros Hblk.
    specialize (Hin x Hblk). pose proof (regions_ok_above _ _ _ H4 Hin). lia.
Qed.

Lemma scan_none {R} (step : FreeListEntry -> option (R * list FreeListEntry)) es :
  scan step es = None -> forall e, e ∈ es -> step e = None.
Proof.
  induction es as [|e es IH]; simpl; [set_solver|].
  destruct (step e) as [[r repl]|] eqn:E; [done|].
  destruct (scan step es) as [[r es1]|]; [done|].
  intros _ e'. rewrite elem_of_cons. intros [->|]; [done|]. apply IH; done.
Qed.

Lemma scan_granular {R} (step : FreeListEntry -> option (R * list FreeListEntry)) block g lo es r es' :
  cutting step block -> regions_ok lo es -> scan step es = Some (r, es') ->
  (block r).1 mod g = 0 -> (block r).2 mod g = 0 ->
  Forall (granular g) es -> Forall (granular g) es'.
Proof.
  intros Hc. revert lo es'. induction es as [|e es IH]; intros lo es'; simpl; [done|].
  intros (H1 & H2 & H3 & H4) Hs Ha Hb [Hge Hges]%Forall_cons. revert Hs.
  destruct (step e) as [[r' repl]|] eqn:E.
  - intros [= -> <-]. destruct (Hc e r repl H2 E) as (_ & _ & _ & ->).
    apply Forall_app. split; [apply pieces_granular; done|done].
  - destruct (scan step es) as [[r' es1]|] eqn:E1; [|done]. intros [= -> <-].
    constructor; [done|]. apply (IH (end_ e) es1); done.
Qed.
End regions.

(** ** The steps of the operations cut, and fail only where they must *)

Section steps.
Implicit Types (e : FreeListEntry).

Lemma allocate_cutting size :
  0 < size -> cutting (allocate_step size) (fun a => (a, a + size)).
Proof.
  intros Hs e r repl He. unfold allocate_step, pieces. cbn [fst snd].
  destruct (Z.gtb_spec (end_ e - start e) size).
  - intros [= <- <-]. destruct (Z.ltb_spec (start e) (start e)); [lia|].
    destruct (Z.ltb_spec (start e + size) (end_ e)); [|lia]. simpl. repeat split; lia.
  - destruct (Z.eqb_spec (end_ e - start e) size); [|done].
    intros [= <- <-]. destruct (Z.ltb_spec (start e) (start e)); [lia|].
    destruct (Z.ltb_spec (start e + size) (end_ e)); [lia|]. simpl. repeat split; lia.
Qed.

Lemma allocate_step_none size e : allocate_step size e = None -> end_ e - start e < size.
Proof.
  unfold allocate_step. destruct (Z.gtb_spec (end_ e - start e) size); [done|].
  destruct (Z.eqb_spec (end_ e - start e) size); [done|]. lia.
Qed.

Lemma carve_cutting {R} (f : FreeListEntry -> R) block :
  (forall r, (block r).1 < (block r).2) ->
  cutting (fun e => match carve (block (f e)).1 (block (f e)).2 e with
                    | Some repl => Some (f e, repl) | None => None end) block.
Proof.
  intros Hlt e r repl He. rewrite carve_spec by done.
  destruct (_ && _) eqn:E; [|done]. intros [= <- <-].
  apply andb_true_iff in E as [?%Z.leb_le ?%Z.leb_le]. done.
Qed.

Lemma aligned_cutting size alignment :
  0 < size -> cutting (aligned_step size alignment) (fun a => (a, a + size)).
Proof.
  intros Hs. apply (carve_cutting (fun e => align_up_val (start e) alignment)
    (fun a => (a, a + size))). simpl. lia.
Qed.

Lemma reserve_cutting address end' :
  address < end' -> cutting (reserve_step address end') (fun _ => (address, end')).
Proof. intros Hs. apply (carve_cutting (fun _ => tt) (fun _ => (address, end'))). done. Qed.

Lemma aligned_step_none size alignment e a :
  0 < size -> 0 < alignment -> aligned_step size alignment e = None ->
  start e <= a -> a mod alignment = 0 -> end_ e < a + size.
Proof.
  intros Hs Hal. unfold aligned_step. rewrite carve_spec by lia.
  destruct (_ && _) eqn:E; [done|]. intros _ Ha Hm.
  pose proof (align_up_val_least _ _ _ Hal Ha Hm).
  pose proof (align_up_val_spec (start e) alignment Hal) as [? _].
  apply andb_false_iff in E as [?%Z.leb_gt|?%Z.leb_gt]; lia.
Qed.

Lemma reserve_step_none address end' e :
  address < end' -> reserve_step address end' e = None ->
  ~ (start e <= address /\ end' <= end_ e).
Proof.
  intros Hs. unfold reserve_step. rewrite carve_spec by done.
  destruct (_ && _) eqn:E; [done|]. intros _ [? ?].
  apply andb_false_iff in E as [?%Z.leb_gt|?%Z.leb_gt]; lia.
Qed.

(** [deallocate] on a block that no region overlaps. *)
Lemma insert_region_spec a b lo es :
  a < b -> lo <= a -> b < W64 -> regions_ok lo es -> (forall x, a <= x < b -> ~ free es x) ->
  regions_ok lo (insert_region a b es) /\ given_back es (insert_region a b es) a b.
Proof.
  intros Hab. revert lo. induction es as [|e es IH]; intros lo Hlo Hb Hok Hdis; simpl.
  - split; [repeat split; lia|]. intros x. rewrite free_cons, free_nil. simpl. tauto.
  - destruct Hok as (H1 & H2 & H3 & H4).
    assert (b <= start e \/ end_ e <= a) as Hside.
    { destruct (Z.le_gt_cases b (start e)); [by left|]. right.
      destruct (Z.le_gt_cases (end_ e) a); [done|]. exfalso.
      apply (Hdis (Z.max a (start e))); [lia|]. rewrite free_cons. left. lia. }
    assert (forall x, free es x -> end_ e <= x) as Habove
      by (intros x Hx; apply (regions_ok_above _ _ _ H4 Hx)).
    destruct (Z.eqb_spec (start e) b).
    { split; [simpl; repeat split; try lia; done|]. intros x. rewrite !free_cons. simpl. intuition lia. }
    destruct (Z.eqb_spec (end_ e) a).
    { split; [simpl; repeat split; try lia|].
      - destruct es as [|e' es]; simpl in *; [done|]. repeat split; try lia; [|apply H4].
        destruct (Z.le_gt_cases b (start e')); [done|]. exfalso.
        apply (Hdis (Z.max a (start e'))); [lia|]. rewrite !free_cons. right. left. lia.
      - intros x. rewrite !free_cons. simpl. intuition lia. }
    destruct (Z.ltb_spec b (start e)).
    { split; [simpl; repeat split; try lia; done|]. intros x. rewrite !free_cons. simpl. intuition lia. }
    assert (end_ e <= a) as Hea by lia.
    destruct (IH (end_ e) Hea Hb H4) as [Hok' Hgb].
    { intros x Hx Hf. apply (Hdis x Hx). rewrite free_cons. by right. }
    split; [simpl; done|]. intros x. rewrite !free_cons, (Hgb x). tauto.
Qed.

Lemma insert_region_length a b es : (length es <= length (insert_region a b es))%nat.
Proof.
  induction es as [|e es IH]; simpl; [lia|].
  destruct (_ =? _); simpl; [lia|]. destruct (_ =? _); simpl; [lia|].
  destruct (_ <? _); simpl; lia.
Qed.

Lemma insert_region_granular g a b es :
  a mod g = 0 -> b mod g = 0 -> Forall (granular g) es -> Forall (granular g) (insert_region a b es).
Proof.
  intros Ha Hb. induction es as [|e es IH]; simpl; [by repeat constructor|].
  intros [[Hs He] Hes]%Forall_cons.
  destruct (_ =? _); [by repeat constructor|]. destruct (_ =? _); [by repeat constructor|].
  destruct (_ <? _); repeat constructor; try done. apply IH. done.
Qed.
End steps.

(** ** The contract of each operation *)

Section contract.
Implicit Types (L : FreeList) (es : list FreeListEntry).

Lemma regions_entry_ok es : regions_ok 0 es -> Forall entry_ok es.
Proof.
  intros H. eapply Forall_impl; [apply (regions_ok_forall _ _ H)|].
  simpl. intros e He. unfold entry_ok. lia.
Qed.

Lemma regions_nonempty es : regions_ok 0 es -> Forall (fun e => start e < end_ e) es.
Proof.
  intros H. eapply Forall_impl; [apply (regions_ok_forall _ _ H)|]. simpl. intros. lia.
Qed.

Lemma for_list_cut {R} P (body : nat -> flM (option R)) step block L es :
  implements P body step -> cutting step block ->
  list_repr L es -> regions_ok 0 es -> Forall P es ->
  exists r L' es', for_list body L = Done (r, L') /\ list_repr L' es' /\ regions_ok 0 es'
    /\ match r with
       | Ok a => taken es es' (block a).1 (block a).2
                 /\ (exists e repl, e ∈ es /\ step e = Some (a, repl))
                 /\ (forall g, (block a).1 mod g = 0 -> (block a).2 mod g = 0 ->
                      Forall (granular g) es -> Forall (granular g) es')
       | Err _ => L' = L /\ es' = es /\ forall e, e ∈ es -> step e = None
       end.
Proof.
  intros Hi Hc HR Hok HP. pose proof (for_list_run P body step L es Hi HR HP) as Hrun.
  destruct (scan step es) as [[a es']|] eqn:E.
  - destruct Hrun as (L' & E' & HR'). exists (Ok a), L', es'.
    destruct (scan_cut step block 0 es a es' Hc Hok E) as (Hok' & Ht & Hex).
    split_and!; try done.
    intros g Hg1 Hg2. apply (scan_granular step block g 0 es a es'); done.
  - exists (Err tt), L, es. split_and!; try done. apply scan_none. done.
Qed.

(** [FreeList::allocate] never panics on a well-formed list. It returns the
    start of a block of the requested size that was free and takes exactly
    this block out of the list, or it leaves the list as it was and returns
    the error, and then no region is as large as the request. *)
Theorem allocate_correct L es size :
  list_repr L es -> regions_ok 0 es -> 0 < size ->
  exists r L' es', allocate size L = Done (r, L') /\ list_repr L' es' /\ regions_ok 0 es'
    /\ match r with
       | Ok a => taken es es' a (a + size)
       | Err _ => L' = L /\ es' = es /\ forall e, e ∈ es -> end_ e - start e < size
       end.
Proof.
  intros HR Hok Hs.
  destruct (for_list_cut _ _ _ _ L es (allocate_implements size ltac:(lia))
    (allocate_cutting size Hs) HR Hok (regions_entry_ok _ Hok)) as (r & L' & es' & E & HR' & Hok' & H).
  exists r, L', es'. split_and!; try done. destruct r as [a|err]; [apply H|].
  destruct H as (-> & -> & H). split_and!; try done.
  intros e He. apply allocate_step_none, H, He.
Qed.

(** [FreeList::allocate_aligned] never panics while the address space has
    room for the alignment. It returns an aligned block that was free and
    takes exactly this block out; it fails only if no region contains an
    aligned block of the requested size. *)
Theorem allocate_aligned_correct L es size alignment :
  list_repr L es -> regions_ok 0 es -> 0 < size -> pow2 alignment ->
  Forall (room_ok alignment size) es ->
  exists r L' es', allocate_aligned size alignment L = Done (r, L')
    /\ list_repr L' es' /\ regions_ok 0 es'
    /\ match r with
       | Ok a => a mod alignment = 0 /\ taken es es' a (a + size)
       | Err _ => L' = L /\ es' = es /\ forall e a, e ∈ es ->
           start e <= a -> a mod alignment = 0 -> end_ e < a + size
       end.
Proof.
  intros HR Hok Hs Hal Hroom. pose proof (pow2_pos _ Hal).
  destruct (for_list_cut _ _ _ _ L es (aligned_implements size alignment ltac:(lia) Hal)
    (aligned_cutting size alignment Hs) HR Hok Hroom) as (r & L' & es' & E & HR' & Hok' & Hr).
  exists r, L', es'. split_and!; try done. destruct r as [a|err].
  - destruct Hr as (Ht & (e & repl & He & Hstep) & _). split; [|apply Ht].
    unfold aligned_step in Hstep. destruct (carve _ _ e); [|done].
    injection Hstep as <- _. apply align_up_val_spec. lia.
  - destruct Hr as (-> & -> & Hnone). split_and!; try done.
    intros e a He. apply aligned_step_none; [lia|lia|]. apply Hnone, He.
Qed.

(** [FreeList::reserve] takes exactly the requested block out of the list if
    one region contains it, and reports an error and changes nothing otherwise. *)
Theorem reserve_correct L es address size :
  list_repr L es -> regions_ok 0 es -> 0 < size -> 0 <= address -> address + size < W64 ->
  exists r L' es', reserve address size L = Done (r, L') /\ list_repr L' es' /\ regions_ok 0 es'
    /\ match r with
       | Ok _ => taken es es' address (address + size)
       | Err _ => L' = L /\ es' = es /\ forall e, e ∈ es ->
           ~ (start e <= address /\ address + size <= end_ e)
       end.
Proof.
  intros HR Hok Hs Ha Hb. unfold reserve.
  rewrite (bind_lift_done _ _ (address + size)) by (apply add64_done; lia).
  assert (Forall (fun _ => True) es) as HT by (apply Forall_true; done).
  destruct (for_list_cut _ _ _ _ L es (reserve_implements address (address + size))
    (reserve_cutting address (address + size) ltac:(lia)) HR Hok HT)
    as (r & L' & es' & E & HR' & Hok' & Hr).
  exists r, L', es'. split_and!; try done. destruct r as [[]|err]; [apply Hr|].
  destruct Hr as (-> & -> & Hnone). split_and!; try done.
  intros e He. apply reserve_step_none; [lia|]. apply Hnone, He.
Qed.

(** C14. [FreeList::deallocate] of a block that is not free never panics, gives
    exactly this block back, and keeps the list sorted and free of overlaps. *)
Theorem deallocate_correct L es address size :
  list_repr L es -> regions_ok 0 es -> 0 < size -> 0 <= address -> address + size < W64 ->
  (forall x, address <= x < address + size -> ~ free es x) ->
  exists L' es', deallocate address size L = Done (tt, L') /\ list_repr L' es'
    /\ regions_ok 0 es' /\ given_back es es' address (address + size).
Proof.
  intros HR Hok Hs Ha Hb Hdis.
  destruct (deallocate_run L es address size HR (regions_nonempty _ Hok) Ha ltac:(lia) Hb)
    as (L' & E & HR').
  destruct (insert_region_spec address (address + size) 0 es ltac:(lia) Ha Hb Hok Hdis).
  exists L', (insert_region address (address + size) es). done.
Qed.

(** What a block that [FreeList::allocate] handed out costs: giving it back
    with [deallocate] makes exactly the addresses free that were free before. *)
Theorem allocate_deallocate_restores L es size a L1 :
  list_repr L es -> regions_ok 0 es -> 0 < size -> allocate size L = Done (Ok a, L1) ->
  exists L2 es2, deallocate a size L1 = Done (tt, L2) /\ list_repr L2 es2 /\ regions_ok 0 es2
    /\ forall x, free es2 x <-> free es x.
Proof.
  intros HR Hok Hs Hrun.
  destruct (for_list_cut _ _ _ _ L es (allocate_implements size ltac:(lia))
    (allocate_cutting size Hs) HR Hok (regions_entry_ok _ Hok)) as (r & L' & es' & E & HR' & Hok' & H).
  unfold allocate in Hrun. rewrite E in Hrun. injection Hrun as -> ->. simpl in H.
  destruct H as ((Hin & Hiff) & _).
  pose proof (regions_ok_above _ _ a Hok (Hin a ltac:(lia))).
  pose proof (regions_ok_above _ _ (a + size - 1) Hok (Hin (a + size - 1) ltac:(lia))).
  destruct (Z.lt_ge_cases (a + size) W64).
  2: { exfalso. destruct (Hin (a + size - 1) ltac:(lia)) as (e & He & Hx).
       pose proof (regions_ok_forall _ _ Hok) as HF. rewrite Forall_forall in HF.
       specialize (HF e He). simpl in HF. lia. }
  destruct (deallocate_run L1 es' a size HR' (regions_nonempty _ Hok') ltac:(lia) ltac:(lia) ltac:(lia))
    as (L2 & E2 & HR2).
  destruct (insert_region_spec a (a + size) 0 es' ltac:(lia) ltac:(lia) ltac:(lia) Hok') as [Hok2 Hgb].
  { intros x Hx Hf. apply Hiff in Hf. tauto. }
  exists L2, (insert_region a (a + size) es'). split_and!; try done.
  intros x. split.
  - intros Hf. apply Hgb in Hf as [Hf|Hx]; [apply Hiff, Hf|apply Hin, Hx].
  - intros Hf. apply Hgb. rewrite Hiff. destruct (decide (a <= x)), (decide (x < a + size)); tauto.
Qed.

(** [FreeList::deallocate] never reunites two regions: the branch meant to do
    so compares the start of the region it has just read, not of the next
    one, with the end of the block. The list never gets shorter. *)
Theorem deallocate_never_reunites L es address size :
  list_repr L es -> regions_ok 0 es -> 0 <= address -> 0 <= size -> address + size < W64 ->
  exists L' es', deallocate address size L = Done (tt, L') /\ list_repr L' es'
    /\ (length es <= length es')%nat.
Proof.
  intros HR Hok Ha Hs Hb.
  destruct (deallocate_run L es address size HR (regions_nonempty _ Hok) Ha Hs Hb) as (L' & E & HR').
  eexists L', _. split_and!; [done|done|]. apply insert_region_length.
Qed.
End contract.

(** ** Witnesses *)

(** Two free regions with a hole between them. *)
Definition two_regions : list FreeListEntry :=
  [mkEntry 0x1000 0x5000; mkEntry 0x6000 0xa000].

Lemma two_regions_ok : regions_ok 0 two_regions.
Proof. unfold two_regions, W64; simpl; repeat split; lia. Qed.

Lemma two_regions_free x : free two_regions x <-> 0x1000 <= x < 0x5000 \/ 0x6000 <= x < 0xa000.
Proof. unfold two_regions. rewrite !free_cons, free_nil. simpl. tauto. Qed.

Lemma allocate_correct_witness :
  exists r L' es', allocate 0x1000 (build two_regions) = Done (r, L') /\ list_repr L' es'
    /\ regions_ok 0 es' /\ match r with
         | Ok a => taken two_regions es' a (a + 0x1000)
         | Err _ => L' = build two_regions /\ es' = two_regions
                    /\ forall e, e ∈ two_regions -> end_ e - start e < 0x1000
         end.
Proof.
  apply (allocate_correct (build two_regions) two_regions 0x1000);
    [apply build_repr|apply two_regions_ok|lia].
Defined.

Lemma allocate_aligned_correct_witness :
  exists r L' es', allocate_aligned 0x4000 0x2000 (build two_regions) = Done (r, L')
    /\ list_repr L' es' /\ regions_ok 0 es' /\ match r with
         | Ok a => a mod 0x2000 = 0 /\ taken two_regions es' a (a + 0x4000)
         | Err _ => L' = build two_regions /\ es' = two_regions
             /\ forall e a, e ∈ two_regions -> start e <= a -> a mod 0x2000 = 0 -> end_ e < a + 0x4000
         end.
Proof.
  apply (allocate_aligned_correct (build two_regions) two_regions 0x4000 0x2000);
    [apply build_repr|apply two_regions_ok|lia|exists 13; done|].
  unfold two_regions, room_ok, W64. repeat constructor; simpl; lia.
Defined.

Lemma reserve_correct_witness :
  exists r L' es', reserve 0x7000 0x1000 (build two_regions) = Done (r, L')
    /\ list_repr L' es' /\ regions_ok 0 es' /\ match r with
         | Ok _ => taken two_regions es' 0x7000 (0x7000 + 0x1000)
         | Err _ => L' = build two_regions /\ es' = two_regions /\ forall e, e ∈ two_regions ->
             ~ (start e <= 0x7000 /\ 0x7000 + 0x1000 <= end_ e)
         end.
Proof.
  apply (reserve_correct (build two_regions) two_regions 0x7000 0x1000);
    [apply build_repr|apply two_regions_ok|lia|lia|unfold W64; lia].
Defined.

Lemma deallocate_correct_witness :
  exists L' es', deallocate 0x5000 0x1000 (build two_regions) = Done (tt, L') /\ list_repr L' es'
    /\ regions_ok 0 es' /\ given_back two_regions es' 0x5000 (0x5000 + 0x1000).
Proof.
  apply (deallocate_correct (build two_regions) two_regions 0x5000 0x1000);
    [apply build_repr|apply two_regions_ok|lia|lia|unfold W64; lia|].
  intros x Hx Hf. apply two_regions_free in Hf. lia.
Defined.

(** The list after [allocate(0x1000)] on [two_regions]. *)
Definition after_allocate : FreeList :=
  match allocate 0x1000 (build two_regions) with Done (_, L) => L | _ => FreeList_new end.

Lemma allocate_deallocate_restores_witness :
  exists L2 es2, deallocate 0x1000 0x1000 after_allocate = Done (tt, L2) /\ list_repr L2 es2
    /\ regions_ok 0 es2 /\ forall x, free es2 x <-> free two_regions x.
Proof.
  apply (allocate_deallocate_restores (build two_regions) two_regions 0x1000 0x1000 after_allocate);
    [apply build_repr|apply two_regions_ok|lia|vm_compute; reflexivity].
Defined.

Lemma deallocate_never_reunites_witness :
  exists L' es', deallocate 0x5000 0x1000 (build two_regions) = Done (tt, L') /\ list_repr L' es'
    /\ (length two_regions <= length es')%nat.
Proof.
  apply (deallocate_never_reunites (build two_regions) two_regions 0x5000 0x1000);
    [apply build_repr|apply two_regions_ok|lia|lia|unfold W64; lia].
Defined.

(** The block between the two regions is given back, and 0x9000 contiguous
    bytes are free, yet a request for 0x8000 of them fails. *)
Example fragmented_forever :
  (let! _ := deallocate 0x5000 0x1000 in allocate 0x8000) (build two_regions)
  = (let! _ := deallocate 0x5000 0x1000 in ret (Err tt)) (build two_regions).
Proof. vm_compute. reflexivity. Qed.
