(* ===== verification/Hole.v ===== *)
(** * The list of holes of the kernel heap: src/mm/hole.rs

    A [Hole] is stored in the free memory it describes; [next] is an
    [Option<&'static mut Hole>], a unique reference, so the chain that starts at
    a hole is the list of the holes behind it, each given by its address and
    size ([HoleInfo]). The loops of the source walk this chain with a mutable
    reference; their models recurse on the rest of the chain. *)

From stdpp Require Import base numbers list sets.
From Stdlib Require Import ZArith Lia.
From S2P Require Import Prelude.

#[local] Open Scope Z_scope.

(** ** Data *)

Record HoleInfo := mkHoleInfo { hi_addr : Z; hi_size : Z }.

#[export] Instance HoleInfo_eq_dec : EqDecision HoleInfo.
Proof. solve_decision. Defined.

Record Allocation := mkAllocation {
  info : HoleInfo;
  front_padding : option HoleInfo;
  back_padding : option HoleInfo
}.

(** [first] is the dummy hole inside the [HoleList]; [next_holes] the chain
    behind it. *)
Record HoleList := mkHoleList { first : HoleInfo; next_holes : list HoleInfo }.

(** [core::alloc::Layout]: a size and an alignment. *)
Record Layout := mkLayout { l_size : Z; l_align : Z }.

(** [Layout::from_size_align]: the alignment is a power of two and the size does
    not overflow when it is rounded up to the alignment. *)
Definition from_size_align (size align : Z) : option Layout :=
  if (align =? 2 ^ Z.log2 align) && (0 <? align) && (size <=? W64 - 1 - (align - 1))
  then Some (mkLayout size align) else None.

Definition min_size : Z := 64.

(** ** Operations *)

(** [HoleList::empty]; [here] is the address of the value itself. *)
Definition HoleList_empty (here : Z) : HoleList := mkHoleList (mkHoleInfo here 0) [].

Definition HoleList_new (here hole_addr hole_size : Z) : HoleList :=
  mkHoleList (mkHoleInfo here 0) [mkHoleInfo hole_addr hole_size].

Definition split_hole (hole : HoleInfo) (required_layout : Layout) : outcome (option Allocation) :=
  let required_size := l_size required_layout in
  let required_align := l_align required_layout in
  let? up := align_up (hi_addr hole) required_align in
  let? (aligned_addr, front) :=
    if hi_addr hole =? up then Done (hi_addr hole, None)
    else
      let? v := add64 (hi_addr hole) min_size in
      let? aligned_addr := align_up v required_align in
      let? pad := sub64 aligned_addr (hi_addr hole) in
      Done (aligned_addr, Some (mkHoleInfo (hi_addr hole) pad)) in
  let? block_end := add64 aligned_addr required_size in
  let? hole_end := add64 (hi_addr hole) (hi_size hole) in
  if hole_end <? block_end then Done None
  else
    let? off := sub64 aligned_addr (hi_addr hole) in
    let? aligned_size := sub64 (hi_size hole) off in
    if aligned_size =? required_size then
      Done (Some (mkAllocation (mkHoleInfo aligned_addr required_size) front None))
    else
      let? rem := sub64 aligned_size required_size in
      if rem <? min_size then Done None
      else
        Done (Some (mkAllocation (mkHoleInfo aligned_addr required_size) front
                      (Some (mkHoleInfo block_end rem)))).

(** [allocate_first_fit(previous, layout)]: [rest] is the chain at
    [previous.next]; the result carries the chain after the call. *)
Fixpoint allocate_first_fit (rest : list HoleInfo) (layout : Layout)
    : outcome (option Allocation * list HoleInfo) :=
  match rest with
  | [] => Done (None, [])
  | current :: tl =>
      let? allocation := split_hole current layout in
      match allocation with
      | Some a => Done (Some a, tl)
      | None =>
          let? (r, tl') := allocate_first_fit tl layout in
          Done (r, current :: tl')
      end
  end.

(** The address [deallocate] uses for a hole: the dummy has size 0 and counts as
    address 0. *)
Definition hole_addr (hole : HoleInfo) : Z :=
  if hi_size hole =? 0 then 0 else hi_addr hole.

(** [deallocate(hole, addr, size)]: [rest] is the chain at [hole.next]; the
    result is the hole and its chain after the call. *)
Fixpoint deallocate (hole : HoleInfo) (rest : list HoleInfo) (addr size : Z)
    : outcome (HoleInfo * list HoleInfo) :=
  let? _ := oassert (min_size <=? size) in
  let? hole_end := add64 (hole_addr hole) (hi_size hole) in
  let? _ := oassert (hole_end <=? addr) in
  match rest with
  | next :: tl =>
      let? block_end := add64 addr size in
      if (hole_end =? addr) && (block_end =? hi_addr next) then
        let? both := add64 size (hi_size next) in
        let? sz := add64 (hi_size hole) both in
        Done (mkHoleInfo (hi_addr hole) sz, tl)
      else if hole_end =? addr then
        let? sz := add64 (hi_size hole) size in
        Done (mkHoleInfo (hi_addr hole) sz, rest)
      else if block_end =? hi_addr next then
        let? both := add64 size (hi_size next) in
        deallocate hole tl addr both
      else if hi_addr next <=? addr then
        let? (next', tl') := deallocate next tl addr size in
        Done (hole, next' :: tl')
      else
        Done (hole, mkHoleInfo addr size :: rest)
  | [] =>
      if hole_end =? addr then
        let? sz := add64 (hi_size hole) size in
        Done (mkHoleInfo (hi_addr hole) sz, [])
      else Done (hole, [mkHoleInfo addr size])
  end.

(** The same on a whole [HoleList]. *)
Definition dealloc_from_first (hl : HoleList) (addr size : Z) : outcome HoleList :=
  let? (h, rest) := deallocate (first hl) (next_holes hl) addr size in
  Done (mkHoleList h rest).

Definition dealloc_padding (hl : HoleList) (padding : option HoleInfo) : outcome HoleList :=
  match padding with
  | Some p => dealloc_from_first hl (hi_addr p) (hi_size p)
  | None => Done hl
  end.

Definition HoleList_allocate_first_fit (hl : HoleList) (layout : Layout)
    : outcome (option Z * HoleList) :=
  let? _ := oassert (min_size <=? l_size layout) in
  let? (r, rest) := allocate_first_fit (next_holes hl) layout in
  let hl1 := mkHoleList (first hl) rest in
  match r with
  | None => Done (None, hl1)
  | Some allocation =>
      let? hl2 := dealloc_padding hl1 (front_padding allocation) in
      let? hl3 := dealloc_padding hl2 (back_padding allocation) in
      let? _ := oassert (negb (hi_addr (info allocation) =? 0)) in
      Done (Some (hi_addr (info allocation)), hl3)
  end.

Definition HoleList_deallocate (hl : HoleList) (ptr : Z) (layout : Layout) : outcome HoleList :=
  dealloc_from_first hl ptr (l_size layout).

(** ** Well-formed chains and the addresses they hold *)

(** The holes behind address [e]: sorted, at least [min_size] bytes each, with a
    used byte between two of them, all inside the address space. *)
Fixpoint gaps (e : Z) (l : list HoleInfo) : Prop :=
  match l with
  | [] => e < W64
  | h :: tl => e < hi_addr h /\ min_size <= hi_size h /\ gaps (hi_addr h + hi_size h) tl
  end.

Definition in_hole (h : HoleInfo) (x : Z) : Prop := hi_addr h <= x < hi_addr h + hi_size h.
Definition free_in (l : list HoleInfo) (x : Z) : Prop := exists h, h ∈ l /\ in_hole h x.
Definition block (addr size x : Z) : Prop := addr <= x < addr + size.

Definition holes_ok (hl : HoleList) : Prop := hi_size (first hl) = 0 /\ gaps 0 (next_holes hl).
Definition free (hl : HoleList) (x : Z) : Prop := free_in (next_holes hl) x.

Lemma hole_free_nil x : free_in [] x <-> False.
Proof. split; [intros (h & H & _); set_solver|done]. Qed.

Lemma hole_free_cons h l x : free_in (h :: l) x <-> in_hole h x \/ free_in l x.
Proof.
  unfold free_in. split.
  - intros (h' & [->|H]%elem_of_cons & Hx); [by left|right; eauto].
  - intros [H|(h' & H & Hx)]; eexists; (split; [|eassumption]); set_solver.
Qed.

Lemma hole_free_app l1 l2 x : free_in (l1 ++ l2) x <-> free_in l1 x \/ free_in l2 x.
Proof.
  unfold free_in. split.
  - intros (h & [H|H]%elem_of_app & Hx); eauto.
  - intros [(h & H & Hx)|(h & H & Hx)]; exists h; set_solver.
Qed.

#[export] Instance in_hole_dec h x : Decision (in_hole h x).
Proof. unfold in_hole. apply _. Defined.
#[export] Instance free_in_dec l x : Decision (free_in l x).
Proof.
  refine (cast_if (decide (Exists (fun h => in_hole h x) l)));
    rewrite Exists_exists in *; done.
Defined.

Create Rewrite HintDb holes.
#[export] Hint Rewrite hole_free_nil hole_free_cons hole_free_app : holes.

Lemma gaps_mono e e' l : gaps e l -> e' <= e -> gaps e' l.
Proof. destruct l; simpl; [lia|intros (? & ? & ?) ?; split_and!; try done; lia]. Qed.

Lemma gaps_bound e l : gaps e l -> e < W64.
Proof.
  revert e. induction l as [|h l IH]; simpl; intros e; [done|].
  intros (H1 & H2 & H3%IH). unfold min_size in *. lia.
Qed.

Lemma gaps_free_above e l x : gaps e l -> free_in l x -> e < x < W64.
Proof.
  revert e. induction l as [|h l IH]; intros e; autorewrite with holes; [done|].
  simpl. unfold in_hole, min_size. intros (H1 & H2 & H3).
  pose proof (gaps_bound _ _ H3). intros [?|?%(IH _ H3)]; lia.
Qed.

Lemma gaps_app_inv e l1 l2 : gaps e (l1 ++ l2) -> gaps e l2.
Proof.
  revert e. induction l1 as [|h l1 IH]; simpl; intros e; [done|].
  unfold min_size. intros (H1 & H2 & H3%IH). eapply gaps_mono; [done|lia].
Qed.

Lemma gaps_delete e l1 h l2 : gaps e (l1 ++ h :: l2) -> gaps e (l1 ++ l2).
Proof.
  revert e. induction l1 as [|h1 l1 IH]; simpl; intros e; unfold min_size.
  - intros (H1 & H2 & H3). eapply gaps_mono; [done|lia].
  - intros (H1 & H2 & H3). auto.
Qed.

(** The bytes of one hole are in no other hole. *)
Lemma gaps_disjoint e l1 h l2 x :
  gaps e (l1 ++ h :: l2) -> in_hole h x -> ~ free_in (l1 ++ l2) x.
Proof.
  revert e. induction l1 as [|h1 l1 IH]; simpl; intros e (H1 & H2 & H3) Hx Hf.
  - pose proof (gaps_free_above _ _ _ H3 Hf). unfold in_hole in Hx. lia.
  - rewrite hole_free_cons in Hf. destruct Hf as [Hf|Hf]; [|by eapply IH].
    assert (free_in (l1 ++ h :: l2) x) as Hf' by (rewrite hole_free_app, hole_free_cons; auto).
    pose proof (gaps_free_above _ _ _ H3 Hf'). unfold in_hole in Hf. lia.
Qed.

Lemma gaps_elem e l h : gaps e l -> h ∈ l -> e < hi_addr h /\ min_size <= hi_size h /\ hi_addr h + hi_size h < W64.
Proof.
  revert e. induction l as [|h1 l IH]; intros e; [set_solver|].
  simpl. intros (H1 & H2 & H3) [->|H]%elem_of_cons.
  - pose proof (gaps_bound _ _ H3). split_and!; done.
  - destruct (IH _ H3 H) as (? & ? & ?). unfold min_size in *. split_and!; lia.
Qed.

(** A well-formed chain is determined by the addresses it holds: the list of
    holes is a canonical representation of the free memory. *)
Lemma gaps_canonical e1 e2 l1 l2 :
  gaps e1 l1 -> gaps e2 l2 -> (forall x, free_in l1 x <-> free_in l2 x) -> l1 = l2.
Proof.
  assert (Hin : forall e h l, gaps e (h :: l) -> free_in (h :: l) (hi_addr h)).
  { intros e h l (_ & Hs & _). rewrite hole_free_cons. left. unfold in_hole, min_size in *. lia. }
  revert e1 e2 l2. induction l1 as [|h1 l1 IH]; intros e1 e2 [|h2 l2] G1 G2 E; try done.
  - pose proof (proj2 (E _) (Hin _ _ _ G2)) as F. by rewrite hole_free_nil in F.
  - pose proof (proj1 (E _) (Hin _ _ _ G1)) as F. by rewrite hole_free_nil in F.
  - pose proof (proj1 (E _) (Hin _ _ _ G1)) as F1. pose proof (proj2 (E _) (Hin _ _ _ G2)) as F2.
    assert (Hend : forall h l, gaps (hi_addr h + hi_size h) l -> min_size <= hi_size h ->
              forall x, in_hole h x -> free_in (h :: l) x) by (intros; rewrite hole_free_cons; auto).
    destruct G1 as (A1 & S1 & G1), G2 as (A2 & S2 & G2). unfold min_size in *.
    rewrite hole_free_cons in F1, F2.
    assert (hi_addr h1 = hi_addr h2) as EA.
    { unfold in_hole in F1, F2.
      destruct F1 as [F1|F1%(gaps_free_above _ _ _ G2)], F2 as [F2|F2%(gaps_free_above _ _ _ G1)]; lia. }
    assert (Hstop : forall h l, gaps (hi_addr h + hi_size h) l -> ~ free_in (h :: l) (hi_addr h + hi_size h)).
    { intros h l G. rewrite hole_free_cons. intros [?|?%(gaps_free_above _ _ _ G)]; [unfold in_hole in *|]; lia. }
    assert (hi_size h1 = hi_size h2) as ES.
    { destruct (Z.lt_trichotomy (hi_size h1) (hi_size h2)) as [L|[L|L]]; [exfalso|done|exfalso].
      - apply (Hstop _ _ G1), E, Hend; [done|unfold min_size; lia|unfold in_hole; lia].
      - apply (Hstop _ _ G2), E, Hend; [done|unfold min_size; lia|unfold in_hole; lia]. }
    assert (h1 = h2) as -> by (destruct h1, h2; simpl in *; congruence).
    f_equal. eapply IH; [done|done|]. intros x. pose proof (E x) as Ex. rewrite !hole_free_cons in Ex.
    destruct (decide (in_hole h2 x)) as [Hx|]; [|naive_solver].
    unfold in_hole in Hx. split; intros Hf.
    + pose proof (gaps_free_above _ _ _ G1 Hf). lia.
    + pose proof (gaps_free_above _ _ _ G2 Hf). lia.
Qed.

(** ** Deallocation *)

Definition hole_end (h : HoleInfo) : Z := hole_addr h + hi_size h.

(** The bytes of the hole a walk stands on; the dummy has none. *)
Definition at_hole (h : HoleInfo) (x : Z) : Prop := hole_addr h <= x < hole_end h.

Lemma real_hole h : min_size <= hi_size h -> hole_addr h = hi_addr h.
Proof. unfold hole_addr, min_size. intros. destruct (Z.eqb_spec (hi_size h) 0); lia. Qed.

Lemma at_real_hole h x : min_size <= hi_size h -> at_hole h x <-> in_hole h x.
Proof. intros Hm. unfold at_hole, hole_end, in_hole. by rewrite real_hole. Qed.

(** What one call of [deallocate] leaves: the hole keeps its address, the dummy
    stays empty, the chain stays well formed and gains exactly the block. *)
Record dealloc_result (h : HoleInfo) (rest : list HoleInfo) (addr size : Z)
    (h' : HoleInfo) (rest' : list HoleInfo) : Prop := {
  dr_addr : hi_addr h' = hi_addr h;
  dr_size : hi_size h <= hi_size h';
  dr_dummy : hi_size h = 0 -> h' = h;
  dr_gaps : gaps (hole_end h') rest';
  dr_free : forall x, at_hole h' x \/ free_in rest' x <->
                      at_hole h x \/ free_in rest x \/ block addr size x
}.

#[export] Instance at_hole_dec h x : Decision (at_hole h x).
Proof. unfold at_hole. apply _. Defined.

Ltac in_holes :=
  unfold at_hole, hole_end, in_hole, block, hole_addr, min_size in *;
  simpl in *; repeat case_match; simplify_eq;
  rewrite ?Z.eqb_eq, ?Z.eqb_neq in *; lia.

(** A hole that grows by [n] bytes at its end. *)
Definition grown (h : HoleInfo) (n : Z) : HoleInfo := mkHoleInfo (hi_addr h) (hi_size h + n).

Lemma grown_hole h n :
  0 < hi_size h -> 0 <= n -> hole_addr (grown h n) = hole_addr h /\ hole_end (grown h n) = hole_end h + n.
Proof. intros. in_holes. Qed.

Lemma dealloc_result_grow h rest addr size :
  0 < hi_size h -> 0 <= size -> hole_end h = addr -> gaps (addr + size) rest ->
  dealloc_result h rest addr size (grown h size) rest.
Proof.
  intros Hs Hn <- G. destruct (grown_hole h size Hs Hn) as [Ea Ee]. split; simpl.
  - done.
  - lia.
  - lia.
  - by rewrite Ee.
  - intros x. unfold at_hole, block. rewrite Ea, Ee. unfold hole_end in *. split; [|naive_solver lia].
    intros [?|?]; [|auto]. destruct (decide (x < hole_addr h + hi_size h)); [left|right; right]; lia.
Qed.

Lemma dealloc_result_fill h next tl addr size :
  0 < hi_size h -> 0 <= size -> hole_end h = addr -> addr + size = hi_addr next ->
  gaps (hole_end h) (next :: tl) ->
  dealloc_result h (next :: tl) addr size (grown h (size + hi_size next)) tl.
Proof.
  intros Hs Hn <- En (G1 & G2 & G3). unfold min_size in G2.
  destruct (grown_hole h (size + hi_size next) Hs ltac:(lia)) as [Ea Ee]. split; simpl.
  - done.
  - lia.
  - lia.
  - rewrite Ee. eapply gaps_mono; [done|lia].
  - intros x. unfold at_hole, block. rewrite Ea, Ee, hole_free_cons. unfold in_hole, hole_end in *.
    destruct (decide (free_in tl x)); [naive_solver|]. split; [|naive_solver lia].
    intros [?|?]; [|auto]. destruct (decide (x < hole_addr h + hi_size h)); [left; lia|].
    destruct (decide (x < hi_addr next)); [|]; right; [right|left; left]; lia.
Qed.

Lemma dealloc_result_insert h rest addr size :
  hole_end h < addr -> min_size <= size -> gaps (addr + size) rest ->
  dealloc_result h rest addr size h (mkHoleInfo addr size :: rest).
Proof.
  intros He Hm G. split; simpl; try done.
  intros x. rewrite hole_free_cons. unfold in_hole, block; simpl. naive_solver.
Qed.

(** The merged block continues with the chain behind [next]. *)
Lemma dealloc_result_before h next tl addr size h' rest' :
  addr + size = hi_addr next -> min_size <= size -> min_size <= hi_size next ->
  dealloc_result h tl addr (size + hi_size next) h' rest' ->
  dealloc_result h (next :: tl) addr size h' rest'.
Proof.
  intros En Hm Hn [D1 D2 D3 D4 D5]. split; try done.
  intros x. rewrite D5, hole_free_cons. unfold in_hole, block, min_size in *.
  destruct (decide (at_hole h x)), (decide (free_in tl x)); naive_solver lia.
Qed.

(** The walk goes on at [next], which keeps its place in the chain. *)
Lemma dealloc_result_next h next tl addr size next' tl' :
  hole_end h < hi_addr next -> min_size <= hi_size next ->
  dealloc_result next tl addr size next' tl' ->
  dealloc_result h (next :: tl) addr size h (next' :: tl').
Proof.
  intros He Hm [D1 D2 D3 D4 D5].
  assert (min_size <= hi_size next') as Hm' by lia.
  unfold hole_end in D4. rewrite real_hole in D4 by done. split; simpl.
  - done.
  - done.
  - done.
  - rewrite D1 in *. split_and!; done.
  - intros x. rewrite !hole_free_cons. specialize (D5 x). rewrite !at_real_hole in D5 by done. tauto.
Qed.

Lemma deallocate_spec h rest addr size :
  gaps (hole_end h) rest -> 0 <= hi_size h -> 0 <= hole_addr h -> hole_end h <= addr ->
  0 < addr -> min_size <= size -> addr + size < W64 ->
  (forall x, block addr size x -> ~ free_in rest x) ->
  exists h' rest', deallocate h rest addr size = Done (h', rest') /\
    dealloc_result h rest addr size h' rest'.
Proof.
  revert h size. induction rest as [|next tl IH]; intros h size G Hs Ha He Hp Hm Hb Hd;
    simpl; (rewrite (proj2 (Z.leb_le _ _) Hm)); cbn [oassert obind];
    rewrite (add64_done (hole_addr h)) by (unfold hole_end, min_size in *; lia); cbn [obind];
    fold (hole_end h); rewrite (proj2 (Z.leb_le _ _) He); cbn [oassert obind].
  - destruct (Z.eqb_spec (hole_end h) addr) as [E|E].
    + assert (0 < hi_size h) by (clear -E Hs Hp; in_holes).
      rewrite add64_done by (unfold hole_end, min_size in *; lia).
      eexists _, _. split; [done|]. apply dealloc_result_grow; unfold min_size in *; simpl; try done; lia.
    + eexists _, _. split; [done|]. apply dealloc_result_insert; simpl; try done; lia.
  - destruct G as (G1 & G2 & G3). pose proof (gaps_bound _ _ G3) as Gb.
    assert (Hn : hi_addr next <= addr /\ hi_addr next + hi_size next <= addr \/ addr + size <= hi_addr next).
    { pose proof (Hd addr) as D1. pose proof (Hd (hi_addr next)) as D2.
      rewrite hole_free_cons in D1, D2. unfold block, in_hole, min_size in *. lia. }
    assert (Hd' : forall x, block addr size x -> ~ free_in tl x).
    { intros x Hx. specialize (Hd x Hx). rewrite hole_free_cons in Hd. tauto. }
    unfold min_size in *.
    rewrite (add64_done addr) by lia. cbn [obind].
    destruct (Z.eqb_spec (hole_end h) addr) as [E|E], (Z.eqb_spec (addr + size) (hi_addr next)) as [F|F];
      cbn [andb].
    + assert (0 < hi_size h) by (clear -E Hs Hp; in_holes).
      rewrite !add64_done by (unfold hole_end in *; lia). cbn [obind].
      eexists _, _. split; [rewrite add64_done by (unfold hole_end in *; lia); done|].
      apply dealloc_result_fill; simpl; unfold min_size; try done; lia.
    + assert (0 < hi_size h) by (clear -E Hs Hp; in_holes).
      rewrite add64_done by (unfold hole_end in *; lia). cbn [obind].
      eexists _, _. split; [done|]. apply dealloc_result_grow; simpl; unfold min_size; try done; [lia|].
      split_and!; try done; lia.
    + rewrite add64_done by lia. cbn [obind].
      destruct (IH h (size + hi_size next)) as (h' & rest' & -> & D); try done; try lia.
      * eapply gaps_mono; [done|lia].
      * intros x Hx Hf. pose proof (gaps_free_above _ _ _ G3 Hf).
        unfold block in Hx. lia.
      * eexists _, _. split; [done|]. by apply dealloc_result_before.
    + destruct (Z.leb_spec (hi_addr next) addr) as [L|L].
      * assert (Hreal : hole_addr next = hi_addr next) by (apply real_hole; done).
        destruct (IH next size) as (h' & rest' & -> & D); unfold hole_end; try rewrite Hreal; try done; try lia.
        { unfold hole_end in *. lia. }
        eexists _, _. split; [done|]. by apply dealloc_result_next.
      * eexists _, _. split; [done|]. apply dealloc_result_insert; simpl; unfold min_size; try done; [lia|].
        split_and!; try done; lia.
Qed.

(** [deallocate] from the first hole of a list. *)
Lemma dealloc_from_first_spec hl addr size :
  holes_ok hl -> 0 < addr -> min_size <= size -> addr + size < W64 ->
  (forall x, block addr size x -> ~ free hl x) ->
  exists hl', dealloc_from_first hl addr size = Done hl' /\ holes_ok hl' /\
    first hl' = first hl /\ (forall x, free hl' x <-> free hl x \/ block addr size x).
Proof.
  intros [H0 G] Hp Hm Hb Hd. unfold dealloc_from_first.
  assert (E0 : hole_end (first hl) = 0 /\ hole_addr (first hl) = 0) by in_holes.
  destruct (deallocate_spec (first hl) (next_holes hl) addr size)
    as (h' & rest' & -> & [D1 D2 D3 D4 D5]); try done; try lia.
  { by rewrite (proj1 E0). }
  specialize (D3 H0). subst h'. eexists. split; [done|].
  unfold holes_ok, free; simpl. split_and!; try done.
  - by rewrite (proj1 E0) in D4.
  - intros x. specialize (D5 x). unfold at_hole in D5. rewrite (proj1 E0), (proj2 E0) in D5.
    intuition lia.
Qed.

(** Freeing an address that is already free is caught by the assertions. *)
Lemma deallocate_panics h rest addr size :
  gaps (hole_end h) rest -> 0 <= hi_size h -> 0 <= hole_addr h -> hole_end h <= addr ->
  free_in rest addr -> min_size <= size -> deallocate h rest addr size = Panic.
Proof.
  intros G Hs Ha He Hf Hm. revert h size G Hs Ha He Hm.
  induction rest as [|next tl IH]; intros h size G Hs Ha He Hm; [by rewrite hole_free_nil in Hf|].
  simpl; rewrite (proj2 (Z.leb_le _ _) Hm); cbn [oassert obind].
  destruct (add64 (hole_addr h) (hi_size h)) as [e| |] eqn:Ee; [|done|].
  2: { unfold add64, checked in Ee. by case_match. }
  apply checked_inv in Ee as [-> _]. cbn [obind]. fold (hole_end h).
  rewrite (proj2 (Z.leb_le _ _) He); cbn [oassert obind].
  destruct G as (G1 & G2 & G3). unfold min_size in *.
  assert (Hn : hi_addr next <= addr).
  { rewrite hole_free_cons in Hf. destruct Hf as [Hf|Hf%(gaps_free_above _ _ _ G3)];
      unfold in_hole in *; lia. }
  destruct (add64 addr size) as [e| |] eqn:Ee; [|done|].
  2: { unfold add64, checked in Ee. by case_match. }
  apply checked_inv in Ee as [-> _]. cbn [obind].
  destruct (Z.eqb_spec (hole_end h) addr); [lia|].
  destruct (Z.eqb_spec (addr + size) (hi_addr next)); [lia|].
  destruct (Z.leb_spec (hi_addr next) addr); [cbn [andb]|lia].
  assert (Hreal : hole_addr next = hi_addr next) by (apply real_hole; done).
  destruct (decide (in_hole next addr)) as [Hi|Hi].
  - destruct tl as [|next2 tl2]; simpl; unfold min_size; rewrite (proj2 (Z.leb_le _ _) Hm);
      cbn [oassert obind]; rewrite Hreal; unfold in_hole in Hi;
      (destruct (add64 (hi_addr next) (hi_size next)) as [e| |] eqn:Ee;
       [apply checked_inv in Ee as [-> _]; simpl; rewrite (proj2 (Z.leb_gt _ _)) by lia; done
       |done|unfold add64, checked in Ee; by case_match]).
  - rewrite hole_free_cons in Hf. destruct Hf as [Hf|Hf]; [done|].
    pose proof (gaps_free_above _ _ _ G3 Hf).
    rewrite (IH Hf next size); try done; unfold hole_end in *; rewrite ?Hreal; try done; lia.
Qed.

(** ** Splitting a hole *)

(** The only place [split_hole] tries: the start of the hole when it is aligned,
    the first aligned address that leaves room for a hole before it otherwise. *)
Definition slot (h : HoleInfo) (align : Z) : Z :=
  if hi_addr h mod align =? 0 then hi_addr h else align_up_val (hi_addr h + min_size) align.

(** The block at the slot fits if what remains behind it is nothing or a hole. *)
Definition fits (h : HoleInfo) (layout : Layout) : Prop :=
  let block_end := slot h (l_align layout) + l_size layout in
  let hole_end := hi_addr h + hi_size h in
  block_end = hole_end \/ block_end + min_size <= hole_end.

Definition layout_ok (layout : Layout) : Prop :=
  min_size <= l_size layout /\ pow2 (l_align layout).

(** Room above the holes, so that no address computed for the layout overflows. *)
Definition room (l : list HoleInfo) (layout : Layout) : Prop :=
  forall h, h ∈ l -> hi_addr h + hi_size h + min_size + l_align layout + l_size layout <= W64.

Lemma slot_spec h align :
  pow2 align -> 0 < hi_addr h ->
  slot h align mod align = 0 /\ hi_addr h <= slot h align < hi_addr h + min_size + align /\
  (slot h align = hi_addr h \/ hi_addr h + min_size <= slot h align).
Proof.
  intros Hp%pow2_pos Ha. unfold slot.
  destruct (Z.eqb_spec (hi_addr h mod align) 0); [unfold min_size; split_and!; try done; lia|].
  destruct (align_up_val_spec (hi_addr h + min_size) align) as [E1 E2]; [lia|].
  unfold min_size in *. split_and!; try done; lia.
Qed.

(** The tiles of a split: front padding, block and back padding make up the hole. *)
Definition tiles (h : HoleInfo) (layout : Layout) (a : Allocation) : Prop :=
  let p := slot h (l_align layout) in
  let e := p + l_size layout in
  info a = mkHoleInfo p (l_size layout) /\
  front_padding a = (if p =? hi_addr h then None else Some (mkHoleInfo (hi_addr h) (p - hi_addr h))) /\
  back_padding a = (if e =? hi_addr h + hi_size h then None
                    else Some (mkHoleInfo e (hi_addr h + hi_size h - e))).

Lemma split_slot {B} h align (k : Z * option HoleInfo -> outcome B) :
  pow2 align -> 0 < hi_addr h -> hi_addr h + min_size + align <= W64 ->
  (let? up := align_up (hi_addr h) align in
   obind
     (if hi_addr h =? up then Done (hi_addr h, None)
      else
        let? v := add64 (hi_addr h) min_size in
        let? aligned_addr := align_up v align in
        let? pad := sub64 aligned_addr (hi_addr h) in
        Done (aligned_addr, Some (mkHoleInfo (hi_addr h) pad))) k) =
  k (slot h align, if slot h align =? hi_addr h then None
                   else Some (mkHoleInfo (hi_addr h) (slot h align - hi_addr h))).
Proof.
  intros Hp Ha Hb. pose proof (pow2_pos _ Hp) as Hq.
  destruct (slot_spec h align Hp Ha) as (S1 & S2 & S3).
  unfold slot, min_size in *.
  rewrite align_up_done by (try done; lia). cbn [obind].
  destruct (Z.eqb_spec (hi_addr h mod align) 0) as [E|E].
  - rewrite align_up_val_id by (try done; lia). by rewrite Z.eqb_refl.
  - destruct (align_up_val_spec (hi_addr h) align ltac:(lia)) as [A1 A2].
    destruct (align_up_val_spec (hi_addr h + 64) align ltac:(lia)) as [B1 B2].
    destruct (Z.eqb_spec (hi_addr h) (align_up_val (hi_addr h) align)) as [F|F]; [congruence|].
    rewrite add64_done by lia. cbn [obind].
    rewrite align_up_done by (try done; lia). cbn [obind].
    rewrite sub64_done by lia. cbn [obind].
    destruct (Z.eqb_spec (align_up_val (hi_addr h + 64) align) (hi_addr h)); [lia|done].
Qed.

Lemma split_hole_spec h layout :
  layout_ok layout -> 0 < hi_addr h -> min_size <= hi_size h -> room [h] layout ->
  (exists a, split_hole h layout = Done (Some a) /\ fits h layout /\ tiles h layout a) \/
  (split_hole h layout = Done None /\ ~ fits h layout).
Proof.
  intros [Hl Hp] Ha Hs Hr. specialize (Hr h ltac:(set_solver)).
  pose proof (pow2_pos _ Hp) as Hq. destruct (slot_spec h _ Hp Ha) as (S1 & S2 & S3).
  unfold split_hole; cbv zeta. unfold min_size in Hs, Hl, Hr, S2, S3.
  rewrite (split_slot h (l_align layout)) by (try done; unfold min_size; lia).
  unfold fits, tiles; cbv zeta. set (p := slot h (l_align layout)) in *.
  cbv beta iota. rewrite !add64_done by lia. cbn [obind]. unfold min_size.
  destruct (Z.ltb_spec (hi_addr h + hi_size h) (p + l_size layout)); [right; split; [done|lia]|].
  rewrite !sub64_done by (try rewrite sub64_done; lia). cbn [obind].
  rewrite !sub64_done by lia. cbn [obind].
  destruct (Z.eqb_spec (hi_size h - (p - hi_addr h)) (l_size layout)).
  - left. eexists. split; [done|]. destruct (Z.eqb_spec (p + l_size layout) (hi_addr h + hi_size h)); [|lia].
    split_and!; try done. lia.
  - rewrite sub64_done by lia. cbn [obind].
    destruct (Z.ltb_spec (hi_size h - (p - hi_addr h) - l_size layout) 64); [right; split; [done|lia]|].
    left. eexists. split; [done|]. destruct (Z.eqb_spec (p + l_size layout) (hi_addr h + hi_size h)); [lia|].
    split_and!; try done; [lia|]. simpl. do 2 f_equal. lia.
Qed.

(** ** First fit *)

Lemma room_weaken l l' layout : room l layout -> l' ⊆ l -> room l' layout.
Proof. intros Hr Hl h Hh. apply Hr. set_solver. Qed.

Lemma allocate_first_fit_spec e rest layout :
  gaps e rest -> 0 <= e -> layout_ok layout -> room rest layout ->
  (exists pre h post a, rest = pre ++ h :: post /\
     allocate_first_fit rest layout = Done (Some a, pre ++ post) /\
     fits h layout /\ tiles h layout a /\ Forall (fun h' => ~ fits h' layout) pre) \/
  (allocate_first_fit rest layout = Done (None, rest) /\ Forall (fun h' => ~ fits h' layout) rest).
Proof.
  revert e. induction rest as [|h tl IH]; intros e G He Hl Hr; [by right|].
  destruct G as (G1 & G2 & G3). unfold min_size in G2.
  destruct (split_hole_spec h layout Hl) as [(a & E & F & T)|[E F]];
    [lia|done|eapply room_weaken; [exact Hr|set_solver]| |]; simpl; rewrite E; cbn [obind].
  - left. exists [], h, tl, a. split_and!; try done.
  - destruct (IH (hi_addr h + hi_size h)) as [(pre & h' & post & a & -> & E' & F' & T & N)|[E' N]];
      try done; [lia|eapply room_weaken; [exact Hr|set_solver]| |]; rewrite E'; cbn [obind].
    + left. exists (h :: pre), h', post, a. split_and!; try done. by constructor.
    + right. split; [done|]. by constructor.
Qed.

(** The holes before and behind a block, as [deallocate] gets them. *)
Lemma dealloc_padding_spec hl (p : option HoleInfo) (P : Z -> Prop) :
  holes_ok hl ->
  (forall h, p = Some h -> 0 < hi_addr h /\ min_size <= hi_size h /\ hi_addr h + hi_size h < W64) ->
  (forall x, P x <-> exists h, p = Some h /\ in_hole h x) ->
  (forall x, P x -> ~ free hl x) ->
  exists hl', dealloc_padding hl p = Done hl' /\ holes_ok hl' /\ first hl' = first hl /\
    (forall x, free hl' x <-> free hl x \/ P x).
Proof.
  intros Hok Hb HP Hd. destruct p as [h|]; simpl.
  - destruct (Hb h eq_refl) as (B1 & B2 & B3).
    destruct (dealloc_from_first_spec hl (hi_addr h) (hi_size h)) as (hl' & E & Hok' & Hf & Hfree);
      try done.
    { intros x Hx. apply Hd, HP. eauto. }
    exists hl'. split_and!; try done. intros x. rewrite Hfree, HP. unfold block, in_hole. naive_solver.
  - exists hl. split_and!; try done. intros x. rewrite HP. naive_solver.
Qed.

Lemma HoleList_allocate_spec hl layout :
  holes_ok hl -> layout_ok layout -> room (next_holes hl) layout ->
  (exists pre h post hl',
     let p := slot h (l_align layout) in
     next_holes hl = pre ++ h :: post /\ Forall (fun h' => ~ fits h' layout) pre /\ fits h layout /\
     HoleList_allocate_first_fit hl layout = Done (Some p, hl') /\
     holes_ok hl' /\ first hl' = first hl /\
     (forall x, free hl' x <-> free hl x /\ ~ block p (l_size layout) x)) \/
  (HoleList_allocate_first_fit hl layout = Done (None, hl) /\
   Forall (fun h' => ~ fits h' layout) (next_holes hl)).
Proof.
  intros [H0 G] Hl Hr. unfold HoleList_allocate_first_fit.
  pose proof Hl as [Hs Hp]. rewrite (proj2 (Z.leb_le _ _) Hs); cbn [oassert obind].
  destruct (allocate_first_fit_spec 0 (next_holes hl) layout)
    as [(pre & h & post & a & Enx & -> & F & (T1 & T2 & T3) & N)|[-> N]]; try done; cbn [obind];
    [left|by right; destruct hl].
  rewrite Enx in G. destruct (gaps_elem _ _ h G) as (G1 & G2 & G3); [set_solver|].
  destruct (slot_spec h (l_align layout) Hp) as (S1 & S2 & S3); [lia|].
  exists pre, h, post. cbv zeta. set (p := slot h (l_align layout)) in *.
  unfold fits in F; cbv zeta in F; fold p in F. unfold min_size in *. cbv zeta.
  destruct (dealloc_padding_spec (mkHoleList (first hl) (pre ++ post)) (front_padding a)
              (fun x => hi_addr h <= x < p)) as (hl2 & -> & Hok2 & Hf2 & Hfree2).
  { split; [done|by eapply gaps_delete]. }
  { intros h' Hh. rewrite T2 in Hh. unfold min_size. case_match; simplify_eq/=. lia. }
  { intros x. rewrite T2. unfold in_hole. split.
    - intros Hx. destruct (Z.eqb_spec p (hi_addr h)); [lia|]. eexists; split; [done|simpl; lia].
    - intros (h' & Eh & Hx). case_match; simplify_eq/=. lia. }
  { intros x Hx. eapply gaps_disjoint; [done|unfold in_hole; lia]. }
  cbn [obind].
  destruct (dealloc_padding_spec hl2 (back_padding a)
              (fun x => p + l_size layout <= x < hi_addr h + hi_size h)) as (hl3 & -> & Hok3 & Hf3 & Hfree3).
  { done. }
  { intros h' Hh. rewrite T3 in Hh. unfold min_size. case_match; simplify_eq/=.
    rewrite Z.eqb_neq in *. lia. }
  { intros x. rewrite T3. unfold in_hole. split.
    - intros Hx. destruct (Z.eqb_spec (p + l_size layout) (hi_addr h + hi_size h)); [lia|].
      eexists; split; [done|simpl; lia].
    - intros (h' & Eh & Hx). case_match; simplify_eq/=. lia. }
  { intros x Hx. rewrite Hfree2. intros [Hy|Hy]; [|lia]. revert Hy.
    eapply gaps_disjoint; [done|unfold in_hole; lia]. }
  cbn [obind]. exists hl3. rewrite T1; simpl.
  destruct (Z.eqb_spec p 0); [lia|]. cbn [negb oassert obind].
  split_and!; try done; [by rewrite Hf3, Hf2|]. intros x. rewrite Hfree3, Hfree2.
  unfold free; simpl. rewrite Enx, !hole_free_app, hole_free_cons. unfold block.
  assert (D : in_hole h x -> ~ free_in (pre ++ post) x) by (intros; by eapply gaps_disjoint).
  rewrite hole_free_app in D. unfold in_hole in *.
  destruct (decide (free_in pre x)), (decide (free_in post x)); naive_solver lia.
Qed.

(** ** The properties of the list of holes *)

(** C11. First fit allocation: the block starts at the slot of the first hole it
    fits in, is aligned, was free, and exactly its bytes leave the free memory
    (the padding before and behind it goes back to the list); without such a
    hole the call fails and changes nothing. *)
Theorem hole_allocate_correct hl layout :
  holes_ok hl -> layout_ok layout -> room (next_holes hl) layout ->
  match HoleList_allocate_first_fit hl layout with
  | Done (Some p, hl') =>
      p mod l_align layout = 0 /\
      (forall x, block p (l_size layout) x -> free hl x) /\
      (forall x, free hl' x <-> free hl x /\ ~ block p (l_size layout) x) /\
      holes_ok hl' /\
      exists pre h post, next_holes hl = pre ++ h :: post /\
        Forall (fun h' => ~ fits h' layout) pre /\ p = slot h (l_align layout)
  | Done (None, hl') => hl' = hl /\ Forall (fun h => ~ fits h layout) (next_holes hl)
  | _ => False
  end.
Proof.
  intros Hok Hl Hr. destruct (HoleList_allocate_spec hl layout Hok Hl Hr)
    as [(pre & h & post & hl' & E & N & F & -> & Hok' & Hf & Hfree)|[-> N]]; [|done].
  destruct Hok as [H0 G]. pose proof G as G'. rewrite E in G'.
  destruct (gaps_elem _ _ h G') as (G1 & G2 & G3); [set_solver|].
  destruct (slot_spec h (l_align layout)) as (S1 & S2 & S3); [apply Hl|lia|].
  split_and!; [done| |done|done|naive_solver].
  intros x Hx. unfold free. rewrite E, hole_free_app, hole_free_cons. right; left.
  unfold fits, min_size, block, in_hole in *. lia.
Qed.

Definition heap0 : HoleList := HoleList_new 0x300000 0x400000 4096.

Lemma heap0_ok : holes_ok heap0.
Proof. repeat split; simpl; unfold min_size, W64; lia. Qed.

Lemma hole_allocate_correct_witness :
  HoleList_allocate_first_fit heap0 (mkLayout 256 128) =
    Done (Some 0x400000, mkHoleList (mkHoleInfo 0x300000 0) [mkHoleInfo 0x400100 3840]) /\
  0x400000 mod 128 = 0.
Proof.
  split; [by vm_compute|].
  pose proof (hole_allocate_correct heap0 (mkLayout 256 128) heap0_ok) as H.
  destruct H as [H _]; [by split; [|exists 7]| |exact H].
  intros h [->|[]%not_elem_of_nil]%elem_of_cons. unfold W64; simpl; unfold min_size. lia.
Defined.

(** C12. Freeing a block that is disjoint from the free memory adds exactly its
    bytes; the list stays sorted and no two holes touch, so adjacent free
    blocks are always merged. *)
Theorem hole_deallocate_correct hl ptr layout :
  holes_ok hl -> 0 < ptr -> min_size <= l_size layout -> ptr + l_size layout < W64 ->
  (forall x, block ptr (l_size layout) x -> ~ free hl x) ->
  exists hl', HoleList_deallocate hl ptr layout = Done hl' /\ holes_ok hl' /\
    (forall x, free hl' x <-> free hl x \/ block ptr (l_size layout) x).
Proof.
  intros Hok Hp Hm Hb Hd. destruct (dealloc_from_first_spec hl ptr (l_size layout)) as (hl' & E & H1 & _ & H2);
    try done. by exists hl'.
Qed.

Lemma hole_deallocate_correct_witness :
  let hl := mkHoleList (mkHoleInfo 0x300000 0) [mkHoleInfo 0x400100 3840] in
  HoleList_deallocate hl 0x400000 (mkLayout 256 128) = Done heap0 /\
  exists hl', HoleList_deallocate hl 0x400000 (mkLayout 256 128) = Done hl' /\ holes_ok hl'.
Proof.
  intros hl. split; [by vm_compute|].
  destruct (hole_deallocate_correct hl 0x400000 (mkLayout 256 128)) as (hl' & E & H & _).
  - repeat split; simpl; unfold min_size, W64; lia.
  - lia.
  - simpl; unfold min_size; lia.
  - unfold W64; simpl; lia.
  - intros x Hx [h [[->|[]%not_elem_of_nil]%elem_of_cons Hh]]. unfold block, in_hole in *; simpl in *. lia.
  - eauto.
Defined.

(** Allocating a block and freeing it again restores the list of holes
    itself, not only the free memory. *)
Theorem hole_allocate_deallocate hl layout p hl' :
  holes_ok hl -> layout_ok layout -> room (next_holes hl) layout ->
  HoleList_allocate_first_fit hl layout = Done (Some p, hl') ->
  HoleList_deallocate hl' p layout = Done hl.
Proof.
  intros Hok Hl Hr E. destruct (HoleList_allocate_spec hl layout Hok Hl Hr)
    as [(pre & h & post & hl2 & En & N & F & E' & Hok' & Hf & Hfree)|[E' N]];
    rewrite E in E'; simplify_eq.
  pose proof Hok as [H0 G]. pose proof G as G'. rewrite En in G'.
  destruct (gaps_elem _ _ h G') as (G1 & G2 & G3); [set_solver|].
  destruct (slot_spec h (l_align layout)) as (S1 & S2 & S3); [apply Hl|lia|].
  assert (Hin : forall x, block (slot h (l_align layout)) (l_size layout) x -> free hl x).
  { intros x Hx. unfold free. rewrite En, hole_free_app, hole_free_cons. right; left.
    unfold fits, min_size, block, in_hole in *. lia. }
  destruct (dealloc_from_first_spec hl2 (slot h (l_align layout)) (l_size layout))
    as (hl3 & E3 & [H3 G4] & Hf3 & Hfree3); [done|lia|apply Hl| | |].
  { unfold fits, min_size in *. lia. }
  { intros x Hx. rewrite Hfree. tauto. }
  unfold HoleList_deallocate. rewrite E3. f_equal. destruct hl3, hl; simpl in *. f_equal; [congruence|].
  eapply gaps_canonical; [done|done|]. intros x. specialize (Hfree3 x). specialize (Hfree x).
  specialize (Hin x). unfold free in *; simpl in *.
  assert (block (slot h (l_align layout)) (l_size layout) x \/ ~ block (slot h (l_align layout)) (l_size layout) x)
    by (unfold block; lia).
  tauto.
Qed.

Lemma hole_allocate_deallocate_witness :
  exists p hl', HoleList_allocate_first_fit heap0 (mkLayout 64 2048) = Done (Some p, hl') /\
    HoleList_deallocate hl' p (mkLayout 64 2048) = Done heap0.
Proof.
  eexists _, _. split; [vm_compute; reflexivity|].
  apply (hole_allocate_deallocate heap0 (mkLayout 64 2048) 0x400000); [apply heap0_ok|by split; [|exists 11]| |by vm_compute].
  intros h [->|[]%not_elem_of_nil]%elem_of_cons. unfold W64; simpl; unfold min_size. lia.
Defined.

(** Freeing a block whose first byte is already free panics (the assertion
    against a double free). *)
Theorem hole_double_free_panics hl ptr layout :
  holes_ok hl -> 0 <= ptr -> min_size <= l_size layout -> free hl ptr ->
  HoleList_deallocate hl ptr layout = Panic.
Proof.
  intros [H0 G] Hp Hm Hf. unfold HoleList_deallocate, dealloc_from_first.
  assert (E0 : hole_end (first hl) = 0 /\ hole_addr (first hl) = 0) by in_holes.
  rewrite (deallocate_panics (first hl)); try done; try lia.
  by rewrite (proj1 E0).
Qed.

Lemma hole_double_free_panics_witness :
  HoleList_deallocate heap0 0x400040 (mkLayout 64 8) = Panic.
Proof.
  apply hole_double_free_panics; [apply heap0_ok|lia|done|].
  exists (mkHoleInfo 0x400000 4096). split; [set_solver|unfold in_hole; simpl; lia].
Defined.
