(* ===== verification/Heap.v ===== *)
(** * The kernel heap: src/mm/allocator.rs

    Until [init] is called ([bottom = 0]) requests are served from the fixed
    [first_block] by a bump allocator; afterwards by the list of holes. *)

From stdpp Require Import base numbers list sets relations.
From Stdlib Require Import ZArith Lia.
From S2P Require Import Prelude Hole.

#[local] Open Scope Z_scope.

Definition BOOTSTRAP_HEAP_SIZE : Z := 4096.

(** [mem::align_of::<Hole>()]: the alignment of its [usize] fields. *)
Definition align_of_Hole : Z := 8.

(** [here] is the address of the [Heap] value, where [first_block] begins
    (the bytes of [first_block] are never read). *)
Record Heap := mkHeap {
  here : Z;
  index : Z;
  bottom : Z;
  size : Z;
  holes : HoleList
}.

Definition set_index (i : Z) (h : Heap) : Heap := mkHeap (here h) i (bottom h) (size h) (holes h).
Definition set_holes (l : HoleList) (h : Heap) : Heap := mkHeap (here h) (index h) (bottom h) (size h) l.
Definition set_size (s : Z) (h : Heap) : Heap := mkHeap (here h) (index h) (bottom h) s (holes h).

Definition Heap_empty (here : Z) : Heap := mkHeap here 0 0 0 (HoleList_empty here).

Definition Heap_new (here heap_bottom heap_size : Z) : Heap :=
  mkHeap here 0 heap_bottom heap_size (HoleList_new here heap_bottom heap_size).

Definition Heap_init (heap_bottom heap_size : Z) : M Heap unit :=
  modify (fun h => mkHeap (here h) (index h) heap_bottom heap_size
                     (HoleList_new (here h) heap_bottom heap_size)).

Inductive AllocErr := mkAllocErr.

Definition top (h : Heap) : outcome Z := add64 (bottom h) (size h).

(** Operations on the list of holes inside the heap. *)
Definition on_holes {A} (f : HoleList -> outcome (A * HoleList)) : M Heap A :=
  fun h => let? (a, l) := f (holes h) in Done (a, set_holes l h).

Definition alloc_bootstrap (layout : Layout) : M Heap (result Z AllocErr) :=
  let! i := gets index in
  massert (i <? BOOTSTRAP_HEAP_SIZE) ;;;
  let! ptr := gets (fun h => here h + i) in
  let! sz := lift (align_up (l_size layout) min_size) in
  let! bumped := lift (add64 i sz) in
  let! next := lift (align_up bumped min_size) in
  modify (set_index next) ;;;
  if BOOTSTRAP_HEAP_SIZE <=? next then ret (Err mkAllocErr)
  else massert (negb (ptr =? 0)) ;;; ret (Ok ptr).

(** The layout the list of holes is asked for. *)
Definition hole_layout (layout : Layout) : outcome Layout :=
  let sz := if l_size layout <? min_size then min_size else l_size layout in
  let? sz := align_up sz align_of_Hole in
  unwrap (from_size_align sz (l_align layout)).

Definition heap_allocate_first_fit (layout : Layout) : M Heap (result Z AllocErr) :=
  let! b := gets bottom in
  if b =? 0 then alloc_bootstrap layout
  else
    let! layout := lift (hole_layout layout) in
    let! r := on_holes (fun l => HoleList_allocate_first_fit l layout) in
    match r with
    | Some p => ret (Ok p)
    | None => ret (Err mkAllocErr)
    end.

Section dealloc.

(** [kernel_end_address()] *)
Context (kernel_end_address : Z).

Definition heap_deallocate (ptr : Z) (layout : Layout) : M Heap unit :=
  if kernel_end_address <=? ptr then
    let! layout := lift (hole_layout layout) in
    on_holes (fun l => let? l' := HoleList_deallocate l ptr layout in Done (tt, l'))
  else ret tt.

(** [GlobalAlloc for LockedHeap], with the lock held: failure is the null pointer. *)
Definition global_alloc (layout : Layout) : M Heap Z :=
  let! r := heap_allocate_first_fit layout in
  match r with
  | Ok p => ret p
  | Err _ => ret 0
  end.

Definition global_dealloc (ptr : Z) (layout : Layout) : M Heap unit := heap_deallocate ptr layout.

End dealloc.

Definition extend (by_ : Z) : M Heap unit :=
  let! h := gets id in
  let! t := lift (top h) in
  let! layout := lift (unwrap (from_size_align by_ 1)) in
  on_holes (fun l => let? l' := HoleList_deallocate l t layout in Done (tt, l')) ;;;
  let! s := lift (add64 (size h) by_) in
  modify (set_size s).

(** ** The layout requested from the list of holes *)

(** A layout as the compiler passes it: [Layout] values come from
    [from_size_align]. *)
Definition valid_layout (layout : Layout) : Prop :=
  0 <= l_size layout /\ pow2 (l_align layout) /\ l_size layout + l_align layout + 2 * min_size <= W64.

Definition rounded (s : Z) : Z := align_up_val (Z.max s min_size) align_of_Hole.

Lemma pow2_8 : pow2 8.
Proof. by exists 3. Qed.

Lemma rounded_spec s :
  0 <= s -> s <= rounded s /\ min_size <= rounded s < Z.max s min_size + 8 /\ (8 | rounded s).
Proof.
  intros Hs. unfold rounded, align_of_Hole.
  destruct (align_up_val_spec (Z.max s min_size) 8) as [E1 E2]; [lia|].
  apply Z.mod_divide in E2; [|lia]. split_and!; try done; lia.
Qed.

Lemma from_size_align_some s a :
  pow2 a -> s <= W64 - 1 - (a - 1) -> from_size_align s a = Some (mkLayout s a).
Proof.
  intros Hp Hs. pose proof (pow2_pos a Hp). destruct Hp as (k & Hk & ->). unfold from_size_align.
  rewrite Z.log2_pow2, Z.eqb_refl by lia.
  rewrite (proj2 (Z.ltb_lt _ _)), (proj2 (Z.leb_le _ _)) by lia. done.
Qed.

Lemma hole_layout_done layout :
  valid_layout layout -> hole_layout layout = Done (mkLayout (rounded (l_size layout)) (l_align layout)).
Proof.
  intros (Hs & Hp & Hb). pose proof (rounded_spec _ Hs) as (R1 & R2 & _). pose proof (pow2_pos _ Hp).
  unfold hole_layout, rounded, min_size in *.
  replace (if l_size layout <? 64 then 64 else l_size layout) with (Z.max (l_size layout) 64)
    by (destruct (Z.ltb_spec (l_size layout) 64); lia).
  assert (Hb8 : Z.max (l_size layout) 64 + 7 < W64) by lia.
  rewrite align_up_done; [|lia|apply pow2_8|done]. cbn [obind].
  rewrite from_size_align_some; [done|done|].
  unfold align_of_Hole in *. lia.
Qed.

(** ** The invariant of the heap *)

(** [x] is the first byte of a free area or the first byte behind one. *)
Definition boundary (P : Z -> Prop) (x : Z) : Prop := P x /\ ~ P (x - 1) \/ ~ P x /\ P (x - 1).

(** The heap after [init]: the holes lie inside it and each of them begins and
    ends at a multiple of the alignment of [Hole], so that a hole can be written
    there. *)
Record heap_ok (h : Heap) : Prop := {
  ho_bottom : 0 < bottom h;
  ho_holes : holes_ok (holes h);
  ho_inside : forall x, free (holes h) x -> bottom h <= x < bottom h + size h;
  ho_aligned : forall x, boundary (free (holes h)) x -> (align_of_Hole | x)
}.

Definition heap_room (h : Heap) (layout : Layout) : Prop :=
  bottom h + size h + l_align layout + l_size layout + 3 * min_size <= W64.

Lemma hole_boundary hl h :
  holes_ok hl -> h ∈ next_holes hl ->
  boundary (free hl) (hi_addr h) /\ boundary (free hl) (hi_addr h + hi_size h).
Proof.
  intros [H0 G] [pre [post E]]%list_elem_of_split. rewrite E in G.
  unfold boundary, free. rewrite E. clear E H0. revert G. generalize 0 as e.
  induction pre as [|h1 pre IH]; simpl; intros e (G1 & G2 & G3); rewrite !hole_free_cons.
  - unfold in_hole, min_size in *.
    split; [left; split; [left; lia|]|right; split; [|left; lia]];
      intros [F|F%(gaps_free_above _ _ _ G3)]; lia.
  - destruct (IH _ G3) as [I1 I2]. clear IH.
    destruct (gaps_elem _ _ h G3) as (E1 & E2 & E3); [set_solver|].
    unfold in_hole, min_size in *. split; [destruct I1 as [[]|[]]|destruct I2 as [[]|[]]];
      solve [left; split; intuition lia|right; split; intuition lia].
Qed.

Lemma boundary_block (P Q : Z -> Prop) p n x :
  (forall y, Decision (P y)) ->
  (forall y, Q y <-> P y /\ ~ block p n y) \/ (forall y, Q y <-> P y \/ block p n y) ->
  boundary Q x -> boundary P x \/ x = p \/ x = p + n.
Proof.
  intros D HQ. unfold boundary. destruct HQ as [HQ|HQ]; rewrite !HQ; unfold block;
    destruct (D x), (D (x - 1)); intros Hb;
    (destruct (decide (x = p)); [auto|]); (destruct (decide (x = p + n)); [auto|]); left;
    intuition lia.
Qed.

#[local] Instance free_dec hl x : Decision (free hl x).
Proof. unfold free. apply _. Defined.

Lemma slot_aligned h align :
  pow2 align -> 0 < hi_addr h -> (align_of_Hole | hi_addr h) -> (align_of_Hole | slot h align).
Proof.
  unfold align_of_Hole. intros Hp Ha Hd. destruct (slot_spec h align Hp Ha) as (S1 & _ & _).
  unfold slot in *. destruct (Z.eqb_spec (hi_addr h mod align) 0) as [E|E]; [done|].
  destruct Hp as (k & Hk & ->). destruct (Z.lt_ge_cases k 3) as [L|L].
  - exfalso. apply E. destruct Hd as [q ->].
    apply Z.mod_divide; [pose proof (Z.pow_pos_nonneg 2 k); lia|].
    exists (q * 2 ^ (3 - k)). rewrite <- Z.mul_assoc, <- Z.pow_add_r by lia.
    by replace (3 - k + k) with 3 by lia.
  - apply Z.mod_divide in S1; [|pose proof (Z.pow_pos_nonneg 2 k); lia].
    eapply Z.divide_trans; [|exact S1]. exists (2 ^ (k - 3)).
    change 8 with (2 ^ 3). rewrite <- Z.pow_add_r by lia. f_equal. lia.
Qed.

Lemma heap_room_holes h layout :
  heap_ok h -> valid_layout layout -> heap_room h layout ->
  room (next_holes (holes h)) (mkLayout (rounded (l_size layout)) (l_align layout)).
Proof.
  intros [H1 [H20 H2] H3 _] (V1 & V2 & V3) Hr h' Hh. simpl. unfold heap_room in Hr.
  destruct (gaps_elem _ _ _ H2 Hh) as (G1 & G2 & G3).
  pose proof (rounded_spec _ V1) as (R1 & R2 & _).
  destruct (H3 (hi_addr h' + hi_size h' - 1)) as [_ Hle].
  { exists h'. split; [done|]. unfold in_hole, min_size in *. lia. }
  unfold min_size in *. lia.
Qed.

(** What [heap_allocate_first_fit] does on an initialised heap. *)
Lemma heap_allocate_spec h layout :
  heap_ok h -> valid_layout layout -> heap_room h layout ->
  let s := rounded (l_size layout) in
  (exists p l', heap_allocate_first_fit layout h = Done (Ok p, set_holes l' h) /\
     HoleList_allocate_first_fit (holes h) (mkLayout s (l_align layout)) = Done (Some p, l') /\
     p mod l_align layout = 0 /\ (align_of_Hole | p) /\ holes_ok l' /\
     (forall x, block p s x -> free (holes h) x) /\
     (forall x, free l' x <-> free (holes h) x /\ ~ block p s x)) \/
  heap_allocate_first_fit layout h = Done (Err mkAllocErr, h).
Proof.
  intros Hok Hv Hr s. pose proof (heap_room_holes h layout Hok Hv Hr) as Hroom.
  destruct Hok as [H1 H2 H3 H4]. pose proof Hv as (V1 & V2 & V3).
  pose proof (rounded_spec _ V1) as (R1 & R2 & R3). fold s in R1, R2, R3, Hroom.
  unfold heap_allocate_first_fit. rewrite bind_gets. destruct (Z.eqb_spec (bottom h) 0); [lia|].
  rewrite (bind_lift_done _ _ _ _ (hole_layout_done layout Hv)). fold s.
  destruct (HoleList_allocate_spec (holes h) (mkLayout s (l_align layout)) H2)
    as [(pre & h0 & post & l' & E & N & F & EA & Hok' & Hf & Hfree)|[EA N]];
    [split; [apply R2|done]|done| |].
  - left. exists (slot h0 (l_align layout)), l'. simpl in *.
    destruct (gaps_elem _ _ h0 (proj2 H2)) as (G1 & G2 & G3); [rewrite E; set_solver|].
    destruct (slot_spec h0 (l_align layout) V2 G1) as (S1 & S2 & S3).
    split_and!; try done.
    + unfold bind, on_holes. by rewrite EA.
    + apply slot_aligned; try done. apply H4. apply hole_boundary; [done|rewrite E; set_solver].
    + intros x Hx. unfold free. rewrite E, hole_free_app, hole_free_cons. right; left.
      unfold fits, min_size, block, in_hole in *; simpl in *. lia.
  - right. unfold bind, on_holes. rewrite EA. simpl. by destruct h.
Qed.

Lemma heap_ok_update h l' p n :
  heap_ok h -> holes_ok l' -> (align_of_Hole | p) -> (align_of_Hole | n) ->
  (forall y, free l' y <-> free (holes h) y /\ ~ block p n y) -> heap_ok (set_holes l' h).
Proof.
  intros [H1 H2 H3 H4] Hok Hp Hn Hf. split; simpl; [done|done| |].
  - intros x [Hx _]%Hf. auto.
  - intros x Hx. destruct (boundary_block _ _ p n x (free_dec (holes h)) (or_introl Hf) Hx) as [?|[->| ->]];
      auto using Z.divide_add_r.
Qed.

(** ** Clients of the heap: sequences of allocations and deallocations *)

Section clients.

Context (kernel_end_address : Z).

(** A block a client holds: its address and the layout it asked for. *)
Abbreviation live_block := (Z * Layout)%type.

(** The bytes the heap gave away for it. *)
Definition owns (b : live_block) (x : Z) : Prop := block b.1 (rounded (l_size b.2)) x.
Definition owned (live : list live_block) (x : Z) : Prop := exists b, b ∈ live /\ owns b x.

Fixpoint disjoint_blocks (live : list live_block) : Prop :=
  match live with
  | [] => True
  | b :: tl => (forall x, owns b x -> ~ owned tl x) /\ disjoint_blocks tl
  end.

(** A client allocates, is refused, or gives one of its blocks back with the
    layout it was allocated with. *)
Inductive heap_step : Heap * list live_block -> Heap * list live_block -> Prop :=
  | heap_step_alloc h live layout p h' :
      valid_layout layout -> heap_room h layout ->
      heap_allocate_first_fit layout h = Done (Ok p, h') ->
      heap_step (h, live) (h', (p, layout) :: live)
  | heap_step_refused h live layout e h' :
      valid_layout layout -> heap_room h layout ->
      heap_allocate_first_fit layout h = Done (Err e, h') ->
      heap_step (h, live) (h', live)
  | heap_step_free h live p layout live' h' :
      live ≡ₚ (p, layout) :: live' ->
      heap_deallocate kernel_end_address p layout h = Done (tt, h') ->
      heap_step (h, live) (h', live').

Record client_ok (b0 s0 : Z) (st : Heap * list live_block) : Prop := {
  co_heap : heap_ok st.1;
  co_range : bottom st.1 = b0 /\ size st.1 = s0;
  co_disjoint : disjoint_blocks st.2;
  co_live : forall b, b ∈ st.2 -> valid_layout b.2 /\ (align_of_Hole | b.1) /\ b.1 mod l_align b.2 = 0;
  co_apart : forall x, owned st.2 x -> ~ free (holes st.1) x;
  co_all : forall x, free (holes st.1) x \/ owned st.2 x <-> b0 <= x < b0 + s0
}.

Lemma owned_cons b live x : owned (b :: live) x <-> owns b x \/ owned live x.
Proof.
  unfold owned. split.
  - intros (b' & [->|H]%elem_of_cons & Hx); eauto.
  - intros [?|(b' & ? & ?)]; eexists; (split; [|eassumption]); set_solver.
Qed.

#[local] Instance owned_proper : Proper ((≡ₚ) ==> eq ==> iff) owned.
Proof. intros l1 l2 E x ? <-. unfold owned. by setoid_rewrite E. Qed.

#[local] Instance disjoint_blocks_proper : Proper ((≡ₚ) ==> iff) disjoint_blocks.
Proof.
  intros l1 l2 E. induction E as [|b l1 l2 E IH|b1 b2 l|l1 l2 l3 _ IH1 _ IH2]; simpl.
  - done.
  - rewrite IH. by setoid_rewrite E.
  - setoid_rewrite owned_cons. naive_solver.
  - by rewrite IH1.
Qed.

Lemma client_new here b0 s0 :
  0 < b0 -> (align_of_Hole | b0) -> (align_of_Hole | s0) -> min_size <= s0 -> b0 + s0 < W64 ->
  client_ok b0 s0 (Heap_new here b0 s0, []).
Proof.
  intros Hb Hd1 Hd2 Hs Hw.
  assert (Hf : forall x, free (HoleList_new here b0 s0) x <-> b0 <= x < b0 + s0).
  { intros x. unfold free; simpl. rewrite hole_free_cons, hole_free_nil. unfold in_hole; simpl. tauto. }
  split; simpl; [split; simpl| | | | |].
  - done.
  - split; [done|]. simpl. unfold min_size in *. lia.
  - intros x Hx. by apply Hf.
  - intros x. unfold boundary. rewrite !Hf. intros Hx.
    assert (x = b0 \/ x = b0 + s0) as [->| ->] by lia; auto using Z.divide_add_r.
  - done.
  - done.
  - by intros b ?%elem_of_nil.
  - by intros x (b & ?%elem_of_nil & _).
  - intros x. rewrite Hf. split; [|auto]. intros [?|(b & ?%elem_of_nil & _)]; done.
Qed.

Lemma client_deallocate b0 s0 h live p layout live' :
  client_ok b0 s0 (h, live) -> live ≡ₚ (p, layout) :: live' ->
  kernel_end_address <= b0 -> b0 + s0 < W64 ->
  exists h', heap_deallocate kernel_end_address p layout h = Done (tt, h') /\
    client_ok b0 s0 (h', live').
Proof.
  intros [C1 [C2 C2'] C3 C4 C5 C6] E Hk Hw; simpl in *.
  destruct (C4 (p, layout)) as (Hv & Hp & Hm); [rewrite E; set_solver|]; simpl in *.
  rewrite E in C3. destruct C3 as [D1 D2].
  pose proof Hv as (V1 & V2 & V3). pose proof (rounded_spec _ V1) as (R1 & R2 & R3).
  assert (Hin : forall x, block p (rounded (l_size layout)) x -> b0 <= x < b0 + s0 /\ ~ free (holes h) x).
  { intros x Hx. assert (owned live x) by (rewrite E, owned_cons; by left).
    split; [apply C6; auto|by apply C5]. }
  pose proof (Hin p) as I1. pose proof (Hin (p + rounded (l_size layout) - 1)) as I2.
  unfold block, min_size in I1, I2, R2. destruct C1 as [H1 H2 H3 H4].
  unfold heap_deallocate. destruct (Z.leb_spec kernel_end_address p); [|lia].
  rewrite (bind_lift_done _ _ _ _ (hole_layout_done layout Hv)).
  destruct (dealloc_from_first_spec (holes h) p (rounded (l_size layout)))
    as (l' & El & Hok & Hf & Hfree); try done; [lia|unfold min_size; lia|lia| |].
  { intros x Hx. by apply Hin. }
  exists (set_holes l' h). split; [unfold on_holes, HoleList_deallocate; simpl; by rewrite El|].
  assert (Hn : forall x, owned live' x -> ~ block p (rounded (l_size layout)) x)
    by (intros x Hx Hb; by eapply D1).
  split; simpl; try done; [split; simpl; try done| | |].
  - intros x [Hx|Hx]%Hfree; [auto|]. rewrite C2, C2'. by apply Hin.
  - intros x Hx. destruct (boundary_block _ _ p (rounded (l_size layout)) x
                              (free_dec (holes h)) (or_intror Hfree) Hx) as [?|[->| ->]];
      auto using Z.divide_add_r.
  - intros b Hb. apply C4. rewrite E. set_solver.
  - intros x Hx. rewrite Hfree. intros [Hx'|Hx']; [|by eapply Hn].
    apply (C5 x); [rewrite E, owned_cons; by right|done].
  - intros x. rewrite Hfree, <- C6, E, owned_cons. unfold owns; simpl. tauto.
Qed.

Lemma client_step b0 s0 st st' :
  kernel_end_address <= b0 -> b0 + s0 < W64 ->
  client_ok b0 s0 st -> heap_step st st' -> client_ok b0 s0 st'.
Proof.
  intros Hk Hw Hc Hs. destruct Hs as [h live layout p h' Hv Hr E|h live layout e h' Hv Hr E|h live p layout live' h' Hp E].
  - pose proof Hc as [C1 [C2 C2'] C3 C4 C5 C6]; simpl in *.
    destruct (heap_allocate_spec h layout C1 Hv Hr) as [(q & l' & E1 & _ & A1 & A2 & A3 & A4 & A5)|E1];
      cbv zeta in *; rewrite E1 in E; simplify_eq.
    pose proof (rounded_spec _ (proj1 Hv)) as (R1 & R2 & R3).
    assert (Hn : forall x, block p (rounded (l_size layout)) x -> ~ owned live x)
      by (intros x Hx Ho; by apply (C5 x), A4).
    split; simpl; try done.
    + by apply (heap_ok_update h l' p (rounded (l_size layout))).
    + intros b [->|Hb]%elem_of_cons; [done|auto].
    + intros x [Hx|Hx]%owned_cons; rewrite A5; [|naive_solver]. intros [_ []]. done.
    + intros x. rewrite A5, owned_cons, <- C6. unfold owns; simpl. specialize (A4 x).
      assert (block p (rounded (l_size layout)) x \/ ~ block p (rounded (l_size layout)) x) by (unfold block; lia).
      tauto.
  - destruct (heap_allocate_spec h layout (co_heap _ _ _ Hc) Hv Hr) as [(q & l' & E1 & _)|E1];
      cbv zeta in *; rewrite E1 in E; simplify_eq. done.
  - destruct (client_deallocate _ _ _ _ _ _ _ Hc Hp Hk Hw) as (h2 & E2 & Hc2).
    rewrite E2 in E. simplify_eq. done.
Qed.

End clients.

(** ** The bootstrap allocator *)

(** The distance the bump index moves for a request of [s] bytes. *)
Definition bump (s : Z) : Z := align_up_val s min_size.

Definition bootstrap_ok (h : Heap) : Prop :=
  bottom h = 0 /\ 0 < here h /\ 0 <= index h /\ (min_size | index h).

Definition small (layout : Layout) : Prop := 0 <= l_size layout < 2 ^ 63.

Lemma pow2_64 : pow2 64.
Proof. by exists 6. Qed.

Lemma bump_spec s : 0 <= s -> s <= bump s < s + min_size /\ (min_size | bump s).
Proof.
  intros Hs. destruct (align_up_val_spec s min_size) as [E1 E2]; [done|].
  apply Z.mod_divide in E2; done.
Qed.

Lemma alloc_bootstrap_spec h layout :
  bootstrap_ok h -> small layout -> index h < BOOTSTRAP_HEAP_SIZE ->
  let next := index h + bump (l_size layout) in
  alloc_bootstrap layout h =
    Done (if BOOTSTRAP_HEAP_SIZE <=? next then Err mkAllocErr else Ok (here h + index h), set_index next h) /\
  bootstrap_ok (set_index next h).
Proof.
  intros (Hb & Hh & Hi & Hd) [Hs1 Hs2] Hlt next.
  destruct (bump_spec _ Hs1) as [B1 B2]. unfold alloc_bootstrap, BOOTSTRAP_HEAP_SIZE, min_size in *.
  assert (HW : 2 ^ 63 + 5000 < W64) by done.
  assert (HB : (64 | next)) by (by apply Z.divide_add_r).
  assert (HI : align_up_val next 64 = next).
  { apply align_up_val_id; [done|]. by apply Z.mod_divide. }
  split; [|unfold bootstrap_ok; simpl; split_and!; try done; lia].
  rewrite bind_gets, bind_massert by (apply Z.ltb_lt; lia). rewrite bind_gets.
  rewrite (bind_lift_done _ _ _ _ (align_up_done (l_size layout) 64 Hs1 pow2_64 ltac:(lia))).
  unfold bump, min_size in *.
  rewrite (bind_lift_done _ _ next) by (apply add64_done; lia).
  rewrite (bind_lift_done _ _ next);
    [|rewrite align_up_done; [by rewrite HI|lia|apply pow2_64|lia]].
  rewrite bind_modify. destruct (4096 <=? next); [done|].
  rewrite bind_massert; [done|]. destruct (Z.eqb_spec (here h + index h) 0); [lia|done].
Qed.

(** The index is checked against the array before the size is looked at. *)
Lemma bootstrap_exhausted h layout :
  bottom h = 0 -> BOOTSTRAP_HEAP_SIZE <= index h -> heap_allocate_first_fit layout h = Panic.
Proof.
  intros Hb Hi. unfold heap_allocate_first_fit. rewrite bind_gets, Hb. simpl.
  unfold alloc_bootstrap. rewrite bind_gets. unfold bind, massert, lift.
  by rewrite (proj2 (Z.ltb_ge _ _)) by lia.
Qed.

(** A request in the bootstrap phase, followed by further ones. *)
Fixpoint bootstrap_requests (layouts : list Layout) : M Heap (list (Z * Layout)) :=
  match layouts with
  | [] => ret []
  | layout :: tl =>
      let! r := heap_allocate_first_fit layout in
      let! blocks := bootstrap_requests tl in
      match r with
      | Ok p => ret ((p, layout) :: blocks)
      | Err _ => ret blocks
      end
  end.

Definition in_block (b : Z * Layout) (x : Z) : Prop := block b.1 (l_size b.2) x.

(** Blocks laid out one behind the other between two addresses, at multiples of
    64 from [from]. *)
Fixpoint laid_out (from to : Z) (blocks : list (Z * Layout)) : Prop :=
  match blocks with
  | [] => from <= to
  | b :: tl => b.1 = from /\ exists n, (min_size | n) /\ l_size b.2 <= n /\ laid_out (from + n) to tl
  end.

Lemma laid_out_le from to blocks :
  (forall b, b ∈ blocks -> 0 <= l_size b.2) -> laid_out from to blocks -> from <= to.
Proof.
  revert from. induction blocks as [|b tl IH]; simpl; intros from Hs; [done|].
  intros (_ & n & _ & Hn & H%IH); [|set_solver]. specialize (Hs b ltac:(set_solver)). lia.
Qed.

Lemma bootstrap_requests_spec layouts h blocks h' :
  bootstrap_ok h -> Forall small layouts ->
  bootstrap_requests layouts h = Done (blocks, h') ->
  bootstrap_ok h' /\ here h' = here h /\
  (index h < BOOTSTRAP_HEAP_SIZE -> laid_out (here h + index h) (here h + BOOTSTRAP_HEAP_SIZE) blocks) /\
  (forall b, b ∈ blocks -> b.2 ∈ layouts).
Proof.
  revert h blocks h'. induction layouts as [|layout tl IH]; intros h blocks h' Hok Hs E; simpl in E.
  - unfold ret in E. simplify_eq. split_and!; try done; simpl; [lia|set_solver].
  - apply Forall_cons in Hs as [Hs Htl]. pose proof Hok as (Hb & Hh & Hi & Hd).
    destruct (Z.lt_ge_cases (index h) BOOTSTRAP_HEAP_SIZE) as [L|L];
      [|unfold bind in E; by rewrite bootstrap_exhausted in E].
    destruct (alloc_bootstrap_spec h layout Hok Hs L) as [EA Hok2]; cbv zeta in *.
    remember (set_index (index h + bump (l_size layout)) h) as h1 eqn:E1.
    assert (Eh1 : here h1 = here h /\ bottom h1 = bottom h /\ index h1 = index h + bump (l_size layout)) by (by subst h1).
    destruct Eh1 as (Ea & Eb & Ei). clear E1.
    rewrite (bind_done _ _ _ _ h1) in E
      by (unfold heap_allocate_first_fit; rewrite bind_gets, Hb; exact EA).
    destruct (bootstrap_requests tl h1) as [[bs h2]| |] eqn:E2;
      [|by unfold bind in E; rewrite E2 in E|by unfold bind in E; rewrite E2 in E].
    rewrite (bind_done _ _ _ _ _ E2) in E. destruct (IH _ _ _ Hok2 Htl E2) as (I1 & I2 & I3 & I4).
    destruct (bump_spec (l_size layout)) as [B1 B2]; [apply Hs|]. simpl in *.
    rewrite Ea, Ei in I3. rewrite Ea in I2.
    destruct (Z.leb_spec BOOTSTRAP_HEAP_SIZE (index h + bump (l_size layout))) as [Lb|Lb];
      injection E as <- <-; (split; [done|]); (split; [done|]); split.
    + intros _. assert (bs = []) as ->; [|simpl; lia].
      destruct tl as [|l2 tl]; simpl in E2; [by injection E2 as <- <-|].
      unfold bind in E2. by rewrite bootstrap_exhausted in E2 by (try lia; congruence).
    + intros b Hin%I4. by apply elem_of_cons; right.
    + intros _. simpl. split; [done|]. exists (bump (l_size layout)). split_and!; [done|lia|].
      rewrite <- Z.add_assoc. apply I3. lia.
    + intros b [->|Hin%I4]%elem_of_cons; apply elem_of_cons; [by left|by right].
Qed.

(** ** The properties of the heap *)

(** C15. Whatever sequence of allocations, refusals and deallocations the
    clients of an initialised heap perform: the blocks they hold are disjoint,
    aligned as requested, inside the heap and not free; every byte of the heap is
    either free or held; and giving any held block back succeeds. *)
Theorem heap_clients_safe (kernel_end here b0 s0 : Z) st :
  0 < b0 -> (align_of_Hole | b0) -> (align_of_Hole | s0) -> min_size <= s0 -> b0 + s0 < W64 ->
  kernel_end <= b0 ->
  rtc (heap_step kernel_end) (Heap_new here b0 s0, []) st ->
  disjoint_blocks st.2 /\
  (forall b, b ∈ st.2 -> b.1 mod l_align b.2 = 0 /\
     exists h', heap_deallocate kernel_end b.1 b.2 st.1 = Done (tt, h')) /\
  (forall x, owned st.2 x -> ~ free (holes st.1) x) /\
  (forall x, free (holes st.1) x \/ owned st.2 x <-> b0 <= x < b0 + s0).
Proof.
  intros Hb Hd1 Hd2 Hs Hw Hk Hr.
  assert (client_ok b0 s0 st) as Hc.
  { pose proof (client_new here b0 s0 Hb Hd1 Hd2 Hs Hw) as H0. revert H0.
    induction Hr as [|st1 st2 st3 S _ IH]; [done|]. intros H1. by eapply IH, client_step. }
  destruct st as [h live]. pose proof Hc as [C1 C2 C3 C4 C5 C6]; simpl in *.
  split_and!; try done. intros [p layout] Hin. split; [by apply C4|].
  apply elem_of_Permutation in Hin as [live' E].
  destruct (client_deallocate _ _ _ _ _ _ _ _ Hc E Hk Hw) as (h' & E' & _). by exists h'.
Qed.

Definition sample_heap : Heap := Heap_new 0x1000 0x400000 0x1000.

Lemma heap_clients_safe_witness :
  exists h', rtc (heap_step 0x200000) (sample_heap, []) (h', [(0x400000, mkLayout 100 8)]) /\
    disjoint_blocks [(0x400000, mkLayout 100 8)] /\
    (forall x, free (holes h') x \/ owned [(0x400000, mkLayout 100 8)] x <-> 0x400000 <= x < 0x400000 + 0x1000).
Proof.
  destruct (heap_allocate_first_fit (mkLayout 100 8) sample_heap) as [[[p|e] h']| |] eqn:E;
    [|vm_compute in E; discriminate|vm_compute in E; discriminate|vm_compute in E; discriminate].
  assert (p = 0x400000) as -> by (vm_compute in E; congruence).
  assert (Hr : rtc (heap_step 0x200000) (sample_heap, []) (h', [(0x400000, mkLayout 100 8)])).
  { eapply rtc_once, heap_step_alloc; [|done|exact E]. split_and!; simpl; [lia|by exists 3|done]. }
  exists h'. split; [exact Hr|].
  destruct (heap_clients_safe 0x200000 0x1000 0x400000 0x1000 (h', [(0x400000, mkLayout 100 8)]))
    as (H1 & _ & _ & H4); try done.
  - by exists 0x80000.
  - by exists 0x200.
Defined.

(** In the bootstrap phase the blocks handed out by any sequence of
    requests lie one behind the other in [first_block], at multiples of 64 from
    its start, each as large as requested. *)
Theorem bootstrap_correct here layouts blocks h' :
  0 < here -> Forall small layouts ->
  bootstrap_requests layouts (Heap_empty here) = Done (blocks, h') ->
  laid_out here (here + BOOTSTRAP_HEAP_SIZE) blocks /\ (forall b, b ∈ blocks -> b.2 ∈ layouts).
Proof.
  intros Hh Hs E. destruct (bootstrap_requests_spec layouts (Heap_empty here) blocks h') as (_ & _ & H1 & H2);
    try done.
  - split_and!; try done. by exists 0.
  - simpl in H1. rewrite Z.add_0_r in H1. by split; [apply H1|].
Qed.

Lemma bootstrap_correct_witness :
  laid_out 0x1000 0x2000 [(0x1000, mkLayout 100 8); (0x1080, mkLayout 3000 8)].
Proof.
  destruct (bootstrap_requests [mkLayout 100 8; mkLayout 3000 8] (Heap_empty 0x1000)) as [[bs h']| |] eqn:E;
    [|vm_compute in E; discriminate|vm_compute in E; discriminate].
  destruct (bootstrap_correct 0x1000 [mkLayout 100 8; mkLayout 3000 8] bs h' ltac:(done)
              ltac:(by repeat constructor) E) as [H _].
  vm_compute in E. injection E as <- _. exact H.
Defined.

(** A request the bootstrap heap refuses ends the bootstrap phase: any
    later request before [init], however small, panics. *)
Theorem bootstrap_refusal_is_final h layout e h' layout' :
  bootstrap_ok h -> small layout -> heap_allocate_first_fit layout h = Done (Err e, h') ->
  heap_allocate_first_fit layout' h' = Panic.
Proof.
  intros Hok Hs E. pose proof Hok as (Hb & _).
  destruct (Z.lt_ge_cases (index h) BOOTSTRAP_HEAP_SIZE) as [L|L];
    [|by rewrite bootstrap_exhausted in E].
  unfold heap_allocate_first_fit in E. rewrite bind_gets, Hb in E. simpl in E.
  destruct (alloc_bootstrap_spec h layout Hok Hs L) as [EA _]. rewrite EA in E.
  destruct (Z.leb_spec BOOTSTRAP_HEAP_SIZE (index h + bump (l_size layout))); [|discriminate].
  simplify_eq. by apply bootstrap_exhausted.
Qed.

Lemma bootstrap_refusal_is_final_witness :
  exists h', heap_allocate_first_fit (mkLayout 4096 8) (Heap_empty 0x1000) = Done (Err mkAllocErr, h') /\
    heap_allocate_first_fit (mkLayout 8 8) h' = Panic.
Proof.
  eexists. split; [vm_compute; reflexivity|].
  apply (bootstrap_refusal_is_final (Heap_empty 0x1000) (mkLayout 4096 8) mkAllocErr);
    [split_and!; try done; by exists 0|done|by vm_compute].
Defined.
