(* ===== verification/Pte.v ===== *)
(** * Page table entries and page sizes: src/arch/x86_64/mm/paging.rs

    A page table entry is a 64-bit word: the frame address, the flags and, in
    bits 59 to 62, the memory protection key. *)

From stdpp Require Import base numbers list.
From Stdlib Require Import ZArith Lia.
From S2P Require Import Prelude.

#[local] Open Scope Z_scope.

(** ** Flags: [PageTableEntryFlags], a set of bits *)

Definition PRESENT : Z := Z.shiftl 1 0.
Definition WRITABLE : Z := Z.shiftl 1 1.
Definition USER_ACCESSIBLE : Z := Z.shiftl 1 2.
Definition WRITE_THROUGH : Z := Z.shiftl 1 3.
Definition CACHE_DISABLE : Z := Z.shiftl 1 4.
Definition ACCESSED : Z := Z.shiftl 1 5.
Definition DIRTY : Z := Z.shiftl 1 6.
Definition HUGE_PAGE : Z := Z.shiftl 1 7.
Definition GLOBAL : Z := Z.shiftl 1 8.
Definition EXECUTE_DISABLE : Z := Z.shiftl 1 63.
Definition BLANK : Z := 0.

(** The operations of [bitflags!] the code uses. *)
Definition insert (flag flags : Z) : Z := Z.lor flags flag.
Definition remove (flag flags : Z) : Z := Z.land flags (not64 flag).
Definition contains (flag flags : Z) : bool := Z.land flags flag =? flag.

Definition device (flags : Z) : Z := insert CACHE_DISABLE flags.
Definition normal (flags : Z) : Z := remove CACHE_DISABLE flags.
Definition read_only (flags : Z) : Z := remove WRITABLE flags.
Definition writable (flags : Z) : Z := insert WRITABLE flags.
Definition execute_disable (flags : Z) : Z := insert EXECUTE_DISABLE flags.

(** [<<] on [usize] drops the bits shifted out. *)
Definition shl64 (x n : Z) : Z := Z.land (Z.shiftl x n) (Z.ones 64).

Definition pkey (key flags : Z) : Z := insert (shl64 (Z.land key 15) 59) flags.
Definition set_bits (new_bits flags : Z) : Z := insert new_bits flags.

(** ** Page sizes *)

Inductive PageSize := BasePageSize | LargePageSize | HugePageSize.

#[export] Instance PageSize_eq_dec : EqDecision PageSize.
Proof. solve_decision. Defined.

Definition SIZE (S : PageSize) : Z :=
  match S with
  | BasePageSize => 4096
  | LargePageSize => 2 * 1024 * 1024
  | HugePageSize => 1024 * 1024 * 1024
  end.

Definition MAP_LEVEL (S : PageSize) : nat :=
  match S with BasePageSize => 0 | LargePageSize => 1 | HugePageSize => 2 end.

Definition MAP_EXTRA_FLAG (S : PageSize) : Z :=
  match S with BasePageSize => BLANK | _ => HUGE_PAGE end.

(** ** Entries *)

Definition address (e : Z) : Z :=
  Z.land (Z.land (Z.land e (not64 (SIZE BasePageSize - 1))) (not64 EXECUTE_DISABLE))
    (not64 (shl64 0xF 59)).

Definition get_flags (e : Z) : Z :=
  Z.land e (Z.lor (SIZE BasePageSize - 1) EXECUTE_DISABLE).

Definition is_present (e : Z) : bool := negb (Z.land e PRESENT =? 0).
Definition is_huge (e : Z) : bool := negb (Z.land e HUGE_PAGE =? 0).
Definition is_user (e : Z) : bool := negb (Z.land e USER_ACCESSIBLE =? 0).

(** [PageTableEntry::set]; [bits] is [processor::get_physical_address_bits()]. *)
Definition set (bits physical_address flags : Z) : outcome Z :=
  let? _ :=
    if contains HUGE_PAGE flags
    then oassert (physical_address mod SIZE LargePageSize =? 0)
    else oassert (physical_address mod SIZE BasePageSize =? 0) in
  let? _ := oassert (Z.shiftr physical_address bits =? 0) in
  let flags_to_set := insert USER_ACCESSIBLE (insert ACCESSED (insert PRESENT flags)) in
  Done (Z.lor physical_address flags_to_set).

(** The new word [set_pkey_on_page_table_entry] writes. *)
Definition with_pkey (e key : Z) : Z :=
  Z.lor (Z.land e (not64 (shl64 0xF 59))) (shl64 key 59).

(** ** Fields of an entry, as the processor reads them *)

Definition pkey_of (e : Z) : Z := Z.shiftr e 59 mod 2 ^ 4.

(** The frame bits of an entry (bits 12 to 51; the processor ignores bits 52 to
    58) from bit [low] on. *)
Definition frame_from (low e : Z) : Z := Z.shiftl (Z.shiftr e low mod 2 ^ (52 - low)) low.
Definition frame_of (e : Z) : Z := frame_from 12 e.

(** ** Bits of the constants *)

Lemma land_bit_testbit e n : 0 <= n -> negb (Z.land e (Z.shiftl 1 n) =? 0) = Z.testbit e n.
Proof.
  intros Hn. rewrite Z.shiftl_1_l. destruct (Z.testbit e n) eqn:E.
  - apply negb_true_iff, Z.eqb_neq. intros H.
    assert (Z.testbit (Z.land e (2 ^ n)) n = false) by (rewrite H; apply Z.bits_0).
    rewrite Z.land_spec, E, Z.pow2_bits_true in H0 by done. done.
  - apply negb_false_iff, Z.eqb_eq. zbits; rewrite ?andb_false_r; subst; rewrite ?E; done.
Qed.

Lemma is_present_testbit e : is_present e = Z.testbit e 0.
Proof. by apply land_bit_testbit. Qed.
Lemma is_huge_testbit e : is_huge e = Z.testbit e 7.
Proof. by apply land_bit_testbit. Qed.
Lemma is_user_testbit e : is_user e = Z.testbit e 2.
Proof. by apply land_bit_testbit. Qed.

Lemma contains_testbit n e : 0 <= n -> contains (Z.shiftl 1 n) e = Z.testbit e n.
Proof.
  intros Hn. unfold contains. rewrite Z.shiftl_1_l. destruct (Z.testbit e n) eqn:E.
  - apply Z.eqb_eq. zbits; rewrite ?andb_true_r, ?andb_false_r; subst; done.
  - apply Z.eqb_neq. intros H. apply (f_equal (fun x => Z.testbit x n)) in H.
    rewrite Z.land_spec, E, Z.pow2_bits_true in H by done. done.
Qed.

(** ** Entries made by [set] and [with_pkey] *)

(** Flags as the code builds them: nothing but the low 12 bits, the protection
    key and the execute-disable bit. *)
Definition plain_flags (flags : Z) : Prop :=
  in_u64 flags /\ forall n, 12 <= n < 59 -> Z.testbit flags n = false.

(** The same as a test of the word. *)
Lemma plain_flags_test flags :
  in_u64 flags -> Z.land flags (Z.shiftl (Z.ones 47) 12) = 0 -> plain_flags flags.
Proof.
  intros Hu H. split; [done|]. intros n Hn.
  apply (f_equal (fun x => Z.testbit x n)) in H.
  rewrite Z.land_spec, testbit_field, Z.bits_0 in H by lia.
  destruct (Z.testbit flags n); [|done]. revert H. zbit_cases; done.
Qed.

Definition entry_of (physical_address flags : Z) : Z :=
  Z.lor physical_address (insert USER_ACCESSIBLE (insert ACCESSED (insert PRESENT flags))).

(** The alignment [set] asks for. *)
Definition entry_align (flags : Z) : Z :=
  if contains HUGE_PAGE flags then SIZE LargePageSize else SIZE BasePageSize.

Definition frame_ok (bits physical_address flags : Z) : Prop :=
  0 <= physical_address < 2 ^ bits /\ physical_address mod entry_align flags = 0.

Lemma set_done bits pa flags :
  0 <= bits -> frame_ok bits pa flags -> set bits pa flags = Done (entry_of pa flags).
Proof.
  intros Hb [[H1 H2] H3]. unfold set, entry_align in *.
  assert (E : (Z.shiftr pa bits =? 0) = true).
  { apply Z.eqb_eq. rewrite Z.shiftr_div_pow2 by lia. apply Z.div_small. lia. }
  destruct (contains HUGE_PAGE flags); rewrite H3; simpl; by rewrite E.
Qed.

Lemma set_inv bits pa flags e :
  0 <= bits -> 0 <= pa -> set bits pa flags = Done e ->
  e = entry_of pa flags /\ frame_ok bits pa flags.
Proof.
  intros Hb Hp. unfold set, frame_ok, entry_align.
  assert (E : Z.shiftr pa bits = 0 -> pa < 2 ^ bits).
  { rewrite Z.shiftr_div_pow2 by lia. intros H%Z.div_small_iff; [|pose proof (Z.pow_pos_nonneg 2 bits); lia].
    pose proof (Z.pow_pos_nonneg 2 bits). lia. }
  destruct (contains HUGE_PAGE flags), (Z.eqb_spec (pa mod SIZE LargePageSize) 0),
    (Z.eqb_spec (pa mod SIZE BasePageSize) 0), (Z.eqb_spec (Z.shiftr pa bits) 0);
    simpl; intros; simplify_eq; split; try done; auto.
Qed.

Lemma frame_ok_base bits pa flags : frame_ok bits pa flags -> pa mod 2 ^ 12 = 0.
Proof.
  intros [_ H]. unfold entry_align in H. destruct (contains HUGE_PAGE flags); [|done].
  change (SIZE LargePageSize) with (2 ^ 12 * 512) in H. apply Z.mod_divide in H; [|done].
  apply Z.mod_divide; [done|]. eapply Z.divide_trans; [|exact H]. by exists 512.
Qed.

Lemma testbit_entry_of pa flags n :
  0 <= n -> Z.testbit (entry_of pa flags) n =
  Z.testbit pa n || (Z.testbit flags n || (n =? 0) || (n =? 5) || (n =? 2)).
Proof.
  intros Hn. unfold entry_of, insert, PRESENT, ACCESSED, USER_ACCESSIBLE. rewrite !Z.shiftl_1_l.
  autorewrite with zbit. by rewrite !(Z.eqb_sym n).
Qed.

Lemma frame_ok_testbit bits pa flags n :
  bits <= 52 -> frame_ok bits pa flags -> 0 <= n -> n < 12 \/ 52 <= n -> Z.testbit pa n = false.
Proof.
  intros Hb Hf Hn [H|H].
  - apply (testbit_mod_low pa 12); [lia|]. by eapply frame_ok_base.
  - destruct Hf as [[H1 H2] _]. destruct (Z.eq_dec pa 0) as [->|]; [apply Z.bits_0|].
    apply Z.bits_above_log2; [done|]. apply Z.log2_lt_pow2; [lia|].
    destruct (Z.lt_ge_cases bits 0); [rewrite Z.pow_neg_r in H2 by done; lia|].
    pose proof (Z.pow_le_mono_r 2 bits n). lia.
Qed.

Lemma testbit_frame_from low e n :
  0 <= low <= 52 -> 0 <= n ->
  Z.testbit (frame_from low e) n = (low <=? n) && (n <? 52) && Z.testbit e n.
Proof.
  intros Hl Hn. unfold frame_from. rewrite Z.shiftl_spec by lia.
  destruct (Z.leb_spec low n); simpl.
  - rewrite testbit_mod_pow2 by lia. rewrite Z.shiftr_spec by lia.
    replace (n - low + low) with n by lia.
    destruct (Z.ltb_spec (n - low) (52 - low)), (Z.ltb_spec n 52); try done; lia.
  - apply Z.testbit_neg_r. lia.
Qed.

Lemma testbit_address e n :
  in_u64 e -> 0 <= n -> Z.testbit (address e) n = (12 <=? n) && (n <? 59) && Z.testbit e n.
Proof.
  intros He Hn. unfold address. rewrite !land_not64 by auto.
  change (SIZE BasePageSize - 1) with (Z.ones 12).
  change (shl64 0xF 59) with (Z.shiftl (Z.ones 4) 59).
  change EXECUTE_DISABLE with (Z.shiftl (Z.ones 1) 63).
  rewrite !Z.ldiff_spec, !testbit_field, Z.testbit_ones_nonneg by lia.
  destruct (Z.testbit e n) eqn:E; [|by rewrite andb_false_r].
  assert (n < 64) by (destruct (Z.lt_ge_cases n 64); [done|by rewrite testbit_u64_high in E]).
  zbit_cases; done.
Qed.

Section entry_facts.

Context (bits pa flags : Z).
Hypothesis Hbits : bits <= 52.
Hypothesis Hframe : frame_ok bits pa flags.
Hypothesis Hflags : plain_flags flags.

Lemma pa_in_u64 : in_u64 pa.
Proof.
  apply in_u64_bits; [apply Hframe|]. intros n Hn. eapply frame_ok_testbit; try done; lia.
Qed.

Lemma entry_of_u64 : in_u64 (entry_of pa flags).
Proof.
  pose proof pa_in_u64. destruct Hflags. unfold entry_of, insert, PRESENT, ACCESSED, USER_ACCESSIBLE.
  repeat apply in_u64_lor; done.
Qed.

Lemma entry_of_present : is_present (entry_of pa flags) = true.
Proof. rewrite is_present_testbit, testbit_entry_of by done. by rewrite !orb_true_r. Qed.

Lemma entry_of_huge : is_huge (entry_of pa flags) = contains HUGE_PAGE flags.
Proof.
  rewrite is_huge_testbit, testbit_entry_of by done.
  erewrite frame_ok_testbit by (try done; lia).
  unfold HUGE_PAGE. rewrite contains_testbit by done. simpl. by rewrite !orb_false_r.
Qed.

Lemma entry_of_frame low :
  12 <= low <= 52 -> pa mod 2 ^ low = 0 -> frame_from low (entry_of pa flags) = pa.
Proof.
  intros Hl Hm. apply Z.bits_inj'. intros n Hn. rewrite testbit_frame_from, testbit_entry_of by lia.
  destruct (Z.leb_spec low n); simpl; [|symmetry; apply (testbit_mod_low _ low); [lia|done]].
  destruct (Z.ltb_spec n 52); simpl; [|symmetry; eapply frame_ok_testbit; try done; lia].
  destruct Hflags as [_ Hp]. rewrite Hp by lia. zbit_cases. by rewrite !orb_false_r.
Qed.

Lemma entry_of_address : address (entry_of pa flags) = pa.
Proof.
  apply Z.bits_inj'. intros n Hn. rewrite testbit_address by (try done; apply entry_of_u64).
  rewrite testbit_entry_of by done. destruct (Z.leb_spec 12 n), (Z.ltb_spec n 59); simpl.
  2-4: symmetry; eapply frame_ok_testbit; try done; lia.
  destruct Hflags as [_ Hp]. rewrite Hp by lia. zbit_cases. by rewrite !orb_false_r.
Qed.

Lemma entry_of_pkey : pkey_of (entry_of pa flags) = pkey_of flags.
Proof.
  unfold pkey_of. apply Z.bits_inj'. intros n Hn. rewrite !testbit_mod_pow2 by lia.
  destruct (Z.ltb_spec n 4); simpl; [|done].
  rewrite !Z.shiftr_spec, testbit_entry_of by lia.
  erewrite frame_ok_testbit by (try done; lia). zbit_cases. by rewrite !orb_false_r.
Qed.

End entry_facts.

Lemma testbit_with_pkey e key n :
  in_u64 e -> 0 <= key < 16 -> 0 <= n ->
  Z.testbit (with_pkey e key) n =
  if (59 <=? n) && (n <? 63) then Z.testbit key (n - 59) else Z.testbit e n.
Proof.
  intros He Hk Hn. unfold with_pkey. rewrite land_not64 by done. unfold shl64 at 2.
  change (shl64 0xF 59) with (Z.shiftl (Z.ones 4) 59).
  rewrite Z.lor_spec, Z.land_spec, Z.ldiff_spec, testbit_field, Z.shiftl_spec, Z.testbit_ones_nonneg by lia.
  change (59 + 4) with 63.
  assert (Hh : forall m, 4 <= m -> Z.testbit key m = false).
  { intros m Hm. destruct (Z.eq_dec key 0) as [->|]; [apply Z.bits_0|].
    apply Z.bits_above_log2; [lia|]. apply Z.log2_lt_pow2; [lia|].
    pose proof (Z.pow_le_mono_r 2 4 m). lia. }
  destruct (Z.leb_spec 59 n), (Z.ltb_spec n 63), (Z.ltb_spec n 64); simpl;
    rewrite ?andb_true_r, ?andb_false_r, ?orb_false_r, ?orb_false_l; try done; try lia.
  - rewrite Hh by lia. by rewrite orb_false_r.
  - rewrite (Z.testbit_neg_r key) by lia. by rewrite orb_false_r.
Qed.

Section with_pkey_facts.

Context (e key : Z).
Hypothesis He : in_u64 e.
Hypothesis Hkey : 0 <= key < 16.

Lemma with_pkey_u64 : in_u64 (with_pkey e key).
Proof.
  apply in_u64_lor; [by apply in_u64_land|]. unfold shl64. apply in_u64_bits.
  - apply Z.land_nonneg. by right.
  - intros n Hn. rewrite Z.land_spec, (Z.testbit_ones_nonneg 64) by lia.
    destruct (Z.ltb_spec n 64); [lia|apply andb_false_r].
Qed.

Lemma with_pkey_pkey : pkey_of (with_pkey e key) = key.
Proof.
  unfold pkey_of. rewrite <- (Z.mod_small key (2 ^ 4)) at 2 by lia.
  apply Z.bits_inj'. intros n Hn. rewrite !testbit_mod_pow2 by lia.
  destruct (Z.ltb_spec n 4); simpl; [|done].
  rewrite Z.shiftr_spec, testbit_with_pkey by (try done; lia).
  zbit_cases. simpl. f_equal. lia.
Qed.

Lemma with_pkey_present : is_present (with_pkey e key) = is_present e.
Proof. by rewrite !is_present_testbit, testbit_with_pkey. Qed.

Lemma with_pkey_huge : is_huge (with_pkey e key) = is_huge e.
Proof. by rewrite !is_huge_testbit, testbit_with_pkey. Qed.

Lemma with_pkey_frame low : 0 <= low <= 52 -> frame_from low (with_pkey e key) = frame_from low e.
Proof.
  intros Hl. apply Z.bits_inj'. intros n Hn. rewrite !testbit_frame_from by done.
  destruct (Z.leb_spec low n), (Z.ltb_spec n 52); simpl; try done.
  rewrite testbit_with_pkey by done. zbit_cases. done.
Qed.

Lemma with_pkey_address : address (with_pkey e key) = address e.
Proof.
  apply Z.bits_inj'. intros n Hn. rewrite !testbit_address by (try done; apply with_pkey_u64).
  destruct (Z.leb_spec 12 n), (Z.ltb_spec n 59); simpl; try done.
  rewrite testbit_with_pkey by done. zbit_cases. done.
Qed.

End with_pkey_facts.

(** ** Properties of the entries *)

(** The entry [set] writes refers to exactly the given frame and carries the
    flags' protection key; it is present, user accessible (so that the
    protection key applies) and huge exactly when the flags say so. *)
Theorem set_correct bits pa flags e :
  0 <= bits <= 52 -> 0 <= pa -> plain_flags flags -> set bits pa flags = Done e ->
  address e = pa /\ frame_of e = pa /\ pkey_of e = pkey_of flags /\
  is_present e = true /\ is_user e = true /\ is_huge e = contains HUGE_PAGE flags.
Proof.
  intros Hb Hp Hf E. destruct (set_inv bits pa flags e) as [-> Hok]; [lia|done|done|].
  split_and!.
  - apply (entry_of_address bits); [lia|done|done].
  - apply (entry_of_frame bits); [lia|done|done|lia|by eapply frame_ok_base].
  - apply (entry_of_pkey bits); [lia|done].
  - apply entry_of_present.
  - rewrite is_user_testbit, testbit_entry_of by done. by rewrite !orb_true_r.
  - apply (entry_of_huge bits); [lia|done].
Qed.

Lemma set_correct_witness :
  exists e, set 39 0x200000 (pkey 2 (writable HUGE_PAGE)) = Done e /\
    address e = 0x200000 /\ pkey_of e = 2 /\ is_huge e = true.
Proof.
  assert (E : set 39 0x200000 (pkey 2 (writable HUGE_PAGE)) = Done 0x10000000002000a7) by (by vm_compute).
  exists 0x10000000002000a7. split; [exact E|].
  destruct (set_correct 39 0x200000 (pkey 2 (writable HUGE_PAGE)) 0x10000000002000a7)
    as (H1 & _ & H2 & _ & _ & H3); [done|done| |exact E|].
  - by apply plain_flags_test.
  - split_and!; [exact H1|by rewrite H2|by rewrite H3].
Defined.

(** Rewriting the protection key of an entry sets exactly the key: the
    frame, the presence and the size of the page stay as they are. *)
Theorem with_pkey_correct e key :
  in_u64 e -> 0 <= key < 16 ->
  pkey_of (with_pkey e key) = key /\ address (with_pkey e key) = address e /\
  frame_of (with_pkey e key) = frame_of e /\ is_present (with_pkey e key) = is_present e /\
  is_huge (with_pkey e key) = is_huge e /\
  (forall n, 0 <= n -> ~ 59 <= n < 63 -> Z.testbit (with_pkey e key) n = Z.testbit e n).
Proof.
  intros He Hk. split_and!.
  - by apply with_pkey_pkey.
  - by apply with_pkey_address.
  - by apply with_pkey_frame.
  - by apply with_pkey_present.
  - by apply with_pkey_huge.
  - intros n Hn Ho. rewrite testbit_with_pkey by done. zbit_cases; done.
Qed.

Lemma with_pkey_correct_witness : pkey_of (with_pkey 0x10000000002000a7 3) = 3.
Proof. apply (with_pkey_correct 0x10000000002000a7 3); done. Defined.
