(* ===== verification/Mmu.v ===== *)
(** * Page table trees as the processor walks them

    The words of physical memory that hold page tables, the 4-level walk of the
    processor, the recursive slot that makes the tables visible in the virtual
    address space (src/arch/x86_64/mm/paging.rs maps entry 511 of the PML4 to the
    PML4 itself), and what a write to one entry does to all translations. *)

From stdpp Require Import base numbers list gmap.
From Stdlib Require Import ZArith Lia.
From S2P Require Import Prelude Pte.

#[local] Open Scope Z_scope.

(** ** Physical memory words and the walk of the processor *)

Abbreviation words := (gmap Z Z).
Definition rd (m : words) (a : Z) : Z := default 0 (m !! a).
Definition wr (a x : Z) (m : words) : words := <[a := x]> m.

Lemma rd_wr m a b x : rd (wr a x m) b = if decide (a = b) then x else rd m b.
Proof. unfold rd, wr. rewrite lookup_insert. by case_decide. Qed.

(** The index of address [v] in a table of level [L]. *)
Definition index (L : nat) (v : Z) : Z := Z.shiftr v (12 + 9 * Z.of_nat L) mod 2 ^ 9.

(** The table an entry refers to. *)
Definition pt_next (e : Z) : option Z :=
  if is_present e && negb (is_huge e) then Some (frame_of e) else None.

(** The leaf entry for [v] below table [t] of level [L], with its level. *)
Fixpoint walk_from (m : words) (L : nat) (t v : Z) : option (nat * Z) :=
  let e := rd m (t + 8 * index L v) in
  if is_present e then
    match L with
    | O => Some (O, e)
    | S l =>
        if is_huge e then (if decide (L = 3%nat) then None else Some (L, e))
        else walk_from m l (frame_of e) v
    end
  else None.

Definition walk (m : words) (root v : Z) : option (nat * Z) := walk_from m 3 root v.

Definition page_bits (L : nat) : Z := 12 + 9 * Z.of_nat L.

(** The physical address behind a virtual one; [None] is a page fault. *)
Definition translate (m : words) (root v : Z) : option Z :=
  match walk m root v with
  | Some (L, e) => Some (frame_from (page_bits L) e + v mod 2 ^ page_bits L)
  | None => None
  end.

(** The table [d] steps below the root on the way to [v]. *)
Fixpoint descend (m : words) (root v : Z) (d : nat) : option Z :=
  match d with
  | O => Some root
  | S d' =>
      match descend m root v d' with
      | Some t => pt_next (rd m (t + 8 * index (3 - d') v))
      | None => None
      end
  end.

(** ** Addresses of tables and entries *)

Lemma index_range L v : 0 <= index L v < 512.
Proof. apply Z.mod_pos_bound. lia. Qed.

Lemma frame_of_aligned e : frame_of e mod 4096 = 0 /\ 0 <= frame_of e.
Proof.
  split.
  - change 4096 with (2 ^ 12). apply mod_pow2_bits; [lia|]. intros n Hn. unfold frame_of.
    rewrite testbit_frame_from by lia. destruct (Z.leb_spec 12 n); [lia|done].
  - unfold frame_of, frame_from. apply Z.shiftl_nonneg. apply Z.mod_pos_bound. lia.
Qed.

Lemma pt_next_Some e t : pt_next e = Some t -> is_present e = true /\ is_huge e = false /\ t = frame_of e.
Proof.
  unfold pt_next. destruct (is_present e), (is_huge e); simpl; intros; simplify_eq. done.
Qed.

Lemma descend_aligned m root v d t :
  root mod 4096 = 0 -> descend m root v d = Some t -> t mod 4096 = 0.
Proof.
  intros Hr. destruct d as [|d]; simpl; [by intros [= <-]|].
  destruct (descend m root v d); [|done]. intros (_ & _ & ->)%pt_next_Some. apply frame_of_aligned.
Qed.

Lemma aligned_entry t t' i i' :
  t mod 4096 = 0 -> t' mod 4096 = 0 -> 0 <= i < 512 -> 0 <= i' < 512 ->
  t + 8 * i = t' + 8 * i' -> t = t' /\ i = i'.
Proof.
  intros [q ->]%Z.mod_divide [q' ->]%Z.mod_divide Hi Hi' E; [|done|done].
  assert (q = q') as -> by nia. split; [done|]. lia.
Qed.

(** An entry of another table lies outside the frame of a table. *)
Lemma entry_outside t p i :
  t mod 4096 = 0 -> p mod 4096 = 0 -> t <> p -> 0 <= i < 512 -> ~ p <= t + 8 * i < p + 4096.
Proof.
  intros [q ->]%Z.mod_divide [q' ->]%Z.mod_divide Hn Hi Ha; [|done|done]. apply Hn. f_equal. nia.
Qed.

(** Two addresses take the same way through the tables of depth at most [d]. *)
Definition same (d : nat) (v v' : Z) : Prop :=
  forall k, (k <= d)%nat -> index (3 - k) v = index (3 - k) v'.

Lemma descend_prefix m root v v' d :
  (forall k, (k < d)%nat -> index (3 - k) v = index (3 - k) v') ->
  descend m root v d = descend m root v' d.
Proof.
  induction d as [|d IH]; simpl; intros H; [done|].
  rewrite IH by (intros; apply H; lia). destruct (descend m root v' d); [|done].
  by rewrite H by lia.
Qed.

Lemma descend_reads m m' root v n :
  (forall k t, (k < n)%nat -> descend m root v k = Some t ->
     rd m' (t + 8 * index (3 - k) v) = rd m (t + 8 * index (3 - k) v)) ->
  descend m' root v n = descend m root v n.
Proof.
  induction n as [|n IH]; simpl; intros H; [done|].
  rewrite IH by (intros; apply H; [lia|done]).
  destruct (descend m root v n) as [t|] eqn:E; [|done]. f_equal. by apply H; [lia|].
Qed.

Lemma walk_descend m root v d t :
  (d <= 3)%nat -> descend m root v d = Some t -> walk m root v = walk_from m (3 - d) t v.
Proof.
  revert t. induction d as [|d IH]; simpl descend; intros t Hd E; [by simplify_eq|].
  destruct (descend m root v d) as [t'|] eqn:E'; [|done].
  rewrite (IH t') by (done || lia). apply pt_next_Some in E as (Hp & Hh & ->).
  replace (3 - d)%nat with (S (3 - S d)) in * by lia. cbn [walk_from]. by rewrite Hp, Hh.
Qed.

Lemma walk_reads m m' root v :
  (forall k t, (k <= 3)%nat -> descend m root v k = Some t ->
     rd m' (t + 8 * index (3 - k) v) = rd m (t + 8 * index (3 - k) v)) ->
  walk m' root v = walk m root v.
Proof.
  intros H. unfold walk.
  assert (G : forall L t, (L <= 3)%nat -> descend m root v (3 - L) = Some t ->
                walk_from m' L t v = walk_from m L t v).
  { induction L as [|L IH]; intros t HL E; cbn [walk_from].
    - pose proof (H 3%nat t ltac:(lia) E) as R. change (3 - 3)%nat with 0%nat in R. by rewrite R.
    - pose proof (H (3 - S L)%nat t ltac:(lia) E) as R.
      replace (3 - (3 - S L))%nat with (S L) in R by lia. rewrite R.
      destruct (is_present _) eqn:Hp; [|done]. destruct (is_huge _) eqn:Hh; [done|].
      apply IH; [lia|]. replace (3 - L)%nat with (S (3 - S L)) by lia. cbn [descend]. rewrite E.
      replace (3 - (3 - S L))%nat with (S L) by lia. unfold pt_next. by rewrite Hp, Hh. }
  by apply G.
Qed.

#[export] Instance same_dec d v v' : Decision (same d v v').
Proof.
  unfold same. induction d as [|d IH].
  - destruct (decide (index 3 v = index 3 v')) as [E|E].
    + left. intros k Hk. by replace k with 0%nat by lia.
    + right. intros H. exact (E (H 0%nat (le_n 0))).
  - destruct IH as [IH|IH]; [|right; intros H; apply IH; intros k Hk; apply H; lia].
    destruct (decide (index (3 - S d) v = index (3 - S d) v')) as [E|E].
    + left. intros k Hk. destruct (decide (k = S d)) as [->|]; [done|apply IH; lia].
    + right. intros H. apply E, H. lia.
Defined.

Lemma descend_le m root v k j t :
  descend m root v k = Some t -> (j <= k)%nat -> exists t', descend m root v j = Some t'.
Proof.
  revert t. induction k as [|k IH]; intros t E Hj.
  - replace j with 0%nat by lia. by eexists.
  - destruct (decide (j = S k)) as [->|]; [eauto|]. simpl in E.
    destruct (descend m root v k) as [t'|]; [|done]. eapply IH; [done|lia].
Qed.

(** ** Well-formed trees *)

(** Addresses outside the window of the recursive slot. *)
Definition user (v : Z) : Prop := index 3 v <> 511.

Record tree_ok (m : words) (root : Z) : Prop := {
  to_root : root mod 4096 = 0 /\ 0 <= root;
  to_self : pt_next (rd m (root + 8 * 511)) = Some root;
  to_inj : forall v v' d d' t, user v -> user v' -> (d <= 3)%nat -> (d' <= 3)%nat ->
    descend m root v d = Some t -> descend m root v' d' = Some t ->
    d = d' /\ forall k, (k < d)%nat -> index (3 - k) v = index (3 - k) v'
}.

Definition is_table (m : words) (root t : Z) : Prop :=
  exists v d, user v /\ (d <= 3)%nat /\ descend m root v d = Some t.

(** In a well-formed tree, the entry at depth [d] of [v] is read on the way to
    [v'] only at the same depth and when the ways agree up to it. *)
Lemma entry_shared m root v v' d k t t' :
  tree_ok m root -> user v -> user v' -> (d <= 3)%nat -> (k <= 3)%nat ->
  descend m root v d = Some t -> descend m root v' k = Some t' ->
  t' + 8 * index (3 - k) v' = t + 8 * index (3 - d) v -> k = d /\ same d v v'.
Proof.
  intros [[Hr _] _ Hi] Hv Hv' Hd Hk E E' Ea.
  destruct (aligned_entry t' t (index (3 - k) v') (index (3 - d) v)) as [-> Ei];
    eauto using descend_aligned, index_range.
  destruct (Hi v v' d k t) as [<- Hp]; try done. split; [done|].
  intros j Hj. destruct (decide (j = d)) as [->|]; [done|]. apply Hp. lia.
Qed.

Lemma same_refl d v : same d v v.
Proof. by intros k _. Qed.

Lemma same_0_user d v v' : same d v v' -> user v -> user v'.
Proof.
  intros Hs. unfold user. pose proof (Hs 0%nat ltac:(lia)) as E.
  change (3 - 0)%nat with 3%nat in E. by rewrite E.
Qed.

(** ** Writing an entry *)

Section write_entry.

Context (m : words) (root v x t : Z) (d : nat).
Hypothesis Hok : tree_ok m root.
Hypothesis Hv : user v.
Hypothesis Hd : (d <= 3)%nat.
Hypothesis Ht : descend m root v d = Some t.

Let m' : words := wr (t + 8 * index (3 - d) v) x m.

Lemma write_rd_other v' k t' :
  user v' -> (k <= 3)%nat -> descend m root v' k = Some t' -> ~ (k = d /\ same d v v') ->
  rd m' (t' + 8 * index (3 - k) v') = rd m (t' + 8 * index (3 - k) v').
Proof.
  intros Hv' Hk E Hn. unfold m'. rewrite rd_wr. case_decide as Ea; [|done].
  exfalso. apply Hn. by eapply entry_shared.
Qed.

Lemma write_rd_same : rd m' (t + 8 * index (3 - d) v) = x.
Proof. unfold m'. rewrite rd_wr. by rewrite decide_True. Qed.

(** Tables above the entry are found as before. *)
Lemma write_descend_above v' k :
  user v' -> (k <= 3)%nat -> (k <= d)%nat \/ ~ same d v v' ->
  descend m' root v' k = descend m root v' k.
Proof.
  intros Hv' Hk Hs. apply descend_reads. intros j t' Hj E.
  apply write_rd_other; try done; [lia|]. intros [-> ?]. destruct Hs; [lia|done].
Qed.

Lemma write_walk_other v' : user v' -> ~ same d v v' -> walk m' root v' = walk m root v'.
Proof.
  intros Hv' Hs. apply walk_reads. intros k t' Hk E. apply write_rd_other; try done. naive_solver.
Qed.

Lemma write_descend_same v' : same d v v' -> descend m' root v' d = Some t.
Proof.
  intros Hs. rewrite write_descend_above; [|by eapply same_0_user|done|left; lia].
  rewrite <- Ht. apply descend_prefix. intros k Hk. symmetry. apply Hs. lia.
Qed.

Lemma write_walk_same v' : same d v v' -> walk m' root v' = walk_from m' (3 - d) t v'.
Proof. intros Hs. apply walk_descend; [done|]. by apply write_descend_same. Qed.

Lemma write_to_self : pt_next (rd m' (root + 8 * 511)) = Some root.
Proof.
  unfold m'. rewrite rd_wr. case_decide as Ea; [|apply Hok]. exfalso.
  destruct Hok as [[Hr _] _ Hi].
  destruct (aligned_entry t root (index (3 - d) v) 511) as [-> Ei];
    [by eapply descend_aligned|done|apply index_range|lia|done|].
  destruct (Hi v v d 0%nat root) as [-> _]; try done. lia.
Qed.

(** An entry that refers to no table: the tree only loses tables. *)
Lemma write_leaf_tables v' k t' :
  d = 3%nat \/ pt_next x = None -> user v' -> (k <= 3)%nat ->
  descend m' root v' k = Some t' -> descend m root v' k = Some t'.
Proof.
  intros Hx Hv' Hk E. destruct (decide (k <= d)%nat); [by rewrite <- write_descend_above; auto|].
  destruct (decide (same d v v')) as [Hs|Hs]; [|by rewrite <- write_descend_above; auto].
  exfalso. destruct (descend_le _ _ _ _ (S d) _ E ltac:(lia)) as [t2 E2]. cbn [descend] in E2.
  rewrite write_descend_same in E2 by done. rewrite <- (Hs d) in E2 by lia.
  rewrite write_rd_same in E2. destruct Hx as [Hx|Hx]; [lia|by rewrite Hx in E2].
Qed.

Lemma write_leaf_ok : d = 3%nat \/ pt_next x = None -> tree_ok m' root.
Proof.
  intros Hx. split; [apply Hok|apply write_to_self|].
  intros v1 v2 d1 d2 t' Hu1 Hu2 Hd1 Hd2 E1 E2.
  eapply (to_inj m root Hok); eauto using write_leaf_tables.
Qed.

(** ** Hooking a new table into the tree *)

Section new_table.

Context (m2 : words) (p : Z).
Hypothesis Hd3 : (d < 3)%nat.
Hypothesis Habsent : is_present (rd m (t + 8 * index (3 - d) v)) = false.
Hypothesis Hx : pt_next x = Some p.
Hypothesis Hfresh : ~ is_table m root p.
Hypothesis Hother : forall a, ~ p <= a < p + 4096 -> rd m2 a = rd m' a.
Hypothesis Hzero : forall j, 0 <= j < 512 -> rd m2 (p + 8 * j) = 0.

Lemma new_aligned : p mod 4096 = 0.
Proof. apply pt_next_Some in Hx as (_ & _ & ->). apply frame_of_aligned. Qed.

(** Entries of tables of the tree are not in the new frame. *)
Lemma new_rd_table v' k t' i :
  user v' -> (k <= 3)%nat -> descend m root v' k = Some t' -> 0 <= i < 512 ->
  rd m2 (t' + 8 * i) = rd m' (t' + 8 * i).
Proof.
  intros Hv' Hk E Hi. apply Hother, entry_outside; [|apply new_aligned| |done].
  - eapply descend_aligned; [apply Hok|exact E].
  - intros ->. apply Hfresh. by exists v', k.
Qed.

Lemma new_descend_other v' k :
  user v' -> (k <= 3)%nat -> (k <= d)%nat \/ ~ same d v v' ->
  descend m2 root v' k = descend m root v' k.
Proof.
  intros Hv' Hk Hs. apply descend_reads. intros j t' Hj E.
  rewrite (new_rd_table v' j) by (done || lia || apply index_range).
  apply write_rd_other; try done; [lia|]. intros [-> ?]. destruct Hs; [lia|done].
Qed.

Lemma new_descend_same v' : same d v v' -> descend m2 root v' (S d) = Some p.
Proof.
  intros Hs. assert (Hv' : user v') by (by eapply same_0_user). cbn [descend].
  rewrite new_descend_other by (done || lia || (left; lia)).
  replace (descend m root v' d) with (Some t)
    by (rewrite <- Ht; apply descend_prefix; intros; apply Hs; lia).
  rewrite <- (Hs d) by lia. rewrite (new_rd_table v d) by (done || apply index_range).
  by rewrite write_rd_same.
Qed.

Lemma new_descend_below v' k : same d v v' -> (S d < k)%nat -> descend m2 root v' k = None.
Proof.
  intros Hs Hk. destruct (descend m2 root v' k) as [t'|] eqn:E; [|done]. exfalso.
  destruct (descend_le _ _ _ _ (S (S d)) _ E ltac:(lia)) as [t2 E2].
  change (descend m2 root v' (S (S d))) with
    (match descend m2 root v' (S d) with
     | Some t => pt_next (rd m2 (t + 8 * index (3 - S d) v'))
     | None => None end) in E2.
  rewrite new_descend_same in E2 by done. by rewrite Hzero in E2 by apply index_range.
Qed.

(** No translation changes: the new table is empty. *)
Lemma new_walk v' : user v' -> walk m2 root v' = walk m root v'.
Proof.
  intros Hv'. destruct (decide (same d v v')) as [Hs|Hs].
  - rewrite (walk_descend m2 root v' (S d) p) by (lia || by apply new_descend_same).
    assert (E : descend m root v' d = Some t)
      by (rewrite <- Ht; apply descend_prefix; intros; symmetry; apply Hs; lia).
    rewrite (walk_descend m root v' d t) by done.
    assert (Hw : forall L, walk_from m2 L p v' = None).
    { intros [|L]; cbn [walk_from]; by rewrite Hzero by apply index_range. }
    rewrite Hw. pose proof Habsent as Ha. rewrite (Hs d) in Ha by lia.
    destruct (3 - d)%nat; cbn [walk_from]; by rewrite Ha.
  - apply walk_reads. intros k t' Hk E.
    rewrite (new_rd_table v' k) by (done || apply index_range).
    apply write_rd_other; try done. naive_solver.
Qed.

Lemma new_tables v' k t' :
  user v' -> (k <= 3)%nat -> descend m2 root v' k = Some t' ->
  descend m root v' k = Some t' \/ (t' = p /\ k = S d /\ same d v v').
Proof.
  intros Hv' Hk E. destruct (decide (same d v v')) as [Hs|Hs];
    [|left; by rewrite <- new_descend_other; auto].
  destruct (decide (k <= d)%nat); [left; by rewrite <- new_descend_other; auto|].
  destruct (decide (k = S d)) as [->|]; [|by rewrite new_descend_below in E by (done || lia)].
  rewrite new_descend_same in E by done. right. by simplify_eq.
Qed.

(** No table is lost. *)
Lemma new_tables_kept v' k t' :
  user v' -> (k <= 3)%nat -> descend m root v' k = Some t' -> descend m2 root v' k = Some t'.
Proof.
  intros Hv' Hk E. destruct (decide (k <= d)%nat); [by rewrite new_descend_other; auto|].
  destruct (decide (same d v v')) as [Hs|Hs]; [|by rewrite new_descend_other; auto].
  exfalso. destruct (descend_le _ _ _ _ (S d) _ E ltac:(lia)) as [t2 E2]. cbn [descend] in E2.
  replace (descend m root v' d) with (Some t) in E2
    by (rewrite <- Ht; apply descend_prefix; intros; apply Hs; lia).
  rewrite <- (Hs d) in E2 by lia. apply pt_next_Some in E2 as (Hp & _). congruence.
Qed.

Lemma new_ok : tree_ok m2 root.
Proof.
  assert (Hr : is_table m root root) by (exists v, 0%nat; split_and!; [done|lia|done]).
  split; [apply Hok| |].
  - rewrite (new_rd_table v 0%nat root 511) by (done || lia). apply write_to_self.
  - intros v1 v2 d1 d2 t' Hu1 Hu2 Hd1 Hd2 E1 E2.
    apply new_tables in E1 as [F1|(-> & -> & S1)]; try done;
      apply new_tables in E2 as [F2|(F2 & -> & S2)]; try done.
    + by eapply (to_inj m root Hok).
    + exfalso. apply Hfresh. subst. by exists v1, d1.
    + exfalso. apply Hfresh. by exists v2, d2.
    + split; [done|]. intros k Hk. rewrite <- S1, <- S2 by lia. done.
Qed.

End new_table.

End write_entry.

(** ** The recursive window *)

Definition PAGE_BITS : Z := 12.
Definition PAGE_MAP_BITS : Z := 9.
Definition PML4_ADDRESS : Z := 0xFFFFFFFFFFFFF000.

(** The address arithmetic of [PageTable::subtable]. *)
Definition subtable_address (table_address i : Z) : Z :=
  Z.lor (shl64 table_address PAGE_MAP_BITS) (shl64 i PAGE_BITS).

(** The virtual address through which the code reaches the table at depth [d] of [v]. *)
Fixpoint table_va (v : Z) (d : nat) : Z :=
  match d with
  | O => PML4_ADDRESS
  | S d' => subtable_address (table_va v d') (index (3 - d') v)
  end.

Lemma testbit_index L v n : 0 <= n -> Z.testbit (index L v) n = (n <? 9) && Z.testbit v (n + page_bits L).
Proof.
  intros Hn. unfold index, page_bits. rewrite testbit_mod_pow2 by lia. f_equal.
  by rewrite Z.shiftr_spec by lia.
Qed.

Lemma testbit_shl64 x s n : 0 <= s -> 0 <= n ->
  Z.testbit (shl64 x s) n = (s <=? n) && (n <? 64) && Z.testbit x (n - s).
Proof.
  intros Hs Hn. unfold shl64. rewrite Z.land_spec, Z.shiftl_spec, Z.testbit_ones_nonneg by lia.
  destruct (Z.leb_spec s n); simpl; [by rewrite andb_comm|]. by rewrite Z.testbit_neg_r by lia.
Qed.

Lemma testbit_small x k n : 0 <= k -> 0 <= x < 2 ^ k -> k <= n -> Z.testbit x n = false.
Proof.
  intros Hk Hx Hn. rewrite <- (Z.mod_small x (2 ^ k)) by done. rewrite testbit_mod_pow2 by lia.
  destruct (Z.ltb_spec n k); [lia|done].
Qed.

Lemma index_subtable_S t i L : (L <= 2)%nat -> 0 <= i < 512 -> index (S L) (subtable_address t i) = index L t.
Proof.
  intros HL Hi. apply Z.bits_inj'. intros n Hn. rewrite !testbit_index by done.
  destruct (Z.ltb_spec n 9); simpl; [|done]. unfold subtable_address, page_bits, PAGE_MAP_BITS, PAGE_BITS.
  rewrite Z.lor_spec, !testbit_shl64 by lia.
  replace (n + (12 + 9 * Z.of_nat (S L)) - 9) with (n + (12 + 9 * Z.of_nat L)) by lia.
  rewrite (testbit_small i 9) by lia. rewrite andb_false_r, orb_false_r.
  zbit_cases. done.
Qed.

Lemma index_subtable_0 t i : t mod 4096 = 0 -> 0 <= i < 512 -> index 0 (subtable_address t i) = i.
Proof.
  intros Ht Hi. apply Z.bits_inj'. intros n Hn. rewrite testbit_index by done.
  destruct (Z.ltb_spec n 9); simpl; [|symmetry; apply (testbit_small _ 9); lia].
  unfold subtable_address, page_bits, PAGE_MAP_BITS, PAGE_BITS.
  rewrite Z.lor_spec, !testbit_shl64 by lia.
  change (12 + 9 * Z.of_nat 0) with 12. replace (n + 12 - 12) with n by lia.
  destruct (Z.leb_spec 9 (n + 12)); [simpl|lia].
  rewrite (testbit_mod_low t 12) by (try done; lia). zbit_cases. by rewrite andb_false_r.
Qed.

Lemma subtable_aligned t i : t mod 4096 = 0 -> subtable_address t i mod 4096 = 0.
Proof.
  intros Ht. change 4096 with (2 ^ 12). apply mod_pow2_bits; [lia|]. intros n Hn.
  unfold subtable_address, PAGE_MAP_BITS, PAGE_BITS. rewrite Z.lor_spec, !testbit_shl64 by lia.
  destruct (Z.leb_spec 12 n); [lia|]. simpl. rewrite orb_false_r.
  destruct (Z.leb_spec 9 n); [|done]. rewrite (testbit_mod_low t 12); [by rewrite andb_false_r|lia|done].
Qed.

Lemma table_va_aligned v d : table_va v d mod 4096 = 0.
Proof. induction d; [done|]. by apply subtable_aligned. Qed.

(** An offset inside a page does not change the indices. *)
Lemma index_offset L a o : a mod 4096 = 0 -> 0 <= o < 4096 -> index L (a + o) = index L a.
Proof.
  intros [q ->]%Z.mod_divide Ho; [|done]. unfold index.
  rewrite <- !(Z.shiftr_shiftr _ 12) by lia. do 2 f_equal.
  rewrite !Z.shiftr_div_pow2 by lia. change (2 ^ 12) with 4096.
  rewrite Z.div_add_l, Z.div_mul by done. rewrite (Z.div_small o) by done. lia.
Qed.

(** In the window the upper indices are 511, the lower ones those of [v]. *)
Lemma index_table_va v d L :
  (L <= 3)%nat ->
  index L (table_va v d) = if decide (d <= L)%nat then 511 else index (3 - (d - L - 1)) v.
Proof.
  revert L. induction d as [|d IH]; intros L HL; cbn [table_va].
  - rewrite decide_True by lia. do 4 (destruct L as [|L]; [by vm_compute|]). lia.
  - destruct L as [|L].
    + rewrite index_subtable_0 by (apply table_va_aligned || apply index_range).
      rewrite decide_False by lia. do 2 f_equal; lia.
    + rewrite index_subtable_S by (lia || apply index_range). rewrite IH by lia.
      destruct (decide (d <= L)%nat); [by rewrite decide_True by lia|].
      rewrite decide_False by lia. do 2 f_equal; lia.
Qed.

Lemma table_va_range v d : 0 <= table_va v d < W64.
Proof.
  destruct d; [done|]. apply in_u64_lor; apply in_u64_bits;
    try (unfold shl64; apply Z.land_nonneg; by right);
    intros n Hn; unfold shl64; rewrite Z.land_spec, (Z.testbit_ones_nonneg 64) by lia;
    (destruct (Z.ltb_spec n 64); [lia|apply andb_false_r]).
Qed.

(** The recursive slot is in place. *)
Definition window_ok (m : words) (root : Z) : Prop :=
  root mod 4096 = 0 /\ pt_next (rd m (root + 8 * 511)) = Some root.

Lemma tree_window m root : tree_ok m root -> window_ok m root.
Proof. intros [[Hr _] Hs _]. by split. Qed.

(** Reading or writing entry [j] of the table through the window reaches the
    entry in the frame of the table. *)
Lemma window_translate m root v d t j :
  window_ok m root -> (d <= 3)%nat -> descend m root v d = Some t -> 0 <= j < 512 ->
  translate m root (table_va v d + 8 * j) = Some (t + 8 * j).
Proof.
  intros [Hr Hs] Hd E Hj. apply pt_next_Some in Hs as (Sp & Sh & Sf).
  set (a := table_va v d + 8 * j).
  assert (Hi : forall L, (L <= 3)%nat ->
            index L a = if decide (d <= L)%nat then 511 else index (3 - (d - L - 1)) v).
  { intros L HL. unfold a. rewrite index_offset by (apply table_va_aligned || lia).
    by apply index_table_va. }
  assert (Ho : a mod 4096 = 8 * j).
  { unfold a. pose proof (table_va_aligned v d) as [q ->]%Z.mod_divide; [|done].
    rewrite Z.add_comm, Z.mod_add by done. apply Z.mod_small. lia. }
  assert (Hleaf : exists e, walk m root a = Some (0%nat, e) /\ frame_of e = t).
  2: { destruct Hleaf as (e & He & <-). unfold translate. rewrite He.
       change (2 ^ page_bits 0) with 4096. by rewrite Ho. }
  (* below the recursive slot the walk follows the tables of [v] *)
  assert (Hdown : forall L k tk, (S (L + k) = d)%nat -> descend m root v k = Some tk ->
            exists e, walk_from m L tk a = Some (0%nat, e) /\ frame_of e = t).
  { induction L as [|L IH]; intros k tk Hk Ek; cbn [walk_from];
      rewrite (Hi _) by lia; rewrite decide_False by lia.
    - replace (d - 0 - 1)%nat with k by lia. replace d with (S k) in E by lia.
      cbn [descend] in E. rewrite Ek in E. apply pt_next_Some in E as (P1 & P2 & P3).
      rewrite P1. eauto.
    - replace (d - S L - 1)%nat with k by lia.
      destruct (descend_le _ _ _ _ (S k) _ E ltac:(lia)) as [t' E'].
      pose proof E' as E2. cbn [descend] in E2. rewrite Ek in E2.
      apply pt_next_Some in E2 as (P1 & P2 & P3). rewrite P1, P2.
      destruct (IH (S k) t' ltac:(lia) E') as (e & He & Hf). rewrite <- P3. eauto. }
  (* the upper indices loop in the recursive slot *)
  assert (Hloop : forall L, (L <= 3)%nat -> (d <= S L)%nat ->
            exists e, walk_from m L root a = Some (0%nat, e) /\ frame_of e = t).
  { induction L as [|L IH]; intros HL HdL.
    - destruct d as [|[|]]; [|by apply (Hdown 0%nat 0%nat root)|lia].
      cbn [walk_from]. rewrite Hi by lia. rewrite decide_True, Sp by lia.
      cbn [descend] in E. simplify_eq. eauto.
    - destruct (decide (d = S (S L))) as [->|]; [by apply (Hdown (S L) 0%nat root); [lia|]|].
      cbn [walk_from]. rewrite Hi by lia. rewrite decide_True, Sp, Sh by lia.
      rewrite <- Sf. apply IH; lia. }
  apply Hloop; lia.
Qed.

(** ** Addresses of the lower half *)

Definition lower (v : Z) : Prop := 0 <= v < 2 ^ 47.

Lemma lower_user v : lower v -> user v.
Proof.
  unfold lower, user, index. intros Hv. rewrite Z.shiftr_div_pow2 by lia.
  assert (v / 2 ^ (12 + 9 * Z.of_nat 3) < 256) by (apply Z.div_lt_upper_bound; [done|]; lia).
  assert (0 <= v / 2 ^ (12 + 9 * Z.of_nat 3)) by (apply Z.div_pos; lia).
  rewrite Z.mod_small by lia. lia.
Qed.

(** In the lower half, taking the same way down to level [s] is lying in the
    same page of that level. *)
Lemma same_page s v v' :
  (s <= 3)%nat -> lower v -> lower v' ->
  same (3 - s) v v' <-> v / 2 ^ page_bits s = v' / 2 ^ page_bits s.
Proof.
  intros Hs Hv Hv'. assert (Hb : 0 <= page_bits s) by (unfold page_bits; lia).
  assert (Hhigh : forall w n, lower w -> 47 <= n -> Z.testbit w n = false)
    by (intros w n Hw Hn; by apply (testbit_small w 47)).
  rewrite <- !Z.shiftr_div_pow2 by done. split.
  - intros Hsame. apply Z.bits_inj'. intros n Hn. rewrite !Z.shiftr_spec by done.
    destruct (Z.lt_ge_cases (n + page_bits s) 48) as [Hlt|]; [|by rewrite !Hhigh by (done || lia)].
    unfold page_bits in *. set (q := n + (12 + 9 * Z.of_nat s)) in *.
    set (L := Z.to_nat ((q - 12) / 9)). pose proof (Z.div_mod (q - 12) 9 ltac:(lia)) as Hq.
    pose proof (Z.mod_pos_bound (q - 12) 9 ltac:(lia)) as Hm.
    assert (HL : (s <= L <= 3)%nat) by (unfold L, q in *; lia).
    pose proof (Hsame (3 - L)%nat ltac:(lia)) as E. replace (3 - (3 - L))%nat with L in E by lia.
    apply (f_equal (fun z => Z.testbit z ((q - 12) mod 9))) in E.
    rewrite !testbit_index in E by lia. unfold page_bits in E.
    replace ((q - 12) mod 9 + (12 + 9 * Z.of_nat L)) with q in E by (unfold L; lia).
    by rewrite (proj2 (Z.ltb_lt _ _)) in E by lia.
  - intros E k Hk. apply Z.bits_inj'. intros n Hn. rewrite !testbit_index by done.
    f_equal. apply (f_equal (fun z => Z.testbit z (n + page_bits (3 - k) - page_bits s))) in E.
    unfold page_bits in *. rewrite !Z.shiftr_spec in E by lia.
    by replace (n + (12 + 9 * Z.of_nat (3 - k)) - (12 + 9 * Z.of_nat s) + (12 + 9 * Z.of_nat s))
      with (n + (12 + 9 * Z.of_nat (3 - k))) in E by lia.
Qed.

(** ** Leaves *)

(** Where the leaf entry of a translated address is stored. *)
Lemma walk_inv m root v l e :
  walk m root v = Some (l, e) ->
  (l <= 2)%nat /\ is_present e = true /\ (l = 0%nat \/ is_huge e = true) /\
  (forall k t, (k < 3 - l)%nat -> descend m root v k = Some t ->
     is_huge (rd m (t + 8 * index (3 - k) v)) = false) /\
  exists t, descend m root v (3 - l) = Some t /\ rd m (t + 8 * index l v) = e.
Proof.
  intros Hw.
  assert (G : forall L t, (L <= 3)%nat -> descend m root v (3 - L) = Some t ->
            (forall k t', (k < 3 - L)%nat -> descend m root v k = Some t' ->
               is_huge (rd m (t' + 8 * index (3 - k) v)) = false) ->
            walk_from m L t v = Some (l, e) ->
            (l <= 2)%nat /\ is_present e = true /\ (l = 0%nat \/ is_huge e = true) /\
            (forall k t', (k < 3 - l)%nat -> descend m root v k = Some t' ->
               is_huge (rd m (t' + 8 * index (3 - k) v)) = false) /\
            exists t', descend m root v (3 - l) = Some t' /\ rd m (t' + 8 * index l v) = e).
  { induction L as [|L IH]; intros t HL E Hh Hf; cbn [walk_from] in Hf; cbv zeta in Hf.
    - destruct (is_present (rd m (t + 8 * index 0 v))) eqn:Hp; [|done].
      simplify_eq. split_and!; [lia|done|auto|done|]. by exists t.
    - destruct (is_present (rd m (t + 8 * index (S L) v))) eqn:Hp; [|done].
      destruct (is_huge (rd m (t + 8 * index (S L) v))) eqn:Hg.
      + case_decide; [done|]. simplify_eq. split_and!; [lia|done|auto|done|]. by exists t.
      + apply (IH (frame_of (rd m (t + 8 * index (S L) v)))); [lia| | |done].
        * replace (3 - L)%nat with (S (3 - S L)) by lia. cbn [descend]. rewrite E.
          replace (3 - (3 - S L))%nat with (S L) by lia. unfold pt_next. by rewrite Hp, Hg.
        * intros k t' Hk E'. destruct (decide (k = (3 - S L)%nat)) as [->|]; [|apply Hh; [lia|done]].
          replace (3 - (3 - S L))%nat with (S L) by lia. congruence. }
  apply (G 3%nat root); [lia|done|lia|exact Hw].
Qed.

(** Addresses of the same page have the same leaf entry. *)
Lemma walk_same m root v v' l e :
  same (3 - l) v v' -> walk m root v = Some (l, e) -> walk m root v' = Some (l, e).
Proof.
  intros Hs Hw. destruct (walk_inv _ _ _ _ _ Hw) as (Hl & Hp & Hz & _ & t & Et & Er).
  assert (Et' : descend m root v' (3 - l) = Some t).
  { rewrite <- Et. apply descend_prefix. intros k Hk. symmetry. apply Hs. lia. }
  rewrite (walk_descend m root v' (3 - l) t) by (done || lia).
  pose proof (Hs (3 - l)%nat (le_n _)) as Hi. replace (3 - (3 - l))%nat with l in * by lia.
  destruct l as [|l]; cbn [walk_from]; cbv zeta; rewrite <- Hi, Er, Hp; [done|].
  destruct Hz as [|Hz]; [done|]. rewrite Hz. rewrite decide_False by lia. done.
Qed.
