(* ===== verification/Paging.v ===== *)
(** * Paging: src/arch/x86_64/mm/paging.rs

    The code reaches every table through the recursive window; the model reads
    and writes the words behind the window with the walk of the processor
    ([Mmu.translate]). A fault inside these accesses ends in
    [page_fault_handler], which aborts. *)

From stdpp Require Import base numbers list gmap.
From Stdlib Require Import ZArith Lia.
From S2P Require Import Prelude Pte Mmu.

#[local] Open Scope Z_scope.

(** ** The interface to the physical memory manager

    [physicalmem::allocate], as paging relies on it: the frames it hands out
    are aligned, were free and are free no more. *)

Class FrameSource (F : Type) := frame_alloc : Z -> M F (result Z unit).

Class FrameLaws (F : Type) `{FrameSource F} := {
  frames_ok : F -> Prop;
  frames_free : F -> Z -> Prop;
  frame_alloc_law : forall f f' p,
    frames_ok f -> frame_alloc 4096 f = Done (Ok p, f') ->
    frames_ok f' /\ p mod 4096 = 0 /\ 0 <= p /\
    (forall x, p <= x < p + 4096 -> frames_free f x) /\
    (forall x, frames_free f' x <-> frames_free f x /\ ~ p <= x < p + 4096)
}.

(** [n] single frames can be allocated in a row. *)
Fixpoint supply {F} `{FrameSource F} (n : nat) (f : F) : Prop :=
  match n with
  | O => True
  | S n' => exists p f', frame_alloc 4096 f = Done (Ok p, f') /\ supply n' f'
  end.

(** [f'] is [f] after [n] single frames were allocated, and after at most [n]. *)
Fixpoint taken {F} `{FrameSource F} (n : nat) (f f' : F) : Prop :=
  match n with
  | O => f' = f
  | S n' => exists p f1, frame_alloc 4096 f = Done (Ok p, f1) /\ taken n' f1 f'
  end.

Definition takes_at_most {F} `{FrameSource F} (n : nat) (f f' : F) : Prop := exists j, (j <= n)%nat /\ taken j f f'.

Lemma taken_trans {F} `{FrameSource F} j k (f1 f2 f3 : F) : taken j f1 f2 -> taken k f2 f3 -> taken (j + k) f1 f3.
Proof.
  revert f1. induction j as [|j IH]; intros f1; [by intros ->|]. intros (p & f & E & Ht) Hk. exists p, f. auto.
Qed.

Lemma takes_none {F} `{FrameSource F} n (f : F) : takes_at_most n f f.
Proof. exists 0%nat. split; [lia|done]. Qed.

Lemma takes_trans {F} `{FrameSource F} m n (f1 f2 f3 : F) :
  takes_at_most m f1 f2 -> takes_at_most n f2 f3 -> takes_at_most (m + n) f1 f3.
Proof. intros (j & Hj & T1) (k & Hk & T2). exists (j + k)%nat. split; [lia|by eapply taken_trans]. Qed.

Lemma takes_le {F} `{FrameSource F} m n (f f' : F) : (m <= n)%nat -> takes_at_most m f f' -> takes_at_most n f f'.
Proof. intros Hm (j & Hj & T). exists j. split; [lia|done]. Qed.

(** ** State *)

Inductive TlbEvent := Invlpg (virtual_address : Z) | IpiTlbFlush.

#[export] Instance TlbEvent_eq_dec : EqDecision TlbEvent.
Proof. solve_decision. Defined.

(** The table words, the invalidations issued so far (last first) and the
    physical memory manager. *)
Record Mmu (F : Type) := mkMmu { mem : words; tlb : list TlbEvent; frames : F }.
Arguments mkMmu {F} _ _ _.
Arguments mem {F} _.
Arguments tlb {F} _.
Arguments frames {F} _.

Section paging.

Context {F : Type} `{FrameSource F}.

(** The frame of the PML4 (CR3), [processor::get_physical_address_bits()],
    [processor::supports_1gib_pages()] and [mm::kernel_start_address()]. *)
Context (root phys_bits : Z) (supports_1gib_pages : bool) (kernel_start_address : Z).

Definition read_word (a : Z) : M (Mmu F) Z := fun s =>
  match translate (mem s) root a with
  | Some p => Done (rd (mem s) p, s)
  | None => Panic
  end.

Definition write_word (a x : Z) : M (Mmu F) unit := fun s =>
  match translate (mem s) root a with
  | Some p => Done (tt, mkMmu (wr p x (mem s)) (tlb s) (frames s))
  | None => Panic
  end.

Definition tlb_event (e : TlbEvent) : M (Mmu F) unit :=
  modify (fun s => mkMmu (mem s) (e :: tlb s) (frames s)).

Definition physicalmem_allocate (size : Z) : M (Mmu F) (result Z unit) := fun s =>
  let? (r, f) := frame_alloc size (frames s) in Done (r, mkMmu (mem s) (tlb s) f).

(** ** [Page<S>]: the virtual address of a page of size [S] *)

Definition is_valid_address (virtual_address : Z) : bool :=
  (virtual_address <? 0x800000000000) || (0xFFFF800000000000 <=? virtual_address).

Definition including_address (S : PageSize) (virtual_address : Z) : outcome Z :=
  let? _ := oassert (is_valid_address virtual_address) in
  let? _ := if SIZE S =? 1024 * 1024 * 1024 then oassert supports_1gib_pages else Done tt in
  align_down virtual_address (SIZE S).

Definition flush_from_tlb (page : Z) : M (Mmu F) unit := tlb_event (Invlpg page).

Definition PAGE_MAP_MASK : Z := 0x1FF.

Definition table_index (L : nat) (S : PageSize) (page : Z) : outcome Z :=
  let? _ := oassert (MAP_LEVEL S <=? L)%nat in
  Done (Z.land (Z.shiftr (Z.shiftr page PAGE_BITS) (Z.of_nat L * PAGE_MAP_BITS)) PAGE_MAP_MASK).

(** [self.entries[index]] of the table at a virtual address. *)
Definition entry_address (table i : Z) : Z := table + 8 * i.

(** [PageTable<L>::subtable] *)
Definition subtable (L : nat) (S : PageSize) (table page : Z) : outcome Z :=
  let? _ := oassert (MAP_LEVEL S <? L)%nat in
  let? i := table_index L S page in
  Done (subtable_address table i).

(** ** [PageTableMethods]

    Level 0 is the default implementation, used for [PT] only; the other levels
    are the specialised one for tables with subtables. *)

Fixpoint get_page_table_entry_in (L : nat) (S : PageSize) (table page : Z) : M (Mmu F) (option Z) :=
  match L with
  | O =>
      massert (0 =? MAP_LEVEL S)%nat ;;;
      let! i := lift (table_index 0 S page) in
      let! e := read_word (entry_address table i) in
      if is_present e then ret (Some e) else ret None
  | S l =>
      massert (MAP_LEVEL S <=? L)%nat ;;;
      let! i := lift (table_index L S page) in
      let! e := read_word (entry_address table i) in
      if is_present e then
        if (MAP_LEVEL S <? L)%nat then
          let! sub := lift (subtable L S table page) in
          get_page_table_entry_in l S sub page
        else ret (Some e)
      else ret None
  end.

(** The updates of an existing entry share their way down; [f] is the new word. *)
Fixpoint update_entry_in (L : nat) (S : PageSize) (f : Z -> Z) (table page : Z) : M (Mmu F) unit :=
  match L with
  | O =>
      massert (0 =? MAP_LEVEL S)%nat ;;;
      let! i := lift (table_index 0 S page) in
      let! e := read_word (entry_address table i) in
      if is_present e then
        write_word (entry_address table i) (f e) ;;; flush_from_tlb page
      else panic
  | S l =>
      massert (MAP_LEVEL S <=? L)%nat ;;;
      let! i := lift (table_index L S page) in
      let! e := read_word (entry_address table i) in
      if is_present e then
        if (MAP_LEVEL S <? L)%nat then
          let! sub := lift (subtable L S table page) in
          update_entry_in l S f sub page
        else
          write_word (entry_address table i) (f e) ;;; flush_from_tlb page
      else panic
  end.

Definition set_page_table_entry_in (L : nat) (S : PageSize) (table page entry : Z) : M (Mmu F) unit :=
  update_entry_in L S (fun _ => entry) table page.

Definition set_pkey_on_page_table_entry_in (L : nat) (S : PageSize) (table page key : Z) : M (Mmu F) unit :=
  update_entry_in L S (fun e => with_pkey e key) table page.

Definition map_page_in_this_table (L : nat) (S : PageSize) (table page physical_address flags : Z)
    : M (Mmu F) bool :=
  massert (L =? MAP_LEVEL S)%nat ;;;
  let! i := lift (table_index L S page) in
  let! old := read_word (entry_address table i) in
  let flush := is_present old in
  let! e := lift (set phys_bits physical_address (Z.lor (Z.lor DIRTY (MAP_EXTRA_FLAG S)) flags)) in
  write_word (entry_address table i) e ;;;
  (if flush then flush_from_tlb page else ret tt) ;;;
  ret flush.

(** Marks the first [n] entries of a table as unused. *)
Fixpoint zero_entries (table : Z) (n : nat) : M (Mmu F) unit :=
  match n with
  | O => ret tt
  | S n' => zero_entries table n' ;;; write_word (entry_address table (Z.of_nat n')) 0
  end.

Definition new_subtable (L : nat) (S : PageSize) (table page i : Z) : M (Mmu F) unit :=
  let! r := physicalmem_allocate (SIZE BasePageSize) in
  let! physical_address := lift (unwrap_res r) in
  let! e := lift (set phys_bits physical_address WRITABLE) in
  write_word (entry_address table i) e ;;;
  let! sub := lift (subtable L S table page) in
  zero_entries sub 512.

Fixpoint map_page (L : nat) (S : PageSize) (table page physical_address flags : Z) : M (Mmu F) bool :=
  match L with
  | O => map_page_in_this_table 0 S table page physical_address flags
  | S l =>
      massert (MAP_LEVEL S <=? L)%nat ;;;
      if (MAP_LEVEL S <? L)%nat then
        let! i := lift (table_index L S page) in
        let! e := read_word (entry_address table i) in
        (if is_present e then ret tt else new_subtable L S table page i) ;;;
        let! sub := lift (subtable L S table page) in
        map_page l S sub page physical_address flags
      else map_page_in_this_table L S table page physical_address flags
  end.

(** [map_pages]: the loop over the pages from [current] to [last]. *)
Fixpoint map_pages (fuel : nat) (S : PageSize) (current last physical_address flags : Z)
    (send_ipi : bool) : M (Mmu F) unit :=
  if current <=? last then
    match fuel with
    | O => out_of_fuel
    | S fuel' =>
        let! next := lift (add64 current (SIZE S)) in
        let! flush := map_page 3 S PML4_ADDRESS current physical_address flags in
        let! next_physical := lift (add64 physical_address (SIZE S)) in
        map_pages fuel' S next last next_physical flags (send_ipi || flush)
    end
  else if send_ipi then tlb_event IpiTlbFlush else ret tt.

(** The number of pages of the range bounds the loop. *)
Definition range_fuel (S : PageSize) (first last : Z) : nat := Z.to_nat ((last - first) / SIZE S + 1).

(** ** The functions of the module *)

Definition get_page_range (S : PageSize) (virtual_address count : Z) : outcome (Z * Z) :=
  let? first_page := including_address S virtual_address in
  let? n := sub64 count 1 in
  let? bytes := mul64 n (SIZE S) in
  let? last_address := add64 virtual_address bytes in
  let? last_page := including_address S last_address in
  let? _ := oassert (first_page <=? last_page) in
  Done (first_page, last_page).

Definition map (S : PageSize) (virtual_address physical_address count flags : Z) : M (Mmu F) unit :=
  let! (first, last) := lift (get_page_range S virtual_address count) in
  map_pages (range_fuel S first last) S first last physical_address flags false.

Definition get_page_table_entry (S : PageSize) (virtual_address : Z) : M (Mmu F) (option Z) :=
  let! page := lift (including_address S virtual_address) in
  get_page_table_entry_in 3 S PML4_ADDRESS page.

Definition set_page_table_entry (S : PageSize) (virtual_address entry : Z) : M (Mmu F) unit :=
  let! page := lift (including_address S virtual_address) in
  set_page_table_entry_in 3 S PML4_ADDRESS page entry.

(** [for i in 0..count]; the loop has done the first [n] rounds of [count]. *)
Fixpoint set_pkey_loop (S : PageSize) (virtual_address key : Z) (n : nat) : M (Mmu F) unit :=
  match n with
  | O => ret tt
  | S n' =>
      set_pkey_loop S virtual_address key n' ;;;
      let! off := lift (mul64 (SIZE S) (Z.of_nat n')) in
      let! a := lift (add64 virtual_address off) in
      let! page := lift (including_address S a) in
      set_pkey_on_page_table_entry_in 3 S PML4_ADDRESS page key
  end.

Definition set_pkey_on_page_table_entry (S : PageSize) (virtual_address count key : Z) : M (Mmu F) unit :=
  set_pkey_loop S virtual_address key (Z.to_nat count).

Definition get_physical_address (S : PageSize) (virtual_address : Z) : M (Mmu F) Z :=
  let! page := lift (including_address S virtual_address) in
  let! e := get_page_table_entry_in 3 S PML4_ADDRESS page in
  let! e := lift (unwrap e) in
  ret (Z.lor (address e) (Z.land virtual_address (SIZE S - 1))).

Definition get_existing_flags (S : PageSize) (virtual_address : Z) : M (Mmu F) Z :=
  let! r := get_page_table_entry S virtual_address in
  match r with
  | Some e => ret (get_flags e)
  | None => panic
  end.

Definition set_pkey (S : PageSize) (virtual_address count key : Z) : M (Mmu F) Z :=
  let! existing := get_existing_flags S virtual_address in
  let pkey_flag := Z.lor (shl64 (Z.land key 15) 59) existing in
  let flags := insert USER_ACCESSIBLE (insert pkey_flag 0) in
  let! physical_address := get_physical_address S virtual_address in
  map S virtual_address physical_address count flags ;;;
  ret 0.

(** The table addresses of [virtual_to_physical] and its loop over the levels 2, 1, 0. *)
Definition SELF (i : nat) : Z :=
  match i with
  | O => 0xFFFFFF8000000000
  | 1%nat => 0xFFFFFFFFC0000000
  | 2%nat => 0xFFFFFFFFFFE00000
  | _ => 0xFFFFFFFFFFFFF000
  end.

(** [(!0usize) << page_bits] without the execute-disable bit. *)
Definition page_mask (bits : Z) : Z := Z.land (shl64 (Z.ones 64) bits) (not64 EXECUTE_DISABLE).

Fixpoint virtual_to_physical_loop (i : nat) (page_bits virtual_address : Z) : M (Mmu F) Z :=
  let! page_bits := lift (sub64 page_bits PAGE_MAP_BITS) in
  let vpn := Z.shiftr virtual_address page_bits in
  let! entry := read_word ((SELF i + 8 * vpn) mod W64) in
  let off := Z.land virtual_address (not64 (page_mask page_bits)) in
  let phys := Z.land entry (Z.land (page_mask page_bits) (not64 (shl64 0xF 59))) in
  match i with
  | O => ret (Z.lor off phys)
  | S i' =>
      if is_huge entry then ret (Z.lor off phys)
      else virtual_to_physical_loop i' page_bits virtual_address
  end.

Definition virtual_to_physical (virtual_address : Z) : M (Mmu F) Z :=
  virtual_to_physical_loop 2 39 virtual_address.

(** [SAFE_MEM_REGION] of src/mm/mod.rs. *)
Definition SAFE_MEM_REGION : Z := 1.

Definition identity_map (start_address end_address : Z) : M (Mmu F) unit :=
  let! first_page := lift (including_address BasePageSize start_address) in
  let! last_page := lift (including_address BasePageSize end_address) in
  massert (last_page <? kernel_start_address) ;;;
  massert (first_page <=? last_page) ;;;
  let flags := pkey SAFE_MEM_REGION (execute_disable (read_only (normal 0))) in
  map_pages (range_fuel BasePageSize first_page last_page) BasePageSize first_page last_page
    first_page flags false.

End paging.

(** ** Page sizes and levels *)

Lemma MAP_LEVEL_le S : (MAP_LEVEL S <= 2)%nat.
Proof. destruct S; simpl; lia. Qed.

Lemma SIZE_page_bits S : SIZE S = 2 ^ page_bits (MAP_LEVEL S).
Proof. by destruct S. Qed.

Lemma SIZE_pos S : 4096 <= SIZE S.
Proof. destruct S; simpl; lia. Qed.

Lemma same_interval S v x :
  lower v -> lower x -> v mod SIZE S = 0 -> same (3 - MAP_LEVEL S) v x <-> v <= x < v + SIZE S.
Proof.
  intros Hv Hx Hm. pose proof (MAP_LEVEL_le S). pose proof (SIZE_pos S).
  rewrite same_page by (done || lia). rewrite <- SIZE_page_bits.
  pose proof (Z.div_mod v (SIZE S) ltac:(lia)). pose proof (Z.div_mod x (SIZE S) ltac:(lia)).
  pose proof (Z.mod_pos_bound x (SIZE S) ltac:(lia)). split; intros; nia.
Qed.

Lemma mod_add_page S va i : (va + i * SIZE S) mod SIZE S = va mod SIZE S.
Proof. pose proof (SIZE_pos S). apply Z.mod_add. lia. Qed.

Lemma base_aligned S va : (va - va mod SIZE S) mod SIZE S = 0.
Proof.
  pose proof (SIZE_pos S). rewrite Zminus_mod, Z.mod_mod, Z.sub_diag by lia. apply Z.mod_0_l. lia.
Qed.

(** ** Reaching the tables through the window *)

Section window.

Context {F : Type} `{FrameSource F}.
Context (root phys_bits : Z) (supports_1gib_pages : bool) (kernel_start_address : Z).

Implicit Types (s : Mmu F).

Lemma table_index_done L S page :
  (MAP_LEVEL S <= L)%nat -> table_index L S page = Done (index L page).
Proof.
  intros HL. unfold table_index. rewrite (proj2 (Nat.leb_le _ _) HL). cbn [oassert obind]. f_equal.
  unfold PAGE_BITS, PAGE_MAP_BITS, PAGE_MAP_MASK. rewrite Z.shiftr_shiftr by lia.
  change 0x1FF with (Z.ones 9). rewrite Z.land_ones by lia. unfold index. do 2 f_equal. lia.
Qed.

Lemma subtable_done v S d :
  (d <= 3)%nat -> (MAP_LEVEL S < 3 - d)%nat ->
  subtable (3 - d) S (table_va v d) v = Done (table_va v (Datatypes.S d)).
Proof.
  intros Hd HL. unfold subtable. rewrite (proj2 (Nat.ltb_lt _ _) HL). cbn [oassert obind].
  by rewrite table_index_done by lia.
Qed.

Lemma read_table s v d t j :
  window_ok (mem s) root -> (d <= 3)%nat -> descend (mem s) root v d = Some t -> 0 <= j < 512 ->
  read_word root (entry_address (table_va v d) j) s = Done (rd (mem s) (t + 8 * j), s).
Proof.
  intros Hok Hd E Hj. unfold read_word, entry_address. by erewrite window_translate.
Qed.

Lemma write_table s v d t j x :
  window_ok (mem s) root -> (d <= 3)%nat -> descend (mem s) root v d = Some t -> 0 <= j < 512 ->
  write_word root (entry_address (table_va v d) j) x s =
    Done (tt, mkMmu (wr (t + 8 * j) x (mem s)) (tlb s) (frames s)).
Proof.
  intros Hok Hd E Hj. unfold write_word, entry_address. by erewrite window_translate.
Qed.

(** The entry of page [v] in the table of the page's level. *)
Definition entry_at (m : words) (S : PageSize) (v : Z) : option Z :=
  match descend m root v (3 - MAP_LEVEL S) with
  | Some t => let e := rd m (t + 8 * index (MAP_LEVEL S) v) in if is_present e then Some e else None
  | None => None
  end.

(** No larger page is mapped on the way to [v]. *)
Definition flat (m : words) (S : PageSize) (v : Z) : Prop :=
  forall k t, (k < 3 - MAP_LEVEL S)%nat -> descend m root v k = Some t ->
    is_present (rd m (t + 8 * index (3 - k) v)) = true ->
    is_huge (rd m (t + 8 * index (3 - k) v)) = false.

Lemma flat_next m S v d t :
  flat m S v -> (d < 3 - MAP_LEVEL S)%nat -> descend m root v d = Some t ->
  descend m root v (Datatypes.S d) =
    let e := rd m (t + 8 * index (3 - d) v) in if is_present e then Some (frame_of e) else None.
Proof.
  intros Hf Hd E. cbn [descend]. rewrite E. specialize (Hf d t Hd E). unfold pt_next.
  destruct (is_present _); [|done]. by rewrite Hf.
Qed.

Lemma get_page_table_entry_in_spec s S v d t :
  window_ok (mem s) root -> (d <= 3 - MAP_LEVEL S)%nat -> descend (mem s) root v d = Some t ->
  flat (mem s) S v ->
  get_page_table_entry_in root (3 - d) S (table_va v d) v s = Done (entry_at (mem s) S v, s).
Proof.
  intros Hok Hd E Hf. pose proof (MAP_LEVEL_le S) as HS.
  remember (3 - d)%nat as L eqn:EL. revert d t EL Hd E.
  induction L as [|l IH]; intros d t EL Hd E; cbn [get_page_table_entry_in].
  - assert (MAP_LEVEL S = 0)%nat as Hs by lia. rewrite Hs. rewrite bind_massert by done.
    rewrite (bind_lift_done _ _ _ _ (table_index_done 0 S v ltac:(lia))).
    rewrite (bind_done _ _ _ _ _ (read_table s v d t (index 0 v) Hok ltac:(lia) E (index_range _ _))).
    unfold entry_at. rewrite Hs. replace (3 - 0)%nat with d by lia. rewrite E. by destruct (is_present _).
  - rewrite bind_massert by (apply Nat.leb_le; lia).
    rewrite (bind_lift_done _ _ _ _ (table_index_done (Datatypes.S l) S v ltac:(lia))).
    rewrite (bind_done _ _ _ _ _ (read_table s v d t (index (Datatypes.S l) v) Hok ltac:(lia) E (index_range _ _))).
    destruct (Nat.ltb_spec (MAP_LEVEL S) (Datatypes.S l)) as [Hlt|Hge].
    + pose proof (flat_next (mem s) S v d t Hf ltac:(lia) E) as Hn. cbv zeta in Hn. rewrite <- EL in Hn.
      destruct (is_present (rd (mem s) (t + 8 * index (Datatypes.S l) v))) eqn:Hp.
      * pose proof (subtable_done v S d ltac:(lia) ltac:(lia)) as Hsub. rewrite <- EL in Hsub.
        rewrite (bind_lift_done _ _ _ _ Hsub). eapply IH; [lia|lia|exact Hn].
      * unfold entry_at. destruct (descend (mem s) root v (3 - MAP_LEVEL S)) as [t'|] eqn:E'; [|done].
        destruct (descend_le _ _ _ _ (Datatypes.S d) _ E' ltac:(lia)) as [t2 E2]. congruence.
    + unfold entry_at. replace (3 - MAP_LEVEL S)%nat with d by lia. rewrite E.
      replace (MAP_LEVEL S) with (Datatypes.S l) by lia. by destruct (is_present _).
Qed.

(** The word of the page's entry is replaced and the page is flushed. *)
Lemma update_entry_in_spec s S f v d t ts e :
  window_ok (mem s) root -> (d <= 3 - MAP_LEVEL S)%nat -> descend (mem s) root v d = Some t ->
  flat (mem s) S v -> descend (mem s) root v (3 - MAP_LEVEL S) = Some ts -> entry_at (mem s) S v = Some e ->
  update_entry_in root (3 - d) S f (table_va v d) v s =
    Done (tt, mkMmu (wr (ts + 8 * index (MAP_LEVEL S) v) (f e) (mem s)) (Invlpg v :: tlb s) (frames s)).
Proof.
  intros Hok Hd E Hf Ets Ee. pose proof (MAP_LEVEL_le S) as HS.
  remember (3 - d)%nat as L eqn:EL. revert d t EL Hd E.
  unfold entry_at in Ee. rewrite Ets in Ee.
  induction L as [|l IH]; intros d t EL Hd E; cbn [update_entry_in].
  - assert (MAP_LEVEL S = 0)%nat as Hs by lia. rewrite Hs in *. rewrite bind_massert by done.
    rewrite (bind_lift_done _ _ _ _ (table_index_done 0 S v ltac:(lia))).
    rewrite (bind_done _ _ _ _ _ (read_table s v d t (index 0 v) Hok ltac:(lia) E (index_range _ _))).
    replace (3 - 0)%nat with d in Ets by lia. assert (ts = t) as -> by congruence.
    destruct (is_present _) eqn:Hp; [injection Ee as <-|done].
    by rewrite (bind_done _ _ _ _ _ (write_table s v d t (index 0 v) _ Hok ltac:(lia) E (index_range _ _))).
  - rewrite bind_massert by (apply Nat.leb_le; lia).
    rewrite (bind_lift_done _ _ _ _ (table_index_done (Datatypes.S l) S v ltac:(lia))).
    rewrite (bind_done _ _ _ _ _ (read_table s v d t (index (Datatypes.S l) v) Hok ltac:(lia) E (index_range _ _))).
    destruct (Nat.ltb_spec (MAP_LEVEL S) (Datatypes.S l)) as [Hlt|Hge].
    + pose proof (flat_next (mem s) S v d t Hf ltac:(lia) E) as Hn. cbv zeta in Hn. rewrite <- EL in Hn.
      destruct (is_present (rd (mem s) (t + 8 * index (Datatypes.S l) v))) eqn:Hp.
      * pose proof (subtable_done v S d ltac:(lia) ltac:(lia)) as Hsub. rewrite <- EL in Hsub.
        rewrite (bind_lift_done _ _ _ _ Hsub). eapply IH; [lia|lia|exact Hn].
      * destruct (descend_le _ _ _ _ (Datatypes.S d) _ Ets ltac:(lia)) as [t2 E2]. congruence.
    + replace (3 - MAP_LEVEL S)%nat with d in Ets by lia. assert (ts = t) as -> by congruence.
      replace (MAP_LEVEL S) with (Datatypes.S l) in * by lia.
      destruct (is_present _) eqn:Hp; [injection Ee as <-|done].
      by rewrite (bind_done _ _ _ _ _ (write_table s v d t _ _ Hok ltac:(lia) E (index_range _ _))).
Qed.

(** Zeroing a table that is not on the way to itself. *)
Lemma zero_entries_spec s v d p n :
  window_ok (mem s) root -> (d <= 2)%nat -> descend (mem s) root v (Datatypes.S d) = Some p ->
  (forall k t, (k <= d)%nat -> descend (mem s) root v k = Some t -> t <> p) -> (n <= 512)%nat ->
  exists m, zero_entries root (table_va v (Datatypes.S d)) n s = Done (tt, mkMmu m (tlb s) (frames s)) /\
    (forall j, 0 <= j < Z.of_nat n -> rd m (p + 8 * j) = 0) /\
    (forall a, ~ p <= a < p + 4096 -> rd m a = rd (mem s) a).
Proof.
  intros [Hr Hw] Hd E Hne Hn.
  assert (Hp : p mod 4096 = 0) by (by eapply descend_aligned).
  induction n as [|n IH].
  - exists (mem s). split_and!; [by destruct s|intros; lia|done].
  - destruct IH as (m & Em & Hz & Ho); [lia|].
    assert (Hw' : window_ok m root).
    { split; [done|]. rewrite Ho; [done|]. apply entry_outside; try done. by apply (Hne 0%nat); [lia|]. }
    assert (E' : descend m root v (Datatypes.S d) = Some p).
    { rewrite <- E. apply descend_reads. intros k t Hk Ek. apply Ho, entry_outside; [|done| |apply index_range].
      - exact (descend_aligned _ _ _ _ _ Hr Ek).
      - apply (Hne k); [lia|done]. }
    exists (wr (p + 8 * Z.of_nat n) 0 m). cbn [zero_entries]. rewrite (bind_done _ _ _ _ _ Em).
    rewrite (write_table (mkMmu m (tlb s) (frames s)) v (Datatypes.S d) p (Z.of_nat n)) by (done || lia).
    split_and!; [done| |].
    + intros j Hj. rewrite rd_wr. case_decide; [done|]. apply Hz. lia.
    + intros a Ha. rewrite rd_wr, Ho by done. case_decide; [|done]. lia.
Qed.

End window.

(** ** Mapping pages *)

Section mapping.

Context {F : Type} `{FrameLaws F}.
Context (root phys_bits : Z) (supports_1gib_pages : bool) (kernel_start_address : Z).
Hypothesis Hbits : 12 <= phys_bits <= 52.

Implicit Types (s : Mmu F).

(** The memory manager: a well-formed tree whose tables are not free frames. *)
Record mm_ok s : Prop := {
  mk_tree : tree_ok (mem s) root;
  mk_frames : frames_ok (frames s);
  mk_low : forall x, frames_free (frames s) x -> x < 2 ^ phys_bits;
  mk_apart : forall t x, is_table (mem s) root t -> t <= x < t + 4096 -> ~ frames_free (frames s) x
}.

Lemma writable_entry p :
  0 <= p < 2 ^ phys_bits -> p mod 4096 = 0 ->
  set phys_bits p WRITABLE = Done (entry_of p WRITABLE) /\ pt_next (entry_of p WRITABLE) = Some p /\
  is_huge (entry_of p WRITABLE) = false.
Proof.
  intros Hp Ha. assert (Hok : frame_ok phys_bits p WRITABLE) by done.
  assert (Hh : is_huge (entry_of p WRITABLE) = false).
  { rewrite (entry_of_huge phys_bits) by (done || lia). done. }
  split_and!; [apply set_done; [lia|done]| |done].
  unfold pt_next. rewrite entry_of_present, Hh. simpl. f_equal.
  apply (entry_of_frame phys_bits); [lia|done|by apply plain_flags_test|lia|done].
Qed.

(** New tables of [s'] lie in frames that were free in [s], and are free no more. *)
Definition grows (s s' : Mmu F) : Prop :=
  (forall t x, is_table (mem s') root t -> t <= x < t + 4096 ->
     is_table (mem s) root t \/ frames_free (frames s) x) /\
  (forall x, frames_free (frames s') x -> frames_free (frames s) x).

Lemma grows_refl s : grows s s.
Proof. split; auto. Qed.

Lemma grows_trans s1 s2 s3 : grows s1 s2 -> grows s2 s3 -> grows s1 s3.
Proof.
  intros [T1 F1] [T2 F2]. split; [|auto]. intros t x Ht Hx.
  destruct (T2 t x Ht Hx); [by apply T1|right; auto].
Qed.

(** The tables of [s] are tables of [s'], and frames that are free no more are tables. *)
Definition accounted (s s' : Mmu F) : Prop :=
  (forall t, is_table (mem s) root t -> is_table (mem s') root t) /\
  (forall x, frames_free (frames s) x -> frames_free (frames s') x \/
     exists t, is_table (mem s') root t /\ t <= x < t + 4096).

Lemma accounted_refl s : accounted s s.
Proof. split; auto. Qed.

Lemma accounted_trans s1 s2 s3 : accounted s1 s2 -> accounted s2 s3 -> accounted s1 s3.
Proof.
  intros [T1 F1] [T2 F2]. split; [auto|]. intros x Hx.
  destruct (F1 x Hx) as [Hx2|(t & Ht & Hin)]; [auto|right; eauto].
Qed.

(** [s'] translates like [s] everywhere and has at most one table more. *)
Record extends (s s' : Mmu F) : Prop := {
  ex_ok : mm_ok s';
  ex_grows : grows s s';
  ex_tlb : tlb s' = tlb s;
  ex_walk : forall v, user v -> walk (mem s') root v = walk (mem s) root v;
  ex_flat : forall S v, user v -> flat root (mem s) S v -> flat root (mem s') S v;
  ex_kept : accounted s s'
}.

(** The branch of [map_page] that hooks a new table in. *)
Lemma new_subtable_spec s S v d t p f' :
  mm_ok s -> user v -> (d < 3 - MAP_LEVEL S)%nat -> descend (mem s) root v d = Some t ->
  is_present (rd (mem s) (t + 8 * index (3 - d) v)) = false ->
  frame_alloc 4096 (frames s) = Done (Ok p, f') ->
  exists m, new_subtable root phys_bits (3 - d) S (table_va v d) v (index (3 - d) v) s =
              Done (tt, mkMmu m (tlb s) f') /\
    extends s (mkMmu m (tlb s) f') /\ descend m root v (Datatypes.S d) = Some p.
Proof.
  intros [Htree Hfr Hlow Hapart] Hv Hd E Hp Ea.
  destruct (frame_alloc_law _ _ _ Hfr Ea) as (Hfr' & Hpa & Hp0 & Hpf & Hff).
  assert (Hpb : p < 2 ^ phys_bits) by (apply Hlow, Hpf; lia).
  destruct (writable_entry p) as (Eset & Hnext & Hhuge); [done|done|].
  assert (Hfresh : ~ is_table (mem s) root p) by (intros Ht; apply (Hapart p p Ht); [lia|apply Hpf; lia]).
  set (x := entry_of p WRITABLE) in *. set (m1 := wr (t + 8 * index (3 - d) v) x (mem s)).
  assert (Hd3 : (d < 3)%nat) by lia. assert (Hd' : (d <= 3)%nat) by lia.
  assert (E1 : descend m1 root v (Datatypes.S d) = Some p).
  { cbn [descend]. unfold m1. erewrite write_descend_same; try done.
    by rewrite write_rd_same, Hnext. }
  destruct (zero_entries_spec root (mkMmu m1 (tlb s) f') v d p 512) as (m & Ez & Hz & Ho).
  { split; [apply Htree|]. by apply write_to_self. }
  { lia. }
  { done. }
  { intros k tk Hk Ek ->. apply Hfresh. exists v, k. split_and!; [done|lia|].
    simpl in Ek. unfold m1 in Ek. erewrite write_descend_above in Ek; try done; [lia|by left]. }
  { done. }
  exists m. simpl mem in *. simpl tlb in *. simpl frames in *.
  assert (Hz' : forall j, 0 <= j < 512 -> rd m (p + 8 * j) = 0) by (intros; apply Hz; lia).
  split_and!.
  - unfold new_subtable. unfold physicalmem_allocate at 1. unfold bind at 1.
    change (SIZE BasePageSize) with 4096. rewrite Ea. cbn [obind fst snd unwrap_res].
    rewrite (bind_lift_done _ _ _ _ eq_refl). rewrite (bind_lift_done _ _ _ _ Eset).
    rewrite (bind_done _ _ _ _ _ (write_table root (mkMmu (mem s) (tlb s) f') v d t _ x
               (tree_window _ _ Htree) Hd' E (index_range _ _))).
    rewrite (bind_lift_done _ _ _ _ (subtable_done v S d Hd' ltac:(lia))). exact Ez.
  - split; simpl; [split; simpl|split; simpl| | | |split; simpl].
    + eapply new_ok; try done.
    + done.
    + intros y [Hy _]%Hff. by apply Hlow.
    + intros t' y (v' & k & Hv' & Hk & Ek) Hy. rewrite Hff.
      destruct (new_tables (mem s) root v x t d Htree Hv Hd' E m p Hd3 Hnext Hfresh Ho Hz' v' k t')
        as [Ek'|(-> & -> & _)]; try done.
      * intros [Hy' _]. apply (Hapart t' y); [by exists v', k|done|done].
      * by intros [_ ?].
    + intros t' y (v' & k & Hv' & Hk & Ek) Hy.
      destruct (new_tables (mem s) root v x t d Htree Hv Hd' E m p Hd3 Hnext Hfresh Ho Hz' v' k t')
        as [Ek'|(-> & -> & _)]; try done; [left; by exists v', k|right; by apply Hpf].
    + by intros y [Hy _]%Hff.
    + done.
    + intros v' Hv'. by eapply (new_walk (mem s) root v x t d).
    + intros S' v' Hv' Hflat k tk Hk Ek Hpr.
      destruct (new_tables (mem s) root v x t d Htree Hv Hd' E m p Hd3 Hnext Hfresh Ho Hz' v' k tk)
        as [Ek'|(-> & -> & Hs)]; try done; [lia| |].
      * assert (Hrd : rd m (tk + 8 * index (3 - k) v') = rd m1 (tk + 8 * index (3 - k) v')).
        { eapply (new_rd_table (mem s) root v x t d) with (k := k); try done; first [apply index_range|lia]. }
        rewrite Hrd in *. unfold m1 in Hpr |- *. rewrite rd_wr in *. case_decide; [done|].
        by apply (Hflat k tk).
      * by rewrite Hz' in Hpr by apply index_range.
    + intros t' (v' & k & Hv' & Hk & Ek). exists v', k. split_and!; [done..|].
      by eapply (new_tables_kept (mem s) root v x t d).
    + intros y Hy. destruct (decide (p <= y < p + 4096)) as [Hin|]; [right|left; by apply Hff].
      exists p. split; [|done]. exists v, (Datatypes.S d). split_and!; [done|lia|].
      by erewrite (new_descend_same (mem s) root v x t d).
  - assert (descend m root v (Datatypes.S d) = descend m1 root v (Datatypes.S d)) as ->; [|done].
    by erewrite (new_descend_same (mem s) root v x t d).
Qed.

(** The flags and the entry of a mapped page. *)
Definition page_flags (S : PageSize) (flags : Z) : Z := Z.lor (Z.lor DIRTY (MAP_EXTRA_FLAG S)) flags.
Definition page_entry (S : PageSize) (pa flags : Z) : Z := entry_of pa (page_flags S flags).

(** What [map] may be asked for: flags as the code builds them and a frame of the
    page's size within the physical address width. *)
Definition map_args_ok (S : PageSize) (pa flags : Z) : Prop :=
  plain_flags flags /\ contains HUGE_PAGE flags = false /\ 0 <= pa < 2 ^ phys_bits /\ pa mod SIZE S = 0.

Lemma page_flags_plain S flags :
  plain_flags flags -> plain_flags (page_flags S flags) /\ pkey_of (page_flags S flags) = pkey_of flags.
Proof.
  intros [Hu Hp]. assert (Hd : in_u64 (Z.lor DIRTY (MAP_EXTRA_FLAG S))) by (by destruct S).
  assert (Hz : forall n, 12 <= n -> Z.testbit (Z.lor DIRTY (MAP_EXTRA_FLAG S)) n = false).
  { intros n Hn. apply (testbit_small _ 12); [lia|by destruct S|done]. }
  unfold page_flags. split; [split; [by apply in_u64_lor|]|].
  - intros n Hn. rewrite Z.lor_spec, Hz, Hp by lia. done.
  - unfold pkey_of. apply Z.bits_inj'. intros n Hn. rewrite !testbit_mod_pow2 by lia.
    rewrite !Z.shiftr_spec, Z.lor_spec, Hz by lia. done.
Qed.

Lemma page_flags_huge S flags :
  contains HUGE_PAGE flags = false -> contains HUGE_PAGE (page_flags S flags) = negb (MAP_LEVEL S =? 0)%nat.
Proof.
  unfold HUGE_PAGE, page_flags. rewrite !contains_testbit by lia. intros Hh.
  rewrite !Z.lor_spec, Hh. by destruct S.
Qed.

Lemma page_entry_spec S pa flags :
  map_args_ok S pa flags ->
  let e := page_entry S pa flags in
  set phys_bits pa (page_flags S flags) = Done e /\ in_u64 e /\ is_present e = true /\
  is_huge e = negb (MAP_LEVEL S =? 0)%nat /\ frame_from (page_bits (MAP_LEVEL S)) e = pa /\
  pkey_of e = pkey_of flags.
Proof.
  intros (Hf & Hh & Hb & Ha). destruct (page_flags_plain S flags Hf) as [Hpf Hk].
  assert (Hok : frame_ok phys_bits pa (page_flags S flags)).
  { split; [done|]. unfold entry_align. rewrite page_flags_huge by done.
    destruct S; simpl in *; [done|done|]. apply Z.mod_divide in Ha; [|done]. apply Z.mod_divide; [done|].
    eapply Z.divide_trans; [|exact Ha]. by exists 512. }
  cbv zeta. unfold page_entry. split_and!.
  - apply set_done; [lia|done].
  - apply (entry_of_u64 phys_bits); [lia|done|done].
  - apply entry_of_present.
  - rewrite (entry_of_huge phys_bits) by (done || lia). by apply page_flags_huge.
  - apply (entry_of_frame phys_bits); [lia|done|done|destruct S; simpl; unfold page_bits; lia|].
    by rewrite <- SIZE_page_bits.
  - rewrite (entry_of_pkey phys_bits) by (done || lia). done.
Qed.

(** [s'] maps the page of [v] to entry [e] and translates the rest like [s]. *)
Record mapped (s : Mmu F) (S : PageSize) (v e : Z) (flush : bool) (s' : Mmu F) : Prop := {
  mp_ok : mm_ok s';
  mp_grows : grows s s';
  mp_page : forall v', same (3 - MAP_LEVEL S) v v' -> walk (mem s') root v' = Some (MAP_LEVEL S, e);
  mp_other : forall v', user v' -> ~ same (3 - MAP_LEVEL S) v v' ->
    walk (mem s') root v' = walk (mem s) root v';
  mp_flat : forall v', user v' -> flat root (mem s) S v' -> flat root (mem s') S v';
  mp_tlb : tlb s' = if flush then Invlpg v :: tlb s else tlb s;
  mp_flush : walk (mem s) root v <> None -> flush = true;
  mp_kept : S = BasePageSize -> accounted s s'
}.

Lemma walk_present m v d t :
  (d <= 3)%nat -> descend m root v d = Some t -> walk m root v <> None ->
  is_present (rd m (t + 8 * index (3 - d) v)) = true.
Proof.
  intros Hd E Hw. rewrite (walk_descend _ _ _ d t) in Hw by done.
  destruct (is_present _) eqn:Hp; [done|]. exfalso. apply Hw.
  destruct (3 - d)%nat; cbn [walk_from]; by rewrite Hp.
Qed.

(** Writing the leaf entry of a page of the table's level. *)
Lemma write_leaf_mapped s S v t pa flags tl :
  mm_ok s -> user v -> descend (mem s) root v (3 - MAP_LEVEL S) = Some t -> map_args_ok S pa flags ->
  let old := rd (mem s) (t + 8 * index (MAP_LEVEL S) v) in
  tl = (if is_present old then Invlpg v :: tlb s else tlb s) ->
  mapped s S v (page_entry S pa flags) (is_present old)
    (mkMmu (wr (t + 8 * index (MAP_LEVEL S) v) (page_entry S pa flags) (mem s)) tl (frames s)).
Proof.
  intros [Htree Hfr Hlow Hapart] Hv E Hargs old Htl. pose proof (MAP_LEVEL_le S) as HS.
  destruct (page_entry_spec S pa flags Hargs) as (_ & _ & Hp & Hh & _ & _).
  set (e := page_entry S pa flags) in *. set (d := (3 - MAP_LEVEL S)%nat) in *.
  assert (Hd : (d <= 3)%nat) by (unfold d; lia).
  assert (Hi : index (MAP_LEVEL S) v = index (3 - d) v) by (unfold d; f_equal; lia).
  assert (Hx : d = 3%nat \/ pt_next e = None).
  { unfold pt_next, d. rewrite Hp, Hh. destruct S; simpl; auto. }
  unfold old in *. rewrite Hi in *. split; simpl; try done.
  - split; simpl; [|done|done|].
    + by eapply write_leaf_ok.
    + intros t' x (v' & k & Hv' & Hk & Ek) Hxt. apply (Hapart t' x); [|done].
      exists v', k. split_and!; try done. by eapply (write_leaf_tables (mem s) root v e t d).
  - split; simpl; [|done]. intros t' x (v' & k & Hv' & Hk & Ek) _. left.
    exists v', k. split_and!; try done. by eapply (write_leaf_tables (mem s) root v e t d).
  - intros v' Hs. erewrite write_walk_same; try done.
    assert (Hrd : rd (wr (t + 8 * index (3 - d) v) e (mem s)) (t + 8 * index (3 - d) v') = e).
    { rewrite <- (Hs d) by done. apply write_rd_same. }
    destruct S; unfold d in *; simpl in *; by rewrite Hrd, Hp, ?Hh.
  - intros v' Hv' Hs. by eapply (write_walk_other (mem s) root v e t d).
  - intros v' Hv' Hf k tk Hk Ek Hpr.
    erewrite (write_descend_above (mem s) root v e t d) in Ek; try done; [|unfold d; lia|left; unfold d; lia].
    assert (Hrd : rd (wr (t + 8 * index (3 - d) v) e (mem s)) (tk + 8 * index (3 - k) v') =
                  rd (mem s) (tk + 8 * index (3 - k) v')).
    { eapply (write_rd_other (mem s) root v e t d); try done; [lia|]. intros [-> _]. unfold d in Hk. lia. }
    rewrite Hrd in *. by apply (Hf k tk).
  - intros Hw. by eapply walk_present.
  - intros ->. split; simpl; [|by left]. intros t' (v' & k & Hv' & Hk & Ek). exists v', k. split_and!; [done..|].
    unfold d in *. simpl in *. rewrite (write_descend_above (mem s) root v e t 3); auto.
Qed.

Lemma map_page_in_this_table_spec s S v t pa flags :
  mm_ok s -> descend (mem s) root v (3 - MAP_LEVEL S) = Some t -> map_args_ok S pa flags ->
  let a := t + 8 * index (MAP_LEVEL S) v in
  map_page_in_this_table root phys_bits (MAP_LEVEL S) S (table_va v (3 - MAP_LEVEL S)) v pa flags s =
    Done (is_present (rd (mem s) a),
          mkMmu (wr a (page_entry S pa flags) (mem s))
            (if is_present (rd (mem s) a) then Invlpg v :: tlb s else tlb s) (frames s)).
Proof.
  intros [Htree _ _ _] E Hargs. pose proof (MAP_LEVEL_le S) as HS.
  destruct (page_entry_spec S pa flags Hargs) as (Eset & _). unfold map_page_in_this_table.
  rewrite bind_massert by (by apply Nat.eqb_eq).
  rewrite (bind_lift_done _ _ _ _ (table_index_done (MAP_LEVEL S) S v ltac:(lia))).
  rewrite (bind_done _ _ _ _ _ (read_table root s v (3 - MAP_LEVEL S) t _ (tree_window _ _ Htree) ltac:(lia) E (index_range _ _))).
  cbv zeta. rewrite (bind_lift_done _ _ _ _ Eset).
  rewrite (bind_done _ _ _ _ _ (write_table root s v (3 - MAP_LEVEL S) t _ _ (tree_window _ _ Htree) ltac:(lia) E (index_range _ _))).
  by destruct (is_present _).
Qed.

Lemma extends_mapped s s1 S v e flush s' :
  user v -> extends s s1 -> mapped s1 S v e flush s' -> mapped s S v e flush s'.
Proof.
  intros Hv [X1 XG X2 X3 X4 XK] [M1 MG M2 M3 M4 M5 M6 MK]. split; try done.
  - by eapply grows_trans.
  - intros v' Hv' Hs. rewrite M3, X3; done.
  - auto.
  - by rewrite M5, X2.
  - intros Hw. apply M6. by rewrite X3.
  - intros HS. eapply accounted_trans; [done|by apply MK].
Qed.

Lemma supply_pred n (f : F) : supply (S n) f -> supply n f.
Proof.
  revert f. induction n as [|n IH]; intros f; [done|]. intros (p & f' & E & Hs). exists p, f'. auto.
Qed.

Lemma supply_le n k (f : F) : supply (k + n) f -> supply n f.
Proof. induction k as [|k IH]; [done|]. intros Hs. by apply IH, supply_pred. Qed.

(** [map_page] from the table at depth [d]: at most one frame per missing level. *)
Lemma map_page_spec S v pa flags n L d s t :
  (L + d = 3)%nat -> (MAP_LEVEL S <= L)%nat -> mm_ok s -> user v ->
  descend (mem s) root v d = Some t -> flat root (mem s) S v ->
  supply (L - MAP_LEVEL S + n) (frames s) -> map_args_ok S pa flags ->
  exists flush s', map_page root phys_bits L S (table_va v d) v pa flags s = Done (flush, s') /\
    mapped s S v (page_entry S pa flags) flush s' /\ supply n (frames s') /\
    takes_at_most (L - MAP_LEVEL S) (frames s) (frames s').
Proof.
  revert d s t. induction L as [|l IH]; intros d s t Hd HL Hok Hv E Hf Hsup Hargs.
  - assert (S = BasePageSize) as -> by (destruct S; [done|simpl in HL; lia|simpl in HL; lia]).
    replace d with 3%nat in * by lia. cbn [map_page].
    eexists _, _. split_and!;
      [by apply (map_page_in_this_table_spec s BasePageSize)|by apply (write_leaf_mapped s BasePageSize)|by eapply supply_le|apply takes_none].
  - cbn [map_page]. rewrite bind_massert by (by apply Nat.leb_le).
    destruct (Nat.ltb_spec (MAP_LEVEL S) (Datatypes.S l)) as [Hlt|Hge].
    + assert (El : l = (2 - d)%nat /\ (d <= 2)%nat) by lia.
      replace (Datatypes.S l) with (3 - d)%nat in * by lia.
      rewrite (bind_lift_done _ _ _ _ (table_index_done (3 - d) S v ltac:(lia))).
      rewrite (bind_done _ _ _ _ _ (read_table root s v d t (index (3 - d) v)
                 (tree_window _ _ (mk_tree s Hok)) ltac:(lia) E (index_range _ _))).
      pose proof (subtable_done v S d ltac:(lia) ltac:(lia)) as Hsub.
      pose proof (flat_next root (mem s) S v d t Hf ltac:(lia) E) as Hn. cbv zeta in Hn.
      destruct (is_present (rd (mem s) (t + 8 * index (3 - d) v))) eqn:Hp.
      * rewrite bind_ret, (bind_lift_done _ _ _ _ Hsub).
        destruct (IH (Datatypes.S d) s _ ltac:(lia) ltac:(lia) Hok Hv Hn Hf) as (fl & s' & E' & HM & Hs' & HT); try done.
        { apply supply_pred. by replace (Datatypes.S (l - MAP_LEVEL S + n)) with (3 - d - MAP_LEVEL S + n)%nat by lia. }
        exists fl, s'. split_and!; [done..|]. eapply takes_le; [|exact HT]. lia.
      * replace (3 - d - MAP_LEVEL S + n)%nat with (Datatypes.S (l - MAP_LEVEL S + n)) in Hsup by lia.
        destruct Hsup as (p & f' & Ea & Hsup).
        destruct (new_subtable_spec s S v d t p f' Hok Hv ltac:(lia) E Hp Ea) as (m & Em & Hex & E1).
        rewrite (bind_done _ _ _ _ _ Em), (bind_lift_done _ _ _ _ Hsub).
        destruct (IH (Datatypes.S d) (mkMmu m (tlb s) f') p ltac:(lia) ltac:(lia) (ex_ok _ _ Hex) Hv E1
                    (ex_flat _ _ Hex S v Hv Hf) Hsup Hargs) as (fl & s' & E' & HM & Hs' & HT).
        exists fl, s'. split_and!; [done|by eapply extends_mapped|done|].
        apply (takes_le (1 + (l - MAP_LEVEL S))); [lia|]. eapply takes_trans; [|exact HT].
        exists 1%nat. split; [done|]. by exists p, f'.
    + replace d with (3 - MAP_LEVEL S)%nat in * by lia. replace (Datatypes.S l) with (MAP_LEVEL S) by lia.
      eexists _, _. split_and!; [by apply map_page_in_this_table_spec|by apply write_leaf_mapped|by eapply supply_le|apply takes_none].
Qed.

(** [map_page] from the PML4. *)
Lemma map_page_root s S v pa flags n :
  mm_ok s -> user v -> flat root (mem s) S v -> supply (3 + n) (frames s) -> map_args_ok S pa flags ->
  exists flush s', map_page root phys_bits 3 S PML4_ADDRESS v pa flags s = Done (flush, s') /\
    mapped s S v (page_entry S pa flags) flush s' /\ supply n (frames s') /\ takes_at_most 3 (frames s) (frames s').
Proof.
  intros Hok Hv Hf Hs Hargs. pose proof (MAP_LEVEL_le S) as HS.
  destruct (map_page_spec S v pa flags n 3 0 s root) as (fl & s' & E & HM & Hs' & HT); try done; [lia| |].
  2: { exists fl, s'. split_and!; [done..|]. eapply takes_le; [|exact HT]. lia. }
  apply (supply_le _ (MAP_LEVEL S)). by replace (MAP_LEVEL S + (3 - MAP_LEVEL S + n))%nat with (3 + n)%nat by lia.
Qed.

(** The entry of address [x] after mapping [n] pages from [v] to [pa]. *)
Definition range_entry (S : PageSize) (v pa flags x : Z) : Z :=
  page_entry S (pa + (x - v) / SIZE S * SIZE S) flags.

Record range_mapped (s : Mmu F) (S : PageSize) (v n pa flags : Z) (ipi : bool) (s' : Mmu F) : Prop := {
  rm_ok : mm_ok s';
  rm_grows : grows s s';
  rm_walk : forall x, lower x ->
    walk (mem s') root x = if decide (v <= x < v + n * SIZE S)
                           then Some (MAP_LEVEL S, range_entry S v pa flags x)
                           else walk (mem s) root x;
  rm_flat : forall x, user x -> flat root (mem s) S x -> flat root (mem s') S x;
  rm_tlb : exists new, tlb s' = new ++ tlb s /\
    (forall i, 0 <= i < n -> lower (v + i * SIZE S) -> walk (mem s) root (v + i * SIZE S) <> None ->
       Invlpg (v + i * SIZE S) ∈ new /\ IpiTlbFlush ∈ new) /\
    (ipi = true -> IpiTlbFlush ∈ new);
  rm_kept : S = BasePageSize -> accounted s s'
}.

Lemma range_mapped_nil s S v pa flags ipi :
  mm_ok s -> range_mapped s S v 0 pa flags ipi
    (mkMmu (mem s) (if ipi then IpiTlbFlush :: tlb s else tlb s) (frames s)).
Proof.
  intros [H1 H2 H3 H4]. split; simpl; [by split|split; auto|intros; by rewrite decide_False by lia|done| |intros _; split; auto].
  exists (if ipi then [IpiTlbFlush] else []). split_and!; [by destruct ipi|lia|].
  intros ->. set_solver.
Qed.

Lemma range_mapped_cons s S v n pa flags flush ipi s1 s' :
  lower v -> v mod SIZE S = 0 -> 0 <= n ->
  mapped s S v (page_entry S pa flags) flush s1 ->
  range_mapped s1 S (v + SIZE S) n (pa + SIZE S) flags (ipi || flush) s' ->
  range_mapped s S v (n + 1) pa flags ipi s'.
Proof.
  intros Hv Hm Hn [M1 MG M2 M3 M4 M5 M6 MK] [R1 RG R2 R3 (new & R4 & R5 & R6) RK]. pose proof (SIZE_pos S) as HS.
  assert (Hstep : forall x, lower x -> ~ v <= x < v + SIZE S -> walk (mem s1) root x = walk (mem s) root x).
  { intros x Hx Ho. apply M3; [by apply lower_user|]. by rewrite same_interval. }
  split; [done|by eapply grows_trans| |auto| |intros HB; eapply accounted_trans; [by apply MK|by apply RK]].
  - intros x Hx. rewrite R2 by done. unfold range_entry. case_decide as C1.
    + rewrite decide_True by nia. do 3 f_equal.
      replace (x - v) with (x - (v + SIZE S) + 1 * SIZE S) by lia. rewrite Z.div_add by lia. lia.
    + destruct (decide (v <= x < v + SIZE S)) as [C2|C2].
      * rewrite M2 by (by apply same_interval). rewrite decide_True by nia.
        rewrite Z.div_small by lia. by replace (pa + 0 * SIZE S) with pa by lia.
      * rewrite decide_False by nia. by apply Hstep.
  - exists (new ++ if flush then [Invlpg v] else []). split_and!.
    + rewrite R4, M5, <- app_assoc. by destruct flush.
    + intros i Hi Hl Hw. destruct (decide (i = 0)) as [->|].
      * rewrite Z.mul_0_l, Z.add_0_r in *. assert (flush = true) as -> by auto.
        split; [set_solver|]. apply elem_of_app. left. apply R6. by rewrite orb_true_r.
      * replace (v + i * SIZE S) with (v + SIZE S + (i - 1) * SIZE S) in * by lia.
        destruct (R5 (i - 1)) as [H1 H2]; [lia|done| |set_solver]. rewrite Hstep; [done|done|nia].
    + intros ->. apply elem_of_app. left. by apply R6.
Qed.

(** The loop of [map_pages]; three frames per page are enough. *)
Lemma map_pages_spec S flags fuel n : forall v pa k ipi s,
  (n <= fuel)%nat -> mm_ok s -> v mod SIZE S = 0 -> 0 <= v -> v + Z.of_nat n * SIZE S <= 2 ^ 47 ->
  (forall i, 0 <= i < Z.of_nat n -> flat root (mem s) S (v + i * SIZE S)) ->
  supply (3 * n + k) (frames s) ->
  plain_flags flags -> contains HUGE_PAGE flags = false ->
  0 <= pa -> pa + Z.of_nat n * SIZE S <= 2 ^ phys_bits -> pa mod SIZE S = 0 ->
  exists s', map_pages root phys_bits fuel S v (v + (Z.of_nat n - 1) * SIZE S) pa flags ipi s = Done (tt, s') /\
    range_mapped s S v (Z.of_nat n) pa flags ipi s' /\ supply k (frames s') /\ takes_at_most (3 * n) (frames s) (frames s').
Proof.
  pose proof (SIZE_pos S) as HS.
  assert (HW : 2 ^ 47 < W64 /\ 2 ^ phys_bits < W64).
  { split; [done|]. apply Z.le_lt_trans with (2 ^ 52); [apply Z.pow_le_mono_r; lia|done]. }
  revert fuel. induction n as [|n IH]; intros fuel v pa k ipi s Hfuel Hok Hm Hv Hb Hf Hs Hfl Hh Hp0 Hpb Hpm.
  - assert (E : (v <=? v + (Z.of_nat 0 - 1) * SIZE S) = false) by (apply Z.leb_gt; lia).
    exists (mkMmu (mem s) (if ipi then IpiTlbFlush :: tlb s else tlb s) (frames s)).
    destruct fuel; cbn [map_pages]; rewrite E;
      (split_and!; [by destruct ipi, s|by apply range_mapped_nil|done|apply takes_none]).
  - destruct fuel as [|fuel]; [lia|]. cbn [map_pages].
    rewrite (proj2 (Z.leb_le _ _)) by nia.
    rewrite (bind_lift_done _ _ (v + SIZE S)) by (apply add64_done; nia).
    destruct (map_page_root s S v pa flags (3 * n + k)) as (flush & s1 & E1 & HM & Hs1 & HT1).
    { done. }
    { apply lower_user. unfold lower. nia. }
    { specialize (Hf 0). rewrite Z.mul_0_l, Z.add_0_r in Hf. apply Hf. lia. }
    { by replace (3 + (3 * n + k))%nat with (3 * Datatypes.S n + k)%nat by lia. }
    { split_and!; try done. nia. }
    rewrite (bind_done _ _ _ _ _ E1).
    rewrite (bind_lift_done _ _ (pa + SIZE S)) by (apply add64_done; nia).
    replace (v + (Z.of_nat (Datatypes.S n) - 1) * SIZE S)
      with (v + SIZE S + (Z.of_nat n - 1) * SIZE S) by lia.
    destruct (IH fuel (v + SIZE S) (pa + SIZE S) k (ipi || flush) s1) as (s' & E' & HR & Hk & HT); try done; try nia.
    { apply HM. }
    { rewrite <- (Z.mul_1_l (SIZE S)) at 1. by rewrite Z.mod_add by lia. }
    { intros i Hi. apply (mp_flat _ _ _ _ _ _ HM); [apply lower_user; unfold lower; nia|].
      replace (v + SIZE S + i * SIZE S) with (v + (i + 1) * SIZE S) by lia. apply Hf. lia. }
    { rewrite <- (Z.mul_1_l (SIZE S)) at 1. by rewrite Z.mod_add by lia. }
    exists s'. split_and!; [done| |done|].
    2: { apply (takes_le (3 + 3 * n)); [lia|]. by eapply takes_trans. }
    replace (Z.of_nat (Datatypes.S n)) with (Z.of_nat n + 1) by lia.
    eapply range_mapped_cons; [|done|lia|exact HM|exact HR]. unfold lower. nia.
Qed.

Lemma including_address_done S va :
  lower va -> (S = HugePageSize -> supports_1gib_pages = true) ->
  including_address supports_1gib_pages S va = Done (va - va mod SIZE S).
Proof.
  intros Hv HG. unfold including_address, is_valid_address, lower in *.
  rewrite (proj2 (Z.ltb_lt va 0x800000000000)) by lia. cbn [orb oassert obind].
  assert (Hd : forall o, (if SIZE S =? 1024 * 1024 * 1024 then oassert supports_1gib_pages else Done tt) = o ->
            o = Done tt) by (intros o <-; destruct S; simpl; [done|done|by rewrite HG]).
  rewrite (Hd _ eq_refl). cbn [obind]. apply align_down_done; [unfold in_u64, W64; lia|].
  destruct S; [by exists 12|by exists 21|by exists 30].
Qed.

Lemma get_page_range_done S va count :
  let base := va - va mod SIZE S in
  0 < count -> 0 <= va -> base + count * SIZE S <= 2 ^ 47 -> (S = HugePageSize -> supports_1gib_pages = true) ->
  get_page_range supports_1gib_pages S va count = Done (base, base + (count - 1) * SIZE S).
Proof.
  intros base Hc Hv Hb HG. pose proof (SIZE_pos S) as HS.
  pose proof (Z.mod_pos_bound va (SIZE S) ltac:(lia)) as Hm.
  assert (HW : 2 ^ 47 < W64) by done. unfold get_page_range.
  rewrite including_address_done by (done || unfold lower, base in *; nia). fold base. cbn [obind].
  rewrite sub64_done by nia. cbn [obind]. rewrite mul64_done by nia. cbn [obind].
  rewrite add64_done by nia. cbn [obind].
  rewrite including_address_done by (done || unfold lower, base in *; nia).
  rewrite mod_add_page. cbn [obind].
  replace (va + (count - 1) * SIZE S - va mod SIZE S) with (base + (count - 1) * SIZE S) by (unfold base; lia).
  rewrite (proj2 (Z.leb_le _ _)) by nia. done.
Qed.

(** What [map] leaves behind, as an equation between states. *)
Lemma map_spec S va count pa flags s k :
  let base := va - va mod SIZE S in
  mm_ok s -> (S = HugePageSize -> supports_1gib_pages = true) ->
  0 < count -> 0 <= va -> base + count * SIZE S <= 2 ^ 47 ->
  (forall i, 0 <= i < count -> flat root (mem s) S (base + i * SIZE S)) ->
  supply (3 * Z.to_nat count + k) (frames s) ->
  plain_flags flags -> contains HUGE_PAGE flags = false ->
  0 <= pa -> pa + count * SIZE S <= 2 ^ phys_bits -> pa mod SIZE S = 0 ->
  exists s', map root phys_bits supports_1gib_pages S va pa count flags s = Done (tt, s') /\
    range_mapped s S base count pa flags false s' /\ supply k (frames s') /\
    takes_at_most (3 * Z.to_nat count) (frames s) (frames s').
Proof.
  intros base Hok HG Hc Hv Hb Hf Hs Hfl Hh Hp0 Hpb Hpm. pose proof (SIZE_pos S) as HS.
  pose proof (Z.mod_pos_bound va (SIZE S) ltac:(lia)). pose proof (Z.mod_le va (SIZE S) Hv ltac:(lia)).
  unfold map. rewrite (bind_lift_done _ _ _ _ (get_page_range_done S va count Hc Hv Hb HG)). fold base.
  assert (Hcount : Z.of_nat (Z.to_nat count) = count) by lia.
  rewrite <- Hcount. rewrite <- Hcount in Hb, Hf, Hpb.
  rewrite Nat2Z.id. apply map_pages_spec; try done.
  - unfold range_fuel. replace (base + (Z.of_nat (Z.to_nat count) - 1) * SIZE S - base)
      with ((Z.of_nat (Z.to_nat count) - 1) * SIZE S) by lia.
    rewrite Z.div_mul by lia. lia.
  - apply base_aligned.
  - unfold base. lia.
Qed.

End mapping.

(** The frames that are taken *)
Lemma taken_frames {F} `{FrameLaws F} j (f f' : F) :
  frames_ok f -> taken j f f' ->
  exists ts, length ts = j /\ Forall (fun t => t mod 4096 = 0 /\ frames_free f t) ts /\
    forall x, frames_free f' x <-> frames_free f x /\ Forall (fun t => ~ t <= x < t + 4096) ts.
Proof.
  revert f. induction j as [|j IH]; intros f Hok; cbn [taken].
  - intros ->. exists []. split_and!; [done|constructor|]. intros x. rewrite Forall_nil. tauto.
  - intros (p & f1 & Ea & Ht). destruct (frame_alloc_law _ _ _ Hok Ea) as (Hok1 & Hp & _ & Hpf & Hff).
    destruct (IH f1 Hok1 Ht) as (ts & <- & Hts & Hx). exists (p :: ts). split_and!; [done| |].
    + apply Forall_cons. split; [split; [done|apply Hpf; lia]|]. eapply Forall_impl; [exact Hts|].
      intros t [Ht1 [Ht2 _]%Hff]. done.
    + intros x. rewrite Hx, Hff, Forall_cons. tauto.
Qed.

(** ** Translations of mapped pages *)

Section properties.

Context {F : Type} `{FrameLaws F}.
Context (root phys_bits : Z) (supports_1gib_pages : bool).
Hypothesis Hbits : 12 <= phys_bits <= 52.

(** The new tables are the frames that were taken. *)
Lemma frames_accounted s s' n :
  mm_ok root phys_bits s -> mm_ok root phys_bits s' -> grows root s s' -> accounted root s s' ->
  takes_at_most n (frames s) (frames s') ->
  exists ts, (length ts <= n)%nat /\
    (forall x, frames_free (frames s') x <-> frames_free (frames s) x /\ Forall (fun t => ~ t <= x < t + 4096) ts) /\
    (forall t, is_table (mem s') root t <-> is_table (mem s) root t \/ t ∈ ts).
Proof.
  intros Hs Hs' [G1 _] [K1 K2] (j & Hj & Ht). destruct (taken_frames j _ _ (mk_frames _ _ _ Hs) Ht) as (ts & <- & Hts & Hx).
  exists ts. split_and!; [done..|]. intros t. rewrite Forall_forall in Hts.
  assert (Hal : forall t, is_table (mem s') root t -> t mod 4096 = 0).
  { intros t' (v & d & _ & _ & E). eapply descend_aligned; [apply (mk_tree _ _ _ Hs')|exact E]. }
  assert (Hpage : forall t x, t mod 4096 = 0 -> x mod 4096 = 0 -> t <= x < t + 4096 -> x = t).
  { intros t' x H1 H2 H3. pose proof (Z.div_mod t' 4096 ltac:(done)). pose proof (Z.div_mod x 4096 ltac:(done)). lia. }
  split; [|intros [H1|Hin]; [by apply K1|]].
  - intros H1. destruct (G1 t t H1 ltac:(lia)) as [H2|H2]; [by left|right].
    assert (H3 : ~ frames_free (frames s') t) by (apply (mk_apart _ _ _ Hs' t t H1); lia).
    rewrite Hx in H3. destruct (decide (Forall (fun t0 => ~ t0 <= t < t0 + 4096) ts)) as [H4|H4]; [tauto|].
    apply not_Forall_Exists in H4; [|intros ?; apply _]. apply Exists_exists in H4 as (t0 & Hin & H4).
    assert (E : t = t0) by (apply Hpage; [by apply Hts|by apply Hal|]; by apply dec_stable). by rewrite E.
  - destruct (Hts t Hin) as [H1 H2]. destruct (K2 t H2) as [H3|(t' & H3 & H4)].
    + apply Hx in H3 as [_ H3]. rewrite Forall_forall in H3. destruct (H3 t Hin). lia.
    + assert (E : t = t') by (apply Hpage; [by apply Hal|done|done]). by rewrite E.
Qed.

Lemma range_entry_spec S v n pa flags x :
  v <= x < v + n * SIZE S -> v mod SIZE S = 0 ->
  plain_flags flags -> contains HUGE_PAGE flags = false ->
  0 <= pa -> pa + n * SIZE S <= 2 ^ phys_bits -> pa mod SIZE S = 0 ->
  let e := range_entry S v pa flags x in
  frame_from (page_bits (MAP_LEVEL S)) e + x mod 2 ^ page_bits (MAP_LEVEL S) = pa + (x - v) /\
  pkey_of e = pkey_of flags.
Proof.
  intros Hx Hv Hf Hh Hp0 Hpb Hpm. pose proof (SIZE_pos S) as HS.
  pose proof (Z.div_mod (x - v) (SIZE S) ltac:(lia)) as Hd.
  pose proof (Z.mod_pos_bound (x - v) (SIZE S) ltac:(lia)) as Hb.
  destruct (page_entry_spec phys_bits Hbits S (pa + (x - v) / SIZE S * SIZE S) flags)
    as (_ & _ & _ & _ & E1 & E2).
  { assert (0 <= (x - v) / SIZE S * SIZE S) by (apply Z.mul_nonneg_nonneg; [apply Z.div_pos; lia|lia]).
    split_and!; [done|done|lia|lia|]. by rewrite mod_add_page. }
  unfold range_entry. split; [|done]. rewrite E1, <- SIZE_page_bits.
  assert (E3 : x mod SIZE S = (x - v) mod SIZE S) by (by rewrite Zminus_mod, Hv, Z.sub_0_r, Z.mod_mod by lia).
  rewrite E3. lia.
Qed.

(** C9. [map] makes every address of the range translate to the corresponding
    address of the physical range, with the protection key of the flags, leaves
    every other translation of the lower half as it was, keeps the table tree
    well formed, and invalidates on this and on the other cores every page that
    was mapped before; three free frames per page are enough. *)
Theorem map_correct S va count pa flags s :
  let base := va - va mod SIZE S in
  mm_ok root phys_bits s -> (S = HugePageSize -> supports_1gib_pages = true) ->
  0 < count -> 0 <= va -> base + count * SIZE S <= 2 ^ 47 ->
  (forall i, 0 <= i < count -> flat root (mem s) S (base + i * SIZE S)) ->
  supply (3 * Z.to_nat count) (frames s) ->
  plain_flags flags -> contains HUGE_PAGE flags = false ->
  0 <= pa -> pa + count * SIZE S <= 2 ^ phys_bits -> pa mod SIZE S = 0 ->
  exists s', map root phys_bits supports_1gib_pages S va pa count flags s = Done (tt, s') /\
    mm_ok root phys_bits s' /\
    (forall x, lower x -> translate (mem s') root x =
       if decide (base <= x < base + count * SIZE S) then Some (pa + (x - base)) else translate (mem s) root x) /\
    (forall x, base <= x < base + count * SIZE S ->
       exists e, walk (mem s') root x = Some (MAP_LEVEL S, e) /\ pkey_of e = pkey_of flags) /\
    (exists new, tlb s' = new ++ tlb s /\
       forall i, 0 <= i < count -> walk (mem s) root (base + i * SIZE S) <> None ->
         Invlpg (base + i * SIZE S) ∈ new /\ IpiTlbFlush ∈ new).
Proof.
  intros base Hok HG Hc Hv Hb Hf Hs Hfl Hh Hp0 Hpb Hpm. pose proof (SIZE_pos S) as HS.
  pose proof (Z.mod_le va (SIZE S) Hv ltac:(lia)) as Hmle.
  destruct (map_spec root phys_bits supports_1gib_pages Hbits S va count pa flags s 0)
    as (s' & E & [R1 _ R2 R3 (new & R4 & R5 & _)] & _); try done; [by rewrite Nat.add_0_r|].
  fold base in R2, R5.
  assert (Hlow : forall x, base <= x < base + count * SIZE S -> lower x) by (unfold lower, base in *; lia).
  exists s'. split_and!; [done|done| | |].
  - intros x Hx. unfold translate. rewrite R2 by done. case_decide as C; [|done]. f_equal.
    apply (range_entry_spec S base count pa flags x); try done. apply base_aligned.
  - intros x Hx. rewrite R2 by auto. rewrite decide_True by done. eexists. split; [done|].
    apply (range_entry_spec S base count pa flags x); try done. apply base_aligned.
  - exists new. split; [done|]. intros i Hi Hw. apply R5; try done. apply Hlow. nia.
Qed.

End properties.

(** ** A concrete memory manager, for examples *)

(** An empty PML4 with its recursive slot. *)
Definition empty_tree (root : Z) : words := wr (root + 8 * 511) (entry_of root WRITABLE) ∅.

Lemma empty_rd root v : user v -> rd (empty_tree root) (root + 8 * index 3 v) = 0.
Proof.
  intros Hv. unfold empty_tree. rewrite rd_wr. case_decide as E; [exfalso; apply Hv; lia|].
  unfold rd. by rewrite lookup_empty.
Qed.

Lemma empty_descend root v d : user v -> descend (empty_tree root) root v (S d) = None.
Proof.
  intros Hv. destruct (descend _ _ _ _) as [t|] eqn:E; [|done]. exfalso.
  destruct (descend_le _ _ _ _ 1 _ E ltac:(lia)) as [t1 E1]. cbn [descend] in E1.
  change (3 - 0)%nat with 3%nat in E1. by rewrite empty_rd in E1.
Qed.

Lemma empty_tree_ok root :
  0 <= root < 2 ^ 39 -> root mod 4096 = 0 -> tree_ok (empty_tree root) root.
Proof.
  intros Hr Ha. destruct (writable_entry 39 ltac:(lia) root) as (_ & Hn & _); [done|done|].
  split; [split; [done|apply Hr]| |].
  - unfold empty_tree. rewrite rd_wr. by rewrite decide_True.
  - intros v v' d d' t Hv Hv' _ _ E E'.
    destruct d as [|d]; [|by rewrite empty_descend in E].
    destruct d' as [|d']; [|by rewrite empty_descend in E']. split; [done|lia].
Qed.

Lemma empty_flat root S v : user v -> flat root (empty_tree root) S v.
Proof.
  intros Hv k t Hk E Hp. destruct k as [|k]; [|by rewrite empty_descend in E].
  cbn [descend] in E. injection E as <-. change (3 - 0)%nat with 3%nat in *. by rewrite empty_rd in Hp.
Qed.

(** Frames handed out one behind the other up to a limit. *)
Definition bump_limit : Z := 2 ^ 39.

#[local] Instance bump_source : FrameSource Z := fun size f =>
  if f + size <=? bump_limit then Done (Ok f, f + size) else Done (Err tt, f).

#[local] Instance bump_laws : FrameLaws Z.
Proof.
  refine {| frames_ok := fun f => 0 <= f /\ f mod 4096 = 0; frames_free := fun f x => f <= x < bump_limit |}.
  intros f f' p [Hf Hm]. unfold frame_alloc, bump_source.
  destruct (Z.leb_spec (f + 4096) bump_limit); [|done]. intros E. simplify_eq.
  split_and!; try done; try lia. rewrite <- (Z.mul_1_l 4096) at 1. by rewrite Z.mod_add.
Defined.

Definition sample_root : Z := 0x201000.
Definition sample : Mmu Z := mkMmu (empty_tree sample_root) [] 0x400000.

Lemma sample_ok : mm_ok sample_root 39 sample.
Proof.
  split; [by apply empty_tree_ok|done|intros x Hx; exact (proj2 Hx)|].
  intros t x (v & d & Hv & _ & E) Hx Hfree. change (0x400000 <= x < bump_limit) in Hfree.
  change (mem sample) with (empty_tree sample_root) in E.
  destruct d as [|d]; [|by rewrite empty_descend in E].
  simpl in E. injection E as <-. unfold sample_root in *. lia.
Qed.

(** Two pages are mapped into the empty address space. *)
Lemma map_correct_witness :
  exists s', map sample_root 39 false BasePageSize 0x10000000 0x800000 2 (pkey 2 (writable 0)) sample = Done (tt, s') /\
    translate (mem s') sample_root 0x10001234 = Some 0x801234 /\
    translate (mem s') sample_root 0x10002000 = None.
Proof.
  destruct (map_correct (F := Z) sample_root 39 false ltac:(lia) BasePageSize 0x10000000 2 0x800000
              (pkey 2 (writable 0)) sample) as (s' & E & _ & H2 & _).
  - apply sample_ok.
  - done.
  - lia.
  - lia.
  - by vm_compute.
  - intros i Hi. apply empty_flat, lower_user.
    change (lower (0x10000000 + i * 4096)). unfold lower. lia.
  - change (3 * Z.to_nat 2)%nat with 6%nat. cbn [supply].
    do 6 (eexists _, _; split; [vm_compute; reflexivity|]). exact I.
  - by apply plain_flags_test.
  - by vm_compute.
  - lia.
  - by vm_compute.
  - by vm_compute.
  - exists s'. split_and!; [exact E| |].
    + rewrite (H2 0x10001234) by (unfold lower; lia). vm_compute. reflexivity.
    + rewrite (H2 0x10002000) by (unfold lower; lia). vm_compute. reflexivity.
Defined.

(** ** Looking translations up *)

Section lookups.

Context {F : Type} `{FrameSource F}.
Context (root : Z) (supports_1gib_pages : bool).

Lemma walk_entry_at m S v e :
  walk m root v = Some (MAP_LEVEL S, e) ->
  flat root m S v /\ entry_at root m S v = Some e /\
  exists t, descend m root v (3 - MAP_LEVEL S) = Some t /\ rd m (t + 8 * index (MAP_LEVEL S) v) = e.
Proof.
  intros Hw. destruct (walk_inv _ _ _ _ _ Hw) as (_ & Hp & _ & Hf & t & Et & Er).
  split_and!.
  - intros k t' Hk E _. by apply Hf.
  - unfold entry_at. rewrite Et. cbv zeta. by rewrite Er, Hp.
  - by exists t.
Qed.

Lemma page_of_lower S x : lower x -> lower (x - x mod SIZE S).
Proof.
  pose proof (SIZE_pos S). unfold lower. pose proof (Z.mod_pos_bound x (SIZE S) ltac:(lia)).
  intros Hx. pose proof (Z.mod_le x (SIZE S) ltac:(lia) ltac:(lia)). lia.
Qed.

(** The page of an address has the leaf of the address. *)
Lemma walk_page_of m S x e :
  lower x -> walk m root x = Some (MAP_LEVEL S, e) -> walk m root (x - x mod SIZE S) = Some (MAP_LEVEL S, e).
Proof.
  intros Hx. pose proof (SIZE_pos S). apply walk_same. pose proof (MAP_LEVEL_le S).
  apply same_page; [lia|done|by apply page_of_lower|]. rewrite <- SIZE_page_bits.
  pose proof (Z.div_mod x (SIZE S) ltac:(lia)) as Hd.
  replace (x - x mod SIZE S) with (x / SIZE S * SIZE S) by lia. by rewrite Z.div_mul by lia.
Qed.

Lemma including_lower S x :
  lower x -> (S = HugePageSize -> supports_1gib_pages = true) ->
  including_address supports_1gib_pages S x = Done (x - x mod SIZE S).
Proof. apply including_address_done. Qed.

Lemma get_entry_spec (s : Mmu F) S x e :
  window_ok (mem s) root -> lower x -> walk (mem s) root x = Some (MAP_LEVEL S, e) ->
  get_page_table_entry_in root 3 S PML4_ADDRESS (x - x mod SIZE S) s = Done (Some e, s).
Proof.
  intros Hw Hx Hl%walk_page_of; [|done]. destruct (walk_entry_at _ _ _ _ Hl) as (Hf & He & _).
  rewrite <- He. apply (get_page_table_entry_in_spec root s S (x - x mod SIZE S) 0 root); (done || lia).
Qed.

(** An entry as [map] writes it: no address bits below the page size, none
    above bit 51. *)
Definition clean (L : nat) (e : Z) : Prop :=
  in_u64 e /\ forall n, 12 <= n < page_bits L \/ 52 <= n < 59 -> Z.testbit e n = false.

Lemma clean_address L e : (L <= 2)%nat -> clean L e -> address e = frame_from (page_bits L) e.
Proof.
  intros HL [Hu Hz]. assert (12 <= page_bits L <= 30) by (unfold page_bits; lia).
  apply Z.bits_inj'. intros n Hn. rewrite testbit_address, testbit_frame_from by (done || lia).
  destruct (Z.leb_spec 12 n), (Z.leb_spec (page_bits L) n), (Z.ltb_spec n 52), (Z.ltb_spec n 59);
    simpl; try done; try lia; apply Hz; lia.
Qed.

Lemma frame_from_mod low e : 0 <= low -> frame_from low e mod 2 ^ low = 0.
Proof. intros Hl. unfold frame_from. rewrite Z.shiftl_mul_pow2 by done. apply Z.mod_mul. lia. Qed.

(** [get_physical_address] computes the translation of the processor. *)
Theorem get_physical_address_correct (s : Mmu F) S va e :
  window_ok (mem s) root -> lower va -> (S = HugePageSize -> supports_1gib_pages = true) ->
  walk (mem s) root va = Some (MAP_LEVEL S, e) -> clean (MAP_LEVEL S) e ->
  exists p, get_physical_address root supports_1gib_pages S va s = Done (p, s) /\
    translate (mem s) root va = Some p.
Proof.
  intros Hw Hx HG Hl Hc. pose proof (MAP_LEVEL_le S) as HS. unfold get_physical_address.
  rewrite (bind_lift_done _ _ _ _ (including_lower S va Hx HG)).
  rewrite (bind_done _ _ _ _ _ (get_entry_spec s S va e Hw Hx Hl)).
  rewrite (bind_lift_done _ _ e) by done. eexists. split; [done|].
  unfold translate. rewrite Hl. f_equal. rewrite (clean_address (MAP_LEVEL S)) by done.
  assert (Hb : 0 <= page_bits (MAP_LEVEL S)) by (unfold page_bits; lia).
  replace (SIZE S - 1) with (Z.ones (page_bits (MAP_LEVEL S)))
    by (rewrite Z.ones_equiv, SIZE_page_bits; lia).
  rewrite Z.land_ones by done. symmetry. apply (lor_add_low _ _ (page_bits (MAP_LEVEL S))); [done| |].
  - by apply frame_from_mod.
  - apply Z.mod_pos_bound. lia.
Qed.

(** ** [virtual_to_physical] *)

Lemma subtable_sum t i :
  t mod 4096 = 0 -> 0 <= i < 512 -> subtable_address t i = (t * 512) mod W64 + i * 4096.
Proof.
  intros Ht Hi. unfold subtable_address, shl64, PAGE_MAP_BITS, PAGE_BITS.
  rewrite !Z.land_ones, !Z.shiftl_mul_pow2 by lia. fold W64.
  change (2 ^ 9) with 512. change (2 ^ 12) with 4096.
  rewrite (Z.mod_small (i * 4096)) by (unfold W64; lia).
  apply (lor_add_low _ _ 21); [lia| |lia].
  apply mod_pow2_bits; [lia|]. intros n Hn. unfold W64. rewrite testbit_mod_pow2 by lia.
  change 512 with (2 ^ 9). rewrite <- Z.shiftl_mul_pow2, Z.shiftl_spec by lia.
  destruct (Z.lt_ge_cases n 9); [rewrite (Z.testbit_neg_r t) by lia; apply andb_false_r|].
  rewrite (testbit_mod_low t 12); [apply andb_false_r|lia|done].
Qed.

Lemma shiftr_index v L : Z.shiftr v (page_bits L) = Z.shiftr v (page_bits (S L)) * 512 + index L v.
Proof.
  unfold index, page_bits. rewrite !Z.shiftr_div_pow2 by lia.
  replace (12 + 9 * Z.of_nat (S L)) with (12 + 9 * Z.of_nat L + 9) by lia.
  assert (0 < 2 ^ (12 + 9 * Z.of_nat L)) by (apply Z.pow_pos_nonneg; lia).
  assert (E : v / 2 ^ (12 + 9 * Z.of_nat L + 9) = v / 2 ^ (12 + 9 * Z.of_nat L) / 512)
    by (rewrite (Z.pow_add_r 2 _ 9), Z.div_div by lia; done).
  rewrite E. change (2 ^ 9) with 512.
  pose proof (Z.div_mod (v / 2 ^ (12 + 9 * Z.of_nat L)) 512 ltac:(lia)). lia.
Qed.

(** The table addresses of [virtual_to_physical] are those of [subtable]. *)
Lemma self_address v i :
  lower v -> (i <= 2)%nat ->
  (SELF i + 8 * Z.shiftr v (page_bits i)) mod W64 = table_va v (3 - i) + 8 * index i v.
Proof.
  intros Hv Hi. assert (H4 : 0 <= Z.shiftr v (page_bits 3) < 256).
  { unfold page_bits, lower in *. rewrite Z.shiftr_div_pow2 by lia.
    split; [apply Z.div_pos; lia|]. apply Z.div_lt_upper_bound; [done|]. lia. }
  pose proof (shiftr_index v 2) as S2. pose proof (shiftr_index v 1) as S1. pose proof (shiftr_index v 0) as S0.
  pose proof (index_range 2 v). pose proof (index_range 1 v). pose proof (index_range 0 v).
  assert (I3 : index 3 v = Z.shiftr v (page_bits 3)).
  { unfold index. change (12 + 9 * Z.of_nat 3) with (page_bits 3). apply Z.mod_small. lia. }
  pose proof (subtable_sum PML4_ADDRESS (index 3 v) ltac:(done) (index_range _ _)) as T1.
  change ((PML4_ADDRESS * 512) mod W64) with 0xFFFFFFFFFFE00000 in T1.
  assert (T1a := subtable_aligned PML4_ADDRESS (index 3 v) ltac:(done)).
  pose proof (subtable_sum _ (index 2 v) T1a (index_range _ _)) as T2.
  assert (E2 : (subtable_address PML4_ADDRESS (index 3 v) * 512) mod W64 =
               0xFFFFFFFFC0000000 + Z.shiftr v (page_bits 3) * 2097152).
  { rewrite T1, I3. symmetry. apply (Z.mod_unique_pos _ _ (0xFFFFFFFFFFE00000 * 512 / W64)).
    - unfold W64. lia.
    - change (0xFFFFFFFFFFE00000 * 512 / W64) with 511. unfold W64. lia. }
  rewrite E2 in T2. assert (T2a := subtable_aligned _ (index 2 v) T1a).
  pose proof (subtable_sum _ (index 1 v) T2a (index_range _ _)) as T3.
  assert (E3 : (subtable_address (subtable_address PML4_ADDRESS (index 3 v)) (index 2 v) * 512) mod W64 =
               0xFFFFFF8000000000 + Z.shiftr v (page_bits 2) * 2097152).
  { rewrite T2. symmetry. apply (Z.mod_unique_pos _ _ 511).
    - unfold W64. lia.
    - unfold W64. lia. }
  rewrite E3 in T3.
  do 3 (destruct i as [|i]; [cbn [table_va SELF]; change (3 - 0)%nat with 3%nat;
          change (3 - 1)%nat with 2%nat; change (3 - 2)%nat with 1%nat;
          cbn [table_va]; change (3 - 0)%nat with 3%nat;
          change (3 - 1)%nat with 2%nat; change (3 - 2)%nat with 1%nat;
          rewrite Z.mod_small; unfold W64; lia|]). lia.
Qed.

Lemma testbit_page_mask b n :
  0 <= b <= 62 -> 0 <= n -> Z.testbit (page_mask b) n = (b <=? n) && (n <? 63).
Proof.
  intros Hb Hn. unfold page_mask. rewrite land_not64.
  - change EXECUTE_DISABLE with (Z.shiftl (Z.ones 1) 63).
    rewrite Z.ldiff_spec, testbit_field, testbit_shl64 by lia.
    destruct (Z.leb_spec b n); simpl; [|done]. rewrite Z.testbit_ones_nonneg by lia. zbit_cases; done.
  - apply in_u64_bits; unfold shl64; [apply Z.land_nonneg; by right|].
    intros m Hm. rewrite Z.land_spec, (Z.testbit_ones_nonneg 64 m) by lia. zbit_cases; apply andb_false_r.
Qed.

Lemma page_offset v b : lower v -> 0 <= b <= 62 -> Z.land v (not64 (page_mask b)) = v mod 2 ^ b.
Proof.
  intros Hv Hb. rewrite land_not64 by (unfold lower, in_u64, W64 in *; lia).
  apply Z.bits_inj'. intros n Hn. rewrite Z.ldiff_spec, testbit_page_mask, testbit_mod_pow2 by lia.
  destruct (Z.lt_ge_cases n 47).
  - zbit_cases; simpl; rewrite ?andb_true_r, ?andb_false_r; done.
  - rewrite (testbit_small v 47) by (done || lia). by rewrite andb_false_r.
Qed.

Lemma page_frame L e :
  (L <= 2)%nat -> clean L e ->
  Z.land e (Z.land (page_mask (page_bits L)) (not64 (shl64 0xF 59))) = frame_from (page_bits L) e.
Proof.
  intros HL [Hu Hz]. assert (Hb : 12 <= page_bits L <= 30) by (unfold page_bits; lia).
  rewrite land_not64.
  - apply Z.bits_inj'. intros n Hn. change (shl64 0xF 59) with (Z.shiftl (Z.ones 4) 59).
    rewrite Z.land_spec, Z.ldiff_spec, testbit_page_mask, testbit_field, testbit_frame_from by lia.
    destruct (Z.testbit e n) eqn:E; [|by rewrite andb_false_r].
    assert (~ 52 <= n < 59) by (intros ?; rewrite Hz in E; [done|lia]). zbit_cases; done.
  - apply in_u64_bits; unfold page_mask; [apply Z.land_nonneg; right; apply Z.ldiff_nonneg; by left|].
    intros m Hm. unfold not64. rewrite Z.land_spec, Z.ldiff_spec, (Z.testbit_ones_nonneg 64 m) by lia.
    zbit_cases; apply andb_false_r.
Qed.

Lemma virtual_to_physical_loop_spec (s : Mmu F) v l e i :
  window_ok (mem s) root -> lower v -> walk (mem s) root v = Some (l, e) -> clean l e ->
  (l <= i <= 2)%nat ->
  virtual_to_physical_loop root i (page_bits (S i)) v s =
    Done (frame_from (page_bits l) e + v mod 2 ^ page_bits l, s).
Proof.
  intros Hw Hv Hl Hc Hi. destruct (walk_inv _ _ _ _ _ Hl) as (Hl2 & Hp & Hz & Hf & t & Et & Er).
  assert (Hpb : 0 <= page_bits l <= 62) by (unfold page_bits; lia).
  assert (Hval : Z.lor (Z.land v (not64 (page_mask (page_bits l))))
            (Z.land e (Z.land (page_mask (page_bits l)) (not64 (shl64 0xF 59)))) =
          frame_from (page_bits l) e + v mod 2 ^ page_bits l).
  { rewrite page_offset, page_frame, Z.lor_comm by done.
    apply (lor_add_low _ _ (page_bits l)); [lia|apply frame_from_mod; lia|apply Z.mod_pos_bound; lia]. }
  assert (Hread : forall j tj, (j <= 2)%nat -> descend (mem s) root v (3 - j) = Some tj ->
            read_word root ((SELF j + 8 * Z.shiftr v (page_bits j)) mod W64) s =
            Done (rd (mem s) (tj + 8 * index j v), s)).
  { intros j tj Hj Ej. rewrite self_address by done.
    apply (read_table root s v (3 - j) tj (index j v)); try done; [lia|apply index_range]. }
  induction i as [|i IH]; cbn [virtual_to_physical_loop].
  - replace l with 0%nat in * by lia.
    rewrite (bind_lift_done _ _ (page_bits 0)) by done. cbv zeta.
    rewrite (bind_done _ _ _ _ _ (Hread 0%nat t ltac:(lia) Et)), Er. unfold ret. by rewrite Hval.
  - rewrite (bind_lift_done _ _ (page_bits (S i))).
    2: { unfold page_bits, PAGE_MAP_BITS. rewrite sub64_done by (unfold W64; lia). f_equal. lia. }
    cbv zeta. destruct (decide (l = S i)) as [->|Hne].
    + rewrite (bind_done _ _ _ _ _ (Hread (S i) t ltac:(lia) Et)), Er.
      destruct Hz as [|Hz]; [done|]. rewrite Hz. unfold ret. by rewrite Hval.
    + destruct (descend_le _ _ _ _ (3 - S i) _ Et ltac:(lia)) as [ti Ei].
      rewrite (bind_done _ _ _ _ _ (Hread (S i) ti ltac:(lia) Ei)).
      pose proof (Hf (3 - S i)%nat ti ltac:(lia) Ei) as Hh.
      replace (3 - (3 - S i))%nat with (S i) in Hh by lia. rewrite Hh. apply IH. lia.
Qed.

(** For a mapped address of the lower half, [virtual_to_physical], which
    reads the tables through precomputed window addresses, computes the
    translation of the processor, for every page size. *)
Theorem virtual_to_physical_correct (s : Mmu F) va l e :
  window_ok (mem s) root -> lower va -> walk (mem s) root va = Some (l, e) -> clean l e ->
  exists p, virtual_to_physical root va s = Done (p, s) /\ translate (mem s) root va = Some p.
Proof.
  intros Hw Hv Hl Hc. destruct (walk_inv _ _ _ _ _ Hl) as (Hl2 & _).
  eexists. split.
  - apply (virtual_to_physical_loop_spec s va l e 2); done.
  - unfold translate. by rewrite Hl.
Qed.

End lookups.

(** ** Changing protection keys *)

Section protection_keys.

Context {F : Type} `{FrameSource F}.
Context (root : Z) (supports_1gib_pages : bool).

Implicit Types (s : Mmu F).

(** The leaf entry of [x] after the keys of [n] pages from [base] were set. *)
Definition rekeyed (m : words) (S : PageSize) (base n key x : Z) : option (nat * Z) :=
  if decide (base <= x < base + n * SIZE S)
  then (fun p => (p.1, with_pkey p.2 key)) <$> walk m root x
  else walk m root x.

Lemma update_page s S v f e :
  tree_ok (mem s) root -> lower v -> v mod SIZE S = 0 -> walk (mem s) root v = Some (MAP_LEVEL S, e) ->
  is_present (f e) = true -> is_huge (f e) = is_huge e ->
  exists m, update_entry_in root 3 S f PML4_ADDRESS v s = Done (tt, mkMmu m (Invlpg v :: tlb s) (frames s)) /\
    tree_ok m root /\
    (forall t, is_table m root t -> is_table (mem s) root t) /\
    forall x, lower x -> walk m root x =
      if decide (v <= x < v + SIZE S) then Some (MAP_LEVEL S, f e) else walk (mem s) root x.
Proof.
  intros Hok Hv Hm Hl Hp Hh. pose proof (MAP_LEVEL_le S) as HS.
  destruct (walk_inv _ _ _ _ _ Hl) as (_ & _ & Hz & _).
  destruct (walk_entry_at root _ _ _ _ Hl) as (Hf & He & t & Et & Er).
  set (d := (3 - MAP_LEVEL S)%nat) in *. assert (Hd : (d <= 3)%nat) by (unfold d; lia).
  assert (Hi : MAP_LEVEL S = (3 - d)%nat) by (unfold d; lia).
  assert (Hu : user v) by (by apply lower_user).
  assert (Hx : d = 3%nat \/ pt_next (f e) = None).
  { unfold pt_next. rewrite Hp, Hh. destruct Hz as [Hz|Hz]; [left; unfold d; lia|right; by rewrite Hz]. }
  exists (wr (t + 8 * index (MAP_LEVEL S) v) (f e) (mem s)). split_and!.
  - apply (update_entry_in_spec root s S f v 0 root t e); try done; [by apply tree_window|lia].
  - rewrite Hi. by apply (write_leaf_ok (mem s) root v (f e) t d).
  - intros t' (v' & k & Hv' & Hk & Ek). exists v', k. split_and!; try done.
    rewrite Hi in Ek. by apply (write_leaf_tables (mem s) root v (f e) t d).
  - intros x Hxl. case_decide as C.
    + apply same_interval in C; [|done|done|done]. fold d in C. rewrite Hi.
      rewrite (write_walk_same (mem s) root v (f e) t d) by done.
      assert (Hrd : rd (wr (t + 8 * index (3 - d) v) (f e) (mem s)) (t + 8 * index (3 - d) x) = f e).
      { rewrite <- (C d) by done. apply write_rd_same. }
      rewrite <- Hi in *. destruct S; simpl in *; rewrite Hrd, Hp; try done;
        (destruct Hz as [|Hz]; [done|]; by rewrite Hh, Hz).
    + rewrite Hi. apply (write_walk_other (mem s) root v (f e) t d); try done; [by apply lower_user|].
      intros Hs. apply C. by apply same_interval.
Qed.

Lemma set_pkey_loop_spec S va key n s :
  let base := va - va mod SIZE S in
  tree_ok (mem s) root -> 0 <= key < 16 -> (S = HugePageSize -> supports_1gib_pages = true) ->
  0 <= va -> base + Z.of_nat n * SIZE S <= 2 ^ 47 ->
  (forall i, 0 <= i < Z.of_nat n -> exists e, walk (mem s) root (base + i * SIZE S) = Some (MAP_LEVEL S, e) /\ in_u64 e) ->
  exists s', set_pkey_loop root supports_1gib_pages S va key n s = Done (tt, s') /\
    tree_ok (mem s') root /\ frames s' = frames s /\
    (forall t, is_table (mem s') root t -> is_table (mem s) root t) /\
    (forall x, lower x -> walk (mem s') root x = rekeyed (mem s) S base (Z.of_nat n) key x) /\
    (forall i, 0 <= i < Z.of_nat n -> Invlpg (base + i * SIZE S) ∈ tlb s').
Proof.
  intros base Hok Hk HG Hv Hb Hw. pose proof (SIZE_pos S) as HS.
  pose proof (Z.mod_pos_bound va (SIZE S) ltac:(lia)). pose proof (Z.mod_le va (SIZE S) Hv ltac:(lia)).
  assert (HW : 2 ^ 47 < W64) by done. assert (Hbm : base mod SIZE S = 0) by apply base_aligned.
  assert (Hb0 : 0 <= base) by (unfold base; lia).
  induction n as [|n IH].
  - exists s. split_and!; try done; [|lia]. intros x Hx. unfold rekeyed. by rewrite decide_False by lia.
  - destruct IH as (s1 & E1 & T1 & F1 & I1 & W1 & L1); [nia|intros i Hi; apply Hw; lia|].
    set (v := base + Z.of_nat n * SIZE S).
    assert (Hvl : lower v) by (unfold v, lower; nia).
    destruct (Hw (Z.of_nat n)) as (e & We & Hu); [lia|]. fold v in We.
    assert (We1 : walk (mem s1) root v = Some (MAP_LEVEL S, e)).
    { rewrite W1 by done. unfold rekeyed. by rewrite decide_False by (unfold v; lia). }
    destruct (walk_inv _ _ _ _ _ We) as (_ & Hp & _).
    destruct (update_page s1 S v (fun e => with_pkey e key) e T1) as (m & Em & Tm & Im & Wm); try done.
    { unfold v. by rewrite mod_add_page. }
    { by rewrite with_pkey_present. }
    { by rewrite with_pkey_huge. }
    eexists. cbn [set_pkey_loop]. rewrite (bind_done _ _ _ _ _ E1).
    rewrite (bind_lift_done _ _ (SIZE S * Z.of_nat n)) by (apply mul64_done; nia).
    rewrite (bind_lift_done _ _ (va + SIZE S * Z.of_nat n)) by (apply add64_done; unfold base in *; nia).
    rewrite (bind_lift_done _ _ v).
    2: { rewrite including_address_done by (done || unfold lower, base in *; nia).
         rewrite (Z.mul_comm (SIZE S)), mod_add_page. f_equal. unfold v, base. lia. }
    split_and!; [exact Em|done|done|auto| |].
    + intros x Hx. simpl. rewrite Wm by done. unfold rekeyed. case_decide as C.
      * rewrite decide_True by (unfold v in C; nia).
        assert (walk (mem s) root x = Some (MAP_LEVEL S, e)) as ->; [|done].
        eapply walk_same; [|exact We]. apply same_interval; try done. unfold v. by rewrite mod_add_page.
      * rewrite W1 by done. unfold rekeyed. case_decide; [by rewrite decide_True by nia|].
        by rewrite decide_False by (unfold v in C; nia).
    + intros i Hi. simpl. destruct (decide (i = Z.of_nat n)) as [->|]; [set_solver|].
      right. apply L1. lia.
Qed.

Lemma with_pkey_translate l e key v :
  (l <= 2)%nat -> in_u64 e -> 0 <= key < 16 ->
  frame_from (page_bits l) (with_pkey e key) + v mod 2 ^ page_bits l = frame_from (page_bits l) e + v mod 2 ^ page_bits l.
Proof. intros Hl Hu Hk. f_equal. apply with_pkey_frame; [done|done|unfold page_bits; lia]. Qed.

(** C16. [set_pkey_on_page_table_entry] gives every page of the range the key,
    changes no translation and no key of another page, and invalidates every
    page of the range. *)
Theorem set_pkey_correct S va count key s :
  let base := va - va mod SIZE S in
  tree_ok (mem s) root -> 0 <= key < 16 -> (S = HugePageSize -> supports_1gib_pages = true) ->
  0 <= va -> 0 <= count -> base + count * SIZE S <= 2 ^ 47 ->
  (forall i, 0 <= i < count -> exists e, walk (mem s) root (base + i * SIZE S) = Some (MAP_LEVEL S, e) /\ in_u64 e) ->
  exists s', set_pkey_on_page_table_entry root supports_1gib_pages S va count key s = Done (tt, s') /\
    tree_ok (mem s') root /\
    (forall x, lower x -> translate (mem s') root x = translate (mem s) root x) /\
    (forall x, base <= x < base + count * SIZE S ->
       exists e, walk (mem s') root x = Some (MAP_LEVEL S, e) /\ pkey_of e = key) /\
    (forall x, lower x -> ~ base <= x < base + count * SIZE S -> walk (mem s') root x = walk (mem s) root x) /\
    (forall i, 0 <= i < count -> Invlpg (base + i * SIZE S) ∈ tlb s').
Proof.
  intros base Hok Hk HG Hv Hc Hb Hw. pose proof (SIZE_pos S) as HS. pose proof (MAP_LEVEL_le S) as HL.
  pose proof (Z.mod_le va (SIZE S) Hv ltac:(lia)).
  destruct (set_pkey_loop_spec S va key (Z.to_nat count) s Hok Hk HG Hv) as (s' & E & T & _ & _ & W & L);
    rewrite ?Z2Nat.id in * by lia; try done. fold base in W, L.
  assert (Hleaf : forall x, base <= x < base + count * SIZE S ->
            lower x /\ exists e, walk (mem s) root x = Some (MAP_LEVEL S, e) /\ in_u64 e).
  { intros x Hx. pose proof (Z.div_mod (x - base) (SIZE S) ltac:(lia)) as Hd.
    pose proof (Z.mod_pos_bound (x - base) (SIZE S) ltac:(lia)) as Hm.
    assert (Hq : 0 <= (x - base) / SIZE S) by (apply Z.div_pos; lia).
    destruct (Hw ((x - base) / SIZE S)) as (e & We & Hu); [nia|].
    assert (Hl : lower x) by (unfold lower, base in *; lia). split; [done|]. exists e. split; [|done].
    eapply walk_same; [|exact We]. apply same_interval; [unfold lower, base in *; nia|done| |nia].
    rewrite mod_add_page. apply base_aligned. }
  exists s'. split_and!; [exact E|done| | | |done].
  - intros x Hx. unfold translate. rewrite W by done. unfold rekeyed. case_decide as C; [|done].
    destruct (Hleaf x C) as (_ & e & -> & Hu). simpl. f_equal. by apply with_pkey_translate.
  - intros x Hx. destruct (Hleaf x Hx) as (Hl & e & We & Hu). rewrite W by done. unfold rekeyed.
    rewrite decide_True, We by done. eexists. split; [done|]. by apply with_pkey_pkey.
  - intros x Hx Hn. rewrite W by done. unfold rekeyed. by rewrite decide_False.
Qed.

End protection_keys.

(** ** Examples *)

(** The empty address space after mapping two pages and a large page. *)
Definition sample2 : Mmu Z :=
  match (map sample_root 39 false BasePageSize 0x10000000 0x800000 2 (pkey 2 (writable 0)) ;;;
         map sample_root 39 false LargePageSize 0x40000000 0x40000000 1 (pkey 1 (writable 0))) sample with
  | Done (_, s) => s
  | _ => sample
  end.

Lemma sample2_window : window_ok (mem sample2) sample_root.
Proof. by vm_compute. Qed.

Lemma clean_test l e :
  (l <= 2)%nat -> in_u64 e -> Z.land e (Z.shiftl (Z.ones (page_bits l - 12)) 12) = 0 -> Z.land e (Z.shiftl (Z.ones 7) 52) = 0 ->
  clean l e.
Proof.
  intros Hl Hu H1 H2. split; [done|]. intros n [Hn|Hn].
  - apply (f_equal (fun x => Z.testbit x n)) in H1. unfold page_bits in *.
    rewrite Z.land_spec, testbit_field, Z.bits_0 in H1 by lia.
    destruct (Z.testbit e n); [|done]. revert H1. zbit_cases; done.
  - apply (f_equal (fun x => Z.testbit x n)) in H2.
    rewrite Z.land_spec, testbit_field, Z.bits_0 in H2 by lia.
    destruct (Z.testbit e n); [|done]. revert H2. zbit_cases; done.
Qed.


Lemma get_physical_address_correct_witness :
  get_physical_address sample_root false BasePageSize 0x10001234 sample2 = Done (0x801234, sample2).
Proof.
  assert (Hl : lower 0x10001234) by (unfold lower; lia).
  assert (Hc : clean 0 0x1000000000801067) by (apply clean_test; [lia|by vm_compute|by vm_compute|by vm_compute]).
  assert (E : walk (mem sample2) sample_root 0x10001234 = Some (0%nat, 0x1000000000801067)) by (vm_compute; reflexivity).
  destruct (get_physical_address_correct sample_root false sample2 BasePageSize 0x10001234 0x1000000000801067
              sample2_window Hl ltac:(discriminate) E Hc) as (p & Hp & Ht).
  rewrite Hp. unfold translate in Ht. rewrite E in Ht. clear E. vm_compute in Ht. injection Ht as <-. reflexivity.
Defined.

Lemma virtual_to_physical_correct_witness :
  virtual_to_physical sample_root 0x40012345 sample2 = Done (0x40012345, sample2).
Proof.
  assert (Hl : lower 0x40012345) by (unfold lower; lia).
  assert (Hc : clean 1 0x8000000400000e7) by (apply clean_test; [lia|by vm_compute|by vm_compute|by vm_compute]).
  assert (E : walk (mem sample2) sample_root 0x40012345 = Some (1%nat, 0x8000000400000e7)) by (vm_compute; reflexivity).
  destruct (virtual_to_physical_correct sample_root sample2 0x40012345 1 0x8000000400000e7
              sample2_window Hl E Hc) as (p & Hp & Ht).
  rewrite Hp. unfold translate in Ht. rewrite E in Ht. clear E. vm_compute in Ht. injection Ht as <-. reflexivity.
Defined.

(** The empty address space after mapping two pages. *)
Definition sample1 : Mmu Z :=
  match map sample_root 39 false BasePageSize 0x10000000 0x800000 2 (pkey 2 (writable 0)) sample with
  | Done (_, s) => s
  | _ => sample
  end.

Lemma sample1_ok : mm_ok sample_root 39 sample1.
Proof.
  destruct (map_spec (F := Z) sample_root 39 false ltac:(lia) BasePageSize 0x10000000 2 0x800000
              (pkey 2 (writable 0)) sample 0) as (s' & E & R & _).
  - apply sample_ok.
  - done.
  - lia.
  - lia.
  - by vm_compute.
  - intros i Hi. apply empty_flat, lower_user.
    change (lower (0x10000000 + i * 4096)). unfold lower. lia.
  - change (3 * Z.to_nat 2 + 0)%nat with 6%nat. cbn [supply].
    do 6 (eexists _, _; split; [vm_compute; reflexivity|]). exact I.
  - by apply plain_flags_test.
  - by vm_compute.
  - lia.
  - by vm_compute.
  - by vm_compute.
  - unfold sample1. rewrite E. apply R.
Qed.

Lemma set_pkey_correct_witness :
  exists s', set_pkey_on_page_table_entry sample_root false BasePageSize 0x10000000 2 1 sample1 = Done (tt, s') /\
    translate (mem s') sample_root 0x10001234 = translate (mem sample1) sample_root 0x10001234.
Proof.
  assert (Hl : lower 0x10001234) by (unfold lower; lia).
  destruct (set_pkey_correct sample_root false BasePageSize 0x10000000 2 1 sample1) as (s' & E & _ & Ht & _).
  - apply sample1_ok.
  - lia.
  - done.
  - lia.
  - lia.
  - by vm_compute.
  - intros i Hi. assert (i = 0 \/ i = 1) as [->| ->] by lia.
    + exists 0x1000000000800067. split; [vm_compute; reflexivity|by vm_compute].
    + exists 0x1000000000801067. split; [vm_compute; reflexivity|by vm_compute].
  - exists s'. split; [exact E|]. by apply Ht.
Defined.
