(* ===== verification/PageAlloc.v ===== *)
(** * Physical and virtual memory: src/arch/x86_64/mm/physicalmem.rs and virtualmem.rs

    Both modules keep the free part of an address space in a [FreeList] behind a
    lock and offer the same operations with the same checks. [PageAllocator]
    states what the memory manager relies on; both modules are instances, and
    so is the frame source that paging asks for new tables. *)

From stdpp Require Import base numbers list gmap.
From Stdlib Require Import ZArith Lia.
From S2P Require Import Prelude Links Collections FreeList Pte.

#[local] Open Scope Z_scope.

(** ** The interface *)

Class PageAllocator (A : Type) := {
  pa_allocate : Z -> M A (result Z unit);
  pa_allocate_aligned : Z -> Z -> M A (result Z unit);
  pa_deallocate : Z -> Z -> M A unit
}.

(** The bytes from [p] on are free in [f] and nothing else leaves it. *)
Definition takes (f f' : Z -> Prop) (p size : Z) : Prop :=
  (forall x, p <= x < p + size -> f x) /\ (forall x, f' x <-> f x /\ ~ p <= x < p + size).

Definition gives (f f' : Z -> Prop) (p size : Z) : Prop := forall x, f' x <-> f x \/ p <= x < p + size.

Class PageAllocatorLaws (A : Type) `{PageAllocator A} := {
  pa_ok : A -> Prop;
  pa_free : A -> Z -> Prop;
  pa_low : Z;
  pa_high : Z;
  pa_range : 0 <= pa_low /\ pa_high <= 2 ^ 48;
  pa_inside : forall a x, pa_ok a -> pa_free a x -> pa_low <= x < pa_high;
  pa_allocate_law : forall a size, pa_ok a -> 0 < size -> size mod 4096 = 0 ->
    exists r a', pa_allocate size a = Done (r, a') /\
      match r with
      | Ok p => pa_ok a' /\ p mod 4096 = 0 /\ takes (pa_free a) (pa_free a') p size
      | Err _ => a' = a
      end;
  pa_allocate_aligned_law : forall a size alignment,
    pa_ok a -> 0 < size <= 2 ^ 60 -> pow2 alignment -> 4096 <= alignment <= 2 ^ 60 -> size mod alignment = 0 ->
    exists r a', pa_allocate_aligned size alignment a = Done (r, a') /\
      match r with
      | Ok p => pa_ok a' /\ p mod alignment = 0 /\ p mod 4096 = 0 /\ takes (pa_free a) (pa_free a') p size
      | Err _ => a' = a
      end;
  pa_deallocate_law : forall a p size,
    pa_ok a -> p mod 4096 = 0 -> 0 < size -> size mod 4096 = 0 -> pa_low <= p -> p + size <= pa_high ->
    (forall x, p <= x < p + size -> ~ pa_free a x) ->
    exists a', pa_deallocate p size a = Done (tt, a') /\ pa_ok a' /\ gives (pa_free a) (pa_free a') p size
}.

(** ** The state and the operations of both modules *)

(** [virtualmem]: the lock of [KERNEL_FREE_LIST] is held throughout an operation. *)
Record VirtMem := mkVirtMem { KERNEL_FREE_LIST : FreeList }.

(** [physicalmem]: the free list and the atomic counter. *)
Record PhysMem := mkPhysMem { PHYSICAL_FREE_LIST : FreeList; TOTAL_MEMORY : Z }.

Definition on_virt {A} (m : M FreeList A) : M VirtMem A := fun s =>
  let? (a, L) := m (KERNEL_FREE_LIST s) in Done (a, mkVirtMem L).

Definition on_phys {A} (m : M FreeList A) : M PhysMem A := fun s =>
  let? (a, L) := m (PHYSICAL_FREE_LIST s) in Done (a, mkPhysMem L (TOTAL_MEMORY s)).

Section modules.

(** [mm::kernel_start_address()] and [mm::kernel_end_address()] *)
Context (kernel_start_address kernel_end_address : Z).

(** *** virtualmem *)

(** Without the feature [newlib]. *)
Definition kernel_heap_end : Z := 0x800000000000.

Definition virt_init : M VirtMem unit :=
  on_virt (push_value (mkEntry kernel_end_address kernel_heap_end)).

Definition virt_allocate (size : Z) : M VirtMem (result Z unit) :=
  massert (0 <? size) ;;;
  massert (size mod SIZE BasePageSize =? 0) ;;;
  on_virt (FreeList.allocate size).

Definition virt_allocate_aligned (size alignment : Z) : M VirtMem (result Z unit) :=
  massert (0 <? size) ;;;
  massert (0 <? alignment) ;;;
  massert (size mod alignment =? 0) ;;;
  massert (alignment mod SIZE BasePageSize =? 0) ;;;
  on_virt (FreeList.allocate_aligned size alignment).

Definition virt_deallocate (virtual_address size : Z) : M VirtMem unit :=
  massert (kernel_end_address <=? virtual_address) ;;;
  massert (virtual_address <? kernel_heap_end) ;;;
  massert (virtual_address mod SIZE BasePageSize =? 0) ;;;
  massert (0 <? size) ;;;
  massert (size mod SIZE BasePageSize =? 0) ;;;
  on_virt (FreeList.deallocate virtual_address size).

Definition virt_reserve (virtual_address size : Z) : M VirtMem unit :=
  massert (kernel_end_address <=? virtual_address) ;;;
  massert (virtual_address <? kernel_heap_end) ;;;
  massert (virtual_address mod SIZE BasePageSize =? 0) ;;;
  massert (0 <? size) ;;;
  massert (size mod SIZE BasePageSize =? 0) ;;;
  let! result := on_virt (FreeList.reserve virtual_address size) in
  massert (match result with Ok _ => true | Err _ => false end).

(** *** physicalmem *)

(** A region of the Multiboot memory map; [available] is
    [memory_type() == MemoryType::Available]. *)
Record MemoryRegion := mkRegion { base_address : Z; length : Z; available : bool }.

Definition is_ram (m : MemoryRegion) : outcome bool :=
  if available m then
    let? e := add64 (base_address m) (length m) in Done (kernel_end_address <? e)
  else Done false.

(** The loop over [ram_regions] (a lazy filter); the result is [found_ram]. *)
Fixpoint detect_regions (regions : list MemoryRegion) (found_ram : bool) : M PhysMem bool :=
  match regions with
  | [] => ret found_ram
  | m :: tl =>
      let! ram := lift (is_ram m) in
      if ram then
        let start_address :=
          if base_address m <=? kernel_start_address then kernel_end_address else base_address m in
        let! e := lift (add64 (base_address m) (length m)) in
        modify (fun s => mkPhysMem (PHYSICAL_FREE_LIST s) ((TOTAL_MEMORY s + e) mod W64)) ;;;
        on_phys (push_value (mkEntry start_address e)) ;;;
        detect_regions tl true
      else detect_regions tl found_ram
  end.

(** [mb_info] is [get_mbinfo()]; [regions] the memory map behind it, if any. *)
Definition detect_from_multiboot_info (mb_info : Z) (regions : option (list MemoryRegion))
    : M PhysMem (result unit unit) :=
  if mb_info =? 0 then ret (Err tt)
  else
    let! all_regions := lift (unwrap regions) in
    let! found_ram := detect_regions all_regions false in
    massert found_ram ;;;
    ret (Ok tt).

(** [limit] is [get_limit()]. *)
Definition detect_from_limits (limit : Z) : M PhysMem (result unit unit) :=
  if limit =? 0 then ret (Err tt)
  else
    modify (fun s => mkPhysMem (PHYSICAL_FREE_LIST s) limit) ;;;
    on_phys (push_value (mkEntry kernel_end_address limit)) ;;;
    ret (Ok tt).

Definition phys_init (mb_info : Z) (regions : option (list MemoryRegion)) (limit : Z) : M PhysMem unit :=
  let! r := detect_from_multiboot_info mb_info regions in
  let! r := match r with
            | Ok _ => ret r
            | Err _ => detect_from_limits limit
            end in
  lift (unwrap_res r).

Definition total_memory_size : M PhysMem Z := gets TOTAL_MEMORY.

Definition phys_allocate (size : Z) : M PhysMem (result Z unit) :=
  massert (0 <? size) ;;;
  massert (size mod SIZE BasePageSize =? 0) ;;;
  on_phys (FreeList.allocate size).

Definition phys_allocate_aligned (size alignment : Z) : M PhysMem (result Z unit) :=
  massert (0 <? size) ;;;
  massert (0 <? alignment) ;;;
  massert (size mod alignment =? 0) ;;;
  massert (alignment mod SIZE BasePageSize =? 0) ;;;
  on_phys (FreeList.allocate_aligned size alignment).

Definition phys_deallocate (physical_address size : Z) : M PhysMem unit :=
  massert (kernel_end_address <=? physical_address) ;;;
  massert (0 <? size) ;;;
  massert (size mod SIZE BasePageSize =? 0) ;;;
  on_phys (FreeList.deallocate physical_address size).

End modules.

(** ** Free lists of pages *)

Lemma seg_functional {N P} `{LinkedLaws N P} (m : gmap nat N) p l1 l2 :
  seg m p l1 None -> seg m p l2 None -> first l1 None = first l2 None -> l1 = l2.
Proof.
  revert p l2. induction l1 as [|[i v] l1 IH]; intros p [|[j w] l2]; simpl; try done.
  intros [(n1 & E1 & V1 & P1 & N1) S1] [(n2 & E2 & V2 & P2 & N2) S2] [= <-].
  assert (n1 = n2) as <- by congruence. assert (v = w) as <- by congruence. f_equal.
  eapply IH; [done|done|congruence].
Qed.

Lemma list_repr_functional {T} (L : DoublyLinkedList T) vs1 vs2 :
  list_repr L vs1 -> list_repr L vs2 -> vs1 = vs2.
Proof.
  intros (l1 & R1 & <-) (l2 & R2 & <-). f_equal.
  eapply seg_functional; [apply (repr_seg _ _ R1)|apply (repr_seg _ _ R2)|].
  rewrite <- (repr_head _ _ R1), <- (repr_head _ _ R2). done.
Qed.

(** The regions of a list of pages between two addresses. *)
Definition pages_repr (lo hi : Z) (L : FreeList) (es : list FreeListEntry) : Prop :=
  list_repr L es /\ regions_ok 0 es /\ Forall (granular 4096) es /\
  Forall (fun e => lo <= start e /\ end_ e <= hi) es.

Definition pages_ok (lo hi : Z) (L : FreeList) : Prop := exists es, pages_repr lo hi L es.
Definition list_free (L : FreeList) (x : Z) : Prop := exists es, list_repr L es /\ free es x.

Lemma list_free_repr L es x : list_repr L es -> list_free L x <-> free es x.
Proof.
  intros HR. split; [|intros; by exists es]. intros (es' & HR' & Hx).
  by rewrite (list_repr_functional L es es').
Qed.

Lemma free_bounds lo hi es x :
  Forall (fun e => lo <= start e /\ end_ e <= hi) es -> free es x -> lo <= x < hi.
Proof. intros HF (e & He & Hx). rewrite Forall_forall in HF. specialize (HF e He). lia. Qed.

(** Bounds of the regions from bounds of the addresses. *)
Lemma bounds_free lo hi es :
  regions_ok 0 es -> (forall x, free es x -> lo <= x < hi) ->
  Forall (fun e => lo <= start e /\ end_ e <= hi) es.
Proof.
  intros Hok Hx. apply Forall_forall. intros e He.
  pose proof (regions_ok_forall _ _ Hok) as HF. rewrite Forall_forall in HF. specialize (HF e He).
  simpl in HF. assert (F1 : free es (start e)) by (exists e; split; [done|lia]).
  assert (F2 : free es (end_ e - 1)) by (exists e; split; [done|lia]).
  apply Hx in F1, F2. lia.
Qed.

Section pages.

Context (lo hi : Z).
Hypothesis Hrange : 0 <= lo /\ hi <= 2 ^ 48.

Lemma taken_result L L' es es' p size :
  pages_repr lo hi L es -> list_repr L' es' -> regions_ok 0 es' -> Forall (granular 4096) es' ->
  taken es es' p (p + size) -> pages_ok lo hi L' /\ takes (list_free L) (list_free L') p size.
Proof.
  intros (HR & Hok & Hg & Hb) HR' Hok' Hg' [T1 T2]. split.
  - exists es'. split_and!; try done. apply bounds_free; [done|].
    intros x [Hx _]%T2. by eapply free_bounds.
  - pose proof (fun x => list_free_repr L es x HR) as F. pose proof (fun x => list_free_repr L' es' x HR') as F'.
    split; intros x; [intros Hx; by apply F, T1|]. by rewrite F', F.
Qed.

Lemma mod_4096 p alignment : pow2 alignment -> 4096 <= alignment -> p mod alignment = 0 -> p mod 4096 = 0.
Proof.
  intros (k & Hk & ->) Ha Hp. assert (12 <= k).
  { destruct (Z.lt_ge_cases k 12); [|done]. pose proof (Z.pow_lt_mono_r 2 k 12). lia. }
  assert (0 < 2 ^ k) by (apply Z.pow_pos_nonneg; lia).
  apply Z.mod_divide in Hp; [|lia]. apply Z.mod_divide; [done|].
  eapply Z.divide_trans; [|exact Hp]. exists (2 ^ (k - 12)).
  change 4096 with (2 ^ 12). rewrite <- Z.pow_add_r by lia. f_equal. lia.
Qed.

Lemma pages_allocate L size :
  pages_ok lo hi L -> 0 < size -> size mod 4096 = 0 ->
  exists r L', FreeList.allocate size L = Done (r, L') /\
    match r with
    | Ok p => pages_ok lo hi L' /\ p mod 4096 = 0 /\ takes (list_free L) (list_free L') p size
    | Err _ => L' = L
    end.
Proof.
  intros (es & Hrep) Hs Hm. pose proof Hrep as (HR & Hok & Hg & Hb).
  destruct (for_list_cut _ _ _ _ L es (allocate_implements size ltac:(lia))
    (allocate_cutting size Hs) HR Hok (regions_entry_ok _ Hok)) as (r & L' & es' & E & HR' & Hok' & Hr).
  exists r, L'. split; [done|]. destruct r as [p|[]]; [|apply Hr].
  destruct Hr as (Ht & (e & repl & He & Hst) & Hgr). cbn [fst snd] in *.
  assert (Hp : p mod 4096 = 0).
  { rewrite Forall_forall in Hg. destruct (Hg e He) as [Hg1 _]. unfold allocate_step in Hst.
    destruct (_ >? _); [|destruct (_ =? _)]; by simplify_eq. }
  assert (Hg' : Forall (granular 4096) es').
  { apply Hgr; [done| |done]. rewrite Zplus_mod, Hp, Hm. done. }
  destruct (taken_result L L' es es' p size) as [H1 H2]; try done.
Qed.

Lemma pages_allocate_aligned L size alignment :
  pages_ok lo hi L -> 0 < size <= 2 ^ 60 -> pow2 alignment -> 4096 <= alignment <= 2 ^ 60 -> size mod alignment = 0 ->
  exists r L', FreeList.allocate_aligned size alignment L = Done (r, L') /\
    match r with
    | Ok p => pages_ok lo hi L' /\ p mod alignment = 0 /\ p mod 4096 = 0 /\ takes (list_free L) (list_free L') p size
    | Err _ => L' = L
    end.
Proof.
  intros (es & Hrep) Hs Hpow Hal Hm. pose proof Hrep as (HR & Hok & Hg & Hb).
  assert (Hroom : Forall (room_ok alignment size) es).
  { apply Forall_forall. intros e He. rewrite Forall_forall in Hb. destruct (Hb e He) as [B1 B2].
    pose proof (regions_ok_forall _ _ Hok) as HF. rewrite Forall_forall in HF. specialize (HF e He). simpl in HF.
    unfold room_ok. assert (2 ^ 48 + 2 ^ 60 + 2 ^ 60 < W64) by done. lia. }
  destruct (for_list_cut _ _ _ _ L es (aligned_implements size alignment ltac:(lia) Hpow)
    (aligned_cutting size alignment ltac:(lia)) HR Hok Hroom) as (r & L' & es' & E & HR' & Hok' & Hr).
  exists r, L'. split; [done|]. destruct r as [p|[]]; [|apply Hr].
  destruct Hr as (Ht & (e & repl & He & Hst) & Hgr). cbn [fst snd] in *.
  assert (Hp : p mod alignment = 0).
  { unfold aligned_step in Hst. destruct (carve _ _ e); [|done]. injection Hst as <- _.
    apply align_up_val_spec. lia. }
  assert (Hp' : p mod 4096 = 0) by exact (mod_4096 p alignment Hpow (proj1 Hal) Hp).
  assert (Hm' : size mod 4096 = 0) by exact (mod_4096 size alignment Hpow (proj1 Hal) Hm).
  assert (Hg' : Forall (granular 4096) es').
  { apply Hgr; [done| |done]. rewrite Zplus_mod, Hp', Hm'. done. }
  destruct (taken_result L L' es es' p size) as [H1 H2]; try done.
Qed.

Lemma pages_deallocate L p size :
  pages_ok lo hi L -> p mod 4096 = 0 -> 0 < size -> size mod 4096 = 0 -> lo <= p -> p + size <= hi ->
  (forall x, p <= x < p + size -> ~ list_free L x) ->
  exists L', FreeList.deallocate p size L = Done (tt, L') /\ pages_ok lo hi L' /\
    gives (list_free L) (list_free L') p size.
Proof.
  intros (es & HR & Hok & Hg & Hb) Hp Hs Hm Hlo Hhi Hdis.
  assert (HW : 2 ^ 48 < W64) by done.
  assert (Hdis' : forall x, p <= x < p + size -> ~ free es x).
  { intros x Hx Hf. apply (Hdis x Hx). by exists es. }
  destruct (deallocate_run L es p size HR (regions_nonempty _ Hok) ltac:(lia) ltac:(lia) ltac:(lia))
    as (L' & E & HR').
  destruct (insert_region_spec p (p + size) 0 es ltac:(lia) ltac:(lia) ltac:(lia) Hok Hdis') as [Hok' Hgb].
  exists L'. split_and!; [done| |].
  - eexists. split_and!; [exact HR'|done| |].
    + apply insert_region_granular; [done| |done]. rewrite Zplus_mod, Hp, Hm. done.
    + apply bounds_free; [done|]. intros x [Hx|Hx]%Hgb; [by eapply free_bounds|lia].
  - intros x. rewrite (list_free_repr L' _ x HR'), (list_free_repr L es x HR). apply Hgb.
Qed.

End pages.

(** ** Both modules implement the interface *)

Section instances.

Context (kernel_end_address phys_top : Z).
Hypothesis Hend : 0 <= kernel_end_address.
Hypothesis Htop : phys_top <= 2 ^ 48.

Definition phys_allocator : PageAllocator PhysMem := {|
  pa_allocate := phys_allocate;
  pa_allocate_aligned := phys_allocate_aligned;
  pa_deallocate := phys_deallocate kernel_end_address
|}.

Definition virt_allocator : PageAllocator VirtMem := {|
  pa_allocate := virt_allocate;
  pa_allocate_aligned := virt_allocate_aligned;
  pa_deallocate := virt_deallocate kernel_end_address
|}.

Lemma page_checks size : 0 < size -> size mod 4096 = 0 ->
  (0 <? size) = true /\ (size mod SIZE BasePageSize =? 0) = true.
Proof. intros Hs Hm. split; [by apply Z.ltb_lt|]. apply Z.eqb_eq. done. Qed.

Lemma heap_range : 0 <= kernel_end_address /\ kernel_heap_end <= 2 ^ 48.
Proof. by split. Qed.

Definition phys_allocator_laws : @PageAllocatorLaws PhysMem phys_allocator.
Proof.
  refine {| pa_ok := fun s => pages_ok kernel_end_address phys_top (PHYSICAL_FREE_LIST s);
            pa_free := fun s => list_free (PHYSICAL_FREE_LIST s);
            pa_low := kernel_end_address; pa_high := phys_top |}.
  - done.
  - intros s x (es & HR & Hok & Hg & Hb) Hx. apply (list_free_repr _ es) in Hx; [|done].
    by eapply free_bounds.
  - intros s size Hok Hs Hm. destruct (page_checks size Hs Hm) as [C1 C2].
    destruct (pages_allocate kernel_end_address phys_top _ size Hok Hs Hm) as (r & L' & E & Hr).
    exists r, (mkPhysMem L' (TOTAL_MEMORY s)). simpl. unfold phys_allocate.
    rewrite !bind_massert by done. unfold on_phys. rewrite E. simpl. split; [done|].
    destruct r; [done|]. subst. by destruct s.
  - intros s size alignment Hok Hs Hpow Hal Hm.
    destruct (pages_allocate_aligned kernel_end_address phys_top ltac:(lia) _ size alignment Hok Hs Hpow Hal Hm)
      as (r & L' & E & Hr).
    exists r, (mkPhysMem L' (TOTAL_MEMORY s)). simpl. unfold phys_allocate_aligned.
    rewrite !bind_massert.
    2: { apply Z.eqb_eq. eapply mod_4096; [exact Hpow|lia|]. apply Z.mod_same. lia. }
    2: by apply Z.eqb_eq.
    2-3: apply Z.ltb_lt; lia.
    unfold on_phys. rewrite E. simpl. split; [done|]. destruct r; [done|]. subst. by destruct s.
  - intros s p size Hok Hp Hs Hm Hlo Hhi Hdis. destruct (page_checks size Hs Hm) as [C1 C2].
    destruct (pages_deallocate kernel_end_address phys_top ltac:(lia) _ p size Hok Hp Hs Hm Hlo Hhi Hdis)
      as (L' & E & Hok' & Hg).
    exists (mkPhysMem L' (TOTAL_MEMORY s)). simpl. unfold phys_deallocate.
    rewrite !bind_massert by (done || by apply Z.leb_le). unfold on_phys. rewrite E. by simpl.
Defined.

Definition virt_allocator_laws : @PageAllocatorLaws VirtMem virt_allocator.
Proof.
  refine {| pa_ok := fun s => pages_ok kernel_end_address kernel_heap_end (KERNEL_FREE_LIST s);
            pa_free := fun s => list_free (KERNEL_FREE_LIST s);
            pa_low := kernel_end_address; pa_high := kernel_heap_end |}.
  - done.
  - intros s x (es & HR & Hok & Hg & Hb) Hx. apply (list_free_repr _ es) in Hx; [|done].
    by eapply free_bounds.
  - intros s size Hok Hs Hm. destruct (page_checks size Hs Hm) as [C1 C2].
    destruct (pages_allocate kernel_end_address kernel_heap_end _ size Hok Hs Hm) as (r & L' & E & Hr).
    exists r, (mkVirtMem L'). simpl. unfold virt_allocate.
    rewrite !bind_massert by done. unfold on_virt. rewrite E. simpl. split; [done|].
    destruct r; [done|]. subst. by destruct s.
  - intros s size alignment Hok Hs Hpow Hal Hm.
    destruct (pages_allocate_aligned kernel_end_address kernel_heap_end heap_range _ size alignment Hok Hs Hpow Hal Hm)
      as (r & L' & E & Hr).
    exists r, (mkVirtMem L'). simpl. unfold virt_allocate_aligned.
    rewrite !bind_massert.
    2: { apply Z.eqb_eq. eapply mod_4096; [exact Hpow|lia|]. apply Z.mod_same. lia. }
    2: by apply Z.eqb_eq.
    2-3: apply Z.ltb_lt; lia.
    unfold on_virt. rewrite E. simpl. split; [done|]. destruct r; [done|]. subst. by destruct s.
  - intros s p size Hok Hp Hs Hm Hlo Hhi Hdis. destruct (page_checks size Hs Hm) as [C1 C2].
    destruct (pages_deallocate kernel_end_address kernel_heap_end heap_range _ p size Hok Hp Hs Hm Hlo Hhi Hdis)
      as (L' & E & Hok' & Hg).
    exists (mkVirtMem L'). simpl. unfold virt_deallocate.
    rewrite !bind_massert by (done || (apply Z.leb_le; lia) || (apply Z.ltb_lt; lia) || by apply Z.eqb_eq).
    unfold on_virt. rewrite E. by simpl.
Defined.

End instances.

(** ** Detecting the memory *)

Section detection.

Context (kernel_start_address kernel_end_address : Z).

Definition region_end (m : MemoryRegion) : Z := base_address m + length m.

(** The regions the kernel uses, and the part of each it may hand out. *)
Definition usable (m : MemoryRegion) : bool := available m && (kernel_end_address <? region_end m).
Definition usable_part (m : MemoryRegion) : FreeListEntry :=
  mkEntry (if base_address m <=? kernel_start_address then kernel_end_address else base_address m) (region_end m).
Definition ram (regions : list MemoryRegion) : list MemoryRegion := filter usable regions.

Definition in_range (m : MemoryRegion) : Prop := 0 <= region_end m < W64.

(** The counter adds up the ends of the regions. *)
Definition sum_ends (regions : list MemoryRegion) : Z := foldr (fun m t => region_end m + t) 0 regions.

Lemma is_ram_done m : in_range m -> is_ram kernel_end_address m = Done (usable m).
Proof.
  intros Hm. unfold is_ram, usable. destruct (available m); [|done].
  by rewrite add64_done.
Qed.

Lemma detect_regions_spec regions found s vs :
  Forall in_range regions -> list_repr (PHYSICAL_FREE_LIST s) vs -> 0 <= TOTAL_MEMORY s < W64 ->
  exists s', detect_regions kernel_start_address kernel_end_address regions found s =
      Done (found || negb (bool_decide (ram regions = [])), s') /\
    list_repr (PHYSICAL_FREE_LIST s') (vs ++ (usable_part <$> ram regions)) /\
    TOTAL_MEMORY s' = (TOTAL_MEMORY s + sum_ends (ram regions)) mod W64.
Proof.
  revert found s vs. induction regions as [|m tl IH]; intros found s vs Hr HR Ht; cbn [detect_regions].
  - exists s. rewrite orb_false_r, app_nil_r. split_and!; [done|done|]. simpl. rewrite Z.add_0_r.
    by rewrite Z.mod_small.
  - apply Forall_cons in Hr as [Hm Htl]. rewrite (bind_lift_done _ _ _ _ (is_ram_done m Hm)).
    unfold ram. rewrite filter_cons. fold (ram tl). destruct (usable m) eqn:Hu.
    + rewrite decide_True by done. rewrite (bind_lift_done _ _ (region_end m)) by (by apply add64_done).
      rewrite bind_modify.
      destruct (push_value_repr (PHYSICAL_FREE_LIST s) vs (usable_part m) HR) as (L' & E & HR').
      destruct (IH true (mkPhysMem L' ((TOTAL_MEMORY s + region_end m) mod W64)) (vs ++ [usable_part m]) Htl HR')
        as (s' & E' & HR2 & Ht2); [apply Z.mod_pos_bound; done|].
      exists s'. rewrite orb_true_r. split_and!.
      * unfold bind, on_phys. simpl. unfold usable_part in E. rewrite E. simpl. exact E'.
      * by rewrite <- app_assoc in HR2.
      * rewrite Ht2. simpl. rewrite Zplus_mod_idemp_l. f_equal. lia.
    + rewrite decide_False by (intros []). by apply IH.
Qed.

(** With a memory map of sorted, disjoint, page-aligned usable regions,
    initialisation leaves exactly the usable parts of the available regions free
    (never the kernel image) and succeeds exactly when there is one. The total
    it reports is the sum of the {e ends} of the usable regions, not of their
    lengths. *)
Theorem phys_init_correct mb_info regions limit t :
  mb_info <> 0 -> Forall in_range regions -> 0 <= t < W64 ->
  let es := usable_part <$> ram regions in
  regions_ok kernel_end_address es ->
  match phys_init kernel_start_address kernel_end_address mb_info (Some regions) limit (mkPhysMem FreeList_new t) with
  | Done (_, s') =>
      ram regions <> [] /\ TOTAL_MEMORY s' = (t + sum_ends (ram regions)) mod W64 /\
      (forall x, list_free (PHYSICAL_FREE_LIST s') x <-> exists m, m ∈ ram regions /\
         start (usable_part m) <= x < region_end m) /\
      (forall x, list_free (PHYSICAL_FREE_LIST s') x -> kernel_end_address <= x)
  | Panic => ram regions = []
  | OutOfFuel => False
  end.
Proof.
  intros Hmb Hr Ht es Hok. unfold phys_init, detect_from_multiboot_info.
  destruct (Z.eqb_spec mb_info 0); [done|].
  destruct (detect_regions_spec regions false (mkPhysMem FreeList_new t) [] Hr list_repr_empty Ht)
    as (s' & E & HR & Htot).
  rewrite bind_assoc, (bind_lift_done _ _ regions) by done. rewrite bind_assoc, (bind_done _ _ _ _ _ E).
  simpl in HR. destruct (decide (ram regions = [])) as [Hn|Hn].
  - rewrite bool_decide_true by done. done.
  - rewrite bool_decide_false by done. simpl.
    assert (Hfree : forall x, list_free (PHYSICAL_FREE_LIST s') x <-> exists m, m ∈ ram regions /\
              start (usable_part m) <= x < region_end m).
    { intros x. rewrite (list_free_repr _ _ x HR). unfold FreeList.free. split.
      - intros (e & (m & -> & Hm)%list_elem_of_fmap & Hx). by exists m.
      - intros (m & Hm & Hx). exists (usable_part m). split; [|done]. apply list_elem_of_fmap. eauto. }
    split_and!; try done. intros x Hx. rewrite (list_free_repr _ _ x HR) in Hx.
    apply (regions_ok_above _ _ _ Hok Hx).
Qed.

End detection.

(** Two regions, of 512 MiB together; the counter says more. *)
Definition two_banks : list MemoryRegion :=
  [mkRegion 0x100000 0xff00000 true; mkRegion 0x20000000 0x10000000 true].

Lemma phys_init_correct_witness :
  exists s', phys_init 0x200000 0x400000 0x9500 (Some two_banks) 0 (mkPhysMem FreeList_new 0) = Done (tt, s') /\
    TOTAL_MEMORY s' = 0x40000000 /\ list_free (PHYSICAL_FREE_LIST s') 0x20000000.
Proof.
  pose proof (phys_init_correct 0x200000 0x400000 0x9500 two_banks 0 0 ltac:(done)) as H.
  destruct (phys_init 0x200000 0x400000 0x9500 (Some two_banks) 0 (mkPhysMem FreeList_new 0)) as [[[] s']| |] eqn:E.
  - exists s'. split; [done|].
    destruct H as (_ & Ht & Hf & _); [repeat constructor; done|done|by vm_compute|].
    split; [rewrite Ht; by vm_compute|]. apply Hf.
    exists (mkRegion 0x20000000 0x10000000 true). split; [|by vm_compute]. vm_compute. set_solver.
  - exfalso. vm_compute in E. discriminate.
  - exfalso. vm_compute in E. discriminate.
Defined.
