(* ===== verification/Mm.v ===== *)
(** * The memory manager: src/mm/mod.rs

    Allocation of mapped memory on top of paging and of the two page
    allocators; everything is proved against the interface [PageAllocator]. *)

From stdpp Require Import base numbers list gmap.
From Stdlib Require Import ZArith Lia.
From S2P Require Import Prelude Links Collections FreeList Pte Mmu Paging PageAlloc.

#[local] Open Scope Z_scope.

(** ** Memory regions *)

Definition SAFE_MEM_REGION : Z := 1.
Definition UNSAFE_MEM_REGION : Z := 2.
Definition SHARED_MEM_REGION : Z := 3.

(** Paging asks the physical memory manager for the frames of new tables. *)
#[export] Instance allocator_frames {P} `{PageAllocator P} : FrameSource P := pa_allocate.

#[export] Instance allocator_frame_laws {P} `{PageAllocatorLaws P} : FrameLaws P.
Proof.
  refine {| frames_ok := pa_ok; frames_free := pa_free |}.
  intros f f' p Hok E. destruct (pa_allocate_law f 4096 Hok) as (r & f2 & E2 & Hr); [done|done|].
  unfold frame_alloc, allocator_frames in E. rewrite E in E2. injection E2 as <- <-. cbn in Hr.
  destruct Hr as (Hok' & Hp & Ht1 & Ht2). split_and!; try done.
  destruct (pa_inside f p Hok) as [Hin _]; [apply Ht1; lia|]. pose proof pa_range. lia.
Defined.

(** The state: page tables with the physical memory manager, and virtual memory. *)
Record Kernel (P V : Type) := mkKernel { mmu : Mmu P; virt : V }.
Arguments mkKernel {P V} _ _.
Arguments mmu {P V} _.
Arguments virt {P V} _.

Section mm.

Context {P V : Type} `{PageAllocator P, PageAllocator V}.
Context (root phys_bits : Z) (supports_1gib_pages : bool).

Definition on_mmu {A} (m : M (Mmu P) A) : M (Kernel P V) A := fun k =>
  let? (a, s) := m (mmu k) in Done (a, mkKernel s (virt k)).
Definition physicalmem {A} (m : M P A) : M (Kernel P V) A := fun k =>
  let? (a, f) := m (frames (mmu k)) in
  Done (a, mkKernel (mkMmu (mem (mmu k)) (tlb (mmu k)) f) (virt k)).
Definition virtualmem {A} (m : M V A) : M (Kernel P V) A := fun k =>
  let? (a, v) := m (virt k) in Done (a, mkKernel (mmu k) v).

Definition paging_map (S : PageSize) (virtual_address physical_address count flags : Z) : M (Kernel P V) unit :=
  on_mmu (Paging.map root phys_bits supports_1gib_pages S virtual_address physical_address count flags).

(** ** Operations *)

(** The loop of [map_heap]; every round maps one page, so [fuel] is the number
    of pages and [map_heap] gives it that much. *)
Fixpoint map_heap_loop (fuel : nat) (S : PageSize) (virt_addr limit flags i : Z) : M (Kernel P V) Z :=
  if i <? limit then
    match fuel with
    | O => out_of_fuel
    | S fuel' =>
        let! r := physicalmem (pa_allocate_aligned (SIZE S) (SIZE S)) in
        match r with
        | Ok phys_addr =>
            let! v := lift (add64 virt_addr i) in
            paging_map S v phys_addr 1 flags ;;;
            let! i' := lift (add64 i (SIZE S)) in
            map_heap_loop fuel' S virt_addr limit flags i'
        | Err _ => ret i
        end
    end
  else ret i.

Definition map_heap (S : PageSize) (virt_addr size : Z) (is_kernel : bool) : M (Kernel P V) Z :=
  let flags :=
    if is_kernel then pkey UNSAFE_MEM_REGION (execute_disable (writable (normal 0)))
    else execute_disable (writable (normal 0)) in
  let! limit := lift (align_down size (SIZE S)) in
  map_heap_loop (Z.to_nat (size / SIZE S)) S virt_addr limit flags 0.

(** The common shape of the allocation functions: [get_phys] and [get_virt]
    are the allocators' operations the function calls. *)
Definition allocate_mapped (get_phys : Z -> M P (result Z unit)) (get_virt : Z -> M V (result Z unit))
    (sz flags : Z) : M (Kernel P V) Z :=
  let! size := lift (align_up sz (SIZE BasePageSize)) in
  let! r := physicalmem (get_phys size) in
  let! physical_address := lift (unwrap_res r) in
  let! r := virtualmem (get_virt size) in
  let! virtual_address := lift (unwrap_res r) in
  let count := size / SIZE BasePageSize in
  paging_map BasePageSize virtual_address physical_address count flags ;;;
  ret virtual_address.

Definition with_execute_disable (b : bool) (flags : Z) : Z := if b then execute_disable flags else flags.

Definition page_aligned {A} `{PageAllocator A} (size : Z) : M A (result Z unit) :=
  pa_allocate_aligned size (SIZE BasePageSize).

Definition allocate_iomem (sz : Z) : M (Kernel P V) Z :=
  allocate_mapped pa_allocate pa_allocate sz (execute_disable (writable (normal 0))).

Definition allocate (sz : Z) (no_execute : bool) : M (Kernel P V) Z :=
  allocate_mapped pa_allocate pa_allocate sz
    (with_execute_disable no_execute (pkey SAFE_MEM_REGION (writable (normal 0)))).

Definition unsafe_allocate (sz : Z) (no_execute : bool) : M (Kernel P V) Z :=
  allocate_mapped page_aligned page_aligned sz
    (with_execute_disable no_execute (pkey UNSAFE_MEM_REGION (writable (normal 0)))).

Definition shared_allocate (sz : Z) (no_execute : bool) : M (Kernel P V) Z :=
  allocate_mapped page_aligned page_aligned sz
    (with_execute_disable no_execute (pkey SHARED_MEM_REGION (writable (normal 0)))).

Definition user_allocate (sz : Z) (no_execute : bool) : M (Kernel P V) Z :=
  allocate_mapped page_aligned page_aligned sz
    (with_execute_disable no_execute (writable (normal 0))).

Definition deallocate (virtual_address sz : Z) : M (Kernel P V) unit :=
  let! size := lift (align_up sz (SIZE BasePageSize)) in
  let! r := on_mmu (get_page_table_entry root supports_1gib_pages BasePageSize virtual_address) in
  match r with
  | Some entry =>
      virtualmem (pa_deallocate virtual_address size) ;;;
      physicalmem (pa_deallocate (address entry) size)
  | None => panic
  end.

(** *** Steps of [init] *)

Definition init_pages_before_kernel : M (Kernel P V) unit :=
  let count := 0x200000 / SIZE BasePageSize in
  let flags := pkey SAFE_MEM_REGION (execute_disable (writable (normal 0))) in
  paging_map BasePageSize 0 0 count flags ;;;
  on_mmu (set_pkey_on_page_table_entry root supports_1gib_pages BasePageSize 0 1 0).

Definition allocate_safe_data : M (Kernel P V) unit :=
  let aligned_size := 0x200000 in
  let count := aligned_size / SIZE LargePageSize in
  let flags := execute_disable (pkey SAFE_MEM_REGION (writable (normal 0))) in
  paging_map LargePageSize 0x400000 0x400000 count flags.

Definition allocate_unsafe_data : M (Kernel P V) unit :=
  let aligned_size := 0x200000 in
  let count := aligned_size / SIZE LargePageSize in
  let flags := execute_disable (pkey UNSAFE_MEM_REGION (writable (normal 0))) in
  paging_map LargePageSize 0x600000 0x600000 count flags.

(** The pages [init] keeps for page tables. *)
Definition reserved_space (total_memory_size : Z) : Z :=
  let npages := total_memory_size / SIZE BasePageSize in
  let npage_3tables := npages / (SIZE BasePageSize / 8) + 1 in
  let npage_2tables := npage_3tables / (SIZE BasePageSize / 8) + 1 in
  let npage_1tables := npage_2tables / (SIZE BasePageSize / 8) + 1 in
  (npage_3tables + npage_2tables + npage_1tables) * SIZE BasePageSize + SIZE LargePageSize.

End mm.

(** ** The kinds of memory *)

Inductive Flavour := Iomem | Safe | Unsafe | Shared | User.

#[export] Instance Flavour_eq_dec : EqDecision Flavour.
Proof. solve_decision. Defined.

Definition region_key (f : Flavour) : Z :=
  match f with
  | Iomem | User => 0
  | Safe => SAFE_MEM_REGION
  | Unsafe => UNSAFE_MEM_REGION
  | Shared => SHARED_MEM_REGION
  end.

(** Which function allocates the memory of a kind; I/O memory is never executable. *)
Definition allocate_kind {P V} `{PageAllocator P, PageAllocator V} (root phys_bits : Z) (gib : bool)
    (f : Flavour) (sz : Z) (no_execute : bool) : M (Kernel P V) Z :=
  match f with
  | Iomem => allocate_iomem root phys_bits gib sz
  | Safe => allocate root phys_bits gib sz no_execute
  | Unsafe => unsafe_allocate root phys_bits gib sz no_execute
  | Shared => shared_allocate root phys_bits gib sz no_execute
  | User => user_allocate root phys_bits gib sz no_execute
  end.

(** The flags it passes to [map]. *)
Definition kind_flags (f : Flavour) (no_execute : bool) : Z :=
  match f with
  | Iomem => execute_disable (writable (normal 0))
  | Safe => with_execute_disable no_execute (pkey SAFE_MEM_REGION (writable (normal 0)))
  | Unsafe => with_execute_disable no_execute (pkey UNSAFE_MEM_REGION (writable (normal 0)))
  | Shared => with_execute_disable no_execute (pkey SHARED_MEM_REGION (writable (normal 0)))
  | User => with_execute_disable no_execute (writable (normal 0))
  end.

Lemma kind_flags_ok f no_execute :
  plain_flags (kind_flags f no_execute) /\ contains HUGE_PAGE (kind_flags f no_execute) = false /\
  pkey_of (kind_flags f no_execute) = region_key f.
Proof. destruct f, no_execute; (split_and!; [by apply plain_flags_test|done|done]). Qed.

(** Which allocator operation a kind uses for physical and virtual memory. *)
Definition kind_pages {A} `{PageAllocator A} (f : Flavour) : Z -> M A (result Z unit) :=
  match f with Iomem | Safe => pa_allocate | _ => page_aligned end.

Lemma allocate_kind_eq {P V} `{PageAllocator P, PageAllocator V} (root phys_bits : Z) gib f sz no_execute :
  allocate_kind (P := P) (V := V) root phys_bits gib f sz no_execute =
  allocate_mapped root phys_bits gib (kind_pages f) (kind_pages f) sz (kind_flags f no_execute).
Proof. by destruct f. Qed.

(** ** Pairwise related lists *)

Section pairwise.

Context {A : Type} (R : A -> A -> Prop) `{!Symmetric R}.

Fixpoint pairwise (l : list A) : Prop :=
  match l with
  | [] => True
  | a :: tl => Forall (R a) tl /\ pairwise tl
  end.

#[export] Instance pairwise_proper : Proper ((≡ₚ) ==> iff) pairwise.
Proof.
  intros l1 l2 E. induction E as [|a l1 l2 E IH|a1 a2 l|l1 l2 l3 _ IH1 _ IH2]; simpl.
  - done.
  - by rewrite IH, E.
  - rewrite !Forall_cons. split; intros ((R1 & F1) & F2 & F3); (split_and!; [by symmetry|done|done|done]).
  - by rewrite IH1.
Qed.

End pairwise.

(** ** Correctness *)

Section correctness.

Context {P V : Type} `{PageAllocatorLaws P, PageAllocatorLaws V}.
Context (root phys_bits : Z) (supports_1gib_pages : bool).
Hypothesis Hbits : 12 <= phys_bits <= 52.
Hypothesis Hphys : pa_high (A := P) <= 2 ^ phys_bits.
Hypothesis Hvirt : pa_high (A := V) <= 2 ^ 47.

Implicit Types (k : Kernel P V).

Abbreviation phys k := (frames (mmu k)).
Abbreviation tables k := (mem (mmu k)).

(** The memory manager's invariant; no page larger than 4 KiB covers an
    address that virtual memory may still hand out. *)
Record kernel_ok k : Prop := {
  ko_mmu : mm_ok root phys_bits (mmu k);
  ko_virt : pa_ok (virt k);
  ko_flat : forall x, pa_free (virt k) x -> flat root (tables k) BasePageSize x
}.

(** A block of memory: virtual and physical address, size and page flags. *)
Record block := mkBlock { b_virt : Z; b_phys : Z; b_size : Z; b_flags : Z }.

Definition in_virt (b : block) (x : Z) : Prop := b_virt b <= x < b_virt b + b_size b.
Definition in_phys (b : block) (x : Z) : Prop := b_phys b <= x < b_phys b + b_size b.

(** A block in use: mapped page by page, free in neither allocator, and no page
    table lies in it. *)
Record block_ok k (b : block) : Prop := {
  bo_size : 0 < b_size b /\ b_size b mod 4096 = 0;
  bo_aligned : b_virt b mod 4096 = 0 /\ b_phys b mod 4096 = 0;
  bo_virt : pa_low (A := V) <= b_virt b /\ b_virt b + b_size b <= pa_high (A := V);
  bo_phys : pa_low (A := P) <= b_phys b /\ b_phys b + b_size b <= pa_high (A := P);
  bo_flags : plain_flags (b_flags b) /\ contains HUGE_PAGE (b_flags b) = false;
  bo_used : (forall x, in_virt b x -> ~ pa_free (virt k) x) /\ (forall x, in_phys b x -> ~ pa_free (phys k) x);
  bo_tables : forall t x, is_table (tables k) root t -> t <= x < t + 4096 -> ~ in_phys b x;
  bo_walk : forall x, in_virt b x ->
    walk (tables k) root x = Some (0%nat, range_entry BasePageSize (b_virt b) (b_phys b) (b_flags b) x)
}.

Lemma kind_pages_law {A} `{PageAllocatorLaws A} (a : A) f size :
  pa_ok a -> 0 < size <= 2 ^ 60 -> size mod 4096 = 0 ->
  exists r a', kind_pages f size a = Done (r, a') /\
    match r with
    | Ok p => pa_ok a' /\ p mod 4096 = 0 /\ takes (pa_free a) (pa_free a') p size
    | Err _ => a' = a
    end.
Proof.
  intros Hok Hs Hm. destruct (decide (f = Iomem \/ f = Safe)) as [Hf|Hf].
  - destruct (pa_allocate_law a size Hok) as (r & a' & E & Hr); [lia|done|]. exists r, a'.
    split; [|done]. by destruct Hf as [-> | ->].
  - destruct (pa_allocate_aligned_law a size 4096 Hok Hs) as (r & a' & E & Hr); [by exists 12|lia|done|].
    exists r, a'. split; [destruct f; try done; exfalso; naive_solver|]. destruct r; naive_solver.
Qed.

Lemma takes_range {A} `{PageAllocatorLaws A} (a a' : A) p size :
  pa_ok a -> 0 < size -> takes (pa_free a) (pa_free a') p size ->
  pa_low (A := A) <= p /\ p + size <= pa_high (A := A).
Proof.
  intros Hok Hs [Ht _]. pose proof (pa_inside a p Hok (Ht p ltac:(lia))).
  pose proof (pa_inside a (p + size - 1) Hok (Ht (p + size - 1) ltac:(lia))). lia.
Qed.

(** The pages of an interval of whole pages. *)
Lemma page_in v size i : size mod 4096 = 0 -> 0 <= i < size / 4096 -> v <= v + i * 4096 < v + size.
Proof. intros Hm Hi. pose proof (Z.div_mod size 4096 ltac:(lia)). lia. Qed.

Lemma map_block k v p size flags :
  kernel_ok k -> 0 < size -> size mod 4096 = 0 -> v mod 4096 = 0 -> p mod 4096 = 0 ->
  pa_low (A := V) <= v -> v + size <= pa_high (A := V) ->
  pa_low (A := P) <= p -> p + size <= pa_high (A := P) ->
  (forall x, v <= x < v + size -> flat root (tables k) BasePageSize x) ->
  supply (3 * Z.to_nat (size / 4096)) (phys k) ->
  plain_flags flags -> contains HUGE_PAGE flags = false ->
  exists s', Paging.map root phys_bits supports_1gib_pages BasePageSize v p (size / SIZE BasePageSize) flags (mmu k)
      = Done (tt, s') /\
    range_mapped root phys_bits (mmu k) BasePageSize v (size / 4096) p flags false s' /\
    takes_at_most (3 * Z.to_nat (size / 4096)) (phys k) (frames s').
Proof.
  intros Hk Hs Hm Hv Hp Hv1 Hv2 Hp1 Hp2 Hf Hsup Hfl Hh. pose proof (pa_range (A := V)) as HrV.
  pose proof (pa_range (A := P)) as HrP. pose proof (Z.div_mod size 4096 ltac:(lia)) as Hd.
  assert (Hsz : size / 4096 * 4096 = size) by lia.
  destruct (map_spec root phys_bits supports_1gib_pages Hbits BasePageSize v (size / 4096) p flags (mmu k) 0)
    as (s' & E & HR & _ & HT); simpl SIZE; rewrite ?Hv, ?Z.sub_0_r, ?Hsz; try done; try lia.
  - apply ko_mmu, Hk.
  - intros i Hi. apply Hf. by apply page_in.
  - by rewrite Nat.add_0_r.
  - simpl SIZE in *. rewrite Hv, Z.sub_0_r in HR. by exists s'.
Qed.

(** The kernel after the physical allocator gave a block away. *)
Definition with_frames k (f : P) : Kernel P V := mkKernel (mkMmu (tables k) (tlb (mmu k)) f) (virt k).

Lemma take_phys k (f : P) p size :
  kernel_ok k -> pa_ok f -> takes (pa_free (phys k)) (pa_free f) p size -> kernel_ok (with_frames k f).
Proof.
  intros [[T1 T2 T3 T4] K2 K3] Hf [_ Ht]. split; [|done|done]. split; simpl; [done|done| |].
  - intros x Hx. apply T3. by apply Ht in Hx as [Hx _].
  - intros t x Hi Hx Hfree. apply (T4 t x Hi Hx). by apply Ht in Hfree as [Hfree _].
Qed.

(** What a successful allocation of a block does. *)
Record block_allocated k (b : block) k' : Prop := {
  ba_ok : kernel_ok k';
  ba_block : block_ok k' b;
  ba_virt : takes (pa_free (virt k)) (pa_free (virt k')) (b_virt b) (b_size b);
  ba_phys : forall x, in_phys b x -> pa_free (phys k) x;
  ba_phys_left : forall x, pa_free (phys k') x -> pa_free (phys k) x;
  ba_tables : forall t x, is_table (tables k') root t -> t <= x < t + 4096 ->
    is_table (tables k) root t \/ pa_free (phys k) x;
  ba_walk : forall x, lower x -> ~ in_virt b x -> walk (tables k') root x = walk (tables k) root x;
  ba_frames : exists ts, (Datatypes.length ts <= 3 * Z.to_nat (b_size b / 4096))%nat /\
    (forall x, pa_free (phys k') x <-> pa_free (phys k) x /\ ~ in_phys b x /\ Forall (fun t => ~ t <= x < t + 4096) ts) /\
    (forall t, is_table (tables k') root t <-> is_table (tables k) root t \/ t ∈ ts)
}.

Lemma block_mapped k (P1 : P) (V1 : V) v p size flags :
  kernel_ok k -> 0 < size -> size mod 4096 = 0 -> plain_flags flags -> contains HUGE_PAGE flags = false ->
  pa_ok P1 -> p mod 4096 = 0 -> takes (pa_free (phys k)) (pa_free P1) p size ->
  pa_ok V1 -> v mod 4096 = 0 -> takes (pa_free (virt k)) (pa_free V1) v size ->
  supply (3 * Z.to_nat (size / 4096)) P1 ->
  exists s', Paging.map root phys_bits supports_1gib_pages BasePageSize v p (size / SIZE BasePageSize) flags
      (mmu (with_frames k P1)) = Done (tt, s') /\
    block_allocated k (mkBlock v p size flags) (mkKernel s' V1).
Proof.
  intros Hk Hs Hm Hfl Hh HP Hp Tp HV Hv Tv Hsup.
  pose proof (takes_range _ _ _ _ (mk_frames _ _ _ (ko_mmu k Hk)) Hs Tp) as [Lp Up].
  pose proof (takes_range _ _ _ _ (ko_virt k Hk) Hs Tv) as [Lv Uv].
  destruct (map_block (with_frames k P1) v p size flags) as (s' & E & [R1 RG R3 R4 _ RK] & HT); try done.
  { by eapply take_phys. }
  { intros x Hx. by apply (ko_flat k Hk), (proj1 Tv). }
  assert (Hsz : size / 4096 * SIZE BasePageSize = size)
    by (pose proof (Z.div_mod size 4096 ltac:(lia)); simpl SIZE; lia).
  destruct (frames_accounted root phys_bits Hbits (mmu (with_frames k P1)) s' _
    (ko_mmu _ (take_phys k P1 p size Hk HP Tp)) R1 RG (RK eq_refl) HT) as (ts & Hlen & Hts & Htab).
  destruct RG as [RT RF]. rewrite Hsz in R3. exists s'. split; [done|]. destruct Tp as [Tp1 Tp2]. destruct Tv as [Tv1 Tv2].
  pose proof (pa_range (A := V)) as HrV.
  assert (Hlow : forall x, pa_free (virt k) x -> lower x).
  { intros x Hx. pose proof (pa_inside (virt k) x (ko_virt k Hk) Hx). unfold lower. lia. }
  assert (RF' : forall x, pa_free (frames s') x -> pa_free P1 x) by exact RF.
  split; simpl.
  - split; [done|done|]. simpl. intros x [Hx _]%Tv2. apply R4; [by apply lower_user, Hlow|]. by apply (ko_flat k Hk).
  - split; unfold in_virt, in_phys; simpl; try done.
    + split; intros x Hx Hf; [apply Tv2 in Hf; tauto|]. apply RF' in Hf. apply Tp2 in Hf. tauto.
    + intros t x Ht Hx Hin. destruct (RT t x Ht Hx) as [Ht'|Hf].
      * by apply (mk_apart _ _ _ (ko_mmu k Hk) t x Ht' Hx), Tp1.
      * by apply Tp2 in Hf as [_ []].
    + intros x Hx. rewrite R3; [by rewrite decide_True|]. by apply Hlow, Tv1.
  - by split.
  - unfold in_phys. simpl. auto.
  - intros x Hf%RF'. by apply Tp2 in Hf as [Hf _].
  - intros t x Ht Hx. destruct (RT t x Ht Hx) as [Ht'|Hf]; [by left|right]. by apply Tp2 in Hf as [Hf _].
  - intros x Hx Ho. rewrite R3 by done. by rewrite decide_False.
  - exists ts. split_and!; [done| |exact Htab]. intros x. etransitivity; [apply Hts|].
    etransitivity; [apply and_iff_compat_r, (Tp2 x)|]. unfold in_phys. simpl. tauto.
Qed.

Lemma allocate_mapped_run k (P1 : P) (V1 : V) (get_phys : Z -> M P (result Z unit))
    (get_virt : Z -> M V (result Z unit)) sz flags (r : result Z unit) (rv : result Z unit) :
  0 < sz <= 2 ^ 47 ->
  get_phys (align_up_val sz 4096) (phys k) = Done (r, P1) ->
  get_virt (align_up_val sz 4096) (virt k) = Done (rv, V1) ->
  allocate_mapped root phys_bits supports_1gib_pages get_phys get_virt sz flags k =
    match r, rv with
    | Ok p, Ok v =>
        let? (_, s') := Paging.map root phys_bits supports_1gib_pages BasePageSize v p
          (align_up_val sz 4096 / SIZE BasePageSize) flags (mmu (with_frames k P1)) in
        Done (v, mkKernel s' V1)
    | _, _ => Panic
    end.
Proof.
  intros Hs Ep Ev. unfold allocate_mapped. assert (2 ^ 47 + 4096 < W64) by done.
  rewrite (bind_lift_done _ _ _ _ (align_up_done sz (SIZE BasePageSize) ltac:(lia) ltac:(by exists 12)
             ltac:(simpl; lia))). simpl SIZE.
  rewrite (bind_done _ _ _ r (with_frames k P1)) by (unfold physicalmem; by rewrite Ep).
  destruct r as [p|[]]; [|done]. cbn [unwrap_res]. rewrite (bind_lift_done _ _ p) by done.
  rewrite (bind_done _ _ _ rv (mkKernel (mmu (with_frames k P1)) V1)) by (unfold virtualmem; simpl; by rewrite Ev).
  destruct rv as [v|[]]; [|done]. cbn [unwrap_res]. rewrite (bind_lift_done _ _ v) by done.
  unfold paging_map, on_mmu, bind. simpl. by destruct (Paging.map _ _ _ _ _ _ _ _ _) as [[[] s']| |].
Qed.

(** Whether the allocators have a block for the request. *)
Definition refused k (f : Flavour) (size : Z) : Prop :=
  (exists P1, kind_pages f size (phys k) = Done (Err tt, P1)) \/
  (exists V1, kind_pages f size (virt k) = Done (Err tt, V1)).

(** Physical memory has frames left for page tables once the block is taken. *)
Definition tables_fit k (f : Flavour) (size : Z) : Prop :=
  forall p P1, kind_pages f size (phys k) = Done (Ok p, P1) -> supply (3 * Z.to_nat (size / 4096)) P1.

Lemma allocate_kind_spec k f sz no_execute :
  let size := align_up_val sz 4096 in
  kernel_ok k -> 0 < sz <= 2 ^ 47 -> tables_fit k f size ->
  (exists b k', allocate_kind root phys_bits supports_1gib_pages f sz no_execute k = Done (b_virt b, k') /\
     b_size b = size /\ b_flags b = kind_flags f no_execute /\ block_allocated k b k') \/
  (allocate_kind root phys_bits supports_1gib_pages f sz no_execute k = Panic /\ refused k f size).
Proof.
  intros size Hk Hs Hfit. assert (2 ^ 47 + 4096 < 2 ^ 60) by done.
  pose proof (align_up_val_spec sz 4096 ltac:(lia)) as [Hsz Hm]. fold size in Hsz, Hm.
  destruct (kind_pages_law (phys k) f size (mk_frames _ _ _ (ko_mmu k Hk)) ltac:(lia) Hm) as (r & P1 & Ep & Hp).
  destruct (kind_pages_law (virt k) f size (ko_virt k Hk) ltac:(lia) Hm) as (rv & V1 & Ev & Hv).
  rewrite allocate_kind_eq, (allocate_mapped_run k P1 V1 _ _ sz _ r rv Hs Ep Ev). fold size.
  destruct (kind_flags_ok f no_execute) as (F1 & F2 & _).
  destruct r as [p|[]]; [|right; split; [done|left; eauto]].
  destruct rv as [v|[]]; [|right; split; [done|right; eauto]]. left.
  destruct Hp as (HP & Hpm & Tp). destruct Hv as (HV & Hvm & Tv).
  destruct (block_mapped k P1 V1 v p size (kind_flags f no_execute) Hk ltac:(lia) Hm F1 F2 HP Hpm Tp HV Hvm Tv
              (Hfit p P1 Ep)) as (s' & E & Hb).
  exists (mkBlock v p size (kind_flags f no_execute)), (mkKernel s' V1). by rewrite E.
Qed.

(** A block in use stays so when another one is allocated. *)
Lemma block_ok_allocated k b b' k' :
  block_ok k b -> block_allocated k b' k' ->
  block_ok k' b /\ (forall x, in_virt b x -> ~ in_virt b' x) /\ (forall x, in_phys b x -> ~ in_phys b' x).
Proof.
  intros [B1 B2 B3 B4 B5 [B6 B6'] B7 B8] [A1 _ [A2 A2'] A3 A3' A4 A5 _]. pose proof (pa_range (A := V)) as HrV.
  pose proof (pa_range (A := P)) as HrP.
  assert (D : forall x, in_virt b x -> ~ in_virt b' x) by (intros x Hx Hx'; by apply (B6 x Hx), A2).
  assert (D' : forall x, in_phys b x -> ~ in_phys b' x) by (intros x Hx Hx'; by apply (B6' x Hx), A3).
  split_and!; try done. split; try done.
  - split; [intros x Hx [Hf _]%A2'; by apply (B6 x)|intros x Hx Hf%A3'; by apply (B6' x)].
  - intros t x Ht Hx Hin. destruct (A4 t x Ht Hx) as [Ht'|Hf]; [by apply (B7 t x)|by apply (B6' x)].
  - intros x Hx. rewrite A5; [by apply B8| |by apply D]. unfold in_virt in Hx. unfold lower. lia.
Qed.

Lemma block_entry k b x :
  block_ok k b -> in_virt b x ->
  let e := range_entry BasePageSize (b_virt b) (b_phys b) (b_flags b) x in
  frame_from 12 e + x mod 4096 = b_phys b + (x - b_virt b) /\ pkey_of e = pkey_of (b_flags b).
Proof.
  intros [[B1 B1'] [B2 B2'] B3 B4 [B5 B5'] _ _ _] Hx. pose proof (pa_range (A := P)) as HrP.
  pose proof (Z.div_mod (b_size b) 4096 ltac:(lia)) as Hd. unfold in_virt in Hx.
  apply (range_entry_spec phys_bits Hbits BasePageSize (b_virt b) (b_size b / 4096) (b_phys b) (b_flags b) x);
    simpl SIZE; try done; lia.
Qed.

Lemma block_entry_address k b :
  block_ok k b -> address (range_entry BasePageSize (b_virt b) (b_phys b) (b_flags b) (b_virt b)) = b_phys b.
Proof.
  intros [[B1 B1'] [B2 B2'] B3 B4 [B5 B5'] _ _ _]. pose proof (pa_range (A := P)) as HrP.
  unfold range_entry. rewrite Z.sub_diag, Z.div_0_l, Z.mul_0_l, Z.add_0_r by done. unfold page_entry.
  destruct (page_flags_plain BasePageSize (b_flags b) B5) as [Hpf _].
  apply (entry_of_address phys_bits); [lia| |done].
  split; [lia|]. unfold entry_align. rewrite page_flags_huge by done. done.
Qed.

(** Giving a block back. *)
Lemma mm_deallocate_spec k b sz :
  kernel_ok k -> block_ok k b -> 0 < sz <= 2 ^ 47 -> b_size b = align_up_val sz 4096 ->
  exists k', deallocate root supports_1gib_pages (b_virt b) sz k = Done (tt, k') /\ kernel_ok k' /\
    mmu k' = mkMmu (tables k) (tlb (mmu k)) (phys k') /\
    gives (pa_free (virt k)) (pa_free (virt k')) (b_virt b) (b_size b) /\
    gives (pa_free (phys k)) (pa_free (phys k')) (b_phys b) (b_size b).
Proof.
  intros Hk Hb Hs Esz. pose proof Hb as [[B1 B1'] [B2 B2'] [B3 B3'] [B4 B4'] [B5 B5'] [B6 B6'] B7 B8].
  pose proof (pa_range (A := V)) as HrV. assert (2 ^ 47 + 4096 < W64) by done.
  assert (Hlow : lower (b_virt b)) by (unfold lower; lia).
  assert (Ege : get_page_table_entry root supports_1gib_pages BasePageSize (b_virt b) (mmu k) =
    Done (Some (range_entry BasePageSize (b_virt b) (b_phys b) (b_flags b) (b_virt b)), mmu k)).
  { unfold get_page_table_entry.
    rewrite (bind_lift_done _ _ _ _ (including_address_done supports_1gib_pages BasePageSize (b_virt b) Hlow ltac:(done))).
    refine (get_entry_spec root (mmu k) BasePageSize (b_virt b) _ _ Hlow _).
    - by eapply tree_window, mk_tree, ko_mmu.
    - apply B8. unfold in_virt. lia. }
  pose proof (block_entry_address k b Hb) as Ea.
  destruct (pa_deallocate_law (virt k) (b_virt b) (b_size b)) as (V1 & Ev & HV & Gv); try done; [by apply ko_virt|].
  destruct (pa_deallocate_law (phys k) (b_phys b) (b_size b)) as (P1 & Ep & HP & Gp); try done.
  { exact (mk_frames _ _ _ (ko_mmu k Hk)). }
  exists (mkKernel (mkMmu (tables k) (tlb (mmu k)) P1) V1). split_and!; [|split|done|done|done]; simpl.
  - unfold deallocate. rewrite (bind_lift_done _ _ _ _ (align_up_done sz (SIZE BasePageSize) ltac:(lia) ltac:(by exists 12)
             ltac:(simpl; lia))). simpl SIZE. rewrite <- Esz.
    rewrite (bind_done _ _ _ (Some (range_entry BasePageSize (b_virt b) (b_phys b) (b_flags b) (b_virt b))) k)
      by (unfold on_mmu; rewrite Ege; simpl; by destruct k).
    rewrite (bind_done _ _ _ tt (mkKernel (mmu k) V1)) by (unfold virtualmem; by rewrite Ev).
    unfold physicalmem. simpl. by rewrite Ea, Ep.
  - destruct (ko_mmu k Hk) as [T1 T2 T3 T4]. split; simpl; [done|done| |].
    + intros x [Hx|Hx]%Gp; [by apply T3|lia].
    + intros t x Ht Hx [Hf|Hf]%Gp; [by apply (T4 t x)|]. by apply (B7 t x).
  - done.
  - simpl. intros x [Hx|Hx]%Gv; [by apply (ko_flat k Hk)|].
    by apply (walk_entry_at root (tables k) BasePageSize x _ (B8 x Hx)).
Qed.

(** A block in use stays so when another one is freed. *)
Lemma block_ok_deallocated k b b' k' :
  block_ok k b -> (forall x, in_virt b x -> ~ in_virt b' x) -> (forall x, in_phys b x -> ~ in_phys b' x) ->
  mmu k' = mkMmu (tables k) (tlb (mmu k)) (phys k') ->
  gives (pa_free (virt k)) (pa_free (virt k')) (b_virt b') (b_size b') ->
  gives (pa_free (phys k)) (pa_free (phys k')) (b_phys b') (b_size b') ->
  block_ok k' b.
Proof.
  intros [B1 B2 B3 B4 B5 [B6 B6'] B7 B8] D D' Em Gv Gp.
  assert (Et : tables k' = tables k) by (rewrite Em; reflexivity).
  split; rewrite ?Et; [exact B1|exact B2|exact B3|exact B4|exact B5| |exact B7|exact B8].
  split; intros x Hx Hf; [apply Gv in Hf as [Hf|Hf]|apply Gp in Hf as [Hf|Hf]].
  - exact (B6 x Hx Hf).
  - exact (D x Hx Hf).
  - exact (B6' x Hx Hf).
  - exact (D' x Hx Hf).
Qed.

(** *** Clients *)

Definition apart (b b' : block) : Prop :=
  (forall x, in_virt b x -> ~ in_virt b' x) /\ (forall x, in_phys b x -> ~ in_phys b' x).

#[local] Instance apart_sym : Symmetric apart.
Proof. intros b b' [A1 A2]. split; intros x Hx Hx'; [by apply (A1 x)|by apply (A2 x)]. Qed.

(** Parts of the kernel allocate memory of some kind or give a block back. *)
Inductive mm_step : Kernel P V * list block -> Kernel P V * list block -> Prop :=
  | mm_step_allocate k live f sz no_execute b k' :
      0 < sz <= 2 ^ 47 -> tables_fit k f (align_up_val sz 4096) ->
      allocate_kind root phys_bits supports_1gib_pages f sz no_execute k = Done (b_virt b, k') ->
      b_size b = align_up_val sz 4096 -> b_flags b = kind_flags f no_execute ->
      translate (tables k') root (b_virt b) = Some (b_phys b) ->
      mm_step (k, live) (k', b :: live)
  | mm_step_deallocate k live b sz live' k' :
      live ≡ₚ b :: live' -> 0 < sz <= 2 ^ 47 -> b_size b = align_up_val sz 4096 ->
      deallocate root supports_1gib_pages (b_virt b) sz k = Done (tt, k') ->
      mm_step (k, live) (k', live').

Definition clients_ok (st : Kernel P V * list block) : Prop :=
  kernel_ok st.1 /\ Forall (block_ok st.1) st.2 /\ pairwise apart st.2.

Lemma block_translate k b x :
  block_ok k b -> in_virt b x -> translate (tables k) root x = Some (b_phys b + (x - b_virt b)).
Proof.
  intros Hb Hx. unfold translate. rewrite (bo_walk k b Hb x Hx). f_equal.
  apply (block_entry k b x Hb Hx).
Qed.

Lemma allocate_kind_block k f sz no_execute b k' :
  kernel_ok k -> 0 < sz <= 2 ^ 47 -> tables_fit k f (align_up_val sz 4096) ->
  allocate_kind root phys_bits supports_1gib_pages f sz no_execute k = Done (b_virt b, k') ->
  b_size b = align_up_val sz 4096 -> b_flags b = kind_flags f no_execute ->
  translate (tables k') root (b_virt b) = Some (b_phys b) -> block_allocated k b k'.
Proof.
  intros Hk Hs Hfit E Esz Efl Etr.
  destruct (allocate_kind_spec k f sz no_execute Hk Hs Hfit) as [(b2 & k2 & E2 & S2 & F2 & Hb)|[E2 _]]; [|congruence].
  rewrite E2 in E. injection E as Ev <-. pose proof (ba_block _ _ _ Hb) as Hb2.
  assert (b2 = b) as ->; [|done].
  rewrite <- Ev, (block_translate k2 b2) in Etr; [|done|].
  - destruct b, b2; simpl in *. injection Etr as Etr. f_equal; lia || congruence.
  - pose proof (bo_size _ _ Hb2). unfold in_virt. lia.
Qed.

Lemma mm_step_ok st st' : clients_ok st -> mm_step st st' -> clients_ok st'.
Proof.
  intros (Hk & HF & HA) Hstep.
  destruct Hstep as [k live f sz nx b k' Hs Hfit E Esz Efl Etr|k live b sz live' k' Hp Hs Esz E]; simpl in *.
  - pose proof (allocate_kind_block k f sz nx b k' Hk Hs Hfit E Esz Efl Etr) as Hb.
    pose proof (ba_block _ _ _ Hb) as Hb2.
    rewrite Forall_forall in HF. split_and!; simpl; [by eapply ba_ok| |].
    + constructor; [done|]. apply Forall_forall. intros b' Hin. by eapply block_ok_allocated; [apply HF|].
    + split; [|done]. apply Forall_forall. intros b' Hin. symmetry.
      by eapply block_ok_allocated; [apply HF|].
  - rewrite Hp in HF, HA. apply Forall_cons in HF as [Hb HF]. destruct HA as [HA1 HA2].
    destruct (mm_deallocate_spec k b sz Hk Hb Hs Esz) as (k2 & E2 & Hk2 & Em & Gv & Gp).
    rewrite E2 in E. injection E as <-. split_and!; simpl; [done| |done].
    rewrite Forall_forall in HF, HA1. apply Forall_forall. intros b' Hin.
    destruct (HA1 b' Hin) as [D D']. apply (block_ok_deallocated k b' b k2); try done; naive_solver.
Qed.

(** *** Theorems *)

(** C17. Allocating memory of any kind either panics, and then one of the two
    allocators has no block for it, or returns the address [v] of whole pages of
    virtual memory that were free. They are mapped one behind the other onto
    physical memory that was free and in which no page table lies; their entries
    are exactly those for the flags of the kind, its protection key among them.
    The entries of all other addresses stay as they were; the virtual memory
    manager gives away exactly the block, the physical one exactly the block and
    at most three frames for each page, and these are exactly the new page
    tables. The invariant holds again. *)
Theorem mm_allocate_correct k f sz no_execute :
  let size := align_up_val sz 4096 in
  kernel_ok k -> 0 < sz <= 2 ^ 47 -> tables_fit k f size ->
  match allocate_kind root phys_bits supports_1gib_pages f sz no_execute k with
  | Done (v, k') => exists p ts, kernel_ok k' /\
      takes (pa_free (virt k)) (pa_free (virt k')) v size /\
      (forall x, p <= x < p + size -> pa_free (phys k) x /\ forall t, is_table (tables k') root t -> ~ t <= x < t + 4096) /\
      (forall x, pa_free (phys k') x <->
         pa_free (phys k) x /\ ~ p <= x < p + size /\ Forall (fun t => ~ t <= x < t + 4096) ts) /\
      (Datatypes.length ts <= 3 * Z.to_nat (size / 4096))%nat /\
      (forall t, is_table (tables k') root t <-> is_table (tables k) root t \/ t ∈ ts) /\
      (forall x, lower x -> walk (tables k') root x =
         if decide (v <= x < v + size) then Some (0%nat, range_entry BasePageSize v p (kind_flags f no_execute) x)
         else walk (tables k) root x) /\
      (forall x, lower x -> translate (tables k') root x =
         if decide (v <= x < v + size) then Some (p + (x - v)) else translate (tables k) root x) /\
      (forall x, v <= x < v + size ->
         exists e, walk (tables k') root x = Some (0%nat, e) /\ pkey_of e = region_key f)
  | Panic => refused k f size
  | OutOfFuel => False
  end.
Proof.
  intros size Hk Hs Hfit.
  destruct (allocate_kind_spec k f sz no_execute Hk Hs Hfit) as [(b & k' & E & S1 & F1 & Hb)|[E Hr]];
    rewrite E; [|exact Hr].
  pose proof (ba_block _ _ _ Hb) as Hb'. destruct (ba_frames _ _ _ Hb) as (ts & Hlen & Hfree & Htab).
  exists (b_phys b), ts. fold size in S1. rewrite <- S1, <- F1. split_and!; try done.
  - apply (ba_ok _ _ _ Hb).
  - apply (ba_virt _ _ _ Hb).
  - intros x Hx. split; [by apply (ba_phys _ _ _ Hb)|]. intros t Ht Hin. by apply (bo_tables _ _ Hb' t x).
  - intros x Hx. case_decide as C; [by apply (bo_walk _ _ Hb')|by apply (ba_walk _ _ _ Hb)].
  - intros x Hx. case_decide as C; [by apply block_translate|]. unfold translate.
    by rewrite (ba_walk _ _ _ Hb x Hx C).
  - intros x Hx. eexists. split; [by apply (bo_walk _ _ Hb')|].
    rewrite (proj2 (block_entry k' b x Hb' Hx)), F1. apply kind_flags_ok.
Qed.

(** Giving a block back returns exactly its virtual and exactly its physical
    memory to the allocators and keeps the invariant. The pages stay mapped: no
    translation changes and no TLB entry is invalidated. *)
Theorem mm_deallocate_correct k b sz :
  kernel_ok k -> block_ok k b -> 0 < sz <= 2 ^ 47 -> b_size b = align_up_val sz 4096 ->
  exists k', deallocate root supports_1gib_pages (b_virt b) sz k = Done (tt, k') /\ kernel_ok k' /\
    gives (pa_free (virt k)) (pa_free (virt k')) (b_virt b) (b_size b) /\
    gives (pa_free (phys k)) (pa_free (phys k')) (b_phys b) (b_size b) /\
    (forall x, translate (tables k') root x = translate (tables k) root x) /\ tlb (mmu k') = tlb (mmu k).
Proof.
  intros Hk Hb Hs Esz. destruct (mm_deallocate_spec k b sz Hk Hb Hs Esz) as (k' & E & Hk' & Em & Gv & Gp).
  exists k'. split_and!; try done; rewrite Em; done.
Qed.

(** C3. Whatever sequence of allocations and deallocations the kernel goes
    through, the blocks in use overlap neither in virtual nor in physical memory,
    no page table lies in one of them, each is still mapped where it was, with its
    flags' protection key, and each can be given back. *)
Theorem mm_clients_safe k0 k live :
  kernel_ok k0 -> rtc mm_step (k0, []) (k, live) ->
  pairwise apart live /\
  (forall b, b ∈ live ->
     (forall x, in_virt b x -> translate (tables k) root x = Some (b_phys b + (x - b_virt b)) /\
        exists e, walk (tables k) root x = Some (0%nat, e) /\ pkey_of e = pkey_of (b_flags b)) /\
     (forall t x, is_table (tables k) root t -> t <= x < t + 4096 -> ~ in_phys b x) /\
     (forall sz, 0 < sz <= 2 ^ 47 -> b_size b = align_up_val sz 4096 ->
        is_done (deallocate root supports_1gib_pages (b_virt b) sz k))).
Proof.
  intros H0k Hr. assert (Hc : clients_ok (k, live)).
  { assert (clients_ok (k0, [])) as H00 by (by split_and!). revert H00.
    induction Hr as [|st1 st2 st3 S _ IH]; [done|]. intros Hst. by eapply IH, mm_step_ok. }
  destruct Hc as (Hk & HF & HA). split; [done|]. intros b Hin.
  assert (Hb : block_ok k b) by (rewrite Forall_forall in HF; by apply HF).
  split_and!.
  - intros x Hx. split; [by apply block_translate|]. eexists. split; [by apply (bo_walk _ _ Hb)|].
    apply (block_entry k b x Hb Hx).
  - apply (bo_tables _ _ Hb).
  - intros sz Hs Esz. destruct (mm_deallocate_spec k b sz Hk Hb Hs Esz) as (k' & E & _). by eexists.
Qed.

(** The first 2 MiB mapped onto themselves, before the null page gets its key. *)
Definition low_flags : Z := pkey SAFE_MEM_REGION (execute_disable (writable (normal 0))).

Lemma low_entry x :
  0 <= x < 0x200000 -> 21 <= phys_bits ->
  let e := range_entry BasePageSize 0 0 low_flags x in
  frame_from 12 e + x mod 4096 = x /\ pkey_of e = 1 /\ in_u64 e.
Proof.
  intros Hx Hb. assert (2 ^ 21 <= 2 ^ phys_bits) by (apply Z.pow_le_mono_r; lia).
  assert (Hf : plain_flags low_flags) by (by apply plain_flags_test).
  destruct (range_entry_spec phys_bits Hbits BasePageSize 0 512 0 low_flags x) as [E1 E2]; simpl SIZE; try done; try lia.
  cbv zeta. split_and!; [|by rewrite E2|].
  - change (page_bits (MAP_LEVEL BasePageSize)) with 12 in E1. change (2 ^ 12) with 4096 in E1. lia.
  - apply (page_entry_spec phys_bits Hbits BasePageSize). simpl SIZE.
    pose proof (Z.div_mod x 4096 ltac:(lia)). pose proof (Z.mod_pos_bound x 4096 ltac:(lia)).
    rewrite Z.sub_0_r. split_and!; [done|done|lia|lia|]. by rewrite Z.add_0_l, Z.mod_mul.
Qed.

Lemma map_low k :
  kernel_ok k -> (forall x, 0 <= x < 0x200000 -> flat root (tables k) BasePageSize x) ->
  supply 1536 (phys k) -> 21 <= phys_bits ->
  exists s', Paging.map root phys_bits supports_1gib_pages BasePageSize 0 0 512 low_flags (mmu k) = Done (tt, s') /\
    tree_ok (mem s') root /\
    forall x, lower x -> walk (mem s') root x =
      if decide (x < 0x200000) then Some (0%nat, range_entry BasePageSize 0 0 low_flags x) else walk (tables k) root x.
Proof.
  intros Hk Hf Hsup Hb. assert (2 ^ 21 <= 2 ^ phys_bits) by (apply Z.pow_le_mono_r; lia).
  destruct (map_spec root phys_bits supports_1gib_pages Hbits BasePageSize 0 512 0 low_flags (mmu k) 0)
    as (s' & E & R & _); simpl SIZE; try done; try lia.
  - apply ko_mmu, Hk.
  - intros i Hi. apply Hf. rewrite Z.mod_0_l by done. lia.
  - by apply plain_flags_test.
  - exists s'. split_and!; [exact E|apply (rm_ok _ _ _ _ _ _ _ _ _ _ R)|]. intros x Hx.
    rewrite (rm_walk _ _ _ _ _ _ _ _ _ _ R x Hx). change (0 - 0 mod SIZE BasePageSize) with 0. simpl SIZE.
    unfold lower in Hx. destruct (decide (x < 0x200000)); [by rewrite decide_True by lia|by rewrite decide_False by lia].
Qed.

(** [init_pages_before_kernel] maps the first 2 MiB onto themselves: the
    null page with key 0, for the user, the rest as safe memory. *)
Theorem init_pages_before_kernel_correct k :
  kernel_ok k -> (forall x, 0 <= x < 0x200000 -> flat root (tables k) BasePageSize x) ->
  supply 1536 (phys k) -> 21 <= phys_bits ->
  exists k', init_pages_before_kernel root phys_bits supports_1gib_pages k = Done (tt, k') /\ virt k' = virt k /\
    forall x, lower x ->
      if decide (x < 0x200000)
      then translate (tables k') root x = Some x /\
           exists e, walk (tables k') root x = Some (0%nat, e) /\ pkey_of e = if decide (x < 4096) then 0 else 1
      else walk (tables k') root x = walk (tables k) root x.
Proof.
  intros Hk Hf Hsup Hb. destruct (map_low k Hk Hf Hsup Hb) as (s1 & E1 & T1 & W1).
  destruct (set_pkey_loop_spec root supports_1gib_pages BasePageSize 0 0 1 s1 T1) as (s2 & E2 & _ & _ & _ & W2 & _);
    change (0 - 0 mod SIZE BasePageSize) with 0 in *; simpl SIZE in *; try done; try lia.
  { intros i Hi. assert (i = 0) as -> by lia. exists (range_entry BasePageSize 0 0 low_flags 0).
    rewrite W1 by done. split; [done|]. by apply low_entry. }
  exists (mkKernel s2 (virt k)). split_and!; [|done|].
  - unfold init_pages_before_kernel, paging_map, on_mmu, bind. change (0x200000 / SIZE BasePageSize) with 512.
    fold low_flags. rewrite E1. simpl. unfold set_pkey_on_page_table_entry. change (Z.to_nat 1) with 1%nat.
    by rewrite E2.
  - intros x Hx. assert (0 <= x) by apply Hx. cbn [mmu]. specialize (W2 x Hx). unfold rekeyed in W2. simpl SIZE in W2.
    specialize (W1 x Hx).
    destruct (decide (x < 0x200000)) as [C|C].
    2: { rewrite W2, decide_False by lia. exact W1. }
    destruct (low_entry x ltac:(lia) Hb) as (A1 & A2 & A3). unfold translate. rewrite W2, W1.
    destruct (decide (x < 4096)) as [C'|C'].
    + rewrite decide_True by lia. cbn [fmap option_fmap option_map fst snd]. split.
      * f_equal. rewrite (with_pkey_translate 0 (range_entry BasePageSize 0 0 low_flags x) 0 x ltac:(lia) A3 ltac:(lia)).
        exact A1.
      * eexists. split; [done|]. by apply with_pkey_pkey.
    + rewrite decide_False by lia. split; [f_equal; exact A1|]. by eexists.
Qed.

End correctness.

(** ** An example *)

(** A check for [supply] that computes. *)
Fixpoint supply_test {F} `{FrameSource F} (n : nat) (f : F) : bool :=
  match n with
  | O => true
  | S n' => match frame_alloc 4096 f with
            | Done (Ok _, f') => supply_test n' f'
            | _ => false
            end
  end.

Lemma supply_test_ok {F} `{FrameSource F} n (f : F) : supply_test n f = true -> supply n f.
Proof.
  revert f. induction n as [|n IH]; intros f; simpl; [done|].
  destruct (frame_alloc 4096 f) as [[[p|] f']| |] eqn:E; try done. intros Ht. exists p, f'. auto.
Qed.

Section sample.

Definition sample_end : Z := 0x800000.
Definition sample_top : Z := 0x10000000.

#[local] Instance sample_phys : PageAllocator PhysMem := phys_allocator sample_end.
#[local] Instance sample_virt : PageAllocator VirtMem := virt_allocator sample_end.
#[local] Instance sample_phys_laws : PageAllocatorLaws PhysMem :=
  phys_allocator_laws sample_end sample_top ltac:(by vm_compute) ltac:(by vm_compute).
#[local] Instance sample_virt_laws : PageAllocatorLaws VirtMem :=
  virt_allocator_laws sample_end ltac:(by vm_compute).

Definition run_state {S A} (m : M S A) (s : S) : S := match m s with Done (_, s') => s' | _ => s end.

Lemma run_done {S A} (m : M S A) (s : S) a :
  match m s with Done (v, _) => Some v | _ => None end = Some a -> m s = Done (a, run_state m s).
Proof. unfold run_state. destruct (m s) as [[v s']| |]; [|done|done]. by intros [= ->]. Qed.

(** An empty address space, memory from 8 MiB to 256 MiB, as the two [init] leave it. *)
Definition sample_kernel : Kernel PhysMem VirtMem :=
  mkKernel
    (mkMmu (empty_tree sample_root) []
       (run_state (phys_init 0 sample_end 0 None sample_top) (mkPhysMem FreeList_new 0)))
    (run_state (virt_init sample_end) (mkVirtMem FreeList_new)).

Lemma sample_free_phys x : pa_free (frames (mmu sample_kernel)) x <-> sample_end <= x < sample_top.
Proof.
  destruct (push_value_repr FreeList_new [] (mkEntry sample_end sample_top) list_repr_empty) as (L & E & HR).
  change (list_free (PHYSICAL_FREE_LIST (frames (mmu sample_kernel))) x <-> sample_end <= x < sample_top).
  assert (PHYSICAL_FREE_LIST (frames (mmu sample_kernel)) = L) as ->
    by (vm_compute in E; injection E as <-; by vm_compute).
  rewrite (list_free_repr _ _ x HR). unfold FreeList.free. split.
  - intros (e & [->|[]%not_elem_of_nil]%elem_of_cons & Hx). exact Hx.
  - intros Hx. eexists. split; [by left|]. exact Hx.
Qed.

Lemma pushed_pages lo hi L :
  0 <= lo < hi -> lo mod 4096 = 0 -> hi mod 4096 = 0 -> hi < W64 ->
  push_value (mkEntry lo hi) FreeList_new = Done (tt, L) -> pages_ok lo hi L.
Proof.
  intros Hl Hlo Hhi Hw E.
  destruct (push_value_repr FreeList_new [] (mkEntry lo hi) list_repr_empty) as (L' & E' & HR).
  rewrite E in E'. injection E' as <-. eexists. split_and!; [exact HR| | |].
  - simpl. lia.
  - repeat constructor; done.
  - repeat constructor; simpl; lia.
Qed.

Lemma sample_kernel_ok : kernel_ok sample_root 39 sample_kernel.
Proof.
  split; [split| |].
  - by apply empty_tree_ok.
  - apply (pushed_pages sample_end sample_top); [done|done|done|done|by vm_compute].
  - intros x Hx. change (pa_free (frames (mmu sample_kernel)) x) in Hx. apply sample_free_phys in Hx.
    unfold sample_top in Hx. lia.
  - intros t x (v & d & Hv & _ & E) Hx Hfree. change (pa_free (frames (mmu sample_kernel)) x) in Hfree.
    apply sample_free_phys in Hfree. change (mem (mmu sample_kernel)) with (empty_tree sample_root) in E.
    destruct d as [|d]; [|by rewrite empty_descend in E].
    simpl in E. injection E as <-. unfold sample_root, sample_end in *. lia.
  - apply (pushed_pages sample_end kernel_heap_end); [done|done|done|done|by vm_compute].
  - intros x Hx. change (mem (mmu sample_kernel)) with (empty_tree sample_root). apply empty_flat, lower_user.
    pose proof (pa_inside (virt sample_kernel) x) as Hin. simpl in Hin. unfold lower.
    enough (sample_end <= x < kernel_heap_end) by (unfold sample_end, kernel_heap_end in *; lia).
    apply Hin; [|done]. apply (pushed_pages sample_end kernel_heap_end); [done|done|done|done|by vm_compute].
Qed.

Lemma sample_phys_high : pa_high (A := PhysMem) <= 2 ^ 39.
Proof. change (sample_top <= 2 ^ 39). done. Qed.

Lemma sample_virt_high : pa_high (A := VirtMem) <= 2 ^ 47.
Proof. change (kernel_heap_end <= 2 ^ 47). done. Qed.

Definition tables_fit_test (f : Flavour) (size : Z) : bool :=
  match kind_pages f size (frames (mmu sample_kernel)) with
  | Done (Ok _, P1) => supply_test (3 * Z.to_nat (size / 4096)) P1
  | _ => true
  end.

Lemma sample_tables_fit f size : tables_fit_test f size = true -> tables_fit sample_kernel f size.
Proof.
  unfold tables_fit_test. intros Ht p P1 E. rewrite E in Ht. by apply supply_test_ok.
Qed.

Definition sample_allocate (f : Flavour) (sz : Z) := allocate_kind sample_root 39 false f sz true sample_kernel.

(** Shared memory for 5000 bytes: two pages, with protection key 3. *)
Lemma mm_allocate_correct_witness :
  exists k', sample_allocate Shared 5000 = Done (0x800000, k') /\
    exists e, walk (mem (mmu k')) sample_root 0x801000 = Some (0%nat, e) /\ pkey_of e = 3.
Proof.
  pose proof (mm_allocate_correct sample_root 39 false ltac:(lia) sample_phys_high sample_virt_high
    sample_kernel Shared 5000 true sample_kernel_ok ltac:(lia) (sample_tables_fit Shared 8192 ltac:(vm_compute; reflexivity))) as H.
  fold (sample_allocate Shared 5000) in H.
  assert (Hd : (match sample_allocate Shared 5000 with Done (v, _) => v | _ => 0 end) = 0x800000)
    by (vm_compute; reflexivity).
  destruct (sample_allocate Shared 5000) as [[v k']| |]; [|discriminate Hd|discriminate Hd].
  subst v. exists k'. split; [reflexivity|]. destruct H as (p & ts & _ & _ & _ & _ & _ & _ & _ & _ & Hw).
  destruct (Hw 0x801000) as (e & We & He); [change (align_up_val 5000 4096) with 8192; lia|]. exists e. by split.
Defined.

(** The block of the example above. *)
Definition sample_block : block := mkBlock 0x800000 0x800000 8192 (kind_flags Shared true).

Definition sample_kernel1 : Kernel PhysMem VirtMem :=
  run_state (allocate_kind sample_root 39 false Shared 5000 true) sample_kernel.

Lemma sample_step : sample_allocate Shared 5000 = Done (0x800000, sample_kernel1) /\
  translate (mem (mmu sample_kernel1)) sample_root 0x800000 = Some 0x800000.
Proof.
  split; [|vm_compute; reflexivity]. unfold sample_allocate, sample_kernel1.
  refine (run_done (allocate_kind sample_root 39 false Shared 5000 true) sample_kernel 0x800000 _).
  vm_compute. reflexivity.
Qed.

Lemma sample_block_ok : kernel_ok sample_root 39 sample_kernel1 /\ block_ok sample_root sample_kernel1 sample_block.
Proof.
  pose proof (allocate_kind_block sample_root 39 false ltac:(lia) sample_phys_high sample_virt_high
    sample_kernel Shared 5000 true sample_block sample_kernel1 sample_kernel_ok ltac:(lia)
    (sample_tables_fit Shared 8192 ltac:(vm_compute; reflexivity)) (proj1 sample_step) ltac:(vm_compute; reflexivity)
    eq_refl (proj2 sample_step)) as Hb.
  split; [apply (ba_ok _ _ _ _ _ Hb)|apply (ba_block _ _ _ _ _ Hb)].
Qed.

Lemma mm_deallocate_correct_witness :
  exists k', deallocate sample_root false 0x800000 5000 sample_kernel1 = Done (tt, k') /\
    translate (mem (mmu k')) sample_root 0x801234 = Some 0x801234.
Proof.
  destruct sample_block_ok as [Hk Hb].
  destruct (mm_deallocate_correct sample_root 39 false ltac:(lia) sample_phys_high sample_virt_high
    sample_kernel1 sample_block 5000 Hk Hb ltac:(lia) ltac:(by vm_compute)) as (k' & E & _ & _ & _ & Ht & _).
  exists k'. split; [exact E|]. rewrite Ht.
  apply (block_translate sample_root 39 ltac:(lia) sample_phys_high sample_kernel1 sample_block 0x801234 Hb).
  unfold in_virt. simpl. lia.
Defined.

Lemma mm_clients_safe_witness :
  pairwise apart [sample_block] /\ is_done (deallocate sample_root false 0x800000 5000 sample_kernel1).
Proof.
  destruct sample_step as [E Etr].
  destruct (mm_clients_safe sample_root 39 false ltac:(lia) sample_phys_high sample_virt_high
    sample_kernel sample_kernel1 [sample_block] sample_kernel_ok) as [H1 H2].
  - apply rtc_once. apply (mm_step_allocate sample_root 39 false sample_kernel [] Shared 5000 true sample_block).
    + lia.
    + apply (sample_tables_fit Shared 8192). vm_compute. reflexivity.
    + exact E.
    + vm_compute. reflexivity.
    + reflexivity.
    + exact Etr.
  - split; [exact H1|]. destruct (H2 sample_block) as (_ & _ & H3); [by left|]. apply (H3 5000); [lia|by vm_compute].
Defined.

Lemma init_pages_before_kernel_correct_witness :
  exists k', init_pages_before_kernel sample_root 39 false sample_kernel = Done (tt, k') /\
    translate (mem (mmu k')) sample_root 0x1234 = Some 0x1234 /\
    exists e, walk (mem (mmu k')) sample_root 0 = Some (0%nat, e) /\ pkey_of e = 0.
Proof.
  destruct (init_pages_before_kernel_correct sample_root 39 false ltac:(lia)
    sample_kernel sample_kernel_ok) as (k' & E & _ & H).
  - intros x Hx. change (mem (mmu sample_kernel)) with (empty_tree sample_root). apply empty_flat, lower_user.
    unfold lower. lia.
  - apply supply_test_ok. vm_compute. reflexivity.
  - lia.
  - exists k'. split; [exact E|]. pose proof (H 0x1234 ltac:(unfold lower; lia)) as H1.
    pose proof (H 0 ltac:(unfold lower; lia)) as H2. rewrite decide_True in H1, H2 by lia.
    split; [apply H1|]. destruct H2 as (_ & e & We & He). exists e. by split.
Defined.

End sample.
