(* ===== verification/Mpk.v ===== *)
(** * Memory protection keys: src/arch/x86_64/mm/mpk.rs

    The PKRU register, the functions that change it, and the assignment of a key
    to a range of memory. The rights a PKRU value grants are the processor's:
    bit [2k] denies every access to the pages with key [k], bit [2k+1] denies
    writing to them. *)

From stdpp Require Import base numbers list.
From Stdlib Require Import ZArith Lia.
From S2P Require Import Prelude Pte Mmu Paging.

#[local] Open Scope Z_scope.

Definition EINVAL : Z := 22.
Definition ENOSYS : Z := 38.

Inductive MpkPerm := MpkRw | MpkRo | MpkNone.

#[export] Instance MpkPerm_eq_dec : EqDecision MpkPerm.
Proof. solve_decision. Defined.

(** ** 32-bit words *)

Definition W32 : Z := 2 ^ 32.
Definition in_u32 (x : Z) : Prop := 0 <= x < W32.
Definition not32 (x : Z) : Z := Z.ldiff (Z.ones 32) x.

(** The bit [1 << n] as a [u32]; [n] is checked to be below 32 where it is used. *)
Definition bit32 (n : Z) : Z := Z.shiftl 1 n.

(** ** The rights of a PKRU value *)

Definition access_denied (pkru key : Z) : bool := Z.testbit pkru (2 * key).
Definition write_denied (pkru key : Z) : bool := Z.testbit pkru (2 * key + 1).

Definition can_read (pkru key : Z) : bool := negb (access_denied pkru key).
Definition can_write (pkru key : Z) : bool := negb (access_denied pkru key) && negb (write_denied pkru key).

(** The rights as the module's enumeration names them. *)
Definition perm_of (pkru key : Z) : MpkPerm :=
  if access_denied pkru key then MpkNone else if write_denied pkru key then MpkRo else MpkRw.

(** ** Operations *)

(** A core: its PKRU register and the memory management unit. *)
Record Core (F : Type) := mkCore { pkru : Z; core_mmu : Mmu F }.
Arguments mkCore {F} _ _.
Arguments pkru {F} _.
Arguments core_mmu {F} _.

(** Each returns the code's result and the new value of [*val]. *)
Definition pkru_set_ro (key val : Z) : Z * Z :=
  if key >? 15 then (- EINVAL, val)
  else (0, Z.lor (Z.land val (not32 (bit32 (key * 2)))) (bit32 (key * 2 + 1))).

Definition pkru_set_rw (key val : Z) : Z * Z :=
  if key >? 15 then (- EINVAL, val)
  else (0, Z.land (Z.land val (not32 (bit32 (key * 2)))) (not32 (bit32 (key * 2 + 1)))).

Definition pkru_set_no_access (key val : Z) : Z * Z :=
  if key >? 15 then (- EINVAL, val)
  else (0, Z.lor (Z.lor val (bit32 (key * 2))) (bit32 (key * 2 + 1))).

Section mpk.

Context {F : Type} `{FrameSource F}.

(** CR3, [processor::supports_1gib_pages()] and [processor::supports_ospke()],
    which says that CR4.PKE is set; without it the two instructions fault. *)
Context (root : Z) (supports_1gib_pages supports_ospke : bool).

Definition rdpkru : M (Core F) Z := fun c => if supports_ospke then Done (pkru c, c) else Panic.

Definition wrpkru (val : Z) : M (Core F) unit := fun c =>
  if supports_ospke then Done (tt, mkCore val (core_mmu c)) else Panic.

Definition on_core_mmu {A} (m : M (Mmu F) A) : M (Core F) A := fun c =>
  let? (a, s) := m (core_mmu c) in Done (a, mkCore (pkru c) s).

Definition mpk_swap_pkru (new_pkru : Z) : M (Core F) Z :=
  if supports_ospke then ret 0
  else
    let! old_pkru := rdpkru in
    wrpkru new_pkru ;;;
    ret old_pkru.

Definition mpk_mem_set_key (S : PageSize) (addr size key : Z) : M (Core F) Z :=
  if negb supports_ospke then ret (- ENOSYS)
  else if key >? 15 then ret (- EINVAL)
  else
    let addr := Z.land addr (not64 (SIZE S - 1)) in
    let! size :=
      if Z.land (SIZE S - 1) size >? 0
      then lift (let? s := add64 size (SIZE S) in Done (Z.land s (not64 (SIZE S - 1))))
      else ret size in
    let! count :=
      if size mod SIZE S >? 0 then lift (add64 (size / SIZE S) 1) else ret (size / SIZE S) in
    on_core_mmu (set_pkey_on_page_table_entry root supports_1gib_pages S addr count key) ;;;
    ret 0.

Definition mpk_set_perm (key : Z) (perm : MpkPerm) : M (Core F) Z :=
  if negb supports_ospke then ret (- ENOSYS)
  else
    let! pkru := rdpkru in
    let pkru :=
      match perm with
      | MpkRw => (pkru_set_rw key pkru).2
      | MpkRo => (pkru_set_ro key pkru).2
      | MpkNone => (pkru_set_no_access key pkru).2
      end in
    wrpkru pkru ;;;
    ret 0.

Definition mpk_clear_pkru : M (Core F) unit := if negb supports_ospke then ret tt else wrpkru 0.

Definition mpk_get_pkru : M (Core F) Z := if negb supports_ospke then ret 0 else rdpkru.

Definition mpk_set_pkru (val : Z) : M (Core F) unit := if supports_ospke then wrpkru val else ret tt.

End mpk.

(** ** Lemmas *)

Lemma testbit_bit32 n i : 0 <= n -> 0 <= i -> Z.testbit (bit32 n) i = bool_decide (i = n).
Proof.
  intros Hn Hi. unfold bit32. rewrite Z.shiftl_1_l. rewrite Z.pow2_bits_eqb by done.
  destruct (Z.eqb_spec n i); [by rewrite bool_decide_true|by rewrite bool_decide_false].
Qed.

Lemma testbit_not32 x i : 0 <= i < 32 -> Z.testbit (not32 x) i = negb (Z.testbit x i).
Proof.
  intros Hi. unfold not32. rewrite Z.ldiff_spec, Z.testbit_ones_nonneg by lia.
  by rewrite (proj2 (Z.ltb_lt i 32)) by lia.
Qed.

(** The new PKRU value of [mpk_set_perm]. *)
Definition pkru_with (perm : MpkPerm) (key val : Z) : Z :=
  match perm with
  | MpkRw => (pkru_set_rw key val).2
  | MpkRo => (pkru_set_ro key val).2
  | MpkNone => (pkru_set_no_access key val).2
  end.

Lemma testbit_pkru_with perm key val i :
  0 <= key <= 15 -> 0 <= i < 32 ->
  Z.testbit (pkru_with perm key val) i =
    if decide (i = 2 * key) then bool_decide (perm = MpkNone)
    else if decide (i = 2 * key + 1) then bool_decide (perm <> MpkRw)
    else Z.testbit val i.
Proof.
  intros Hk Hi. assert (Hg : (key >? 15) = false) by lia.
  unfold pkru_with, pkru_set_rw, pkru_set_ro, pkru_set_no_access. rewrite Hg. cbn [snd].
  destruct perm; rewrite ?Z.lor_spec, ?Z.land_spec, ?testbit_not32, ?testbit_bit32 by lia;
    repeat case_decide; repeat case_bool_decide; try lia; try done;
    rewrite ?andb_true_r, ?andb_false_r, ?orb_false_r, ?orb_true_r; done.
Qed.

Lemma pkru_with_perm perm key val k :
  0 <= key <= 15 -> 0 <= k <= 15 ->
  perm_of (pkru_with perm key val) k = if decide (k = key) then perm else perm_of val k.
Proof.
  intros Hk Hk'. unfold perm_of, access_denied, write_denied. rewrite !testbit_pkru_with by lia.
  destruct (decide (k = key)) as [->|C].
  - rewrite !decide_True, decide_False by lia. rewrite decide_True by lia. by destruct perm.
  - by rewrite !decide_False by lia.
Qed.

Lemma can_read_perm val k : can_read val k = bool_decide (perm_of val k <> MpkNone).
Proof. unfold can_read, perm_of. by destruct (access_denied val k), (write_denied val k). Qed.

Lemma can_write_perm val k : can_write val k = bool_decide (perm_of val k = MpkRw).
Proof. unfold can_write, perm_of. by destruct (access_denied val k), (write_denied val k). Qed.

(** ** Theorems *)

Section theorems.

Context {F : Type} `{FrameSource F}.
Context (root : Z) (supports_1gib_pages : bool).

Implicit Types (c : Core F).

(** [mpk_set_perm] gives the key exactly the rights asked for and no other
    key other rights, for every key the processor has. For a larger key it
    changes nothing and nevertheless reports success; without protection keys it
    reports [ENOSYS]. *)
Theorem mpk_set_perm_correct supports_ospke key perm c :
  0 <= key ->
  mpk_set_perm supports_ospke key perm c =
    (if supports_ospke then Done (0, mkCore (pkru_with perm key (pkru c)) (core_mmu c)) else Done (- ENOSYS, c)) /\
  (key <= 15 -> forall k, 0 <= k <= 15 ->
     perm_of (pkru_with perm key (pkru c)) k = (if decide (k = key) then perm else perm_of (pkru c) k) /\
     can_read (pkru_with perm key (pkru c)) k = bool_decide ((if decide (k = key) then perm else perm_of (pkru c) k) <> MpkNone) /\
     can_write (pkru_with perm key (pkru c)) k = bool_decide ((if decide (k = key) then perm else perm_of (pkru c) k) = MpkRw)) /\
  (15 < key -> pkru_with perm key (pkru c) = pkru c).
Proof.
  intros Hk. split_and!.
  - unfold mpk_set_perm. destruct supports_ospke; [|done]. by destruct perm.
  - intros Hk15 k Hk'. rewrite can_read_perm, can_write_perm, pkru_with_perm by lia. done.
  - intros Hg. unfold pkru_with, pkru_set_rw, pkru_set_ro, pkru_set_no_access.
    assert ((key >? 15) = true) as -> by lia. by destruct perm.
Qed.

(** The sizes [mpk_mem_set_key] computes. *)
Lemma mem_set_key_size (S : PageSize) size :
  0 <= size -> size + SIZE S < W64 ->
  (if Z.land (SIZE S - 1) size >? 0
   then (let? s := add64 size (SIZE S) in Done (Z.land s (not64 (SIZE S - 1)))) else Done size) =
  Done (align_up_val size (SIZE S)).
Proof.
  intros Hs Hw. pose proof (SIZE_pos S) as HS. rewrite SIZE_page_bits in *.
  set (b := page_bits (MAP_LEVEL S)) in *. assert (Hb : 0 <= b) by (unfold b, page_bits; lia).
  assert (Hones : 2 ^ b - 1 = Z.ones b) by (rewrite Z.ones_equiv; lia).
  rewrite Hones, Z.land_comm, Z.land_ones by done.
  pose proof (Z.mod_pos_bound size (2 ^ b) ltac:(lia)) as Hm. pose proof (Z.div_mod size (2 ^ b) ltac:(lia)) as Hd.
  destruct (Z.gtb_spec (size mod 2 ^ b) 0) as [Hp|Hz].
  - rewrite add64_done by lia. cbn [obind]. f_equal.
    rewrite land_not64 by (unfold in_u64; lia). rewrite <- Hones, ldiff_pow2 by done.
    unfold align_up_val. rewrite <- (Z.mul_1_l (2 ^ b)) at 2. rewrite Z.mod_add by lia.
    replace (size + (2 ^ b - 1)) with (size mod 2 ^ b - 1 + (size / 2 ^ b + 1) * 2 ^ b) by lia.
    rewrite Z.mod_add, (Z.mod_small (size mod 2 ^ b - 1)) by lia. lia.
  - f_equal. symmetry. apply align_up_val_id; lia.
Qed.

Lemma page_floor (S : PageSize) addr :
  in_u64 addr -> Z.land addr (not64 (SIZE S - 1)) = addr - addr mod SIZE S.
Proof.
  intros Ha. rewrite land_not64 by done. rewrite SIZE_page_bits. apply ldiff_pow2. unfold page_bits. lia.
Qed.

(** [mpk_mem_set_key] reports a key the processor does not have, or changes the
    key of exactly the pages from the first byte's page on over the size rounded
    up to whole pages, and neither a translation, nor another page's key, nor
    PKRU. The last page of a range that is not aligned may lie beyond and keep
    its key. *)
Theorem mpk_mem_set_key_correct S addr size key c :
  let base := addr - addr mod SIZE S in
  let sz := align_up_val size (SIZE S) in
  tree_ok (mem (core_mmu c)) root -> (S = HugePageSize -> supports_1gib_pages = true) ->
  0 <= addr -> 0 <= size -> 0 <= key -> base + sz <= 2 ^ 47 ->
  (forall x, base <= x < base + sz ->
     exists e, walk (mem (core_mmu c)) root x = Some (MAP_LEVEL S, e) /\ in_u64 e) ->
  exists c', mpk_mem_set_key root supports_1gib_pages true S addr size key c =
      Done (if 15 <? key then - EINVAL else 0, c') /\
    pkru c' = pkru c /\
    (forall x, lower x -> translate (mem (core_mmu c')) root x = translate (mem (core_mmu c)) root x) /\
    (forall x, lower x -> key <= 15 -> base <= x < base + sz ->
       exists e, walk (mem (core_mmu c')) root x = Some (MAP_LEVEL S, e) /\ pkey_of e = key) /\
    (forall x, lower x -> ~ base <= x < base + sz ->
       walk (mem (core_mmu c')) root x = walk (mem (core_mmu c)) root x).
Proof.
  intros base sz Hok HG Ha Hs Hk Hb Hleaf. pose proof (SIZE_pos S) as HS.
  pose proof (align_up_val_spec size (SIZE S) ltac:(lia)) as [Hsz Hm]. fold sz in Hsz, Hm.
  pose proof (Z.mod_pos_bound addr (SIZE S) ltac:(lia)) as Hma. pose proof (Z.mod_le addr (SIZE S) Ha ltac:(lia)).
  assert (HW : 2 ^ 47 + 2 ^ 30 + 2 ^ 30 < W64) by done.
  assert (Hlt : SIZE S <= 2 ^ 30) by (by destruct S). unfold mpk_mem_set_key. cbn [negb].
  destruct (Z.gtb_spec key 15) as [Hg|Hg].
  { rewrite (proj2 (Z.ltb_lt 15 key)) by lia. exists c. split_and!; try done. intros; lia. }
  rewrite (proj2 (Z.ltb_ge 15 key)) by lia.
  rewrite page_floor by (unfold in_u64, base in *; lia). fold base.
  pose proof (mem_set_key_size S size Hs ltac:(unfold base in *; lia)) as Esz. fold sz in Esz.
  pose proof (Z.div_mod sz (SIZE S) ltac:(lia)) as Hd.
  assert (Hcount : sz / SIZE S * SIZE S = sz) by lia.
  assert (Hbm : base mod SIZE S = 0) by apply base_aligned.
  destruct (set_pkey_loop_spec root supports_1gib_pages S base key (Z.to_nat (sz / SIZE S)) (core_mmu c) Hok ltac:(lia) HG)
    as (s' & E & _ & _ & _ & Hw & _).
  { unfold base. lia. }
  { rewrite Hbm, Z.sub_0_r, Z2Nat.id by (apply Z.div_pos; lia). lia. }
  { intros i Hi. rewrite Hbm, Z.sub_0_r. rewrite Z2Nat.id in Hi by (apply Z.div_pos; lia). apply Hleaf. nia. }
  rewrite Hbm, Z.sub_0_r, Z2Nat.id in Hw by (apply Z.div_pos; lia).
  exists (mkCore (pkru c) s'). split_and!; [|done| | |].
  - rewrite (bind_done _ _ _ sz c).
    2: { revert Esz. destruct (_ >? 0); [|by intros [= Hq]; rewrite Hq]. unfold lift. by intros ->. }
    rewrite Hm. rewrite (bind_done _ _ _ (sz / SIZE S) c) by done.
    unfold bind, on_core_mmu, set_pkey_on_page_table_entry. by rewrite E.
  - intros x Hx. cbn [core_mmu]. unfold translate. rewrite Hw by done. unfold rekeyed. rewrite Hcount.
    case_decide as C; [|done]. destruct (Hleaf x C) as (e & -> & Hu). cbn [fmap option_fmap option_map fst snd].
    f_equal. apply with_pkey_translate; [|done|lia]. apply MAP_LEVEL_le.
  - intros x Hx _ C. cbn [core_mmu]. rewrite Hw by done. unfold rekeyed. rewrite Hcount, decide_True by done.
    destruct (Hleaf x C) as (e & -> & Hu). eexists. split; [done|]. apply with_pkey_pkey; [done|lia].
  - intros x Hx C. cbn [core_mmu]. rewrite Hw by done. unfold rekeyed. by rewrite Hcount, decide_False.
Qed.

(** [mpk_swap_pkru] never swaps: with protection keys enabled it reports 0 and
    leaves PKRU alone, and without them it executes [rdpkru], which faults. *)
Theorem mpk_swap_pkru_never_swaps supports_ospke new_pkru c :
  mpk_swap_pkru supports_ospke new_pkru c = if supports_ospke then Done (0, c) else Panic.
Proof. by destruct supports_ospke. Qed.

End theorems.

(** ** Examples *)

Lemma mpk_set_perm_correct_witness :
  perm_of (pkru_with MpkRo 3 0xFC) 3 = MpkRo /\ can_write (pkru_with MpkRo 3 0xFC) 1 = false.
Proof.
  destruct (mpk_set_perm_correct true 3 MpkRo (mkCore 0xFC sample) ltac:(lia)) as (_ & H & _).
  split; [apply (H ltac:(lia) 3); lia|]. apply (H ltac:(lia) 1). lia.
Defined.

(** Two pages of [sample1] become shared; the third byte range is unaligned. *)
Lemma mpk_mem_set_key_correct_witness :
  exists c', mpk_mem_set_key sample_root false true BasePageSize 0x10000008 4097 3 (mkCore 0 sample1) = Done (0, c') /\
    exists e, walk (mem (core_mmu c')) sample_root 0x10001fff = Some (0%nat, e) /\ pkey_of e = 3.
Proof.
  destruct (mpk_mem_set_key_correct sample_root false BasePageSize 0x10000008 4097 3 (mkCore 0 sample1))
    as (c' & E & _ & _ & H & _).
  - apply (mk_tree _ _ _ sample1_ok).
  - done.
  - lia.
  - lia.
  - lia.
  - by vm_compute.
  - intros x Hx. change (0x10000000 <= x < 0x10002000) in Hx.
    destruct (Z.lt_ge_cases x 0x10001000).
    + exists 0x1000000000800067. split; [|by vm_compute].
      apply (walk_same _ _ 0x10000000); [|vm_compute; reflexivity]. apply (same_page 0); [lia|unfold lower; lia|unfold lower; lia|].
      unfold page_bits. change (2 ^ (12 + 9 * Z.of_nat 0)) with 4096.
      rewrite <- (Z.div_unique x 4096 0x10000 (x - 0x10000000)) by lia. done.
    + exists 0x1000000000801067. split; [|by vm_compute].
      apply (walk_same _ _ 0x10001000); [|vm_compute; reflexivity]. apply (same_page 0); [lia|unfold lower; lia|unfold lower; lia|].
      unfold page_bits. change (2 ^ (12 + 9 * Z.of_nat 0)) with 4096.
      rewrite <- (Z.div_unique x 4096 0x10001 (x - 0x10001000)) by lia. done.
  - exists c'. split; [exact E|]. apply H; [unfold lower; lia|lia|].
    change (0x10000000 <= 0x10001fff < 0x10002000). lia.
Defined.
