(* ===== verification/Cpu.v ===== *)
(** * A core as the inline assembly sees it

    Registers, PKRU, data memory and the instructions used by src/macros.rs,
    src/arch/x86_64/kernel/switch.rs and src/arch/x86_64/mm/mpk.rs. A memory
    access goes through the page tables and is checked against PKRU; one that is
    not permitted is a page fault, whose handler aborts the task ([Panic]). *)

From stdpp Require Import base numbers list gmap.
From Stdlib Require Import ZArith Lia.
From S2P Require Import Prelude Pte Mmu Paging Mpk.

#[local] Open Scope Z_scope.

Inductive reg :=
  | RAX | RCX | RDX | RBX | RSP | RBP | RSI | RDI
  | R8 | R9 | R10 | R11 | R12 | R13 | R14 | R15.

#[export] Instance reg_eq_dec : EqDecision reg.
Proof. solve_decision. Defined.

(** The fields of the current task ([core_scheduler().current_task]) that the
    macros use. *)
Record CurrentTask := mkTask {
  kernel_stack_pointer : Z;
  user_stack_pointer : Z;
  isolated_stack : Z
}.

(** [data] holds the 8-byte words of memory by virtual address. *)
Record Machine (F : Type) := mkMachine {
  regs : reg -> Z;
  rflags : Z;
  rip : Z;
  fsbase : Z;
  cr0 : Z;
  data : gmap Z Z;
  core : Core F;
  current_task : CurrentTask
}.
Arguments mkMachine {F} _ _ _ _ _ _ _ _.
Arguments regs {F} _ _.
Arguments rflags {F} _.
Arguments rip {F} _.
Arguments fsbase {F} _.
Arguments cr0 {F} _.
Arguments data {F} _.
Arguments core {F} _.
Arguments current_task {F} _.

(** ** Updates *)

Definition set_reg_in (r : reg) (v : Z) (f : reg -> Z) : reg -> Z := fun r' => if decide (r = r') then v else f r'.

Section machine.

Context {F : Type} `{FrameSource F}.
Context (root : Z) (supports_1gib_pages : bool).

Implicit Types (m : Machine F).

Definition with_regs (f : reg -> Z) m : Machine F :=
  mkMachine f (rflags m) (rip m) (fsbase m) (cr0 m) (data m) (core m) (current_task m).
Definition with_rflags (v : Z) m : Machine F :=
  mkMachine (regs m) v (rip m) (fsbase m) (cr0 m) (data m) (core m) (current_task m).
Definition with_rip (v : Z) m : Machine F :=
  mkMachine (regs m) (rflags m) v (fsbase m) (cr0 m) (data m) (core m) (current_task m).
Definition with_fsbase (v : Z) m : Machine F :=
  mkMachine (regs m) (rflags m) (rip m) v (cr0 m) (data m) (core m) (current_task m).
Definition with_cr0 (v : Z) m : Machine F :=
  mkMachine (regs m) (rflags m) (rip m) (fsbase m) v (data m) (core m) (current_task m).
Definition with_data (d : gmap Z Z) m : Machine F :=
  mkMachine (regs m) (rflags m) (rip m) (fsbase m) (cr0 m) d (core m) (current_task m).
Definition with_core (c : Core F) m : Machine F :=
  mkMachine (regs m) (rflags m) (rip m) (fsbase m) (cr0 m) (data m) c (current_task m).
Definition with_task (t : CurrentTask) m : Machine F :=
  mkMachine (regs m) (rflags m) (rip m) (fsbase m) (cr0 m) (data m) (core m) t.

Definition with_reg (r : reg) (v : Z) m : Machine F := with_regs (set_reg_in r v (regs m)) m.
Definition with_pkru (v : Z) m : Machine F := with_core (mkCore v (core_mmu (core m))) m.

(** The PKRU register of the core. *)
Definition pkru_of m : Z := pkru (core m).

(** ** Memory accesses *)

(** Whether the access is permitted: the leaf entry of the page exists, is
    writable for a write, and PKRU grants its key the access. *)
Definition permitted m (a : Z) (write : bool) : bool :=
  match walk (mem (core_mmu (core m))) root a with
  | Some (_, e) =>
      if write then can_write (pkru_of m) (pkey_of e) && Z.testbit e 1 else can_read (pkru_of m) (pkey_of e)
  | None => false
  end.

Definition load (a : Z) : M (Machine F) Z := fun m =>
  if permitted m a false then Done (default 0 (data m !! a), m) else Panic.

Definition store (a v : Z) : M (Machine F) unit := fun m =>
  if permitted m a true then Done (tt, with_data (<[a := v]> (data m)) m) else Panic.

(** ** Instructions *)

Definition get_reg (r : reg) : M (Machine F) Z := gets (fun m => regs m r).
Definition set_reg (r : reg) (v : Z) : M (Machine F) unit := modify (with_reg r v).

(** [mov $v, %r] for a 64-bit and for a 32-bit register, which clears the upper half *)
Definition mov (v : Z) (r : reg) : M (Machine F) unit := set_reg r v.
Definition mov32 (v : Z) (r : reg) : M (Machine F) unit := set_reg r (v mod W32).

(** [xor %r, %r] *)
Definition xor_self (r : reg) : M (Machine F) unit := set_reg r 0.

(** [or $v, %r] and [and $v, %r] on a 32-bit register *)
Definition or32 (v : Z) (r : reg) : M (Machine F) unit :=
  let! x := get_reg r in set_reg r (Z.lor (x mod W32) v).
Definition and32 (v : Z) (r : reg) : M (Machine F) unit :=
  let! x := get_reg r in set_reg r (Z.land (x mod W32) v).

(** [or $v, %r] on a 64-bit register *)
Definition or64 (v : Z) (r : reg) : M (Machine F) unit :=
  let! x := get_reg r in set_reg r (Z.lor x v).

(** [push] and [pop] of a register. *)
Definition push_word (v : Z) : M (Machine F) unit :=
  let! sp := get_reg RSP in
  store (sp - 8) v ;;;
  set_reg RSP (sp - 8).

Definition pop_word : M (Machine F) Z :=
  let! sp := get_reg RSP in
  let! v := load sp in
  set_reg RSP (sp + 8) ;;;
  ret v.

Definition i_push (r : reg) : M (Machine F) unit := let! v := get_reg r in push_word v.
Definition i_pop (r : reg) : M (Machine F) unit := let! v := pop_word in set_reg r v.

(** [pushfq], [popfq] and [ret] *)
Definition pushfq : M (Machine F) unit := let! v := gets rflags in push_word v.
Definition popfq : M (Machine F) unit := let! v := pop_word in modify (with_rflags v).
Definition ret_near : M (Machine F) unit := let! v := pop_word in modify (with_rip v).

(** [rdfsbaseq %r] and [wrfsbaseq %r], moves from and to CR0 *)
Definition rdfsbase (r : reg) : M (Machine F) unit := let! v := gets fsbase in set_reg r v.
Definition wrfsbase (r : reg) : M (Machine F) unit := let! v := get_reg r in modify (with_fsbase v).
Definition mov_from_cr0 (r : reg) : M (Machine F) unit := let! v := gets cr0 in set_reg r v.
Definition mov_to_cr0 (r : reg) : M (Machine F) unit := let! v := get_reg r in modify (with_cr0 v).

(** [rdpkru] needs ECX = 0 and clears EDX; [wrpkru] needs ECX = EDX = 0. *)
Definition i_rdpkru : M (Machine F) unit :=
  let! cx := get_reg RCX in
  massert (cx mod W32 =? 0) ;;;
  let! p := gets pkru_of in
  set_reg RAX p ;;;
  set_reg RDX 0.

Definition i_wrpkru : M (Machine F) unit :=
  let! cx := get_reg RCX in
  massert (cx mod W32 =? 0) ;;;
  let! dx := get_reg RDX in
  massert (dx mod W32 =? 0) ;;;
  let! ax := get_reg RAX in
  modify (with_pkru (ax mod W32)).

(** Operations on the page tables. *)
Definition on_machine_mmu {A} (o : M (Mmu F) A) : M (Machine F) A := fun m =>
  let? (a, s) := o (core_mmu (core m)) in
  Done (a, with_core (mkCore (pkru_of m) s) m).

End machine.
