(* ===== verification/Isolation.v ===== *)
(** * Isolation: src/macros.rs

    The macros that switch the stack and PKRU: between user and kernel, and
    around a call of a function that must not touch safe memory. [f] is the
    function the macro calls, an arbitrary computation of the core: it may change
    registers, PKRU and page tables too. What the isolated calls guarantee for
    code that does not write PKRU is in [Confined]. *)

From stdpp Require Import base numbers list gmap.
From Stdlib Require Import ZArith Lia.
From S2P Require Import Prelude Pte Mmu Paging Mm Mpk Cpu.

#[local] Open Scope Z_scope.

(** src/mm/mod.rs and src/config.rs *)
Definition UNSAFE_PERMISSION_IN : Z := 0xC.
Definition UNSAFE_PERMISSION_OUT : Z := not32 UNSAFE_PERMISSION_IN.
Definition KERNEL_STACK_SIZE : Z := 32768.
Definition DEFAULT_STACK_SIZE : Z := 262144.

Section macros.

Context {F : Type} `{FrameSource F}.
Context (root : Z) (supports_1gib_pages : bool) (kernel_end_address : Z).

Abbreviation Run := (M (Machine F)).

Definition set_kernel_stack_pointer (sp : Z) : Run unit :=
  modify (fun m => with_task (mkTask sp (user_stack_pointer (current_task m)) (isolated_stack (current_task m))) m).
Definition set_user_stack_pointer (sp : Z) : Run unit :=
  modify (fun m => with_task (mkTask (kernel_stack_pointer (current_task m)) sp (isolated_stack (current_task m))) m).

(** [mov $$0xfc, %eax; xor %ecx, %ecx; xor %edx, %edx; wrpkru; lfence] *)
Definition lock_kernel : Run unit := mov32 0xfc RAX ;;; xor_self RCX ;;; xor_self RDX ;;; i_wrpkru.

(** [xor %eax, %eax; xor %ecx, %ecx; xor %edx, %edx; wrpkru; lfence] *)
Definition unlock_kernel : Run unit := xor_self RAX ;;; xor_self RCX ;;; xor_self RDX ;;; i_wrpkru.

(** ** User and kernel *)

Definition user_start (e : bool) : Run unit :=
  let! user_sp := gets (fun m => user_stack_pointer (current_task m)) in
  let! kernel_sp := get_reg RSP in
  set_kernel_stack_pointer kernel_sp ;;;
  mov user_sp RSP ;;;
  if e then lock_kernel else ret tt.

Definition user_end : Run unit :=
  unlock_kernel ;;;
  let! kernel_sp := gets (fun m => kernel_stack_pointer (current_task m)) in
  mov kernel_sp RSP.

Definition kernel_enter : Run unit :=
  unlock_kernel ;;;
  let! user_sp := get_reg RSP in
  let! kernel_sp := gets (fun m => kernel_stack_pointer (current_task m)) in
  mov kernel_sp RSP ;;;
  set_user_stack_pointer user_sp.

Definition kernel_exit : Run unit :=
  let! user_sp := gets (fun m => user_stack_pointer (current_task m)) in
  let! kernel_sp := get_reg RSP in
  set_kernel_stack_pointer kernel_sp ;;;
  mov user_sp RSP ;;;
  lock_kernel.

Definition kernel_function {A} (f : Run A) : Run A :=
  unlock_kernel ;;;
  let! user_sp := get_reg RSP in
  let! kernel_sp := gets (fun m => kernel_stack_pointer (current_task m)) in
  mov kernel_sp RSP ;;;
  let! temp_ret := f in
  mov user_sp RSP ;;;
  lock_kernel ;;;
  ret temp_ret.

(** ** Isolated calls *)

(** [xor %ecx, %ecx; rdpkru; or IN, %eax; xor %edx, %edx; wrpkru; lfence] *)
Definition isolation_start : Run unit :=
  xor_self RCX ;;; i_rdpkru ;;; or32 UNSAFE_PERMISSION_IN RAX ;;; xor_self RDX ;;; i_wrpkru.

(** [xor %ecx, %ecx; rdpkru; and OUT, %eax; xor %edx, %edx; wrpkru; lfence] *)
Definition isolation_end : Run unit :=
  xor_self RCX ;;; i_rdpkru ;;; and32 UNSAFE_PERMISSION_OUT RAX ;;; xor_self RDX ;;; i_wrpkru.

Definition isolation_wrapper {A} (f : Run A) : Run A :=
  isolation_start ;;;
  let! temp_ret := f in
  isolation_end ;;;
  ret temp_ret.

Definition isolated_stack_top : Run Z :=
  let! s := gets (fun m => isolated_stack (current_task m)) in
  lift (add64 s DEFAULT_STACK_SIZE).

(** The arms for [f(..)] and [p.f(..)], which keep RAX, RCX and RDX on the
    isolated stack, and the arm for [p::f(..)], which declares them clobbered. *)
Definition isolate_function_strong {A} (f : Run A) : Run A :=
  let! top := isolated_stack_top in
  let! current_rsp := get_reg RSP in
  mov top RSP ;;;
  i_push root RAX ;;; i_push root RCX ;;; i_push root RDX ;;;
  isolation_start ;;;
  i_pop root RDX ;;; i_pop root RCX ;;; i_pop root RAX ;;;
  let! temp_ret := f in
  isolation_end ;;;
  mov current_rsp RSP ;;;
  ret temp_ret.

Definition isolate_function_strong_path {A} (f : Run A) : Run A :=
  let! top := isolated_stack_top in
  let! current_rsp := get_reg RSP in
  mov top RSP ;;;
  isolation_start ;;;
  let! temp_ret := f in
  isolation_end ;;;
  mov current_rsp RSP ;;;
  ret temp_ret.

Definition set_key (S : PageSize) (addr count key : Z) : Run unit :=
  on_machine_mmu (set_pkey_on_page_table_entry root supports_1gib_pages S addr count key).

Definition isolate_function_weak {A} (f : Run A) : Run A :=
  let! top := isolated_stack_top in
  let! current_rbp := get_reg RBP in
  let! current_rsp := get_reg RSP in
  let! hi := lift (align_up current_rbp 4096) in
  let! lo := lift (align_down current_rsp 4096) in
  let! d := lift (sub64 hi lo) in
  let count := d / 4096 in
  set_key BasePageSize lo count SHARED_MEM_REGION ;;;
  mov top RSP ;;;
  isolation_start ;;;
  let! temp_ret := f in
  isolation_end ;;;
  mov current_rsp RSP ;;;
  set_key BasePageSize lo count Mm.SAFE_MEM_REGION ;;;
  ret temp_ret.

(** ** Sharing a page *)

Definition share (addr : Z) : Run unit :=
  if addr <=? kernel_end_address then set_key LargePageSize addr 1 SHARED_MEM_REGION
  else set_key BasePageSize addr 1 SHARED_MEM_REGION.

Definition unshare (addr : Z) : Run unit :=
  if addr <=? kernel_end_address then set_key LargePageSize addr 1 Mm.SAFE_MEM_REGION
  else set_key BasePageSize addr 1 Mm.SAFE_MEM_REGION.

(** [addr] is the address of the variable; the arms that declare one take a 4 KiB page. *)
Definition share_local_var (declares : bool) (addr : Z) : Run unit :=
  if declares then set_key BasePageSize addr 1 SHARED_MEM_REGION else share addr.

Definition unshare_local_var (addr : Z) : Run unit := set_key BasePageSize addr 1 Mm.SAFE_MEM_REGION.

End macros.

(** ** The gates *)

(** [m1] is [m] with another stack and PKRU; RAX, RCX and RDX are clobbered. *)
Record gated {F} (m m1 : Machine F) (sp p : Z) : Prop := {
  gt_pkru : pkru_of m1 = p;
  gt_sp : regs m1 RSP = sp;
  gt_regs : forall r, r ∉ [RSP; RAX; RCX; RDX] -> regs m1 r = regs m r;
  gt_mmu : core_mmu (core m1) = core_mmu (core m);
  gt_task : current_task m1 = current_task m;
  gt_data : data m1 = data m
}.

Section gates.

Context {F : Type} `{FrameSource F}.

Implicit Types (m : Machine F).

(** The values of PKRU inside and after an isolated call. *)
Definition isolated_pkru (p : Z) : Z := Z.lor p UNSAFE_PERMISSION_IN.
Definition restored_pkru (p : Z) : Z := Z.land p UNSAFE_PERMISSION_OUT.

Lemma in_u32_mod x : in_u32 x -> x mod W32 = x.
Proof. apply Z.mod_small. Qed.

Lemma in_u32_bits x : 0 <= x -> (forall n, 32 <= n -> Z.testbit x n = false) -> in_u32 x.
Proof. intros Hx Hb. split; [done|]. by apply testbit_bound. Qed.

Lemma isolated_pkru_u32 p : in_u32 p -> in_u32 (isolated_pkru p).
Proof.
  intros [H0 H1]. apply in_u32_bits; [apply Z.lor_nonneg; split; [done|by vm_compute]|].
  intros n Hn. unfold isolated_pkru. rewrite Z.lor_spec, (testbit_small p 32), (testbit_small UNSAFE_PERMISSION_IN 32); by done || lia.
Qed.

Lemma restored_pkru_u32 p : in_u32 p -> in_u32 (restored_pkru p).
Proof.
  intros [H0 H1]. apply in_u32_bits; [apply Z.land_nonneg; by left|].
  intros n Hn. unfold restored_pkru. by rewrite Z.land_spec, (testbit_small p 32) by (done || lia).
Qed.

Lemma testbit_isolated p n : 0 <= n -> Z.testbit (isolated_pkru p) n = Z.testbit p n || bool_decide (n = 2 \/ n = 3).
Proof.
  intros Hn. unfold isolated_pkru. rewrite Z.lor_spec. f_equal.
  change UNSAFE_PERMISSION_IN with (Z.shiftl (Z.ones 2) 2). rewrite testbit_field by lia.
  case_bool_decide; zbit_cases; lia || done.
Qed.

Lemma testbit_restored p n : 0 <= n < 32 ->
  Z.testbit (restored_pkru p) n = Z.testbit p n && negb (bool_decide (n = 2 \/ n = 3)).
Proof.
  intros Hn. unfold restored_pkru, UNSAFE_PERMISSION_OUT. rewrite Z.land_spec, testbit_not32 by lia. do 2 f_equal.
  change UNSAFE_PERMISSION_IN with (Z.shiftl (Z.ones 2) 2). rewrite testbit_field by lia.
  case_bool_decide; zbit_cases; lia || done.
Qed.

(** Inside, the key of safe memory grants nothing and the other keys what they did. *)
Lemma isolated_perm p k :
  0 <= k <= 15 -> perm_of (isolated_pkru p) k = if decide (k = Mm.SAFE_MEM_REGION) then MpkNone else perm_of p k.
Proof.
  intros Hk. unfold perm_of, access_denied, write_denied, Mm.SAFE_MEM_REGION. rewrite !testbit_isolated by lia.
  destruct (decide (k = 1)) as [->|C].
  - by rewrite bool_decide_true, orb_true_r by lia.
  - by rewrite !bool_decide_false, !orb_false_r by lia.
Qed.

(** Afterwards, safe memory is open, whatever it was before. *)
Lemma restored_perm p k :
  0 <= k <= 15 -> perm_of (restored_pkru p) k = if decide (k = Mm.SAFE_MEM_REGION) then MpkRw else perm_of p k.
Proof.
  intros Hk. unfold perm_of, access_denied, write_denied, Mm.SAFE_MEM_REGION. rewrite !testbit_restored by lia.
  destruct (decide (k = 1)) as [->|C].
  - by rewrite !bool_decide_true, !andb_false_r by lia.
  - by rewrite !bool_decide_false, !andb_true_r by lia.
Qed.

Lemma restored_isolated p : in_u32 p -> perm_of p Mm.SAFE_MEM_REGION = MpkRw -> restored_pkru (isolated_pkru p) = p.
Proof.
  intros Hp Hs. unfold perm_of, access_denied, write_denied, Mm.SAFE_MEM_REGION in Hs.
  destruct (Z.testbit p (2 * 1)) eqn:E1; [done|]. destruct (Z.testbit p (2 * 1 + 1)) eqn:E2; [done|].
  apply Z.bits_inj'. intros n Hn. destruct (Z.lt_ge_cases n 32).
  - rewrite testbit_restored, testbit_isolated by lia. case_bool_decide as C.
    + rewrite andb_false_r. by destruct C as [-> | ->].
    + by rewrite orb_false_r, andb_true_r.
  - pose proof (restored_pkru_u32 _ (isolated_pkru_u32 p Hp)) as [Q1 Q2]. destruct Hp as [P1 P2].
    by rewrite (testbit_small p 32), (testbit_small (restored_pkru (isolated_pkru p)) 32) by (done || lia).
Qed.

Lemma isolation_start_spec m :
  in_u32 (pkru_of m) -> exists m1, isolation_start m = Done (tt, m1) /\ gated m m1 (regs m RSP) (isolated_pkru (pkru_of m)).
Proof.
  intros Hp. eexists. split; [reflexivity|]. split; try reflexivity.
  - cbn. change (((Z.lor (pkru_of m mod W32) UNSAFE_PERMISSION_IN)) mod W32 = isolated_pkru (pkru_of m)).
    rewrite (in_u32_mod (pkru_of m)) by done. by apply in_u32_mod, isolated_pkru_u32.
  - intros r Hr. destruct r; try reflexivity; exfalso; apply Hr; set_solver.
Qed.

Lemma isolation_end_spec m :
  in_u32 (pkru_of m) -> exists m1, isolation_end m = Done (tt, m1) /\ gated m m1 (regs m RSP) (restored_pkru (pkru_of m)).
Proof.
  intros Hp. eexists. split; [reflexivity|]. split; try reflexivity.
  - cbn. change (((Z.land (pkru_of m mod W32) UNSAFE_PERMISSION_OUT)) mod W32 = restored_pkru (pkru_of m)).
    rewrite (in_u32_mod (pkru_of m)) by done. by apply in_u32_mod, restored_pkru_u32.
  - intros r Hr. destruct r; try reflexivity; exfalso; apply Hr; set_solver.
Qed.

Lemma gated_trans m m1 m2 sp p sp' p' : gated m m1 sp p -> gated m1 m2 sp' p' -> gated m m2 sp' p'.
Proof.
  intros [G1 G2 G3 G4 G5 G6] [K1 K2 K3 K4 K5 K6]. split; try done; try congruence.
  intros r Hr. rewrite K3, G3; done.
Qed.

(** Setting the stack pointer is a gate that keeps PKRU. *)
Lemma mov_rsp_spec m sp : gated m (with_reg RSP sp m) sp (pkru_of m).
Proof. split; try reflexivity. intros r Hr. destruct r; try reflexivity; exfalso; apply Hr; set_solver. Qed.

End gates.

(** ** What code can reach *)

(** Code that reads and writes memory and cannot change PKRU. *)
Inductive access := Read (a : Z) | Write (a v : Z).

Definition acc_addr (c : access) : Z := match c with Read a | Write a _ => a end.

Section confinement.

Context {F : Type} `{FrameSource F}.
Context (root : Z).

Implicit Types (m : Machine F).

Fixpoint run_accesses (l : list access) : M (Machine F) (list Z) :=
  match l with
  | [] => ret []
  | Read a :: tl =>
      let! v := load root a in
      let! vs := run_accesses tl in
      ret (v :: vs)
  | Write a v :: tl => store root a v ;;; run_accesses tl
  end.

Definition acc_permitted m (c : access) : bool :=
  match c with Read a => permitted root m a false | Write a _ => permitted root m a true end.

(** The key of the page of an address. *)
Definition page_key m (a : Z) : option Z := (fun p => pkey_of p.2) <$> walk (mem (core_mmu (core m))) root a.

Definition written (l : list access) (a : Z) : Prop := exists v, Write a v ∈ l.

Lemma acc_permitted_data d m c : acc_permitted (with_data d m) c = acc_permitted m c.
Proof. by destruct c. Qed.

(** Accesses change nothing but data, and only what is written; the first one that is not permitted faults. *)
Lemma run_accesses_spec l m :
  match run_accesses l m with
  | Done (_, m') => Forall (fun c => acc_permitted m c = true) l /\
      exists d, m' = with_data d m /\ forall a, ~ written l a -> d !! a = data m !! a
  | Panic => Exists (fun c => acc_permitted m c = false) l
  | OutOfFuel => False
  end.
Proof.
  revert m. induction l as [|c l IH]; intros m; cbn [run_accesses].
  - split; [done|]. exists (data m). split; [by destruct m|done].
  - destruct c as [a|a v]; unfold bind at 1; [unfold load|unfold store].
    + destruct (permitted root m a false) eqn:E; [|by left]. simpl. specialize (IH m). unfold bind.
      destruct (run_accesses l m) as [[vs m']| |]; simpl; [|by right|done].
      destruct IH as (HF & d & Em & Hd). split; [by constructor|]. exists d. split; [done|].
      intros b Hb. apply Hd. intros [v Hv]. apply Hb. exists v. by right.
    + destruct (permitted root m a true) eqn:E; [|by left]. simpl.
      specialize (IH (with_data (<[a:=v]> (data m)) m)).
      destruct (run_accesses l _) as [[vs m']| |].
      * destruct IH as (HF & d & Em & Hd). split.
        { constructor; [done|]. eapply Forall_impl; [exact HF|]. intros c. cbv beta. by rewrite acc_permitted_data. }
        exists d. split; [by rewrite Em|]. intros b Hb. rewrite Hd.
        -- simpl. apply lookup_insert_ne. intros <-. apply Hb. exists v. by left.
        -- intros [w Hw]. apply Hb. exists w. by right.
      * right. eapply Exists_impl; [exact IH|]. intros c. cbv beta. by rewrite acc_permitted_data.
      * done.
Qed.

(** A page whose key grants nothing cannot be accessed. *)
Lemma permitted_key m a w :
  permitted root m a w = true -> exists k, page_key m a = Some k /\ perm_of (pkru_of m) k <> MpkNone.
Proof.
  unfold permitted, page_key. destruct (walk _ _ _) as [[l e]|]; [|done]. intros Hp. exists (pkey_of e). split; [done|].
  assert (can_read (pkru_of m) (pkey_of e) = true) as Hr.
  { destruct w; [|done]. apply andb_prop in Hp as [Hp _]. unfold can_write in Hp. by apply andb_prop in Hp as [Hp _]. }
  rewrite can_read_perm in Hr. by apply bool_decide_eq_true in Hr.
Qed.

Lemma pkey_of_range e : 0 <= pkey_of e <= 15.
Proof. unfold pkey_of. pose proof (Z.mod_pos_bound (Z.shiftr e 59) (2 ^ 4) ltac:(done)). lia. Qed.

(** Under an isolated PKRU accesses do not reach safe memory. *)
Lemma confined m m1 l p sp :
  gated m m1 sp (isolated_pkru p) ->
  match run_accesses l m1 with
  | Done (_, m2) => exists d, m2 = with_data d m1 /\
      Forall (fun c => page_key m (acc_addr c) <> Some Mm.SAFE_MEM_REGION) l /\
      (forall a, page_key m a = Some Mm.SAFE_MEM_REGION -> d !! a = data m1 !! a)
  | Panic => Exists (fun c => acc_permitted m1 c = false) l
  | OutOfFuel => False
  end.
Proof.
  intros G. pose proof (run_accesses_spec l m1) as Hr. destruct (run_accesses l m1) as [[vs m2]| |]; [|done|done].
  destruct Hr as (HF & d & Em & Hd). exists d. split; [done|].
  assert (HF' : Forall (fun c => page_key m (acc_addr c) <> Some Mm.SAFE_MEM_REGION) l).
  { eapply Forall_impl; [exact HF|]. intros c Hc.
    assert (exists w, permitted root m1 (acc_addr c) w = true) as [w Hw] by (destruct c; eauto).
    apply permitted_key in Hw as (k & Hk & Hperm). unfold page_key in *. rewrite (gt_mmu _ _ _ _ G) in Hk.
    rewrite Hk. intros [= ->]. apply Hperm. rewrite (gt_pkru _ _ _ _ G), isolated_perm by (by vm_compute).
    by rewrite decide_True. }
  split; [done|]. intros a Ha. apply Hd. intros [v Hv].
  rewrite Forall_forall in HF'. by apply (HF' _ Hv).
Qed.

End confinement.

(** ** Isolated calls *)

Section isolated_calls.

Context {F : Type} `{FrameSource F}.
Context (root : Z).

Implicit Types (m : Machine F).

Definition stack_top m : Z := isolated_stack (current_task m) + DEFAULT_STACK_SIZE.

(** PKRU is a 32-bit register, and the end of the isolated stack an address. *)
Definition machine_ok m : Prop := in_u32 (pkru_of m) /\ 0 <= stack_top m < W64.

(** The words the strong arms use on the isolated stack. *)
Definition scratch_ok m : Prop := forall i, 1 <= i <= 3 ->
  permitted root m (stack_top m - 8 * i) true = true /\ page_key root m (stack_top m - 8 * i) <> Some Mm.SAFE_MEM_REGION.

Lemma isolated_stack_top_run {A} m (k : Z -> M (Machine F) A) :
  machine_ok m -> bind isolated_stack_top k m = k (stack_top m) m.
Proof.
  intros [_ Ht]. unfold isolated_stack_top. rewrite bind_assoc, bind_gets. apply bind_lift_done.
  by apply add64_done.
Qed.

(** The epilogue of an isolated call. *)
Definition leave {A} (sp : Z) (r : A) : M (Machine F) A := isolation_end ;;; mov sp RSP ;;; ret r.

Lemma strong_path_run {A} (f : M (Machine F) A) m :
  machine_ok m -> exists m1, gated m m1 (stack_top m) (isolated_pkru (pkru_of m)) /\
    isolate_function_strong_path f m = (let! r := f in leave (regs m RSP) r) m1.
Proof.
  intros Hm. destruct (isolation_start_spec (with_reg RSP (stack_top m) m)) as (m1 & E & G); [apply Hm|].
  exists m1. split; [by eapply gated_trans; [apply mov_rsp_spec|]|].
  unfold isolate_function_strong_path. rewrite isolated_stack_top_run by done.
  unfold get_reg. rewrite bind_gets. unfold mov, set_reg. rewrite bind_modify. by rewrite (bind_done _ _ _ _ _ E).
Qed.

(** The state after a [push] and after a [pop]. *)
Definition pushed (sp : Z) (r : reg) m : Machine F := with_reg RSP sp (with_data (<[sp := regs m r]> (data m)) m).
Definition popped (sp : Z) (r : reg) m : Machine F :=
  with_reg r (default 0 (data m !! regs m RSP)) (with_reg RSP sp m).

Lemma i_push_run r m sp :
  regs m RSP - 8 = sp -> permitted root m sp true = true -> i_push root r m = Done (tt, pushed sp r m).
Proof.
  intros <- Hp. unfold i_push, push_word, get_reg. rewrite !bind_gets. unfold bind, store. by rewrite Hp.
Qed.

Lemma i_pop_run r m sp :
  regs m RSP + 8 = sp -> permitted root m (regs m RSP) false = true -> i_pop root r m = Done (tt, popped sp r m).
Proof.
  intros <- Hp. unfold i_pop, pop_word, get_reg. rewrite !bind_assoc, bind_gets. unfold bind, load. by rewrite Hp.
Qed.

Lemma permitted_isolated m m1 sp a :
  gated m m1 sp (isolated_pkru (pkru_of m)) -> permitted root m a true = true ->
  page_key root m a <> Some Mm.SAFE_MEM_REGION -> permitted root m1 a false = true.
Proof.
  intros G. unfold permitted, page_key. rewrite (gt_mmu _ _ _ _ G), (gt_pkru _ _ _ _ G).
  destruct (walk _ _ _) as [[l e]|]; [|done]. intros [Hw _]%andb_prop Hk.
  rewrite can_write_perm in Hw. apply bool_decide_eq_true in Hw.
  rewrite can_read_perm, isolated_perm by apply pkey_of_range. rewrite decide_False.
  - by rewrite Hw.
  - intros E. apply Hk. simpl. by rewrite E.
Qed.

(** The scratch words after the prologue. *)
Definition scratch_data m : gmap Z Z :=
  <[stack_top m - 24 := regs m RDX]> (<[stack_top m - 16 := regs m RCX]> (<[stack_top m - 8 := regs m RAX]> (data m))).

Lemma scratch_data_safe m a :
  scratch_ok m -> page_key root m a = Some Mm.SAFE_MEM_REGION -> scratch_data m !! a = data m !! a.
Proof.
  intros Hs Ha. assert (Hn : forall i, 1 <= i <= 3 -> stack_top m - 8 * i <> a)
    by (intros i Hi <-; by apply (proj2 (Hs i Hi))).
  unfold scratch_data. rewrite !lookup_insert_ne; [done|intros E; apply (Hn 1)|intros E; apply (Hn 2)|intros E; apply (Hn 3)]; lia.
Qed.

(** The prologue of the strong arms up to the call. *)
Definition strong_prologue (top : Z) : M (Machine F) unit :=
  mov top RSP ;;;
  i_push root RAX ;;; i_push root RCX ;;; i_push root RDX ;;;
  isolation_start ;;;
  i_pop root RDX ;;; i_pop root RCX ;;; i_pop root RAX.

Lemma strong_prologue_run m :
  machine_ok m -> scratch_ok m -> exists m1, strong_prologue (stack_top m) m = Done (tt, m1) /\
    gated (with_data (scratch_data m) m) m1 (stack_top m) (isolated_pkru (pkru_of m)) /\
    (forall r, r <> RSP -> regs m1 r = regs m r).
Proof.
  intros Hm Hs. set (top := stack_top m).
  assert (Hp : forall i, 1 <= i <= 3 -> permitted root m (top - 8 * i) true = true) by (intros; by apply Hs).
  set (a1 := pushed (top - 8) RAX (with_reg RSP top m)).
  set (a2 := pushed (top - 16) RCX a1). set (a3 := pushed (top - 24) RDX a2).
  assert (Hd : data a3 = scratch_data m) by reflexivity.
  destruct (isolation_start_spec a3) as (b0 & Eb & Gb); [apply Hm|].
  change (pkru_of a3) with (pkru_of m) in Gb. change (regs a3 RSP) with (top - 24) in Gb.
  pose proof (gt_sp _ _ _ _ Gb) as Bsp. pose proof (gt_data _ _ _ _ Gb) as Bd. rewrite Hd in Bd.
  assert (Hr : forall i, 1 <= i <= 3 -> permitted root b0 (top - 8 * i) false = true).
  { intros i Hi. apply (permitted_isolated a3 b0 (top - 24)); [exact Gb|by apply Hp|by apply Hs]. }
  set (b1 := popped (top - 16) RDX b0). set (b2 := popped (top - 8) RCX b1). set (b3 := popped top RAX b2).
  exists b3. split_and!.
  - unfold strong_prologue, mov, set_reg. rewrite bind_modify. fold top.
    rewrite (bind_done _ _ _ _ _ (i_push_run RAX (with_reg RSP top m) (top - 8) eq_refl (Hp 1 ltac:(lia)))). fold a1.
    rewrite (bind_done _ _ _ tt a2).
    2: { apply i_push_run; [change (top - 8 - 8 = top - 16); lia|apply (Hp 2 ltac:(lia))]. }
    rewrite (bind_done _ _ _ tt a3).
    2: { apply i_push_run; [change (top - 16 - 8 = top - 24); lia|apply (Hp 3 ltac:(lia))]. }
    rewrite (bind_done _ _ _ _ _ Eb). rewrite (bind_done _ _ _ tt b1).
    2: { apply i_pop_run; rewrite Bsp; [lia|]. replace (top - 24) with (top - 8 * 3) by lia. apply Hr. lia. }
    rewrite (bind_done _ _ _ tt b2).
    2: { apply i_pop_run; [change (top - 16 + 8 = top - 8); lia|]. change (regs b1 RSP) with (top - 8 * 2). apply (Hr 2). lia. }
    apply i_pop_run; [change (top - 8 + 8 = top); lia|]. change (regs b2 RSP) with (top - 8 * 1). apply (Hr 1). lia.
  - split; try exact (gt_pkru _ _ _ _ Gb); try exact (gt_mmu _ _ _ _ Gb); try exact (gt_task _ _ _ _ Gb);
      [reflexivity| |exact Bd].
    intros r Hn. transitivity (regs b0 r); [|by rewrite (gt_regs _ _ _ _ Gb r Hn); destruct r; try reflexivity; set_solver].
    destruct r; try reflexivity; set_solver.
  - intros r Hn. assert (HD : default 0 (data b0 !! (top - 24)) = regs m RDX /\
      default 0 (data b0 !! (top - 16)) = regs m RCX /\ default 0 (data b0 !! (top - 8)) = regs m RAX).
    { rewrite Bd. unfold scratch_data. fold top.
      repeat (rewrite lookup_insert_eq || rewrite lookup_insert_ne by lia). done. }
    destruct HD as (D1 & D2 & D3). rewrite <- Bsp in D1.
    destruct r; [exact D3|exact D2|exact D1|..]; [|done|..];
      (etransitivity; [apply (gt_regs _ _ _ _ Gb); set_solver|reflexivity]).
Qed.

Lemma strong_run {A} (f : M (Machine F) A) m :
  machine_ok m -> scratch_ok m -> exists m1,
    gated (with_data (scratch_data m) m) m1 (stack_top m) (isolated_pkru (pkru_of m)) /\
    (forall r, r <> RSP -> regs m1 r = regs m r) /\
    isolate_function_strong root f m = (let! r := f in leave (regs m RSP) r) m1.
Proof.
  intros Hm Hs. destruct (strong_prologue_run m Hm Hs) as (m1 & E & G & Hr). exists m1. split_and!; [done|done|].
  unfold isolate_function_strong. rewrite isolated_stack_top_run by done. unfold get_reg. rewrite bind_gets.
  transitivity ((strong_prologue (stack_top m) ;;; let! r := f in leave (regs m RSP) r) m);
    [|by rewrite (bind_done _ _ _ _ _ E)].
  unfold strong_prologue. repeat (rewrite bind_assoc; apply bind_cong; intros ? ?). reflexivity.
Qed.

(** Back from an isolated call. *)
Lemma leave_run {A} sp (r : A) m :
  in_u32 (pkru_of m) -> exists m', leave sp r m = Done (r, m') /\ gated m m' sp (restored_pkru (pkru_of m)).
Proof.
  intros Hp. destruct (isolation_end_spec m Hp) as (m1 & E & G). exists (with_reg RSP sp m1).
  unfold leave. rewrite (bind_done _ _ _ _ _ E). split; [done|].
  eapply gated_trans; [exact G|]. rewrite <- (gt_pkru _ _ _ _ G). apply mov_rsp_spec.
Qed.

(** Isolation does not nest: when an isolated call returns, safe memory is
    accessible, also when the caller was isolated itself or ran with the user's
    PKRU and could not access it before the call. *)
Theorem isolation_does_not_nest m l vs m' :
  machine_ok m -> isolation_wrapper (run_accesses root l) m = Done (vs, m') ->
  perm_of (pkru_of m') Mm.SAFE_MEM_REGION = MpkRw /\
  (perm_of (pkru_of m) Mm.SAFE_MEM_REGION = MpkNone -> pkru_of m' <> pkru_of m).
Proof.
  intros Hm E. destruct (isolation_start_spec m) as (m1 & E1 & G1); [apply Hm|].
  unfold isolation_wrapper in E. rewrite (bind_done _ _ _ _ _ E1) in E. unfold bind at 1 in E.
  pose proof (confined root m m1 l (pkru_of m) _ G1) as Hc.
  destruct (run_accesses root l m1) as [[vs2 m2]| |]; [|done|done]. destruct Hc as (d & -> & _). cbn [obind fst snd] in E.
  destruct (isolation_end_spec (with_data d m1)) as (m3 & E3 & G3).
  { change (in_u32 (pkru_of m1)). rewrite (gt_pkru _ _ _ _ G1). apply isolated_pkru_u32, Hm. }
  rewrite (bind_done _ _ _ _ _ E3) in E. injection E as <- <-.
  assert (Hp : perm_of (pkru_of m3) Mm.SAFE_MEM_REGION = MpkRw)
    by (by rewrite (gt_pkru _ _ _ _ G3), restored_perm, decide_True by (by vm_compute)).
  split; [done|]. intros Hn Hq. rewrite Hq in Hp. congruence.
Qed.

(** *** User and kernel *)

Lemma unlock_kernel_spec m : exists m1, unlock_kernel m = Done (tt, m1) /\ gated m m1 (regs m RSP) 0.
Proof.
  eexists. split; [reflexivity|]. split; try reflexivity.
  intros r Hr. destruct r; try reflexivity; exfalso; apply Hr; set_solver.
Qed.

Lemma lock_kernel_spec m : exists m1, lock_kernel m = Done (tt, m1) /\ gated m m1 (regs m RSP) 0xFC.
Proof.
  eexists. split; [reflexivity|]. split; try reflexivity.
  intros r Hr. destruct r; try reflexivity; exfalso; apply Hr; set_solver.
Qed.

Lemma mov_then_lock m sp : exists m1, (mov sp RSP ;;; lock_kernel) m = Done (tt, m1) /\ gated m m1 sp 0xFC.
Proof.
  destruct (lock_kernel_spec (with_reg RSP sp m)) as (m1 & E & G). exists m1. split; [exact E|].
  eapply gated_trans; [apply mov_rsp_spec|exact G].
Qed.

(** The rights in the kernel and in user mode. *)
Lemma kernel_perm k : perm_of 0 k = MpkRw.
Proof. unfold perm_of, access_denied, write_denied. by rewrite !Z.bits_0. Qed.

Lemma user_perm k : 0 <= k <= 15 -> perm_of 0xFC k = if decide (1 <= k <= 3) then MpkNone else MpkRw.
Proof.
  intros Hk. unfold perm_of, access_denied, write_denied. change 0xFC with (Z.shiftl (Z.ones 6) 2).
  rewrite !testbit_field by lia. case_decide; zbit_cases; try lia; done.
Qed.

(** A system call runs on the kernel's stack with access to all memory, and
    whatever it does, the caller continues on its own stack with the user's PKRU;
    nothing else the call leaves behind is touched. *)
Theorem kernel_function_correct {A} (f : M (Machine F) A) m :
  exists m1, gated m m1 (kernel_stack_pointer (current_task m)) 0 /\
    match f m1 with
    | Done (r, m2) => exists m3, kernel_function f m = Done (r, m3) /\ gated m2 m3 (regs m RSP) 0xFC
    | Panic => kernel_function f m = Panic
    | OutOfFuel => kernel_function f m = OutOfFuel
    end.
Proof.
  destruct (unlock_kernel_spec m) as (m0 & E & G). set (m1 := with_reg RSP (kernel_stack_pointer (current_task m)) m0).
  exists m1. split.
  { eapply gated_trans; [exact G|]. rewrite <- (gt_pkru _ _ _ _ G). apply mov_rsp_spec. }
  assert (Ek : kernel_function f m =
    (let! r := f in mov (regs m RSP) RSP ;;; lock_kernel ;;; ret r) m1).
  { unfold kernel_function. rewrite (bind_done _ _ _ _ _ E). unfold get_reg. rewrite !bind_gets.
    rewrite (gt_sp _ _ _ _ G), (gt_task _ _ _ _ G). reflexivity. }
  rewrite Ek. destruct (f m1) as [[r m2]| |] eqn:Ef; [|unfold bind; by rewrite Ef|unfold bind; by rewrite Ef].
  destruct (mov_then_lock m2 (regs m RSP)) as (m3 & E3 & G3). exists m3. split; [|done].
  rewrite (bind_done _ _ _ _ _ Ef). unfold mov, set_reg in *. rewrite bind_modify in E3. rewrite bind_modify.
  by rewrite (bind_done _ _ _ _ _ E3).
Qed.

(** Code that runs with the user's PKRU reaches no safe, unsafe or shared memory
    of the kernel: an access to it faults, and no word of it changes. *)
Theorem user_confined m l :
  pkru_of m = 0xFC ->
  match run_accesses root l m with
  | Done (_, m') =>
      Forall (fun c => forall k, page_key root m (acc_addr c) = Some k -> ~ 1 <= k <= 3) l /\
      (forall a k, page_key root m a = Some k -> 1 <= k <= 3 -> data m' !! a = data m !! a) /\
      (forall r, regs m' r = regs m r) /\ pkru_of m' = 0xFC
  | Panic => Exists (fun c => acc_permitted root m c = false) l
  | OutOfFuel => False
  end.
Proof.
  intros Hp. pose proof (run_accesses_spec root l m) as Hr. destruct (run_accesses root l m) as [[vs m']| |]; [|done|done].
  destruct Hr as (HF & d & -> & Hd).
  assert (HF' : Forall (fun c => forall k, page_key root m (acc_addr c) = Some k -> ~ 1 <= k <= 3) l).
  { eapply Forall_impl; [exact HF|]. intros c Hc k Hk Hr.
    assert (exists w, permitted root m (acc_addr c) w = true) as [w Hw] by (destruct c; eauto).
    apply permitted_key in Hw as (k' & Hk' & Hperm). rewrite Hk in Hk'. injection Hk' as <-.
    apply Hperm. rewrite Hp, user_perm, decide_True by lia. done. }
  split_and!; [done| |done|done].
  intros a k Hk Hr. apply Hd. intros [v Hv]. rewrite Forall_forall in HF'. by apply (HF' _ Hv k).
Qed.

(** Around any kernel code that keeps the task's user stack pointer,
    [kernel_enter] and [kernel_exit] bring the caller back to its stack with the
    user's PKRU, and the kernel's stack pointer is kept for the next entry. *)
Theorem kernel_enter_exit {A} (f : M (Machine F) A) m :
  exists m1, kernel_enter m = Done (tt, m1) /\
    regs m1 RSP = kernel_stack_pointer (current_task m) /\ pkru_of m1 = 0 /\ data m1 = data m /\
    forall r m2, f m1 = Done (r, m2) -> user_stack_pointer (current_task m2) = user_stack_pointer (current_task m1) ->
      exists m3, (kernel_enter ;;; let! r := f in kernel_exit ;;; ret r) m = Done (r, m3) /\
        regs m3 RSP = regs m RSP /\ pkru_of m3 = 0xFC /\ data m3 = data m2 /\
        current_task m3 = mkTask (regs m2 RSP) (regs m RSP) (isolated_stack (current_task m2)).
Proof.
  destruct (unlock_kernel_spec m) as (m0 & E & G).
  assert (E1 : exists m1, kernel_enter m = Done (tt, m1) /\ regs m1 RSP = kernel_stack_pointer (current_task m) /\
    pkru_of m1 = 0 /\ data m1 = data m /\ user_stack_pointer (current_task m1) = regs m RSP).
  { eexists. split; [unfold kernel_enter; rewrite (bind_done _ _ _ _ _ E); reflexivity|].
    split_and!; [exact (f_equal kernel_stack_pointer (gt_task _ _ _ _ G))|exact (gt_pkru _ _ _ _ G)|
      exact (gt_data _ _ _ _ G)|exact (gt_sp _ _ _ _ G)]. }
  destruct E1 as (m1 & E1 & Hsp & Hp & Hd & Hu). exists m1. split_and!; try done. intros r m2 Ef Hk.
  set (m2' := with_task (mkTask (regs m2 RSP) (user_stack_pointer (current_task m2)) (isolated_stack (current_task m2))) m2).
  destruct (mov_then_lock m2' (user_stack_pointer (current_task m2))) as (m3 & E3 & G3).
  assert (Ex : kernel_exit m2 = Done (tt, m3)) by exact E3.
  exists m3. rewrite (bind_done _ _ _ _ _ E1), (bind_done _ _ _ _ _ Ef), (bind_done _ _ _ _ _ Ex).
  split_and!; [done| |exact (gt_pkru _ _ _ _ G3)|exact (gt_data _ _ _ _ G3)|].
  - rewrite (gt_sp _ _ _ _ G3). congruence.
  - rewrite (gt_task _ _ _ _ G3). unfold m2'. cbn [current_task with_task]. congruence.
Qed.

End isolated_calls.

(** ** Isolated calls that share the caller's stack frame *)

Section weak.

Context {F : Type} `{FrameSource F}.
Context (root : Z) (supports_1gib_pages : bool).

Implicit Types (m : Machine F).

Definition frame_low m : Z := regs m RSP - regs m RSP mod 4096.
Definition frame_high m : Z := align_up_val (regs m RBP) 4096.
Definition in_frame m (a : Z) : Prop := frame_low m <= a < frame_high m.

#[local] Instance in_frame_dec m a : Decision (in_frame m a).
Proof. unfold in_frame. apply _. Defined.

(** The caller's stack frame: between RSP and RBP, in 4 KiB pages of the lower half. *)
Record frame_pages m : Prop := {
  fp_tree : tree_ok (mem (core_mmu (core m))) root;
  fp_order : 0 <= regs m RSP <= regs m RBP;
  fp_high : frame_high m <= 2 ^ 47;
  fp_leaf : forall a, in_frame m a ->
    exists e, walk (mem (core_mmu (core m))) root a = Some (0%nat, e) /\ in_u64 e
}.

(** [m'] has the frame of [m] under the key and every other translation as in [m]. *)
Record frame_keyed m (key : Z) (m' : Machine F) : Prop := {
  fk_pkru : pkru_of m' = pkru_of m;
  fk_regs : regs m' = regs m;
  fk_task : current_task m' = current_task m;
  fk_data : data m' = data m;
  fk_tree : tree_ok (mem (core_mmu (core m'))) root;
  fk_walk : forall a, lower a -> walk (mem (core_mmu (core m'))) root a =
    if decide (in_frame m a) then (fun p => (p.1, with_pkey p.2 key)) <$> walk (mem (core_mmu (core m))) root a
    else walk (mem (core_mmu (core m))) root a
}.

Lemma frame_bounds m :
  frame_pages m -> frame_low m mod 4096 = 0 /\ frame_high m mod 4096 = 0 /\ 0 <= frame_low m <= frame_high m.
Proof.
  intros [_ Ho Hh _]. unfold frame_low, frame_high in *.
  pose proof (align_up_val_spec (regs m RBP) 4096 ltac:(lia)) as [Hb Hm].
  pose proof (Z.mod_pos_bound (regs m RSP) 4096 ltac:(lia)). pose proof (Z.mod_le (regs m RSP) 4096 ltac:(lia) ltac:(lia)).
  split_and!; try done; try lia. exact (base_aligned BasePageSize (regs m RSP)).
Qed.

Lemma frame_count m :
  frame_pages m -> (frame_high m - frame_low m) / 4096 * 4096 = frame_high m - frame_low m /\
  0 <= (frame_high m - frame_low m) / 4096.
Proof.
  intros Hf. destruct (frame_bounds m Hf) as (B1 & B2 & B3). split; [|apply Z.div_pos; lia].
  pose proof (Z.div_mod (frame_high m - frame_low m) 4096 ltac:(lia)) as Hd.
  rewrite Zminus_mod, B1, B2 in Hd. change ((0 - 0) mod 4096) with 0 in Hd. lia.
Qed.

(** Setting the key of the frame's pages. *)
Lemma set_frame_key m key :
  frame_pages m -> 0 <= key < 16 ->
  exists m', set_key root supports_1gib_pages BasePageSize (frame_low m) ((frame_high m - frame_low m) / 4096) key m
      = Done (tt, m') /\ frame_keyed m key m'.
Proof.
  intros Hf Hk. destruct (frame_bounds m Hf) as (B1 & B2 & B3). destruct (frame_count m Hf) as [C1 C2].
  set (n := (frame_high m - frame_low m) / 4096) in *.
  assert (Hb : frame_low m - frame_low m mod SIZE BasePageSize = frame_low m) by (simpl SIZE; lia).
  destruct (set_pkey_loop_spec root supports_1gib_pages BasePageSize (frame_low m) key (Z.to_nat n) (core_mmu (core m))
    (fp_tree m Hf) Hk ltac:(done)) as (s' & E & T & _ & _ & W & _);
    rewrite ?Hb, ?Z2Nat.id in * by lia; simpl SIZE in *; try lia.
  - pose proof (fp_high m Hf). lia.
  - intros i Hi. apply (fp_leaf m Hf). unfold in_frame. lia.
  - exists (with_core (mkCore (pkru_of m) s') m). split.
    + unfold set_key, on_machine_mmu, set_pkey_on_page_table_entry. by rewrite E.
    + split; try done. intros a Ha. cbn [core with_core core_mmu]. rewrite W by done. unfold rekeyed, in_frame. simpl SIZE.
      rewrite C1. replace (frame_low m + (frame_high m - frame_low m)) with (frame_high m) by lia. done.
Qed.

(** The frame can be given another key afterwards. *)
Lemma frame_keyed_pages m key m' : 0 <= key < 16 -> frame_pages m -> frame_keyed m key m' -> frame_pages m'.
Proof.
  intros Hk Hf [K1 K2 K3 K4 K5 K6]. destruct (frame_bounds m Hf) as (_ & _ & B3).
  assert (Hlow : frame_low m' = frame_low m) by (unfold frame_low; by rewrite K2).
  assert (Hhigh : frame_high m' = frame_high m) by (unfold frame_high; by rewrite K2).
  split; [done|rewrite K2; apply Hf|rewrite Hhigh; apply Hf|].
  intros a Ha. assert (Ha' : in_frame m a) by (unfold in_frame in *; congruence).
  pose proof (fp_high m Hf). destruct (fp_leaf m Hf a Ha') as (e & E & Hu).
  rewrite K6 by (unfold lower, in_frame in *; lia). rewrite decide_True, E by done. eexists. split; [done|].
  by apply with_pkey_u64.
Qed.

(** What the call of [isolate_function_weak] is, between the two changes of the frame's key. *)
Lemma weak_run {A} (f : M (Machine F) A) m :
  machine_ok m -> frame_pages m -> exists ms m1,
    frame_keyed m SHARED_MEM_REGION ms /\ gated ms m1 (stack_top m) (isolated_pkru (pkru_of m)) /\
    isolate_function_weak root supports_1gib_pages f m =
      (let! r := f in leave (regs m RSP) r ;;;
       set_key root supports_1gib_pages BasePageSize (frame_low m) ((frame_high m - frame_low m) / 4096) Mm.SAFE_MEM_REGION ;;;
       ret r) m1.
Proof.
  intros Hm Hf. destruct (frame_bounds m Hf) as (B1 & B2 & B3). pose proof (fp_high m Hf) as Hh.
  pose proof (align_up_val_spec (regs m RBP) 4096 ltac:(lia)) as [Hb _]. fold (frame_high m) in Hb.
  pose proof (fp_order m Hf) as Ho. assert (HW : 2 ^ 47 + 4096 < W64) by done.
  destruct (set_frame_key m SHARED_MEM_REGION Hf ltac:(by vm_compute)) as (ms & Es & Hk).
  destruct (isolation_start_spec (with_reg RSP (stack_top m) ms)) as (m1 & E1 & G1).
  { change (in_u32 (pkru_of ms)). rewrite (fk_pkru _ _ _ Hk). apply Hm. }
  exists ms, m1. split_and!; [done| |].
  { eapply gated_trans; [apply mov_rsp_spec|]. change (pkru_of (with_reg RSP (stack_top m) ms)) with (pkru_of ms) in G1.
    rewrite (fk_pkru _ _ _ Hk) in G1. exact G1. }
  unfold isolate_function_weak. rewrite isolated_stack_top_run by done. unfold get_reg. rewrite !bind_gets.
  rewrite (bind_lift_done _ _ (frame_high m)) by (apply align_up_done; [lia|by exists 12|lia]).
  rewrite (bind_lift_done _ _ (frame_low m)).
  2: { apply align_down_done; [unfold in_u64; lia|by exists 12]. }
  rewrite (bind_lift_done _ _ (frame_high m - frame_low m)) by (apply sub64_done; lia). cbv zeta.
  rewrite (bind_done _ _ _ _ _ Es). unfold mov, set_reg. rewrite bind_modify, (bind_done _ _ _ _ _ E1).
  apply bind_cong. intros r m2. unfold leave. rewrite bind_assoc. apply bind_cong. intros [] m3. rewrite bind_assoc. reflexivity.
Qed.

Lemma keyed_page_key m key m' a :
  0 <= key < 16 -> frame_pages m -> frame_keyed m key m' -> lower a ->
  page_key root m' a = (if decide (in_frame m a) then Some key else page_key root m a) /\
  translate (mem (core_mmu (core m'))) root a = translate (mem (core_mmu (core m))) root a.
Proof.
  intros Hk Hf K Ha. unfold page_key, translate. rewrite (fk_walk _ _ _ K a Ha). case_decide as C; [|done].
  destruct (fp_leaf m Hf a C) as (e & -> & Hu). simpl. split; f_equal; [by apply with_pkey_pkey|].
  apply (with_pkey_translate 0); [lia|done|done].
Qed.

Lemma frame_pages_ext m m' :
  core_mmu (core m') = core_mmu (core m) -> regs m' RSP = regs m RSP -> regs m' RBP = regs m RBP ->
  frame_pages m -> frame_pages m' /\ (forall a, in_frame m' a <-> in_frame m a) /\
  frame_low m' = frame_low m /\ frame_high m' = frame_high m.
Proof.
  intros Em Es Eb Hf. assert (El : frame_low m' = frame_low m) by (unfold frame_low; by rewrite Es).
  assert (Eh : frame_high m' = frame_high m) by (unfold frame_high; by rewrite Eb).
  assert (Ei : forall a, in_frame m' a <-> in_frame m a) by (intros a; unfold in_frame; by rewrite El, Eh).
  split_and!; try done. destruct Hf as [F1 F2 F3 F4]. split; rewrite ?Em, ?Es, ?Eb, ?Eh; try done.
  intros a Ha. by apply F4, Ei.
Qed.

(** After the call: the frame is safe again and nothing else changed. *)
Lemma weak_epilogue m ms m1 d A (r : A) :
  machine_ok m -> frame_pages m -> frame_keyed m SHARED_MEM_REGION ms ->
  gated ms m1 (stack_top m) (isolated_pkru (pkru_of m)) ->
  exists m', (leave (regs m RSP) r ;;;
      set_key root supports_1gib_pages BasePageSize (frame_low m) ((frame_high m - frame_low m) / 4096) Mm.SAFE_MEM_REGION ;;;
      ret r) (with_data d m1) = Done (r, m') /\
    (forall a, lower a -> translate (mem (core_mmu (core m'))) root a = translate (mem (core_mmu (core m))) root a) /\
    (forall a, lower a -> page_key root m' a = if decide (in_frame m a) then Some Mm.SAFE_MEM_REGION else page_key root m a) /\
    regs m' RSP = regs m RSP /\ data m' = d /\ pkru_of m' = restored_pkru (isolated_pkru (pkru_of m)) /\
    (forall r, r ∉ [RSP; RAX; RCX; RDX] -> regs m' r = regs m r) /\ current_task m' = current_task m /\
    frame_pages m' /\ (forall a, lower a -> ~ in_frame m a -> walk (mem (core_mmu (core m'))) root a = walk (mem (core_mmu (core m))) root a).
Proof.
  intros Hm Hf K G. pose proof (frame_keyed_pages m SHARED_MEM_REGION ms ltac:(by vm_compute) Hf K) as Hfs.
  destruct (leave_run (regs m RSP) r (with_data d m1)) as (m3 & E3 & G3).
  { change (in_u32 (pkru_of m1)). rewrite (gt_pkru _ _ _ _ G). apply isolated_pkru_u32, Hm. }
  change (pkru_of (with_data d m1)) with (pkru_of m1) in G3. rewrite (gt_pkru _ _ _ _ G) in G3.
  destruct (frame_pages_ext ms m3) as (Hf3 & Hi3 & El & Eh).
  { rewrite (gt_mmu _ _ _ _ G3). exact (gt_mmu _ _ _ _ G). }
  { rewrite (gt_sp _ _ _ _ G3). by rewrite (fk_regs _ _ _ K). }
  { rewrite (gt_regs _ _ _ _ G3 RBP) by set_solver. apply (gt_regs _ _ _ _ G RBP). set_solver. }
  { done. }
  assert (Els : frame_low ms = frame_low m) by (unfold frame_low; by rewrite (fk_regs _ _ _ K)).
  assert (Ehs : frame_high ms = frame_high m) by (unfold frame_high; by rewrite (fk_regs _ _ _ K)).
  destruct (set_frame_key m3 Mm.SAFE_MEM_REGION Hf3 ltac:(by vm_compute)) as (m' & E' & K').
  rewrite El, Eh, Els, Ehs in E'. exists m'.
  assert (Hmem : core_mmu (core m3) = core_mmu (core ms)).
  { rewrite (gt_mmu _ _ _ _ G3). exact (gt_mmu _ _ _ _ G). }
  assert (Hin : forall a, in_frame m3 a <-> in_frame m a)
    by (intros a; rewrite Hi3; unfold in_frame; by rewrite Els, Ehs).
  split_and!.
  - by rewrite (bind_done _ _ _ _ _ E3), (bind_done _ _ _ _ _ E').
  - intros a Ha. rewrite (proj2 (keyed_page_key m3 Mm.SAFE_MEM_REGION m' a ltac:(by vm_compute) Hf3 K' Ha)), Hmem.
    apply (keyed_page_key m SHARED_MEM_REGION ms a ltac:(by vm_compute) Hf K Ha).
  - intros a Ha. rewrite (proj1 (keyed_page_key m3 Mm.SAFE_MEM_REGION m' a ltac:(by vm_compute) Hf3 K' Ha)).
    destruct (decide (in_frame m3 a)) as [C|C]; rewrite Hin in C; [by rewrite decide_True|].
    rewrite decide_False by done. transitivity (page_key root ms a); [unfold page_key; by rewrite Hmem|].
    rewrite (proj1 (keyed_page_key m SHARED_MEM_REGION ms a ltac:(by vm_compute) Hf K Ha)). by rewrite decide_False.
  - rewrite (fk_regs _ _ _ K'). exact (gt_sp _ _ _ _ G3).
  - rewrite (fk_data _ _ _ K'). exact (gt_data _ _ _ _ G3).
  - rewrite (fk_pkru _ _ _ K'). exact (gt_pkru _ _ _ _ G3).
  - intros x Hx. rewrite (fk_regs _ _ _ K'), (gt_regs _ _ _ _ G3 x Hx). rewrite <- (fk_regs _ _ _ K).
    exact (gt_regs _ _ _ _ G x Hx).
  - rewrite (fk_task _ _ _ K'), (gt_task _ _ _ _ G3). rewrite <- (fk_task _ _ _ K). exact (gt_task _ _ _ _ G).
  - exact (frame_keyed_pages m3 Mm.SAFE_MEM_REGION m' ltac:(by vm_compute) Hf3 K').
  - intros a Ha Hn. rewrite (fk_walk _ _ _ K' a Ha), decide_False by (by rewrite Hin).
    by rewrite Hmem, (fk_walk _ _ _ K a Ha), decide_False.
Qed.

End weak.

(** ** Examples *)

Section sample.

#[local] Existing Instance Paging.bump_source.

(** [sample1] with its first page as safe memory and the second one as the end of
    the isolated stack. *)
Definition sample_pages : Mmu Z :=
  run_state (set_pkey_on_page_table_entry sample_root false BasePageSize 0x10000000 1 1) sample1.

Definition sample_task : CurrentTask := mkTask 0x10000800 0x20000000 (0x10002000 - DEFAULT_STACK_SIZE).

Definition sample_regs : reg -> Z := fun r => match r with RSP => 0x10000100 | RBP => 0x10001000 | _ => 7 end.

Definition sample_machine (p : Z) (s : Mmu Z) : Machine Z :=
  mkMachine sample_regs 0x202 0 0 0 {[0x10000010 := 42]} (mkCore p s) sample_task.

Lemma sample_machine_ok p s : in_u32 p -> machine_ok (sample_machine p s).
Proof. intros Hp. split; [done|by vm_compute]. Qed.

Lemma sample_scratch_ok : scratch_ok sample_root (sample_machine 0 sample_pages).
Proof.
  intros i Hi. assert (i = 1 \/ i = 2 \/ i = 3) as [-> | [-> | ->]] by lia; (split; [vm_compute; reflexivity|by vm_compute]).
Qed.

(** The user's PKRU opens up. *)
Lemma isolation_does_not_nest_witness :
  exists vs m', isolation_wrapper (run_accesses sample_root []) (sample_machine 0xFC sample_pages) = Done (vs, m') /\
    pkru_of m' <> 0xFC.
Proof.
  destruct (isolation_wrapper (run_accesses sample_root []) (sample_machine 0xFC sample_pages)) as [[vs m']| |] eqn:E;
    [|discriminate E|discriminate E].
  exists vs, m'. split; [reflexivity|].
  apply (isolation_does_not_nest sample_root (sample_machine 0xFC sample_pages) [] vs m'
    (sample_machine_ok 0xFC sample_pages ltac:(by vm_compute)) E). by vm_compute.
Defined.

Lemma user_confined_witness :
  Exists (fun c => acc_permitted sample_root (sample_machine 0xFC sample_pages) c = false) [Read 0x10000010].
Proof.
  pose proof (user_confined sample_root (sample_machine 0xFC sample_pages) [Read 0x10000010] eq_refl) as Hx.
  assert (Hd : match run_accesses sample_root [Read 0x10000010] (sample_machine 0xFC sample_pages)
    with Panic => true | _ => false end = true) by (vm_compute; reflexivity).
  destruct (run_accesses _ _ _) as [[vs m']| |]; [discriminate Hd|exact Hx|discriminate Hd].
Defined.

Lemma sample_frame_pages : frame_pages sample_root (sample_machine 0 sample1).
Proof.
  split; [exact (mk_tree _ _ _ sample1_ok)|by vm_compute|by vm_compute|].
  intros a Ha. change (0x10000000 <= a < 0x10001000) in Ha.
  exists 0x1000000000800067. split; [|by vm_compute].
  apply (walk_same _ _ 0x10000000); [|vm_compute; reflexivity].
  apply (same_page 0); [lia|unfold lower; lia|unfold lower; lia|].
  unfold page_bits. change (2 ^ (12 + 9 * Z.of_nat 0)) with 4096.
  rewrite <- (Z.div_unique a 4096 0x10000 (a - 0x10000000)) by lia. done.
Qed.

End sample.
