(* ===== verification/Gate.v ===== *)
(** * System calls from states that hold more than a core: src/macros.rs

    [kernel_function!] of [Isolation] for the state of any component that has a core in
    it. A component says where its core is ([OnCore]), and gets the gate and what it
    promises. *)

From Stdlib Require Import ZArith Lia.
From stdpp Require Import base numbers list gmap.
From S2P Require Import Prelude Pte Mmu Paging Mm Mpk Cpu Isolation.

#[local] Open Scope Z_scope.

(** The core in a state *)
Class OnCore (F St : Type) := {
  the_core : St -> Machine F;
  set_core : Machine F -> St -> St;
  the_core_set : forall m s, the_core (set_core m s) = m;
  set_core_twice : forall m m' s, set_core m' (set_core m s) = set_core m' s
}.

Section gate.

Context {F St : Type} `{FrameSource F, OnCore F St}.

Implicit Types (s : St).

Definition on_core {A} (o : M (Machine F) A) : M St A := fun s =>
  let? (a, m) := o (the_core s) in Done (a, set_core m s).

(** [kernel_function!] around a call *)
Definition kernel_function {A} (f : M St A) : M St A :=
  on_core unlock_kernel ;;;
  let! user_stack_pointer := on_core (get_reg RSP) in
  let! kernel_stack_pointer := on_core (gets (fun m => kernel_stack_pointer (Cpu.current_task m))) in
  on_core (mov kernel_stack_pointer RSP) ;;;
  let! temp_ret := f in
  on_core (mov user_stack_pointer RSP) ;;;
  on_core lock_kernel ;;;
  ret temp_ret.

Lemma on_core_step {A B} (o : M (Machine F) A) s (k : A -> M St B) r m :
  o (the_core s) = Done (r, m) -> bind (on_core o) k s = k r (set_core m s).
Proof. intros E. unfold bind, on_core. by rewrite E. Qed.

(** The call runs on the kernel's stack with all rights. Whatever it does, afterwards the
    caller's stack pointer is back and the core has the rights of an application, not those
    it had before. *)
Lemma kernel_function_run {A} (f : M St A) s :
  exists m1, gated (the_core s) m1 (kernel_stack_pointer (Cpu.current_task (the_core s))) 0 /\
    match f (set_core m1 s) with
    | Done (r, s2) => exists m2, kernel_function f s = Done (r, set_core m2 s2) /\
        gated (the_core s2) m2 (regs (the_core s) RSP) 0xFC
    | Panic => kernel_function f s = Panic
    | OutOfFuel => kernel_function f s = OutOfFuel
    end.
Proof.
  destruct (unlock_kernel_spec (the_core s)) as (m0 & E0 & G0).
  set (sp := kernel_stack_pointer (Cpu.current_task (the_core s))). set (m1 := with_reg RSP sp m0).
  exists m1. split; [eapply gated_trans; [exact G0|]; rewrite <- (gt_pkru _ _ _ _ G0); apply mov_rsp_spec|].
  assert (Ek : kernel_function f s = (let! r := f in on_core (mov (regs (the_core s) RSP) RSP) ;;; on_core lock_kernel ;;; ret r) (set_core m1 s)).
  { unfold kernel_function. rewrite (on_core_step _ _ _ _ _ E0).
    rewrite (on_core_step _ _ _ (regs m0 RSP) m0) by (by rewrite the_core_set). rewrite set_core_twice.
    rewrite (on_core_step _ _ _ (kernel_stack_pointer (Cpu.current_task m0)) m0) by (by rewrite the_core_set). rewrite set_core_twice.
    rewrite (gt_task _ _ _ _ G0), (gt_sp _ _ _ _ G0). fold sp.
    rewrite (on_core_step _ _ _ tt m1) by (by rewrite the_core_set). by rewrite set_core_twice. }
  rewrite Ek. destruct (f (set_core m1 s)) as [[r s2]| |] eqn:Ef; [|unfold bind; by rewrite Ef|unfold bind; by rewrite Ef].
  destruct (lock_kernel_spec (with_reg RSP (regs (the_core s) RSP) (the_core s2))) as (m2 & E2 & G2). exists m2. split.
  - rewrite (bind_done _ _ _ _ _ Ef). rewrite (on_core_step _ _ _ tt (with_reg RSP (regs (the_core s) RSP) (the_core s2))) by done.
    rewrite (on_core_step _ _ _ tt m2) by (by rewrite the_core_set). by rewrite set_core_twice.
  - eapply gated_trans; [apply mov_rsp_spec|exact G2].
Qed.

(** A gate that is entered in the kernel leaves the kernel's stack to an application: code of
    the kernel that goes on after it still has its stack pointer, but an access to a page with
    a key of the kernel, as its stack has one, faults. *)
Lemma nested_gate_locks root {A} (f : M St A) s r s' :
  kernel_function f s = Done (r, s') ->
  regs (the_core s') RSP = regs (the_core s) RSP /\
  forall a k write, page_key root (the_core s') a = Some k -> 1 <= k <= 3 -> permitted root (the_core s') a write = false.
Proof.
  intros E. destruct (kernel_function_run f s) as (m1 & G1 & Hf).
  destruct (f (set_core m1 s)) as [[r2 s2]| |]; [destruct Hf as (m2 & E2 & G2)|congruence..].
  rewrite E2 in E. injection E as -> <-. rewrite the_core_set. split; [apply G2|].
  intros a k w Hk Hr. apply not_true_is_false. intros Hp. apply permitted_key in Hp as (k' & Hk' & Hperm).
  rewrite Hk in Hk'. injection Hk' as <-. apply Hperm. rewrite (gt_pkru _ _ _ _ G2), user_perm, decide_True by lia. done.
Qed.

(** The inner gate of two begins on the same stack as the outer one, and so writes over what
    the outer call has put there. *)
Lemma nested_gate_same_stack {A} (f : M St A) s :
  exists m1 m2, gated (the_core s) m1 (kernel_stack_pointer (Cpu.current_task (the_core s))) 0 /\
    gated m1 m2 (kernel_stack_pointer (Cpu.current_task (the_core s))) 0 /\
    match f (set_core m2 s) with
    | Done (r, s2) => exists m3, kernel_function (kernel_function f) s = Done (r, set_core m3 s2)
    | Panic => kernel_function (kernel_function f) s = Panic
    | OutOfFuel => kernel_function (kernel_function f) s = OutOfFuel
    end.
Proof.
  destruct (kernel_function_run (kernel_function f) s) as (m1 & G1 & H1).
  destruct (kernel_function_run f (set_core m1 s)) as (m2 & G2 & H2). rewrite the_core_set in G2. rewrite set_core_twice in H2.
  exists m1, m2. rewrite (gt_task _ _ _ _ G1) in G2. split_and!; [done..|].
  destruct (f (set_core m2 s)) as [[r s2]| |].
  - destruct H2 as (m3 & E3 & _). rewrite E3 in H1. destruct H1 as (m4 & E4 & _). exists m4. by rewrite set_core_twice in E4.
  - by rewrite H2 in H1.
  - by rewrite H2 in H1.
Qed.

End gate.
