(* ===== verification/Confined.v ===== *)
(** * What isolated code can do: the guarantee of [isolate_function_strong] and
    [isolate_function_weak] (src/macros.rs) for any code they call

    The called code is a tree of its effects: it reads and writes memory and
    registers in any order, and what it does next may depend on all it has read.
    It does not execute WRPKRU - there is nothing in the kernel that keeps code
    from doing so, and the nested use of the macros does - and it does not write
    page tables, which the kernel reaches in the upper half of the address space. *)

From stdpp Require Import base numbers list gmap.
From Stdlib Require Import ZArith Lia.
From S2P Require Import Prelude Pte Mmu Paging Mm Mpk Cpu Isolation.

#[local] Open Scope Z_scope.

(** ** Code *)

Inductive code (A : Type) :=
  | Return (r : A)
  | ReadMem (a : Z) (k : Z -> code A)
  | WriteMem (a v : Z) (k : code A)
  | ReadReg (r : reg) (k : Z -> code A)
  | WriteReg (r : reg) (v : Z) (k : code A).
Arguments Return {A} _.
Arguments ReadMem {A} _ _.
Arguments WriteMem {A} _ _ _.
Arguments ReadReg {A} _ _.
Arguments WriteReg {A} _ _ _.

Section code.

Context {F : Type} `{FrameSource F}.
Context (root : Z).

Implicit Types (m : Machine F).

Fixpoint run_code {A} (c : code A) : M (Machine F) A :=
  match c with
  | Return r => ret r
  | ReadMem a k => let! v := load root a in run_code (k v)
  | WriteMem a v k => store root a v ;;; run_code k
  | ReadReg r k => let! v := get_reg r in run_code (k v)
  | WriteReg r v k => set_reg r v ;;; run_code k
  end.

(** The memory accesses that the code makes from the state [m] on, up to and
    with the first one that faults. *)
Fixpoint trace {A} (c : code A) m : list access :=
  match c with
  | Return _ => []
  | ReadMem a k => Read a :: match load root a m with Done (v, _) => trace (k v) m | _ => [] end
  | WriteMem a v k => Write a v :: match store root a v m with Done (_, m') => trace k m' | _ => [] end
  | ReadReg r k => trace (k (regs m r)) m
  | WriteReg r v k => trace k (with_reg r v m)
  end.

(** All accesses are permitted, but for the last one if the code faults. *)
Definition faults m (l : list access) : Prop :=
  exists l' c, l = l' ++ [c] /\ Forall (fun c => acc_permitted root m c = true) l' /\ acc_permitted root m c = false.

Lemma acc_permitted_core m m' c : core m' = core m -> acc_permitted root m' c = acc_permitted root m c.
Proof. intros E. unfold acc_permitted, permitted, pkru_of. by rewrite E. Qed.

Lemma faults_core m m' l : core m' = core m -> faults m' l -> faults m l.
Proof.
  intros E (l' & c & -> & Hl & Hc). exists l', c. split_and!; [done| |by rewrite <- (acc_permitted_core m m')].
  eapply Forall_impl; [exact Hl|]. intros x. cbv beta. by rewrite (acc_permitted_core m m').
Qed.

Lemma faults_cons m c l : acc_permitted root m c = true -> faults m l -> faults m (c :: l).
Proof. intros Hc (l' & x & -> & Hl & Hx). exists (c :: l'), x. split_and!; [done|by constructor|done]. Qed.

Lemma faults_now m c : acc_permitted root m c = false -> faults m [c].
Proof. intros Hc. exists [], c. by split_and!. Qed.

(** Code changes registers and data only, of these only what it writes; it ends,
    unless an access faults. *)
Lemma run_code_spec {A} (c : code A) : forall m,
  match run_code c m with
  | Done (_, m') => Forall (fun x => acc_permitted root m x = true) (trace c m)
      /\ core m' = core m /\ current_task m' = current_task m
      /\ forall a, ~ written (trace c m) a -> data m' !! a = data m !! a
  | Panic => faults m (trace c m)
  | OutOfFuel => False
  end.
Proof.
  induction c as [r|a k IH|a v k IH|r k IH|r v k IH]; intros m; cbn [run_code trace].
  - split_and!; [constructor|done..].
  - unfold bind, load. destruct (permitted root m a false) eqn:Ep; cbn [obind fst snd]; [|by apply faults_now].
    specialize (IH (default 0 (data m !! a)) m). destruct (run_code _ m) as [[r m']| |]; [|by apply faults_cons|done].
    destruct IH as (H1 & H2 & H3 & H4). split_and!; [by constructor|done|done|].
    intros b Hb. apply H4. intros [w Hw]. apply Hb. exists w. by right.
  - unfold bind, store. destruct (permitted root m a true) eqn:Ep; cbn [obind fst snd]; [|by apply faults_now].
    set (m1 := with_data (<[a := v]> (data m)) m). specialize (IH m1).
    assert (Hc : forall x, acc_permitted root m1 x = acc_permitted root m x) by (intros; by apply acc_permitted_core).
    destruct (run_code k m1) as [[r m']| |]; [|by apply faults_cons; [|by apply (faults_core m m1)]|done].
    destruct IH as (H1 & H2 & H3 & H4). split_and!; [|done|done|].
    + constructor; [done|]. eapply Forall_impl; [exact H1|]. intros x. cbv beta. by rewrite Hc.
    + intros b Hb. rewrite H4 by (intros [w Hw]; apply Hb; exists w; by right).
      apply lookup_insert_ne. intros ->. apply Hb. exists v. left.
  - unfold get_reg. rewrite bind_gets. apply IH.
  - unfold set_reg. rewrite bind_modify. set (m1 := with_reg r v m). specialize (IH m1).
    assert (Hc : forall x, acc_permitted root m1 x = acc_permitted root m x) by (intros; by apply acc_permitted_core).
    destruct (run_code k m1) as [[x m']| |]; [|by apply (faults_core m m1)|done].
    destruct IH as (H1 & H2 & H3 & H4). split_and!; [|done|done|exact H4].
    eapply Forall_impl; [exact H1|]. intros y. cbv beta. by rewrite Hc.
Qed.

(** Under an isolated PKRU code does not reach safe memory. *)
Lemma code_confined {A} (c : code A) m m1 p sp :
  gated m m1 sp (isolated_pkru p) ->
  match run_code c m1 with
  | Done (_, m2) => core m2 = core m1 /\ current_task m2 = current_task m1
      /\ Forall (fun x => page_key root m (acc_addr x) <> Some Mm.SAFE_MEM_REGION) (trace c m1)
      /\ forall a, page_key root m a = Some Mm.SAFE_MEM_REGION -> data m2 !! a = data m1 !! a
  | Panic => faults m1 (trace c m1)
  | OutOfFuel => False
  end.
Proof.
  intros G. pose proof (run_code_spec c m1) as Hr. destruct (run_code c m1) as [[r m2]| |]; [|done|done].
  destruct Hr as (HF & Hc & Ht & Hd). split; [done|]. split; [done|].
  assert (HF' : Forall (fun x => page_key root m (acc_addr x) <> Some Mm.SAFE_MEM_REGION) (trace c m1)).
  { eapply Forall_impl; [exact HF|]. intros x Hx.
    assert (exists w, permitted root m1 (acc_addr x) w = true) as [w Hw] by (destruct x; eauto).
    apply permitted_key in Hw as (k & Hk & Hperm). unfold page_key in *. rewrite (gt_mmu _ _ _ _ G) in Hk.
    rewrite Hk. intros [= ->]. apply Hperm. rewrite (gt_pkru _ _ _ _ G), isolated_perm by (by vm_compute).
    by rewrite decide_True. }
  split; [done|]. intros a Ha. apply Hd. intros [v Hv].
  rewrite Forall_forall in HF'. by apply (HF' _ Hv).
Qed.

End code.

(** ** The strong call *)

Section strong.

Context {F : Type} `{FrameSource F}.
Context (root : Z).

Implicit Types (m : Machine F).

(** The rights after an isolated call: safe memory is open, the other keys are as before. *)
Lemma restored_isolated_perm p k : 0 <= k <= 15 ->
  perm_of (restored_pkru (isolated_pkru p)) k = if decide (k = Mm.SAFE_MEM_REGION) then MpkRw else perm_of p k.
Proof. intros Hk. rewrite restored_perm by done. case_decide; [done|]. by rewrite isolated_perm, decide_False. Qed.

(** C4. What [isolate_function_strong] guarantees for any code [c] that does not
    write PKRU or page tables. The code starts on the isolated stack, with every
    other register of the caller, and with no right to safe memory while all
    other rights are the caller's; before it the call has written three words,
    below the end of the isolated stack, and nothing else. Then either an access
    of the code faults, which ends the system; or the code touched no safe
    memory - no access goes to a page under the safe key, and no word of such a
    page has changed since before the call - and the call returns what the code
    returned, in the state that the code left, but for this: the stack pointer is
    the caller's, RAX, RCX and RDX are clobbered, and safe memory is open while
    all other rights are the caller's. So PKRU is what it was before the call if
    the caller had full access to safe memory; a caller that had not gets it. *)
Theorem isolate_function_strong_confines {A} (c : code A) m :
  machine_ok m -> scratch_ok root m ->
  exists m1, regs m1 RSP = stack_top m /\ (forall r, r <> RSP -> regs m1 r = regs m r) /\
    perm_of (pkru_of m1) Mm.SAFE_MEM_REGION = MpkNone /\
    (forall k, 0 <= k <= 15 -> k <> Mm.SAFE_MEM_REGION -> perm_of (pkru_of m1) k = perm_of (pkru_of m) k) /\
    (forall a, a ∉ [stack_top m - 8; stack_top m - 16; stack_top m - 24] -> data m1 !! a = data m !! a) /\
    core_mmu (core m1) = core_mmu (core m) /\ current_task m1 = current_task m /\
    match isolate_function_strong root (run_code root c) m with
    | Done (r, m') => exists m2, run_code root c m1 = Done (r, m2) /\
        Forall (fun x => page_key root m (acc_addr x) <> Some Mm.SAFE_MEM_REGION) (trace root c m1) /\
        (forall a, page_key root m a = Some Mm.SAFE_MEM_REGION -> data m' !! a = data m !! a) /\
        data m' = data m2 /\ regs m' RSP = regs m RSP /\ (forall x, x ∉ [RSP; RAX; RCX; RDX] -> regs m' x = regs m2 x) /\
        core_mmu (core m') = core_mmu (core m) /\ current_task m' = current_task m /\
        (forall k, 0 <= k <= 15 ->
           perm_of (pkru_of m') k = if decide (k = Mm.SAFE_MEM_REGION) then MpkRw else perm_of (pkru_of m) k) /\
        (perm_of (pkru_of m) Mm.SAFE_MEM_REGION = MpkRw -> pkru_of m' = pkru_of m)
    | Panic => faults root m1 (trace root c m1)
    | OutOfFuel => False
    end.
Proof.
  intros Hm Hs. destruct (strong_run root (run_code root c) m Hm Hs) as (m1 & G & Hr & E). exists m1.
  pose proof (gt_pkru _ _ _ _ G) as Gp.
  split_and!; [exact (gt_sp _ _ _ _ G)|done|..].
  - by rewrite Gp, isolated_perm, decide_True by (by vm_compute).
  - intros k Hk Hn. by rewrite Gp, isolated_perm, decide_False.
  - intros a Ha. rewrite (gt_data _ _ _ _ G). cbn [data with_data]. unfold scratch_data.
    rewrite !lookup_insert_ne; [done|set_solver..].
  - exact (gt_mmu _ _ _ _ G).
  - exact (gt_task _ _ _ _ G).
  - rewrite E. pose proof (code_confined root c _ m1 (pkru_of m) _ G) as Hc. unfold bind.
    destruct (run_code root c m1) as [[r m2]| |]; [|done|done]. cbn [obind fst snd].
    destruct Hc as (Hc & Ht & HF & Hd).
    destruct (leave_run (regs m RSP) r m2) as (m' & E' & G').
    { unfold pkru_of. rewrite Hc. fold (pkru_of m1). rewrite Gp. apply isolated_pkru_u32, Hm. }
    assert (Gp' : pkru_of m' = restored_pkru (isolated_pkru (pkru_of m))).
    { rewrite (gt_pkru _ _ _ _ G'). unfold pkru_of at 1. rewrite Hc. fold (pkru_of m1). by rewrite Gp. }
    rewrite E'. exists m2. split_and!.
    + done.
    + exact HF.
    + intros a Ha. rewrite (gt_data _ _ _ _ G'), Hd by exact Ha. rewrite (gt_data _ _ _ _ G).
      by apply (scratch_data_safe root).
    + exact (gt_data _ _ _ _ G').
    + exact (gt_sp _ _ _ _ G').
    + exact (gt_regs _ _ _ _ G').
    + rewrite (gt_mmu _ _ _ _ G'), Hc. exact (gt_mmu _ _ _ _ G).
    + rewrite (gt_task _ _ _ _ G'), Ht. exact (gt_task _ _ _ _ G).
    + intros k Hk. rewrite Gp'. by apply restored_isolated_perm.
    + intros Hp. rewrite Gp'. apply restored_isolated; [apply Hm|done].
Qed.

End strong.

(** ** The weak call *)

Section weak.

Context {F : Type} `{FrameSource F}.
Context (root : Z) (supports_1gib_pages : bool).

Implicit Types (m : Machine F).

#[local] Instance in_frame_decision m a : Decision (in_frame m a).
Proof. unfold in_frame. apply _. Defined.

(** Changing keys depends on the core only. *)
Lemma set_key_core S a count key m m' x :
  core m' = core m -> set_key root supports_1gib_pages S a count key m = Done (tt, x) ->
  set_key root supports_1gib_pages S a count key m' = Done (tt, with_core (core x) m').
Proof.
  intros Ec. unfold set_key, on_machine_mmu, pkru_of. rewrite Ec.
  destruct (set_pkey_on_page_table_entry _ _ _ _ _ _ _) as [[[] s]| |]; [|done..]. cbn [obind]. by intros [= <-].
Qed.

Lemma gated_core m m1 x x1 sp p : gated m m1 sp p -> gated x x1 sp p -> core x = core m -> core x1 = core m1.
Proof.
  intros [G1 _ _ G4 _ _] [K1 _ _ K4 _ _] Ec. unfold pkru_of in *. rewrite Ec in K4.
  destruct (core m1), (core x1). simpl in *. congruence.
Qed.

(** The end of the call, from any state that the code leaves on the core. *)
Lemma weak_epilogue_any m ms m1 m2 A (r : A) :
  machine_ok m -> frame_pages root m -> frame_keyed root m SHARED_MEM_REGION ms ->
  gated ms m1 (stack_top m) (isolated_pkru (pkru_of m)) -> core m2 = core m1 ->
  exists m', (leave (regs m RSP) r ;;;
      set_key root supports_1gib_pages BasePageSize (frame_low m) ((frame_high m - frame_low m) / 4096) Mm.SAFE_MEM_REGION ;;;
      ret r) m2 = Done (r, m') /\
    (forall a, lower a -> translate (mem (core_mmu (core m'))) root a = translate (mem (core_mmu (core m))) root a) /\
    (forall a, lower a -> page_key root m' a = if decide (in_frame m a) then Some Mm.SAFE_MEM_REGION else page_key root m a) /\
    regs m' RSP = regs m RSP /\ data m' = data m2 /\ pkru_of m' = restored_pkru (isolated_pkru (pkru_of m)) /\
    (forall x, x ∉ [RSP; RAX; RCX; RDX] -> regs m' x = regs m2 x) /\ current_task m' = current_task m2.
Proof.
  intros Hm Hf K G Hc. set (n := (frame_high m - frame_low m) / 4096).
  destruct (weak_epilogue root supports_1gib_pages m ms m1 (data m2) A r Hm Hf K G) as (ms' & E & W1 & W2 & _ & _ & W5 & _). fold n in E.
  assert (Hp : in_u32 (pkru_of m1)) by (rewrite (gt_pkru _ _ _ _ G); apply isolated_pkru_u32, Hm).
  destruct (leave_run (regs m RSP) r (with_data (data m2) m1) Hp) as (m3s & E3s & G3s).
  destruct (leave_run (regs m RSP) r m2) as (m3 & E3 & G3); [unfold pkru_of; by rewrite Hc|].
  assert (Hcs : core m3 = core m3s).
  { refine (gated_core _ _ _ _ _ _ G3s _ Hc). unfold pkru_of in G3. by rewrite Hc in G3. }
  rewrite (bind_done _ _ _ _ _ E3s) in E. unfold bind in E.
  destruct (set_key root supports_1gib_pages BasePageSize (frame_low m) n Mm.SAFE_MEM_REGION m3s) as [[[] x]| |] eqn:Ek; [|done..].
  injection E as <-. exists (with_core (core x) m3).
  rewrite (bind_done _ _ _ _ _ E3), (bind_done _ _ _ _ _ (set_key_core _ _ _ _ _ _ _ Hcs Ek)).
  split_and!; [done|exact W1|exact W2|exact (gt_sp _ _ _ _ G3)|exact (gt_data _ _ _ _ G3)|exact W5
    |exact (gt_regs _ _ _ _ G3)|exact (gt_task _ _ _ _ G3)].
Qed.

(** C18. What [isolate_function_weak] guarantees for any code [c] that does not
    write PKRU or page tables, of the lower half of the address space. The call
    shares the 4 KiB pages from the stack pointer, rounded down, to RBP, rounded
    up: all of them, with what else lies on them, so that parts of neighbouring
    frames are shared as well. The code starts on the isolated stack with no
    right to safe memory. Then either an access of the code faults, which ends
    the system; or every access of the code to a page that was under the safe key
    goes to one of the shared pages, no word of the other safe pages has changed,
    and the call returns what the code returned, in the state that the code left,
    but for this: the shared pages are under the safe key, no other page's key
    and no translation has changed since before the call, the stack pointer is
    the caller's, RAX, RCX and RDX are clobbered, and safe memory is open while
    all other rights are the caller's. So PKRU is what it was before the call if
    the caller had full access to safe memory. *)
Theorem isolate_function_weak_confines {A} (c : code A) m :
  machine_ok m -> frame_pages root m ->
  exists m1, regs m1 RSP = stack_top m /\ (forall r, r ∉ [RSP; RAX; RCX; RDX] -> regs m1 r = regs m r) /\
    perm_of (pkru_of m1) Mm.SAFE_MEM_REGION = MpkNone /\
    (forall k, 0 <= k <= 15 -> k <> Mm.SAFE_MEM_REGION -> perm_of (pkru_of m1) k = perm_of (pkru_of m) k) /\
    data m1 = data m /\ current_task m1 = current_task m /\
    (forall a, lower a -> page_key root m1 a = if decide (in_frame m a) then Some SHARED_MEM_REGION else page_key root m a) /\
    (forall a, lower a -> translate (mem (core_mmu (core m1))) root a = translate (mem (core_mmu (core m))) root a) /\
    match isolate_function_weak root supports_1gib_pages (run_code root c) m with
    | Done (r, m') => exists m2, run_code root c m1 = Done (r, m2) /\
        Forall (fun x => lower (acc_addr x) -> page_key root m (acc_addr x) = Some Mm.SAFE_MEM_REGION ->
                  in_frame m (acc_addr x)) (trace root c m1) /\
        (forall a, lower a -> page_key root m a = Some Mm.SAFE_MEM_REGION -> ~ in_frame m a -> data m' !! a = data m !! a) /\
        data m' = data m2 /\ regs m' RSP = regs m RSP /\ (forall x, x ∉ [RSP; RAX; RCX; RDX] -> regs m' x = regs m2 x) /\
        (forall a, lower a -> translate (mem (core_mmu (core m'))) root a = translate (mem (core_mmu (core m))) root a) /\
        (forall a, lower a -> page_key root m' a = if decide (in_frame m a) then Some Mm.SAFE_MEM_REGION else page_key root m a) /\
        current_task m' = current_task m /\
        (forall k, 0 <= k <= 15 ->
           perm_of (pkru_of m') k = if decide (k = Mm.SAFE_MEM_REGION) then MpkRw else perm_of (pkru_of m) k) /\
        (perm_of (pkru_of m) Mm.SAFE_MEM_REGION = MpkRw -> pkru_of m' = pkru_of m)
    | Panic => faults root m1 (trace root c m1)
    | OutOfFuel => False
    end.
Proof.
  intros Hm Hf. destruct (weak_run root supports_1gib_pages (run_code root c) m Hm Hf) as (ms & m1 & K & G & E). exists m1.
  assert (Hkey : forall a, lower a -> page_key root ms a = if decide (in_frame m a) then Some SHARED_MEM_REGION else page_key root m a).
  { intros a Ha. rewrite (proj1 (keyed_page_key root m SHARED_MEM_REGION ms a ltac:(by vm_compute) Hf K Ha)).
    by repeat case_decide. }
  pose proof (gt_pkru _ _ _ _ G) as Gp.
  split_and!; [exact (gt_sp _ _ _ _ G)|..].
  - intros r Hr. rewrite (gt_regs _ _ _ _ G r Hr). by rewrite (fk_regs _ _ _ _ K).
  - by rewrite Gp, isolated_perm, decide_True by (by vm_compute).
  - intros k Hk Hn. by rewrite Gp, isolated_perm, decide_False.
  - rewrite (gt_data _ _ _ _ G). exact (fk_data _ _ _ _ K).
  - rewrite (gt_task _ _ _ _ G). exact (fk_task _ _ _ _ K).
  - intros a Ha. rewrite <- Hkey by done. unfold page_key. by rewrite (gt_mmu _ _ _ _ G).
  - intros a Ha. rewrite (gt_mmu _ _ _ _ G). apply (keyed_page_key root m SHARED_MEM_REGION ms a ltac:(by vm_compute) Hf K Ha).
  - rewrite E. pose proof (code_confined root c ms m1 (pkru_of m) _ G) as Hc. unfold bind at 1.
    destruct (run_code root c m1) as [[r m2]| |]; [|done|done]. cbn [obind fst snd]. destruct Hc as (Hc & Ht & HF & Hd).
    destruct (weak_epilogue_any m ms m1 m2 A r Hm Hf K G Hc) as (m' & E' & W1 & W2 & W3 & W4 & W5 & W6 & W7). rewrite E'.
    exists m2. split_and!; try done.
    + eapply Forall_impl; [exact HF|]. intros x. cbv beta. intros Hn Hl Hs. rewrite Hkey in Hn by done.
      destruct (decide (in_frame m (acc_addr x))); [done|]. by destruct Hn.
    + intros a Ha Hs Hn. rewrite W4, Hd by (by rewrite Hkey, decide_False). rewrite (gt_data _ _ _ _ G).
      by rewrite (fk_data _ _ _ _ K).
    + rewrite W7, Ht, (gt_task _ _ _ _ G). exact (fk_task _ _ _ _ K).
    + intros k Hk. rewrite W5. by apply restored_isolated_perm.
    + intros Hp. rewrite W5. apply restored_isolated; [apply Hm|done].
Qed.

End weak.

(** ** Examples *)

Section sample.

#[local] Existing Instance Paging.bump_source.

(** Code that stores a word, reads it back, and moves it to RBX and its own stack pointer. *)
Definition sample_code (a v : Z) : code Z :=
  WriteMem a v (ReadMem a (fun w => WriteReg RBX (w + 1) (WriteReg RSP 0 (Return w)))).

(** It writes unsafe memory; the safe word keeps its value. *)
Lemma isolate_function_strong_confines_witness :
  exists m', isolate_function_strong sample_root (run_code sample_root (sample_code 0x10001010 5))
      (sample_machine 0 sample_pages) = Done (5, m') /\ data m' !! 0x10000010 = Some 42 /\ pkru_of m' = 0
    /\ regs m' RSP = 0x10000100 /\ regs m' RBX = 6.
Proof.
  destruct (isolate_function_strong_confines sample_root (sample_code 0x10001010 5) (sample_machine 0 sample_pages)
    (sample_machine_ok 0 sample_pages ltac:(by vm_compute)) sample_scratch_ok) as (m1 & _ & _ & _ & _ & _ & _ & _ & Hx).
  assert (Hd : match isolate_function_strong sample_root (run_code sample_root (sample_code 0x10001010 5))
      (sample_machine 0 sample_pages) with Done (r, m') => (r =? 5) && (regs m' RBX =? 6) | _ => false end = true) by (vm_compute; reflexivity).
  destruct (isolate_function_strong _ _ _) as [[r m']| |]; [|discriminate Hd|discriminate Hd].
  apply andb_prop in Hd as [Hr Hb]. apply Z.eqb_eq in Hr, Hb. subst r.
  exists m'. destruct Hx as (m2 & _ & _ & Hs & _ & Hsp & _ & _ & _ & _ & Hp). split; [reflexivity|].
  split; [rewrite Hs; [reflexivity|vm_compute; reflexivity]|]. split; [apply Hp; by vm_compute|]. split; [exact Hsp|exact Hb].
Defined.

(** It writes the shared frame, which is safe again afterwards. *)
Lemma isolate_function_weak_confines_witness :
  exists r m', isolate_function_weak sample_root false (run_code sample_root (sample_code 0x10000018 5))
      (sample_machine 0 sample1) = Done (r, m') /\ page_key sample_root m' 0x10000010 = Some 1 /\ regs m' RSP = 0x10000100.
Proof.
  destruct (isolate_function_weak_confines sample_root false (sample_code 0x10000018 5) (sample_machine 0 sample1)
    (sample_machine_ok 0 sample1 ltac:(by vm_compute)) sample_frame_pages) as (m1 & _ & _ & _ & _ & _ & _ & _ & _ & Hx).
  assert (Hd : match isolate_function_weak sample_root false (run_code sample_root (sample_code 0x10000018 5))
      (sample_machine 0 sample1) with Done _ => true | _ => false end = true) by (vm_compute; reflexivity).
  destruct (isolate_function_weak _ _ _ _) as [[r m']| |]; [|discriminate Hd|discriminate Hd].
  exists r, m'. split; [reflexivity|]. destruct Hx as (m2 & _ & _ & _ & _ & Hsp & _ & _ & Hk & _). split; [|exact Hsp].
  rewrite Hk by (unfold lower; lia). rewrite decide_True; [reflexivity|].
  change (0x10000000 <= 0x10000010 < 0x10001000). lia.
Defined.

End sample.
