(* ===== verification/Switch.v ===== *)
(** * Context switch: src/arch/x86_64/kernel/switch.rs and the task frames of
    src/arch/x86_64/kernel/scheduler.rs

    [switch] saves the registers of the running task on its stack, in the order
    of [struct State], and restores those of another task from its stack. In
    between it calls [set_current_kernel_stack], which is an argument here and a
    definition of [KernelStack], where the theorems about the whole are. *)

From stdpp Require Import base numbers list gmap.
From Stdlib Require Import ZArith Lia.
From S2P Require Import Prelude Pte Mmu Paging Mm Mpk Cpu Isolation.

#[local] Open Scope Z_scope.

(** ** [struct State] *)

(** The fields from the lowest address up, as [repr(C, packed)] lays them out:
    PKRU, FS, the general registers, RFLAGS and RIP. *)
Record State := mkState {
  st_pkru : Z;
  st_fs : Z;
  st_reg : reg -> Z;
  st_rflags : Z;
  st_rip : Z
}.

(** The general registers in the order of the fields. *)
Definition state_regs : list reg :=
  [R15; R14; R13; R12; R11; R10; R9; R8; RDI; RSI; RBP; RBX; RDX; RCX; RAX].

Definition state_words (st : State) : list Z :=
  st_pkru st :: st_fs st :: ((fun r => st_reg st r) <$> state_regs) ++ [st_rflags st; st_rip st].

(** [mem::size_of::<State>()] *)
Definition size_of_State : Z := 152.

(** The words of memory at [a], [a + 8], ... are [ws]. *)
Fixpoint words_at (d : gmap Z Z) (a : Z) (ws : list Z) : Prop :=
  match ws with
  | [] => True
  | w :: tl => d !! a = Some w /\ words_at d (a + 8) tl
  end.

Definition state_at (d : gmap Z Z) (a : Z) (st : State) : Prop := words_at d a (state_words st).

(** ** [switch] *)

Section switch.

Context {F : Type} `{FrameSource F}.
Context (root : Z).

Implicit Types (m : Machine F).

(** [set_current_kernel_stack] of gdt.rs, called on the new task's stack, and the
    address the call returns to. *)
Context (set_current_kernel_stack : M (Machine F) unit) (return_address : Z).

Fixpoint push_all (rs : list reg) : M (Machine F) unit :=
  match rs with
  | [] => ret tt
  | r :: tl => i_push root r ;;; push_all tl
  end.

Fixpoint pop_all (rs : list reg) : M (Machine F) unit :=
  match rs with
  | [] => ret tt
  | r :: tl => i_pop root r ;;; pop_all tl
  end.

(** A near call of compiled code. *)
Definition call (f : M (Machine F) unit) : M (Machine F) unit :=
  push_word root return_address ;;;
  f ;;;
  let! _ := pop_word root in ret tt.

Definition store_context : M (Machine F) unit :=
  pushfq root ;;;
  push_all [RAX; RCX; RDX; RBX; RBP; RSI; RDI; R8; R9; R10; R11; R12; R13; R14; R15] ;;;
  rdfsbase RAX ;;;
  i_push root RAX ;;;
  xor_self RAX ;;;
  xor_self RCX ;;;
  i_rdpkru ;;;
  i_push root RAX.

Definition restore_context : M (Machine F) unit :=
  i_pop root RAX ;;;
  xor_self RCX ;;;
  xor_self RDX ;;;
  i_wrpkru ;;;
  i_pop root RAX ;;;
  wrfsbase RAX ;;;
  pop_all [R15; R14; R13; R12; R11; R10; R9; R8; RDI; RSI; RBP; RBX; RDX; RCX; RAX] ;;;
  popfq root ;;;
  ret_near root.

(** RDI holds the address to store the old stack pointer at, RSI the new one. *)
Definition switch : M (Machine F) unit :=
  store_context ;;;
  (let! sp := get_reg RSP in let! a := get_reg RDI in store root a sp) ;;;
  (let! sp := get_reg RSI in set_reg RSP sp) ;;;
  mov_from_cr0 RAX ;;;
  or64 8 RAX ;;;
  mov_to_cr0 RAX ;;;
  call set_current_kernel_stack ;;;
  restore_context.

End switch.

(** ** Pushing and popping *)

(** [m'] is [m] with other registers and data. *)
Record rest_same {F} (m m' : Machine F) : Prop := {
  rs_core : core m' = core m;
  rs_rflags : rflags m' = rflags m;
  rs_rip : rip m' = rip m;
  rs_fsbase : fsbase m' = fsbase m;
  rs_cr0 : cr0 m' = cr0 m;
  rs_task : current_task m' = current_task m
}.

Lemma rest_same_refl {F} (m : Machine F) : rest_same m m.
Proof. done. Qed.

Lemma rest_same_trans {F} (m1 m2 m3 : Machine F) : rest_same m1 m2 -> rest_same m2 m3 -> rest_same m1 m3.
Proof. intros [] []. split; congruence. Qed.

#[export] Hint Resolve rest_same_refl : core.

Lemma words_at_app d a ws1 ws2 :
  words_at d a (ws1 ++ ws2) <-> words_at d a ws1 /\ words_at d (a + 8 * Z.of_nat (length ws1)) ws2.
Proof.
  revert a. induction ws1 as [|w ws1 IH]; intros a; simpl.
  - rewrite Z.add_0_r. tauto.
  - rewrite IH. replace (a + 8 * Z.of_nat (S (length ws1))) with (a + 8 + 8 * Z.of_nat (length ws1)) by lia. tauto.
Qed.

(** Memory that agrees on the words holds the same words. *)
Lemma words_at_ext d d' a ws :
  words_at d a ws -> (forall i, 0 <= i < Z.of_nat (length ws) -> d' !! (a + 8 * i) = d !! (a + 8 * i)) ->
  words_at d' a ws.
Proof.
  revert a. induction ws as [|w ws IH]; intros a; simpl; [done|]. intros [E Hw] Hd. split.
  - specialize (Hd 0 ltac:(lia)). rewrite Z.mul_0_r, Z.add_0_r in Hd. by rewrite Hd.
  - apply IH; [done|]. intros i Hi. specialize (Hd (i + 1) ltac:(lia)).
    by replace (a + 8 * (i + 1)) with (a + 8 + 8 * i) in Hd by lia.
Qed.

Section stacks.

Context {F : Type} `{FrameSource F}.
Context (root : Z).

Implicit Types (m : Machine F).

(** Every word of [n] from [a] on may be accessed. *)
Definition accessible m (a : Z) (n : nat) (write : bool) : Prop :=
  forall i, 0 <= i < Z.of_nat n -> permitted root m (a + 8 * i) write = true.

Lemma permitted_core m m' a w : core m' = core m -> permitted root m' a w = permitted root m a w.
Proof. intros E. unfold permitted, pkru_of. by rewrite E. Qed.

Lemma accessible_core m m' a n w : core m' = core m -> accessible m a n w -> accessible m' a n w.
Proof. intros E Ha i Hi. rewrite (permitted_core m m') by done. by apply Ha. Qed.

Lemma accessible_sub m a n w b k :
  accessible m a n w -> a <= b -> (8 | b - a) -> b + 8 * Z.of_nat k <= a + 8 * Z.of_nat n -> accessible m b k w.
Proof. intros Ha Hb [q Hq] Hk i Hi. replace (b + 8 * i) with (a + 8 * (q + i)) by lia. apply Ha. lia. Qed.

(** Pushing one word. *)
Lemma push_word_run m v :
  permitted root m (regs m RSP - 8) true = true ->
  push_word root v m = Done (tt, with_reg RSP (regs m RSP - 8) (with_data (<[regs m RSP - 8 := v]> (data m)) m)).
Proof. intros Hp. unfold push_word, get_reg. rewrite bind_gets. unfold bind, store. by rewrite Hp. Qed.

(** Popping one word. *)
Lemma pop_word_run m :
  permitted root m (regs m RSP) false = true ->
  pop_word root m = Done (default 0 (data m !! regs m RSP), with_reg RSP (regs m RSP + 8) m).
Proof. intros Hp. unfold pop_word, get_reg. rewrite bind_gets. unfold bind, load. by rewrite Hp. Qed.

(** What pushing the registers [rs] leaves: they lie on the stack, the last one lowest. *)
Lemma push_all_spec rs m :
  RSP ∉ rs -> accessible m (regs m RSP - 8 * Z.of_nat (length rs)) (length rs) true ->
  exists m', push_all root rs m = Done (tt, m') /\ rest_same m m' /\
    regs m' RSP = regs m RSP - 8 * Z.of_nat (length rs) /\ (forall r, r <> RSP -> regs m' r = regs m r) /\
    words_at (data m') (regs m' RSP) ((fun r => regs m r) <$> rev rs) /\
    (forall x, ~ regs m' RSP <= x < regs m RSP -> data m' !! x = data m !! x).
Proof.
  revert m. induction rs as [|r rs IH]; intros m Hn Ha; cbn [push_all].
  - exists m. simpl. split_and!; try done; lia.
  - apply not_elem_of_cons in Hn as [Hr Hn]. cbn [length] in Ha.
    set (sp := regs m RSP - 8). set (m1 := pushed sp r m).
    assert (Hp : permitted root m sp true = true).
    { replace sp with (regs m RSP - 8 * Z.of_nat (S (length rs)) + 8 * Z.of_nat (length rs)) by (unfold sp; lia).
      apply Ha. lia. }
    rewrite (bind_done _ _ _ _ _ (i_push_run root r m sp eq_refl Hp)). fold m1.
    destruct (IH m1) as (m' & E & R & Hsp & Hregs & Hw & Hd); [done| |].
    { apply (accessible_core m); [done|]. change (regs m1 RSP) with sp.
      eapply accessible_sub; [exact Ha|unfold sp; lia|exists 0; unfold sp; lia|unfold sp; lia]. }
    change (regs m1 RSP) with sp in *. exists m'. cbn [length]. split_and!.
    + done.
    + eapply rest_same_trans; [|exact R]. done.
    + rewrite Hsp. unfold sp. lia.
    + intros r' Hr'. rewrite Hregs by done. unfold m1, pushed. cbn. unfold set_reg_in. by rewrite decide_False.
    + cbn [rev]. rewrite fmap_app, words_at_app. split.
      * erewrite list_fmap_ext; [exact Hw|]. intros i x Hx. cbn. unfold set_reg_in. rewrite decide_False; [done|].
        intros <-. apply Hn. apply list_elem_of_lookup_2 in Hx. by apply list_elem_of_In, in_rev, list_elem_of_In.
      * rewrite length_fmap, length_rev, Hsp. cbn. split; [|done].
        replace (sp - 8 * Z.of_nat (length rs) + 8 * Z.of_nat (length rs)) with sp by lia.
        rewrite Hd by (rewrite Hsp; lia). apply lookup_insert_eq.
    + intros x Hx. rewrite Hd by (unfold sp in *; lia). cbn. apply lookup_insert_ne. unfold sp in *. lia.
Qed.

(** Popping loads the registers from the stack, the first one from the lowest word. *)
Lemma pop_all_spec rs m (f : reg -> Z) :
  RSP ∉ rs -> NoDup rs -> accessible m (regs m RSP) (length rs) false ->
  words_at (data m) (regs m RSP) ((fun r => f r) <$> rs) ->
  exists m', pop_all root rs m = Done (tt, m') /\ rest_same m m' /\ data m' = data m /\
    regs m' RSP = regs m RSP + 8 * Z.of_nat (length rs) /\
    (forall r, r ∈ rs -> regs m' r = f r) /\ (forall r, r <> RSP -> r ∉ rs -> regs m' r = regs m r).
Proof.
  revert m. induction rs as [|r rs IH]; intros m Hn Hnd Ha Hw; cbn [pop_all].
  - exists m. simpl. split_and!; try done; [lia|]. intros r Hr. by apply not_elem_of_nil in Hr.
  - apply not_elem_of_cons in Hn as [Hr Hn]. apply NoDup_cons in Hnd as [Hr' Hnd]. cbn [length] in Ha.
    destruct Hw as [Ew Hw]. set (m1 := popped (regs m RSP + 8) r m).
    assert (Hp : permitted root m (regs m RSP) false = true)
      by (replace (regs m RSP) with (regs m RSP + 8 * 0) by lia; apply Ha; lia).
    rewrite (bind_done _ _ _ _ _ (i_pop_run root r m _ eq_refl Hp)). fold m1.
    assert (Hsp1 : regs m1 RSP = regs m RSP + 8) by (unfold m1, popped; cbn; unfold set_reg_in; by rewrite decide_False).
    assert (Hr1 : regs m1 r = f r)
      by (unfold m1, popped; cbn; unfold set_reg_in; rewrite decide_True by done; by rewrite Ew).
    destruct (IH m1) as (m' & E & R & Hd & Hsp & Hin & Hout); [done|done| |rewrite Hsp1; exact Hw|].
    { apply (accessible_core m); [done|]. rewrite Hsp1.
      eapply accessible_sub; [exact Ha|lia|exists 1; lia|lia]. }
    exists m'. cbn [length]. split_and!; [done|by eapply rest_same_trans; [|exact R]|by rewrite Hd|rewrite Hsp, Hsp1; lia| |].
    + intros x [->|Hx]%elem_of_cons; [|auto]. by rewrite Hout.
    + intros x Hx [Hxr Hxs]%not_elem_of_cons. rewrite Hout by done. unfold m1, popped. cbn. unfold set_reg_in.
      by rewrite !decide_False by congruence.
Qed.

End stacks.

(** ** Storing and restoring a context *)

Section contexts.

Context {F : Type} `{FrameSource F}.
Context (root : Z).

Implicit Types (m : Machine F).

(** The state [switch] saves for the running task, whose return address is on top of the stack. *)
Definition context_of m : State :=
  mkState (pkru_of m) (fsbase m) (regs m) (rflags m) (default 0 (data m !! regs m RSP)).

Definition pushed_regs : list reg := [RAX; RCX; RDX; RBX; RBP; RSI; RDI; R8; R9; R10; R11; R12; R13; R14; R15].

Lemma i_push_word r m : i_push root r m = push_word root (regs m r) m.
Proof. reflexivity. Qed.

Lemma store_context_spec m ra :
  accessible root m (regs m RSP - 144) 18 true -> data m !! regs m RSP = Some ra ->
  exists m', store_context root m = Done (tt, m') /\ rest_same m m' /\ regs m' RSP = regs m RSP - 144 /\
    (forall r, r ∉ [RSP; RAX; RCX; RDX] -> regs m' r = regs m r) /\
    state_at (data m') (regs m RSP - 144) (context_of m) /\
    (forall x, ~ regs m RSP - 144 <= x < regs m RSP -> data m' !! x = data m !! x).
Proof.
  intros Ha Hra. set (sp := regs m RSP) in *.
  assert (Hp : forall i, 0 <= i < 18 -> permitted root m (sp - 144 + 8 * i) true = true) by (intros i Hi; apply Ha; lia).
  set (m1 := with_reg RSP (sp - 8) (with_data (<[sp - 8 := rflags m]> (data m)) m)).
  assert (E1 : pushfq root m = Done (tt, m1)).
  { apply (push_word_run root m (rflags m)). fold sp. replace (sp - 8) with (sp - 144 + 8 * 17) by lia. by apply Hp. }
  destruct (push_all_spec root pushed_regs m1) as (m2 & E2 & R2 & Hsp2 & Hr2 & Hw2 & Hd2).
  { set_solver. }
  { apply (accessible_core root m); [done|]. change (regs m1 RSP) with (sp - 8).
    eapply accessible_sub; [exact Ha|simpl; lia|exists 2; simpl; lia|simpl; lia]. }
  change (regs m1 RSP) with (sp - 8) in *. simpl length in Hsp2.
  set (m3 := with_reg RSP (sp - 136) (with_data (<[sp - 136 := fsbase m2]> (data m2)) (with_reg RAX (fsbase m2) m2))).
  assert (E3 : i_push root RAX (with_reg RAX (fsbase m2) m2) = Done (tt, m3)).
  { rewrite i_push_word, push_word_run.
    - change (regs (with_reg RAX (fsbase m2) m2) RSP) with (regs m2 RSP).
      replace (regs m2 RSP - 8) with (sp - 136) by lia. done.
    - change (regs (with_reg RAX (fsbase m2) m2) RSP) with (regs m2 RSP).
      rewrite (permitted_core root m) by apply R2. replace (regs m2 RSP - 8) with (sp - 144 + 8 * 1) by lia. by apply Hp. }
  set (m4 := with_reg RDX 0 (with_reg RAX (pkru_of m3) (with_reg RCX 0 (with_reg RAX 0 m3)))).
  assert (E4 : (xor_self RAX ;;; xor_self RCX ;;; i_rdpkru) m3 = Done (tt, m4)) by reflexivity.
  set (m5 := with_reg RSP (sp - 144) (with_data (<[sp - 144 := pkru_of m3]> (data m4)) m4)).
  assert (E5 : i_push root RAX m4 = Done (tt, m5)).
  { rewrite i_push_word, push_word_run.
    - change (regs m4 RSP) with (sp - 136). replace (sp - 136 - 8) with (sp - 144) by lia. done.
    - change (regs m4 RSP) with (sp - 136). rewrite (permitted_core root m) by apply R2.
      replace (sp - 136 - 8) with (sp - 144 + 8 * 0) by lia. by apply Hp. }
  exists m5. split_and!.
  - unfold store_context. rewrite (bind_done _ _ _ _ _ E1). fold pushed_regs. rewrite (bind_done _ _ _ _ _ E2).
    transitivity ((let! _ := i_push root RAX in (xor_self RAX ;;; xor_self RCX ;;; i_rdpkru) ;;; i_push root RAX)
      (with_reg RAX (fsbase m2) m2)); [|by rewrite (bind_done _ _ _ _ _ E3), (bind_done _ _ _ _ _ E4)].
    reflexivity.
  - destruct R2 as [? ? ? ? ? ?]. split; assumption.
  - reflexivity.
  - intros r Hr. transitivity (regs m2 r).
    + destruct r; try reflexivity; exfalso; apply Hr; set_solver.
    + rewrite Hr2 by set_solver. destruct r; try reflexivity. exfalso; apply Hr; set_solver.
  - assert (Hfs : fsbase m2 = fsbase m) by apply R2. assert (Hpk : pkru_of m3 = pkru_of m) by (unfold pkru_of; apply (f_equal pkru), R2).
    unfold state_at, state_words. cbn [words_at st_pkru st_fs]. cbn [data with_reg with_regs with_data m5 m4 m3].
    split_and!.
    + rewrite lookup_insert_eq. f_equal. exact Hpk.
    + replace (sp - 144 + 8) with (sp - 136) by lia. rewrite lookup_insert_ne by lia. cbn. rewrite lookup_insert_eq. f_equal. exact Hfs.
    + replace (sp - 144 + 8 + 8) with (sp - 128) by lia. rewrite Hsp2 in Hw2. replace (sp - 8 - 8 * Z.of_nat 15) with (sp - 128) in Hw2 by lia.
      apply words_at_app. split.
      * eapply words_at_ext; [exact Hw2|]. simpl length. intros x Hx. rewrite lookup_insert_ne by lia. cbn.
        by rewrite lookup_insert_ne by lia.
      * simpl length. cbn [words_at]. replace (sp - 128 + 8 * Z.of_nat 15) with (sp - 8) by lia.
        replace (sp - 8 + 8) with sp by lia. rewrite !lookup_insert_ne by lia.
        rewrite !Hd2 by lia. cbn. rewrite lookup_insert_eq, lookup_insert_ne by lia. fold sp. by rewrite Hra.
  - intros x Hx. cbn. rewrite !lookup_insert_ne by lia. rewrite Hd2 by lia. cbn. by rewrite lookup_insert_ne by lia.
Qed.

Lemma state_regs_all r : r <> RSP -> r ∈ state_regs.
Proof. destruct r; intros Hr; try (by destruct Hr); set_solver. Qed.

Lemma state_regs_nodup : RSP ∉ state_regs /\ NoDup state_regs.
Proof. split; [set_solver|]. by apply (bool_decide_eq_true_1 (NoDup state_regs)). Qed.

(** [m'] runs the context [st], whose stack begins at [sp]. *)
Record resumed (st : State) (sp : Z) m : Prop := {
  re_regs : forall r, r <> RSP -> regs m r = st_reg st r;
  re_sp : regs m RSP = sp;
  re_rip : rip m = st_rip st;
  re_rflags : rflags m = st_rflags st;
  re_fsbase : fsbase m = st_fs st;
  re_pkru : pkru_of m = st_pkru st
}.

(** What taking a word from the stack into the flags, or into the instruction pointer, does *)
Lemma popfq_run m sp v :
  regs m RSP + 8 = sp -> permitted root m (regs m RSP) false = true -> data m !! regs m RSP = Some v ->
  popfq root m = Done (tt, with_rflags v (with_reg RSP sp m)).
Proof. intros <- Hp Hv. unfold popfq. by rewrite (bind_done _ _ _ _ _ (pop_word_run root m Hp)), Hv. Qed.

Lemma ret_near_run m sp v :
  regs m RSP + 8 = sp -> permitted root m (regs m RSP) false = true -> data m !! regs m RSP = Some v ->
  ret_near root m = Done (tt, with_rip v (with_reg RSP sp m)).
Proof. intros <- Hp Hv. unfold ret_near. by rewrite (bind_done _ _ _ _ _ (pop_word_run root m Hp)), Hv. Qed.

Lemma i_pop_value r m sp v :
  regs m RSP + 8 = sp -> permitted root m (regs m RSP) false = true -> data m !! regs m RSP = Some v ->
  i_pop root r m = Done (tt, with_reg r v (with_reg RSP sp m)).
Proof. intros Hs Hp Hv. rewrite (i_pop_run root r m sp Hs Hp). unfold popped. by rewrite Hv. Qed.

(** The first part of [restore_context]: PKRU, after which the stack is read with the new
    rights, and the FS base *)
Lemma restore_rights m sp p fs :
  regs m RSP = sp -> in_u32 p -> data m !! sp = Some p -> data m !! (sp + 8) = Some fs ->
  permitted root m sp false = true -> permitted root (with_pkru p m) (sp + 8) false = true ->
  (i_pop root RAX ;;; (xor_self RCX ;;; xor_self RDX ;;; i_wrpkru) ;;; i_pop root RAX ;;; wrfsbase RAX) m =
    Done (tt, with_fsbase fs (with_reg RAX fs (with_reg RSP (sp + 16)
      (with_pkru p (with_reg RDX 0 (with_reg RCX 0 (with_reg RAX p (with_reg RSP (sp + 8) m)))))))).
Proof.
  intros Hsp Hu W0 W1 Hp0 Hp1. subst sp. set (sp := regs m RSP) in *.
  rewrite (bind_done _ _ _ _ _ (i_pop_value RAX m (sp + 8) p eq_refl Hp0 W0)). set (m1 := with_reg RAX p _).
  set (m2 := with_pkru p (with_reg RDX 0 (with_reg RCX 0 m1))).
  assert (E2 : (xor_self RCX ;;; xor_self RDX ;;; i_wrpkru) m1 = Done (tt, m2)).
  { transitivity (Done (tt, with_pkru (p mod W32) (with_reg RDX 0 (with_reg RCX 0 m1)))); [reflexivity|]. by rewrite in_u32_mod. }
  rewrite (bind_done _ _ _ _ _ E2). rewrite (bind_done _ _ _ _ _ (i_pop_value RAX m2 (sp + 16) fs ltac:(change (sp + 8 + 8 = sp + 16); lia) Hp1 W1)).
  reflexivity.
Qed.

Lemma restore_context_spec m st :
  state_at (data m) (regs m RSP) st -> in_u32 (st_pkru st) ->
  permitted root m (regs m RSP) false = true ->
  accessible root (with_pkru (st_pkru st) m) (regs m RSP + 8) 18 false ->
  exists m', restore_context root m = Done (tt, m') /\ resumed st (regs m RSP + 152) m' /\
    data m' = data m /\ cr0 m' = cr0 m /\ current_task m' = current_task m /\
    core_mmu (core m') = core_mmu (core m).
Proof.
  intros Hst Hu Hp0 Ha. set (sp := regs m RSP) in *.
  unfold state_at, state_words in Hst. cbn [words_at] in Hst. destruct Hst as (W0 & W1 & Hst).
  apply words_at_app in Hst as [Wr Wt]. rewrite length_fmap in Wt. cbn [length state_regs words_at] in Wt.
  replace (sp + 8 + 8) with (sp + 16) in * by lia. replace (sp + 16 + 8 * Z.of_nat 15) with (sp + 136) in Wt by lia.
  replace (sp + 136 + 8) with (sp + 144) in Wt by lia. destruct Wt as (W17 & W18 & _).
  assert (Hp : forall i, 0 <= i < 18 -> permitted root (with_pkru (st_pkru st) m) (sp + 8 + 8 * i) false = true) by (intros i Hi; apply Ha; lia).
  pose proof (restore_rights m sp (st_pkru st) (st_fs st) eq_refl Hu W0 W1 Hp0 ltac:(replace (sp + 8) with (sp + 8 + 8 * 0) by lia; by apply Hp)) as E4.
  set (m4 := with_fsbase (st_fs st) _) in E4.
  destruct (pop_all_spec root state_regs m4 (st_reg st)) as (m5 & E5 & R5 & D5 & S5 & I5 & _); [apply state_regs_nodup..| |exact Wr|].
  { change (regs m4 RSP) with (sp + 16). apply (accessible_core root (with_pkru (st_pkru st) m)); [done|].
    eapply accessible_sub; [exact Ha|lia|exists 1; lia|simpl; lia]. }
  change (regs m4 RSP) with (sp + 16) in S5. change (data m4) with (data m) in D5. simpl length in S5.
  replace (sp + 16 + 8 * Z.of_nat 15) with (sp + 136) in S5 by lia.
  assert (Hc5 : forall a, permitted root m5 a false = permitted root (with_pkru (st_pkru st) m) a false).
  { intros a. apply (permitted_core root (with_pkru (st_pkru st) m) m5). by rewrite (rs_core _ _ R5). }
  assert (E6 : popfq root m5 = Done (tt, with_rflags (st_rflags st) (with_reg RSP (sp + 144) m5))).
  { apply popfq_run; rewrite S5; [lia| |by rewrite D5]. rewrite Hc5. replace (sp + 136) with (sp + 8 + 8 * 16) by lia. by apply Hp. }
  set (m6 := with_rflags _ _) in E6.
  assert (E7 : ret_near root m6 = Done (tt, with_rip (st_rip st) (with_reg RSP (sp + 152) m6))).
  { apply ret_near_run; change (regs m6 RSP) with (sp + 144); [lia| |change (data m6) with (data m5); by rewrite D5].
    change (permitted root m5 (sp + 144) false = true). rewrite Hc5. replace (sp + 144) with (sp + 8 + 8 * 17) by lia. by apply Hp. }
  exists (with_rip (st_rip st) (with_reg RSP (sp + 152) m6)). destruct R5 as [Q1 Q2 Q3 Q4 Q5 Q6].
  split_and!; [| |exact D5|exact Q5|exact Q6|exact (f_equal core_mmu Q1)].
  - transitivity (((i_pop root RAX ;;; (xor_self RCX ;;; xor_self RDX ;;; i_wrpkru) ;;; i_pop root RAX ;;; wrfsbase RAX) ;;;
      pop_all root state_regs ;;; popfq root ;;; ret_near root) m); [unfold restore_context; by repeat (rewrite ?bind_assoc; apply bind_cong; intros [] ?)|].
    rewrite (bind_done _ _ _ _ _ E4), (bind_done _ _ _ _ _ E5), (bind_done _ _ _ _ _ E6). exact E7.
  - split; [|reflexivity|reflexivity|reflexivity|exact Q4|exact (f_equal pkru Q1)].
    intros r Hr. rewrite <- (I5 r (state_regs_all r Hr)). clear - Hr. destruct r; try reflexivity. contradiction.
Qed.

End contexts.

(** ** Switching between tasks *)

Section tasks.

Context {F : Type} `{FrameSource F}.
Context (root : Z).
Context (set_current_kernel_stack : M (Machine F) unit) (return_address : Z).

Implicit Types (m : Machine F).

(** In the state [m], [set_current_kernel_stack] returns with the stack pointer it
    was called with and keeps the words of [keeps]. *)
Definition callee_keeps (keeps : Z -> Prop) m : Prop := exists m',
  set_current_kernel_stack m = Done (tt, m') /\ regs m' RSP = regs m RSP /\ core m' = core m /\ cr0 m' = cr0 m /\
  forall x, keeps x -> data m' !! x = data m !! x.

(** The words of the two frames and the word that receives the old stack pointer. *)
Definition kept m (x : Z) : Prop :=
  regs m RSP - 144 <= x <= regs m RSP \/ regs m RSI <= x < regs m RSI + 152 \/ x = regs m RDI.

(** The task that runs in [m] can be switched for one whose context lies at the
    address in RSI and has PKRU [p]: its own stack has room, the stacks and the word
    for the old stack pointer do not overlap, and PKRU lets the kernel access them. *)
Record can_switch m (p : Z) : Prop := {
  cs_room : accessible root m (regs m RSP - 144) 18 true;
  cs_return : is_Some (data m !! regs m RSP);
  cs_pointer : permitted root m (regs m RDI) true = true;
  cs_new_pkru : in_u32 p;
  cs_new_call : permitted root m (regs m RSI - 8) true = true /\ permitted root m (regs m RSI - 8) false = true;
  cs_new_first : permitted root m (regs m RSI) false = true;
  cs_new_rest : accessible root (with_pkru p m) (regs m RSI + 8) 18 false;
  cs_stacks : regs m RSI + 152 <= regs m RSP - 144 \/ regs m RSP < regs m RSI - 8;
  cs_pointer_apart : (regs m RDI < regs m RSP - 144 \/ regs m RSP < regs m RDI) /\
    (regs m RDI < regs m RSI - 8 \/ regs m RSI + 152 <= regs m RDI)
}.

(** [mc] is a state in which the [switch] of [m] may call
    [set_current_kernel_stack]: on the stack of the new task, where the return
    address lies, after the old context and the old stack pointer were stored. *)
Record calls_from m mc : Prop := {
  cf_core : core mc = core m;
  cf_sp : regs mc RSP = regs m RSI - 8;
  cf_data : forall x, ~ regs m RSP - 144 <= x < regs m RSP -> x <> regs m RDI -> x <> regs m RSI - 8 -> data mc !! x = data m !! x
}.

(** The state after the call instruction *)
Definition called m : Machine F :=
  with_reg RSP (regs m RSP - 8) (with_data (<[regs m RSP - 8 := return_address]> (data m)) m).

Lemma call_spec m keeps :
  callee_keeps keeps (called m) -> (forall x, keeps x -> x <> regs m RSP - 8) ->
  permitted root m (regs m RSP - 8) true = true -> permitted root m (regs m RSP - 8) false = true ->
  exists m', call root return_address set_current_kernel_stack m = Done (tt, m') /\
    regs m' RSP = regs m RSP /\ core m' = core m /\ cr0 m' = cr0 m /\
    (forall x, keeps x -> data m' !! x = data m !! x) /\
    exists mr, set_current_kernel_stack (called m) = Done (tt, mr) /\ data m' = data mr.
Proof.
  intros Hc Hk Hw Hr. set (m1 := called m).
  destruct Hc as (m2 & E2 & S2 & C2 & Z2 & D2). fold m1 in E2, S2, C2, Z2, D2. change (regs m1 RSP) with (regs m RSP - 8) in S2.
  change (core m1) with (core m) in C2.
  assert (Hp : permitted root m2 (regs m2 RSP) false = true) by (rewrite (permitted_core root m m2) by done; by rewrite S2).
  exists (with_reg RSP (regs m2 RSP + 8) m2). split_and!.
  - unfold call. rewrite (bind_done _ _ _ _ _ (push_word_run root m return_address Hw)).
    change (with_reg RSP _ (with_data _ m)) with m1. rewrite (bind_done _ _ _ _ _ E2).
    by rewrite (bind_done _ _ _ _ _ (pop_word_run root m2 Hp)).
  - change (regs m2 RSP + 8 = regs m RSP). lia.
  - done.
  - done.
  - intros x Hx. cbn. rewrite D2 by done. cbn. apply lookup_insert_ne. intros E. by apply (Hk x).
  - by exists m2.
Qed.

(** What [switch] does, [set_current_kernel_stack] keeping the words of [keeps]. *)
Lemma switch_spec_keeping m st (keeps : Z -> Prop) :
  can_switch m (st_pkru st) -> state_at (data m) (regs m RSI) st -> (forall mc, calls_from m mc -> callee_keeps keeps mc) ->
  (forall x, kept m x -> keeps x) -> ~ keeps (regs m RSI - 8) ->
  exists m', switch root set_current_kernel_stack return_address m = Done (tt, m') /\
    resumed st (regs m RSI + 152) m' /\
    data m' !! regs m RDI = Some (regs m RSP - 144) /\
    state_at (data m') (regs m RSP - 144) (context_of m) /\
    cr0 m' = Z.lor (cr0 m) 8 /\ core_mmu (core m') = core_mmu (core m) /\
    (forall x, keeps x -> ~ regs m RSP - 144 <= x < regs m RSP -> x <> regs m RDI -> data m' !! x = data m !! x) /\
    exists mc mr, calls_from m mc /\ set_current_kernel_stack mc = Done (tt, mr) /\ data m' = data mr.
Proof.
  intros [H1 [ra H2] H3 H5 [H6 H6'] H7 H8 H9 [H10 H11]] H4 Hcallee Hkept Hcall.
  destruct (store_context_spec root m ra H1 H2) as (m1 & E1 & R1 & S1 & G1 & W1 & D1).
  assert (Hdi : regs m1 RDI = regs m RDI) by (apply G1; set_solver).
  assert (Hsi : regs m1 RSI = regs m RSI) by (apply G1; set_solver).
  set (m2 := with_data (<[regs m RDI := regs m RSP - 144]> (data m1)) m1).
  assert (E2 : (let! sp := get_reg RSP in let! a := get_reg RDI in store root a sp) m1 = Done (tt, m2)).
  { unfold get_reg. rewrite !bind_gets. unfold store. rewrite Hdi, (permitted_core root m m1) by apply R1.
    rewrite H3, S1. done. }
  set (m4 := with_cr0 (Z.lor (cr0 m1) 8) (with_reg RAX (Z.lor (cr0 m1) 8) (with_reg RAX (cr0 m1) (with_reg RSP (regs m RSI) m2)))).
  assert (E4 : ((let! sp := get_reg RSI in set_reg RSP sp) ;;; mov_from_cr0 RAX ;;; or64 8 RAX ;;; mov_to_cr0 RAX) m2 = Done (tt, m4)).
  { transitivity (((let! sp := ret (regs m RSI) in set_reg RSP sp) ;;; mov_from_cr0 RAX ;;; or64 8 RAX ;;; mov_to_cr0 RAX) m2);
      [|reflexivity]. unfold get_reg. rewrite !bind_assoc, bind_gets, bind_ret. by rewrite <- Hsi. }
  assert (C4 : core m4 = core m) by apply R1.
  assert (Hfrom : calls_from m (called m4)).
  { split; [exact C4|reflexivity|]. intros x Hx1 Hx2 Hx3.
    change (data (called m4)) with (<[regs m RSI - 8 := return_address]> (<[regs m RDI := regs m RSP - 144]> (data m1))).
    rewrite !lookup_insert_ne by congruence. by apply D1. }
  destruct (call_spec m4 _ (Hcallee _ Hfrom)) as (m5 & E5 & S5 & C5 & Z5 & D5 & mr & Er & Dr).
  { intros x Hx ->. exact (Hcall Hx). }
  { change (regs m4 RSP) with (regs m RSI). by rewrite (permitted_core root m m4). }
  { change (regs m4 RSP) with (regs m RSI). by rewrite (permitted_core root m m4). }
  change (regs m4 RSP) with (regs m RSI) in S5. rewrite C4 in C5. change (data m4) with (data m2) in D5.
  assert (Hst : state_at (data m5) (regs m5 RSP) st).
  { rewrite S5. eapply words_at_ext; [exact H4|]. change (length (state_words st)) with 19%nat. intros i Hi.
    rewrite D5 by (apply Hkept; unfold kept; right; left; lia).
    unfold m2. cbn. rewrite lookup_insert_ne by lia. apply D1. lia. }
  destruct (restore_context_spec root m5 st Hst H5) as (m6 & E6 & RE & D6 & Z6 & _ & M6).
  { rewrite S5. by rewrite (permitted_core root m m5). }
  { rewrite S5. apply (accessible_core root (with_pkru (st_pkru st) m)); [|done]. unfold with_pkru. cbn. by rewrite C5. }
  exists m6. split_and!.
  - unfold switch. rewrite (bind_done _ _ _ _ _ E1), (bind_done _ _ _ _ _ E2).
    transitivity ((((let! sp := get_reg RSI in set_reg RSP sp) ;;; mov_from_cr0 RAX ;;; or64 8 RAX ;;; mov_to_cr0 RAX) ;;;
      call root return_address set_current_kernel_stack ;;; restore_context root) m2).
    { repeat (rewrite ?bind_assoc; apply bind_cong; intros ? ?). reflexivity. }
    rewrite (bind_done _ _ _ _ _ E4), (bind_done _ _ _ _ _ E5). exact E6.
  - rewrite S5 in RE. exact RE.
  - rewrite D6, D5 by (apply Hkept; by right; right). apply lookup_insert_eq.
  - eapply words_at_ext; [exact W1|]. change (length (state_words (context_of m))) with 19%nat. intros i Hi.
    rewrite D6, D5 by (apply Hkept; left; lia). unfold m2. cbn. apply lookup_insert_ne. lia.
  - rewrite Z6, Z5. change (cr0 m4) with (Z.lor (cr0 m1) 8). f_equal. apply R1.
  - rewrite M6, C5. done.
  - intros x Hx Hn Hd. rewrite D6, D5 by done. unfold m2. cbn. rewrite lookup_insert_ne by congruence. by apply D1.
  - exists (called m4), mr. split_and!; [done|done|by rewrite D6].
Qed.

End tasks.

(** ** An example *)

(** A check for [accessible] that computes. *)
Definition accessible_test {F} (root : Z) (m : Machine F) (a : Z) (n : nat) (write : bool) : bool :=
  forallb (fun i => permitted root m (a + 8 * Z.of_nat i) write) (seq 0 n).

Lemma accessible_test_ok {F} (root : Z) (m : Machine F) a n write :
  accessible_test root m a n write = true -> accessible root m a n write.
Proof.
  unfold accessible_test. rewrite forallb_forall. intros Ht i Hi.
  specialize (Ht (Z.to_nat i)). rewrite Z2Nat.id in Ht by lia. apply Ht, in_seq. lia.
Qed.

Section sample.

#[local] Existing Instance Paging.bump_source.

(** The task that is switched to; its PKRU denies safe memory only. *)
Definition sample_state : State :=
  mkState 0xC 0x5000 (fun r => match r with RDI => 11 | RSI => 12 | _ => 3 end) 0x202 0x401000.

Definition sample_switch_data : gmap Z Z :=
  <[0x10000800 := 0x400abc]> (list_to_map (zip ((fun i => 0x10001000 + 8 * i) <$> seqZ 0 19) (state_words sample_state))).

Definition sample_switch : Machine Z :=
  mkMachine (fun r => match r with RSP => 0x10000800 | RDI => 0x10000900 | RSI => 0x10001000 | _ => 5 end)
    0x246 0 0x7000 0x80000011 sample_switch_data (mkCore 0 sample1) sample_task.

Lemma sample_can_switch : can_switch sample_root sample_switch 0xC.
Proof.
  split.
  - apply accessible_test_ok. vm_compute. reflexivity.
  - exists 0x400abc. vm_compute. reflexivity.
  - vm_compute. reflexivity.
  - by vm_compute.
  - split; vm_compute; reflexivity.
  - vm_compute. reflexivity.
  - apply accessible_test_ok. vm_compute. reflexivity.
  - right. change (0x10000800 < 0x10001000 - 8). lia.
  - change ((0x10000900 < 0x10000800 - 144 \/ 0x10000800 < 0x10000900) /\
      (0x10000900 < 0x10001000 - 8 \/ 0x10001000 + 152 <= 0x10000900)). lia.
Qed.

Lemma sample_state_at : state_at (data sample_switch) (regs sample_switch RSI) sample_state.
Proof. unfold state_at. vm_compute. by repeat split. Qed.

End sample.
