(* ===== verification/TaskQueue.v ===== *)
(** * Tasks and their priority queues: src/scheduler/task.rs

    Task control blocks are reference counted; the model keeps them in a store
    indexed by the identity of their [Rc]. A [PriorityTaskQueue] has a chain of
    tasks per priority, threaded through the [next] and [prev] fields of the
    tasks themselves, so that a task can be in one queue at a time. *)

From stdpp Require Import base numbers list gmap.
From Stdlib Require Import ZArith Lia.
From S2P Require Import Prelude Links Collections.

#[local] Open Scope Z_scope.

(** ** Data *)

Inductive TaskStatus := TaskInvalid | TaskReady | TaskRunning | TaskBlocked | TaskFinished | TaskIdle.
Inductive WakeupReason := Custom | Timer | All.

#[export] Instance TaskStatus_eq_dec : EqDecision TaskStatus.
Proof. solve_decision. Defined.
#[export] Instance WakeupReason_eq_dec : EqDecision WakeupReason.
Proof. solve_decision. Defined.

(** [TaskId] is a [u32], [Priority] a [u8]. *)
Definition TaskId : Type := Z.
Definition Priority : Type := Z.

Definition HIGH_PRIO : Priority := 3.
Definition NORMAL_PRIO : Priority := 2.
Definition LOW_PRIO : Priority := 1.
Definition IDLE_PRIO : Priority := 0.
Definition NO_PRIORITIES : nat := 31.

(** A task that waits, in the list of a [BlockedTaskQueue]. *)
Record BlockedTask := mkBlocked { task : nat; wakeup_time : option Z }.
Definition BlockedTaskQueue : Type := DoublyLinkedList BlockedTask.

(** The addresses of a task's stacks, src/arch/x86_64/kernel/scheduler.rs. *)
Record TaskStacks := mkStacks {
  is_boot_stack : bool;
  stack : Z;
  ist0 : Z;
  isolated_stack : Z;
  user_stack : Z
}.

(** The saved FPU registers, as bytes. *)
Definition FPUState : Type := list Z.

(** [struct Task]; [tls] is the identity of the [Rc] of the TLS block. *)
Record Task := mkTask {
  id : TaskId;
  status : TaskStatus;
  prio : Priority;
  last_stack_pointer : Z;
  kernel_stack_pointer : Z;
  user_stack_pointer : Z;
  last_fpu_state : FPUState;
  core_id : Z;
  stacks : TaskStacks;
  t_next : option nat;
  t_prev : option nat;
  wakeup : BlockedTaskQueue;
  tls : option nat;
  last_wakeup_reason : WakeupReason
}.

Definition set_t_next (n : option nat) (t : Task) : Task :=
  mkTask (id t) (status t) (prio t) (last_stack_pointer t) (kernel_stack_pointer t) (user_stack_pointer t)
    (last_fpu_state t) (core_id t) (stacks t) n (t_prev t) (wakeup t) (tls t) (last_wakeup_reason t).
Definition set_t_prev (p : option nat) (t : Task) : Task :=
  mkTask (id t) (status t) (prio t) (last_stack_pointer t) (kernel_stack_pointer t) (user_stack_pointer t)
    (last_fpu_state t) (core_id t) (stacks t) (t_next t) p (wakeup t) (tls t) (last_wakeup_reason t).
Definition set_status (s : TaskStatus) (t : Task) : Task :=
  mkTask (id t) s (prio t) (last_stack_pointer t) (kernel_stack_pointer t) (user_stack_pointer t)
    (last_fpu_state t) (core_id t) (stacks t) (t_next t) (t_prev t) (wakeup t) (tls t) (last_wakeup_reason t).
Definition set_reason (r : WakeupReason) (t : Task) : Task :=
  mkTask (id t) (status t) (prio t) (last_stack_pointer t) (kernel_stack_pointer t) (user_stack_pointer t)
    (last_fpu_state t) (core_id t) (stacks t) (t_next t) (t_prev t) (wakeup t) (tls t) r.
Definition set_wakeup (w : BlockedTaskQueue) (t : Task) : Task :=
  mkTask (id t) (status t) (prio t) (last_stack_pointer t) (kernel_stack_pointer t) (user_stack_pointer t)
    (last_fpu_state t) (core_id t) (stacks t) (t_next t) (t_prev t) w (tls t) (last_wakeup_reason t).
Definition set_fpu (f : FPUState) (t : Task) : Task :=
  mkTask (id t) (status t) (prio t) (last_stack_pointer t) (kernel_stack_pointer t) (user_stack_pointer t)
    f (core_id t) (stacks t) (t_next t) (t_prev t) (wakeup t) (tls t) (last_wakeup_reason t).

(** The links of tasks are those of a doubly linked chain. *)
#[export] Instance Task_linked : Linked Task unit := {
  l_val _ := tt;
  l_prev := t_prev;
  l_next := t_next;
  Links.set_prev := set_t_prev;
  Links.set_next := set_t_next
}.

#[export] Instance Task_linked_laws : LinkedLaws Task unit.
Proof. split; reflexivity. Qed.

Abbreviation Tasks := (gmap nat Task).

Record QueueHead := mkQueueHead { q_head : option nat; q_tail : option nat }.
Record PriorityTaskQueue := mkPQ { queues : list QueueHead; prio_bitmap : Z }.

Definition QueueHead_new : QueueHead := mkQueueHead None None.
Definition PriorityTaskQueue_new : PriorityTaskQueue := mkPQ (replicate NO_PRIORITIES QueueHead_new) 0.

(** [processor::msb]: the index of the highest bit set. *)
Definition msb (value : Z) : option Z := if 0 <? value then Some (Z.log2 value) else None.

(** ** Operations of [PriorityTaskQueue] *)

(** A queue together with the store of tasks. *)
Definition TQ : Type := (Tasks * PriorityTaskQueue)%type.

Definition get_task (i : nat) : M TQ Task := fun s =>
  match s.1 !! i with Some t => Done (t, s) | None => Panic end.
Definition update_task (i : nat) (f : Task -> Task) : M TQ unit := modify (fun s => (alter f i s.1, s.2)).

(** [self.queues[i]], which panics out of range, and assignments to it. *)
Definition get_queue (i : nat) : M TQ QueueHead := fun s =>
  match queues s.2 !! i with Some q => Done (q, s) | None => Panic end.
Definition set_queue (i : nat) (q : QueueHead) : M TQ unit :=
  modify (fun s => (s.1, mkPQ (<[i := q]> (queues s.2)) (prio_bitmap s.2))).
Definition set_bitmap (f : Z -> Z) : M TQ unit := modify (fun s => (s.1, mkPQ (queues s.2) (f (prio_bitmap s.2)))).

(** [1 << i] on a [u64]; a shift by 64 or more is an overflow. *)
Definition bit_of (i : Z) : outcome Z := if (0 <=? i) && (i <? 64) then Done (Z.shiftl 1 i) else Panic.

Definition pq_push (task : nat) : M TQ unit :=
  let! t := get_task task in
  let i := prio t in
  let! b := lift (bit_of i) in
  set_bitmap (fun bm => Z.lor bm b) ;;;
  let! q := get_queue (Z.to_nat i) in
  (match q_tail q with
   | None =>
       set_queue (Z.to_nat i) (mkQueueHead (Some task) (q_tail q)) ;;;
       update_task task (fun t => set_t_prev None (set_t_next None t))
   | Some tail =>
       let! _ := get_task tail in
       update_task tail (set_t_next (Some task)) ;;;
       update_task task (fun t => set_t_prev (Some tail) (set_t_next None t))
   end) ;;;
  let! q := get_queue (Z.to_nat i) in
  set_queue (Z.to_nat i) (mkQueueHead (q_head q) (Some task)).

(** The head stays mutably borrowed while its successor is, so a task whose
    successor is itself panics. *)
Definition pq_pop_from_queue (queue_index : nat) : M TQ (option nat) :=
  let! q := get_queue queue_index in
  match q_head q with
  | None => ret None
  | Some head =>
      let! borrow := get_task head in
      (match t_next borrow with
       | Some nhead =>
           massert (negb (Nat.eqb nhead head)) ;;;
           let! _ := get_task nhead in
           update_task nhead (set_t_prev None)
       | None => ret tt
       end) ;;;
      let new_head := t_next borrow in
      update_task head (fun t => set_t_prev None (set_t_next None t)) ;;;
      set_queue queue_index (mkQueueHead new_head (q_tail q)) ;;;
      (match new_head with
       | None =>
           set_queue queue_index (mkQueueHead None None) ;;;
           let! b := lift (bit_of (Z.of_nat queue_index)) in
           set_bitmap (fun bm => Z.land bm (not64 b))
       | Some _ => ret tt
       end) ;;;
      ret (Some head)
  end.

Definition pq_pop : M TQ (option nat) :=
  let! bm := gets (fun s => prio_bitmap s.2) in
  match msb bm with
  | Some i => pq_pop_from_queue (Z.to_nat i)
  | None => ret None
  end.

Definition pq_pop_with_prio (p : Priority) : M TQ (option nat) :=
  let! bm := gets (fun s => prio_bitmap s.2) in
  match msb bm with
  | Some i => if p <=? i then pq_pop_from_queue (Z.to_nat i) else ret None
  | None => ret None
  end.

(** The loop of [remove]: it walks the chain until it finds the task. *)
Fixpoint remove_loop (fuel : nat) (curr : option nat) (task : nat) : M TQ unit :=
  match curr with
  | None => ret tt
  | Some curr_task =>
      match fuel with
      | O => out_of_fuel
      | S fuel' =>
          let! borrowed := get_task curr_task in
          if Nat.eqb curr_task task then
            (match t_prev borrowed with
             | Some t => let! _ := get_task t in update_task t (set_t_next (t_next borrowed))
             | None => ret tt
             end) ;;;
            (match t_next borrowed with
             | Some t => let! _ := get_task t in update_task t (set_t_prev (t_prev borrowed))
             | None => ret tt
             end)
          else remove_loop fuel' (t_next borrowed) task
      end
  end.

Definition pq_remove (task : nat) : M TQ unit :=
  let! t := get_task task in
  let i := prio t in
  let! q := get_queue (Z.to_nat i) in
  let! st := gets fst in
  remove_loop (S (size st)) (q_head q) task ;;;
  let! q := get_queue (Z.to_nat i) in
  let new_head := match q_head q with Some curr_task => Nat.eqb curr_task task | None => false end in
  if new_head then
    let! t := get_task task in
    set_queue (Z.to_nat i) (mkQueueHead (t_next t) (q_tail q)) ;;;
    match t_next t with
    | None =>
        let! b := lift (bit_of i) in
        set_bitmap (fun bm => Z.land bm (not64 b))
    | Some _ => ret tt
    end
  else ret tt.

(** ** What a queue represents *)

(** The chain of the tasks of one priority. *)
Definition chain (l : list nat) : list (nat * unit) := (fun i => (i, tt)) <$> l.

Lemma chain_fst l : (chain l).*1 = l.
Proof. unfold chain. rewrite <- list_fmap_compose. apply list_fmap_id. Qed.

Lemma chain_app l1 l2 : chain (l1 ++ l2) = chain l1 ++ chain l2.
Proof. apply fmap_app. Qed.

Lemma first_chain l n : first (chain l) n = match l with [] => n | i :: _ => Some i end.
Proof. by destruct l. Qed.

Lemma last_chain l : last_id (chain l) None = last l.
Proof.
  destruct l as [|x l] using rev_ind; [done|]. rewrite chain_app, last_snoc. apply last_id_snoc.
Qed.

Record queue_repr (st : Tasks) (q : QueueHead) (l : list nat) : Prop := {
  qr_nodup : NoDup l;
  qr_head : q_head q = hd_error l;
  qr_tail : q_tail q = last l;
  qr_seg : seg st None (chain l) None
}.

(** The queue holds, for every priority [i], the tasks [ls i] in order. *)
Record pq_repr (s : TQ) (ls : nat -> list nat) : Prop := {
  pr_length : length (queues s.2) = NO_PRIORITIES;
  pr_queue : forall i q, queues s.2 !! i = Some q -> queue_repr s.1 q (ls i);
  pr_prio : forall i t, t ∈ ls i -> (i < NO_PRIORITIES)%nat /\ exists tk, s.1 !! t = Some tk /\ prio tk = Z.of_nat i;
  pr_bits : 0 <= prio_bitmap s.2 /\
    forall i, 0 <= i -> Z.testbit (prio_bitmap s.2) i = bool_decide (ls (Z.to_nat i) <> [])
}.

(** Only links differ. *)
Definition unlink (t : Task) : Task := set_t_prev None (set_t_next None t).
Definition same_tasks (st st' : Tasks) : Prop := forall j, unlink <$> st' !! j = unlink <$> st !! j.

Definition upd (i : nat) (l : list nat) (ls : nat -> list nat) : nat -> list nat :=
  fun j => if decide (j = i) then l else ls j.

Lemma upd_eq i l ls : upd i l ls i = l.
Proof. unfold upd. by rewrite decide_True. Qed.
Lemma upd_ne i j l ls : j <> i -> upd i l ls j = ls j.
Proof. intros. unfold upd. by rewrite decide_False. Qed.

Lemma same_tasks_refl st : same_tasks st st.
Proof. done. Qed.

Lemma same_tasks_trans st1 st2 st3 : same_tasks st1 st2 -> same_tasks st2 st3 -> same_tasks st1 st3.
Proof. intros H1 H2 j. by rewrite H2, H1. Qed.

(** Writing links keeps the tasks. *)
Lemma same_tasks_alter st f j : (forall t, unlink (f t) = unlink t) -> same_tasks st (alter f j st).
Proof.
  intros Hf k. rewrite lookup_alter. case_decide; [|done]. subst.
  destruct (st !! k); simpl; [by rewrite Hf|done].
Qed.

Lemma same_tasks_lookup st st' j t :
  same_tasks st st' -> st !! j = Some t -> exists t', st' !! j = Some t' /\ unlink t' = unlink t.
Proof.
  intros Hs Hj. specialize (Hs j). rewrite Hj in Hs. destruct (st' !! j) as [t'|]; [|done].
  simpl in Hs. exists t'. split; [done|]. congruence.
Qed.

Lemma same_tasks_prio st st' j t i :
  same_tasks st st' -> st !! j = Some t -> prio t = i -> exists t', st' !! j = Some t' /\ prio t' = i.
Proof.
  intros Hs Hj Hp. destruct (same_tasks_lookup _ _ _ _ Hs Hj) as (t' & Hj' & Hu). exists t'. split; [done|].
  rewrite <- Hp. apply (f_equal prio) in Hu. exact Hu.
Qed.

Lemma same_tasks_link_next o x (st : Tasks) : same_tasks st (link_next o x st).
Proof. destruct o; simpl; [|done]. by apply same_tasks_alter. Qed.

Lemma same_tasks_link_prev o x (st : Tasks) : same_tasks st (link_prev o x st).
Proof. destruct o; simpl; [|done]. by apply same_tasks_alter. Qed.

#[export] Hint Resolve same_tasks_refl same_tasks_alter same_tasks_link_next same_tasks_link_prev : core.

Section representation.

Implicit Types (s : TQ) (ls : nat -> list nat).

Lemma bind_get_task {A} i (k : Task -> M TQ A) s t : s.1 !! i = Some t -> bind (get_task i) k s = k t s.
Proof. intros E. unfold bind, get_task. by rewrite E. Qed.

Lemma bind_get_queue {A} i (k : QueueHead -> M TQ A) s q : queues s.2 !! i = Some q -> bind (get_queue i) k s = k q s.
Proof. intros E. unfold bind, get_queue. by rewrite E. Qed.

Lemma bit_of_done i : 0 <= i < 64 -> bit_of i = Done (Z.shiftl 1 i).
Proof. intros Hi. unfold bit_of. by rewrite (proj2 (Z.leb_le 0 i)), (proj2 (Z.ltb_lt i 64)) by lia. Qed.

Lemma repr_queue s ls i : pq_repr s ls -> (i < NO_PRIORITIES)%nat -> exists q, queues s.2 !! i = Some q /\ queue_repr s.1 q (ls i).
Proof.
  intros HR Hi. destruct (queues s.2 !! i) as [q|] eqn:E.
  - exists q. split; [done|]. by apply (pr_queue _ _ HR).
  - apply lookup_ge_None in E. rewrite (pr_length _ _ HR) in E. lia.
Qed.

(** A task is in the queue of its priority only. *)
Lemma repr_disjoint s ls i j t : pq_repr s ls -> t ∈ ls i -> t ∈ ls j -> i = j.
Proof.
  intros HR Hi Hj. destruct (pr_prio _ _ HR i t Hi) as (_ & tk & E & P).
  destruct (pr_prio _ _ HR j t Hj) as (_ & tk' & E' & P'). rewrite E in E'. injection E' as <-. lia.
Qed.

(** The tasks a chain mentions are in the store. *)
Lemma chain_in_store st p l n t : seg st p (chain l) n -> t ∈ l -> is_Some (st !! t).
Proof.
  intros Hs Ht. apply list_elem_of_split in Ht as (l1 & l2 & ->). rewrite chain_app in Hs. simpl in Hs.
  destruct (seg_lookup _ _ _ _ _ _ _ Hs) as (nd & E & _). by exists nd.
Qed.

(** The bits after the chain of priority [i] changed. *)
Lemma bits_upd bm i l ls b :
  (i < NO_PRIORITIES)%nat -> 0 <= b -> 0 <= bm ->
  (forall k, 0 <= k -> Z.testbit bm k = bool_decide (ls (Z.to_nat k) <> [])) ->
  (forall k, 0 <= k -> Z.testbit b k = if decide (k = Z.of_nat i) then bool_decide (l <> []) else Z.testbit bm k) ->
  0 <= b /\ forall k, 0 <= k -> Z.testbit b k = bool_decide (upd i l ls (Z.to_nat k) <> []).
Proof.
  intros Hi Hb Hbm Hls Hk. split; [done|]. intros k Hk0. rewrite Hk by done. case_decide as C.
  - subst. by rewrite Nat2Z.id, upd_eq.
  - rewrite upd_ne by lia. by apply Hls.
Qed.

(** Rebuilding the representation after the chain of priority [i] changed. *)
Lemma repr_upd s ls st' qs' bm' i q' l' :
  pq_repr s ls -> (i < NO_PRIORITIES)%nat ->
  qs' = <[i := q']> (queues s.2) -> queue_repr st' q' l' -> same_tasks s.1 st' ->
  (forall t, t ∈ l' -> t ∈ ls i \/ exists tk, s.1 !! t = Some tk /\ prio tk = Z.of_nat i) ->
  (forall j, j <> i -> seg s.1 None (chain (ls j)) None -> seg st' None (chain (ls j)) None) ->
  0 <= bm' ->
  (forall k, 0 <= k -> Z.testbit bm' k = if decide (k = Z.of_nat i) then bool_decide (l' <> []) else Z.testbit (prio_bitmap s.2) k) ->
  pq_repr (st', mkPQ qs' bm') (upd i l' ls).
Proof.
  intros HR Hi -> Hq Hst Hl Hoth Hb0 Hb. split; simpl.
  - rewrite length_insert. apply HR.
  - intros j q Hj. destruct (decide (j = i)) as [->|Hn].
    + rewrite upd_eq. rewrite list_lookup_insert_eq in Hj by (rewrite (pr_length _ _ HR); lia). by injection Hj as <-.
    + rewrite upd_ne by done. rewrite list_lookup_insert_ne in Hj by done.
      destruct (pr_queue _ _ HR j q Hj) as [Q1 Q2 Q3 Q4]. split; auto.
  - intros j t Ht. destruct (decide (j = i)) as [->|Hn].
    + rewrite upd_eq in Ht. split; [done|].
      assert (exists tk, s.1 !! t = Some tk /\ prio tk = Z.of_nat i) as (tk & E & P)
        by (destruct (Hl t Ht) as [Hin|]; [by apply (pr_prio _ _ HR)|done]).
      by apply (same_tasks_prio s.1 st' t tk).
    + rewrite upd_ne in Ht by done. destruct (pr_prio _ _ HR j t Ht) as (Hj & tk & E & P).
      split; [done|]. by apply (same_tasks_prio s.1 st' t tk).
  - destruct (pr_bits _ _ HR) as [B0 B]. by apply (bits_upd (prio_bitmap s.2)).
Qed.

(** The bitmap after a bit was set or cleared. *)
Lemma set_bit bm i k : 0 <= i -> 0 <= k -> Z.testbit (Z.lor bm (Z.shiftl 1 i)) k = if decide (k = i) then true else Z.testbit bm k.
Proof.
  intros Hi Hk. rewrite Z.lor_spec, Z.shiftl_1_l, Z.pow2_bits_eqb by done. case_decide as C; subst.
  - by rewrite Z.eqb_refl, orb_true_r.
  - rewrite (proj2 (Z.eqb_neq i k)) by done. by rewrite orb_false_r.
Qed.

Lemma clear_bit bm i k :
  0 <= bm -> (forall n, 64 <= n -> Z.testbit bm n = false) -> 0 <= i -> 0 <= k ->
  Z.testbit (Z.land bm (not64 (Z.shiftl 1 i))) k = if decide (k = i) then false else Z.testbit bm k.
Proof.
  intros Hb Hh Hi Hk. rewrite land_not64 by (by apply in_u64_bits). rewrite Z.ldiff_spec, Z.shiftl_1_l, Z.pow2_bits_eqb by done.
  case_decide as C; subst.
  - by rewrite Z.eqb_refl, andb_false_r.
  - rewrite (proj2 (Z.eqb_neq i k)) by done. by rewrite andb_true_r.
Qed.

Lemma bitmap_high s ls n : pq_repr s ls -> Z.of_nat NO_PRIORITIES <= n -> Z.testbit (prio_bitmap s.2) n = false.
Proof.
  intros HR Hn. destruct (pr_bits _ _ HR) as [_ B]. rewrite B by (unfold NO_PRIORITIES in *; lia).
  apply bool_decide_eq_false. intros Hne. destruct (ls (Z.to_nat n)) as [|t l] eqn:E; [done|].
  destruct (pr_prio _ _ HR (Z.to_nat n) t) as [Hlt _]; [rewrite E; by left|]. lia.
Qed.

(** The first bit of the bitmap is the highest priority with a task. *)
Lemma msb_spec s ls :
  pq_repr s ls ->
  match msb (prio_bitmap s.2) with
  | Some b => exists i, b = Z.of_nat i /\ (i < NO_PRIORITIES)%nat /\ ls i <> [] /\ forall j, (i < j)%nat -> ls j = []
  | None => forall j, ls j = []
  end.
Proof.
  intros HR. destruct (pr_bits _ _ HR) as [B0 B]. unfold msb.
  assert (forall j, ls j <> [] -> Z.testbit (prio_bitmap s.2) (Z.of_nat j) = true) as Hset.
  { intros j Hj. rewrite B by lia. rewrite Nat2Z.id. by apply bool_decide_eq_true. }
  destruct (Z.ltb_spec 0 (prio_bitmap s.2)) as [Hpos|Hz].
  - pose proof (Z.log2_nonneg (prio_bitmap s.2)) as L0.
    pose proof (Z.bit_log2 _ Hpos) as Hb.
    exists (Z.to_nat (Z.log2 (prio_bitmap s.2))). rewrite Z2Nat.id by done. split; [done|].
    rewrite B in Hb by done. apply bool_decide_eq_true in Hb. split; [|split; [done|]].
    + destruct (ls (Z.to_nat (Z.log2 (prio_bitmap s.2)))) as [|t l] eqn:E; [done|].
      apply (pr_prio _ _ HR _ t). rewrite E. by left.
    + intros j Hj. destruct (ls j) as [|t l] eqn:E; [done|]. exfalso.
      assert (Z.testbit (prio_bitmap s.2) (Z.of_nat j) = true) as Hbit by (apply Hset; by rewrite E).
      rewrite Z.bits_above_log2 in Hbit; [done|lia|lia].
  - intros j. destruct (ls j) as [|t l] eqn:E; [done|]. exfalso.
    assert (Z.testbit (prio_bitmap s.2) (Z.of_nat j) = true) as Hbit by (apply Hset; by rewrite E).
    replace (prio_bitmap s.2) with 0 in Hbit by lia. by rewrite Z.bits_0 in Hbit.
Qed.

(** The chains of the other priorities do not see a change of links at tasks
    of priority [i]. *)
Lemma seg_other_prio s ls i j st' :
  pq_repr s ls -> j <> i -> (forall t, ~ (t ∈ ls i) -> t ∈ ls j -> st' !! t = s.1 !! t) ->
  seg s.1 None (chain (ls j)) None -> seg st' None (chain (ls j)) None.
Proof.
  intros HR Hj Hst. apply seg_ext. intros t. rewrite chain_fst. intros Ht. apply Hst; [|done].
  intros Hi. by pose proof (repr_disjoint _ _ _ _ _ HR Hi Ht).
Qed.

(** ** [push] *)

Definition links (n p : option nat) (t : Task) : Task := set_t_prev p (set_t_next n t).

Lemma push_eq s ls t tk i :
  pq_repr s ls -> s.1 !! t = Some tk -> prio tk = Z.of_nat i -> (i < NO_PRIORITIES)%nat -> t ∉ ls i ->
  pq_push t s = Done (tt,
    (alter (links None (last (ls i))) t (link_next (last (ls i)) (Some t) s.1),
     mkPQ (<[i := mkQueueHead (Some (default t (hd_error (ls i)))) (Some t)]> (queues s.2))
          (Z.lor (prio_bitmap s.2) (Z.shiftl 1 (Z.of_nat i))))).
Proof.
  intros HR Ht Hp Hi Hni. destruct (repr_queue _ _ i HR Hi) as (q & Eq & [Hnd Hh Hl Hs]).
  pose proof (pr_length _ _ HR) as Hlen. unfold NO_PRIORITIES in *.
  unfold pq_push. rewrite (bind_get_task _ _ _ _ Ht). cbv zeta. rewrite Hp.
  rewrite (bind_lift_done _ _ (Z.shiftl 1 (Z.of_nat i))) by (apply bit_of_done; lia).
  unfold set_bitmap. rewrite bind_modify, Nat2Z.id. rewrite (bind_get_queue _ _ _ q) by done.
  destruct s as [st [qs bm]]. simpl in *.
  destruct (ls i) as [|y l0 _] eqn:El using rev_ind.
  - rewrite Hl. simpl. unfold set_queue, update_task, modify, bind, get_queue. simpl.
    rewrite list_lookup_insert_eq by lia. simpl. by rewrite list_insert_insert_eq, Hh || rewrite list_insert_insert_eq.
  - rewrite last_snoc in *. rewrite Hl. simpl.
    destruct (chain_in_store st None (l0 ++ [y]) None y Hs) as [ty Ey]; [set_solver|].
    unfold bind, get_task, update_task, modify, get_queue, set_queue. simpl. rewrite Ey. simpl. rewrite Eq. simpl.
    rewrite Hh. by destruct l0.
Qed.

Lemma push_spec s ls t tk i :
  pq_repr s ls -> s.1 !! t = Some tk -> prio tk = Z.of_nat i -> (i < NO_PRIORITIES)%nat -> t ∉ ls i ->
  exists s', pq_push t s = Done (tt, s') /\ pq_repr s' (upd i (ls i ++ [t]) ls) /\ same_tasks s.1 s'.1
    /\ forall j, j <> t -> j ∉ ls i -> s'.1 !! j = s.1 !! j.
Proof.
  intros HR Ht Hp Hi Hni. eexists. split; [by eapply push_eq|]. simpl.
  destruct (repr_queue _ _ i HR Hi) as (q & Eq & [Hnd Hh Hl Hs]).
  assert (same_tasks s.1 (alter (links None (last (ls i))) t (link_next (last (ls i)) (Some t) s.1))) as Hsame.
  { eapply same_tasks_trans; [apply same_tasks_link_next|by apply same_tasks_alter]. }
  assert (forall j, j <> t -> j ∉ ls i ->
    alter (links None (last (ls i))) t (link_next (last (ls i)) (Some t) s.1) !! j = s.1 !! j) as Hframe.
  { intros j Hj Hji. rewrite lookup_alter_ne by done. apply (link_lookup_ne (P := unit)).
    intros a Ha ->. apply Hji. by apply last_Some_elem_of. }
  split; [|done].
  eapply (repr_upd s); try done.
  - split; simpl.
    + apply NoDup_app. split_and!; [done|set_solver|apply NoDup_singleton].
    + by destruct (ls i).
    + by rewrite last_snoc.
    + rewrite chain_app. apply seg_app. rewrite last_chain. simpl. split.
      * apply seg_alter_other; [by rewrite chain_fst|]. rewrite <- last_chain. apply seg_link_next with None; [by rewrite chain_fst|done].
      * split; [|done]. exists (links None (last (ls i)) tk). split; [|done].
        assert (forall a, last (ls i) = Some a -> a <> t) as Hne
          by (intros a Ha ->; apply Hni; by apply last_Some_elem_of).
        rewrite lookup_alter_eq, (proj1 (link_lookup_ne (P := unit) _ _ _ t Hne)), Ht. done.
  - intros x [Hx|Hx]%elem_of_app; [by left|]. right. apply list_elem_of_singleton in Hx as ->. eauto.
  - intros j Hj. apply (seg_other_prio s ls i j); [done|done|]. intros x Hx Hxj. apply Hframe; [|done].
    intros ->. destruct (pr_prio _ _ HR j t Hxj) as (_ & tk' & E & P). rewrite Ht in E. injection E as <-. lia.
  - apply Z.lor_nonneg. split; [by apply HR|]. rewrite Z.shiftl_1_l. lia.
  - intros k Hk. rewrite set_bit by lia. case_decide; [|done]. by destruct (ls i).
Qed.

(** ** [pop] *)

Lemma bits_below bm ls :
  pq_repr bm ls -> forall n, 64 <= n -> Z.testbit (prio_bitmap bm.2) n = false.
Proof. intros HR n Hn. apply (bitmap_high _ _ _ HR). unfold NO_PRIORITIES. lia. Qed.

(** What popping the first task of a chain leaves. *)
Definition popped (s : TQ) (i t : nat) (l : list nat) : TQ :=
  (alter (links None None) t (link_prev (first (chain l) None) None s.1),
   mkPQ (<[i := mkQueueHead (hd_error l) (last l)]> (queues s.2))
     (match l with [] => Z.land (prio_bitmap s.2) (not64 (Z.shiftl 1 (Z.of_nat i))) | _ => prio_bitmap s.2 end)).

Lemma pop_eq s ls t i l :
  pq_repr s ls -> (i < NO_PRIORITIES)%nat -> ls i = t :: l ->
  pq_pop_from_queue i s = Done (Some t, popped s i t l).
Proof.
  intros HR Hi El. destruct (repr_queue _ _ i HR Hi) as (q & Eq & [Hnd Hh Hl Hs]).
  pose proof (pr_length _ _ HR) as Hlen. unfold NO_PRIORITIES in *. rewrite El in *.
  destruct s as [st [qs bm]]. simpl in *. destruct Hs as [(tk & Et & _ & Hp & Hn) Hs].
  unfold pq_pop_from_queue, popped. rewrite (bind_get_queue _ _ _ q) by done. rewrite Hh.
  rewrite (bind_get_task _ _ _ tk) by done. rewrite Hn. destruct l as [|y l]; simpl.
  - rewrite bind_ret. unfold bind, update_task, modify, set_queue. simpl.
    rewrite bit_of_done by lia. simpl. by rewrite list_insert_insert_eq.
  - simpl in *. destruct Hs as [(ty & Ey & _) _].
    assert (Nat.eqb y t = false) as -> by (apply Nat.eqb_neq; intros ->; apply NoDup_cons in Hnd as [Hx _]; apply Hx; left).
    unfold massert, bind, lift, get_task, update_task, modify, set_queue. simpl. rewrite Ey. simpl. by rewrite Hl.
Qed.

Lemma pop_empty s ls i :
  pq_repr s ls -> (i < NO_PRIORITIES)%nat -> ls i = [] -> pq_pop_from_queue i s = Done (None, s).
Proof.
  intros HR Hi El. destruct (repr_queue _ _ i HR Hi) as (q & Eq & [Hnd Hh Hl Hs]).
  unfold pq_pop_from_queue. rewrite (bind_get_queue _ _ _ q) by done. by rewrite Hh, El.
Qed.

Lemma pop_repr s ls t i l :
  pq_repr s ls -> (i < NO_PRIORITIES)%nat -> ls i = t :: l ->
  pq_repr (popped s i t l) (upd i l ls) /\ same_tasks s.1 (popped s i t l).1
  /\ forall j, j ∉ ls i -> (popped s i t l).1 !! j = s.1 !! j.
Proof.
  intros HR Hi El. destruct (repr_queue _ _ i HR Hi) as (q & Eq & [Hnd Hh Hl Hs]).
  rewrite El in Hnd, Hs. destruct Hs as [(tk & Et & _ & Hp & Hn) Hs]. apply NoDup_cons in Hnd as [Hni Hnd].
  assert (same_tasks s.1 (popped s i t l).1) as Hsame.
  { unfold popped. simpl. eapply same_tasks_trans; [apply same_tasks_link_prev|by apply same_tasks_alter]. }
  assert (forall j, j ∉ ls i -> (popped s i t l).1 !! j = s.1 !! j) as Hframe.
  { intros j Hj. rewrite El in Hj. unfold popped. simpl. rewrite lookup_alter_ne by set_solver.
    apply (link_lookup_ne (P := unit)). intros a Ha ->. apply first_in in Ha as [|Ha]; [done|]. rewrite chain_fst in Ha. set_solver. }
  split_and!; [|done|done].
  eapply (repr_upd s); try done.
  - split; simpl; [done..|]. apply seg_alter_other; [by rewrite chain_fst|].
    apply seg_link_prev with (Some t); [by rewrite chain_fst|done].
  - intros x Hx. left. rewrite El. by right.
  - intros j Hj. apply (seg_other_prio s ls i j _ HR Hj). intros x Hx _. by apply Hframe.
  - destruct l; [|by apply HR]. apply Z.land_nonneg. left. by apply HR.
  - intros k Hk. destruct (pr_bits _ _ HR) as [B0 B]. destruct l.
    + rewrite clear_bit by first [done|lia|by eapply bits_below]. by case_decide.
    + case_decide; [|done]. subst. rewrite B, Nat2Z.id, El by lia. done.
Qed.

(** ** [remove] *)

(** What removing a task that is not the last of its chain leaves: its
    neighbours are joined, its own links stay as they were. *)
Definition removed (s : TQ) (i t : nat) (l1 l2 : list nat) : TQ :=
  (link_prev (hd_error l2) (last l1) (link_next (last l1) (hd_error l2) s.1),
   match l1 with
   | [] => mkPQ (<[i := mkQueueHead (hd_error l2) (last l2)]> (queues s.2)) (prio_bitmap s.2)
   | _ => s.2
   end).

Lemma remove_loop_find s t l1 l2 fuel :
  NoDup (l1 ++ t :: l2) -> (length l1 < fuel)%nat ->
  forall p, seg s.1 p (chain (l1 ++ t :: l2)) None ->
  remove_loop fuel (hd_error (l1 ++ t :: l2)) t s
  = remove_loop 1 (Some t) t s.
Proof.
  intros Hnd Hf. revert fuel Hf Hnd. induction l1 as [|x l1 IH]; intros fuel Hf Hnd p Hs.
  - simpl. destruct fuel; [lia|]. simpl. unfold bind. destruct (get_task t s) as [[a s']| |]; [|done..].
    simpl. by rewrite Nat.eqb_refl.
  - destruct fuel as [|fuel]; [simpl in Hf; lia|]. cbn [hd_error app]. cbn [remove_loop].
    simpl in Hs. destruct Hs as [(tx & Ex & _ & Hp & Hn) Hs].
    rewrite (bind_get_task _ _ _ tx Ex). simpl in Hnd. apply NoDup_cons in Hnd as [Hx Hnd].
    rewrite (proj2 (Nat.eqb_neq x t)) by set_solver. simpl in Hn. rewrite Hn.
    replace (first (chain (l1 ++ t :: l2)) None) with (hd_error (l1 ++ t :: l2)) by (by destruct l1).
    apply (IH fuel) with (Some x); [simpl in Hf; lia|done|done].
Qed.

Lemma queue_size s ls i : pq_repr s ls -> (i < NO_PRIORITIES)%nat -> (length (ls i) <= size s.1)%nat.
Proof.
  intros HR Hi. destruct (repr_queue _ _ i HR Hi) as (q & Eq & [Hnd Hh Hl Hs]).
  rewrite <- size_dom, <- (size_list_to_set (C := gset nat) _ Hnd).
  apply subseteq_size. intros t Ht%elem_of_list_to_set. apply elem_of_dom. by eapply chain_in_store.
Qed.

(** The two assignments that join the neighbours of a task. *)
Lemma relink_next_eq o x s :
  (forall a, o = Some a -> is_Some (s.1 !! a)) ->
  (match o with Some a => let! _ := get_task a in update_task a (set_t_next x) | None => ret tt end) s
  = Done (tt, (link_next o x s.1, s.2)).
Proof.
  destruct o as [a|]; simpl; [|by destruct s]. intros Ha. destruct (Ha a eq_refl) as [ta E].
  by rewrite (bind_get_task _ _ _ ta E).
Qed.

Lemma relink_prev_eq o x s :
  (forall a, o = Some a -> is_Some (s.1 !! a)) ->
  (match o with Some a => let! _ := get_task a in update_task a (set_t_prev x) | None => ret tt end) s
  = Done (tt, (link_prev o x s.1, s.2)).
Proof.
  destruct o as [a|]; simpl; [|by destruct s]. intros Ha. destruct (Ha a eq_refl) as [ta E].
  by rewrite (bind_get_task _ _ _ ta E).
Qed.

Lemma link_next_is_some o x (st : Tasks) j : is_Some (st !! j) -> is_Some (link_next o x st !! j).
Proof. rewrite <- !not_eq_None_Some, (proj1 (link_lookup_None (P := unit) st o x j)). done. Qed.

(** The record of a task in the middle of a chain, and its neighbours. *)
Lemma chain_mid s ls i l1 t l2 :
  pq_repr s ls -> (i < NO_PRIORITIES)%nat -> ls i = l1 ++ t :: l2 ->
  (exists tk, s.1 !! t = Some tk /\ prio tk = Z.of_nat i /\ t_prev tk = last l1 /\ t_next tk = hd_error l2)
  /\ (forall a, last l1 = Some a -> a <> t /\ is_Some (s.1 !! a))
  /\ (forall a, hd_error l2 = Some a -> a <> t /\ is_Some (s.1 !! a)).
Proof.
  intros HR Hi El. destruct (repr_queue _ _ i HR Hi) as (q & Eq & [Hnd Hh Hl Hs]). rewrite El in *.
  split_and!.
  - destruct (pr_prio _ _ HR i t) as (_ & tk & Et & Hp); [rewrite El; set_solver|].
    exists tk. rewrite chain_app in Hs. destruct (seg_lookup _ _ _ _ _ _ _ Hs) as (nd & E & _ & P & N).
    rewrite Et in E. injection E as <-. rewrite last_chain in P. split_and!; [done..|]. by destruct l2.
  - intros a Ha%last_Some_elem_of. split.
    + intros ->. apply NoDup_app in Hnd as (_ & Hd & _). apply (Hd t Ha). left.
    + eapply chain_in_store; [exact Hs|]. set_solver.
  - intros a Ha. destruct l2 as [|y l2]; [done|]. injection Ha as ->. split.
    + intros ->. apply NoDup_app in Hnd as (_ & _ & [Hx _]%NoDup_cons). apply Hx. left.
    + eapply chain_in_store; [exact Hs|]. set_solver.
Qed.

Lemma remove_eq s ls t i l1 l2 :
  pq_repr s ls -> (i < NO_PRIORITIES)%nat -> ls i = l1 ++ t :: l2 -> l2 <> [] ->
  pq_remove t s = Done (tt, removed s i t l1 l2).
Proof.
  intros HR Hi El Hl2. destruct (repr_queue _ _ i HR Hi) as (q & Eq & [Hnd Hh Hl Hs]).
  pose proof (queue_size s ls i HR Hi) as Hsz.
  destruct (chain_mid s ls i l1 t l2 HR Hi El) as ((tk & Et & Hp & P & N) & Hprev & Hnext).
  rewrite El in *. unfold pq_remove. rewrite (bind_get_task _ _ _ tk Et). cbv zeta. rewrite Hp, Nat2Z.id.
  rewrite (bind_get_queue _ _ _ q Eq), bind_gets, Hh.
  assert (remove_loop (S (size s.1)) (hd_error (l1 ++ t :: l2)) t s
    = Done (tt, (link_prev (hd_error l2) (last l1) (link_next (last l1) (hd_error l2) s.1), s.2))) as Hloop.
  { rewrite (remove_loop_find s t l1 l2) with (p := None); [|done| |done]; [|rewrite length_app in Hsz; simpl in Hsz; lia].
    cbn [remove_loop]. rewrite (bind_get_task _ _ _ tk Et), Nat.eqb_refl, P, N.
    erewrite bind_done; [|apply relink_next_eq; intros a Ha; by apply Hprev].
    apply (relink_prev_eq (hd_error l2) (last l1) (link_next (last l1) (hd_error l2) s.1, s.2)).
    intros a Ha. apply link_next_is_some. by apply Hnext. }
  rewrite (bind_done _ _ _ _ _ Hloop), (bind_get_queue _ _ _ q) by exact Eq. rewrite Hh. unfold removed.
  destruct l1 as [|x l1]; cbn [hd_error app].
  - rewrite Nat.eqb_refl. rewrite (bind_get_task _ _ _ tk).
    + rewrite N, Hl. destruct l2 as [|y l2]; [done|]. done.
    + cbn [fst last link_next]. rewrite (proj2 (link_lookup_ne (P := unit) s.1 _ _ t (fun a H => proj1 (Hnext a H)))). done.
  - rewrite (proj2 (Nat.eqb_neq x t)); [done|]. intros ->. apply NoDup_cons in Hnd as [Hx _]. set_solver.
Qed.

Lemma pq_remove_repr s ls t i l1 l2 :
  pq_repr s ls -> (i < NO_PRIORITIES)%nat -> ls i = l1 ++ t :: l2 -> l2 <> [] ->
  pq_repr (removed s i t l1 l2) (upd i (l1 ++ l2) ls) /\ same_tasks s.1 (removed s i t l1 l2).1
  /\ forall j, j ∉ ls i -> (removed s i t l1 l2).1 !! j = s.1 !! j.
Proof.
  intros HR Hi El Hl2. destruct (repr_queue _ _ i HR Hi) as (q & Eq & [Hnd Hh Hl Hs]). rewrite El in Hnd, Hs, Hl, Hh.
  assert (NoDup (l1 ++ l2)) as Hnd'.
  { rewrite <- Permutation_middle in Hnd. by apply NoDup_cons in Hnd as [_ Hnd]. }
  assert (same_tasks s.1 (removed s i t l1 l2).1) as Hsame.
  { unfold removed. simpl. eapply same_tasks_trans; [apply same_tasks_link_next|apply same_tasks_link_prev]. }
  assert (forall j, j ∉ ls i -> (removed s i t l1 l2).1 !! j = s.1 !! j) as Hframe.
  { intros j Hj. rewrite El in Hj.
    assert (forall a, last l1 = Some a -> a <> j) as H1.
    { intros a Ha%last_Some_elem_of ->. set_solver. }
    assert (forall a, hd_error l2 = Some a -> a <> j) as H2.
    { intros a Ha ->. destruct l2; [done|]. injection Ha as ->. set_solver. }
    unfold removed. cbn [fst]. by rewrite (proj2 (link_lookup_ne (P := unit) _ _ _ j H2)), (proj1 (link_lookup_ne (P := unit) _ _ _ j H1)). }
  assert (seg (removed s i t l1 l2).1 None (chain (l1 ++ l2)) None) as Hseg.
  { rewrite !chain_app in *. apply seg_app in Hs as [S1 [_ S2]]. unfold removed. cbn [fst].
    rewrite <- (last_chain l1). replace (hd_error l2) with (first (chain l2) None) by (by destruct l2).
    apply seg_app. eapply seg_relink; [by rewrite <- chain_app, chain_fst|exact S1|exact S2]. }
  split_and!; [|done|done]. unfold removed.
  destruct (pr_bits _ _ HR) as [B0 B].
  assert (forall k, 0 <= k -> Z.testbit (prio_bitmap s.2) k
    = if decide (k = Z.of_nat i) then bool_decide (l1 ++ l2 <> []) else Z.testbit (prio_bitmap s.2) k) as Hbits.
  { intros k Hk. case_decide; [|done]. subst. rewrite B, Nat2Z.id, El by lia. destruct l1, l2; done. }
  assert (last (l1 ++ t :: l2) = last (l1 ++ l2)) as Elast.
  { destruct l2 as [|y l2] using rev_ind; [done|]. by rewrite app_comm_cons, !app_assoc, !last_snoc. }
  assert (forall x, x ∈ l1 ++ l2 -> x ∈ ls i \/ exists tk, s.1 !! x = Some tk /\ prio tk = Z.of_nat i) as Hin.
  { intros x Hx. left. rewrite El. set_solver. }
  assert (forall j, j <> i -> seg s.1 None (chain (ls j)) None -> seg (removed s i t l1 l2).1 None (chain (ls j)) None) as Hoth.
  { intros j Hj. apply (seg_other_prio s ls i j _ HR Hj). intros x Hx _. by apply Hframe. }
  destruct l1 as [|x l1].
  - eapply (repr_upd s); try done; by split.
  - destruct s as [st [qs bm]]. eapply (repr_upd (st, mkPQ qs bm) ls _ qs bm i q); try done.
    + simpl in *. by rewrite list_insert_id.
    + split; [done|by rewrite Hh|by rewrite Hl, Elast|done].
Qed.

End representation.

(** ** The queue as an abstract data type

    The specification of a priority queue: a list of tasks per priority. *)

Section specification.

Context (pr : nat -> option nat).
Implicit Types (ls : nat -> list nat).

Inductive Op := Push (t : nat) | Pop | PopWithPrio (p : nat) | Remove (t : nat).

(** The highest priority below [n] with a waiting task. *)
Fixpoint highest (n : nat) ls : option nat :=
  match n with
  | O => None
  | S n' => match ls n' with [] => highest n' ls | _ => Some n' end
  end.

Definition spec_pop_from ls (i : nat) : option nat * (nat -> list nat) :=
  match ls i with
  | [] => (None, ls)
  | t :: l => (Some t, upd i l ls)
  end.

Definition spec_step ls (o : Op) : option nat * (nat -> list nat) :=
  match o with
  | Push t => match pr t with Some i => (None, upd i (ls i ++ [t]) ls) | None => (None, ls) end
  | Pop => match highest NO_PRIORITIES ls with Some i => spec_pop_from ls i | None => (None, ls) end
  | PopWithPrio p =>
      match highest NO_PRIORITIES ls with
      | Some i => if (p <=? i)%nat then spec_pop_from ls i else (None, ls)
      | None => (None, ls)
      end
  | Remove t => match pr t with Some i => (None, upd i (filter (fun x => x <> t) (ls i)) ls) | None => (None, ls) end
  end.

(** A task may be pushed when its priority is legal and it does not wait yet;
    it may be removed unless it is the last of its list. *)
Definition legal ls (o : Op) : bool :=
  match o with
  | Push t => match pr t with Some i => (i <? NO_PRIORITIES)%nat && bool_decide (t ∉ ls i) | None => false end
  | Remove t => match pr t with Some i => (i <? NO_PRIORITIES)%nat && bool_decide (last (ls i) <> Some t) | None => false end
  | _ => true
  end.

Fixpoint spec_run ls (ops : list Op) : list (option nat) * (nat -> list nat) :=
  match ops with
  | [] => ([], ls)
  | o :: ops' => let r := spec_step ls o in let rs := spec_run r.2 ops' in (r.1 :: rs.1, rs.2)
  end.

Fixpoint legal_run ls (ops : list Op) : bool :=
  match ops with
  | [] => true
  | o :: ops' => legal ls o && legal_run (spec_step ls o).2 ops'
  end.

End specification.

Definition exec_op (o : Op) : M TQ (option nat) :=
  match o with
  | Push t => pq_push t ;;; ret None
  | Pop => pq_pop
  | PopWithPrio p => pq_pop_with_prio (Z.of_nat p)
  | Remove t => pq_remove t ;;; ret None
  end.

Fixpoint exec (ops : list Op) : M TQ (list (option nat)) :=
  match ops with
  | [] => ret []
  | o :: ops' => let! r := exec_op o in let! rs := exec ops' in ret (r :: rs)
  end.

Definition task_prio (st : Tasks) (t : nat) : option nat := (fun tk => Z.to_nat (prio tk)) <$> st !! t.

Lemma task_prio_same st st' t : same_tasks st st' -> task_prio st' t = task_prio st t.
Proof.
  intros Hs. specialize (Hs t). unfold task_prio. destruct (st !! t) as [a|], (st' !! t) as [b|]; simpl in *; try done.
  replace (prio b) with (prio a); [done|]. change (prio (unlink a) = prio (unlink b)). congruence.
Qed.

Section refinement.

Implicit Types (s : TQ) (ls : nat -> list nat).

(** Priorities are [u8]s. *)
Definition prios_ok (st : Tasks) : Prop := forall t tk, st !! t = Some tk -> 0 <= prio tk.

Lemma prios_ok_same st st' : same_tasks st st' -> prios_ok st -> prios_ok st'.
Proof.
  intros Hs Hok t tk E. specialize (Hs t). rewrite E in Hs. destruct (st !! t) as [tk0|] eqn:E0; [|done].
  simpl in Hs. apply (Hok t tk0) in E0. replace (prio tk) with (prio tk0); [done|].
  change (prio (unlink tk0) = prio (unlink tk)). congruence.
Qed.

Lemma task_prio_Some st t i : prios_ok st -> task_prio st t = Some i -> exists tk, st !! t = Some tk /\ prio tk = Z.of_nat i.
Proof.
  intros Hok. unfold task_prio. destruct (st !! t) as [tk|] eqn:E; [|done]. simpl. intros [= <-].
  exists tk. split; [done|]. rewrite Z2Nat.id; [done|by eapply Hok].
Qed.

Lemma highest_spec n ls :
  match highest n ls with
  | Some i => (i < n)%nat /\ ls i <> [] /\ forall j, (i < j < n)%nat -> ls j = []
  | None => forall j, (j < n)%nat -> ls j = []
  end.
Proof.
  induction n as [|n IH]; simpl; [lia|]. destruct (ls n) as [|t l] eqn:E.
  - destruct (highest n ls) as [i|].
    + destruct IH as (H1 & H2 & H3). split_and!; [lia|done|]. intros j Hj.
      destruct (decide (j = n)) as [->|]; [done|]. apply H3. lia.
    + intros j Hj. destruct (decide (j = n)) as [->|]; [done|]. apply IH. lia.
  - split_and!; [lia|by rewrite E|lia].
Qed.

(** The bit scan finds what the specification looks for. *)
Lemma msb_highest s ls : pq_repr s ls -> msb (prio_bitmap s.2) = Z.of_nat <$> highest NO_PRIORITIES ls.
Proof.
  intros HR. pose proof (msb_spec s ls HR) as Hm. pose proof (highest_spec NO_PRIORITIES ls) as Hh.
  destruct (msb (prio_bitmap s.2)) as [b|], (highest NO_PRIORITIES ls) as [i|]; simpl; [| | |done].
  - destruct Hm as (k & -> & H1 & H2 & H3). destruct Hh as (K1 & K2 & K3).
    destruct (lt_eq_lt_dec i k) as [[Hlt| ->]|Hlt]; [|done|].
    + by rewrite (K3 k) in H2 by lia.
    + by rewrite (H3 i) in K2 by lia.
  - destruct Hm as (k & -> & H1 & H2 & H3). by rewrite Hh in H2 by lia.
  - destruct Hh as (_ & K2 & _). by rewrite Hm in K2.
Qed.

Lemma pop_from_refines s ls i :
  pq_repr s ls -> (i < NO_PRIORITIES)%nat ->
  exists s', pq_pop_from_queue i s = Done ((spec_pop_from ls i).1, s')
    /\ pq_repr s' (spec_pop_from ls i).2 /\ same_tasks s.1 s'.1.
Proof.
  intros HR Hi. unfold spec_pop_from. destruct (ls i) as [|t l] eqn:E.
  - exists s. split; [by apply (pop_empty _ _ _ HR)|done].
  - exists (popped s i t l). split; [by apply (pop_eq _ _ _ _ _ HR)|].
    destruct (pop_repr s ls t i l HR Hi E) as (H1 & H2 & _). done.
Qed.

Lemma remove_loop_absent s t l fuel :
  t ∉ l -> (length l < fuel)%nat ->
  forall p, seg s.1 p (chain l) None -> remove_loop fuel (hd_error l) t s = Done (tt, s).
Proof.
  revert fuel. induction l as [|x l IH]; intros fuel Hni Hf p Hs; [by destruct fuel|].
  destruct fuel as [|fuel]; [simpl in Hf; lia|]. cbn [hd_error remove_loop].
  simpl in Hs. destruct Hs as [(tx & Ex & _ & _ & Hn) Hs]. rewrite (bind_get_task _ _ _ tx Ex).
  rewrite (proj2 (Nat.eqb_neq x t)) by set_solver. simpl in Hn. rewrite Hn.
  replace (first (chain l) None) with (hd_error l) by (by destruct l).
  apply (IH fuel) with (Some x); [set_solver|simpl in Hf; lia|done].
Qed.

Lemma remove_absent s ls t tk i :
  pq_repr s ls -> s.1 !! t = Some tk -> prio tk = Z.of_nat i -> (i < NO_PRIORITIES)%nat -> t ∉ ls i ->
  pq_remove t s = Done (tt, s).
Proof.
  intros HR Ht Hp Hi Hni. destruct (repr_queue _ _ i HR Hi) as (q & Eq & [Hnd Hh Hl Hs]).
  pose proof (queue_size s ls i HR Hi) as Hsz.
  unfold pq_remove. rewrite (bind_get_task _ _ _ _ Ht). cbv zeta. rewrite Hp, Nat2Z.id.
  rewrite (bind_get_queue _ _ _ q Eq), bind_gets, Hh.
  rewrite (bind_done _ _ _ tt s) by (by eapply remove_loop_absent; [|lia|]).
  rewrite (bind_get_queue _ _ _ q Eq), Hh. destruct (ls i) as [|x l]; [done|]. cbn [hd_error].
  by rewrite (proj2 (Nat.eqb_neq x t)) by set_solver.
Qed.

Lemma filter_absent (t : nat) (l : list nat) : t ∉ l -> filter (fun x => x <> t) l = l.
Proof.
  induction l as [|x l IH]; [done|]. intros Hni. rewrite filter_cons_True by set_solver.
  rewrite IH; [done|set_solver].
Qed.

Lemma filter_mid (t : nat) (l1 l2 : list nat) : NoDup (l1 ++ t :: l2) -> filter (fun x => x <> t) (l1 ++ t :: l2) = l1 ++ l2.
Proof.
  intros Hnd. rewrite <- Permutation_middle in Hnd. apply NoDup_cons in Hnd as [Hni _].
  rewrite filter_app, filter_cons_False by (intros H; by apply H).
  rewrite !filter_absent; [done|set_solver..].
Qed.

(** Equal lists per priority are equally represented. *)
Lemma repr_ext s ls ls' : (forall i, ls' i = ls i) -> pq_repr s ls -> pq_repr s ls'.
Proof.
  intros He [R1 R2 R3 R4]. split; [done|..].
  - intros i. rewrite He. apply R2.
  - intros i. rewrite He. apply R3.
  - destruct R4 as [R4 R5]. split; [done|]. intros i. rewrite He. apply R5.
Qed.

Lemma upd_id i ls j : upd i (ls i) ls j = ls j.
Proof. unfold upd. by case_decide as E; subst. Qed.

Lemma op_refines s ls o :
  pq_repr s ls -> prios_ok s.1 -> legal (task_prio s.1) ls o = true ->
  exists s', exec_op o s = Done ((spec_step (task_prio s.1) ls o).1, s')
    /\ pq_repr s' (spec_step (task_prio s.1) ls o).2 /\ same_tasks s.1 s'.1.
Proof.
  intros HR Hok Hlegal. destruct o as [t| |p|t]; cbn [legal exec_op spec_step] in *.
  - destruct (task_prio s.1 t) as [i|] eqn:E; [|done].
    apply andb_true_iff in Hlegal as [Hi%Nat.ltb_lt Hni%bool_decide_eq_true].
    destruct (task_prio_Some _ _ _ Hok E) as (tk & Ht & Hp).
    destruct (push_spec s ls t tk i HR Ht Hp Hi Hni) as (s' & Es & HR' & Hs & _).
    exists s'. by rewrite (bind_done _ _ _ _ _ Es).
  - unfold pq_pop. rewrite bind_gets, (msb_highest s ls HR).
    pose proof (highest_spec NO_PRIORITIES ls) as Hh. destruct (highest NO_PRIORITIES ls) as [i|]; cbn [fmap option_fmap option_map].
    + rewrite Nat2Z.id. apply pop_from_refines; [done|apply Hh].
    + by exists s.
  - unfold pq_pop_with_prio. rewrite bind_gets, (msb_highest s ls HR).
    pose proof (highest_spec NO_PRIORITIES ls) as Hh. destruct (highest NO_PRIORITIES ls) as [i|]; cbn [fmap option_fmap option_map]; [|by exists s].
    rewrite Nat2Z.id. destruct (Nat.leb_spec p i), (Z.leb_spec (Z.of_nat p) (Z.of_nat i)); try lia; [|by exists s].
    apply pop_from_refines; [done|apply Hh].
  - destruct (task_prio s.1 t) as [i|] eqn:E; [|done].
    apply andb_true_iff in Hlegal as [Hi%Nat.ltb_lt Hlast%bool_decide_eq_true].
    destruct (task_prio_Some _ _ _ Hok E) as (tk & Ht & Hp).
    destruct (decide (t ∈ ls i)) as [Hin|Hni].
    + destruct (list_elem_of_split _ _ Hin) as (l1 & l2 & El).
      assert (l2 <> []) as Hl2 by (intros ->; rewrite El, last_snoc in Hlast; done).
      destruct (repr_queue _ _ i HR Hi) as (q & _ & [Hnd _ _ _]). rewrite El, filter_mid by (by rewrite <- El).
      destruct (pq_remove_repr s ls t i l1 l2 HR Hi El Hl2) as (H1 & H2 & _).
      exists (removed s i t l1 l2). by rewrite (bind_done _ _ _ _ _ (remove_eq s ls t i l1 l2 HR Hi El Hl2)).
    + exists s. rewrite (bind_done _ _ _ _ _ (remove_absent s ls t tk i HR Ht Hp Hi Hni)), filter_absent by done.
      split_and!; [done| |done]. apply (repr_ext s ls); [|done]. intros j. apply upd_id.
Qed.

Lemma spec_run_ext pr pr' : (forall t, pr' t = pr t) -> forall ops ls,
  spec_run pr' ls ops = spec_run pr ls ops /\ legal_run pr' ls ops = legal_run pr ls ops.
Proof.
  intros He. induction ops as [|o ops IH]; intros ls; [done|]. simpl.
  replace (spec_step pr' ls o) with (spec_step pr ls o) by (destruct o; simpl; rewrite ?He; done).
  replace (legal pr' ls o) with (legal pr ls o) by (destruct o; simpl; rewrite ?He; done).
  by rewrite (proj1 (IH _)), (proj2 (IH _)).
Qed.

Lemma ops_refine ops : forall s ls,
  pq_repr s ls -> prios_ok s.1 -> legal_run (task_prio s.1) ls ops = true ->
  exists s', exec ops s = Done ((spec_run (task_prio s.1) ls ops).1, s')
    /\ pq_repr s' (spec_run (task_prio s.1) ls ops).2 /\ same_tasks s.1 s'.1.
Proof.
  induction ops as [|o ops IH]; intros s ls HR Hok Hl; [by exists s|].
  cbn [legal_run] in Hl. apply andb_true_iff in Hl as [Ho Hl].
  destruct (op_refines s ls o HR Hok Ho) as (s1 & E1 & R1 & S1).
  pose proof (spec_run_ext _ _ (fun t => task_prio_same _ _ t S1)) as Heq.
  destruct (IH s1 _ R1 (prios_ok_same _ _ S1 Hok)) as (s' & E' & R' & S'); [by rewrite (proj2 (Heq _ _))|].
  exists s'. rewrite (proj1 (Heq _ _)) in E', R'. cbn [exec spec_run fst snd].
  rewrite (bind_done _ _ _ _ _ E1), (bind_done _ _ _ _ _ E'). split_and!; [done..|]. by eapply same_tasks_trans.
Qed.

Lemma new_repr st : pq_repr (st, PriorityTaskQueue_new) (fun _ => []).
Proof.
  split; simpl; [done| | |].
  - intros i q Hq. apply (list_elem_of_lookup_2 (A := QueueHead) (replicate NO_PRIORITIES QueueHead_new)) in Hq.
    apply elem_of_replicate in Hq as [-> _]. split; try done. constructor.
  - intros i t Ht. by apply elem_of_nil in Ht.
  - split; [done|]. intros i Hi. by rewrite Z.bits_0.
Qed.

(** The tasks of the priorities below [n], the highest first. *)
Fixpoint drain_order (n : nat) ls : list nat :=
  match n with O => [] | S n' => ls n' ++ drain_order n' ls end.

Lemma drain_none n ls : highest n ls = None -> drain_order n ls = [].
Proof. induction n as [|n IH]; simpl; [done|]. by destruct (ls n). Qed.

Lemma drain_ext n ls ls' : (forall i, (i < n)%nat -> ls' i = ls i) -> drain_order n ls' = drain_order n ls.
Proof. induction n as [|n IH]; intros He; [done|]. simpl. rewrite He, IH by auto with lia. done. Qed.

Lemma drain_some n ls i :
  highest n ls = Some i ->
  exists t l, ls i = t :: l /\ drain_order n ls = t :: drain_order n (upd i l ls).
Proof.
  induction n as [|n IH]; simpl; [done|]. destruct (ls n) as [|t l] eqn:E; intros H.
  - destruct (IH H) as (t & l & E1 & E2). exists t, l. split; [done|].
    rewrite upd_ne by (intros ->; by rewrite E in E1). by rewrite E, E2.
  - injection H as <-. exists t, l. split; [done|]. rewrite upd_eq. simpl. f_equal. f_equal.
    apply drain_ext. intros i Hi. rewrite upd_ne by lia. done.
Qed.

Lemma spec_run_pops pr : forall n ls, n = length (drain_order NO_PRIORITIES ls) ->
  (spec_run pr ls (replicate n Pop)).1 = Some <$> drain_order NO_PRIORITIES ls
  /\ drain_order NO_PRIORITIES (spec_run pr ls (replicate n Pop)).2 = []
  /\ legal_run pr ls (replicate n Pop) = true.
Proof.
  induction n as [|n IH]; intros ls Hn.
  - symmetry in Hn. apply nil_length_inv in Hn. rewrite Hn. done.
  - destruct (highest NO_PRIORITIES ls) as [i|] eqn:E; [|by rewrite (drain_none _ _ E) in Hn].
    destruct (drain_some _ _ _ E) as (t & l & E1 & E2). rewrite E2 in Hn. injection Hn as Hn.
    destruct (IH _ Hn) as (H1 & H2 & H3).
    cbn [replicate spec_run legal_run legal fst snd spec_step]. rewrite E. unfold spec_pop_from. rewrite E1.
    cbn [fst snd]. rewrite H1, E2. done.
Qed.

(** C10. The priority queue refines lists per priority, for its pushes, its pops and
    the removals of tasks that are not the last of their list: whatever of these
    operations are executed on a new [PriorityTaskQueue] - pushes of tasks that do
    not wait, pops, pops above a priority, such removals - they succeed, return
    what the lists return (the head of the highest nonempty list), and leave the
    heads, tails, links and bitmap representing those lists; tasks change in their
    links only. The removal of the last task of a list, which [Semaphore::acquire]
    does when it times out, is not among them: what it breaks is stated below, in
    [remove_of_last_task_loses_tasks]. *)
Theorem queue_refines_lists (st : Tasks) (ops : list Op) :
  prios_ok st -> legal_run (task_prio st) (fun _ => []) ops = true ->
  exists s', exec ops (st, PriorityTaskQueue_new) = Done ((spec_run (task_prio st) (fun _ => []) ops).1, s')
    /\ pq_repr s' (spec_run (task_prio st) (fun _ => []) ops).2 /\ same_tasks st s'.1.
Proof. intros Hok Hl. by apply (ops_refine ops (st, PriorityTaskQueue_new)); [apply new_repr|..]. Qed.

(** Tasks come out by priority, and in the order they went in among equal
    priorities: popping as often as tasks wait returns the lists of the
    priorities one after the other, from the highest down, and empties the
    queue, so no waiting task is lost. *)
Theorem pops_drain_by_priority s ls :
  pq_repr s ls -> prios_ok s.1 ->
  exists s', exec (replicate (length (drain_order NO_PRIORITIES ls)) Pop) s
      = Done (Some <$> drain_order NO_PRIORITIES ls, s')
    /\ exists ls', pq_repr s' ls' /\ drain_order NO_PRIORITIES ls' = [].
Proof.
  intros HR Hok. destruct (spec_run_pops (task_prio s.1) _ ls eq_refl) as (H1 & H2 & H3).
  destruct (ops_refine _ s ls HR Hok H3) as (s' & E & R & _). exists s'. rewrite <- H1. split; [done|].
  by eexists.
Qed.

End refinement.

(** ** Concrete queues *)

Definition sample_task (tid p : Z) : Task :=
  mkTask tid TaskReady p 0 0 0 [] 0 (mkStacks false 0 0 0 0) None None DoublyLinkedList_new None Custom.

Definition sample_tasks : Tasks :=
  <[1%nat := sample_task 1 2]> (<[2%nat := sample_task 2 2]> (<[3%nat := sample_task 3 2]> (<[4%nat := sample_task 4 1]> ∅))).

Definition sample_ops : list Op :=
  [Push 1; Push 4; Push 2; Push 3; Remove 2; PopWithPrio 2; PopWithPrio 2; PopWithPrio 2; Pop; Pop]%nat.

Lemma sample_prios : prios_ok sample_tasks.
Proof.
  intros t tk. unfold sample_tasks. rewrite !lookup_insert_Some, lookup_empty. intros H.
  repeat destruct H as [[_ <-]|[_ H]]; done.
Qed.

Lemma queue_refines_lists_witness :
  (spec_run (task_prio sample_tasks) (fun _ => []) sample_ops).1
    = [None; None; None; None; None; Some 1; Some 3; None; Some 4; None]%nat
  /\ exists s', exec sample_ops (sample_tasks, PriorityTaskQueue_new)
    = Done ((spec_run (task_prio sample_tasks) (fun _ => []) sample_ops).1, s')
    /\ pq_repr s' (spec_run (task_prio sample_tasks) (fun _ => []) sample_ops).2 /\ same_tasks sample_tasks s'.1.
Proof.
  split; [vm_compute; reflexivity|].
  apply (queue_refines_lists sample_tasks sample_ops sample_prios). vm_compute. reflexivity.
Defined.

(** [remove] never updates the tail, so removing the last task of a
    priority breaks the queue: a task pushed next to it is linked behind the
    task that was removed and is never popped; when the removed task was the
    only one, the bit of the priority stays set besides, so that [pop] returns
    nothing although a task of lower priority waits. The specification returns
    every task. *)
Theorem remove_of_last_task_loses_tasks :
  exists s1 s2,
    exec [Push 1; Push 2; Remove 2; Push 3; Pop; Pop]%nat (sample_tasks, PriorityTaskQueue_new)
      = Done ([None; None; None; None; Some 1; None]%nat, s1)
    /\ (spec_run (task_prio sample_tasks) (fun _ => []) [Push 1; Push 2; Remove 2; Push 3; Pop; Pop]%nat).1
      = [None; None; None; None; Some 1; Some 3]%nat
    /\ exec [Push 4; Push 1; Remove 1; Push 3; Pop; Pop]%nat (sample_tasks, PriorityTaskQueue_new)
      = Done ([None; None; None; None; None; None], s2)
    /\ (spec_run (task_prio sample_tasks) (fun _ => []) [Push 4; Push 1; Remove 1; Push 3; Pop; Pop]%nat).1
      = [None; None; None; None; Some 3; Some 4]%nat.
Proof. eexists _, _. split_and!; vm_compute; reflexivity. Qed.

Definition sample_waiting : nat -> list nat :=
  (spec_run (task_prio sample_tasks) (fun _ => []) [Push 4; Push 1; Push 2; Push 3]%nat).2.

Lemma pops_drain_by_priority_witness :
  exists s, pq_repr s sample_waiting
  /\ exists s', exec (replicate (length (drain_order NO_PRIORITIES sample_waiting)) Pop) s
      = Done ([Some 1; Some 2; Some 3; Some 4]%nat, s')
    /\ exists ls', pq_repr s' ls' /\ drain_order NO_PRIORITIES ls' = [].
Proof.
  destruct (ops_refine [Push 4; Push 1; Push 2; Push 3]%nat (sample_tasks, PriorityTaskQueue_new) _ (new_repr _) sample_prios)
    as (s & _ & HR & Hs); [vm_compute; reflexivity|].
  exists s. split; [exact HR|]. change ([Some 1; Some 2; Some 3; Some 4]%nat) with (Some <$> drain_order NO_PRIORITIES sample_waiting).
  apply (pops_drain_by_priority s sample_waiting HR). exact (prios_ok_same _ _ Hs sample_prios).
Defined.
