(* ===== verification/Spinlock.v ===== *)
(** * Ticket locks: src/synch/spinlock.rs

    [Spinlock] and [SpinlockIrqSave] as machines of interleaved cores: every
    atomic operation of [obtain_lock] and [drop], every read and every write of
    the protected data is a step of its own, and a schedule says which core
    makes the next step. Atomics are [SeqCst], so the steps interleave in one
    order. A schedule may be any list of core numbers. *)

From stdpp Require Import base numbers list.
From Stdlib Require Import ZArith Lia.
From S2P Require Import Prelude.

#[local] Open Scope Z_scope.

(** ** The lock *)

(** Both types: a plain [Spinlock] has no [irq] and leaves it [false]. *)
Inductive Kind := Plain | IrqSave.

#[export] Instance Kind_eq_dec : EqDecision Kind.
Proof. solve_decision. Defined.

Record Lock (T : Type) := mkLock { queue : Z; dequeue : Z; irq : bool; data : T }.
Arguments mkLock {T}.
Arguments queue {T}.
Arguments dequeue {T}.
Arguments irq {T}.
Arguments data {T}.

Section lock.
Context {T : Type}.

(** [Spinlock::new] and [SpinlockIrqSave::new] *)
Definition Lock_new (user_data : T) : Lock T := mkLock 0 1 false user_data.

(** [self.queue.fetch_add(1) + 1]: the atomic addition wraps around, the other
    one panics. *)
Definition take_ticket (l : Lock T) : outcome (Z * Lock T) :=
  let? ticket := add64 (queue l) 1 in
  Done (ticket, mkLock ((queue l + 1) mod W64) (dequeue l) (irq l) (data l)).

(** [self.dequeue.load() == ticket] *)
Definition my_turn (l : Lock T) (ticket : Z) : bool := dequeue l =? ticket.

(** [self.irq.store(irq)], [self.irq.swap(false)] *)
Definition store_irq (b : bool) (l : Lock T) : Lock T := mkLock (queue l) (dequeue l) b (data l).
Definition swap_irq (l : Lock T) : bool * Lock T := (irq l, store_irq false l).

(** [self.dequeue.fetch_add(1)] *)
Definition next_ticket (l : Lock T) : Lock T := mkLock (queue l) ((dequeue l + 1) mod W64) (irq l) (data l).

Definition set_data (v : T) (l : Lock T) : Lock T := mkLock (queue l) (dequeue l) (irq l) v.

(** ** Cores

    A core executes a list of updates, each as
    [let mut g = lock.lock(); let v = *g; *g = f v], after which [g] is dropped. *)

Inductive Pc :=
  | Outside
  | IrqOff (was : bool)          (* after [nested_disable] *)
  | Spin (was : bool) (ticket : Z) (* in the loop of [obtain_lock] *)
  | Won (was : bool)             (* after the loop *)
  | Critical                     (* the guard exists *)
  | Reading (v : T)              (* [*g] was read *)
  | Written                      (* [*g] was written, [drop] begins *)
  | Dropped (was : bool)         (* after [self.irq.swap] *)
  | Released (was : bool).       (* after [self.dequeue.fetch_add] *)

(** [interrupts] is the flag IF of the core. *)
Record Core := mkCore { pc : Pc; prog : list (T -> T); interrupts : bool }.

Record Sys := mkSys { lock : Lock T; cores : list Core }.

(** What a step did, for the statements about orders. *)
Inductive Event := Took (c : nat) | Wrote (c : nat) (f : T -> T).

Definition nested_disable (k : Core) : bool * Core := (interrupts k, mkCore (pc k) (prog k) false).
Definition nested_enable (was : bool) (k : Core) : Core :=
  mkCore (pc k) (prog k) (if was then true else interrupts k).
Definition goto (p : Pc) (k : Core) : Core := mkCore p (prog k) (interrupts k).

(** A step of the [drop] of the guard. *)
Definition drop_step (kind : Kind) (l : Lock T) (k : Core) : outcome (Lock T * Core * list Event) :=
  match pc k with
  | Written =>
      match kind with
      | Plain => Done (next_ticket l, goto Outside k, [])
      | IrqSave => let r := swap_irq l in Done (r.2, goto (Dropped r.1) k, [])
      end
  | Dropped was => Done (next_ticket l, goto (Released was) k, [])
  | Released was => Done (l, goto Outside (nested_enable was k), [])
  | _ => Done (l, k, [])
  end.

(** One step of a core: the lock, the core and the events after it. *)
Definition core_step (kind : Kind) (c : nat) (l : Lock T) (k : Core) : outcome (Lock T * Core * list Event) :=
  match pc k with
  | Outside =>
      match prog k, kind with
      | [], _ => Done (l, k, [])
      | _, Plain => let? r := take_ticket l in Done (r.2, goto (Spin false r.1) k, [Took c])
      | _, IrqSave => let r := nested_disable k in Done (l, goto (IrqOff r.1) r.2, [])
      end
  | IrqOff was => let? r := take_ticket l in Done (r.2, goto (Spin was r.1) k, [Took c])
  | Spin was ticket =>
      if my_turn l ticket then
        Done (l, goto (match kind with Plain => Critical | IrqSave => Won was end) k, [])
      else Done (l, k, [])
  | Won was => Done (store_irq was l, goto Critical k, [])
  | Critical => Done (l, goto (Reading (data l)) k, [])
  | Reading v =>
      match prog k with
      | f :: prog' => Done (set_data (f v) l, mkCore Written prog' (interrupts k), [Wrote c f])
      | [] => Done (l, k, [])
      end
  | Written | Dropped _ | Released _ => drop_step kind l k
  end.

Definition step (kind : Kind) (c : nat) (s : Sys) : outcome (Sys * list Event) :=
  match cores s !! c with
  | Some k =>
      let? r := core_step kind c (lock s) k in
      Done (mkSys r.1.1 (<[c := r.1.2]> (cores s)), r.2)
  | None => Done (s, [])
  end.

Fixpoint run (kind : Kind) (sched : list nat) (s : Sys) : outcome (Sys * list Event) :=
  match sched with
  | [] => Done (s, [])
  | c :: sched' =>
      let? r := step kind c s in
      let? rs := run kind sched' r.1 in
      Done (rs.1, r.2 ++ rs.2)
  end.

(** The cores before they start, with their updates and interrupt flags. *)
Definition start (v : T) (ps : list (list (T -> T) * bool)) : Sys :=
  mkSys (Lock_new v) ((fun p => mkCore Outside p.1 p.2) <$> ps).

End lock.
Arguments Pc T : clear implicits.
Arguments Core T : clear implicits.
Arguments Sys T : clear implicits.
Arguments Event T : clear implicits.

(** ** Tickets *)

Section invariants.
Context {T : Type}.
Implicit Types (l : Lock T) (k : Core T) (cs : list (Core T)) (s : Sys T) (evs : list (Event T)).

(** Between winning the lock and passing it on. *)
Definition holds (p : Pc T) : bool :=
  match p with Won _ | Critical | Reading _ | Written | Dropped _ => true | _ => false end.
Definition written (p : Pc T) : bool :=
  match p with Written | Dropped _ => true | _ => false end.

(** The ticket of a core, when [d] is the ticket being served. *)
Definition ticket_of (d : Z) k : option Z :=
  match pc k with
  | Spin _ t => Some t
  | p => if holds p then Some d else None
  end.

Definition takers evs : list nat := omap (fun e => match e with Took c => Some c | _ => None end) evs.
Definition writes evs : list (nat * (T -> T)) :=
  omap (fun e => match e with Wrote c f => Some (c, f) | _ => None end) evs.

(** Every ticket from the one being served on is held by the core that took
    it; [tk] lists the cores in the order of their tickets. *)
Record tickets_ok cs (q d : Z) (tk : list nat) : Prop := {
  tk_count : q = Z.of_nat (length tk);
  tk_bounds : 1 <= d <= q + 1;
  tk_owned : forall c k t, cs !! c = Some k -> ticket_of d k = Some t -> d <= t <= q /\ tk !! Z.to_nat (t - 1) = Some c;
  tk_held : forall t, d <= t <= q -> exists c k, cs !! c = Some k /\ ticket_of d k = Some t
}.

Lemma insert_cases cs c k' i k :
  <[c := k']> cs !! i = Some k -> (i = c /\ k = k') \/ (i <> c /\ cs !! i = Some k).
Proof.
  destruct (decide (i = c)) as [->|Hn].
  - intros H. left. split; [done|]. apply list_lookup_insert_Some in H. naive_solver.
  - rewrite list_lookup_insert_ne by done. by right.
Qed.

Lemma tickets_unique cs q d tk c1 c2 k1 k2 t :
  tickets_ok cs q d tk -> cs !! c1 = Some k1 -> cs !! c2 = Some k2 ->
  ticket_of d k1 = Some t -> ticket_of d k2 = Some t -> c1 = c2.
Proof.
  intros H H1 H2 T1 T2. destruct (tk_owned _ _ _ _ H _ _ _ H1 T1) as [_ E1].
  destruct (tk_owned _ _ _ _ H _ _ _ H2 T2) as [_ E2]. congruence.
Qed.

Lemma holds_ticket d k : holds (pc k) = true -> ticket_of d k = Some d.
Proof. unfold ticket_of. by destruct (pc k). Qed.

Lemma tickets_local cs q d tk c k k' :
  tickets_ok cs q d tk -> cs !! c = Some k -> ticket_of d k' = ticket_of d k ->
  tickets_ok (<[c := k']> cs) q d tk.
Proof.
  intros [H1 H2 H3 H4] Hc Ht. split; [done..| |].
  - intros i ki t [[-> ->]|[Hn Hi]]%insert_cases Hti; [|by apply (H3 i ki)].
    rewrite Ht in Hti. by apply (H3 c k).
  - intros t Htb. destruct (H4 t Htb) as (i & ki & Hi & Hti). destruct (decide (i = c)) as [->|Hn].
    + exists c, k'. rewrite list_lookup_insert_eq by (by eapply lookup_lt_Some). split; [done|]. congruence.
    + exists i, ki. by rewrite list_lookup_insert_ne.
Qed.

Lemma tickets_take cs q d tk c k k' :
  tickets_ok cs q d tk -> cs !! c = Some k -> ticket_of d k = None -> ticket_of d k' = Some (q + 1) ->
  tickets_ok (<[c := k']> cs) (q + 1) d (tk ++ [c]).
Proof.
  intros [H1 H2 H3 H4] Hc Ht Ht'. split.
  - rewrite length_app. simpl. lia.
  - lia.
  - intros i ki t [[-> ->]|[Hn Hi]]%insert_cases Hti.
    + rewrite Ht' in Hti. injection Hti as <-. split; [lia|]. apply list_lookup_middle. lia.
    + destruct (H3 i ki t Hi Hti) as [Hb E]. split; [lia|]. by eapply lookup_app_l_Some.
  - intros t Htb. destruct (decide (t = q + 1)) as [->|Hq].
    + exists c, k'. rewrite list_lookup_insert_eq by (by eapply lookup_lt_Some). done.
    + destruct (H4 t) as (i & ki & Hi & Hti); [lia|]. exists i, ki. rewrite list_lookup_insert_ne; [done|].
      intros ->. congruence.
Qed.

Lemma ticket_of_served d d' k : holds (pc k) = false -> ticket_of d k = ticket_of d' k.
Proof. unfold ticket_of. by destruct (pc k). Qed.

Lemma tickets_release cs q d tk c k k' :
  tickets_ok cs q d tk -> cs !! c = Some k -> holds (pc k) = true -> ticket_of (d + 1) k' = None ->
  tickets_ok (<[c := k']> cs) q (d + 1) tk.
Proof.
  intros HT Hc Hh Ht'. pose proof (holds_ticket d k Hh) as Htk.
  destruct (tk_owned _ _ _ _ HT c k d Hc Htk) as [Hd _].
  assert (forall i ki, i <> c -> cs !! i = Some ki -> ticket_of (d + 1) ki = ticket_of d ki) as Hoth.
  { intros i ki Hn Hi. apply ticket_of_served. destruct (holds (pc ki)) eqn:E; [|done].
    destruct Hn. eapply (tickets_unique cs q d tk i c); [done..|by apply holds_ticket|done]. }
  destruct HT as [H1 H2 H3 H4]. split; [done|lia| |].
  - intros i ki t [[-> ->]|[Hn Hi]]%insert_cases Hti; [congruence|].
    rewrite (Hoth i ki Hn Hi) in Hti. destruct (H3 i ki t Hi Hti) as [Hb E]. split; [|done].
    destruct (decide (t = d)) as [->|]; [|lia]. destruct Hn.
    eapply (tickets_unique cs q d tk i c); [by split|done..].
  - intros t Htb. destruct (H4 t) as (i & ki & Hi & Hti); [lia|].
    assert (i <> c) as Hn by (intros ->; rewrite Hc in Hi; injection Hi as <-; rewrite Htk in Hti; injection Hti; lia).
    exists i, ki. rewrite list_lookup_insert_ne by done. split; [done|]. by rewrite (Hoth i ki Hn Hi).
Qed.

(** ** Writes: the cores that wrote are those served so far *)

Record writes_ok cs (d : Z) (tk : list nat) (w : list nat) : Prop := {
  wr_some : forall c k, cs !! c = Some k -> written (pc k) = true -> w = take (Z.to_nat d) tk;
  wr_none : (forall c k, cs !! c = Some k -> written (pc k) = false) -> w = take (Z.to_nat (d - 1)) tk
}.

Lemma written_holds p : written p = true -> holds p = true.
Proof. by destruct p. Qed.

Lemma writes_local cs d tk w c k k' :
  writes_ok cs d tk w -> cs !! c = Some k -> written (pc k') = written (pc k) ->
  writes_ok (<[c := k']> cs) d tk w.
Proof.
  intros [H1 H2] Hc Hw. split.
  - intros i ki [[-> ->]|[Hn Hi]]%insert_cases Hwi; [|by apply (H1 i ki)].
    apply (H1 c k Hc). congruence.
  - intros Hall. apply H2. intros i ki Hi. destruct (decide (i = c)) as [->|Hn].
    + rewrite Hc in Hi. injection Hi as <-. rewrite <- Hw. apply (Hall c).
      apply list_lookup_insert_eq. by eapply lookup_lt_Some.
    + apply (Hall i). by rewrite list_lookup_insert_ne.
Qed.

(** While the ticket [d] is out, taking another one does not matter. *)
Lemma writes_take cs q d tk w c :
  tickets_ok cs q d tk -> writes_ok cs d tk w -> writes_ok cs d (tk ++ [c]) w.
Proof.
  intros HT [H1 H2]. pose proof (tk_bounds _ _ _ _ HT). pose proof (tk_count _ _ _ _ HT). split.
  - intros i k Hi Hw. destruct (tk_owned _ _ _ _ HT i k d Hi) as [Hb _]; [by apply holds_ticket, written_holds|].
    rewrite take_app_le by lia. by apply (H1 i k).
  - intros Hall. rewrite take_app_le by lia. by apply H2.
Qed.

Lemma writes_write cs q d tk w c k k' :
  tickets_ok cs q d tk -> writes_ok cs d tk w -> cs !! c = Some k ->
  holds (pc k) = true -> written (pc k) = false -> written (pc k') = true ->
  writes_ok (<[c := k']> cs) d tk (w ++ [c]).
Proof.
  intros HT [H1 H2] Hc Hh Hw Hw'. destruct (tk_owned _ _ _ _ HT c k d Hc (holds_ticket d k Hh)) as [Hb E].
  pose proof (tk_bounds _ _ _ _ HT).
  assert (w ++ [c] = take (Z.to_nat d) tk) as Heq.
  { rewrite H2.
    - replace (Z.to_nat d) with (S (Z.to_nat (d - 1))) by lia. symmetry. by apply take_S_r.
    - intros i ki Hi. destruct (written (pc ki)) eqn:Ei; [|done].
      assert (i = c) as -> by (eapply (tickets_unique cs q d tk i c); [done..|by apply holds_ticket, written_holds|by apply holds_ticket]).
      congruence. }
  split; [done|]. intros Hall. rewrite (Hall c k') in Hw'; [done|].
  apply list_lookup_insert_eq. by eapply lookup_lt_Some.
Qed.

Lemma writes_release cs q d tk w c k k' :
  tickets_ok cs q d tk -> writes_ok cs d tk w -> cs !! c = Some k ->
  written (pc k) = true -> written (pc k') = false ->
  writes_ok (<[c := k']> cs) (d + 1) tk w.
Proof.
  intros HT [H1 H2] Hc Hw Hw'. split.
  - intros i ki [[-> ->]|[Hn Hi]]%insert_cases Hwi; [congruence|]. destruct Hn.
    eapply (tickets_unique cs q d tk i c); [done..|by apply holds_ticket, written_holds|by apply holds_ticket, written_holds].
  - intros _. replace (d + 1 - 1) with d by lia. by apply (H1 c k).
Qed.

End invariants.

(** ** The invariant of the machine *)

Section machine.
Context {T : Type} (kind : Kind) (ps : list (list (T -> T) * bool)) (v0 : T).
Implicit Types (l : Lock T) (k : Core T) (cs : list (Core T)) (s : Sys T) (evs e : list (Event T)).

(** The updates of core [c] that were written. *)
Definition mine (c : nat) evs : list (T -> T) := snd <$> filter (fun w => w.1 = c) (writes evs).

(** In an update, which has not been written yet; and with a ticket. *)
Definition busy (p : Pc T) : bool :=
  match p with IrqOff _ | Spin _ _ | Won _ | Critical | Reading _ => true | _ => false end.
Definition ticketed (p : Pc T) : bool :=
  match p with Spin _ _ | Won _ | Critical | Reading _ => true | _ => false end.

(** The interrupt flag of a core that had [was] when it started. *)
Definition flag_ok (was : bool) l k : Prop :=
  match kind, pc k with
  | Plain, (Outside | Spin _ _ | Critical | Reading _ | Written) => interrupts k = was
  | Plain, _ => False
  | IrqSave, Outside => interrupts k = was
  | IrqSave, (IrqOff b | Spin b _ | Won b | Dropped b | Released b) => interrupts k = false /\ b = was
  | IrqSave, (Critical | Reading _ | Written) => interrupts k = false /\ irq l = was
  end.

Record core_ok (p : list (T -> T) * bool) l (m : list (T -> T)) k : Prop := {
  co_prog : p.1 = m ++ prog k;
  co_busy : busy (pc k) = true -> prog k <> [];
  co_flag : flag_ok p.2 l k;
  co_read : forall v, pc k = Reading v -> v = data l
}.

(** Updates for which no ticket was taken yet. *)
Definition untaken k : Z := Z.of_nat (length (prog k)) - (if ticketed (pc k) then 1 else 0).

(** The steps a core has left, and all cores. *)
Definition work k : Z :=
  10 * Z.of_nat (length (prog k)) +
  match pc k with
  | Outside => 0 | IrqOff _ => -1 | Spin _ _ => -2 | Won _ => -3 | Critical => -4 | Reading _ => -5
  | Written => 4 | Dropped _ => 3 | Released _ => 2
  end.

Definition sum {A} (f : A -> Z) (xs : list A) : Z := foldr (fun x n => f x + n) 0 xs.

Definition updates : Z := sum (fun p => Z.of_nat (length p.1)) ps.

Record Inv s evs : Prop := {
  inv_tickets : tickets_ok (cores s) (queue (lock s)) (dequeue (lock s)) (takers evs);
  inv_writes : writes_ok (cores s) (dequeue (lock s)) (takers evs) (writes evs).*1;
  inv_data : data (lock s) = foldl (fun v w => w.2 v) v0 (writes evs);
  inv_length : length (cores s) = length ps;
  inv_cores : forall c p k, ps !! c = Some p -> cores s !! c = Some k -> core_ok p (lock s) (mine c evs) k;
  inv_count : queue (lock s) + sum untaken (cores s) = updates
}.

Lemma sum_insert {A} (f : A -> Z) xs i x y : xs !! i = Some x -> sum f (<[i := y]> xs) = sum f xs - f x + f y.
Proof.
  revert i. induction xs as [|z xs IH]; intros [|i] Hi; simplify_eq/=; [lia|]. rewrite (IH i Hi). lia.
Qed.

Lemma sum_nonneg {A} (f : A -> Z) xs : (forall i x, xs !! i = Some x -> 0 <= f x) -> 0 <= sum f xs.
Proof.
  induction xs as [|x xs IH]; simpl; [done|]. intros H. pose proof (H 0%nat x eq_refl).
  enough (0 <= sum f xs) by lia. apply IH. intros i y Hy. by apply (H (S i)).
Qed.

Lemma sum_lookup {A} (f : A -> Z) xs i x :
  (forall j y, xs !! j = Some y -> 0 <= f y) -> xs !! i = Some x -> f x <= sum f xs.
Proof.
  revert i. induction xs as [|z xs IH]; intros [|i] Hf Hi; simplify_eq/=.
  - enough (0 <= sum f xs) by lia. apply sum_nonneg. intros j y Hy. by apply (Hf (S j)).
  - pose proof (Hf 0%nat z eq_refl). enough (f x <= sum f xs) by lia. apply (IH i); [|done].
    intros j y Hy. by apply (Hf (S j)).
Qed.

Lemma sum_zero {A} (f : A -> Z) xs i x :
  (forall j y, xs !! j = Some y -> 0 <= f y) -> sum f xs = 0 -> xs !! i = Some x -> f x = 0.
Proof. intros Hf Hs Hi. pose proof (sum_lookup f xs i x Hf Hi). pose proof (Hf i x Hi). lia. Qed.

(** What holds a lock depends on its fields, what does not is indifferent. *)
Lemma core_ok_other p l l' m k : holds (pc k) = false -> core_ok p l m k -> core_ok p l' m k.
Proof.
  intros Hh [H1 H2 H3 H4]. split; [done..| |].
  - unfold flag_ok in *. by destruct kind, (pc k).
  - intros v Hv. by rewrite Hv in Hh.
Qed.

Lemma core_ok_fields p l l' m k : irq l' = irq l -> data l' = data l -> core_ok p l m k -> core_ok p l' m k.
Proof.
  intros Hi Hd [H1 H2 H3 H4]. split; [done..| |].
  - unfold flag_ok in *. rewrite Hi. by destruct kind, (pc k).
  - rewrite Hd. done.
Qed.

(** The cores of an invariant state and their programs. *)
Lemma inv_core s evs c k : Inv s evs -> cores s !! c = Some k ->
  exists p, ps !! c = Some p /\ core_ok p (lock s) (mine c evs) k.
Proof.
  intros HI Hc. destruct (ps !! c) as [p|] eqn:E.
  - exists p. split; [done|]. by eapply inv_cores.
  - apply lookup_ge_None in E. apply lookup_lt_Some in Hc. rewrite (inv_length _ _ HI) in Hc. lia.
Qed.

Lemma untaken_nonneg s evs c k : Inv s evs -> cores s !! c = Some k -> 0 <= untaken k.
Proof.
  intros HI Hc. destruct (inv_core s evs c k HI Hc) as (p & _ & H). pose proof (co_busy _ _ _ _ H) as Hb.
  unfold untaken. destruct (prog k) as [|f fs]; [|destruct (ticketed (pc k)); simpl; lia].
  destruct (pc k); simpl; try lia; by destruct Hb.
Qed.

Lemma work_nonneg s evs c k : Inv s evs -> cores s !! c = Some k -> 0 <= work k.
Proof.
  intros HI Hc. destruct (inv_core s evs c k HI Hc) as (p & _ & H). pose proof (co_busy _ _ _ _ H) as Hb.
  unfold work. destruct (prog k) as [|f fs]; [|destruct (pc k); simpl length; lia].
  destruct (pc k); simpl; try lia; by destruct Hb.
Qed.

Lemma inv_upd s evs c k l' k' e :
  Inv s evs -> cores s !! c = Some k ->
  tickets_ok (<[c := k']> (cores s)) (queue l') (dequeue l') (takers (evs ++ e)) ->
  writes_ok (<[c := k']> (cores s)) (dequeue l') (takers (evs ++ e)) (writes (evs ++ e)).*1 ->
  data l' = foldl (fun v w => w.2 v) v0 (writes (evs ++ e)) ->
  (forall p, core_ok p (lock s) (mine c evs) k -> core_ok p l' (mine c (evs ++ e)) k') ->
  (irq l' = irq (lock s) /\ data l' = data (lock s)) \/ holds (pc k) = true ->
  (forall i, i <> c -> mine i (evs ++ e) = mine i evs) ->
  queue l' + untaken k' = queue (lock s) + untaken k ->
  Inv (mkSys l' (<[c := k']> (cores s))) (evs ++ e).
Proof.
  intros HI Hc HT HW Hd Hcore Hl He Hq. split; simpl; [done..| | |].
  - rewrite length_insert. apply HI.
  - intros i p ki Hp [[-> ->]|[Hn Hi]]%insert_cases; [by apply Hcore, (inv_cores _ _ HI)|].
    rewrite He by done. pose proof (inv_cores _ _ HI i p ki Hp Hi) as Ho. destruct Hl as [[H1 H2]|Hh].
    + by apply (core_ok_fields p (lock s)).
    + apply (core_ok_other p (lock s)); [|done]. destruct (holds (pc ki)) eqn:E; [|done]. destruct Hn.
      by eapply (tickets_unique (cores s)); [apply HI|exact Hi|exact Hc|apply holds_ticket|apply holds_ticket].
  - rewrite (sum_insert _ _ c k) by done. pose proof (inv_count _ _ HI). lia.
Qed.

Lemma inv_local s evs c k l' k' :
  Inv s evs -> cores s !! c = Some k ->
  queue l' = queue (lock s) -> dequeue l' = dequeue (lock s) -> data l' = data (lock s) ->
  irq l' = irq (lock s) \/ holds (pc k) = true ->
  ticket_of (dequeue (lock s)) k' = ticket_of (dequeue (lock s)) k -> written (pc k') = written (pc k) ->
  untaken k' = untaken k ->
  (forall p, core_ok p (lock s) (mine c evs) k -> core_ok p l' (mine c evs) k') ->
  Inv (mkSys l' (<[c := k']> (cores s))) evs.
Proof.
  intros HI Hc Hq Hd Hv Hi Ht Hw Hu Hok. rewrite <- (app_nil_r evs).
  apply (inv_upd s evs c k); rewrite ?app_nil_r, ?Hq, ?Hd, ?Hu; try done.
  - apply (tickets_local _ _ _ _ c k); [apply HI|done..].
  - apply (writes_local _ _ _ _ c k); [apply HI|done..].
  - rewrite Hv. apply HI.
  - destruct Hi; [by left|by right].
Qed.

Lemma takers_app evs e : takers (evs ++ e) = takers evs ++ takers e.
Proof. apply omap_app. Qed.
Lemma writes_app evs e : writes (evs ++ e) = writes evs ++ writes e.
Proof. apply omap_app. Qed.
Lemma mine_app c evs e : mine c (evs ++ e) = mine c evs ++ mine c e.
Proof. unfold mine. by rewrite writes_app, filter_app, fmap_app. Qed.

Lemma take_ticket_done l : 0 <= queue l -> queue l + 1 < W64 ->
  take_ticket l = Done (queue l + 1, mkLock (queue l + 1) (dequeue l) (irq l) (data l)).
Proof. intros H0 H1. unfold take_ticket. rewrite add64_done by lia. simpl. by rewrite Z.mod_small by lia. Qed.

(** Taking a ticket. *)
Lemma inv_take s evs c k k' :
  Inv s evs -> updates < W64 - 1 -> cores s !! c = Some k ->
  ticket_of (dequeue (lock s)) k = None -> ticket_of (dequeue (lock s)) k' = Some (queue (lock s) + 1) ->
  written (pc k') = written (pc k) -> prog k' = prog k -> prog k <> [] -> ticketed (pc k) = false -> ticketed (pc k') = true ->
  (forall p l, core_ok p (lock s) (mine c evs) k -> core_ok p l (mine c evs) k') ->
  take_ticket (lock s) = Done (queue (lock s) + 1, mkLock (queue (lock s) + 1) (dequeue (lock s)) (irq (lock s)) (data (lock s)))
  /\ Inv (mkSys (mkLock (queue (lock s) + 1) (dequeue (lock s)) (irq (lock s)) (data (lock s))) (<[c := k']> (cores s))) (evs ++ [Took c]).
Proof.
  intros HI Hup Hc Ht Ht' Hw Hp Hne Htk Htk' Hok.
  pose proof (tk_bounds _ _ _ _ (inv_tickets _ _ HI)) as Hb. pose proof (inv_count _ _ HI) as Hcount.
  assert (untaken k' + 1 = untaken k) as Hu by (unfold untaken; rewrite Hp, Htk, Htk'; lia).
  assert (1 <= untaken k) as Hu1 by (unfold untaken; rewrite Htk; destruct (prog k); [done|simpl; lia]).
  pose proof (sum_lookup untaken (cores s) c k (fun j y => untaken_nonneg s evs j y HI) Hc) as Hsum.
  split; [apply take_ticket_done; lia|].
  apply (inv_upd s evs c k); simpl; rewrite ?takers_app, ?writes_app, ?app_nil_r; try done.
  - by apply (tickets_take _ _ _ _ c k); [apply HI|..].
  - apply (writes_local _ _ _ _ c k); [|done..]. eapply writes_take; apply HI.
  - apply HI.
  - intros p Hcore. rewrite mine_app. unfold mine at 2. simpl. rewrite app_nil_r. by apply Hok.
  - by left.
  - intros i _. by rewrite mine_app, app_nil_r.
  - lia.
Qed.

Lemma inv_write s evs c k v f fs :
  Inv s evs -> cores s !! c = Some k -> pc k = Reading v -> prog k = f :: fs ->
  Inv (mkSys (set_data (f v) (lock s)) (<[c := mkCore Written fs (interrupts k)]> (cores s))) (evs ++ [Wrote c f]).
Proof.
  intros HI Hc Hpc Hp. destruct (inv_core s evs c k HI Hc) as (p & _ & Hok).
  pose proof (co_read _ _ _ _ Hok v Hpc) as Hv.
  apply (inv_upd s evs c k); simpl; rewrite ?takers_app, ?writes_app, ?app_nil_r; try done.
  - apply (tickets_local _ _ _ _ c k); [apply HI|done|]. unfold ticket_of. by rewrite Hpc.
  - rewrite fmap_app. apply (writes_write _ (queue (lock s)) _ _ _ _ k); try apply HI; try done; by rewrite Hpc.
  - rewrite foldl_app, <- (inv_data _ _ HI). by rewrite Hv.
  - intros p' [H1 H2 H3 H4]. split; simpl; [|done| |done].
    + rewrite mine_app. unfold mine at 2. simpl. rewrite filter_cons_True by done. simpl. by rewrite <- app_assoc, H1, Hp.
    + unfold flag_ok in *. simpl. rewrite Hpc in H3. by destruct kind.
  - right. by rewrite Hpc.
  - intros i Hi. rewrite mine_app. unfold mine at 2. simpl. rewrite filter_cons_False by (simpl; congruence). apply app_nil_r.
  - unfold untaken. simpl. rewrite Hp, Hpc. simpl length. simpl ticketed. lia.
Qed.

Lemma next_ticket_done l : 0 <= dequeue l -> dequeue l + 1 < W64 ->
  next_ticket l = mkLock (queue l) (dequeue l + 1) (irq l) (data l).
Proof. intros H0 H1. unfold next_ticket. by rewrite Z.mod_small by lia. Qed.

(** Passing the lock on. *)
Lemma inv_release s evs c k k' :
  Inv s evs -> updates < W64 - 1 -> cores s !! c = Some k -> written (pc k) = true ->
  ticket_of (dequeue (lock s) + 1) k' = None -> written (pc k') = false -> prog k' = prog k -> ticketed (pc k') = false ->
  (forall p l, core_ok p (lock s) (mine c evs) k -> core_ok p l (mine c evs) k') ->
  Inv (mkSys (next_ticket (lock s)) (<[c := k']> (cores s))) evs.
Proof.
  intros HI Hup Hc Hw Ht Hw' Hp Htk Hok.
  destruct (tk_owned _ _ _ _ (inv_tickets _ _ HI) c k (dequeue (lock s)) Hc) as [Hd _]; [by apply holds_ticket, written_holds|].
  pose proof (tk_bounds _ _ _ _ (inv_tickets _ _ HI)) as Hb. pose proof (inv_count _ _ HI) as Hcount.
  pose proof (sum_nonneg untaken (cores s) (fun j y => untaken_nonneg s evs j y HI)) as Hsum.
  rewrite next_ticket_done by lia. rewrite <- (app_nil_r evs).
  apply (inv_upd s evs c k); simpl; rewrite ?app_nil_r; try done.
  - apply (tickets_release _ _ _ _ c k); [apply HI|done|by apply written_holds|done].
  - apply (writes_release _ (queue (lock s)) _ _ _ c k); [apply HI..|done|done|done].
  - apply HI.
  - intros p Hcore. by apply Hok.
  - by left.
  - unfold untaken. rewrite Hp, Htk. by destruct (pc k).
Qed.

(** What a step achieves: progress, or nothing because the core waits for its
    turn or has no updates left. *)
Definition idle l k : Prop :=
  (pc k = Outside /\ prog k = []) \/ exists was t, pc k = Spin was t /\ t <> dequeue l.

(** A step of core [c] in the state [s] that does something, and keeps the invariant. *)
Definition progress s evs c k : Prop :=
  exists l' k' e, core_step kind c (lock s) k = Done (l', k', e)
    /\ Inv (mkSys l' (<[c := k']> (cores s))) (evs ++ e) /\ work k' < work k.

(** A step that concerns the core and the field [irq] only. *)
Lemma progress_local s evs c k l' k' :
  Inv s evs -> cores s !! c = Some k -> core_step kind c (lock s) k = Done (l', k', []) ->
  queue l' = queue (lock s) -> dequeue l' = dequeue (lock s) -> data l' = data (lock s) ->
  irq l' = irq (lock s) \/ holds (pc k) = true ->
  ticket_of (dequeue (lock s)) k' = ticket_of (dequeue (lock s)) k -> written (pc k') = written (pc k) ->
  untaken k' = untaken k ->
  (forall p, core_ok p (lock s) (mine c evs) k -> core_ok p l' (mine c evs) k') -> work k' < work k ->
  progress s evs c k.
Proof.
  intros. exists l', k', []. rewrite app_nil_r. split_and!; [done| |done]. by apply (inv_local s evs c k).
Qed.

(** What is left of a [core_ok] after the step is computed. *)
Ltac core_tac :=
  intros; match goal with H : core_ok _ _ _ _ |- _ => destruct H as [H1 H2 H3 H4] end;
  split; unfold flag_ok in *; simpl in *; destruct kind; naive_solver.

Lemma take_progress s evs c k k' :
  Inv s evs -> updates < W64 - 1 -> cores s !! c = Some k ->
  (forall r, take_ticket (lock s) = Done (queue (lock s) + 1, r) ->
     core_step kind c (lock s) k = Done (r, k', [Took c])) ->
  ticket_of (dequeue (lock s)) k = None -> ticket_of (dequeue (lock s)) k' = Some (queue (lock s) + 1) ->
  written (pc k') = written (pc k) -> prog k' = prog k -> prog k <> [] -> ticketed (pc k) = false -> ticketed (pc k') = true ->
  (forall p l, core_ok p (lock s) (mine c evs) k -> core_ok p l (mine c evs) k') -> work k' < work k ->
  progress s evs c k.
Proof.
  intros HI Hup Hc Hstep Ht Ht' Hw Hp Hne Htk Htk' Hok Hwork.
  destruct (inv_take s evs c k k') as [E HI']; [done..|]. eexists _, _, _. split_and!; [by apply Hstep|done|done].
Qed.

Lemma core_progress s evs c k :
  Inv s evs -> updates < W64 - 1 -> cores s !! c = Some k ->
  (core_step kind c (lock s) k = Done (lock s, k, []) /\ idle (lock s) k) \/ progress s evs c k.
Proof.
  intros HI Hup Hc. destruct (inv_core s evs c k HI Hc) as (p0 & _ & Hok).
  destruct k as [p fs b]. destruct p as [|was|was t|was| |v| |was|was].
  - destruct fs as [|f fs]; [left; split; [done|by left]|]. right. destruct kind eqn:Ek.
    + eapply (take_progress _ _ _ _ (mkCore (Spin false (queue (lock s) + 1)) (f :: fs) b)); try done.
      * intros r Hr. unfold core_step. simpl. by rewrite Ek, Hr.
      * core_tac.
      * unfold work. simpl. lia.
    + eapply (progress_local _ _ _ _ _ (mkCore (IrqOff b) (f :: fs) false)); try done.
      * unfold core_step. simpl. by rewrite Ek.
      * by left.
      * core_tac.
      * unfold work. simpl. lia.
  - right. eapply (take_progress _ _ _ _ (mkCore (Spin was (queue (lock s) + 1)) fs b)); try done.
    + intros r Hr. unfold core_step. simpl. by rewrite Hr.
    + by apply (co_busy _ _ _ _ Hok).
    + core_tac.
    + unfold work. simpl. lia.
  - destruct (decide (t = dequeue (lock s))) as [->|Hn].
    + right. eapply (progress_local _ _ _ _ _ (mkCore (match kind with Plain => Critical | IrqSave => Won was end) fs b)); try done.
      * unfold core_step, my_turn. simpl. by rewrite Z.eqb_refl.
      * by left.
      * by destruct kind.
      * by destruct kind.
      * by destruct kind.
      * core_tac.
      * unfold work. simpl. destruct kind; lia.
    + left. split; [|right; by eauto]. unfold core_step, my_turn. simpl. by rewrite (proj2 (Z.eqb_neq _ _)) by done.
  - right. eapply (progress_local _ _ _ _ (store_irq was (lock s)) (mkCore Critical fs b)); try done; [by right|core_tac|unfold work; simpl; lia].
  - right. eapply (progress_local _ _ _ _ _ (mkCore (Reading (data (lock s))) fs b)); try done; [by left|core_tac|unfold work; simpl; lia].
  - destruct fs as [|f fs]; [by destruct (co_busy _ _ _ _ Hok)|]. right. eexists _, _, _.
    split_and!; [done|by eapply (inv_write s evs c _ v)|unfold work; simpl; lia].
  - right. destruct kind eqn:Ek.
    + eexists _, _, _. split_and!; [unfold core_step, drop_step; simpl; by rewrite Ek| |unfold work; simpl; lia].
      rewrite app_nil_r. eapply (inv_release s evs c); try done. core_tac.
    + eapply (progress_local _ _ _ _ (store_irq false (lock s)) (mkCore (Dropped (irq (lock s))) fs b)); try done;
        [unfold core_step, drop_step; simpl; by rewrite Ek|by right|core_tac|unfold work; simpl; lia].
  - right. eexists _, _, _. split_and!; [done| |unfold work; simpl; lia].
    rewrite app_nil_r. eapply (inv_release s evs c); try done. core_tac.
  - right. eapply (progress_local _ _ _ _ _ (mkCore Outside fs (if was then true else b))); try done;
      [by left|destruct was; core_tac|unfold work; simpl; lia].
Qed.

Lemma step_inv s evs c :
  Inv s evs -> updates < W64 - 1 ->
  exists s' e, step kind c s = Done (s', e) /\ Inv s' (evs ++ e) /\
    ((s' = s /\ e = [] /\ forall k, cores s !! c = Some k -> idle (lock s) k)
     \/ sum work (cores s') < sum work (cores s)).
Proof.
  intros HI Hup. unfold step. destruct (cores s !! c) as [k|] eqn:Hc; cycle 1.
  { exists s, []. rewrite app_nil_r. split_and!; [done..|]. left. by split_and!. }
  destruct (core_progress s evs c k HI Hup Hc) as [[E Hi]|(l' & k' & e & E & HI' & Hw)]; rewrite E; simpl.
  - rewrite list_insert_id by done. exists s, []. rewrite app_nil_r. split_and!; [by destruct s|done|].
    left. split_and!; [done..|]. intros k2 [= <-]. done.
  - eexists _, _. split_and!; [done..|]. right. simpl. rewrite (sum_insert _ _ c k) by done. lia.
Qed.

Lemma run_inv sched : forall s evs,
  Inv s evs -> updates < W64 - 1 ->
  exists s' e, run kind sched s = Done (s', e) /\ Inv s' (evs ++ e)
    /\ ((s' = s /\ forall c k, c ∈ sched -> cores s !! c = Some k -> idle (lock s) k)
        \/ sum work (cores s') < sum work (cores s)).
Proof.
  induction sched as [|c sched IH]; intros s evs HI Hup; simpl.
  { exists s, []. rewrite app_nil_r. split_and!; [done..|]. left. split; [done|]. intros c k Hc. by apply elem_of_nil in Hc. }
  destruct (step_inv s evs c HI Hup) as (s1 & e1 & E1 & HI1 & H1). rewrite E1. simpl.
  destruct (IH s1 _ HI1 Hup) as (s2 & e2 & E2 & HI2 & H2). rewrite E2. simpl.
  exists s2, (e1 ++ e2). rewrite app_assoc. split_and!; [done..|].
  destruct H1 as [(-> & -> & H1)|H1]; [|right; destruct H2 as [(-> & H2)|H2]; lia].
  destruct H2 as [(-> & H2)|H2]; [|by right]. left. split; [done|].
  intros i k [->|Hi]%elem_of_cons Hk; [by apply H1|by apply (H2 i)].
Qed.

(** When every core is idle, all updates were made. *)
Lemma idle_finished s evs :
  Inv s evs -> (forall c k, cores s !! c = Some k -> idle (lock s) k) ->
  forall c k, cores s !! c = Some k -> pc k = Outside /\ prog k = [].
Proof.
  intros HI Hidle. pose proof (inv_tickets _ _ HI) as HT.
  pose proof (tk_bounds _ _ _ _ HT) as Hb.
  destruct (decide (dequeue (lock s) <= queue (lock s))) as [Hle|Hgt].
  - destruct (tk_held _ _ _ _ HT (dequeue (lock s))) as (c & k & Hc & Ht); [lia|].
    destruct (Hidle c k Hc) as [[Hp _]|(was & t & Hp & Hn)]; unfold ticket_of in Ht; rewrite Hp in Ht; [done|].
    injection Ht as ->. done.
  - intros c k Hc. destruct (Hidle c k Hc) as [H|(was & t & Hp & Hn)]; [done|].
    destruct (tk_owned _ _ _ _ HT c k t Hc) as [H _]; [unfold ticket_of; by rewrite Hp|]. lia.
Qed.

Lemma start_inv : Inv (start v0 ps) [].
Proof.
  assert (forall c k, cores (start v0 ps) !! c = Some k -> exists p, ps !! c = Some p /\ k = mkCore Outside p.1 p.2) as Hc.
  { intros c k. simpl. rewrite list_lookup_fmap. destruct (ps !! c) as [p|]; simpl; [|done]. intros [= <-]. by exists p. }
  split; simpl.
  - split; simpl; [done|lia| |intros; lia]. intros c k t Hk. by destruct (Hc c k Hk) as (p & _ & ->).
  - split; simpl; [|done]. intros c k Hk. by destruct (Hc c k Hk) as (p & _ & ->).
  - done.
  - by rewrite length_fmap.
  - intros c p k Hp Hk. destruct (Hc c k Hk) as (p' & Hp' & ->). rewrite Hp in Hp'. injection Hp' as <-.
    split; simpl; [done..| |done]. unfold flag_ok. by destruct kind.
  - unfold updates. clear Hc. induction ps as [|p ps' IH]; [done|].
    assert (untaken (mkCore Outside p.1 p.2) = Z.of_nat (length p.1)) as E by (unfold untaken; simpl; lia).
    cbn [fmap list_fmap sum foldr]. unfold sum in IH. lia.
Qed.

End machine.

(** ** What the lock promises *)

Section promises.
Context {T : Type} (kind : Kind) (ps : list (list (T -> T) * bool)) (v0 : T).
Implicit Types (s : Sys T) (evs : list (Event T)).

Lemma run_app sched1 sched2 s s1 e1 : run kind sched1 s = Done (s1, e1) ->
  run kind (sched1 ++ sched2) s = (let? r := run kind sched2 s1 in Done (r.1, e1 ++ r.2)).
Proof.
  revert s s1 e1. induction sched1 as [|c sched1 IH]; intros s s1 e1; simpl.
  - intros [= -> <-]. by destruct (run kind sched2 s1) as [[s2 e2]| |].
  - destruct (step kind c s) as [[s' e']| |]; simpl; [|done..].
    destruct (run kind sched1 s') as [[s'' e'']| |] eqn:E; simpl; [|done..].
    intros [= -> <-]. rewrite (IH _ _ _ E). destruct (run kind sched2 s1) as [[s2 e2]| |]; simpl; [|done..].
    by rewrite app_assoc.
Qed.

(** Everything a schedule can reach satisfies the invariant. *)
Lemma reachable_inv sched s evs :
  updates ps < W64 - 1 -> run kind sched (start v0 ps) = Done (s, evs) -> Inv kind ps v0 s evs.
Proof.
  intros Hup Hrun. destruct (run_inv kind ps v0 sched _ [] (start_inv kind ps v0) Hup) as (s' & e & E & HI & _).
  rewrite Hrun in E. injection E as <- <-. done.
Qed.

(** The state in which all updates are made. *)
Definition finished s : Prop := forall c k, cores s !! c = Some k -> pc k = Outside /\ prog k = [].

Lemma finished_work s : finished s -> sum work (cores s) = 0.
Proof.
  unfold finished. destruct s as [l cs]. simpl. revert l. induction cs as [|k cs IH]; intros l Hf; [done|].
  destruct (Hf 0%nat k eq_refl) as [Hp Hg]. cbn [sum foldr]. unfold sum in IH. rewrite (IH l).
  - unfold work. rewrite Hp, Hg. done.
  - intros c k' Hc. by apply (Hf (S c)).
Qed.

Lemma work_finished s evs : Inv kind ps v0 s evs -> sum work (cores s) = 0 -> finished s.
Proof.
  intros HI H0 c k Hc.
  pose proof (sum_zero work (cores s) c k (fun j y => work_nonneg kind ps v0 s evs j y HI) H0 Hc) as Hw.
  destruct (inv_core kind ps v0 s evs c k HI Hc) as (p & _ & Hok). pose proof (co_busy _ _ _ _ _ Hok) as Hb.
  unfold work in Hw. destruct (prog k) as [|f fs]; [|destruct (pc k); simpl length in Hw; lia].
  destruct (pc k); simpl in *; try lia; [done|by destruct Hb..].
Qed.

(** Rounds in which every core makes a step finish the work. *)
Lemma rounds_finish rounds : forall s evs,
  Inv kind ps v0 s evs -> updates ps < W64 - 1 ->
  Forall (fun r => forall c, (c < length ps)%nat -> c ∈ r) rounds ->
  sum work (cores s) <= Z.of_nat (length rounds) ->
  exists s' e, run kind (concat rounds) s = Done (s', e) /\ Inv kind ps v0 s' (evs ++ e) /\ finished s'.
Proof.
  induction rounds as [|r rounds IH]; intros s evs HI Hup Hfair Hw; simpl in Hw.
  - exists s, []. rewrite app_nil_r. split_and!; [done..|].
    pose proof (sum_nonneg work (cores s) (fun j y => work_nonneg kind ps v0 s evs j y HI)).
    apply (work_finished s evs HI). lia.
  - apply Forall_cons in Hfair as [Hr Hfair].
    destruct (run_inv kind ps v0 r s evs HI Hup) as (s1 & e1 & E1 & HI1 & H1).
    assert (sum work (cores s1) <= Z.of_nat (length rounds)) as Hw1.
    { destruct H1 as [[-> Hidle]|H1]; [|lia]. rewrite finished_work; [lia|].
      refine (idle_finished kind ps v0 s evs HI _). intros c k Hc. apply (Hidle c k); [|done].
      apply Hr. rewrite <- (inv_length _ _ _ _ _ HI). by eapply lookup_lt_Some. }
    destruct (IH s1 _ HI1 Hup Hfair Hw1) as (s2 & e2 & E2 & HI2 & Hf).
    exists s2, (e1 ++ e2). rewrite app_assoc. split_and!; [|done..].
    simpl. rewrite (run_app _ _ _ _ _ E1), E2. done.
Qed.

Lemma start_work : sum work (cores (start v0 ps)) = 10 * updates ps.
Proof.
  unfold updates. simpl. induction ps as [|p ps' IH]; [done|].
  assert (work (mkCore Outside p.1 p.2) = 10 * Z.of_nat (length p.1)) as E by (unfold work; simpl; lia).
  cbn [fmap list_fmap sum foldr]. unfold sum in IH. lia.
Qed.

(** C5. Mutual exclusion. Whatever the schedule, at most one core is between
    winning the lock and passing it on. With [SpinlockIrqSave] a core has
    interrupts disabled from before it takes its ticket until it has passed
    the lock on, so that no handler interrupts the critical section; outside,
    its interrupt flag is the one it came with. *)
Theorem spinlock_mutual_exclusion sched s evs :
  updates ps < W64 - 1 -> run kind sched (start v0 ps) = Done (s, evs) ->
  (forall c1 c2 k1 k2, cores s !! c1 = Some k1 -> cores s !! c2 = Some k2 ->
     holds (pc k1) = true -> holds (pc k2) = true -> c1 = c2)
  /\ (kind = IrqSave -> forall c k, cores s !! c = Some k -> pc k <> Outside -> interrupts k = false)
  /\ (forall c k p, ps !! c = Some p -> cores s !! c = Some k -> pc k = Outside -> interrupts k = p.2).
Proof.
  intros Hup Hrun. pose proof (reachable_inv sched s evs Hup Hrun) as HI. split_and!.
  - intros c1 c2 k1 k2 H1 H2 T1%(holds_ticket (dequeue (lock s))) T2%(holds_ticket (dequeue (lock s))).
    by eapply (tickets_unique (cores s)); [apply HI|..].
  - intros -> c k Hc Hn. destruct (inv_core _ _ _ _ _ _ _ HI Hc) as (p & _ & Hok).
    pose proof (co_flag _ _ _ _ _ Hok) as Hf. unfold flag_ok in Hf. by destruct (pc k); destruct Hf.
  - intros c k p Hp Hc Ho. pose proof (co_flag _ _ _ _ _ (inv_cores _ _ _ _ _ HI c p k Hp Hc)) as Hf.
    unfold flag_ok in Hf. rewrite Ho in Hf. by destruct kind.
Qed.

(** The lock is fair and no update is lost. The cores write in the order
    in which they took their tickets, the protected data are the result of
    the written updates applied one after the other in that order, and each
    core's updates are written in its program's order. *)
Theorem spinlock_serves_in_order sched s evs :
  updates ps < W64 - 1 -> run kind sched (start v0 ps) = Done (s, evs) ->
  (writes evs).*1 `prefix_of` takers evs
  /\ data (lock s) = foldl (fun v w => w.2 v) v0 (writes evs)
  /\ forall c p, ps !! c = Some p -> mine c evs `prefix_of` p.1.
Proof.
  intros Hup Hrun. pose proof (reachable_inv sched s evs Hup Hrun) as HI. split_and!.
  - destruct (inv_writes _ _ _ _ _ HI) as [H1 H2].
    destruct (existsb (fun k => written (pc k)) (cores s)) eqn:E.
    + apply existsb_exists in E as (k & Hk & Hw). apply list_elem_of_In, list_elem_of_lookup in Hk as [c Hc].
      rewrite (H1 c k Hc Hw). apply prefix_take.
    + rewrite H2; [apply prefix_take|]. intros c k Hc. destruct (written (pc k)) eqn:Ew; [|done].
      assert (existsb (fun k => written (pc k)) (cores s) = true) as E'; [|congruence].
      apply existsb_exists. exists k. split; [|done]. by eapply list_elem_of_In, list_elem_of_lookup_2.
  - apply HI.
  - intros c p Hp. destruct (cores s !! c) as [k|] eqn:Hc.
    + rewrite (co_prog _ _ _ _ _ (inv_cores _ _ _ _ _ HI c p k Hp Hc)). apply prefix_app_r, reflexivity.
    + apply lookup_ge_None in Hc. apply lookup_lt_Some in Hp. rewrite (inv_length _ _ _ _ _ HI) in Hc. lia.
Qed.

(** C20. Nobody waits forever. If every core makes at least one step in each of
    [10 * updates] rounds, in whatever order and however often, then every
    core has made all its updates and left the lock with its interrupt flag
    restored; no step panics, since fewer than 2^64 - 1 tickets are taken. *)
Theorem spinlock_starvation_free rounds :
  updates ps < W64 - 1 -> 10 * updates ps <= Z.of_nat (length rounds) ->
  Forall (fun r => forall c, (c < length ps)%nat -> c ∈ r) rounds ->
  exists s evs, run kind (concat rounds) (start v0 ps) = Done (s, evs)
    /\ (forall c p, ps !! c = Some p -> cores s !! c = Some (mkCore Outside [] p.2) /\ mine c evs = p.1)
    /\ data (lock s) = foldl (fun v w => w.2 v) v0 (writes evs).
Proof.
  intros Hup Hlen Hfair.
  destruct (rounds_finish rounds _ [] (start_inv kind ps v0) Hup Hfair) as (s & e & E & HI & Hf);
    [by rewrite start_work|].
  exists s, e. split_and!; [done| |apply HI]. intros c p Hp.
  destruct (lookup_lt_is_Some_2 (cores s) c) as [k Hc].
  { rewrite (inv_length _ _ _ _ _ HI). by eapply lookup_lt_Some. }
  pose proof (inv_cores _ _ _ _ _ HI c p k Hp Hc) as Hok. destruct (Hf c k Hc) as [Ho Hg].
  pose proof (co_prog _ _ _ _ _ Hok) as Hprog. pose proof (co_flag _ _ _ _ _ Hok) as Hflag.
  destruct k as [pck prk ik]. simpl in *. subst. rewrite app_nil_r in Hprog.
  unfold flag_ok in Hflag. simpl in Hflag. rewrite Hc. split; [|done]. repeat f_equal. by destruct kind.
Qed.

End promises.

(** ** Two cores on one counter *)

Definition sample_programs : list (list (Z -> Z) * bool) :=
  [([fun v => v + 1; fun v => v * 2], true); ([fun v => v + 10], false)].

(** Core 1 takes its ticket while core 0 is in its critical section. *)
Definition sample_schedule : list nat := [0; 0; 1; 0; 0; 1; 1; 0; 1; 0; 0; 0; 1; 1; 0; 0; 1; 0; 0; 0; 0; 0]%nat.

Lemma spinlock_mutual_exclusion_witness :
  exists s evs, run IrqSave sample_schedule (start 5 sample_programs) = Done (s, evs)
  /\ takers evs = [0; 1; 0]%nat
  /\ (forall c1 c2 k1 k2, cores s !! c1 = Some k1 -> cores s !! c2 = Some k2 ->
     holds (pc k1) = true -> holds (pc k2) = true -> c1 = c2)
  /\ (IrqSave = IrqSave -> forall c k, cores s !! c = Some k -> pc k <> Outside -> interrupts k = false)
  /\ (forall c k p, sample_programs !! c = Some p -> cores s !! c = Some k -> pc k = Outside -> interrupts k = p.2).
Proof.
  eexists _, _. split; [vm_compute; reflexivity|]. split; [vm_compute; reflexivity|].
  eapply (spinlock_mutual_exclusion IrqSave sample_programs 5 sample_schedule); [done|vm_compute; reflexivity].
Defined.

Lemma spinlock_serves_in_order_witness :
  exists s evs, run Plain sample_schedule (start 5 sample_programs) = Done (s, evs)
  /\ (writes evs).*1 = [0; 1; 0]%nat /\ data (lock s) = 32
  /\ (writes evs).*1 `prefix_of` takers evs
  /\ data (lock s) = foldl (fun v w => w.2 v) 5 (writes evs)
  /\ forall c p, sample_programs !! c = Some p -> mine c evs `prefix_of` p.1.
Proof.
  eexists _, _. split; [vm_compute; reflexivity|]. split; [vm_compute; reflexivity|]. split; [vm_compute; reflexivity|].
  eapply (spinlock_serves_in_order Plain sample_programs 5 sample_schedule); [done|vm_compute; reflexivity].
Defined.

Lemma spinlock_starvation_free_witness :
  exists s evs, run IrqSave (concat (replicate 30 [1; 0]%nat)) (start 5 sample_programs) = Done (s, evs)
  /\ (forall c p, sample_programs !! c = Some p -> cores s !! c = Some (mkCore Outside [] p.2) /\ mine c evs = p.1)
  /\ data (lock s) = foldl (fun v w => w.2 v) 5 (writes evs).
Proof.
  apply (spinlock_starvation_free IrqSave sample_programs 5); [done|done|].
  apply Forall_replicate. intros c Hc. simpl in Hc.
  destruct c as [|[|c]]; [right; left|left|lia].
Defined.
