(* ===== verification/Tasks.v ===== *)
(** * Creating and releasing tasks: src/scheduler/task.rs and the stacks of
    src/arch/x86_64/kernel/scheduler.rs

    A task owns four stacks and possibly thread local storage, which it takes
    from the memory manager when it is created and gives back when the last
    reference to it is dropped. What the memory manager promises for this is
    the interface [KernelMemory]; Mm implements it. *)

From stdpp Require Import base numbers list gmap.
From Stdlib Require Import ZArith Lia.
From S2P Require Import Prelude Pte Mmu Paging PageAlloc Mm Isolation Collections TaskQueue.

#[local] Open Scope Z_scope.

(** ** The interface to the memory manager *)

Class KernelMemory (K : Type) := {
  km_allocate : Flavour -> Z -> bool -> M K Z;
  km_deallocate : Z -> Z -> M K unit
}.

(** [km_state k live]: the blocks [live], with their addresses and sizes, are in
    use; [km_room] says that page tables for another block would fit. *)
Class KernelMemoryLaws (K : Type) `{KernelMemory K} := {
  km_state : K -> list (Z * Z) -> Prop;
  km_room : Flavour -> Z -> K -> Prop;
  km_proper : forall k live live', live ≡ₚ live' -> km_state k live -> km_state k live';
  km_disjoint : forall k live v1 n1 v2 n2 rest x,
    km_state k live -> live ≡ₚ (v1, n1) :: (v2, n2) :: rest -> v1 <= x < v1 + n1 -> ~ v2 <= x < v2 + n2;
  km_take : forall f sz no_execute k live,
    km_state k live -> 0 < sz <= 2 ^ 47 -> km_room f sz k ->
    match km_allocate f sz no_execute k with
    | Done (v, k') => km_state k' ((v, align_up_val sz 4096) :: live)
    | Panic => True
    | OutOfFuel => False
    end;
  km_give : forall v sz k live,
    km_state k ((v, align_up_val sz 4096) :: live) -> 0 < sz <= 2 ^ 47 ->
    exists k', km_deallocate v sz k = Done (tt, k') /\ km_state k' live
}.

(** ** [TaskStacks] *)

Section stacks.

Context {K : Type} `{KernelMemory K}.

Definition TaskStacks_new : M K TaskStacks :=
  let! stack := km_allocate Safe DEFAULT_STACK_SIZE true in
  let! ist0 := km_allocate User KERNEL_STACK_SIZE true in
  let! isolated_stack := km_allocate Unsafe DEFAULT_STACK_SIZE true in
  let! user_stack := km_allocate User DEFAULT_STACK_SIZE true in
  ret (mkStacks false stack ist0 isolated_stack user_stack).

(** The stacks of the boot processor's idle task, from the [rsp] and [ist] of
    its task state segment. *)
Definition from_boot_stacks (rsp0 ist0 : Z) : outcome TaskStacks :=
  let? a := add64 rsp0 0x10 in
  let? stack := sub64 a KERNEL_STACK_SIZE in
  let? b := add64 ist0 0x10 in
  let? ist := sub64 b KERNEL_STACK_SIZE in
  Done (mkStacks true stack ist 0 0).

Definition TaskStacks_drop (st : TaskStacks) : M K unit :=
  if is_boot_stack st then ret tt
  else
    km_deallocate (stack st) DEFAULT_STACK_SIZE ;;;
    km_deallocate (TaskQueue.ist0 st) KERNEL_STACK_SIZE ;;;
    km_deallocate (TaskQueue.isolated_stack st) DEFAULT_STACK_SIZE ;;;
    km_deallocate (TaskQueue.user_stack st) DEFAULT_STACK_SIZE.

(** ** [TaskTLS] *)

Record TaskTLS := mkTLS { tls_address : Z; tls_size : Z }.

Definition TaskTLS_new (size : Z) : M K TaskTLS :=
  let! memory_size := lift (align_up size 4096) in
  let! address := km_allocate User memory_size true in
  ret (mkTLS address memory_size).

Definition TaskTLS_drop (t : TaskTLS) : M K unit := km_deallocate (tls_address t) (tls_size t).

End stacks.

(** ** The stacks in the task state segment

    [set_current_kernel_stack] of src/arch/x86_64/kernel/gdt.rs: what it
    stores to [tss.rsp[0]] and [tss.ist[0]] for the current task. *)
Definition set_current_kernel_stack (current : Task) : outcome (Z * Z) :=
  let stack_size := if bool_decide (status current = TaskIdle) then KERNEL_STACK_SIZE else DEFAULT_STACK_SIZE in
  let? a := add64 (stack (stacks current)) stack_size in
  let? rsp0 := sub64 a 0x10 in
  let? b := add64 (TaskQueue.ist0 (stacks current)) KERNEL_STACK_SIZE in
  let? ist := sub64 b 0x10 in
  Done (rsp0, ist).

(** ** [FPUState::new]: the bytes of the XSAVE area *)

Fixpoint le_bytes (n : nat) (v : Z) : list Z :=
  match n with O => [] | S n' => v mod 256 :: le_bytes n' (v / 256) end.
Definition zero_bytes (n : nat) : list Z := replicate n 0.

Definition FPUState_new : FPUState :=
  (* legacy_region *)
  le_bytes 2 0x37F ++ le_bytes 2 0 ++ le_bytes 2 0xFFFF ++ le_bytes 2 0
  ++ le_bytes 4 0 ++ le_bytes 4 0 ++ le_bytes 4 0 ++ le_bytes 4 0
  ++ le_bytes 4 0x1F80 ++ le_bytes 4 0
  ++ zero_bytes (8 * 16) ++ zero_bytes (16 * 16) ++ zero_bytes 96
  (* header *)
  ++ le_bytes 8 0 ++ le_bytes 8 0 ++ zero_bytes (6 * 8)
  (* avx_state *)
  ++ zero_bytes (16 * 16)
  (* lwp_state *)
  ++ le_bytes 8 0 ++ le_bytes 4 0 ++ le_bytes 4 0 ++ le_bytes 8 0 ++ le_bytes 4 0 ++ le_bytes 4 0
  ++ zero_bytes (4 * 8) ++ zero_bytes (16 * 4)
  (* bndregs, bndcsr *)
  ++ zero_bytes (4 * 16) ++ le_bytes 8 0 ++ le_bytes 8 0.

(** ** Task control blocks *)

Section tasks.

Context {K : Type} `{KernelMemory K}.

Definition BlockedTaskQueue_new : BlockedTaskQueue := DoublyLinkedList_new.

Definition Task_new (tid : TaskId) (core : Z) (task_status : TaskStatus) (task_prio : Priority) : M K Task :=
  let! st := TaskStacks_new in
  ret (mkTask tid task_status task_prio 0 0 0 FPUState_new core st None None BlockedTaskQueue_new None Custom).

(** [st] are the boot stacks. *)
Definition Task_new_idle (tid : TaskId) (core : Z) (st : TaskStacks) : Task :=
  mkTask tid TaskIdle IDLE_PRIO 0 0 0 FPUState_new core st None None BlockedTaskQueue_new None Custom.

Definition Task_clone (tid : TaskId) (core : Z) (task : Task) : M K Task :=
  let! st := TaskStacks_new in
  ret (mkTask tid TaskReady (prio task) 0 0 0 FPUState_new core st None None BlockedTaskQueue_new (tls task)
         (last_wakeup_reason task)).

(** What [create_stack_frame] stores in the task: the address of the [State]
    below the marker and the return address on the kernel stack, and the top
    of the user stack. *)
Definition create_stack_frame_pointers (t : Task) : outcome Task :=
  let? top := add64 (stack (stacks t)) DEFAULT_STACK_SIZE in
  let? marker := sub64 top 0x10 in
  let? return_address := sub64 marker 8 in
  let? sp := sub64 return_address 152 in
  let? usp := add64 (TaskQueue.user_stack (stacks t)) DEFAULT_STACK_SIZE in
  Done (mkTask (id t) (status t) (prio t) sp (kernel_stack_pointer t) usp (last_fpu_state t) (core_id t) (stacks t)
          (t_next t) (t_prev t) (wakeup t) (tls t) (last_wakeup_reason t)).

End tasks.

(** ** A task's memory *)

Section laws.

Context {K : Type} `{KernelMemoryLaws K}.
Implicit Types (k : K) (live : list (Z * Z)).

(** The blocks of the stacks of a task. *)
Definition stack_blocks (st : TaskStacks) : list (Z * Z) :=
  [(TaskQueue.user_stack st, DEFAULT_STACK_SIZE); (TaskQueue.isolated_stack st, DEFAULT_STACK_SIZE);
   (TaskQueue.ist0 st, KERNEL_STACK_SIZE); (stack st, DEFAULT_STACK_SIZE)].

(** Page tables fit for every block of a sequence of allocations. *)
Fixpoint room_for (reqs : list (Flavour * Z)) k : Prop :=
  match reqs with
  | [] => True
  | (f, sz) :: reqs' => km_room f sz k /\ forall v k', km_allocate f sz true k = Done (v, k') -> room_for reqs' k'
  end.

Definition stack_requests : list (Flavour * Z) :=
  [(Safe, DEFAULT_STACK_SIZE); (User, KERNEL_STACK_SIZE); (Unsafe, DEFAULT_STACK_SIZE); (User, DEFAULT_STACK_SIZE)].

(** One allocation followed by a computation. *)
Lemma take_bind {A} f sz reqs (g : Z -> M K A) k live (Q : A -> K -> Prop) :
  km_state k live -> 0 < sz <= 2 ^ 47 -> align_up_val sz 4096 = sz -> room_for ((f, sz) :: reqs) k ->
  (forall v k', km_state k' ((v, sz) :: live) -> room_for reqs k' ->
     match g v k' with Done (a, k2) => Q a k2 | Panic => True | OutOfFuel => False end) ->
  match bind (km_allocate f sz true) g k with Done (a, k2) => Q a k2 | Panic => True | OutOfFuel => False end.
Proof.
  intros Hk Hs Ha [Hr Hrs] Hg. pose proof (km_take f sz true k live Hk Hs Hr) as Ht. unfold bind.
  destruct (km_allocate f sz true k) as [[v k']| |] eqn:E; simpl; [|done|done].
  rewrite Ha in Ht. apply Hg; [done|by apply (Hrs v)].
Qed.

Lemma stacks_allocated k live :
  km_state k live -> room_for stack_requests k ->
  match TaskStacks_new k with
  | Done (st, k') => is_boot_stack st = false /\ km_state k' (stack_blocks st ++ live)
  | Panic => True
  | OutOfFuel => False
  end.
Proof.
  intros Hk Hr. unfold TaskStacks_new, stack_requests in *.
  eapply take_bind; [exact Hk|done|done|exact Hr|]. intros v1 k1 H1 R1.
  eapply take_bind; [exact H1|done|done|exact R1|]. intros v2 k2 H2 R2.
  eapply take_bind; [exact H2|done|done|exact R2|]. intros v3 k3 H3 R3.
  eapply take_bind; [exact H3|done|done|exact R3|]. intros v4 k4 H4 R4. by split.
Qed.

Lemma give_bind {A} v sz (g : unit -> M K A) k live :
  km_state k ((v, sz) :: live) -> 0 < sz <= 2 ^ 47 -> align_up_val sz 4096 = sz ->
  exists k', bind (km_deallocate v sz) g k = g tt k' /\ km_state k' live.
Proof.
  intros Hk Hs Ha. destruct (km_give v sz k live) as (k' & E & Hk'); [by rewrite Ha|done|].
  exists k'. split; [by apply bind_done|done].
Qed.

Lemma stacks_released st k live :
  is_boot_stack st = false -> km_state k (stack_blocks st ++ live) ->
  exists k', TaskStacks_drop st k = Done (tt, k') /\ km_state k' live.
Proof.
  intros Hb Hk. unfold TaskStacks_drop. rewrite Hb.
  apply (km_proper _ _ ((stack st, DEFAULT_STACK_SIZE) :: (TaskQueue.ist0 st, KERNEL_STACK_SIZE)
    :: (TaskQueue.isolated_stack st, DEFAULT_STACK_SIZE) :: (TaskQueue.user_stack st, DEFAULT_STACK_SIZE) :: live)) in Hk;
    [|unfold stack_blocks; simpl; solve_Permutation].
  edestruct @give_bind as (k1 & E1 & H1); [exact Hk|done|done|]. rewrite E1.
  edestruct @give_bind as (k2 & E2 & H2); [exact H1|done|done|]. rewrite E2.
  edestruct @give_bind as (k3 & E3 & H3); [exact H2|done|done|]. rewrite E3.
  by apply km_give.
Qed.

(** C22. The stacks of a task are memory of its own. [TaskStacks::new] ends or
    panics; when it returns, the four stacks are disjoint from each other and
    from every block that was in use, and whenever the task is dropped - the
    memory manager may have served others in between - all four are given
    back and nothing else is. *)
Theorem task_stacks_owned k live :
  km_state k live -> room_for stack_requests k ->
  match TaskStacks_new k with
  | Done (st, k') =>
      km_state k' (stack_blocks st ++ live)
      /\ (forall v1 n1 v2 n2 rest x, stack_blocks st ++ live ≡ₚ (v1, n1) :: (v2, n2) :: rest ->
            v1 <= x < v1 + n1 -> ~ v2 <= x < v2 + n2)
      /\ forall k2 others, km_state k2 (stack_blocks st ++ others) ->
           exists k3, TaskStacks_drop st k2 = Done (tt, k3) /\ km_state k3 others
  | Panic => True
  | OutOfFuel => False
  end.
Proof.
  intros Hk Hr. pose proof (stacks_allocated k live Hk Hr) as Hn.
  destruct (TaskStacks_new k) as [[st k']| |]; [|done|done]. destruct Hn as [Hb Hk'].
  split_and!; [done| |].
  - intros v1 n1 v2 n2 rest x Hp. by eapply km_disjoint.
  - intros k2 others. by apply stacks_released.
Qed.

End laws.

(** ** The memory manager implements the interface *)

Section implementation.

Context {P V : Type} `{PageAllocatorLaws P, PageAllocatorLaws V}.
Context (root phys_bits : Z) (gib : bool).
Hypothesis Hbits : 12 <= phys_bits <= 52.
Hypothesis Hphys : pa_high (A := P) <= 2 ^ phys_bits.
Hypothesis Hvirt : pa_high (A := V) <= 2 ^ 47.

#[local] Instance Kernel_memory : KernelMemory (Kernel P V) := {
  km_allocate := allocate_kind root phys_bits gib;
  km_deallocate := deallocate root gib
}.

Definition in_use (b : block) : Z * Z := (b_virt b, b_size b).
Definition blocks_in_use (k : Kernel P V) (live : list (Z * Z)) : Prop :=
  exists bs, clients_ok root phys_bits (k, bs) /\ live = in_use <$> bs.

#[local] Instance apart_symmetric : Symmetric apart.
Proof. intros b b' [A1 A2]. split; intros x Hx Hx'; [by apply (A1 x)|by apply (A2 x)]. Qed.

Lemma blocks_permute (k : Kernel P V) bs live : clients_ok root phys_bits (k, bs) -> in_use <$> bs ≡ₚ live ->
  exists bs', bs' ≡ₚ bs /\ clients_ok root phys_bits (k, bs') /\ live = in_use <$> bs'.
Proof.
  intros (C1 & C2 & C3) Hp. symmetry in Hp. apply Permutation_map_inv in Hp as (bs' & -> & Hp).
  exists bs'. split; [by symmetry|]. split; [|done].
  split_and!; [done|by rewrite <- Hp|]. simpl in C3 |- *. by rewrite <- Hp.
Qed.

Lemma blocks_take f sz no_execute (k : Kernel P V) live :
  blocks_in_use k live -> 0 < sz <= 2 ^ 47 -> tables_fit k f (align_up_val sz 4096) ->
  match allocate_kind root phys_bits gib f sz no_execute k with
  | Done (v, k') => blocks_in_use k' ((v, align_up_val sz 4096) :: live)
  | Panic => True
  | OutOfFuel => False
  end.
Proof.
  intros (bs & HC & ->) Hs Hfit. pose proof HC as (Hk & HF & HA).
  destruct (allocate_kind_spec root phys_bits gib Hbits Hphys Hvirt k f sz no_execute Hk Hs Hfit)
    as [(b & k' & E & Esz & Efl & Hb)|[E _]]; rewrite E; [|done].
  exists (b :: bs). rewrite fmap_cons. unfold in_use at 2. rewrite Esz. split; [|done].
  apply (mm_step_ok root phys_bits gib Hbits Hphys Hvirt (k, bs)); [done|].
  apply (mm_step_allocate root phys_bits gib k bs f sz no_execute b k'); try done.
  pose proof (ba_block _ _ _ _ _ Hb) as Hb2. pose proof (bo_size _ _ _ Hb2).
  rewrite (block_translate root phys_bits Hbits Hphys k' b (b_virt b) Hb2); [f_equal; lia|unfold in_virt; lia].
Qed.

Lemma blocks_give v sz (k : Kernel P V) live :
  blocks_in_use k ((v, align_up_val sz 4096) :: live) -> 0 < sz <= 2 ^ 47 ->
  exists k', deallocate root gib v sz k = Done (tt, k') /\ blocks_in_use k' live.
Proof.
  intros ([|b bs] & HC & E) Hs; [done|]. rewrite fmap_cons in E. injection E as -> Esz ->.
  pose proof HC as (Hk & HF & HA). simpl in HF. apply Forall_cons in HF as [Hb HF].
  destruct (mm_deallocate_spec root phys_bits gib Hbits Hphys Hvirt k b sz Hk Hb Hs (eq_sym Esz)) as (k' & E' & _).
  exists k'. split; [done|]. exists bs. split; [|done].
  apply (mm_step_ok root phys_bits gib Hbits Hphys Hvirt (k, b :: bs)); [done|].
  by eapply (mm_step_deallocate root phys_bits gib k (b :: bs) b sz bs k').
Qed.

Lemma blocks_proper (k : Kernel P V) live live' : live ≡ₚ live' -> blocks_in_use k live -> blocks_in_use k live'.
Proof. intros Hp (bs & HC & ->). destruct (blocks_permute k bs live' HC Hp) as (bs' & _ & HC' & ->). by exists bs'. Qed.

Lemma blocks_disjoint (k : Kernel P V) live v1 n1 v2 n2 rest x :
  blocks_in_use k live -> live ≡ₚ (v1, n1) :: (v2, n2) :: rest -> v1 <= x < v1 + n1 -> ~ v2 <= x < v2 + n2.
Proof.
  intros (bs & HC & ->) Hp Hx Hx'.
  destruct (blocks_permute k bs _ HC Hp) as ([|b1 [|b2 bs']] & _ & (_ & _ & HA) & E); [done|done|].
  injection E as -> -> -> -> ->. destruct HA as [HA _]. apply Forall_cons in HA as [[HA _] _].
  by apply (HA x).
Qed.

#[local] Instance Kernel_memory_laws : KernelMemoryLaws (Kernel P V) := {
  km_state := blocks_in_use;
  km_room f sz k := tables_fit k f (align_up_val sz 4096);
  km_proper := blocks_proper;
  km_disjoint := blocks_disjoint;
  km_take := blocks_take;
  km_give := blocks_give
}.

End implementation.

(** ** A concrete task's stacks *)

#[local] Existing Instances sample_phys sample_virt sample_phys_laws sample_virt_laws.
#[local] Instance sample_memory : KernelMemory (Kernel PhysMem VirtMem) := Kernel_memory sample_root 39 false.
#[local] Instance sample_memory_laws : KernelMemoryLaws (Kernel PhysMem VirtMem) :=
  Kernel_memory_laws sample_root 39 false ltac:(lia) sample_phys_high sample_virt_high.

Definition room_test (f : Flavour) (size : Z) (k : Kernel PhysMem VirtMem) : bool :=
  match kind_pages f size (frames (mmu k)) with
  | Done (Ok _, P1) => supply_test (3 * Z.to_nat (size / 4096)) P1
  | _ => true
  end.

Fixpoint room_for_test (reqs : list (Flavour * Z)) (k : Kernel PhysMem VirtMem) : bool :=
  match reqs with
  | [] => true
  | (f, sz) :: reqs' =>
      room_test f (align_up_val sz 4096) k &&
      match allocate_kind sample_root 39 false f sz true k with
      | Done (_, k') => room_for_test reqs' k'
      | _ => true
      end
  end.

Lemma room_for_test_ok reqs : forall k, room_for_test reqs k = true -> room_for reqs k.
Proof.
  induction reqs as [|[f sz] reqs IH]; intros k; simpl; [done|].
  intros [Ht Hr]%andb_true_iff. split.
  - intros p P1 E. unfold room_test in Ht. rewrite E in Ht. by apply supply_test_ok.
  - intros v k' E. apply IH. change (km_allocate f sz true k) with (allocate_kind sample_root 39 false f sz true k) in E.
    by rewrite E in Hr.
Qed.

Lemma sample_room : room_for stack_requests sample_kernel.
Proof. apply room_for_test_ok. vm_compute. reflexivity. Qed.

Lemma sample_in_use : km_state sample_kernel [].
Proof. exists []. split; [|reflexivity]. split_and!; [apply sample_kernel_ok|constructor|exact I]. Qed.

(** The four stacks, 832 KiB of virtual memory from 8 MiB on. *)
Lemma task_stacks_owned_witness :
  match TaskStacks_new sample_kernel with Done (st, _) => st = mkStacks false 0x800000 0x840000 0x848000 0x888000 | _ => False end
  /\ match TaskStacks_new sample_kernel with
     | Done (st, k') => exists k3, TaskStacks_drop st k' = Done (tt, k3) /\ km_state k3 []
     | Panic => True
     | OutOfFuel => False
     end.
Proof.
  split; [vm_compute; reflexivity|].
  pose proof (task_stacks_owned sample_kernel [] sample_in_use sample_room) as Ht.
  destruct (TaskStacks_new sample_kernel) as [[st k']| |]; [|exact I|exact Ht].
  destruct Ht as (Hk & _ & Hd). apply (Hd k' [] Hk).
Defined.
