(* ===== verification/KernelStack.v ===== *)
(** * The stacks of the running task: [set_current_kernel_stack] of
    src/arch/x86_64/kernel/gdt.rs, and [switch] with it

    [switch] calls [set_current_kernel_stack] on the stack of the new task. The
    function reads two per-core variables through the unsafe storage, which takes
    it through the gates of the isolation, and writes two words of the task state
    segment that the variable [tss] refers to. Here memory consists of words;
    [Gdt] has the function on bytes, with the white list. *)

From stdpp Require Import base numbers list gmap.
From Stdlib Require Import ZArith Lia.
From S2P Require TaskQueue Tasks.
From S2P Require Import Prelude Pte Mmu Paging Mm Mpk Cpu Isolation Switch.

#[local] Open Scope Z_scope.

(** ** The function *)

Section kernel_stack.

Context {F : Type} `{FrameSource F}.
Context (root : Z).

(** The registers that the compiled function saves on its stack; where the GS
    bases point to: the variables of the core, which are on the white list, and the
    unsafe storage. *)
Context (frame : list reg) (percore unsafe_storage : Z).

Abbreviation Run := (M (Machine F)).

(** [copy_nonoverlapping] of [n] words *)
Fixpoint copy_words (src dst : Z) (n : nat) : Run unit :=
  match n with
  | O => ret tt
  | S n => (let! v := load root src in store root dst v) ;;; copy_words (src + 8) (dst + 8) n
  end.

(** [safe_get] of the variable at an offset: [PerCoreVariables] is three words. *)
Definition percore_get (offset : Z) : Run Z :=
  copy_words percore unsafe_storage 3 ;;;
  isolation_start ;;;
  let! value := load root (unsafe_storage + offset) in
  isolation_end ;;;
  ret value.

(** [current] is the current task of the scheduler that the variable [scheduler]
    refers to; its [RefCell] is borrowed and given back. *)
Definition set_current_kernel_stack (current : TaskQueue.Task) : Run unit :=
  push_all root frame ;;;
  let! _ := percore_get 8 in
  let! tss := percore_get 16 in
  let! (rsp0, ist0) := lift (Tasks.set_current_kernel_stack current) in
  store root (tss + 4) rsp0 ;;;
  store root (tss + 36) ist0 ;;;
  pop_all root (rev frame).

(** ** What it does *)

Implicit Types (m : Machine F).

(** The word at [x] has no byte among the [n] from [a] on. *)
Definition outside (x a n : Z) : Prop := x + 8 <= a \/ a + n <= x.

Definition frame_size : Z := 8 * Z.of_nat (length frame).

(** The function, called with the stack pointer [sp], does not write the word at [x]. *)
Definition spared (sp tss x : Z) : Prop :=
  outside x (sp - frame_size) frame_size /\ outside x unsafe_storage 24 /\ outside x (tss + 4) 8 /\ outside x (tss + 36) 8.

(** The function can run in the state [m] with the stack pointer [sp]: it has access to
    safe memory, the words it uses are mapped with the rights it needs, the unsafe
    storage is not safe memory, and what it reads it does not overwrite. *)
Record stack_ready m (sp tss : Z) : Prop := {
  sr_pkru : in_u32 (pkru_of m);
  sr_rights : perm_of (pkru_of m) Mm.SAFE_MEM_REGION = MpkRw;
  sr_frame : RSP ∉ frame /\ accessible root m (sp - frame_size) (length frame) true;
  sr_percore : accessible root m percore 3 false;
  sr_storage : accessible root m unsafe_storage 3 true;
  sr_unsafe : forall i, 0 <= i < 3 -> page_key root m (unsafe_storage + 8 * i) <> Some Mm.SAFE_MEM_REGION;
  sr_tss : permitted root m (tss + 4) true = true /\ permitted root m (tss + 36) true = true;
  sr_apart : forall i, 0 <= i < 3 -> outside (percore + 8 * i) (sp - frame_size) frame_size /\ outside (percore + 8 * i) unsafe_storage 24
}.

Lemma permitted_read m a : permitted root m a true = true -> permitted root m a false = true.
Proof.
  unfold permitted. destruct (walk _ _ _) as [[l e]|]; [|done]. intros [Hw _]%andb_prop.
  rewrite can_write_perm in Hw. apply bool_decide_eq_true in Hw. rewrite can_read_perm, Hw. done.
Qed.

Lemma copy_words_spec n : forall m src dst,
  accessible root m src n false -> accessible root m dst n true ->
  (forall i j, 0 <= i < Z.of_nat n -> 0 <= j < Z.of_nat n -> src + 8 * i <> dst + 8 * j) ->
  exists m', copy_words src dst n m = Done (tt, m') /\ rest_same m m' /\ regs m' = regs m /\
    (forall i, 0 <= i < Z.of_nat n -> data m' !! (dst + 8 * i) = Some (default 0 (data m !! (src + 8 * i)))) /\
    (forall x, (forall i, 0 <= i < Z.of_nat n -> x <> dst + 8 * i) -> data m' !! x = data m !! x).
Proof.
  induction n as [|n IH]; intros m src dst Hs Hd Hap; cbn [copy_words]; [exists m; split_and!; done || lia|].
  assert (P1 : permitted root m src false = true) by (replace src with (src + 8 * 0) by lia; apply Hs; lia).
  assert (P2 : permitted root m dst true = true) by (replace dst with (dst + 8 * 0) by lia; apply Hd; lia).
  set (m1 := with_data (<[dst := default 0 (data m !! src)]> (data m)) m).
  assert (E1 : (let! v := load root src in store root dst v) m = Done (tt, m1)).
  { unfold bind, load. rewrite P1. cbn [obind fst snd]. unfold store. by rewrite P2. }
  assert (Hcore : core m1 = core m) by done.
  destruct (IH m1 (src + 8) (dst + 8)) as (m' & E & R & Hr & Hin & Hout).
  - apply (accessible_core root m); [done|]. eapply accessible_sub; [exact Hs|lia|exists 1; lia|lia].
  - apply (accessible_core root m); [done|]. eapply accessible_sub; [exact Hd|lia|exists 1; lia|lia].
  - intros i j Hi Hj. specialize (Hap (i + 1) (j + 1)). lia.
  - exists m'. rewrite (bind_done _ _ _ _ _ E1). split_and!; [done|by eapply rest_same_trans; [|exact R]|done| |].
    + intros i Hi. destruct (decide (i = 0)) as [->|Hn].
      * rewrite Hout by (intros j Hj; lia). cbn. replace (dst + 8 * 0) with dst by lia. rewrite lookup_insert_eq.
        do 3 f_equal. lia.
      * replace (dst + 8 * i) with (dst + 8 + 8 * (i - 1)) by lia. rewrite Hin by lia. cbn.
        rewrite lookup_insert_ne by (specialize (Hap i 0); lia). do 3 f_equal. lia.
    + intros x Hx. rewrite Hout by (intros i Hi; specialize (Hx (i + 1)); lia). cbn. apply lookup_insert_ne.
      specialize (Hx 0). lia.
Qed.

Lemma isolation_start_cr0 m m' : isolation_start m = Done (tt, m') -> cr0 m' = cr0 m.
Proof. by intros [= <-]. Qed.
Lemma isolation_end_cr0 m m' : isolation_end m = Done (tt, m') -> cr0 m' = cr0 m.
Proof. by intros [= <-]. Qed.

Lemma core_eq (c c' : Core F) : pkru c = pkru c' -> core_mmu c = core_mmu c' -> c = c'.
Proof. destruct c, c'. simpl. by intros -> ->. Qed.

(** What one function call leaves of the core and its stack pointer *)
Record quiet m m' : Prop := { qt_core : core m' = core m; qt_cr0 : cr0 m' = cr0 m; qt_sp : regs m' RSP = regs m RSP }.

Lemma stack_ready_core m m' sp tss : core m' = core m -> stack_ready m sp tss -> stack_ready m' sp tss.
Proof.
  intros E [R1 R2 [R3 R3'] R4 R5 R6 [R7 R7'] R8]. assert (Hp : pkru_of m' = pkru_of m) by (unfold pkru_of; by rewrite E).
  split; rewrite ?Hp; try done; try (by eapply accessible_core).
  - split; [done|by eapply accessible_core].
  - intros i Hi. unfold page_key. rewrite E. by apply R6.
  - by rewrite !(permitted_core root m m').
Qed.

(** The gates are passed with the rights as before. *)
Lemma percore_get_spec m sp tss i :
  stack_ready m sp tss -> 0 <= i < 3 -> exists m', percore_get (8 * i) m = Done (default 0 (data m !! (percore + 8 * i)), m') /\
    quiet m m' /\ forall x, outside x unsafe_storage 24 -> data m' !! x = data m !! x.
Proof.
  intros R Hi. destruct (copy_words_spec 3 m percore unsafe_storage) as (m1 & E1 & S1 & G1 & I1 & O1); [apply R|apply R| |].
  { intros a b Ha Hb. destruct (sr_apart _ _ _ R a ltac:(lia)) as [_ Ho]. unfold outside in Ho. lia. }
  assert (Hp1 : pkru_of m1 = pkru_of m) by (unfold pkru_of; by rewrite (rs_core _ _ S1)).
  destruct (isolation_start_spec m1) as (m2 & E2 & G2); [rewrite Hp1; apply R|].
  assert (Hl : permitted root m2 (unsafe_storage + 8 * i) false = true).
  { apply (permitted_isolated root m1 m2 (regs m1 RSP)); [exact G2| |].
    - rewrite (permitted_core root m m1) by apply S1. by apply (sr_storage _ _ _ R).
    - unfold page_key. rewrite (rs_core _ _ S1). by apply (sr_unsafe _ _ _ R). }
  destruct (isolation_end_spec m2) as (m3 & E3 & G3); [rewrite (gt_pkru _ _ _ _ G2); apply isolated_pkru_u32; rewrite Hp1; apply R|].
  exists m3. split_and!.
  - unfold percore_get. rewrite (bind_done _ _ _ _ _ E1), (bind_done _ _ _ _ _ E2).
    assert (El : load root (unsafe_storage + 8 * i) m2 = Done (default 0 (data m !! (percore + 8 * i)), m2)).
    { unfold load. rewrite Hl. do 2 f_equal. rewrite (gt_data _ _ _ _ G2), I1 by lia. done. }
    rewrite (bind_done _ _ _ _ _ El), (bind_done _ _ _ _ _ E3). done.
  - split.
    + apply core_eq.
      * change (pkru_of m3 = pkru_of m). rewrite (gt_pkru _ _ _ _ G3), (gt_pkru _ _ _ _ G2), Hp1. apply restored_isolated; apply R.
      * rewrite (gt_mmu _ _ _ _ G3), (gt_mmu _ _ _ _ G2). f_equal. apply S1.
    + rewrite (isolation_end_cr0 _ _ E3), (isolation_start_cr0 _ _ E2). apply S1.
    + by rewrite (gt_sp _ _ _ _ G3), (gt_sp _ _ _ _ G2), G1.
  - intros x Hx. rewrite (gt_data _ _ _ _ G3), (gt_data _ _ _ _ G2). apply O1. unfold outside in Hx. lia.
Qed.

Lemma pop_all_any rs : forall m, RSP ∉ rs -> accessible root m (regs m RSP) (length rs) false ->
  exists m', pop_all root rs m = Done (tt, m') /\ rest_same m m' /\ data m' = data m /\
    regs m' RSP = regs m RSP + 8 * Z.of_nat (length rs).
Proof.
  induction rs as [|r rs IH]; intros m Hn Ha; cbn [pop_all length]; [exists m; split_and!; done || lia|].
  apply not_elem_of_cons in Hn as [Hr Hn]. cbn [length] in Ha.
  assert (Hp : permitted root m (regs m RSP) false = true) by (replace (regs m RSP) with (regs m RSP + 8 * 0) by lia; apply Ha; lia).
  set (m1 := popped (regs m RSP + 8) r m).
  assert (Hs1 : regs m1 RSP = regs m RSP + 8) by (unfold m1, popped; cbn; unfold set_reg_in; by rewrite decide_False).
  destruct (IH m1 Hn) as (m' & E & R & D & S).
  { apply (accessible_core root m); [done|]. rewrite Hs1. eapply accessible_sub; [exact Ha|lia|exists 1; lia|lia]. }
  exists m'. rewrite (bind_done _ _ _ _ _ (i_pop_run root r m _ eq_refl Hp)). fold m1.
  split_and!; [done|by eapply rest_same_trans; [|exact R]|by rewrite D|lia].
Qed.

(** What the function does: it returns with the stack pointer, rights and page
    tables it was called with; two words of the task state segment are the
    stacks of the current task, and otherwise it has written its own frame and
    the unsafe storage only. *)
Lemma set_current_kernel_stack_spec m tss current rsp0 ist0 :
  stack_ready m (regs m RSP) tss -> data m !! (percore + 16) = Some tss ->
  Tasks.set_current_kernel_stack current = Done (rsp0, ist0) ->
  exists m', set_current_kernel_stack current m = Done (tt, m') /\ quiet m m' /\
    data m' !! (tss + 4) = Some rsp0 /\ data m' !! (tss + 36) = Some ist0 /\
    forall x, spared (regs m RSP) tss x -> data m' !! x = data m !! x.
Proof.
  intros R Ht Ec. destruct (sr_frame _ _ _ R) as [Hn Hf].
  destruct (push_all_spec root frame m Hn Hf) as (m1 & E1 & S1 & P1 & _ & _ & D1). fold frame_size in P1.
  assert (Q1 : core m1 = core m) by apply S1.
  pose proof (stack_ready_core m m1 _ _ Q1 R) as R1.
  destruct (percore_get_spec m1 _ _ 1 R1 ltac:(lia)) as (m2 & E2 & [Q2 Z2 P2] & D2).
  pose proof (stack_ready_core m1 m2 _ _ Q2 R1) as R2.
  destruct (percore_get_spec m2 _ _ 2 R2 ltac:(lia)) as (m3 & E3 & [Q3 Z3 P3] & D3).
  assert (Ht2 : data m2 !! (percore + 8 * 2) = Some tss).
  { destruct (sr_apart _ _ _ R 2 ltac:(lia)) as [Ho1 Ho2]. rewrite D2 by done. rewrite D1 by (unfold outside in Ho1; lia). exact Ht. }
  rewrite Ht2 in E3. cbn [default] in E3.
  assert (Q : core m3 = core m) by congruence. destruct (sr_tss _ _ _ R) as [T1 T2].
  set (m4 := with_data (<[tss + 4 := rsp0]> (data m3)) m3). set (m5 := with_data (<[tss + 36 := ist0]> (data m4)) m4).
  assert (E4 : store root (tss + 4) rsp0 m3 = Done (tt, m4)) by (unfold store; by rewrite (permitted_core root m m3), T1).
  assert (E5 : store root (tss + 36) ist0 m4 = Done (tt, m5)) by (unfold store; by rewrite (permitted_core root m m4), T2).
  assert (P5 : regs m5 RSP = regs m RSP - frame_size) by (change (regs m3 RSP = regs m RSP - frame_size); lia).
  destruct (pop_all_any (rev frame) m5) as (m6 & E6 & S6 & D6 & P6).
  { intros Hx. apply Hn. by apply list_elem_of_In, in_rev, list_elem_of_In. }
  { apply (accessible_core root m); [done|]. rewrite P5, length_rev. intros i Hi. by apply permitted_read, Hf. }
  rewrite length_rev in P6. fold frame_size in P6. exists m6. split_and!.
  - unfold set_current_kernel_stack. rewrite (bind_done _ _ _ _ _ E1). change 8 with (8 * 1) at 1. rewrite (bind_done _ _ _ _ _ E2).
    change 16 with (8 * 2) at 1. rewrite (bind_done _ _ _ _ _ E3), (bind_lift_done _ _ _ _ Ec).
    by rewrite (bind_done _ _ _ _ _ E4), (bind_done _ _ _ _ _ E5).
  - split; [rewrite (rs_core _ _ S6); exact Q| |lia].
    rewrite (rs_cr0 _ _ S6). change (cr0 m5) with (cr0 m3). rewrite Z3, Z2. apply S1.
  - rewrite D6. cbn. rewrite lookup_insert_ne by lia. apply lookup_insert_eq.
  - rewrite D6. cbn. apply lookup_insert_eq.
  - intros x (H1 & H2 & H3 & H4). rewrite D6. cbn. rewrite !lookup_insert_ne by (unfold outside in *; lia).
    rewrite D3, D2 by done. apply D1. unfold outside in H1. lia.
Qed.

End kernel_stack.

(** ** [switch] *)

Section switching.

Context {F : Type} `{FrameSource F}.
Context (root : Z) (frame : list reg) (percore unsafe_storage return_address : Z).

Implicit Types (m : Machine F).

Abbreviation set_stack := (set_current_kernel_stack root frame percore unsafe_storage).
Abbreviation switch_to current := (switch root (set_stack current) return_address).

(** The [switch] of [m] can call the function for the task [current]: it can run on
    the stack of the new task; the variable [tss] holds [tss] and is not overwritten
    before it is read; the stacks of the task have addresses; and the words that
    [switch] needs afterwards, and those of [extra], are not the function's. *)
Record switch_ready m (current : TaskQueue.Task) (tss rsp0 ist0 : Z) (extra : Z -> Prop) : Prop := {
  sw_stack : stack_ready root frame percore unsafe_storage m (regs m RSI - 8) tss;
  sw_tss : data m !! (percore + 16) = Some tss;
  sw_percore : outside (percore + 16) (regs m RSP - 144) 152 /\ outside (percore + 16) (regs m RDI) 8 /\ outside (percore + 16) (regs m RSI - 8) 8;
  sw_current : Tasks.set_current_kernel_stack current = Done (rsp0, ist0);
  sw_spared : forall x, kept m x \/ extra x -> spared frame unsafe_storage (regs m RSI - 8) tss x
}.

Lemma stack_called m mc current tss rsp0 ist0 extra :
  switch_ready m current tss rsp0 ist0 extra -> calls_from m mc ->
  exists mr, set_stack current mc = Done (tt, mr) /\ quiet mc mr /\
    data mr !! (tss + 4) = Some rsp0 /\ data mr !! (tss + 36) = Some ist0 /\
    forall x, spared frame unsafe_storage (regs m RSI - 8) tss x -> data mr !! x = data mc !! x.
Proof.
  intros [S T (O1 & O2 & O3) C _] [Ec Es Ed]. rewrite <- Es in *.
  apply set_current_kernel_stack_spec; [by apply (stack_ready_core root frame percore unsafe_storage m)| |done].
  rewrite Ed; [done|..]; unfold outside in *; lia.
Qed.

(** What [switch] does. *)
Lemma switch_spec m st current tss rsp0 ist0 (extra : Z -> Prop) :
  can_switch root m (st_pkru st) -> state_at (data m) (regs m RSI) st -> switch_ready m current tss rsp0 ist0 extra ->
  ~ extra (regs m RSI - 8) ->
  exists m', switch_to current m = Done (tt, m') /\
    resumed st (regs m RSI + 152) m' /\
    data m' !! regs m RDI = Some (regs m RSP - 144) /\
    state_at (data m') (regs m RSP - 144) (context_of m) /\
    cr0 m' = Z.lor (cr0 m) 8 /\ core_mmu (core m') = core_mmu (core m) /\
    data m' !! (tss + 4) = Some rsp0 /\ data m' !! (tss + 36) = Some ist0 /\
    forall x, extra x -> ~ regs m RSP - 144 <= x < regs m RSP -> x <> regs m RDI -> data m' !! x = data m !! x.
Proof.
  intros Hs Hst Hr Hx.
  destruct (switch_spec_keeping root (set_stack current) return_address m st (fun x => kept m x \/ extra x) Hs Hst)
    as (m' & E & R & H1 & H2 & H3 & H5 & H6 & mc & mr & Hc & Er & Dr).
  - intros mc Hc. destruct (stack_called m mc current tss rsp0 ist0 extra Hr Hc) as (mr & Er & [Q1 Q2 Q3] & _ & _ & D).
    exists mr. split_and!; try done. intros x Hx'. by apply D, (sw_spared _ _ _ _ _ _ Hr).
  - by left.
  - intros [Hk|Hk]; [|done]. destruct Hs as [_ _ _ _ _ _ _ H9 [H10 H11]]. unfold kept in Hk. lia.
  - destruct (stack_called m mc current tss rsp0 ist0 extra Hr Hc) as (mr' & Er' & _ & D1 & D2 & _).
    rewrite Er in Er'. injection Er' as <-. rewrite <- Dr in D1, D2. exists m'. split_and!; try done.
    intros x Hxe. apply H6. by right.
Qed.

(** C6. [switch] saves the whole context of the running task on its stack, its PKRU
    included, tells the caller the stack pointer, and continues the other task
    exactly where its saved context says, with the PKRU, the flags and the FS base
    saved there; the task-switched flag is set, the page tables are not touched,
    and the task state segment that the core's variable [tss] refers to holds the
    kernel stack and the interrupt stack of the current task of the scheduler,
    which [set_current_kernel_stack] has read and stored. This needs that the
    stacks have room, that they, the word for the old stack pointer and the words
    [set_current_kernel_stack] writes do not overlap, and that the PKRU of the
    running task gives it full access to safe memory, and that of the new task
    access to its stack. *)
Theorem switch_correct m st current tss rsp0 ist0 :
  can_switch root m (st_pkru st) -> state_at (data m) (regs m RSI) st -> switch_ready m current tss rsp0 ist0 (fun _ => False) ->
  exists m', switch_to current m = Done (tt, m') /\
    (forall r, r <> RSP -> regs m' r = st_reg st r) /\ regs m' RSP = regs m RSI + 152 /\
    rip m' = st_rip st /\ rflags m' = st_rflags st /\ fsbase m' = st_fs st /\ pkru_of m' = st_pkru st /\
    data m' !! regs m RDI = Some (regs m RSP - 144) /\
    state_at (data m') (regs m RSP - 144) (context_of m) /\
    Z.testbit (cr0 m') 3 = true /\ core_mmu (core m') = core_mmu (core m) /\
    data m' !! (tss + 4) = Some rsp0 /\ data m' !! (tss + 36) = Some ist0.
Proof.
  intros H1 H2 H3. destruct (switch_spec m st current tss rsp0 ist0 _ H1 H2 H3) as (m' & E & [] & Hp & Hs & Hz & Hm & Hr & Hi & _); [tauto|].
  exists m'. split_and!; try done. rewrite Hz, Z.lor_spec. by rewrite orb_true_r.
Qed.

(** C19. A task that was switched away and is switched back to, at whatever time and
    from whatever task, continues after its call of [switch] with all its
    registers, flags, FS base and PKRU, provided that the saved words on its stack
    were left alone. Both switches call [set_current_kernel_stack], each for the
    task that is then current, on a state in which it can run. *)
Theorem switch_round_trip m st current tss rsp0 ist0 m1 m2 current2 tss2 rsp2 ist2 :
  can_switch root m (st_pkru st) -> state_at (data m) (regs m RSI) st -> switch_ready m current tss rsp0 ist0 (fun _ => False) ->
  switch_to current m = Done (tt, m1) ->
  (forall i, 0 <= i <= 18 -> data m2 !! (regs m RSP - 144 + 8 * i) = data m1 !! (regs m RSP - 144 + 8 * i)) ->
  data m1 !! regs m RDI = Some (regs m2 RSI) ->
  can_switch root m2 (pkru_of m) -> switch_ready m2 current2 tss2 rsp2 ist2 (fun _ => False) ->
  exists m3, switch_to current2 m2 = Done (tt, m3) /\
    (forall r, r <> RSP -> regs m3 r = regs m r) /\ regs m3 RSP = regs m RSP + 8 /\
    Some (rip m3) = data m !! regs m RSP /\ rflags m3 = rflags m /\ fsbase m3 = fsbase m /\ pkru_of m3 = pkru_of m.
Proof.
  intros H1 H2 H3 E Hstack Hptr H4 H5.
  destruct (switch_spec m st current tss rsp0 ist0 _ H1 H2 H3) as (m1' & E' & _ & Hp & Hs & _); [tauto|].
  rewrite E in E'. injection E' as <-. rewrite Hp in Hptr. injection Hptr as Hsi.
  assert (Hs2 : state_at (data m2) (regs m2 RSI) (context_of m)).
  { rewrite <- Hsi. eapply words_at_ext; [exact Hs|]. change (length (state_words (context_of m))) with 19%nat.
    intros i Hi. apply Hstack. lia. }
  destruct (switch_spec m2 (context_of m) current2 tss2 rsp2 ist2 _ H4 Hs2 H5) as (m3 & E3 & [R1 R2 R3 R4 R5 R6] & _); [tauto|].
  exists m3. split_and!; try done; [lia|]. rewrite R3. destruct (cs_return _ _ _ H1) as [ra Hra].
  cbn. by rewrite Hra.
Qed.

End switching.

(** ** Examples *)

Section sample.

#[local] Existing Instance Paging.bump_source.

(** The per-core variables and the unsafe storage lie on the second page of
    [sample1], and so does the task state segment; the compiled function saves
    two registers. *)
Definition sample_frame : list reg := [RBP; RBX].
Definition sample_percore : Z := 0x10001e00.
Definition sample_storage : Z := 0x10001e80.
Definition sample_tss : Z := 0x10001f00.

Definition sample_owner : TaskQueue.Task :=
  TaskQueue.mkTask 1 TaskQueue.TaskRunning 2 0 0 0 [] 0 (TaskQueue.mkStacks false 0x30000000 0x30100000 0 0) None None
    Collections.DoublyLinkedList_new None TaskQueue.Custom.

Definition with_percore (d : gmap Z Z) : gmap Z Z := <[sample_percore + 8 := 0x77000]> (<[sample_percore + 16 := sample_tss]> d).

Definition sample_before : Machine Z := with_data (with_percore (data sample_switch)) sample_switch.

(** What has to hold of the layout, for a machine with the address space of [sample1]
    and full rights *)
Lemma sample_stack_ready (m : Machine Z) sp :
  core m = mkCore 0 sample1 -> accessible_test sample_root sample_before (sp - 16) 2 true = true ->
  sp <= sample_percore -> stack_ready sample_root sample_frame sample_percore sample_storage m sp sample_tss.
Proof.
  intros Ec Hf Hsp. apply (stack_ready_core sample_root sample_frame sample_percore sample_storage sample_before m); [done|].
  split.
  - split; by vm_compute.
  - by vm_compute.
  - split; [|exact (accessible_test_ok _ _ _ _ _ Hf)]. intros Hx. by repeat (apply elem_of_cons in Hx as [?|Hx]; [done|]); apply elem_of_nil in Hx.
  - apply accessible_test_ok. vm_compute. reflexivity.
  - apply accessible_test_ok. vm_compute. reflexivity.
  - intros i Hi. assert (i = 0 \/ i = 1 \/ i = 2) as [-> | [-> | ->]] by lia; by vm_compute.
  - split; vm_compute; reflexivity.
  - intros i Hi. unfold outside, frame_size, sample_percore, sample_storage in *. cbn [length sample_frame]. lia.
Qed.

Lemma sample_can_switch_before : can_switch sample_root sample_before 0xC.
Proof.
  destruct sample_can_switch as [C1 C2 C3 C4 C5 C6 C7 C8 C9]. by split.
Qed.

Lemma sample_state_before : state_at (data sample_before) (regs sample_before RSI) sample_state.
Proof. unfold state_at. vm_compute. by repeat split. Qed.

Lemma sample_switch_ready : switch_ready sample_root sample_frame sample_percore sample_storage sample_before sample_owner sample_tss
  (0x30000000 + DEFAULT_STACK_SIZE - 0x10) (0x30100000 + KERNEL_STACK_SIZE - 0x10) (fun _ => False).
Proof.
  split.
  - apply sample_stack_ready; [done|vm_compute; reflexivity|by vm_compute].
  - vm_compute. reflexivity.
  - change (regs sample_before RSP) with 0x10000800. change (regs sample_before RDI) with 0x10000900. change (regs sample_before RSI) with 0x10001000.
    unfold outside, sample_percore. lia.
  - vm_compute. reflexivity.
  - intros x [Hx|[]]. unfold kept in Hx. change (regs sample_before RSP) with 0x10000800 in Hx.
    change (regs sample_before RDI) with 0x10000900 in Hx. change (regs sample_before RSI) with 0x10001000 in *.
    unfold spared, outside, frame_size, sample_storage, sample_tss. cbn [length sample_frame]. lia.
Qed.

Abbreviation sample_run := (switch sample_root (set_current_kernel_stack sample_root sample_frame sample_percore sample_storage sample_owner) 0x201234).

Lemma switch_correct_witness :
  exists m', sample_run sample_before = Done (tt, m') /\
    rip m' = 0x401000 /\ regs m' RDI = 11 /\ pkru_of m' = 0xC /\
    data m' !! (sample_tss + 4) = Some (0x30000000 + DEFAULT_STACK_SIZE - 0x10).
Proof.
  destruct (switch_correct sample_root sample_frame sample_percore sample_storage 0x201234 sample_before sample_state sample_owner
    _ _ _ sample_can_switch_before sample_state_before sample_switch_ready) as (m' & E & Hr & _ & Hi & _ & _ & Hp & _ & _ & _ & _ & Ht & _).
  exists m'. split_and!; [exact E|exact Hi|by apply Hr|exact Hp|exact Ht].
Defined.

(** The other task has run a while and switches back. *)
Definition sample_between : Machine Z := run_state sample_run sample_before.

Definition sample_back : Machine Z :=
  mkMachine (fun r => match r with RSP => 0x10001800 | RDI => 0x10001900 | RSI => 0x10000800 - 144 | _ => 9 end)
    0x202 0 0x5000 0x80000011 (<[0x10001800 := 0x400def]> (data sample_between)) (mkCore 0 sample1) sample_task.

Lemma sample_switch_done : sample_run sample_before = Done (tt, sample_between).
Proof. refine (run_done sample_run sample_before tt _). vm_compute. reflexivity. Qed.

Lemma sample_can_switch_back : can_switch sample_root sample_back 0.
Proof.
  split.
  - apply accessible_test_ok. vm_compute. reflexivity.
  - exists 0x400def. vm_compute. reflexivity.
  - vm_compute. reflexivity.
  - by vm_compute.
  - split; vm_compute; reflexivity.
  - vm_compute. reflexivity.
  - apply accessible_test_ok. vm_compute. reflexivity.
  - left. change (0x10000800 - 144 + 152 <= 0x10001800 - 144). lia.
  - change ((0x10001900 < 0x10001800 - 144 \/ 0x10001800 < 0x10001900) /\
      (0x10001900 < 0x10000800 - 144 - 8 \/ 0x10000800 - 144 + 152 <= 0x10001900)). lia.
Qed.

Lemma sample_ready_back : switch_ready sample_root sample_frame sample_percore sample_storage sample_back sample_owner sample_tss
  (0x30000000 + DEFAULT_STACK_SIZE - 0x10) (0x30100000 + KERNEL_STACK_SIZE - 0x10) (fun _ => False).
Proof.
  split.
  - apply sample_stack_ready; [done|vm_compute; reflexivity|by vm_compute].
  - vm_compute. reflexivity.
  - change (regs sample_back RSP) with 0x10001800. change (regs sample_back RDI) with 0x10001900. change (regs sample_back RSI) with (0x10000800 - 144).
    unfold outside, sample_percore. lia.
  - vm_compute. reflexivity.
  - intros x [Hx|[]]. unfold kept in Hx. change (regs sample_back RSP) with 0x10001800 in Hx.
    change (regs sample_back RDI) with 0x10001900 in Hx. change (regs sample_back RSI) with (0x10000800 - 144) in *.
    unfold spared, outside, frame_size, sample_storage, sample_tss. cbn [length sample_frame]. lia.
Qed.

Lemma switch_round_trip_witness :
  exists m3, sample_run sample_back = Done (tt, m3) /\
    regs m3 RBX = 5 /\ fsbase m3 = 0x7000 /\ pkru_of m3 = 0 /\ rflags m3 = 0x246.
Proof.
  destruct (switch_round_trip sample_root sample_frame sample_percore sample_storage 0x201234 sample_before sample_state sample_owner
    _ _ _ sample_between sample_back sample_owner sample_tss (0x30000000 + DEFAULT_STACK_SIZE - 0x10)
    (0x30100000 + KERNEL_STACK_SIZE - 0x10) sample_can_switch_before sample_state_before sample_switch_ready sample_switch_done)
    as (m3 & E & Hr & _ & _ & Hs & Hf & Hp).
  - intros i Hi. change (regs sample_before RSP) with 0x10000800. unfold sample_back. cbn [data].
    apply lookup_insert_ne. lia.
  - vm_compute. reflexivity.
  - exact sample_can_switch_back.
  - exact sample_ready_back.
  - exists m3. split_and!; [exact E|by apply Hr|exact Hf|exact Hp|exact Hs].
Defined.

End sample.
