(* ===== verification/NewTask.v ===== *)
(** * The first stack frame of a task: [Task::create_stack_frame] of
    src/arch/x86_64/kernel/scheduler.rs

    The stack of a new task is shared memory while it is filled, so that the
    isolated [write_bytes] can reach it, and safe memory afterwards. On its top lie
    a marker, the address of [leave_task] and the [State] from which [switch]
    starts the task. *)

From stdpp Require Import base numbers list gmap.
From Stdlib Require Import ZArith Lia.
From S2P Require TaskQueue Tasks.
From S2P Require Import Prelude Pte Mmu Paging Mm Mpk Cpu Isolation Switch KernelStack.

#[local] Open Scope Z_scope.

(** [write_bytes] over [n] words from [a] on, [v] being the byte repeated. *)
Fixpoint fill (a : Z) (n : nat) (v : Z) : list access :=
  match n with
  | O => []
  | S n => Write a v :: fill (a + 8) n v
  end.

Section frame.

Context {F : Type} `{FrameSource F}.
Context (root : Z) (supports_1gib_pages : bool).

(** The addresses of [task_entry] and [leave_task]. *)
Context (task_entry leave_task : Z).

Abbreviation Run := (M (Machine F)).

(** [isolation_start!(); *a = v; isolation_end!()] *)
Definition isolated_store (a v : Z) : Run unit :=
  isolation_start ;;;
  store root a v ;;;
  isolation_end.

Definition create_stack_frame (stack user_stack func arg : Z) : Run (Z * Z) :=
  set_key root supports_1gib_pages BasePageSize stack (DEFAULT_STACK_SIZE / 4096) SHARED_MEM_REGION ;;;
  let! _ := isolate_function_weak root supports_1gib_pages
    (run_accesses root (fill stack (Z.to_nat (DEFAULT_STACK_SIZE / 8)) 0xCDCDCDCDCDCDCDCD)) in
  let! top := lift (add64 stack DEFAULT_STACK_SIZE) in
  let! sp := lift (sub64 top 0x10) in
  isolated_store sp 0xDEADBEEF ;;;
  let! sp := lift (sub64 sp 8) in
  isolated_store sp leave_task ;;;
  let! sp := lift (sub64 sp size_of_State) in
  isolation_start ;;;
  isolation_end ;;;
  let! _ := isolate_function_weak root supports_1gib_pages
    (run_accesses root (fill sp (Z.to_nat (size_of_State / 8)) 0)) in
  store root (sp + 144) task_entry ;;;
  store root (sp + 80) func ;;;
  store root (sp + 88) arg ;;;
  store root (sp + 136) 0x1202 ;;;
  let! user_sp := lift (add64 user_stack DEFAULT_STACK_SIZE) in
  set_key root supports_1gib_pages BasePageSize stack (DEFAULT_STACK_SIZE / 4096) Mm.SAFE_MEM_REGION ;;;
  ret (sp, user_sp).

End frame.

(** The state a new task starts from. *)
Definition fresh_state (task_entry func arg : Z) : State :=
  mkState 0 0 (fun r => match r with RDI => func | RSI => arg | _ => 0 end) 0x1202 task_entry.

(** ** Filling memory *)

(** What a list of writes leaves in memory. *)
Fixpoint after_writes (l : list access) (d : gmap Z Z) : gmap Z Z :=
  match l with
  | [] => d
  | Read _ :: tl => after_writes tl d
  | Write a v :: tl => after_writes tl (<[a := v]> d)
  end.

Definition is_write (c : access) : Prop := match c with Read _ => False | Write _ _ => True end.

Lemma after_fill_out n a v d x :
  (forall i, 0 <= i < Z.of_nat n -> x <> a + 8 * i) -> after_writes (fill a n v) d !! x = d !! x.
Proof.
  revert a d. induction n as [|n IH]; intros a d Hx; cbn [fill after_writes]; [done|]. rewrite IH.
  - apply lookup_insert_ne. specialize (Hx 0 ltac:(lia)). lia.
  - intros i Hi. specialize (Hx (i + 1) ltac:(lia)). lia.
Qed.

Lemma after_fill_in n a v d i :
  0 <= i < Z.of_nat n -> after_writes (fill a n v) d !! (a + 8 * i) = Some v.
Proof.
  revert a d i. induction n as [|n IH]; intros a d i Hi; cbn [fill after_writes]; [lia|].
  destruct (decide (i = 0)) as [->|Hn].
  - rewrite after_fill_out by lia. rewrite Z.mul_0_r, Z.add_0_r. apply lookup_insert_eq.
  - replace (a + 8 * i) with (a + 8 + 8 * (i - 1)) by lia. apply IH. lia.
Qed.

Lemma fill_spec n a v c : c ∈ fill a n v -> is_write c /\ exists i, 0 <= i < Z.of_nat n /\ acc_addr c = a + 8 * i.
Proof.
  revert a. induction n as [|n IH]; intros a Hc; cbn [fill] in Hc; [by apply not_elem_of_nil in Hc|].
  apply elem_of_cons in Hc as [->|Hc].
  - split; [done|]. exists 0. simpl. lia.
  - destruct (IH _ Hc) as (Hw & i & Hi & E). split; [done|]. exists (i + 1). lia.
Qed.

Section writes.

Context {F : Type} `{FrameSource F}.
Context (root : Z).

Implicit Types (m : Machine F).

Lemma run_writes l m :
  (forall c, c ∈ l -> is_write c /\ permitted root m (acc_addr c) true = true) ->
  run_accesses root l m = Done ([], with_data (after_writes l (data m)) m).
Proof.
  revert m. induction l as [|c l IH]; intros m Hl; cbn [run_accesses after_writes].
  - by destruct m.
  - destruct (Hl c ltac:(by left)) as [Hw Hp]. destruct c as [a|a v]; [done|].
    unfold bind, store. cbn [acc_addr] in Hp. rewrite Hp. cbn [obind fst snd].
    rewrite IH; [done|]. intros c Hc. by apply Hl; right.
Qed.

(** A page that is writable and whose key PKRU grants may be accessed. *)
Lemma permitted_leaf m a l e w :
  walk (mem (core_mmu (core m))) root a = Some (l, e) -> Z.testbit e 1 = true ->
  perm_of (pkru_of m) (pkey_of e) = MpkRw -> permitted root m a w = true.
Proof.
  intros E Hb Hp. unfold permitted. rewrite E. destruct w.
  - by rewrite can_write_perm, Hp, Hb.
  - by rewrite can_read_perm, Hp.
Qed.

End writes.

(** ** Filling the stack *)

Section building.

Context {F : Type} `{FrameSource F}.
Context (root : Z) (supports_1gib_pages : bool).

Implicit Types (m : Machine F).

Definition in_stack (stack a : Z) : Prop := stack <= a < stack + DEFAULT_STACK_SIZE.

#[local] Instance in_stack_dec stack a : Decision (in_stack stack a).
Proof. unfold in_stack. apply _. Defined.

(** The leaf entry of [a] is one of a writable 4 KiB page. *)
Definition writable_leaf m (a e : Z) : Prop :=
  walk (mem (core_mmu (core m))) root a = Some (0%nat, e) /\ in_u64 e /\ Z.testbit e 1 = true.

(** The kernel runs on a frame of safe memory, with access to all its memory, and
    the new stack is mapped by writable 4 KiB pages that are not the frame's. *)
Record can_build m (stack : Z) : Prop := {
  cb_machine : machine_ok m;
  cb_frame : frame_pages root m;
  cb_frame_safe : forall a, in_frame m a -> page_key root m a = Some Mm.SAFE_MEM_REGION;
  cb_safe : perm_of (pkru_of m) Mm.SAFE_MEM_REGION = MpkRw;
  cb_shared : perm_of (pkru_of m) SHARED_MEM_REGION = MpkRw;
  cb_aligned : stack mod 4096 = 0;
  cb_range : 0 <= stack /\ stack + DEFAULT_STACK_SIZE <= 2 ^ 47;
  cb_leaf : forall a, in_stack stack a -> exists e, writable_leaf m a e;
  cb_apart : forall a, in_frame m a -> ~ in_stack stack a
}.

(** [m'] is [m] with other data and the key of the stack's pages. *)
Record building m (stack : Z) (key : option Z) m' : Prop := {
  bd_pkru : pkru_of m' = pkru_of m;
  bd_regs : forall r, r ∉ [RAX; RCX; RDX] -> regs m' r = regs m r;
  bd_task : current_task m' = current_task m;
  bd_tree : tree_ok (mem (core_mmu (core m'))) root;
  bd_stack : forall a, in_stack stack a -> exists e, writable_leaf m' a e /\ forall k, key = Some k -> pkey_of e = k;
  bd_frame : forall a, in_frame m a -> exists e, walk (mem (core_mmu (core m'))) root a = Some (0%nat, e) /\ in_u64 e;
  bd_keys : forall a, lower a -> ~ in_stack stack a -> page_key root m' a = page_key root m a;
  bd_trans : forall a, lower a -> translate (mem (core_mmu (core m'))) root a = translate (mem (core_mmu (core m))) root a
}.

Lemma building_start m stack : can_build m stack -> building m stack None m.
Proof.
  intros [C1 C2 C3 C4 C5 C6 C7 C8 C9]. split; try done; [apply C2| |apply C2].
  intros a Ha. destruct (C8 a Ha) as [e He]. by exists e.
Qed.

(** The frame of the running code is the same throughout. *)
Lemma building_frame m stack key m1 :
  can_build m stack -> building m stack key m1 ->
  machine_ok m1 /\ frame_pages root m1 /\ (forall a, in_frame m1 a <-> in_frame m a).
Proof.
  intros C B. assert (Es : regs m1 RSP = regs m RSP) by (apply (bd_regs _ _ _ _ B); set_solver).
  assert (Eb : regs m1 RBP = regs m RBP) by (apply (bd_regs _ _ _ _ B); set_solver).
  assert (Hi : forall a, in_frame m1 a <-> in_frame m a)
    by (intros a; unfold in_frame, frame_low, frame_high; by rewrite Es, Eb).
  split_and!; [|split|done].
  - destruct (cb_machine _ _ C) as [P1 P2]. split; [by rewrite (bd_pkru _ _ _ _ B)|].
    unfold stack_top. by rewrite (bd_task _ _ _ _ B).
  - apply (bd_tree _ _ _ _ B).
  - rewrite Es, Eb. apply (cb_frame _ _ C).
  - unfold frame_high. rewrite Eb. apply (cb_frame _ _ C).
  - intros a Ha. apply (bd_frame _ _ _ _ B), Hi, Ha.
Qed.

(** Steps that keep the page tables. *)
Lemma building_same m stack key m1 m2 :
  building m stack key m1 -> core m2 = core m1 -> current_task m2 = current_task m1 ->
  (forall r, r ∉ [RAX; RCX; RDX] -> regs m2 r = regs m1 r) -> building m stack key m2.
Proof.
  intros [B1 B2 B3 B4 B5 B6 B7 B8] Ec Et Er.
  split; unfold writable_leaf, page_key, pkru_of in *; rewrite ?Ec, ?Et; try done.
  intros r Hr. by rewrite Er, B2.
Qed.

(** Changing the key of a writable page changes nothing else of it. *)
Lemma rekeyed_leaf m1 m2 key a e :
  writable_leaf m1 a e -> 0 <= key < 16 ->
  walk (mem (core_mmu (core m2))) root a = (fun p => (p.1, with_pkey p.2 key)) <$> walk (mem (core_mmu (core m1))) root a ->
  writable_leaf m2 a (with_pkey e key) /\ pkey_of (with_pkey e key) = key.
Proof.
  intros (We & Hu & Hb) Hk E. split; [split_and!|].
  - by rewrite E, We.
  - by apply with_pkey_u64.
  - by rewrite testbit_with_pkey.
  - by apply with_pkey_pkey.
Qed.

(** Changing the key of the stack's pages. *)
Lemma building_key m stack key key' m1 :
  can_build m stack -> building m stack key m1 -> 0 <= key' < 16 ->
  exists m2, set_key root supports_1gib_pages BasePageSize stack (DEFAULT_STACK_SIZE / 4096) key' m1 = Done (tt, m2) /\
    building m stack (Some key') m2 /\ data m2 = data m1.
Proof.
  intros C B Hk. destruct (cb_range _ _ C) as [R1 R2]. pose proof (cb_aligned _ _ C) as Ha.
  assert (Hb : stack - stack mod SIZE BasePageSize = stack) by (simpl SIZE; lia).
  change (DEFAULT_STACK_SIZE / 4096) with 64.
  destruct (set_pkey_loop_spec root supports_1gib_pages BasePageSize stack key' (Z.to_nat 64)
    (core_mmu (core m1)) (bd_tree _ _ _ _ B) Hk ltac:(done)) as (s' & E & T & _ & _ & W & _);
    rewrite ?Hb in *; simpl SIZE in *; change (Z.of_nat (Z.to_nat 64)) with 64 in *; try done.
  { intros i Hi. destruct (bd_stack _ _ _ _ B (stack + i * 4096)) as (e & (We & Hu & _) & _); [|by exists e].
    unfold in_stack. change DEFAULT_STACK_SIZE with 262144. lia. }
  assert (W' : forall x, lower x -> walk (mem s') root x = if decide (in_stack stack x)
    then (fun p => (p.1, with_pkey p.2 key')) <$> walk (mem (core_mmu (core m1))) root x
    else walk (mem (core_mmu (core m1))) root x) by exact W.
  assert (Hl : forall a, in_stack stack a -> lower a) by (unfold in_stack, lower; intros; lia).
  set (m2 := with_core (mkCore (pkru_of m1) s') m1). exists m2. split_and!; [| |done].
  { unfold set_key, on_machine_mmu, set_pkey_on_page_table_entry. by rewrite E. }
  destruct B as [B1 B2 B3 B4 B5 B6 B7 B8]. split; try done.
  - intros a Hs. destruct (B5 a Hs) as (e & We & _). exists (with_pkey e key').
    destruct (rekeyed_leaf m1 m2 key' a e We Hk) as [Q1 Q2]; [|split; [done|by intros k [= <-]]].
    change (mem (core_mmu (core m2))) with (mem s'). by rewrite W', decide_True by auto.
  - intros a Hf. destruct (B6 a Hf) as (e & We & Hu). exists e. split; [|done].
    change (mem (core_mmu (core m2))) with (mem s'). rewrite W'.
    + rewrite decide_False; [done|]. by apply (cb_apart _ _ C).
    + destruct (frame_bounds root m (cb_frame _ _ C)) as (_ & _ & B0). pose proof (fp_high _ _ (cb_frame _ _ C)).
      unfold in_frame, lower in *. lia.
  - intros a Hlow Hn. rewrite <- (B7 a Hlow Hn). unfold page_key. change (mem (core_mmu (core m2))) with (mem s').
    by rewrite W', decide_False.
  - intros a Hlow. rewrite <- (B8 a Hlow). unfold translate. change (mem (core_mmu (core m2))) with (mem s').
    rewrite W' by done. case_decide as Cs; [|done].
    destruct (B5 a Cs) as (e & (We & Hu & _) & _). rewrite We. simpl. f_equal.
    apply (with_pkey_translate 0); [lia|done|done].
Qed.

(** While the stack is shared, its words may be accessed, also from isolated code. *)
Lemma building_permitted m stack m1 a w :
  can_build m stack -> building m stack (Some SHARED_MEM_REGION) m1 -> in_stack stack a ->
  permitted root m1 a w = true.
Proof.
  intros C B Ha. destruct (bd_stack _ _ _ _ B a Ha) as (e & (We & _ & Hb) & Hk).
  apply (permitted_leaf root m1 a 0 e); [done|done|]. rewrite (Hk _ eq_refl), (bd_pkru _ _ _ _ B). apply (cb_shared _ _ C).
Qed.

Lemma building_permitted_isolated m stack m1 m2 a w :
  can_build m stack -> building m stack (Some SHARED_MEM_REGION) m1 -> in_stack stack a ->
  core_mmu (core m2) = core_mmu (core m1) -> pkru_of m2 = isolated_pkru (pkru_of m1) ->
  permitted root m2 a w = true.
Proof.
  intros C B Ha Em Ep. destruct (bd_stack _ _ _ _ B a Ha) as (e & (We & _ & Hb) & Hk).
  apply (permitted_leaf root m2 a 0 e); [by rewrite Em|done|].
  rewrite (Hk _ eq_refl), Ep, isolated_perm, decide_False, (bd_pkru _ _ _ _ B) by done. apply (cb_shared _ _ C).
Qed.

(** PKRU is the same again after an isolated part. *)
Lemma building_pkru m stack key m1 :
  can_build m stack -> building m stack key m1 -> restored_pkru (isolated_pkru (pkru_of m1)) = pkru_of m1.
Proof.
  intros C B. rewrite (bd_pkru _ _ _ _ B). apply restored_isolated; [apply (cb_machine _ _ C)|apply (cb_safe _ _ C)].
Qed.

(** Through the two gates: the state is that before the first one but for data. *)
Lemma building_gates m stack key m1 m2 m3 d :
  can_build m stack -> building m stack key m1 ->
  gated m1 m2 (regs m1 RSP) (isolated_pkru (pkru_of m1)) ->
  gated (with_data d m2) m3 (regs m2 RSP) (restored_pkru (pkru_of m2)) ->
  building m stack key m3 /\ data m3 = d.
Proof.
  intros C B G G'. split; [|exact (gt_data _ _ _ _ G')]. apply (building_same m stack key m1); [done|..].
  - assert (Ep : pkru_of m3 = pkru_of m1)
      by (rewrite (gt_pkru _ _ _ _ G'), (gt_pkru _ _ _ _ G); by apply (building_pkru m stack key)).
    assert (Em : core_mmu (core m3) = core_mmu (core m1)) by (rewrite (gt_mmu _ _ _ _ G'); exact (gt_mmu _ _ _ _ G)).
    unfold pkru_of in Ep. destruct (core m3), (core m1). cbn in *. congruence.
  - rewrite (gt_task _ _ _ _ G'). exact (gt_task _ _ _ _ G).
  - intros r Hr. destruct (decide (r = RSP)) as [->|Hn].
    + rewrite (gt_sp _ _ _ _ G'). exact (gt_sp _ _ _ _ G).
    + rewrite (gt_regs _ _ _ _ G' r) by set_solver. apply (gt_regs _ _ _ _ G r). set_solver.
Qed.

Lemma building_isolated_store m stack m1 a v :
  can_build m stack -> building m stack (Some SHARED_MEM_REGION) m1 -> in_stack stack a ->
  exists m2, isolated_store root a v m1 = Done (tt, m2) /\ building m stack (Some SHARED_MEM_REGION) m2 /\
    data m2 = <[a := v]> (data m1).
Proof.
  intros C B Ha. destruct (building_frame m stack _ m1 C B) as ([Hu _] & _).
  destruct (isolation_start_spec m1 Hu) as (m2 & E2 & G2).
  destruct (isolation_end_spec (with_data (<[a := v]> (data m2)) m2)) as (m3 & E3 & G3).
  { change (in_u32 (pkru_of m2)). rewrite (gt_pkru _ _ _ _ G2). by apply isolated_pkru_u32. }
  exists m3. split.
  - unfold isolated_store. rewrite (bind_done _ _ _ _ _ E2). unfold bind, store.
    rewrite (building_permitted_isolated m stack m1 m2 a true C B Ha (gt_mmu _ _ _ _ G2) (gt_pkru _ _ _ _ G2)).
    exact E3.
  - rewrite <- (gt_data _ _ _ _ G2). by apply (building_gates m stack _ m1 m2).
Qed.

(** [isolation_start!(); let state_ref = &mut *state; isolation_end!()] *)
Lemma building_isolated_nothing m stack key m1 :
  can_build m stack -> building m stack key m1 ->
  exists m2 m3, isolation_start m1 = Done (tt, m2) /\ isolation_end m2 = Done (tt, m3) /\
    building m stack key m3 /\ data m3 = data m1.
Proof.
  intros C B. destruct (building_frame m stack _ m1 C B) as ([Hu _] & _).
  destruct (isolation_start_spec m1 Hu) as (m2 & E2 & G2).
  assert (Ed : with_data (data m2) m2 = m2) by (by destruct m2).
  destruct (isolation_end_spec (with_data (data m2) m2)) as (m3 & E3 & G3).
  { change (in_u32 (pkru_of m2)). rewrite (gt_pkru _ _ _ _ G2). by apply isolated_pkru_u32. }
  exists m2, m3. split; [done|]. rewrite Ed in E3. split; [done|].
  rewrite <- (gt_data _ _ _ _ G2). by apply (building_gates m stack _ m1 m2).
Qed.

Lemma building_store m stack m1 a v :
  can_build m stack -> building m stack (Some SHARED_MEM_REGION) m1 -> in_stack stack a ->
  exists m2, store root a v m1 = Done (tt, m2) /\ building m stack (Some SHARED_MEM_REGION) m2 /\
    data m2 = <[a := v]> (data m1).
Proof.
  intros C B Ha. exists (with_data (<[a := v]> (data m1)) m1). split_and!; [|by apply (building_same m stack _ m1)|done].
  unfold store. by rewrite (building_permitted m stack m1 a true C B Ha).
Qed.

(** An isolated call that writes the stack. *)
Lemma building_weak m stack m1 l :
  can_build m stack -> building m stack (Some SHARED_MEM_REGION) m1 ->
  (forall c, c ∈ l -> is_write c /\ in_stack stack (acc_addr c)) ->
  exists m2, isolate_function_weak root supports_1gib_pages (run_accesses root l) m1 = Done ([], m2) /\
    building m stack (Some SHARED_MEM_REGION) m2 /\ data m2 = after_writes l (data m1).
Proof.
  intros C B Hl. destruct (building_frame m stack _ m1 C B) as (Hm & Hf & Hi).
  destruct (weak_run root supports_1gib_pages (run_accesses root l) m1 Hm Hf) as (ms & mi & K & G & E).
  assert (Hs : forall a, in_stack stack a -> lower a /\ ~ in_frame m1 a).
  { intros a Ha. split; [destruct (cb_range _ _ C); unfold in_stack, lower in *; lia|].
    rewrite Hi. intros Hfr. by apply (cb_apart _ _ C a). }
  rewrite (bind_done _ _ _ [] (with_data (after_writes l (data mi)) mi)) in E.
  2: { apply run_writes. intros c Hc. destruct (Hl c Hc) as [Hw Ha]. split; [done|].
       destruct (Hs _ Ha) as [Hlow Hn]. destruct (bd_stack _ _ _ _ B _ Ha) as (e & (We & _ & Hb) & Hk).
       apply (permitted_leaf root mi _ 0 e); [|done|].
       - rewrite (gt_mmu _ _ _ _ G), (fk_walk _ _ _ _ K _ Hlow). by rewrite decide_False.
       - rewrite (Hk _ eq_refl), (gt_pkru _ _ _ _ G), isolated_perm, decide_False, (bd_pkru _ _ _ _ B) by done.
         apply (cb_shared _ _ C). }
  destruct (weak_epilogue root supports_1gib_pages m1 ms mi (after_writes l (data mi)) _ ([] : list Z) Hm Hf K G)
    as (m2 & E2 & W1 & W2 & W3 & W4 & W5 & W6 & W7 & W8 & W9).
  exists m2. split; [by rewrite E, E2|]. split.
  2: { rewrite W4. f_equal. rewrite (gt_data _ _ _ _ G). apply (fk_data _ _ _ _ K). }
  rewrite (building_pkru m stack _ m1 C B) in W5.
  assert (Hsp : regs m2 RBP = regs m1 RBP) by (apply W6; set_solver).
  split.
  - rewrite W5. apply (bd_pkru _ _ _ _ B).
  - intros r Hr. rewrite <- (bd_regs _ _ _ _ B r Hr). destruct (decide (r = RSP)) as [->|Hn]; [done|]. apply W6. set_solver.
  - rewrite W7. apply (bd_task _ _ _ _ B).
  - apply (fp_tree _ _ W8).
  - intros a Ha. destruct (Hs a Ha) as [Hlow Hn]. destruct (bd_stack _ _ _ _ B a Ha) as (e & (We & Hu) & Hk).
    exists e. split; [|done]. split; [|done]. by rewrite W9.
  - intros a Ha. apply (fp_leaf _ _ W8). unfold in_frame, frame_low, frame_high. rewrite W3, Hsp. by apply Hi.
  - intros a Ha Hn. rewrite W2 by done. case_decide as Hfr; [|by apply (bd_keys _ _ _ _ B)].
    symmetry. by apply (cb_frame_safe _ _ C), Hi.
  - intros a Ha. rewrite W1 by done. by apply (bd_trans _ _ _ _ B).
Qed.

Section result.

Context (task_entry leave_task : Z).

(** Where [create_stack_frame] puts the state. *)
Definition frame_pointer (stack : Z) : Z := stack + DEFAULT_STACK_SIZE - 176.

(** What [create_stack_frame] leaves in the data memory [d]. *)
Definition frame_data (stack func arg : Z) (d : gmap Z Z) : gmap Z Z :=
  let sp := frame_pointer stack in
  <[sp + 136 := 0x1202]> (<[sp + 88 := arg]> (<[sp + 80 := func]> (<[sp + 144 := task_entry]>
    (after_writes (fill sp (Z.to_nat (size_of_State / 8)) 0)
      (<[sp + 152 := leave_task]> (<[sp + 160 := 0xDEADBEEF]>
        (after_writes (fill stack (Z.to_nat (DEFAULT_STACK_SIZE / 8)) 0xCDCDCDCDCDCDCDCD) d))))))).

Lemma fill_in_stack stack a n v c :
  stack <= a -> a + 8 * Z.of_nat n <= stack + DEFAULT_STACK_SIZE -> c ∈ fill a n v ->
  is_write c /\ in_stack stack (acc_addr c).
Proof. intros H1 H2 Hc. destruct (fill_spec n a v c Hc) as (Hw & i & Hi & E). split; [done|]. unfold in_stack. lia. Qed.

Lemma create_stack_frame_run m stack user_stack func arg :
  can_build m stack -> 0 <= user_stack -> user_stack + DEFAULT_STACK_SIZE < W64 ->
  exists m', create_stack_frame root supports_1gib_pages task_entry leave_task stack user_stack func arg m =
      Done ((frame_pointer stack, user_stack + DEFAULT_STACK_SIZE), m') /\
    building m stack (Some Mm.SAFE_MEM_REGION) m' /\ data m' = frame_data stack func arg (data m).
Proof.
  intros C Hu Hu'. destruct (cb_range _ _ C) as [R1 R2]. assert (HW : 2 ^ 47 < W64) by done.
  unfold create_stack_frame, frame_data. set (sp := frame_pointer stack).
  assert (Hn : Z.of_nat (Z.to_nat (DEFAULT_STACK_SIZE / 8)) = 32768) by (rewrite Z2Nat.id; done). revert Hn.
  generalize (Z.to_nat (DEFAULT_STACK_SIZE / 8)). intros n Hn.
  assert (Hk : Z.of_nat (Z.to_nat (size_of_State / 8)) = 19) by done. revert Hk.
  generalize (Z.to_nat (size_of_State / 8)). intros k Hk.
  assert (Ed : DEFAULT_STACK_SIZE = 262144) by done. assert (Es : size_of_State = 152) by done.
  assert (Esp : sp = stack + 261968) by (unfold sp, frame_pointer; lia).
  assert (Hin : forall x, sp <= x < sp + 176 -> in_stack stack x) by (unfold in_stack; intros; lia).
  destruct (building_key m stack None SHARED_MEM_REGION m C (building_start m stack C) ltac:(by vm_compute))
    as (m1 & E1 & B1 & D1). rewrite (bind_done _ _ _ _ _ E1).
  destruct (building_weak m stack m1 (fill stack n 0xCDCDCDCDCDCDCDCD) C B1) as (m2 & E2 & B2 & D2).
  { intros c. apply fill_in_stack; lia. }
  rewrite (bind_done _ _ _ _ _ E2).
  rewrite (bind_lift_done _ _ (stack + DEFAULT_STACK_SIZE)) by (apply add64_done; lia).
  rewrite (bind_lift_done _ _ (sp + 160)) by (rewrite sub64_done by lia; f_equal; lia).
  destruct (building_isolated_store m stack m2 (sp + 160) 0xDEADBEEF C B2) as (m3 & E3 & B3 & D3); [apply Hin; lia|].
  rewrite (bind_done _ _ _ _ _ E3).
  rewrite (bind_lift_done _ _ (sp + 152)) by (rewrite sub64_done by lia; f_equal; lia).
  destruct (building_isolated_store m stack m3 (sp + 152) leave_task C B3) as (m4 & E4 & B4 & D4); [apply Hin; lia|].
  rewrite (bind_done _ _ _ _ _ E4).
  rewrite (bind_lift_done _ _ sp) by (rewrite sub64_done by lia; f_equal; lia).
  destruct (building_isolated_nothing m stack _ m4 C B4) as (m5' & m5 & E5' & E5 & B5 & D5).
  rewrite (bind_done _ _ _ _ _ E5'), (bind_done _ _ _ _ _ E5).
  destruct (building_weak m stack m5 (fill sp k 0) C B5) as (m6 & E6 & B6 & D6).
  { intros c. apply fill_in_stack; lia. }
  rewrite (bind_done _ _ _ _ _ E6).
  destruct (building_store m stack m6 (sp + 144) task_entry C B6) as (m7 & E7 & B7 & D7); [apply Hin; lia|].
  destruct (building_store m stack m7 (sp + 80) func C B7) as (m8 & E8 & B8 & D8); [apply Hin; lia|].
  destruct (building_store m stack m8 (sp + 88) arg C B8) as (m9 & E9 & B9 & D9); [apply Hin; lia|].
  destruct (building_store m stack m9 (sp + 136) 0x1202 C B9) as (m10 & E10 & B10 & D10); [apply Hin; lia|].
  rewrite (bind_done _ _ _ _ _ E7), (bind_done _ _ _ _ _ E8), (bind_done _ _ _ _ _ E9), (bind_done _ _ _ _ _ E10).
  rewrite (bind_lift_done _ _ (user_stack + DEFAULT_STACK_SIZE)) by (apply add64_done; lia).
  destruct (building_key m stack _ Mm.SAFE_MEM_REGION m10 C B10 ltac:(by vm_compute)) as (m11 & E11 & B11 & D11).
  rewrite (bind_done _ _ _ _ _ E11). exists m11. split_and!; [reflexivity|done|].
  by rewrite D11, D10, D9, D8, D7, D6, D5, D4, D3, D2, D1.
Qed.

(** The words of the state, by their index. *)
Lemma frame_data_word stack func arg d i :
  0 <= i < 19 -> frame_data stack func arg d !! (frame_pointer stack + 8 * i) =
    Some (if decide (i = 17) then 0x1202 else if decide (i = 11) then arg
          else if decide (i = 10) then func else if decide (i = 18) then task_entry else 0).
Proof.
  intros Hi. unfold frame_data. set (sp := frame_pointer stack).
  destruct (decide (i = 17)) as [->|H17]; [change (8 * 17) with 136; by rewrite lookup_insert_eq|].
  rewrite lookup_insert_ne by lia.
  destruct (decide (i = 11)) as [->|H11]; [change (8 * 11) with 88; by rewrite lookup_insert_eq|].
  rewrite lookup_insert_ne by lia.
  destruct (decide (i = 10)) as [->|H10]; [change (8 * 10) with 80; by rewrite lookup_insert_eq|].
  rewrite lookup_insert_ne by lia.
  destruct (decide (i = 18)) as [->|H18]; [change (8 * 18) with 144; by rewrite lookup_insert_eq|].
  rewrite lookup_insert_ne by lia. apply after_fill_in. by change (Z.of_nat (Z.to_nat (size_of_State / 8))) with 19.
Qed.

Lemma frame_data_state stack func arg d :
  state_at (frame_data stack func arg d) (frame_pointer stack) (fresh_state task_entry func arg).
Proof.
  assert (Hw : forall i a, 0 <= i < 19 -> a = frame_pointer stack + 8 * i -> frame_data stack func arg d !! a = _)
    by (intros i a Hi ->; exact (frame_data_word stack func arg d i Hi)).
  unfold state_at. cbn -[frame_data frame_pointer Z.add].
  split_and!; [erewrite (Hw 0)|erewrite (Hw 1)|erewrite (Hw 2)|erewrite (Hw 3)|erewrite (Hw 4)|erewrite (Hw 5)
    |erewrite (Hw 6)|erewrite (Hw 7)|erewrite (Hw 8)|erewrite (Hw 9)|erewrite (Hw 10)|erewrite (Hw 11)|erewrite (Hw 12)
    |erewrite (Hw 13)|erewrite (Hw 14)|erewrite (Hw 15)|erewrite (Hw 16)|erewrite (Hw 17)|erewrite (Hw 18)|done];
    done || lia.
Qed.

(** The words of the state are written last. *)
Lemma frame_data_below stack func arg d x :
  ~ frame_pointer stack <= x < frame_pointer stack + 152 ->
  frame_data stack func arg d !! x =
    (<[frame_pointer stack + 152 := leave_task]> (<[frame_pointer stack + 160 := 0xDEADBEEF]>
       (after_writes (fill stack (Z.to_nat (DEFAULT_STACK_SIZE / 8)) 0xCDCDCDCDCDCDCDCD) d))) !! x.
Proof.
  intros Hx. unfold frame_data. set (sp := frame_pointer stack) in *. rewrite !(lookup_insert_ne _ (sp + _)) by lia.
  apply after_fill_out. change (Z.of_nat (Z.to_nat (size_of_State / 8))) with 19. lia.
Qed.

(** The rest of the stack. *)
Lemma frame_data_rest stack func arg d :
  let d' := frame_data stack func arg d in
  d' !! (frame_pointer stack + 152) = Some leave_task /\ d' !! (frame_pointer stack + 160) = Some 0xDEADBEEF /\
  (forall i, 0 <= i < DEFAULT_STACK_SIZE / 8 -> ~ frame_pointer stack <= stack + 8 * i < frame_pointer stack + 168 ->
     d' !! (stack + 8 * i) = Some 0xCDCDCDCDCDCDCDCD) /\
  (forall x, ~ in_stack stack x -> d' !! x = d !! x).
Proof.
  intros d'. unfold d'. assert (Ed : DEFAULT_STACK_SIZE = 262144) by done.
  assert (Ek : DEFAULT_STACK_SIZE / 8 = 32768) by done.
  assert (Hn : Z.of_nat (Z.to_nat (DEFAULT_STACK_SIZE / 8)) = 32768) by (rewrite Z2Nat.id; done).
  assert (Hp : frame_pointer stack = stack + 261968) by (unfold frame_pointer; lia).
  split_and!.
  - rewrite frame_data_below by lia. by rewrite lookup_insert_eq.
  - rewrite frame_data_below by lia. by rewrite lookup_insert_ne, lookup_insert_eq by lia.
  - intros i Hi Ho. rewrite frame_data_below by lia. rewrite !lookup_insert_ne by lia. apply after_fill_in. lia.
  - intros x Hx. unfold in_stack in Hx. rewrite frame_data_below by lia. rewrite !lookup_insert_ne by lia.
    apply after_fill_out. lia.
Qed.

(** [create_stack_frame] makes a task's first stack frame: the saved state with which
    the task starts at [task_entry] with its function and argument, below the
    address of [leave_task] and a marker. Memory outside the stack, all translations and the keys of all other pages
    are as before; afterwards the whole stack is safe memory, and the creating task
    goes on with its own stack pointer and PKRU. *)
Theorem create_stack_frame_correct m stack user_stack func arg :
  can_build m stack -> 0 <= user_stack -> user_stack + DEFAULT_STACK_SIZE < W64 ->
  let sp := frame_pointer stack in
  exists m', create_stack_frame root supports_1gib_pages task_entry leave_task stack user_stack func arg m =
      Done ((sp, user_stack + DEFAULT_STACK_SIZE), m') /\
    state_at (data m') sp (fresh_state task_entry func arg) /\
    data m' !! (sp + 152) = Some leave_task /\ data m' !! (sp + 160) = Some 0xDEADBEEF /\
    (forall i, 0 <= i < DEFAULT_STACK_SIZE / 8 -> ~ sp <= stack + 8 * i < sp + 168 ->
       data m' !! (stack + 8 * i) = Some 0xCDCDCDCDCDCDCDCD) /\
    (forall x, ~ in_stack stack x -> data m' !! x = data m !! x) /\
    (forall a, in_stack stack a -> page_key root m' a = Some Mm.SAFE_MEM_REGION) /\
    (forall a, lower a -> ~ in_stack stack a -> page_key root m' a = page_key root m a) /\
    (forall a, lower a -> translate (mem (core_mmu (core m'))) root a = translate (mem (core_mmu (core m))) root a) /\
    (forall r, r ∉ [RAX; RCX; RDX] -> regs m' r = regs m r) /\ pkru_of m' = pkru_of m.
Proof.
  intros C Hu Hu' sp. destruct (create_stack_frame_run m stack user_stack func arg C Hu Hu') as (m' & E & B & D).
  exists m'. rewrite D. destruct (frame_data_rest stack func arg (data m)) as (R1 & R2 & R3 & R4).
  split_and!; [exact E|apply frame_data_state|done|done|done|done| | | | |].
  - intros a Ha. destruct (bd_stack _ _ _ _ B a Ha) as (e & (We & _) & Hk). unfold page_key. rewrite We. simpl.
    f_equal. by apply Hk.
  - apply (bd_keys _ _ _ _ B).
  - apply (bd_trans _ _ _ _ B).
  - apply (bd_regs _ _ _ _ B).
  - apply (bd_pkru _ _ _ _ B).
Qed.

(** C26. The first switch to a new task, from whatever task and whatever happened in
    between to other memory: it begins [task_entry] with the function and the
    argument of its creator in the argument registers, with full access to memory,
    interrupts enabled and a stack aligned as for a call; returning from there
    continues in [leave_task]. This needs what [create_stack_frame] and [switch]
    need - room on the stacks, memory that does not overlap, a creator and a running
    task with full access to safe memory - and that nothing wrote the first frame. *)
Theorem new_task_starts m stack user_stack func arg sp user_sp m1 m2
    frame percore unsafe_storage return_address current tss rsp0 ist0 :
  can_build m stack -> 0 <= user_stack -> user_stack + DEFAULT_STACK_SIZE < W64 ->
  create_stack_frame root supports_1gib_pages task_entry leave_task stack user_stack func arg m =
    Done ((sp, user_sp), m1) ->
  regs m2 RSI = sp -> (forall x, sp <= x < sp + 160 -> data m2 !! x = data m1 !! x) ->
  can_switch root m2 0 ->
  switch_ready root frame percore unsafe_storage m2 current tss rsp0 ist0 (fun x => x = sp + 152) ->
  (forall x, regs m2 RSP - 144 <= x <= regs m2 RSP \/ x = regs m2 RDI -> ~ in_stack stack x) ->
  permitted root (with_pkru 0 m2) (sp + 152) false = true ->
  exists m3, switch root (set_current_kernel_stack root frame percore unsafe_storage current) return_address m2 = Done (tt, m3) /\
    rip m3 = task_entry /\ regs m3 RDI = func /\ regs m3 RSI = arg /\ pkru_of m3 = 0 /\ fsbase m3 = 0 /\
    Z.testbit (rflags m3) 9 = true /\ regs m3 RSP mod 16 = 8 /\
    exists m4, ret_near root m3 = Done (tt, m4) /\ rip m4 = leave_task /\ in_stack stack (regs m4 RSP).
Proof.
  intros C Hu Hu' E Esi Hd Hsw Hc Hap Hp.
  destruct (create_stack_frame_run m stack user_stack func arg C Hu Hu') as (m1' & E' & _ & D).
  rewrite E' in E. injection E as <- <- <-. rewrite D in Hd.
  destruct (frame_data_rest stack func arg (data m)) as (R1 & _). set (sp := frame_pointer stack) in *.
  assert (Ed : DEFAULT_STACK_SIZE = 262144) by done.
  assert (Esp : sp = stack + 261968) by (unfold sp, frame_pointer; lia).
  assert (Hst : state_at (data m2) (regs m2 RSI) (fresh_state task_entry func arg)).
  { rewrite Esi. eapply words_at_ext; [apply frame_data_state|]. fold sp.
    change (length (state_words (fresh_state task_entry func arg))) with 19%nat. intros i Hi. apply Hd. lia. }
  destruct (switch_spec root frame percore unsafe_storage return_address m2 (fresh_state task_entry func arg) current tss rsp0 ist0 _ Hsw Hst Hc)
    as (m3 & E3 & [Q1 Q2 Q3 Q4 Q5 Q6] & _ & _ & _ & M3 & _ & _ & D3); [lia|].
  rewrite Esi in Q2. assert (Hl : data m3 !! (sp + 152) = Some leave_task).
  { rewrite D3; [rewrite Hd by lia; exact R1|reflexivity|..]; unfold in_stack in Hap; specialize (Hap (sp + 152)); lia. }
  assert (H3 : permitted root m3 (regs m3 RSP) false = true).
  { rewrite Q2, <- Hp. apply permitted_core. change (pkru (core m3) = 0) in Q6. unfold with_pkru. cbn [core with_core].
    rewrite <- M3, <- Q6. by destruct (core m3). }
  exists m3. split_and!; [exact E3|exact Q3|by apply Q1|by apply Q1|exact Q6|exact Q5|by rewrite Q4| |].
  - rewrite Q2, Esp. pose proof (cb_aligned _ _ C). Z.div_mod_to_equations. lia.
  - eexists. split; [unfold ret_near; by rewrite (bind_done _ _ _ _ _ (pop_word_run root m3 H3))|].
    rewrite Q2, Hl. split; [done|]. cbn. unfold set_reg_in. rewrite decide_True by done. unfold in_stack. lia.
Qed.

End result.

End building.

(** ** Examples *)

(** A check for the pages of a range that computes. *)
Definition leaves_test {F} (root : Z) (m : Machine F) (base : Z) (n : nat) : bool :=
  forallb (fun i => match walk (mem (core_mmu (core m))) root (base + Z.of_nat i * 4096) with
                    | Some (O, e) => (0 <=? e) && (e <? W64) && Z.testbit e 1 && (pkey_of e =? 1)
                    | _ => false
                    end) (seq 0 n).

Lemma leaves_test_ok {F} (root : Z) (m : Machine F) base n a :
  leaves_test root m base n = true -> base mod 4096 = 0 -> 0 <= base -> base + Z.of_nat n * 4096 <= 2 ^ 47 ->
  base <= a < base + Z.of_nat n * 4096 -> exists e, writable_leaf root m a e /\ pkey_of e = 1.
Proof.
  unfold leaves_test. rewrite forallb_forall. intros Ht Hb H0 H1 Ha.
  pose proof (Z.div_mod (a - base) 4096 ltac:(lia)) as Hd. pose proof (Z.mod_pos_bound (a - base) 4096 ltac:(lia)) as Hm.
  assert (Hq : 0 <= (a - base) / 4096) by (apply Z.div_pos; lia).
  assert (Hi : Z.to_nat ((a - base) / 4096) ∈ seq 0 n) by (apply list_elem_of_In, in_seq; lia).
  apply list_elem_of_In, Ht in Hi. rewrite Z2Nat.id in Hi by done.
  set (v := base + (a - base) / 4096 * 4096) in *.
  assert (Hv : v mod 4096 = 0) by (unfold v; by rewrite Z.mod_add).
  destruct (walk _ root v) as [[[|l] e]|] eqn:E; try discriminate Hi.
  rewrite !andb_true_iff, Z.leb_le, Z.ltb_lt, Z.eqb_eq in Hi. destruct Hi as [[[He0 He1] Hb1] Hk].
  exists e. split; [|done]. split; [|done]. apply (walk_same _ _ v); [|exact E].
  apply (same_interval BasePageSize); [unfold v, lower; lia|unfold lower; lia|done|]. simpl SIZE. unfold v. lia.
Qed.

Section sample.

#[local] Existing Instance Paging.bump_source.
#[local] Existing Instance Paging.bump_laws.

(** The empty address space after mapping 66 pages of safe memory: the creator's frame is
    in the first one and the new stack begins with the third one. *)
Definition sample_space : Mmu Z :=
  run_state (map sample_root 39 false BasePageSize 0x10000000 0x800000 66 (pkey 1 (writable 0))) sample.

Lemma sample_space_ok : mm_ok sample_root 39 sample_space.
Proof.
  destruct (map_spec (F := Z) sample_root 39 false ltac:(lia) BasePageSize 0x10000000 66 0x800000
              (pkey 1 (writable 0)) sample 0) as (s' & E & R & _).
  - apply sample_ok.
  - done.
  - lia.
  - lia.
  - by vm_compute.
  - intros i Hi. apply empty_flat, lower_user.
    change (lower (0x10000000 + i * 4096)). unfold lower. lia.
  - apply supply_test_ok. vm_compute. reflexivity.
  - by apply plain_flags_test.
  - by vm_compute.
  - lia.
  - by vm_compute.
  - by vm_compute.
  - unfold sample_space, run_state. rewrite E. apply R.
Qed.

Definition sample_creator : Machine Z :=
  mkMachine sample_regs 0x202 0 0 0 ∅ (mkCore 0 sample_space) sample_task.

Lemma sample_leaf a : 0x10000000 <= a < 0x10042000 -> exists e, writable_leaf sample_root sample_creator a e /\ pkey_of e = 1.
Proof.
  apply (leaves_test_ok sample_root sample_creator 0x10000000 66); [vm_compute; reflexivity|done|done|by vm_compute].
Qed.

Lemma sample_in_frame a : in_frame sample_creator a -> 0x10000000 <= a < 0x10001000.
Proof. done. Qed.

Lemma sample_can_build : can_build sample_root sample_creator 0x10002000.
Proof.
  split.
  - split; [done|by vm_compute].
  - split; [exact (mk_tree _ _ _ sample_space_ok)|by vm_compute|by vm_compute|].
    intros a Ha. apply sample_in_frame in Ha. destruct (sample_leaf a ltac:(lia)) as (e & (We & Hu & _) & _). exists e. exact (conj We Hu).
  - intros a Ha. apply sample_in_frame in Ha. destruct (sample_leaf a ltac:(lia)) as (e & (We & _) & Hk).
    unfold page_key. rewrite We. simpl. by rewrite Hk.
  - reflexivity.
  - reflexivity.
  - reflexivity.
  - by vm_compute.
  - intros a Ha. change (0x10002000 <= a < 0x10042000) in Ha. destruct (sample_leaf a ltac:(lia)) as (e & He & _). by exists e.
  - intros a Ha Hs. apply sample_in_frame in Ha. change (0x10002000 <= a < 0x10042000) in Hs. lia.
Qed.

Abbreviation sample_create :=
  (create_stack_frame sample_root false 0x201000 0x202000 0x10002000 0x30000000 0x203000 7 sample_creator).

Lemma create_stack_frame_correct_witness :
  exists m', sample_create = Done ((0x10041f50, 0x30040000), m') /\
    data m' !! 0x10041fe0 = Some 0x201000 /\ data m' !! 0x10041fe8 = Some 0x202000.
Proof.
  destruct (create_stack_frame_correct sample_root false 0x201000 0x202000 sample_creator 0x10002000 0x30000000 0x203000 7
    sample_can_build ltac:(lia) ltac:(by vm_compute)) as (m' & E & Hs & Hl & _).
  exists m'. split_and!; [exact E| |exact Hl].
  change (data m' !! 0x10041fe0 = Some (st_rip (fresh_state 0x201000 0x203000 7))).
  destruct Hs as (_ & _ & _ & _ & _ & _ & _ & _ & _ & _ & _ & _ & _ & _ & _ & _ & _ & _ & Hr & _). exact Hr.
Defined.

(** The creator goes on and switches to the new task. The per-core variables, the
    unsafe storage and the task state segment lie on the second page, which has
    been made unsafe memory. *)
Definition sample_space_shared : Mmu Z :=
  run_state (set_pkey_on_page_table_entry sample_root false BasePageSize 0x10001000 1 2) sample_space.

Definition sample_switcher (d : gmap Z Z) : Machine Z :=
  mkMachine (fun r => match r with RSP => 0x10000800 | RDI => 0x10000900 | RSI => 0x10041f50 | _ => 5 end)
    0x246 0 0x7000 0x80000011 (with_percore (<[0x10000800 := 0x400abc]> d)) (mkCore 0 sample_space_shared) sample_task.

Lemma sample_switcher_ok d : can_switch sample_root (sample_switcher d) 0.
Proof.
  split.
  - apply accessible_test_ok. vm_compute. reflexivity.
  - exists 0x400abc. cbn [data sample_switcher]. unfold with_percore, sample_percore. change (regs (sample_switcher d) RSP) with 0x10000800.
    rewrite !lookup_insert_ne by lia. apply lookup_insert_eq.
  - vm_compute. reflexivity.
  - by vm_compute.
  - split; vm_compute; reflexivity.
  - vm_compute. reflexivity.
  - apply accessible_test_ok. vm_compute. reflexivity.
  - right. change (0x10000800 < 0x10041f50 - 8). lia.
  - change ((0x10000900 < 0x10000800 - 144 \/ 0x10000800 < 0x10000900) /\
      (0x10000900 < 0x10041f50 - 8 \/ 0x10041f50 + 152 <= 0x10000900)). lia.
Qed.

Lemma sample_switcher_ready d : switch_ready sample_root sample_frame sample_percore sample_storage (sample_switcher d) sample_owner
  sample_tss (0x30000000 + DEFAULT_STACK_SIZE - 0x10) (0x30100000 + KERNEL_STACK_SIZE - 0x10) (fun x => x = 0x10041f50 + 152).
Proof.
  change (regs (sample_switcher d) RSI) with 0x10041f50. split; change (regs (sample_switcher d) RSI) with 0x10041f50.
  - split.
    + split; by vm_compute.
    + by vm_compute.
    + split; [intros Hx; by repeat (apply elem_of_cons in Hx as [?|Hx]; [done|]); apply elem_of_nil in Hx|].
      apply accessible_test_ok. vm_compute. reflexivity.
    + apply accessible_test_ok. vm_compute. reflexivity.
    + apply accessible_test_ok. vm_compute. reflexivity.
    + intros i Hi. assert (i = 0 \/ i = 1 \/ i = 2) as [-> | [-> | ->]] by lia; by vm_compute.
    + split; vm_compute; reflexivity.
    + intros i Hi. unfold outside, frame_size, sample_percore, sample_storage in *. cbn [length sample_frame]. lia.
  - cbn [data sample_switcher]. unfold with_percore. rewrite lookup_insert_ne by (unfold sample_percore; lia). apply lookup_insert_eq.
  - change (regs (sample_switcher d) RSP) with 0x10000800. change (regs (sample_switcher d) RDI) with 0x10000900.
    unfold outside, sample_percore. lia.
  - vm_compute. reflexivity.
  - intros x Hx. unfold kept in Hx. change (regs (sample_switcher d) RSP) with 0x10000800 in Hx.
    change (regs (sample_switcher d) RDI) with 0x10000900 in Hx. change (regs (sample_switcher d) RSI) with 0x10041f50 in *.
    unfold spared, outside, frame_size, sample_storage, sample_tss. cbn [length sample_frame]. lia.
Qed.

Lemma new_task_starts_witness :
  exists m1 m3, sample_create = Done ((0x10041f50, 0x30040000), m1) /\
    switch sample_root (set_current_kernel_stack sample_root sample_frame sample_percore sample_storage sample_owner) 0x201234
      (sample_switcher (data m1)) = Done (tt, m3) /\
    rip m3 = 0x201000 /\ regs m3 RDI = 0x203000 /\ regs m3 RSI = 7.
Proof.
  destruct (create_stack_frame_run sample_root false 0x201000 0x202000 sample_creator 0x10002000 0x30000000 0x203000 7
    sample_can_build ltac:(lia) ltac:(by vm_compute)) as (m1 & E & _).
  destruct (new_task_starts sample_root false 0x201000 0x202000 sample_creator 0x10002000 0x30000000 0x203000 7
    0x10041f50 0x30040000 m1 (sample_switcher (data m1)) sample_frame sample_percore sample_storage 0x201234 sample_owner
    sample_tss (0x30000000 + DEFAULT_STACK_SIZE - 0x10) (0x30100000 + KERNEL_STACK_SIZE - 0x10)
    sample_can_build ltac:(lia) ltac:(by vm_compute) E eq_refl) as (m3 & E3 & Hr & Hdi & Hsi & _).
  - intros x Hx. change (with_percore (<[0x10000800 := 0x400abc]> (data m1)) !! x = data m1 !! x).
    unfold with_percore, sample_percore. rewrite !lookup_insert_ne by lia. done.
  - apply sample_switcher_ok.
  - apply sample_switcher_ready.
  - intros x Hx Hs. change (0x10000800 - 144 <= x <= 0x10000800 \/ x = 0x10000900) in Hx.
    change (0x10002000 <= x < 0x10042000) in Hs. lia.
  - vm_compute. reflexivity.
  - exists m1, m3. split_and!; [exact E|exact E3|exact Hr|exact Hdi|exact Hsi].
Defined.

End sample.
