(* ===== verification/Scheduler.v ===== *)
(** * The scheduler: src/scheduler/mod.rs and the blocked tasks of
    src/scheduler/task.rs

    The state shared by the cores - the tasks by the identity of their [Rc],
    the tables [TASKS] and [SCHEDULERS] and the atomic counters - with the
    operations of one core [me] on it. A lock is held from its [lock()] to the
    end of the guard's scope, so an operation under a lock is one step here;
    src/synch/spinlock.rs is modelled in Spinlock. *)

From stdpp Require Import base numbers list gmap.
From Stdlib Require Import ZArith Lia.
From S2P Require Import Prelude Links Mm Collections TaskQueue Tasks.

#[local] Open Scope Z_scope.

Definition TASK_TIME_SLICE : Z := 10000.

Definition W32 : Z := 2 ^ 32.

(** ** State *)

Record SchedulerState := mkSchedState { ready_queue : PriorityTaskQueue; is_halted : bool }.

Record PerCoreScheduler := mkPerCore {
  sc_core_id : Z;
  current_task : nat;
  idle_task : nat;
  fpu_owner : nat;
  state : SchedulerState;
  finished_tasks : list TaskId;
  blocked_tasks : BlockedTaskQueue;
  last_task_switch_tick : Z
}.

(** [timer]: the deadline each core's local timer is programmed to; [None]
    when it is masked. [clock] is the sequence of times that the timer of the
    processor shows, [reads] says how many were read. [wakeups] are the
    interrupts sent to other cores, [fpu] the FPU registers of each core. *)
Record Sched := mkSched {
  tasks : gmap nat Task;
  TASKS : gmap TaskId nat;
  SCHEDULERS : gmap Z PerCoreScheduler;
  TID_COUNTER : Z;
  NO_TASKS : Z;
  NEXT_CORE_ID : Z;
  processor_count : Z;
  clock : nat -> Z;
  reads : nat;
  timer : gmap Z (option Z);
  wakeups : list Z;
  fpu : gmap Z FPUState
}.

Definition with_tasks (f : gmap nat Task -> gmap nat Task) (s : Sched) : Sched :=
  mkSched (f (tasks s)) (TASKS s) (SCHEDULERS s) (TID_COUNTER s) (NO_TASKS s) (NEXT_CORE_ID s)
    (processor_count s) (clock s) (reads s) (timer s) (wakeups s) (fpu s).
Definition with_TASKS (f : gmap TaskId nat -> gmap TaskId nat) (s : Sched) : Sched :=
  mkSched (tasks s) (f (TASKS s)) (SCHEDULERS s) (TID_COUNTER s) (NO_TASKS s) (NEXT_CORE_ID s)
    (processor_count s) (clock s) (reads s) (timer s) (wakeups s) (fpu s).
Definition with_SCHEDULERS (f : gmap Z PerCoreScheduler -> gmap Z PerCoreScheduler) (s : Sched) : Sched :=
  mkSched (tasks s) (TASKS s) (f (SCHEDULERS s)) (TID_COUNTER s) (NO_TASKS s) (NEXT_CORE_ID s)
    (processor_count s) (clock s) (reads s) (timer s) (wakeups s) (fpu s).
Definition with_counters (tid no next : Z) (s : Sched) : Sched :=
  mkSched (tasks s) (TASKS s) (SCHEDULERS s) tid no next
    (processor_count s) (clock s) (reads s) (timer s) (wakeups s) (fpu s).
Definition with_timer (f : gmap Z (option Z) -> gmap Z (option Z)) (s : Sched) : Sched :=
  mkSched (tasks s) (TASKS s) (SCHEDULERS s) (TID_COUNTER s) (NO_TASKS s) (NEXT_CORE_ID s)
    (processor_count s) (clock s) (reads s) (f (timer s)) (wakeups s) (fpu s).
Definition with_wakeups (f : list Z -> list Z) (s : Sched) : Sched :=
  mkSched (tasks s) (TASKS s) (SCHEDULERS s) (TID_COUNTER s) (NO_TASKS s) (NEXT_CORE_ID s)
    (processor_count s) (clock s) (reads s) (timer s) (f (wakeups s)) (fpu s).
Definition with_fpu (f : gmap Z FPUState -> gmap Z FPUState) (s : Sched) : Sched :=
  mkSched (tasks s) (TASKS s) (SCHEDULERS s) (TID_COUNTER s) (NO_TASKS s) (NEXT_CORE_ID s)
    (processor_count s) (clock s) (reads s) (timer s) (wakeups s) (f (fpu s)).

Definition sc_with_current (t : nat) (tick : Z) (c : PerCoreScheduler) : PerCoreScheduler :=
  mkPerCore (sc_core_id c) t (idle_task c) (fpu_owner c) (state c) (finished_tasks c) (blocked_tasks c) tick.
Definition sc_with_fpu_owner (t : nat) (c : PerCoreScheduler) : PerCoreScheduler :=
  mkPerCore (sc_core_id c) (current_task c) (idle_task c) t (state c) (finished_tasks c) (blocked_tasks c) (last_task_switch_tick c).
Definition sc_with_state (f : SchedulerState -> SchedulerState) (c : PerCoreScheduler) : PerCoreScheduler :=
  mkPerCore (sc_core_id c) (current_task c) (idle_task c) (fpu_owner c) (f (state c)) (finished_tasks c) (blocked_tasks c) (last_task_switch_tick c).
Definition sc_with_finished (l : list TaskId) (c : PerCoreScheduler) : PerCoreScheduler :=
  mkPerCore (sc_core_id c) (current_task c) (idle_task c) (fpu_owner c) (state c) l (blocked_tasks c) (last_task_switch_tick c).
Definition sc_with_blocked (b : BlockedTaskQueue) (c : PerCoreScheduler) : PerCoreScheduler :=
  mkPerCore (sc_core_id c) (current_task c) (idle_task c) (fpu_owner c) (state c) (finished_tasks c) b (last_task_switch_tick c).
Definition set_halted (b : bool) (st : SchedulerState) : SchedulerState := mkSchedState (ready_queue st) b.
Definition set_ready (q : PriorityTaskQueue) (st : SchedulerState) : SchedulerState := mkSchedState q (is_halted st).

(** ** Access *)

(** [task.borrow()], [task.borrow_mut()] and a write through it. *)
Definition borrow_task (i : nat) : M Sched Task := fun s =>
  match tasks s !! i with Some t => Done (t, s) | None => Panic end.
Definition write_task (i : nat) (f : Task -> Task) : M Sched unit := modify (with_tasks (alter f i)).

(** [get_scheduler(core_id)]; [core_scheduler()] is that of the running core. *)
Definition get_scheduler (core : Z) : M Sched PerCoreScheduler := fun s =>
  match SCHEDULERS s !! core with Some c => Done (c, s) | None => Panic end.
Definition write_scheduler (core : Z) (f : PerCoreScheduler -> PerCoreScheduler) : M Sched unit :=
  modify (with_SCHEDULERS (alter f core)).

(** An operation on the ready queue of a core. *)
Definition on_ready {A} (core : Z) (m : M TQ A) : M Sched A := fun s =>
  match SCHEDULERS s !! core with
  | Some c =>
      let? r := m (tasks s, ready_queue (state c)) in
      Done (r.1, with_SCHEDULERS (<[core := sc_with_state (set_ready r.2.2) c]>) (with_tasks (fun _ => r.2.1) s))
  | None => Panic
  end.

(** [processor::get_timer_ticks()] *)
Definition get_timer_ticks : M Sched Z := fun s =>
  Done (clock s (reads s),
    mkSched (tasks s) (TASKS s) (SCHEDULERS s) (TID_COUNTER s) (NO_TASKS s) (NEXT_CORE_ID s)
      (processor_count s) (clock s) (S (reads s)) (timer s) (wakeups s) (fpu s)).

Definition add32 (a b : Z) : Z := (a + b) mod W32.
Definition fetch_tid : M Sched TaskId := fun s =>
  Done (TID_COUNTER s, with_counters (add32 (TID_COUNTER s) 1) (NO_TASKS s) (NEXT_CORE_ID s) s).
Definition add_no_tasks (d : Z) : M Sched unit :=
  modify (fun s => with_counters (TID_COUNTER s) (add32 (NO_TASKS s) d) (NEXT_CORE_ID s) s).

(** [u8] addition, checked for overflow. *)
Definition add8 (a b : Z) : outcome Z := if a + b <? 256 then Done (a + b) else Panic.

(** ** Blocked tasks *)

Section core.

(** The core that executes the operations. *)
Context (me : Z).

(** [apic::set_oneshot_timer] programs the timer of the executing core,
    [apic::wakeup_core] sends it an interrupt unless it is that core. *)
Definition set_oneshot_timer (wt : option Z) : M Sched unit := modify (with_timer (<[me := wt]>)).
Definition wakeup_core (core : Z) : M Sched unit :=
  if core =? me then ret tt else modify (with_wakeups (fun l => l ++ [core])).

(** [held] are the tasks whose cells are borrowed meanwhile. *)
Definition wakeup_task (held : list nat) (task : nat) (reason : WakeupReason) : M Sched unit :=
  massert (negb (existsb (Nat.eqb task) held)) ;;;
  let! borrowed := borrow_task task in
  massert (bool_decide (status borrowed = TaskBlocked)) ;;;
  write_task task (fun t => set_reason reason (set_status TaskReady t)) ;;;
  let core := core_id borrowed in
  let! c := get_scheduler core in
  on_ready core (pq_push task) ;;;
  if is_halted (state c) then wakeup_core core else ret tt.

(** The operations of a [BlockedTaskQueue] work on the locked queue and on the
    rest of the state. *)
Definition BQS : Type := (BlockedTaskQueue * Sched)%type.

Definition onq {A} (m : M BlockedTaskQueue A) : M BQS A := fun s =>
  let? r := m s.1 in Done (r.1, (r.2, s.2)).
Definition ons {A} (m : M Sched A) : M BQS A := fun s =>
  let? r := m s.2 in Done (r.1, (s.1, r.2)).

Definition loop_fuel : M BQS nat := gets (fun s => S (S (next_rc s.1))).

Fixpoint add_loop (fuel : nat) (current : option nat) (first_task : bool) (new_node : nat) (wt : Z) : M BQS unit :=
  match fuel with
  | O => out_of_fuel
  | S fuel' =>
      let! r := onq (Iter_next current) in
      match r with
      | Some (node, rest) =>
          let! n := onq (borrow node) in
          let node_wakeup_time := wakeup_time (value n) in
          if match node_wakeup_time with None => true | Some nt => wt <? nt end then
            onq (insert_before new_node node) ;;;
            if first_task then ons (set_oneshot_timer (Some wt)) else ret tt
          else add_loop fuel' rest false new_node wt
      | None =>
          onq (push new_node) ;;;
          if first_task then ons (set_oneshot_timer (Some wt)) else ret tt
      end
  end.

Definition bq_add (held : list nat) (task : nat) (wt : option Z) : M BQS unit :=
  ons (massert (negb (existsb (Nat.eqb task) held)) ;;;
       let! borrowed := borrow_task task in
       massert (bool_decide (status borrowed = TaskRunning)) ;;;
       write_task task (set_status TaskBlocked)) ;;;
  let! new_node := onq (Node_new (mkBlocked task wt)) in
  match wt with
  | Some w =>
      let! fuel := loop_fuel in
      let! current := onq iter in
      add_loop fuel current true new_node w
  | None => onq (push new_node)
  end.

Fixpoint wakeup_all_loop (fuel : nat) (current : option nat) (held : list nat) : M BQS unit :=
  match fuel with
  | O => out_of_fuel
  | S fuel' =>
      let! r := onq (Iter_next current) in
      match r with
      | Some (node, rest) =>
          onq (remove node) ;;;
          let! n := onq (borrow node) in
          ons (wakeup_task held (task (value n)) All) ;;;
          wakeup_all_loop fuel' rest held
      | None => ret tt
      end
  end.

Definition wakeup_all (held : list nat) : M BQS unit :=
  let! fuel := loop_fuel in
  let! current := onq iter in
  wakeup_all_loop fuel current held.

Fixpoint custom_wakeup_loop (fuel : nat) (current : option nat) (first_task : bool) (task : nat) : M BQS unit :=
  match fuel with
  | O => out_of_fuel
  | S fuel' =>
      let! r := onq (Iter_next current) in
      match r with
      | Some (node, rest) =>
          let! n := onq (borrow node) in
          if Nat.eqb (TaskQueue.task (value n)) task then
            onq (remove node) ;;;
            ons (wakeup_task [] task Custom) ;;;
            if first_task then
              let! r2 := onq (Iter_next rest) in
              match r2 with
              | Some (next_node, _) =>
                  let! nn := onq (borrow next_node) in
                  ons (set_oneshot_timer (wakeup_time (value nn)))
              | None => ret tt
              end
            else ret tt
          else custom_wakeup_loop fuel' rest false task
      | None => ret tt
      end
  end.

Definition custom_wakeup (task : nat) : M BQS unit :=
  let! fuel := loop_fuel in
  let! current := onq iter in
  custom_wakeup_loop fuel current true task.

Fixpoint handle_waiting_loop (fuel : nat) (current : option nat) (time : Z) : M BQS unit :=
  match fuel with
  | O => out_of_fuel
  | S fuel' =>
      let! r := onq (Iter_next current) in
      match r with
      | Some (node, rest) =>
          let! n := onq (borrow node) in
          let node_wakeup_time := wakeup_time (value n) in
          if match node_wakeup_time with None => true | Some nt => time <? nt end then
            ons (set_oneshot_timer node_wakeup_time)
          else
            onq (remove node) ;;;
            let! n := onq (borrow node) in
            ons (wakeup_task [] (task (value n)) Timer) ;;;
            handle_waiting_loop fuel' rest time
      | None => ret tt
      end
  end.

Definition handle_waiting_tasks : M BQS unit :=
  let! time := ons get_timer_ticks in
  let! fuel := loop_fuel in
  let! current := onq iter in
  handle_waiting_loop fuel current time.

(** The queue of a core, and that of the tasks that wait for a task to end. *)
Definition on_blocked {A} (core : Z) (m : M BQS A) : M Sched A :=
  let! c := get_scheduler core in
  fun s =>
    let? r := m (blocked_tasks c, s) in
    Done (r.1, with_SCHEDULERS (alter (sc_with_blocked r.2.1) core) r.2.2).

Definition on_wakeup {A} (t : nat) (m : M BQS A) : M Sched A :=
  let! tk := borrow_task t in
  fun s =>
    let? r := m (wakeup tk, s) in
    Done (r.1, with_tasks (alter (set_wakeup r.2.1) t) r.2.2).

(** ** The scheduler *)

Definition core_scheduler : M Sched PerCoreScheduler := get_scheduler me.

(** [t.borrow().wakeup.lock().wakeup_all()] of a task taken out of [TASKS]. *)
Definition cleanup_tasks : M Sched unit :=
  let! c := core_scheduler in
  match finished_tasks c with
  | [] => ret tt
  | tid :: rest =>
      write_scheduler me (sc_with_finished rest) ;;;
      let! task := gets (fun s => TASKS s !! tid) in
      modify (with_TASKS (delete tid)) ;;;
      match task with
      | Some t => on_wakeup t (wakeup_all [t])
      | None => ret tt
      end
  end.

(** The task to switch to, if there is one. *)
Definition select_task (prio : Priority) (status : TaskStatus) : M Sched (option nat) :=
  if bool_decide (status = TaskRunning) then
    let! higher_prio := lift (add8 prio 1) in
    let! higher := on_ready me (pq_pop_with_prio higher_prio) in
    match higher with
    | Some task => ret (Some task)
    | None =>
        let! now := get_timer_ticks in
        let! c := core_scheduler in
        let! slice_end := lift (add64 (last_task_switch_tick c) TASK_TIME_SLICE) in
        if slice_end <? now then on_ready me (pq_pop_with_prio prio) else ret None
    end
  else
    let! available := on_ready me pq_pop in
    match available with
    | Some task => ret (Some task)
    | None =>
        if bool_decide (status = TaskIdle) then ret None
        else let! c := core_scheduler in ret (Some (idle_task c))
    end.

(** The context switch [switch(last_stack_pointer, new_stack_pointer)] that
    ends [scheduler]: from which task to which, and its stack pointer. *)
Record Switching := mkSwitching { sw_from : nat; sw_to : nat; sw_stack : Z }.

Definition handle_current (task : nat) (tid : TaskId) (status : TaskStatus) : M Sched unit :=
  if bool_decide (status = TaskRunning) then
    write_task task (set_status TaskReady) ;;;
    on_ready me (pq_push task)
  else if bool_decide (status = TaskFinished) then
    write_task task (set_status TaskInvalid) ;;;
    write_scheduler me (fun c => sc_with_finished (finished_tasks c ++ [tid]) c)
  else ret tt.

Definition switch_to (current task : nat) (tid : TaskId) : M Sched (option Switching) :=
  let! borrowed := borrow_task task in
  (if bool_decide (status borrowed <> TaskIdle) then write_task task (set_status TaskRunning) else ret tt) ;;;
  if bool_decide (tid <> id borrowed) then
    let! now := get_timer_ticks in
    write_scheduler me (sc_with_current task now) ;;;
    ret (Some (mkSwitching current task (last_stack_pointer borrowed)))
  else ret None.

(** [scheduler], after [cleanup_tasks]. Each operation of the scheduler is one
    step here: no other core and no interrupt acts in between. The code holds a
    lock for the ready queue only; it borrows tasks ([RefCell]) and the lists of
    a core without one, and where two cores or an interrupt meet on the same
    borrow, the code panics. Such meetings are not modelled. *)
Definition schedule : M Sched (option Switching) :=
  let! c := core_scheduler in
  let current := current_task c in
  let! borrowed := borrow_task current in
  write_scheduler me (sc_with_state (set_halted false)) ;;;
  let! new_task := select_task (prio borrowed) (status borrowed) in
  match new_task with
  | Some task =>
      handle_current current (id borrowed) (status borrowed) ;;;
      switch_to current task (id borrowed)
  | None =>
      (if bool_decide (status borrowed = TaskIdle) then write_scheduler me (sc_with_state (set_halted true)) else ret tt) ;;;
      ret None
  end.

Definition scheduler : M Sched (option Switching) := cleanup_tasks ;;; schedule.

(** [exit]: the current task ends and never returns, for without a switch it
    panics. The exit code is only logged. *)
Definition end_current : M Sched unit :=
  let! c := core_scheduler in
  let! borrowed := borrow_task (current_task c) in
  massert (bool_decide (status borrowed <> TaskIdle)) ;;;
  write_task (current_task c) (set_status TaskFinished) ;;;
  add_no_tasks (-1).

Definition exit : M Sched Switching :=
  end_current ;;;
  let! r := scheduler in
  lift (unwrap r).

(** [join]: the current task waits in the queue of the task [tid], which stays
    borrowed meanwhile. *)
Definition wait_for (tid : TaskId) : M Sched (result unit unit) :=
  let! task := gets (fun s => TASKS s !! tid) in
  match task with
  | Some t =>
      let! c := core_scheduler in
      on_wakeup t (bq_add [t] (current_task c) None) ;;;
      ret (Ok tt)
  | None => ret (Err tt)
  end.

Definition join (tid : TaskId) : M Sched (result (option Switching) unit) :=
  let! w := wait_for tid in
  match w with
  | Ok _ => let! r := scheduler in ret (Ok r)
  | Err e => ret (Err e)
  end.

(** What semaphores, mutexes and sleeping tasks do:
    [core_scheduler().blocked_tasks.lock().add(current_task, wakeup_time)]. *)
Definition block_current (wakeup_time : option Z) : M Sched unit :=
  let! c := core_scheduler in
  on_blocked me (bq_add [] (current_task c) wakeup_time).

Definition fpu_switch : M Sched unit :=
  let! c := core_scheduler in
  if Nat.eqb (current_task c) (fpu_owner c) then ret tt
  else
    let! owner := borrow_task (fpu_owner c) in
    (if bool_decide (status owner <> TaskInvalid /\ status owner <> TaskFinished) then
       let! regs := gets (fun s => fpu s !! me) in
       write_task (fpu_owner c) (set_fpu (default [] regs))
     else ret tt) ;;;
    let! current := borrow_task (current_task c) in
    modify (with_fpu (<[me := last_fpu_state current]>)) ;;;
    write_scheduler me (sc_with_fpu_owner (current_task c)).

(** [get_tid]: a loop over the values of the counter, of which there are 2^32. *)
Fixpoint get_tid_loop (fuel : nat) : M Sched TaskId :=
  match fuel with
  | O => out_of_fuel
  | S fuel' =>
      let! tid := fetch_tid in
      let! used := gets (fun s => TASKS s !! tid) in
      match used with None => ret tid | Some _ => get_tid_loop fuel' end
  end.

Definition get_tid : M Sched TaskId :=
  let! used := gets TASKS in get_tid_loop (S (size used)).

(** [Rc::new(RefCell::new(task))]: a task with an identity not yet used. *)
Definition new_task (t : Task) : M Sched nat := fun s =>
  let i := fresh (dom (tasks s)) in
  Done (i,
    mkSched (<[i := t]> (tasks s)) (TASKS s) (SCHEDULERS s) (TID_COUNTER s) (NO_TASKS s)
      (NEXT_CORE_ID s) (processor_count s) (clock s) (reads s) (timer s) (wakeups s) (fpu s)).

End core.

(** ** New tasks

    These operations also take memory. *)

Section tasks.

Context {K : Type} `{KernelMemory K}.
Context (me : Z).

Definition on_sched {A} (m : M Sched A) : M (Sched * K) A := fun s =>
  let? r := m s.1 in Done (r.1, (r.2, s.2)).
Definition on_memory {A} (m : M K A) : M (Sched * K) A := fun s =>
  let? r := m s.2 in Done (r.1, (s.1, r.2)).

(** [spawn] on the scheduler of [core]. *)
Definition spawn (core : Z) (p : Priority) : M (Sched * K) TaskId :=
  let! c := on_sched (get_scheduler core) in
  let! tid := on_sched get_tid in
  let! t := on_memory (Task_new tid (sc_core_id c) TaskReady p) in
  let! t := lift (create_stack_frame_pointers t) in
  on_sched (
    let! task := new_task t in
    on_ready core (pq_push task) ;;;
    modify (with_TASKS (<[tid := task]>)) ;;;
    add_no_tasks 1 ;;;
    wakeup_core me (sc_core_id c) ;;;
    ret tid).

(** The core for the next clone: [NEXT_CORE_ID] wraps to 0 at the number of
    processors. *)
Definition next_core : M Sched Z :=
  let! nid := gets NEXT_CORE_ID in
  let! count := gets processor_count in
  modify (fun s => with_counters (TID_COUNTER s) (NO_TASKS s) ((nid + 1) mod W64) s) ;;;
  if nid =? count then
    modify (fun s => with_counters (TID_COUNTER s) (NO_TASKS s) 0 s) ;;; ret 0
  else ret nid.

(** [clone]; the current task stays borrowed to the end, so that the new task
    cannot be linked behind it. *)
Definition clone : M (Sched * K) TaskId :=
  let! core := on_sched next_core in
  let! next_scheduler := on_sched (get_scheduler core) in
  let! c := on_sched (core_scheduler me) in
  let! borrowed := on_sched (borrow_task (current_task c)) in
  let! tid := on_sched get_tid in
  let! t := on_memory (Task_clone tid core borrowed) in
  let! t := lift (create_stack_frame_pointers t) in
  on_sched (
    let! task := new_task t in
    let! q := on_ready core (get_queue (Z.to_nat (prio t))) in
    massert (bool_decide (q_tail q <> Some (current_task c))) ;;;
    on_ready core (pq_push task) ;;;
    modify (with_TASKS (<[tid := task]>)) ;;;
    add_no_tasks 1 ;;;
    (if is_halted (state next_scheduler) then wakeup_core me core else ret tt) ;;;
    ret tid).

(** [add_current_core] on core [me], whose task state segment holds [rsp0] and
    [ist0]. *)
Definition add_current_core (rsp0 ist0 : Z) : M Sched unit :=
  let! tid := get_tid in
  let! st := lift (from_boot_stacks rsp0 ist0) in
  let! idle := new_task (Task_new_idle tid me st) in
  modify (with_TASKS (<[tid := idle]>)) ;;;
  modify (with_SCHEDULERS (<[me :=
    mkPerCore me idle idle idle (mkSchedState PriorityTaskQueue_new false) [] BlockedTaskQueue_new 0]>)).

(** [init], together with the initial values of the counters. *)
Definition Sched_init (count : Z) (times : nat -> Z) : Sched :=
  mkSched ∅ ∅ ∅ 0 0 1 count times 0 ∅ [] ∅.

End tasks.
