(* ===== verification/Ready.v ===== *)
(** * Ready tasks

    The ready queues of all cores together: which task waits in which queue,
    and how the operations on a queue keep this. *)

From stdpp Require Import base numbers list gmap.
From Stdlib Require Import ZArith Lia.
From S2P Require Import Prelude Links Collections TaskQueue Scheduler.

#[local] Open Scope Z_scope.

(** ** Frames *)

(** What is left of the state without the tasks, the ready queues, the halted
    flags, the interrupts sent and the number of times the clock was read. *)
Definition no_state : SchedulerState := mkSchedState PriorityTaskQueue_new false.
Definition with_reads (n : nat) (s : Sched) : Sched :=
  mkSched (tasks s) (TASKS s) (SCHEDULERS s) (TID_COUNTER s) (NO_TASKS s) (NEXT_CORE_ID s)
    (processor_count s) (clock s) n (timer s) (wakeups s) (fpu s).
Definition erase (s : Sched) : Sched :=
  with_reads 0 (with_wakeups (fun _ => [])
    (with_SCHEDULERS (fmap (sc_with_state (fun _ => no_state))) (with_tasks (fun _ => ∅) s))).

(** The part of a task that its queue depends on. *)
Definition view (t : Task) : option nat * option nat * Priority := (t_next t, t_prev t, prio t).

Lemma seg_view (st st' : gmap nat Task) p l n :
  (forall i, i ∈ l -> view <$> st' !! i = view <$> st !! i) -> seg st p (chain l) n -> seg st' p (chain l) n.
Proof.
  revert p. induction l as [|i l IH]; intros p Hv; [done|]. simpl.
  intros [(nd & E & _ & Hp & Hn) Hs]. split.
  - specialize (Hv i ltac:(left)). rewrite E in Hv. destruct (st' !! i) as [nd'|]; [|done].
    simpl in Hv. injection Hv as H1 H2 _. exists nd'. split_and!; [done|done| |].
    + change (t_prev nd' = p). congruence.
    + change (t_next nd' = first (chain l) n). congruence.
  - apply IH; [|done]. intros j Hj. apply Hv. by right.
Qed.

Lemma pq_repr_view (st st' : gmap nat Task) q ls :
  (forall i t, t ∈ ls i -> view <$> st' !! t = view <$> st !! t) -> pq_repr (st, q) ls -> pq_repr (st', q) ls.
Proof.
  intros Hv [R1 R2 R3 R4]. split; simpl in *; [done| | |done].
  - intros i qh Hi. destruct (R2 i qh Hi) as [Q1 Q2 Q3 Q4]. split; [done..|].
    apply (seg_view st); [|done]. intros t Ht. by apply (Hv i).
  - intros i t Ht. destruct (R3 i t Ht) as (Hi & tk & E & P). split; [done|].
    specialize (Hv i t Ht). rewrite E in Hv. destruct (st' !! t) as [tk'|]; [|done].
    simpl in Hv. injection Hv as _ _ Hp. exists tk'. split; [done|]. congruence.
Qed.

Lemma same_tasks_field {A} (g : Task -> A) st st' t :
  (forall tk, g (TaskQueue.unlink tk) = g tk) -> same_tasks st st' -> g <$> st' !! t = g <$> st !! t.
Proof.
  intros Hg Hs. specialize (Hs t). destruct (st !! t) as [a|], (st' !! t) as [b|]; simpl in *; try done.
  f_equal. rewrite <- (Hg a), <- (Hg b). congruence.
Qed.

(** ** The invariant of the ready queues *)

Definition legal_task (s : Sched) (tk : Task) : Prop :=
  0 <= prio tk < Z.of_nat NO_PRIORITIES /\ is_Some (SCHEDULERS s !! core_id tk).

(** The tasks in the queue of core [c] with priority [i] are the ready ones of
    that core and priority, but for those of [X], which are in transit. *)
Record ready_ok (X : list nat) (s : Sched) (rq : Z -> nat -> list nat) : Prop := {
  ro_repr : forall c sc, SCHEDULERS s !! c = Some sc -> pq_repr (tasks s, ready_queue (state sc)) (rq c);
  ro_mem : forall c i t, is_Some (SCHEDULERS s !! c) ->
    (t ∈ rq c i <-> exists tk, tasks s !! t = Some tk /\ status tk = TaskReady /\ core_id tk = c
                              /\ prio tk = Z.of_nat i /\ t ∉ X);
  ro_legal : forall t tk, tasks s !! t = Some tk -> legal_task s tk
}.

Definition updq (c : Z) (i : nat) (l : list nat) (rq : Z -> nat -> list nat) : Z -> nat -> list nat :=
  fun c' => if decide (c' = c) then upd i l (rq c) else rq c'.

Lemma updq_eq c i l rq : updq c i l rq c = upd i l (rq c).
Proof. unfold updq. by rewrite decide_True. Qed.
Lemma updq_ne c c' i l rq : c' <> c -> updq c i l rq c' = rq c'.
Proof. intros. unfold updq. by rewrite decide_False. Qed.

(** ** What an operation leaves of the other tasks

    But for those of [X]: a blocked task keeps its links, its core and its
    status, a task that is ready or runs stays so and is not woken again. *)
Definition kept (tk : Task) : option nat * option nat * Priority * Z * TaskStatus := (view tk, core_id tk, status tk).
Definition alive (tk : Task) : Prop := status tk = TaskReady \/ status tk = TaskRunning.
Definition evolves (X : list nat) (s s' : Sched) : Prop :=
  forall u tk, tasks s !! u = Some tk -> u ∉ X ->
  exists tk', tasks s' !! u = Some tk' /\ (status tk = TaskBlocked -> kept tk' = kept tk)
    /\ (alive tk -> alive tk' /\ last_wakeup_reason tk' = last_wakeup_reason tk).

Section evolution.

Implicit Types (s : Sched) (X : list nat).

Lemma kept_blocked tk tk' : status tk = TaskBlocked -> kept tk' = kept tk -> status tk' = TaskBlocked.
Proof. unfold kept. congruence. Qed.

Lemma evolves_same X s s' : tasks s' = tasks s -> evolves X s s'.
Proof. intros Ht u tk E _. exists tk. by rewrite Ht. Qed.

Lemma evolves_trans X s1 s2 s3 : evolves X s1 s2 -> evolves X s2 s3 -> evolves X s1 s3.
Proof.
  intros H1 H2 u tk E HX. destruct (H1 u tk E HX) as (tk2 & E2 & B2 & A2). destruct (H2 u tk2 E2 HX) as (tk3 & E3 & B3 & A3).
  exists tk3. split; [done|]. split.
  - intros S. rewrite B3; [by apply B2|]. by apply (kept_blocked tk), B2.
  - intros A. destruct (A2 A) as [A' R]. destruct (A3 A') as [A'' R']. split; [done|congruence].
Qed.

Lemma evolves_weaken X X' s s' : (forall u, u ∈ X -> u ∈ X') -> evolves X s s' -> evolves X' s s'.
Proof. intros HX H u tk E Hu. apply (H u tk E). by intros Hin%HX. Qed.

(** Changes of links that spare the blocked tasks. *)
Lemma evolves_links X s s' :
  same_tasks (tasks s) (tasks s') ->
  (forall u tk, tasks s !! u = Some tk -> status tk = TaskBlocked -> tasks s' !! u = tasks s !! u) -> evolves X s s'.
Proof.
  intros Hs Hb u tk E _. destruct (same_tasks_lookup _ _ _ _ Hs E) as (tk' & E' & U). exists tk'. split; [done|]. split.
  - intros S. rewrite (Hb u tk E S), E in E'. by injection E' as <-.
  - unfold alive. intros A. apply (f_equal (fun t => (status t, last_wakeup_reason t))) in U. injection U as -> ->. done.
Qed.

(** A write to a task of [X], or one that is neither blocked nor put to sleep. *)
Lemma evolves_write X s t f :
  (forall tk, tasks s !! t = Some tk -> t ∉ X -> (status tk = TaskBlocked -> kept (f tk) = kept tk)
     /\ (alive tk -> alive (f tk) /\ last_wakeup_reason (f tk) = last_wakeup_reason tk)) ->
  evolves X s (with_tasks (alter f t) s).
Proof.
  intros Hf u tk E Hu. simpl. destruct (decide (u = t)) as [->|Hn].
  - rewrite lookup_alter_eq, E. exists (f tk). split; [done|]. by apply Hf.
  - rewrite lookup_alter_ne by done. by exists tk.
Qed.

End evolution.

Section ready.

Implicit Types (s : Sched) (rq : Z -> nat -> list nat) (X : list nat) (t : nat).

(** Writing a task without moving it. *)
Lemma ready_write X X' s rq t tk f :
  ready_ok X s rq -> tasks s !! t = Some tk ->
  view (f tk) = view tk -> core_id (f tk) = core_id tk ->
  ((status (f tk) = TaskReady /\ t ∉ X') <-> (status tk = TaskReady /\ t ∉ X)) ->
  (forall u, u <> t -> u ∈ X' <-> u ∈ X) ->
  ready_ok X' (with_tasks (alter f t) s) rq.
Proof.
  intros [R1 R2 R3] Ht Hv Hc Hst HX.
  assert (prio (f tk) = prio tk) as Hp by (unfold view in Hv; congruence).
  split; simpl.
  - intros c sc Hsc. apply (pq_repr_view (tasks s)); [|by apply R1]. intros i u _.
    destruct (decide (u = t)) as [->|Hn]; [|by rewrite lookup_alter_ne].
    rewrite lookup_alter_eq, Ht. simpl. by rewrite Hv.
  - intros c i u Hsc. rewrite (R2 c i u Hsc). destruct (decide (u = t)) as [->|Hn].
    + rewrite lookup_alter_eq, Ht. simpl. split.
      * intros (? & [= <-] & S & C & P & HuX). destruct (proj2 Hst (conj S HuX)) as [S' HuX'].
        exists (f tk). split_and!; [done|done|congruence|congruence|done].
      * intros (? & [= <-] & S & C & P & HuX). destruct (proj1 Hst (conj S HuX)) as [S' HuX'].
        exists tk. split_and!; [done|done|congruence|congruence|done].
    + rewrite lookup_alter_ne by done. split; intros (tu & E & S & C & P & HuX); exists tu;
        split_and!; try done; [by rewrite HX|by rewrite <- HX].
  - intros u tu Hu. destruct (decide (u = t)) as [->|Hn].
    + rewrite lookup_alter_eq, Ht in Hu. injection Hu as <-. unfold legal_task. simpl. rewrite Hp, Hc. by apply (R3 t).
    + rewrite lookup_alter_ne in Hu by done. by apply (R3 u).
Qed.

(** A change of the state that keeps tasks and ready queues. *)
Lemma ready_frame X s s' rq :
  ready_ok X s rq -> tasks s' = tasks s ->
  (forall c, ready_queue ∘ state <$> SCHEDULERS s' !! c = ready_queue ∘ state <$> SCHEDULERS s !! c) ->
  ready_ok X s' rq.
Proof.
  intros [R1 R2 R3] Ht Hs.
  assert (forall c, is_Some (SCHEDULERS s' !! c) <-> is_Some (SCHEDULERS s !! c)) as Hsome.
  { intros c. specialize (Hs c). destruct (SCHEDULERS s' !! c), (SCHEDULERS s !! c); simpl in Hs; done. }
  split; rewrite ?Ht.
  - intros c sc' Hsc. specialize (Hs c). rewrite Hsc in Hs. simpl in Hs.
    destruct (SCHEDULERS s !! c) as [sc|] eqn:E; [|done]. simpl in Hs. injection Hs as Hs. rewrite Hs. by apply R1.
  - intros c i u Hc. apply R2. by apply Hsome.
  - intros u tu Hu. destruct (R3 u tu Hu) as [Hp Hc]. split; [done|]. by apply Hsome.
Qed.

(** An operation on a ready queue as a step of the state. *)
Lemma on_ready_done {A} c sc (m : M TQ A) s a q' :
  SCHEDULERS s !! c = Some sc -> m (tasks s, ready_queue (state sc)) = Done (a, q') ->
  on_ready c m s = Done (a, with_SCHEDULERS (<[c := sc_with_state (set_ready q'.2) sc]>) (with_tasks (fun _ => q'.1) s)).
Proof. intros Hc Hm. unfold on_ready. by rewrite Hc, Hm. Qed.

(** The state after an operation on the queue of core [c]. *)
Definition after_queue (c : Z) (sc : PerCoreScheduler) (q' : TQ) s : Sched :=
  with_SCHEDULERS (<[c := sc_with_state (set_ready q'.2) sc]>) (with_tasks (fun _ => q'.1) s).

Lemma erase_after_queue c sc q' s : SCHEDULERS s !! c = Some sc -> erase (after_queue c sc q' s) = erase s.
Proof.
  intros Hc. unfold erase, after_queue, with_wakeups, with_SCHEDULERS, with_tasks, with_reads. simpl. f_equal.
  rewrite fmap_insert. apply insert_id. rewrite lookup_fmap, Hc. done.
Qed.

(** The invariant after an operation on one queue that changes links only. *)
Lemma ready_after_queue X X' s rq c sc i l q' :
  ready_ok X s rq -> SCHEDULERS s !! c = Some sc ->
  pq_repr q' (upd i l (rq c)) -> same_tasks (tasks s) q'.1 ->
  (forall c' j u, c' <> c -> is_Some (SCHEDULERS s !! c') -> u ∈ rq c' j -> q'.1 !! u = tasks s !! u) ->
  (forall u, u ∈ l <-> exists tk, tasks s !! u = Some tk /\ status tk = TaskReady /\ core_id tk = c
                             /\ prio tk = Z.of_nat i /\ u ∉ X') ->
  (forall u tk, tasks s !! u = Some tk -> core_id tk <> c \/ prio tk <> Z.of_nat i -> status tk = TaskReady ->
     u ∈ X' <-> u ∈ X) ->
  ready_ok X' (after_queue c sc q' s) (updq c i l rq).
Proof.
  intros [R1 R2 R3] Hc HR Hsame Hfr Hl HX.
  assert (forall {A} (g : Task -> A) u, (forall tk, g (TaskQueue.unlink tk) = g tk) -> g <$> q'.1 !! u = g <$> tasks s !! u) as Hf
    by (intros; by apply same_tasks_field).
  assert (forall u tk', q'.1 !! u = Some tk' -> exists tk, tasks s !! u = Some tk /\ status tk' = status tk
    /\ core_id tk' = core_id tk /\ prio tk' = prio tk) as Hback.
  { intros u tk' E. pose proof (Hf _ status u (fun _ => eq_refl)) as F1. pose proof (Hf _ core_id u (fun _ => eq_refl)) as F2.
    pose proof (Hf _ prio u (fun _ => eq_refl)) as F3. rewrite E in F1, F2, F3.
    destruct (tasks s !! u) as [tk|]; [|done]. exists tk. simpl in *. split_and!; congruence. }
  assert (forall u tk, tasks s !! u = Some tk -> exists tk', q'.1 !! u = Some tk' /\ status tk' = status tk
    /\ core_id tk' = core_id tk /\ prio tk' = prio tk) as Hforth.
  { intros u tk E. destruct (same_tasks_lookup _ _ _ _ Hsame E) as (tk' & E' & _). exists tk'.
    destruct (Hback u tk' E') as (tk2 & E2 & H2). rewrite E in E2. injection E2 as <-. done. }
  assert (forall c', is_Some (<[c := sc_with_state (set_ready q'.2) sc]> (SCHEDULERS s) !! c') <-> is_Some (SCHEDULERS s !! c')) as Hsome.
  { intros c'. rewrite lookup_insert. case_decide; [|done]. subst. rewrite Hc. by split; intros _; eexists. }
  split; simpl.
  - intros c' sc' Hc'. destruct (decide (c' = c)) as [->|Hn].
    + rewrite lookup_insert_eq in Hc'. injection Hc' as <-. rewrite updq_eq. simpl. by destruct q'.
    + rewrite lookup_insert_ne in Hc' by done. rewrite updq_ne by done.
      apply (pq_repr_view (tasks s)); [|by apply R1]. intros j u Hu. rewrite (Hfr c' j u); [done|done|by eexists|done].
  - intros c' j u Hs'. apply Hsome in Hs'. destruct (decide (c' = c /\ j = i)) as [[-> ->]|Hn].
    + rewrite updq_eq, upd_eq, Hl. split.
      * intros (tk & E & S & C & P & HuX). destruct (Hforth u tk E) as (tk' & E' & S' & C' & P').
        exists tk'. split_and!; [done|congruence..|done].
      * intros (tk & E & S & C & P & HuX). destruct (Hback u tk E) as (tk' & E' & S' & C' & P').
        exists tk'. split_and!; [done|congruence..|done].
    + assert (updq c i l rq c' j = rq c' j) as ->.
      { destruct (decide (c' = c)) as [->|]; [rewrite updq_eq, upd_ne by naive_solver; done|by rewrite updq_ne]. }
      rewrite (R2 c' j u Hs'). split.
      * intros (tk & E & S & C & P & HuX). destruct (Hforth u tk E) as (tk' & E' & S' & C' & P').
        exists tk'. split_and!; [done|congruence..|]. rewrite (HX u tk E); [done| |done].
        destruct (decide (core_id tk = c)); [right|by left]. intros Hpi. apply Hn. split; [congruence|lia].
      * intros (tk & E & S & C & P & HuX). destruct (Hback u tk E) as (tk' & E' & S' & C' & P').
        exists tk'. split_and!; [done|congruence..|]. rewrite <- (HX u tk' E'); [done| |congruence].
        destruct (decide (core_id tk' = c)); [right|by left]. intros Hpi. apply Hn. split; [congruence|lia].
  - intros u tk E. destruct (Hback u tk E) as (tk' & E' & S' & C' & P'). destruct (R3 u tk' E') as [Hp Hsc].
    split; [by rewrite P'|]. simpl. apply Hsome. by rewrite C'.
Qed.

Lemma ready_disjoint X s rq c c' i j u :
  ready_ok X s rq -> is_Some (SCHEDULERS s !! c) -> is_Some (SCHEDULERS s !! c') ->
  u ∈ rq c i -> u ∈ rq c' j -> c = c' /\ i = j.
Proof.
  intros HR Hc Hc' (tk & E & _ & C & P & _)%(ro_mem _ _ _ HR) (tk' & E' & _ & C' & P' & _)%(ro_mem _ _ _ HR); [|done..].
  rewrite E in E'. injection E' as <-. split; [congruence|lia].
Qed.

(** A ready task that is in no queue enters its queue at the end. *)
Lemma ready_push X s rq c sc t tk i :
  ready_ok (t :: X) s rq -> t ∉ X -> SCHEDULERS s !! c = Some sc ->
  tasks s !! t = Some tk -> status tk = TaskReady -> core_id tk = c -> prio tk = Z.of_nat i ->
  exists q', on_ready c (pq_push t) s = Done (tt, after_queue c sc q' s)
    /\ same_tasks (tasks s) q'.1
    /\ ready_ok X (after_queue c sc q' s) (updq c i (rq c i ++ [t]) rq)
    /\ evolves [] s (after_queue c sc q' s).
Proof.
  intros HR HtX Hc Ht Hst Hco Hp.
  assert (t ∉ rq c i) as Hni.
  { intros (tk' & _ & _ & _ & _ & Hx)%(ro_mem _ _ _ HR); [|by eexists]. apply Hx. left. }
  destruct (ro_legal _ _ _ HR t tk Ht) as [Hpr _].
  destruct (push_spec (tasks s, ready_queue (state sc)) (rq c) t tk i) as (q' & E & HR' & Hs & Hf);
    [by apply (ro_repr _ _ _ HR)|done|done|lia|done|].
  exists q'. split; [by apply on_ready_done|]. split; [done|]. split; cycle 1.
  { apply evolves_links; [done|]. intros u tu Eu Su. apply Hf; [intros ->; congruence|].
    intros (tu' & Eu' & Su' & _)%(ro_mem _ _ _ HR); [congruence|by eexists]. }
  eapply ready_after_queue; [exact HR|done|exact HR'|done| | |].
  - intros c' j u Hn Hc' Hu. apply Hf.
    + intros ->. pose proof (proj1 (ro_mem _ _ _ HR c' j t Hc') Hu) as (tk' & E' & _ & C' & _). congruence.
    + intros Hu'. destruct (ready_disjoint _ _ _ c' c j i u HR Hc' ltac:(by eexists) Hu Hu') as [-> _]. done.
  - intros u. rewrite elem_of_app, list_elem_of_singleton, (ro_mem _ _ _ HR c i u) by (by eexists). split.
    + intros [(tk' & E' & S' & C' & P' & HX)| ->]; [exists tk'; split_and!; try done; set_solver|].
      by exists tk.
    + intros (tk' & E' & S' & C' & P' & HX). destruct (decide (u = t)) as [->|Hn]; [by right|left].
      exists tk'. split_and!; try done. set_solver.
  - intros u tk' E' Hd S'. assert (u <> t) by (intros ->; rewrite Ht in E'; injection E' as <-; destruct Hd; congruence).
    set_solver.
Qed.

(** Popping the first task of a list takes it into transit. *)
Lemma ready_popped X s rq c sc t i l :
  ready_ok X s rq -> SCHEDULERS s !! c = Some sc -> rq c i = t :: l ->
  same_tasks (tasks s) (popped (tasks s, ready_queue (state sc)) i t l).1
  /\ ready_ok (t :: X) (after_queue c sc (popped (tasks s, ready_queue (state sc)) i t l) s) (updq c i l rq)
  /\ pq_pop_from_queue i (tasks s, ready_queue (state sc)) = Done (Some t, popped (tasks s, ready_queue (state sc)) i t l)
  /\ evolves [] s (after_queue c sc (popped (tasks s, ready_queue (state sc)) i t l) s).
Proof.
  intros HR Hc El. pose proof (ro_repr _ _ _ HR c sc Hc) as HQ.
  assert (is_Some (SCHEDULERS s !! c)) as Hc' by (by eexists).
  pose proof (ro_mem _ _ _ HR c i) as Hmem.
  destruct (proj1 (Hmem t Hc')) as (tk & Ht & Hst & Hco & Hp & HtX); [rewrite El; left|].
  destruct (ro_legal _ _ _ HR t tk Ht) as [Hpr _]. assert (i < NO_PRIORITIES)%nat as Hi by lia.
  destruct (pop_repr _ (rq c) t i l HQ Hi El) as (HR' & Hs & Hf).
  split; [done|]. split; [|split; [by apply (pop_eq _ (rq c))|]]; cycle 1.
  { apply evolves_links; [done|]. intros u tu Eu Su. apply Hf. intros (tu' & Eu' & Su' & _)%Hmem; [congruence|done]. }
  destruct (repr_queue _ _ i HQ Hi) as (q & _ & [Hnd _ _ _]). rewrite El in Hnd. apply NoDup_cons in Hnd as [Htl Hnd].
  eapply ready_after_queue; [exact HR|done|exact HR'|done| | |].
  - intros c2 j u Hn Hc2 Hu. apply Hf.
    intros Hu'. destruct (ready_disjoint _ _ _ c2 c j i u HR Hc2 Hc' Hu Hu') as [-> _]. done.
  - intros u. split.
    + intros Hu. destruct (proj1 (Hmem u Hc')) as (tu & E & S & C & P & HX); [rewrite El; by right|].
      exists tu. split_and!; try done. intros [->|]%elem_of_cons; done.
    + intros (tu & E & S & C & P & HX). assert (u ∈ rq c i) as Hu.
      { apply Hmem; [done|]. exists tu. split_and!; try done. set_solver. }
      rewrite El in Hu. apply elem_of_cons in Hu as [->|]; [|done]. exfalso. apply HX. left.
  - intros u tu E Hd _. assert (u <> t) by (intros ->; rewrite Ht in E; injection E as <-; destruct Hd; congruence).
    set_solver.
Qed.

End ready.

(** ** Pops as selections *)

Section pops.

Implicit Types (q : TQ) (ls : nat -> list nat).

Lemma pop_run q ls : pq_repr q ls ->
  pq_pop q = match highest NO_PRIORITIES ls with Some i => pq_pop_from_queue i q | None => Done (None, q) end.
Proof.
  intros HR. unfold pq_pop. rewrite bind_gets, (msb_highest q ls HR).
  destruct (highest NO_PRIORITIES ls) as [i|]; [|done]. cbn [fmap option_fmap option_map]. by rewrite Nat2Z.id.
Qed.

Lemma pop_with_prio_run q ls p : pq_repr q ls ->
  pq_pop_with_prio p q = match highest NO_PRIORITIES ls with
    | Some i => if p <=? Z.of_nat i then pq_pop_from_queue i q else Done (None, q)
    | None => Done (None, q)
    end.
Proof.
  intros HR. unfold pq_pop_with_prio. rewrite bind_gets, (msb_highest q ls HR).
  destruct (highest NO_PRIORITIES ls) as [i|]; [|done]. cbn [fmap option_fmap option_map].
  rewrite Nat2Z.id. by destruct (p <=? Z.of_nat i).
Qed.

End pops.
