(* ===== verification/Waiting.v ===== *)
(** * Blocked tasks

    How the queues of blocked tasks and the ready queues work together: waking
    a task moves it from the one to the other. *)

From stdpp Require Import base numbers list gmap.
From Stdlib Require Import ZArith Lia.
From S2P Require Import Prelude Links Collections TaskQueue Scheduler Ready.

#[local] Open Scope Z_scope.

(** ** Waking tasks *)

Section waking.

Context (me : Z).
Implicit Types (s : Sched) (rq : Z -> nat -> list nat) (ts : list nat) (t : nat).

Definition wake_up (r : WakeupReason) (tk : Task) : Task := set_reason r (set_status TaskReady tk).

(** The tasks [ts] marked as woken, and entered into their queues. *)
Definition mark (r : WakeupReason) ts (st : gmap nat Task) : gmap nat Task :=
  foldl (fun st t => alter (wake_up r) t st) st ts.

Definition enqueue (st : gmap nat Task) ts rq : Z -> nat -> list nat :=
  foldl (fun rq t =>
    match st !! t with
    | Some tk => updq (core_id tk) (Z.to_nat (prio tk)) (rq (core_id tk) (Z.to_nat (prio tk)) ++ [t]) rq
    | None => rq
    end) rq ts.

Record woken (r : WakeupReason) ts s s' rq : Prop := {
  wk_ready : ready_ok [] s' (enqueue (tasks s) ts rq);
  wk_tasks : same_tasks (mark r ts (tasks s)) (tasks s');
  wk_erase : erase s' = erase s;
  wk_evolves : evolves ts s s'
}.

Definition blocked_in (st : gmap nat Task) t : Prop := exists tk, st !! t = Some tk /\ status tk = TaskBlocked.

Lemma erase_with_tasks f s : erase (with_tasks f s) = erase s.
Proof. done. Qed.

Lemma erase_with_wakeups f s : erase (with_wakeups f s) = erase s.
Proof. done. Qed.

Lemma ready_wakeups X f s rq : ready_ok X s rq -> ready_ok X (with_wakeups f s) rq.
Proof. intros HR. by apply (ready_frame X s). Qed.

Lemma wakeup_task_spec held t r s rq tk :
  ready_ok [] s rq -> t ∉ held -> tasks s !! t = Some tk -> status tk = TaskBlocked ->
  exists s', wakeup_task me held t r s = Done (tt, s') /\ woken r [t] s s' rq.
Proof.
  intros HR Hheld Ht Hst. destruct (ro_legal _ _ _ HR t tk Ht) as [Hp [sc Hsc]].
  assert (prio tk = Z.of_nat (Z.to_nat (prio tk))) as Hpn by lia.
  unfold wakeup_task. rewrite bind_massert; cycle 1.
  { apply negb_true_iff, not_true_iff_false. rewrite existsb_exists.
    intros (x & Hx & ->%Nat.eqb_eq). apply Hheld. by apply list_elem_of_In. }
  rewrite (bind_done (borrow_task t) _ s tk s) by (unfold borrow_task; by rewrite Ht).
  rewrite bind_massert by (by apply bool_decide_eq_true).
  unfold write_task. rewrite bind_modify.
  set (s1 := with_tasks (alter (wake_up r) t) s).
  assert (tasks s1 !! t = Some (wake_up r tk)) as Ht1 by (unfold s1; simpl; by rewrite lookup_alter_eq, Ht).
  assert (ready_ok [t] s1 rq) as HR1.
  { apply (ready_write [] [t] s rq t tk); try done.
    - rewrite Hst. simpl. split; [intros [_ Hx]; exfalso; apply Hx; left|intros [? _]; done].
    - intros u Hu. rewrite list_elem_of_singleton. split; [done|intros H; by apply elem_of_nil in H]. }
  rewrite (bind_done (get_scheduler (core_id tk)) _ s1 sc s1) by (unfold get_scheduler; simpl; by rewrite Hsc).
  destruct (ready_push [] s1 rq (core_id tk) sc t (wake_up r tk) (Z.to_nat (prio tk)) HR1) as (q' & E & Hs & HR2 & Hev);
    [by intros H%elem_of_nil|done|done|done|done|done|].
  assert (enqueue (tasks s) [t] rq = updq (core_id tk) (Z.to_nat (prio tk)) (rq (core_id tk) (Z.to_nat (prio tk)) ++ [t]) rq) as Eq.
  { simpl. by rewrite Ht. }
  rewrite (bind_done _ _ _ _ _ E).
  assert (woken r [t] s (after_queue (core_id tk) sc q' s1) rq) as HW.
  { split; [by rewrite Eq|done| |].
    - rewrite erase_after_queue by done. apply erase_with_tasks.
    - apply (evolves_trans _ _ s1); [|by apply (evolves_weaken []); [set_solver|]].
      apply evolves_write. intros tk' _ Hx. exfalso. apply Hx. left. }
  destruct (is_halted (state sc)); [|by eexists].
  unfold wakeup_core. destruct (core_id tk =? me); [by eexists|]. eexists. split; [done|].
  destruct HW as [W1 W2 W3 W4]. split; [by apply ready_wakeups|done|done|exact W4].
Qed.

(** Marking changes neither core nor priority, and respects [same_tasks]. *)
Lemma mark_field {A} (g : Task -> A) r ts st t :
  (forall tk, g (wake_up r tk) = g tk) -> g <$> mark r ts st !! t = g <$> st !! t.
Proof.
  intros Hg. revert st. induction ts as [|u ts IH]; intros st; simpl; [done|]. rewrite IH.
  destruct (decide (t = u)) as [->|Hn]; [|by rewrite lookup_alter_ne].
  rewrite lookup_alter_eq. destruct (st !! u); simpl; [by rewrite Hg|done].
Qed.

Lemma mark_same r ts st st' : same_tasks st st' -> same_tasks (mark r ts st) (mark r ts st').
Proof.
  revert st st'. induction ts as [|t ts IH]; intros st st' Hs; [done|]. simpl. apply IH. intros u.
  specialize (Hs u). destruct (decide (u = t)) as [->|Hn]; [|by rewrite !lookup_alter_ne].
  rewrite !lookup_alter_eq. destruct (st !! t) as [a|], (st' !! t) as [b|]; simpl in *; try done.
  f_equal. injection Hs as Hs. unfold TaskQueue.unlink, wake_up, set_reason, set_status, set_t_prev, set_t_next in *.
  simpl in *. congruence.
Qed.

Lemma mark_notin r ts st t : t ∉ ts -> mark r ts st !! t = st !! t.
Proof.
  revert st. induction ts as [|u ts IH]; intros st Hn; [done|]. simpl. rewrite IH by set_solver.
  apply lookup_alter_ne. set_solver.
Qed.

Lemma enqueue_ext st st' ts rq :
  (forall t, (fun tk => (core_id tk, prio tk)) <$> st' !! t = (fun tk => (core_id tk, prio tk)) <$> st !! t) ->
  enqueue st' ts rq = enqueue st ts rq.
Proof.
  intros Hst. revert rq. induction ts as [|t ts IH]; intros rq; [done|]. simpl. specialize (Hst t) as Ht.
  destruct (st !! t) as [a|], (st' !! t) as [b|]; simpl in Ht; try done.
  injection Ht as -> ->. apply IH.
Qed.

Lemma woken_nil r s rq : ready_ok [] s rq -> woken r [] s s rq.
Proof. split; [done..|by apply evolves_same]. Qed.

Lemma woken_app r ts1 ts2 s s1 s2 rq :
  woken r ts1 s s1 rq -> woken r ts2 s1 s2 (enqueue (tasks s) ts1 rq) -> woken r (ts1 ++ ts2) s s2 rq.
Proof.
  intros [A1 A2 A3 A4] [B1 B2 B3 B4]. split; cycle 3.
  { apply (evolves_trans _ _ s1); [apply (evolves_weaken ts1)|apply (evolves_weaken ts2)]; set_solver. }
  - unfold enqueue. rewrite foldl_app. fold (enqueue (tasks s) ts1 rq).
    rewrite (enqueue_ext (tasks s) (tasks s1)) in B1; [done|].
    intros t. rewrite (same_tasks_field (fun tk => (core_id tk, prio tk)) _ _ t (fun _ => eq_refl) A2). by apply mark_field.
  - unfold mark. rewrite foldl_app. eapply same_tasks_trans; [by apply mark_same|done].
  - by rewrite B3.
Qed.

(** A task that is still to be woken is still blocked. *)
Lemma woken_blocked r ts s s' rq t : woken r ts s s' rq -> t ∉ ts -> blocked_in (tasks s) t -> blocked_in (tasks s') t.
Proof.
  intros HW Hn (tk & E & S). destruct (same_tasks_lookup _ _ t tk (wk_tasks _ _ _ _ _ HW)) as (tk' & E' & U).
  - by rewrite mark_notin.
  - exists tk'. split; [done|]. rewrite <- S. apply (f_equal status) in U. exact U.
Qed.

Lemma still_blocked r t s s' rq (ls : list BlockedTask) :
  woken r [t] s s' rq -> t ∉ task <$> ls ->
  Forall (fun e => blocked_in (tasks s) (task e)) ls -> Forall (fun e => blocked_in (tasks s') (task e)) ls.
Proof.
  intros HW Hn Hb. rewrite Forall_forall in *. intros e He. apply (woken_blocked r [t] s s' rq); [done| |by apply Hb].
  intros Heq%list_elem_of_singleton. apply Hn. rewrite <- Heq. by apply list_elem_of_fmap_2.
Qed.

End waking.

(** ** The loops over a queue *)

Section loops.

Context (me : Z).
Implicit Types (s : Sched) (L : BlockedTaskQueue) (l : list (nat * BlockedTask)) (vs : list BlockedTask)
  (rq : Z -> nat -> list nat).

Lemma onq_done {A} (m : M BlockedTaskQueue A) L s a L' : m L = Done (a, L') -> onq m (L, s) = Done (a, (L', s)).
Proof. intros E. unfold onq. simpl. by rewrite E. Qed.

Lemma ons_done {A} (m : M Sched A) L s a s' : m s = Done (a, s') -> ons m (L, s) = Done (a, (L, s')).
Proof. intros E. unfold ons. simpl. by rewrite E. Qed.

Lemma bind_onq {A B} (m : M BlockedTaskQueue A) (k : A -> M BQS B) L s a L' :
  m L = Done (a, L') -> bind (onq m) k (L, s) = k a (L', s).
Proof. intros E. by rewrite (bind_done _ _ _ _ _ (onq_done m L s a L' E)). Qed.

Lemma bind_ons {A B} (m : M Sched A) (k : A -> M BQS B) L s a s' :
  m s = Done (a, s') -> bind (ons m) k (L, s) = k a (L, s').
Proof. intros E. by rewrite (bind_done _ _ _ _ _ (ons_done m L s a s' E)). Qed.

(** The next step of an iteration. *)
Lemma bind_iter_next {B} L s l i v (k : option (nat * option nat) -> M BQS B) :
  dll_repr L ((i, v) :: l) -> bind (onq (Iter_next (Some i))) k (L, s) = k (Some (i, first l None)) (L, s).
Proof. intros HR. rewrite (bind_onq _ _ _ _ _ _ (Iter_next_run L [] i v l HR)). done. Qed.

(** Removing the first node, and reading it afterwards. *)
Lemma remove_first L l i v :
  dll_repr L ((i, v) :: l) ->
  exists L', Collections.remove i L = Done (tt, L') /\ borrow i L' = Done (mkNode v None None, L')
    /\ dll_repr L' l /\ next_rc L' = next_rc L.
Proof.
  intros HR. destruct (remove_repr L [] i v l HR) as (L' & E & HR' & (Hi & _ & _) & Hn).
  exists L'. split_and!; [done| |done|done]. unfold borrow. by rewrite Hi.
Qed.

Lemma wakeup_all_spec held l : forall fuel L s rq,
  dll_repr L l -> (length l < fuel)%nat -> ready_ok [] s rq ->
  Forall (fun e => blocked_in (tasks s) (task e)) l.*2 -> NoDup (task <$> l.*2) ->
  (forall e, e ∈ l.*2 -> task e ∉ held) ->
  exists L' s', wakeup_all_loop me fuel (first l None) held (L, s) = Done (tt, (L', s'))
    /\ list_repr L' [] /\ woken All (task <$> l.*2) s s' rq.
Proof.
  induction l as [|[i e] l IH]; intros fuel L s rq HR Hf Hok Hb Hnd Hh; (destruct fuel as [|fuel]; [simpl in Hf; lia|]).
  - exists L, s. split; [done|]. split; [by exists []|]. by apply woken_nil.
  - rewrite fmap_cons in Hb, Hnd, Hh. simpl in Hb, Hnd. apply Forall_cons in Hb as [(tk & Ht & Hst) Hb].
    apply NoDup_cons in Hnd as [Hni Hnd].
    destruct (remove_first L l i e HR) as (L1 & E1 & B1 & HR1 & _).
    destruct (wakeup_task_spec me held (task e) All s rq tk Hok) as (s1 & W1 & HW1); [apply Hh; left|done|done|].
    destruct (IH fuel L1 s1 (enqueue (tasks s) [task e] rq) HR1) as (L' & s' & E & HL & HW);
      [simpl in Hf; lia|apply HW1| |done| |].
    + by apply (still_blocked All (task e) s s1 rq).
    + intros e' He'. apply Hh. by right.
    + exists L', s'. split.
      * cbn [wakeup_all_loop first]. rewrite (bind_iter_next _ _ _ _ _ _ HR). cbv beta iota.
        rewrite (bind_onq _ _ _ _ _ _ E1), (bind_onq _ _ _ _ _ _ B1). cbn [value].
        by rewrite (bind_ons _ _ _ _ _ _ W1).
      * split; [done|]. rewrite fmap_cons. simpl. by apply (woken_app All [task e]) with s1.
Qed.

(** *** Timeouts *)

(** Whether the deadline of a task is later than [time]; without one it never is due. *)
Definition later (time : Z) (e : BlockedTask) : bool :=
  match wakeup_time e with None => true | Some nt => time <? nt end.

(** The tasks at the front that are due at [time], and the others. *)
Fixpoint due (time : Z) vs : list BlockedTask :=
  match vs with [] => [] | e :: vs' => if later time e then [] else e :: due time vs' end.
Fixpoint not_due (time : Z) vs : list BlockedTask :=
  match vs with [] => [] | e :: vs' => if later time e then vs else not_due time vs' end.

(** The timer programmed for the first task of a queue, if there is one. *)
Definition rearm vs s : Sched :=
  match vs with [] => s | e :: _ => with_timer (<[me := wakeup_time e]>) s end.

Lemma handle_waiting_spec time l : forall fuel L s rq,
  dll_repr L l -> (length l < fuel)%nat -> ready_ok [] s rq ->
  Forall (fun e => blocked_in (tasks s) (task e)) l.*2 -> NoDup (task <$> l.*2) ->
  exists L' s1, handle_waiting_loop me fuel (first l None) time (L, s) = Done (tt, (L', rearm (not_due time l.*2) s1))
    /\ list_repr L' (not_due time l.*2) /\ woken Timer (task <$> due time l.*2) s s1 rq.
Proof.
  induction l as [|[i e] l IH]; intros fuel L s rq HR Hf Hok Hb Hnd; (destruct fuel as [|fuel]; [simpl in Hf; lia|]).
  - exists L, s. split; [done|]. split; [by exists []|]. by apply woken_nil.
  - cbn [handle_waiting_loop first]. rewrite (bind_iter_next _ _ _ _ _ _ HR). cbv beta iota.
    rewrite (bind_onq _ _ _ _ _ _ (borrow_repr L [] i e l HR)). cbv zeta. cbn [value]. rewrite fmap_cons in *.
    simpl in Hb, Hnd. cbn [due not_due snd]. fold (later time e). destruct (later time e) eqn:El.
    + exists L, s. split; [done|]. split; [by exists ((i, e) :: l)|]. by apply woken_nil.
    + apply Forall_cons in Hb as [(tk & Ht & Hst) Hb]. apply NoDup_cons in Hnd as [Hni Hnd].
      destruct (remove_first L l i e HR) as (L1 & E1 & B1 & HR1 & _).
      destruct (wakeup_task_spec me [] (task e) Timer s rq tk Hok) as (s1 & W1 & HW1); [by intros H%elem_of_nil|done|done|].
      destruct (IH fuel L1 s1 (enqueue (tasks s) [task e] rq) HR1) as (L' & s' & E & HL & HW);
        [simpl in Hf; lia|apply HW1|by apply (still_blocked Timer (task e) s s1 rq)|done|].
      exists L', s'. split_and!; [|done|by apply (woken_app Timer [task e]) with s1].
      rewrite (bind_onq _ _ _ _ _ _ E1), (bind_onq _ _ _ _ _ _ B1). cbn [value].
      by rewrite (bind_ons _ _ _ _ _ _ W1).
Qed.

Definition nil_b {A} (l : list A) : bool := match l with [] => true | _ => false end.

(** A task that is not in the queue is not woken by [custom_wakeup]. *)
Lemma custom_wakeup_absent t l2 : forall l1 fuel f L s,
  dll_repr L (l1 ++ l2) -> (length l2 < fuel)%nat -> t ∉ task <$> l2.*2 ->
  custom_wakeup_loop me fuel (first l2 None) f t (L, s) = Done (tt, (L, s)).
Proof.
  induction l2 as [|[i e] l2 IH]; intros l1 fuel f L s HR Hf Hn; (destruct fuel as [|fuel]; [simpl in Hf; lia|]); [done|].
  cbn [custom_wakeup_loop first]. rewrite (bind_onq _ _ _ _ _ _ (Iter_next_run L l1 i e l2 HR)). cbv beta iota.
  rewrite (bind_onq _ _ _ _ _ _ (borrow_repr L l1 i e l2 HR)). cbn [value]. rewrite !fmap_cons in Hn. simpl in Hn.
  rewrite (proj2 (Nat.eqb_neq (task e) t)) by set_solver.
  apply (IH (l1 ++ [(i, e)])); [by rewrite <- app_assoc|simpl in Hf; lia|set_solver].
Qed.

Lemma custom_wakeup_spec t a i e b : forall l1 fuel L s rq tk,
  dll_repr L (l1 ++ a ++ (i, e) :: b) -> (length (a ++ (i, e) :: b) < fuel)%nat -> task e = t -> t ∉ task <$> a.*2 ->
  ready_ok [] s rq -> tasks s !! t = Some tk -> status tk = TaskBlocked ->
  exists L' s1, custom_wakeup_loop me fuel (first (a ++ (i, e) :: b) None) (nil_b l1) t (L, s)
      = Done (tt, (L', if nil_b (l1 ++ a) then rearm b.*2 s1 else s1))
    /\ dll_repr L' (l1 ++ a ++ b) /\ woken Custom [t] s s1 rq.
Proof.
  induction a as [|[j e'] a IH]; intros l1 fuel L s rq tk HR Hf He Hn Hok Ht Hst; (destruct fuel as [|fuel]; [simpl in Hf; lia|]).
  - cbn [custom_wakeup_loop first app]. simpl in HR. rewrite (bind_onq _ _ _ _ _ _ (Iter_next_run L l1 i e b HR)). cbv beta iota.
    rewrite (bind_onq _ _ _ _ _ _ (borrow_repr L l1 i e b HR)). cbn [value]. rewrite He, Nat.eqb_refl.
    destruct (remove_repr L l1 i e b HR) as (L' & E' & HR' & _ & _).
    destruct (wakeup_task_spec me [] t Custom s rq tk Hok) as (s1 & W1 & HW1); [by intros H%elem_of_nil|done|done|].
    exists L', s1. rewrite app_nil_r. split_and!; [|done|done].
    rewrite (bind_onq _ _ _ _ _ _ E'), (bind_ons _ _ _ _ _ _ W1). destruct l1 as [|x l1]; [|done]. unfold nil_b. cbv iota.
    destruct b as [|[j eb] b]; [done|]. simpl in HR'. cbn [first].
    rewrite (bind_iter_next _ _ _ _ _ _ HR'). cbv beta iota.
    rewrite (bind_onq _ _ _ _ _ _ (borrow_repr L' [] j eb b HR')). done.
  - cbn [custom_wakeup_loop first app]. simpl in HR. rewrite fmap_cons in Hn. simpl in Hn.
    rewrite (bind_onq _ _ _ _ _ _ (Iter_next_run L l1 j e' _ HR)). cbv beta iota.
    rewrite (bind_onq _ _ _ _ _ _ (borrow_repr L l1 j e' _ HR)). cbn [value].
    rewrite (proj2 (Nat.eqb_neq (task e') t)) by set_solver.
    destruct (IH (l1 ++ [(j, e')]) fuel L s rq tk) as (L' & s1 & E & HR' & HW);
      [by rewrite <- app_assoc|simpl in Hf; lia|done|set_solver|done..|].
    exists L', s1. rewrite <- !app_assoc in *. simpl in *. split_and!; [|done|done].
    rewrite <- E. by destruct l1.
Qed.

(** *** Insertion by deadline *)

Fixpoint insert_by_deadline (w : Z) (e : BlockedTask) vs : list BlockedTask :=
  match vs with
  | [] => [e]
  | v :: vs' => if later w v then e :: vs else v :: insert_by_deadline w e vs'
  end.

(** Whether a task with deadline [w] becomes the first of the queue. *)
Definition goes_first (w : Z) vs : bool := match vs with [] => true | v :: _ => later w v end.

Lemma add_loop_spec w e n l2 : forall l1 fuel f L s,
  dll_repr L (l1 ++ l2) -> detached L (l1 ++ l2) n e -> (length l2 < fuel)%nat ->
  exists L', add_loop me fuel (first l2 None) f n w (L, s)
      = Done (tt, (L', if f && goes_first w l2.*2 then with_timer (<[me := Some w]>) s else s))
    /\ list_repr L' (l1.*2 ++ insert_by_deadline w e l2.*2).
Proof.
  induction l2 as [|[i v] l2 IH]; intros l1 fuel f L s HR Hd Hf; (destruct fuel as [|fuel]; [simpl in Hf; lia|]).
  - rewrite app_nil_r in HR, Hd. destruct (push_repr L l1 n e HR Hd) as (L' & E & HR'). exists L'. split.
    + simpl. unfold onq at 1, bind at 1. simpl. rewrite (bind_onq _ _ _ _ _ _ E). by destruct f.
    + exists (l1 ++ [(n, e)]). split; [done|]. by rewrite fmap_app.
  - cbn [add_loop first]. rewrite (bind_onq _ _ _ _ _ _ (Iter_next_run L l1 i v l2 HR)). cbv beta iota.
    rewrite (bind_onq _ _ _ _ _ _ (borrow_repr L l1 i v l2 HR)). cbv zeta. cbn [value].
    rewrite fmap_cons. cbn [snd insert_by_deadline goes_first]. fold (later w v). destruct (later w v) eqn:El.
    + destruct (insert_before_repr L l1 i v l2 n e HR Hd) as (L' & E & HR'). exists L'. split.
      * rewrite (bind_onq _ _ _ _ _ _ E), andb_true_r. by destruct f.
      * exists (l1 ++ (n, e) :: (i, v) :: l2). split; [done|]. rewrite fmap_app. by rewrite !fmap_cons.
    + rewrite andb_false_r. destruct (IH (l1 ++ [(i, v)]) fuel false L s) as (L' & E & HR');
        [by rewrite <- app_assoc|by rewrite <- app_assoc|simpl in Hf; lia|].
      exists L'. split; [done|]. rewrite fmap_app, <- app_assoc in HR'. done.
Qed.

End loops.
