(* ===== verification/Scheduling.v ===== *)
(** * The scheduler's invariant and what it does

    Which task is where: every task of a core runs on it, is its idle task,
    waits in its ready queue, waits in one queue of blocked tasks or has ended. *)

From stdpp Require Import base numbers list gmap.
From Stdlib Require Import ZArith Lia.
From S2P Require Import Prelude Links Mm Collections TaskQueue Tasks Scheduler Ready Waiting.

#[local] Open Scope Z_scope.

(** ** The queues of blocked tasks *)

(** Those of the cores, and those of the tasks that others wait for to end. *)
Inductive Loc := OfCore (c : Z) | OfTask (t : nat).

#[export] Instance Loc_eq_dec : EqDecision Loc.
Proof. solve_decision. Defined.

Definition queue_at (s : Sched) (loc : Loc) : option BlockedTaskQueue :=
  match loc with
  | OfCore c => blocked_tasks <$> SCHEDULERS s !! c
  | OfTask t => wakeup <$> tasks s !! t
  end.

(** By deadline; tasks without one come last. *)
Fixpoint by_deadline (vs : list BlockedTask) : Prop :=
  match vs with
  | [] => True
  | e :: vs' =>
      match wakeup_time e with
      | Some w => Forall (fun e' => match wakeup_time e' with Some w' => w <= w' | None => True end) vs'
      | None => Forall (fun e' => wakeup_time e' = None) vs'
      end /\ by_deadline vs'
  end.

(** The queue at [loc] holds [bl loc]; a task is in one of them, once, exactly
    if it is blocked. *)
Record wait_ok (s : Sched) (bl : Loc -> list BlockedTask) : Prop := {
  wo_repr : forall loc L, queue_at s loc = Some L -> list_repr L (bl loc);
  wo_none : forall loc, queue_at s loc = None -> bl loc = [];
  wo_nodup : forall loc, NoDup (task <$> bl loc);
  wo_once : forall loc loc' t, t ∈ task <$> bl loc -> t ∈ task <$> bl loc' -> loc = loc';
  wo_blocked : forall t, (exists loc, t ∈ task <$> bl loc) <-> blocked_in (tasks s) t;
  wo_sorted : forall loc, by_deadline (bl loc)
}.

(** ** Tasks and cores

    [ex] is a core that is about to switch: its current task may have ended. *)
Record other_ok (ex : option Z) (s : Sched) (bl : Loc -> list BlockedTask) : Prop := {
  oo_wait : wait_ok s bl;
  oo_ids : forall t tk, tasks s !! t = Some tk -> status tk <> TaskInvalid -> TASKS s !! id tk = Some t;
  oo_idle_task : forall c sc, SCHEDULERS s !! c = Some sc ->
    sc_core_id sc = c /\ exists tk, tasks s !! idle_task sc = Some tk /\ core_id tk = c /\ status tk = TaskIdle;
  oo_idle : forall t tk sc, tasks s !! t = Some tk -> status tk = TaskIdle -> SCHEDULERS s !! core_id tk = Some sc -> t = idle_task sc;
  oo_current : forall c sc, SCHEDULERS s !! c = Some sc ->
    exists tk, tasks s !! current_task sc = Some tk /\ core_id tk = c /\ (ex <> Some c -> status tk <> TaskInvalid);
  oo_running : forall t tk sc, tasks s !! t = Some tk -> status tk = TaskRunning -> SCHEDULERS s !! core_id tk = Some sc -> current_task sc = t;
  oo_finished : forall c sc tid, SCHEDULERS s !! c = Some sc -> tid ∈ finished_tasks sc ->
    exists t tk, TASKS s !! tid = Some t /\ tasks s !! t = Some tk /\ status tk = TaskInvalid /\ core_id tk = c;
  oo_finished_once : forall c sc, SCHEDULERS s !! c = Some sc -> NoDup (finished_tasks sc);
  oo_ticks : forall c sc, SCHEDULERS s !! c = Some sc -> 0 <= last_task_switch_tick sc /\ last_task_switch_tick sc + TASK_TIME_SLICE < W64;
  oo_clock : forall n, 0 <= clock s n /\ clock s n + TASK_TIME_SLICE < W64;
  oo_listed : forall tid t, TASKS s !! tid = Some t -> is_Some (tasks s !! t)
}.

(** The invariant of the scheduler. *)
Definition sched_inv (s : Sched) (rq : Z -> nat -> list nat) (bl : Loc -> list BlockedTask) : Prop :=
  ready_ok [] s rq /\ other_ok None s bl.

Section frames.

Implicit Types (s : Sched) (bl : Loc -> list BlockedTask) (rq : Z -> nat -> list nat).

Definition blank (sc : PerCoreScheduler) : PerCoreScheduler := sc_with_state (fun _ => no_state) sc.

Lemma erase_scheduler s s' c : erase s' = erase s -> blank <$> SCHEDULERS s' !! c = blank <$> SCHEDULERS s !! c.
Proof. intros He. apply (f_equal (fun s => SCHEDULERS s !! c)) in He. simpl in He. by rewrite !lookup_fmap in He. Qed.

(** What depends on the tasks up to their links, and on the erased state. *)
Lemma erase_back s s' c sc' : erase s' = erase s -> SCHEDULERS s' !! c = Some sc' ->
  exists sc, SCHEDULERS s !! c = Some sc /\ blank sc' = blank sc.
Proof.
  intros He Hc. pose proof (erase_scheduler s s' c He) as Hs. rewrite Hc in Hs.
  destruct (SCHEDULERS s !! c) as [sc|]; [|done]. exists sc. split; [done|]. by apply (inj Some).
Qed.

Lemma same_back st st' t tk' : same_tasks st st' -> st' !! t = Some tk' ->
  exists tk, st !! t = Some tk /\ TaskQueue.unlink tk' = TaskQueue.unlink tk.
Proof.
  intros Hs E. specialize (Hs t). rewrite E in Hs. destruct (st !! t) as [tk|]; [|done]. exists tk. split; [done|].
  by apply (inj Some).
Qed.

Lemma unlink_fields tk tk' : TaskQueue.unlink tk' = TaskQueue.unlink tk ->
  id tk' = id tk /\ status tk' = status tk /\ prio tk' = prio tk /\ core_id tk' = core_id tk /\ wakeup tk' = wakeup tk
  /\ last_stack_pointer tk' = last_stack_pointer tk.
Proof.
  intros H. split_and!; [apply (f_equal id) in H|apply (f_equal status) in H|apply (f_equal prio) in H|apply (f_equal core_id) in H
    |apply (f_equal wakeup) in H|apply (f_equal last_stack_pointer) in H]; exact H.
Qed.

Lemma blank_fields sc sc' : blank sc' = blank sc ->
  sc_core_id sc' = sc_core_id sc /\ current_task sc' = current_task sc /\ idle_task sc' = idle_task sc
  /\ finished_tasks sc' = finished_tasks sc /\ blocked_tasks sc' = blocked_tasks sc
  /\ last_task_switch_tick sc' = last_task_switch_tick sc.
Proof. intros H. injection H as H1 H2 H3 H4 H5 H6 H7. done. Qed.

Lemma queue_at_frame s s' loc : same_tasks (tasks s) (tasks s') -> erase s' = erase s -> queue_at s' loc = queue_at s loc.
Proof.
  intros Hs He. destruct loc as [c|t]; simpl.
  - pose proof (erase_scheduler s s' c He) as Hc. destruct (SCHEDULERS s' !! c), (SCHEDULERS s !! c); simpl in *; try done.
    apply (inj Some) in Hc. f_equal. by apply blank_fields.
  - apply (same_tasks_field wakeup); done.
Qed.

Lemma blocked_in_frame st st' t : same_tasks st st' -> blocked_in st' t <-> blocked_in st t.
Proof.
  intros Hs. assert (status <$> st' !! t = status <$> st !! t) as H by (by apply (same_tasks_field status)).
  unfold blocked_in. split; intros (tk & E & S); rewrite E in H; simpl in H.
  - destruct (st !! t) as [tk0|]; [|done]. exists tk0. split; [done|]. simpl in H. congruence.
  - destruct (st' !! t) as [tk0|]; [|done]. exists tk0. split; [done|]. simpl in H. congruence.
Qed.

Lemma wait_frame s s' bl : same_tasks (tasks s) (tasks s') -> erase s' = erase s -> wait_ok s bl -> wait_ok s' bl.
Proof.
  intros Hs He [W1 W2 W3 W4 W5 W6]. split; try done.
  - intros loc L. rewrite (queue_at_frame s s' loc Hs He). apply W1.
  - intros loc. rewrite (queue_at_frame s s' loc Hs He). apply W2.
  - intros t. rewrite W5. symmetry. by apply blocked_in_frame.
Qed.

Lemma other_frame ex s s' bl : same_tasks (tasks s) (tasks s') -> erase s' = erase s -> other_ok ex s bl -> other_ok ex s' bl.
Proof.
  intros Hs He [O1 O2 O3 O4 O5 O6 O7 O8 O9 O10 O11].
  assert (TASKS s' = TASKS s) as HT by (by apply (f_equal TASKS) in He).
  assert (clock s' = clock s) as HC by (by apply (f_equal clock) in He).
  assert (forall c sc', SCHEDULERS s' !! c = Some sc' -> exists sc, SCHEDULERS s !! c = Some sc /\ blank sc' = blank sc) as HS
    by (intros; by eapply erase_back).
  assert (forall t tk', tasks s' !! t = Some tk' -> exists tk, tasks s !! t = Some tk /\ TaskQueue.unlink tk' = TaskQueue.unlink tk) as HB
    by (intros; by eapply same_back).
  assert (forall t tk, tasks s !! t = Some tk -> exists tk', tasks s' !! t = Some tk' /\ TaskQueue.unlink tk' = TaskQueue.unlink tk) as HF
    by (intros; by eapply same_tasks_lookup).
  split.
  - by apply (wait_frame s).
  - intros t tk' E S. destruct (HB t tk' E) as (tk & E0 & (F1 & F2 & _)%unlink_fields). rewrite HT, F1. apply O2; [done|congruence].
  - intros c sc' Hc. destruct (HS c sc' Hc) as (sc & Hc0 & (B1 & B2 & B3 & _)%blank_fields).
    destruct (O3 c sc Hc0) as (C1 & tk & E & C2 & C3). split; [congruence|]. rewrite B3.
    destruct (HF _ tk E) as (tk' & E' & (F1 & F2 & F3 & F4 & _)%unlink_fields). exists tk'. split_and!; congruence.
  - intros t tk' sc' E S Hc. destruct (HB t tk' E) as (tk & E0 & (F1 & F2 & F3 & F4 & _)%unlink_fields).
    destruct (HS _ sc' Hc) as (sc & Hc0 & (B1 & B2 & B3 & _)%blank_fields). rewrite B3. apply (O4 t tk); congruence.
  - intros c sc' Hc. destruct (HS c sc' Hc) as (sc & Hc0 & (B1 & B2 & B3 & _)%blank_fields).
    destruct (O5 c sc Hc0) as (tk & E & C2 & C3). rewrite B2.
    destruct (HF _ tk E) as (tk' & E' & (F1 & F2 & F3 & F4 & _)%unlink_fields). exists tk'. split_and!; [done|congruence|].
    intros Hex. rewrite F2. by apply C3.
  - intros t tk' sc' E S Hc. destruct (HB t tk' E) as (tk & E0 & (F1 & F2 & F3 & F4 & _)%unlink_fields).
    destruct (HS _ sc' Hc) as (sc & Hc0 & (B1 & B2 & B3 & _)%blank_fields). rewrite B2. apply (O6 t tk); congruence.
  - intros c sc' tid Hc Hin. destruct (HS c sc' Hc) as (sc & Hc0 & (B1 & B2 & B3 & B4 & _)%blank_fields). rewrite B4 in Hin.
    destruct (O7 c sc tid Hc0 Hin) as (t & tk & T & E & S & C). destruct (HF _ tk E) as (tk' & E' & (F1 & F2 & F3 & F4 & _)%unlink_fields).
    exists t, tk'. split_and!; congruence.
  - intros c sc' Hc. destruct (HS c sc' Hc) as (sc & Hc0 & (B1 & B2 & B3 & B4 & _)%blank_fields). rewrite B4. by apply (O8 c).
  - intros c sc' Hc. destruct (HS c sc' Hc) as (sc & Hc0 & (B1 & B2 & B3 & B4 & B5 & B6)%blank_fields). rewrite B6. by apply (O9 c).
  - by rewrite HC.
  - intros tid t. rewrite HT. intros [tk E]%O11. destruct (HF t tk E) as (tk' & E' & _). by eexists.
Qed.

End frames.

(** ** Waking tasks out of a queue *)

Section queues.

Implicit Types (s : Sched) (bl : Loc -> list BlockedTask) (rq : Z -> nat -> list nat) (loc : Loc).

Definition set_queue_at loc (L : BlockedTaskQueue) s : Sched :=
  match loc with
  | OfCore c => with_SCHEDULERS (alter (sc_with_blocked L) c) s
  | OfTask t => with_tasks (alter (set_wakeup L) t) s
  end.

Definition updl loc (vs : list BlockedTask) bl : Loc -> list BlockedTask :=
  fun l => if decide (l = loc) then vs else bl l.

Lemma updl_eq loc vs bl : updl loc vs bl loc = vs.
Proof. unfold updl. by rewrite decide_True. Qed.
Lemma updl_ne loc loc' vs bl : loc' <> loc -> updl loc vs bl loc' = bl loc'.
Proof. intros. unfold updl. by rewrite decide_False. Qed.

Lemma mark_lookup r ts st t : mark r ts st !! t = if decide (t ∈ ts) then wake_up r <$> st !! t else st !! t.
Proof.
  revert st. induction ts as [|u ts IH]; intros st; [done|]. simpl. rewrite IH.
  destruct (decide (t = u)) as [->|Hn].
  - rewrite lookup_alter_eq. rewrite (decide_True (P := u ∈ u :: ts)) by left. destruct (decide (u ∈ ts)); [|done].
    by destruct (st !! u).
  - rewrite lookup_alter_ne by done. destruct (decide (t ∈ ts)); [rewrite decide_True by (by right)|rewrite decide_False by set_solver]; done.
Qed.

(** *** Changes of status

    [restated g st st']: the tasks [st'] are [st] with the status of each task
    changed by [g]; links, registers and reasons may differ as well. *)
Definition facts (tk : Task) : TaskId * Z * Priority * BlockedTaskQueue := (id tk, core_id tk, prio tk, wakeup tk).
Definition restated (g : nat -> TaskStatus -> TaskStatus) (st st' : gmap nat Task) : Prop :=
  forall t, (fun tk => (facts tk, status tk)) <$> st' !! t = (fun tk => (facts tk, g t (status tk))) <$> st !! t.

(** The same but for the queue of one task. *)
Definition facts3 (tk : Task) : TaskId * Z * Priority := (id tk, core_id tk, prio tk).
Definition restated3 (g : nat -> TaskStatus -> TaskStatus) (st st' : gmap nat Task) : Prop :=
  forall t, (fun tk => (facts3 tk, status tk)) <$> st' !! t = (fun tk => (facts3 tk, g t (status tk))) <$> st !! t.

Lemma restated_weaken g st st' : restated g st st' -> restated3 g st st'.
Proof.
  intros H t. specialize (H t). destruct (st !! t), (st' !! t); simpl in *; try done.
  unfold facts, facts3 in *. congruence.
Qed.

Lemma restated_back g st st' t tk' : restated3 g st st' -> st' !! t = Some tk' ->
  exists tk, st !! t = Some tk /\ id tk' = id tk /\ core_id tk' = core_id tk /\ prio tk' = prio tk /\ status tk' = g t (status tk).
Proof.
  intros H E. specialize (H t). rewrite E in H. destruct (st !! t) as [tk|]; [|done]. simpl in H.
  injection H as H1 H2 H3 H4. by exists tk.
Qed.

Lemma restated_forth g st st' t tk : restated3 g st st' -> st !! t = Some tk ->
  exists tk', st' !! t = Some tk' /\ id tk' = id tk /\ core_id tk' = core_id tk /\ prio tk' = prio tk /\ status tk' = g t (status tk).
Proof.
  intros H E. specialize (H t). rewrite E in H. destruct (st' !! t) as [tk'|]; [|done]. simpl in H.
  injection H as H1 H2 H3 H4. by exists tk'.
Qed.

(** The fields of a scheduler that no queue operation touches. *)
Definition sc_facts (sc : PerCoreScheduler) : Z * nat * nat * list TaskId * Z :=
  (sc_core_id sc, current_task sc, idle_task sc, finished_tasks sc, last_task_switch_tick sc).

Lemma sc_facts_back s s' c sc' :
  (forall c, sc_facts <$> SCHEDULERS s' !! c = sc_facts <$> SCHEDULERS s !! c) -> SCHEDULERS s' !! c = Some sc' ->
  exists sc, SCHEDULERS s !! c = Some sc /\ sc_core_id sc' = sc_core_id sc /\ current_task sc' = current_task sc
    /\ idle_task sc' = idle_task sc /\ finished_tasks sc' = finished_tasks sc /\ last_task_switch_tick sc' = last_task_switch_tick sc.
Proof.
  intros H Hc. specialize (H c). rewrite Hc in H. destruct (SCHEDULERS s !! c) as [sc|]; [|done]. simpl in H.
  injection H as H1 H2 H3 H4 H5. by exists sc.
Qed.

(** Changes of status that create neither idle, running nor ended tasks. *)
Lemma other_restated g ex s s' bl bl' :
  other_ok ex s bl -> wait_ok s' bl' -> restated3 g (tasks s) (tasks s') ->
  (forall c, sc_facts <$> SCHEDULERS s' !! c = sc_facts <$> SCHEDULERS s !! c) ->
  TASKS s' = TASKS s -> clock s' = clock s ->
  (forall t tk, tasks s !! t = Some tk -> (g t (status tk) = TaskIdle <-> status tk = TaskIdle)
     /\ (g t (status tk) = TaskInvalid <-> status tk = TaskInvalid) /\ (g t (status tk) = TaskRunning -> status tk = TaskRunning)) ->
  other_ok ex s' bl'.
Proof.
  intros [O1 O2 O3 O4 O5 O6 O7 O8 O9 O10 O11] HW Hre Hsc HT HC Hg.
  pose proof (fun t tk' => restated_back g _ _ t tk' Hre) as HB. pose proof (fun t tk => restated_forth g _ _ t tk Hre) as HF.
  pose proof (fun c sc' => sc_facts_back s s' c sc' Hsc) as HS.
  split; [done|..].
  - intros t tk' E S. destruct (HB t tk' E) as (tk & E0 & F1 & _ & _ & F4). rewrite HT, F1. apply O2; [done|].
    intros Hi. apply S. rewrite F4. by apply (Hg t tk E0).
  - intros c sc' Hc. destruct (HS c sc' Hc) as (sc & Hc0 & B1 & _ & B3 & _). destruct (O3 c sc Hc0) as (C1 & tk & E & C2 & C3).
    split; [congruence|]. rewrite B3. destruct (HF _ tk E) as (tk' & E' & F1 & F2 & F3 & F4). exists tk'.
    split_and!; [done|congruence|]. rewrite F4. by apply (Hg _ tk E).
  - intros t tk' sc' E S Hc. destruct (HB t tk' E) as (tk & E0 & F1 & F2 & F3 & F4).
    destruct (HS _ sc' Hc) as (sc & Hc0 & _ & _ & B3 & _). rewrite B3. apply (O4 t tk); [done| |congruence].
    apply (Hg t tk E0). congruence.
  - intros c sc' Hc. destruct (HS c sc' Hc) as (sc & Hc0 & _ & B2 & _). destruct (O5 c sc Hc0) as (tk & E & C2 & C3).
    rewrite B2. destruct (HF _ tk E) as (tk' & E' & F1 & F2 & F3 & F4). exists tk'. split_and!; [done|congruence|].
    intros Hex Hi. apply (C3 Hex). apply (Hg _ tk E). congruence.
  - intros t tk' sc' E S Hc. destruct (HB t tk' E) as (tk & E0 & F1 & F2 & F3 & F4).
    destruct (HS _ sc' Hc) as (sc & Hc0 & _ & B2 & _). rewrite B2. apply (O6 t tk); [done| |congruence].
    apply (Hg t tk E0). congruence.
  - intros c sc' tid Hc Hin. destruct (HS c sc' Hc) as (sc & Hc0 & _ & _ & _ & B4 & _). rewrite B4 in Hin.
    destruct (O7 c sc tid Hc0 Hin) as (t & tk & T & E & S & C). destruct (HF _ tk E) as (tk' & E' & F1 & F2 & F3 & F4).
    exists t, tk'. split_and!; [congruence|done| |congruence]. rewrite F4. by apply (Hg _ tk E).
  - intros c sc' Hc. destruct (HS c sc' Hc) as (sc & Hc0 & _ & _ & _ & B4 & _). rewrite B4. by apply (O8 c).
  - intros c sc' Hc. destruct (HS c sc' Hc) as (sc & Hc0 & _ & _ & _ & _ & B5). rewrite B5. by apply (O9 c).
  - by rewrite HC.
  - intros tid t. rewrite HT. intros [tk E]%O11. destruct (HF t tk E) as (tk' & E' & _). by eexists.
Qed.

(** Storing another list in the queue at [loc]. *)
Lemma wait_change loc L vs s s' bl :
  wait_ok s bl -> is_Some (queue_at s loc) ->
  (forall loc', queue_at s' loc' = if decide (loc' = loc) then Some L else queue_at s loc') ->
  list_repr L vs -> NoDup (task <$> vs) -> by_deadline vs ->
  (forall t, t ∈ task <$> vs -> t ∈ task <$> bl loc \/ ~ blocked_in (tasks s) t) ->
  (forall t, blocked_in (tasks s') t <-> t ∈ task <$> vs \/ (blocked_in (tasks s) t /\ t ∉ task <$> bl loc)) ->
  wait_ok s' (updl loc vs bl).
Proof.
  intros [W1 W2 W3 W4 W5 W6] Hs Hq HL Hnd Hd Hin Hbl.
  assert (forall t loc', loc' <> loc -> t ∈ task <$> bl loc' -> t ∉ task <$> vs) as Hout.
  { intros t loc' Hn Ht Hv. destruct (Hin t Hv) as [Ht'|Hnb]; [by destruct Hn; apply (W4 loc' loc t)|].
    apply Hnb, W5. by exists loc'. }
  split.
  - intros loc' L' E. rewrite Hq in E. destruct (decide (loc' = loc)) as [->|Hn].
    + injection E as <-. by rewrite updl_eq.
    + rewrite updl_ne by done. by apply W1.
  - intros loc' E. rewrite Hq in E. destruct (decide (loc' = loc)) as [->|Hn]; [done|]. rewrite updl_ne by done. by apply W2.
  - intros loc'. destruct (decide (loc' = loc)) as [->|Hn]; [by rewrite updl_eq|rewrite updl_ne by done; apply W3].
  - intros loc1 loc2 t. destruct (decide (loc1 = loc)) as [->|H1], (decide (loc2 = loc)) as [->|H2];
      rewrite ?updl_eq, ?updl_ne by done; intros T1 T2; [done|by destruct (Hout t loc2)|by destruct (Hout t loc1)|by apply (W4 loc1 loc2 t)].
  - intros t. rewrite Hbl, <- W5. split.
    + intros (loc' & Ht). destruct (decide (loc' = loc)) as [->|Hn]; [rewrite updl_eq in Ht; by left|].
      rewrite updl_ne in Ht by done. right. split; [by exists loc'|]. intros Ht'. apply Hn. by apply (W4 loc' loc t).
    + intros [Ht|((loc' & Ht) & Hn)]; [exists loc; by rewrite updl_eq|]. exists loc'. rewrite updl_ne; [done|by intros ->].
  - intros loc'. destruct (decide (loc' = loc)) as [->|Hn]; [by rewrite updl_eq|rewrite updl_ne by done; apply W6].
Qed.

(** The blocked tasks after a change of status. *)
Lemma blocked_restated g st st' t : restated3 g st st' ->
  blocked_in st' t <-> exists tk, st !! t = Some tk /\ g t (status tk) = TaskBlocked.
Proof.
  intros Hre. unfold blocked_in. split; intros (tk & E & S).
  - destruct (restated_back g _ _ t tk Hre E) as (tk0 & E0 & _ & _ & _ & F). exists tk0. split; [done|congruence].
  - destruct (restated_forth g _ _ t tk Hre E) as (tk' & E' & _ & _ & _ & F). exists tk'. split; [done|congruence].
Qed.

(** Storing a queue after a change of status. *)
Lemma restated_set_queue g loc L s st' :
  restated g (tasks s) st' -> restated3 g (tasks s) (tasks (set_queue_at loc L (with_tasks (fun _ => st') s))).
Proof.
  intros Hre. destruct loc as [c|u]; [by apply restated_weaken|]. intros t. specialize (Hre t). simpl.
  destruct (decide (t = u)) as [->|Hn]; [rewrite lookup_alter_eq|rewrite lookup_alter_ne by done].
  - destruct (tasks s !! u), (st' !! u); simpl in *; try done. unfold facts, facts3 in *. simpl. congruence.
  - destruct (tasks s !! t), (st' !! t); simpl in *; try done. unfold facts, facts3 in *. congruence.
Qed.

Lemma queue_at_set g loc loc' L s st' :
  restated g (tasks s) st' -> is_Some (queue_at s loc) ->
  queue_at (set_queue_at loc L (with_tasks (fun _ => st') s)) loc' = if decide (loc' = loc) then Some L else queue_at s loc'.
Proof.
  intros Hre Hs. assert (forall t, wakeup <$> st' !! t = wakeup <$> tasks s !! t) as Hw.
  { intros t. specialize (Hre t). destruct (tasks s !! t), (st' !! t); simpl in *; try done. unfold facts in Hre. congruence. }
  destruct (decide (loc' = loc)) as [->|Hn].
  - destruct loc as [c|t]; simpl in *; rewrite lookup_alter_eq.
    + destruct (SCHEDULERS s !! c); [done|]. by destruct Hs.
    + rewrite <- Hw in Hs. destruct (st' !! t); [done|]. by destruct Hs.
  - destruct loc as [c|t], loc' as [c'|t']; simpl; [|apply Hw|done|]; rewrite lookup_alter_ne by congruence; [done|apply Hw].
Qed.

Lemma sc_facts_set_queue loc L s st' c :
  sc_facts <$> SCHEDULERS (set_queue_at loc L (with_tasks (fun _ => st') s)) !! c = sc_facts <$> SCHEDULERS s !! c.
Proof.
  destruct loc as [c0|u]; simpl; [|done]. destruct (decide (c = c0)) as [->|Hn]; [|by rewrite lookup_alter_ne].
  rewrite lookup_alter_eq. by destruct (SCHEDULERS s !! c0).
Qed.

(** Marking as woken is a change of status. *)
Definition to_ready (ts : list nat) (t : nat) (st : TaskStatus) : TaskStatus := if decide (t ∈ ts) then TaskReady else st.

Lemma mark_restated r ts st : restated (to_ready ts) st (mark r ts st).
Proof.
  intros t. rewrite mark_lookup. unfold to_ready. destruct (decide (t ∈ ts)); [|done]. by destruct (st !! t).
Qed.

Lemma other_marked ex r ts loc L vs s bl :
  other_ok ex s bl -> is_Some (queue_at s loc) -> list_repr L vs -> task <$> bl loc ≡ₚ ts ++ (task <$> vs) -> by_deadline vs ->
  other_ok ex (set_queue_at loc L (with_tasks (fun _ => mark r ts (tasks s)) s)) (updl loc vs bl).
Proof.
  intros HO Hs HL Hp Hd. pose proof (oo_wait _ _ _ HO) as HW.
  pose proof (mark_restated r ts (tasks s)) as Hm. pose proof (restated_set_queue _ loc L s _ Hm) as Hre.
  pose proof (wo_nodup _ _ HW loc) as Hnd. rewrite Hp in Hnd. apply NoDup_app in Hnd as (_ & Hdis & Hnd).
  assert (forall t, t ∈ ts -> blocked_in (tasks s) t) as Hblk.
  { intros t Ht. apply (proj1 (wo_blocked s bl HW t)). exists loc. rewrite Hp. apply elem_of_app. by left. }
  apply (other_restated (to_ready ts) ex s _ bl); try done.
  - apply (wait_change loc L vs s); try done.
    + intros loc'. by apply (queue_at_set (to_ready ts)).
    + intros t Ht. left. rewrite Hp. apply elem_of_app. by right.
    + intros t. rewrite (blocked_restated _ _ _ t Hre), Hp, elem_of_app. unfold to_ready. split.
      * intros (tk & E & S). destruct (decide (t ∈ ts)); [done|]. destruct (decide (t ∈ task <$> vs)); [by left|right].
        split; [by exists tk|tauto].
      * intros [Ht|[(tk & E & S) Hn]].
        -- destruct (proj1 (wo_blocked s bl HW t)) as (tk & E & S); [exists loc; rewrite Hp; apply elem_of_app; by right|].
           exists tk. rewrite decide_False; [done|]. intros Hts. by apply (Hdis t).
        -- exists tk. rewrite decide_False by tauto. done.
  - intros c. apply sc_facts_set_queue.
  - by destruct loc.
  - by destruct loc.
  - intros t tk E. unfold to_ready. destruct (decide (t ∈ ts)) as [Ht|]; [|done].
    destruct (Hblk t Ht) as (tk' & E' & S'). rewrite E in E'. injection E' as <-. by rewrite S'.
Qed.

(** Ready queues do not depend on the queues of blocked tasks. *)
Lemma ready_set_queue X loc L s rq : ready_ok X s rq -> ready_ok X (set_queue_at loc L s) rq.
Proof.
  intros HR. destruct loc as [c|t]; simpl.
  - apply (ready_frame X s); [done|done|]. intros c'. simpl. destruct (decide (c' = c)) as [->|Hn].
    + rewrite lookup_alter_eq. by destruct (SCHEDULERS s !! c).
    + by rewrite lookup_alter_ne.
  - destruct (tasks s !! t) as [tk|] eqn:E.
    + by apply (ready_write X X s rq t tk).
    + apply (ready_frame X s); [done| |done]. simpl. apply map_eq. intros u. destruct (decide (u = t)) as [->|Hn];
        [by rewrite lookup_alter_eq, E|by rewrite lookup_alter_ne].
Qed.

(** Waking the tasks [ts] of a queue keeps the invariant. *)
Lemma inv_woken r ts loc L vs s s1 bl rq :
  sched_inv s rq bl -> woken r ts s s1 rq -> is_Some (queue_at s loc) -> list_repr L vs ->
  task <$> bl loc ≡ₚ ts ++ (task <$> vs) -> by_deadline vs ->
  sched_inv (set_queue_at loc L s1) (enqueue (tasks s) ts rq) (updl loc vs bl).
Proof.
  intros [HR HO] [W1 W2 W3] Hs HL Hp Hd. split.
  - by apply ready_set_queue.
  - apply (other_frame None (set_queue_at loc L (with_tasks (fun _ => mark r ts (tasks s)) s))); [| |by apply other_marked].
    + destruct loc as [c|t]; simpl; [done|]. intros u. specialize (W2 u). destruct (decide (u = t)) as [->|Hn];
        [|by rewrite !lookup_alter_ne]. rewrite !lookup_alter_eq.
      destruct (mark r ts (tasks s) !! t) as [a|], (tasks s1 !! t) as [b|]; simpl in *; try done.
      apply (inj Some) in W2. f_equal. unfold TaskQueue.unlink, set_wakeup, set_t_prev, set_t_next in *. simpl in *. congruence.
    + destruct loc as [c|t]; [|done]. change (erase (with_SCHEDULERS (alter (sc_with_blocked L) c) s1)
        = erase (with_SCHEDULERS (alter (sc_with_blocked L) c) s)).
      assert (forall s, erase (with_SCHEDULERS (alter (sc_with_blocked L) c) s) = with_SCHEDULERS (alter (sc_with_blocked L) c) (erase s)) as He.
      { intros s0. unfold erase, with_reads, with_wakeups, with_SCHEDULERS, with_tasks. simpl. f_equal.
        apply map_eq. intros c'. rewrite lookup_fmap. destruct (decide (c' = c)) as [->|Hn].
        - rewrite !lookup_alter_eq, lookup_fmap. by destruct (SCHEDULERS s0 !! c).
        - by rewrite !lookup_alter_ne, lookup_fmap. }
      by rewrite !He, W3.
Qed.

End queues.

(** ** The operations on queues of blocked tasks *)

Section operations.

Context (me : Z).
Implicit Types (s : Sched) (bl : Loc -> list BlockedTask) (rq : Z -> nat -> list nat) (loc : Loc) (vs : list BlockedTask).

Lemma inv_timer f s rq bl : sched_inv s rq bl -> sched_inv (with_timer f s) rq bl.
Proof.
  intros [HR HO]. split; [by apply (ready_frame [] s)|].
  destruct HO as [[W1 W2 W3 W4 W5 W6] O2 O3 O4 O5 O6 O7 O8 O9 O10 O11]. split; try done.
Qed.

Lemma inv_reads n s rq bl : sched_inv s rq bl -> sched_inv (with_reads n s) rq bl.
Proof. intros [HR HO]. split; [by apply (ready_frame [] s)|by apply (other_frame None s)]. Qed.

Lemma due_split time vs : due time vs ++ not_due time vs = vs.
Proof. induction vs as [|e vs IH]; simpl; [done|]. destruct (later time e); simpl; [done|]. by rewrite IH. Qed.

Lemma by_deadline_app vs1 vs2 : by_deadline (vs1 ++ vs2) -> by_deadline vs2.
Proof. induction vs1 as [|e vs1 IH]; simpl; [done|]. intros [_ H]. by apply IH. Qed.

Lemma by_deadline_delete vs1 e vs2 : by_deadline (vs1 ++ e :: vs2) -> by_deadline (vs1 ++ vs2).
Proof.
  induction vs1 as [|e1 vs1 IH]; simpl; [by intros [_ H]|]. intros [H1 H2]. split; [|by apply IH].
  destruct (wakeup_time e1); rewrite Forall_app, Forall_cons in H1; rewrite Forall_app; naive_solver.
Qed.

Lemma by_deadline_insert w e vs : wakeup_time e = Some w -> by_deadline vs -> by_deadline (insert_by_deadline w e vs).
Proof.
  intros He. induction vs as [|v vs IH]; simpl; [by rewrite He|]. intros [H1 H2]. unfold later.
  destruct (wakeup_time v) as [nt|] eqn:Ev.
  - destruct (Z.ltb_spec w nt) as [Hlt|Hge]; simpl.
    + rewrite He, Ev. split_and!; [|done|done]. constructor; [rewrite Ev; lia|].
      eapply Forall_impl; [exact H1|]. intros e'. cbv beta. destruct (wakeup_time e'); [lia|done].
    + rewrite Ev. split; [|by apply IH]. clear IH H2. induction vs as [|v' vs IHv]; simpl.
      * constructor; [rewrite He; lia|constructor].
      * apply Forall_cons in H1 as [Hv' H1]. destruct (later w v'); repeat constructor; try done; [rewrite He; lia|by apply IHv].
  - simpl. rewrite He, Ev. split_and!; [|done|done]. constructor; [by rewrite Ev|].
    eapply Forall_impl; [exact H1|]. intros e'. cbv beta. by intros ->.
Qed.

Lemma by_deadline_push e vs : wakeup_time e = None -> by_deadline vs -> by_deadline (vs ++ [e]).
Proof.
  intros He. induction vs as [|v vs IH]; simpl; [by rewrite He|]. intros [H1 H2]. split; [|by apply IH].
  destruct (wakeup_time v); rewrite Forall_app; (split; [done|]); constructor; try done. by rewrite He.
Qed.

(** Behind a task that is not due none is. *)
Lemma later_behind time e vs : by_deadline (e :: vs) -> later time e = true -> Forall (fun e' => later time e' = true) vs.
Proof.
  intros [H _] Hl. unfold later in *. destruct (wakeup_time e) as [w|]; (eapply Forall_impl; [exact H|]); intros e'; cbv beta.
  - destruct (wakeup_time e') as [w'|]; [|done]. rewrite !Z.ltb_lt in *. lia.
  - by intros ->.
Qed.

(** In order of deadlines the tasks that are due are those at the front. *)
Lemma due_filter time vs : by_deadline vs ->
  due time vs = filter (fun e => later time e = false) vs /\ not_due time vs = filter (fun e => later time e = true) vs.
Proof.
  induction vs as [|e vs IH]; simpl; [done|]. intros Hd. destruct (later time e) eqn:El.
  - pose proof (later_behind time e vs Hd El) as Hall. rewrite filter_cons_False by congruence. rewrite filter_cons_True by done.
    split.
    + symmetry. clear -Hall. induction Hall as [|v vs Hv _ IH]; [done|]. rewrite filter_cons_False by congruence. done.
    + f_equal. symmetry. clear -Hall. induction Hall as [|v vs Hv _ IH]; [done|]. rewrite filter_cons_True by done. by f_equal.
  - destruct (IH (proj2 Hd)) as [E1 E2]. rewrite filter_cons_True by done. rewrite filter_cons_False by congruence.
    by rewrite E1, <- E2.
Qed.

(** The queue at a location, and its tasks. *)
Lemma queue_facts s rq bl loc L :
  sched_inv s rq bl -> queue_at s loc = Some L ->
  exists l, dll_repr L l /\ l.*2 = bl loc /\ (length l < S (S (next_rc L)))%nat
    /\ Forall (fun e => blocked_in (tasks s) (task e)) l.*2 /\ NoDup (task <$> l.*2).
Proof.
  intros [_ HO] Hq. destruct (wo_repr _ _ (oo_wait _ _ _ HO) loc L Hq) as (l & HR & El).
  exists l. split_and!; [done|done| | |].
  - pose proof (dll_repr_length _ _ HR). lia.
  - rewrite El. apply Forall_forall. intros e He. apply (wo_blocked _ _ (oo_wait _ _ _ HO)).
    exists loc. by apply list_elem_of_fmap_2.
  - rewrite El. apply HO.
Qed.

Lemma on_blocked_done {A} (m : M BQS A) c s sc a L s1 :
  SCHEDULERS s !! c = Some sc -> m (blocked_tasks sc, s) = Done (a, (L, s1)) ->
  on_blocked c m s = Done (a, set_queue_at (OfCore c) L s1).
Proof. intros Hc Hm. unfold on_blocked, bind, get_scheduler. rewrite Hc. simpl. by rewrite Hm. Qed.

Lemma on_wakeup_done {A} (m : M BQS A) t s tk a L s1 :
  tasks s !! t = Some tk -> m (wakeup tk, s) = Done (a, (L, s1)) ->
  on_wakeup t m s = Done (a, set_queue_at (OfTask t) L s1).
Proof. intros Ht Hm. unfold on_wakeup, bind, borrow_task. rewrite Ht. simpl. by rewrite Hm. Qed.

Lemma bind_loop_fuel {B} (k : nat -> M BQS B) L s : bind loop_fuel k (L, s) = k (S (S (next_rc L))) (L, s).
Proof. done. Qed.

Lemma evolves_set_queue X loc L s : evolves X s (set_queue_at loc L s).
Proof. destruct loc as [c|t]; [by apply evolves_same|]. apply (evolves_write X s t (set_wakeup L)). done. Qed.

Lemma evolves_woken r ts loc L s s1 rq : woken r ts s s1 rq -> evolves ts s (set_queue_at loc L s1).
Proof. intros HW. apply (evolves_trans _ _ s1); [apply HW|apply evolves_set_queue]. Qed.

(** The timer interrupt. *)
Lemma handle_waiting_inv s rq bl sc :
  let time := clock s (reads s) in let vs := bl (OfCore me) in
  sched_inv s rq bl -> SCHEDULERS s !! me = Some sc ->
  exists s', on_blocked me (handle_waiting_tasks me) s = Done (tt, s')
    /\ sched_inv s' (enqueue (tasks s) (task <$> due time vs) rq) (updl (OfCore me) (not_due time vs) bl)
    /\ timer s' = match not_due time vs with [] => timer s | e :: _ => <[me := wakeup_time e]> (timer s) end
    /\ same_tasks (mark Timer (task <$> due time vs) (tasks s)) (tasks s')
    /\ evolves (task <$> due time vs) s s'.
Proof.
  intros time vs HI Hsc. assert (queue_at s (OfCore me) = Some (blocked_tasks sc)) as Hq by (simpl; by rewrite Hsc).
  destruct (queue_facts s rq bl _ _ HI Hq) as (l & HL & El & Hf & Hb & Hnd).
  set (s0 := with_reads (S (reads s)) s). assert (sched_inv s0 rq bl) as HI0 by (by apply inv_reads).
  destruct (handle_waiting_spec me time l _ (blocked_tasks sc) s0 rq HL Hf) as (L' & s1 & E & HL' & HW);
    [apply HI0|done|done|]. rewrite El in *.
  exists (set_queue_at (OfCore me) L' (rearm me (not_due time vs) s1)). split_and!.
  - apply (on_blocked_done _ me s sc); [done|]. unfold handle_waiting_tasks.
    rewrite (bind_ons _ _ _ s time s0) by done. rewrite bind_loop_fuel, (bind_onq _ _ _ _ _ _ (iter_run _ _ HL)). done.
  - assert (sched_inv (set_queue_at (OfCore me) L' s1) (enqueue (tasks s) (task <$> due time vs) rq)
      (updl (OfCore me) (not_due time vs) bl)) as HI'.
    { apply (inv_woken Timer _ (OfCore me) L' (not_due time vs) s0 s1); try done.
      - by rewrite <- fmap_app, due_split.
      - apply (by_deadline_app (due time vs)). rewrite due_split. apply HI. }
    destruct (not_due time vs) as [|e vs']; [done|]. by apply (inv_timer (<[me:=wakeup_time e]>)) in HI'.
  - pose proof (f_equal timer (wk_erase _ _ _ _ _ HW)) as Ht. simpl in Ht.
    destruct (not_due time vs); simpl; congruence.
  - pose proof (wk_tasks _ _ _ _ _ HW) as Ht. by destruct (not_due time vs).
  - pose proof (evolves_woken Timer _ (OfCore me) L' s0 s1 rq HW) as He. by destruct (not_due time vs).
Qed.

(** Forgetting the first finished task of a core. *)
Lemma inv_forget s rq bl sc tid rest t tk :
  sched_inv s rq bl -> SCHEDULERS s !! me = Some sc -> finished_tasks sc = tid :: rest ->
  TASKS s !! tid = Some t -> tasks s !! t = Some tk -> status tk = TaskInvalid -> core_id tk = me ->
  sched_inv (with_TASKS (delete tid) (with_SCHEDULERS (alter (sc_with_finished rest) me) s)) rq bl.
Proof.
  intros [HR HO] Hsc Ef HT Ht Hst Hco. pose proof (oo_finished_once _ _ _ HO me sc Hsc) as Hnd. rewrite Ef in Hnd.
  apply NoDup_cons in Hnd as [Hni Hnd].
  assert (forall c sc', alter (sc_with_finished rest) me (SCHEDULERS s) !! c = Some sc' ->
    exists sc0, SCHEDULERS s !! c = Some sc0 /\ sc_core_id sc' = sc_core_id sc0 /\ current_task sc' = current_task sc0
      /\ idle_task sc' = idle_task sc0 /\ last_task_switch_tick sc' = last_task_switch_tick sc0
      /\ blocked_tasks sc' = blocked_tasks sc0
      /\ NoDup (finished_tasks sc') /\ forall i, i ∈ finished_tasks sc' -> i ∈ finished_tasks sc0 /\ (c = me -> i <> tid)) as Hb.
  { intros c sc' [(-> & sc0 & E & ->)|(Hn & E)]%lookup_alter_Some.
    - rewrite Hsc in E. injection E as <-. exists sc. split_and!; try done. intros i Hi. simpl in Hi. rewrite Ef. set_solver.
    - exists sc'. split_and!; try done; by apply (oo_finished_once _ _ _ HO c). }
  split.
  - apply (ready_frame [] s); [done|done|]. intros c. simpl. destruct (decide (c = me)) as [->|Hn];
      [by rewrite lookup_alter_eq, Hsc|by rewrite lookup_alter_ne].
  - destruct HO as [[W1 W2 W3 W4 W5 W6] O2 O3 O4 O5 O6 O7 O8 O9 O10 O11].
    assert (forall loc, queue_at (with_TASKS (delete tid) (with_SCHEDULERS (alter (sc_with_finished rest) me) s)) loc = queue_at s loc) as Hq.
    { intros [c|u]; simpl; [|done]. destruct (decide (c = me)) as [->|Hn];
        [by rewrite lookup_alter_eq, Hsc|by rewrite lookup_alter_ne]. }
    split; simpl.
    + split; try done; intros loc; [intros L|]; rewrite Hq; [apply W1|apply W2].
    + intros u tu E S. rewrite lookup_delete_ne; [by apply O2|]. intros Heq. pose proof (O2 u tu E S) as Hu.
      rewrite <- Heq, HT in Hu. injection Hu as ->. congruence.
    + intros c sc' Hc. destruct (Hb c sc' Hc) as (sc0 & E & B1 & B2 & B3 & _). rewrite B1, B3. by apply O3.
    + intros u tu sc' E S Hc. destruct (Hb _ sc' Hc) as (sc0 & E0 & B1 & B2 & B3 & _). rewrite B3. by apply (O4 u tu).
    + intros c sc' Hc. destruct (Hb c sc' Hc) as (sc0 & E & B1 & B2 & B3 & _). rewrite B2. by apply O5.
    + intros u tu sc' E S Hc. destruct (Hb _ sc' Hc) as (sc0 & E0 & B1 & B2 & B3 & _). rewrite B2. by apply (O6 u tu).
    + intros c sc' i Hc Hi. destruct (Hb c sc' Hc) as (sc0 & E & _ & _ & _ & _ & _ & _ & B). destruct (B i Hi) as [Hi' Hne].
      destruct (O7 c sc0 i E Hi') as (u & tu & HTu & Eu & Su & Cu). exists u, tu. split_and!; try done.
      rewrite lookup_delete_ne; [done|]. intros Heq. destruct (decide (c = me)) as [->|Hn]; [by apply Hne|].
      rewrite <- Heq, HT in HTu. injection HTu as ->. congruence.
    + intros c sc' Hc. by destruct (Hb c sc' Hc) as (sc0 & E & _ & _ & _ & _ & _ & B & _).
    + intros c sc' Hc. destruct (Hb c sc' Hc) as (sc0 & E & _ & _ & _ & B & _). rewrite B. by apply (O9 c).
    + done.
    + intros i u [_ Hu]%lookup_delete_Some. by apply (O11 i).
Qed.

(** Cleaning up a finished task wakes those that wait for it. *)
Lemma cleanup_inv s rq bl sc :
  sched_inv s rq bl -> SCHEDULERS s !! me = Some sc ->
  exists s' rq' bl', cleanup_tasks me s = Done (tt, s') /\ sched_inv s' rq' bl'
    /\ match finished_tasks sc with
       | [] => s' = s /\ rq' = rq /\ bl' = bl
       | tid :: _ => exists t, TASKS s !! tid = Some t /\ TASKS s' = delete tid (TASKS s)
           /\ rq' = enqueue (tasks s) (task <$> bl (OfTask t)) rq /\ bl' = updl (OfTask t) [] bl
           /\ (forall u, u ∈ task <$> bl (OfTask t) -> status <$> tasks s' !! u = Some TaskReady)
           /\ evolves (task <$> bl (OfTask t)) s s'
       end
    /\ exists sc', SCHEDULERS s' !! me = Some sc' /\ current_task sc' = current_task sc
         /\ last_task_switch_tick sc' = last_task_switch_tick sc /\ finished_tasks sc' = List.tl (finished_tasks sc).
Proof.
  intros HI Hsc. unfold cleanup_tasks, core_scheduler.
  rewrite (bind_done (get_scheduler me) _ s sc s) by (unfold get_scheduler; by rewrite Hsc).
  destruct (finished_tasks sc) as [|tid rest] eqn:Ef.
  { exists s, rq, bl. split_and!; try done. by exists sc. }
  pose proof HI as [HR HO].
  destruct (oo_finished _ _ _ HO me sc tid Hsc) as (t & tk & HT & Ht & Hst & Hco); [rewrite Ef; left|].
  unfold write_scheduler. rewrite bind_modify, bind_gets, bind_modify. cbn [TASKS with_SCHEDULERS]. rewrite HT.
  set (s0 := with_TASKS (delete tid) (with_SCHEDULERS (alter (sc_with_finished rest) me) s)).
  assert (sched_inv s0 rq bl) as HI0 by (by eapply inv_forget).
  assert (queue_at s0 (OfTask t) = Some (wakeup tk)) as Hq by (simpl; by rewrite Ht).
  destruct (queue_facts s0 rq bl _ _ HI0 Hq) as (l & HL & El & Hf & Hb & Hnd).
  destruct (wakeup_all_spec me [t] l _ (wakeup tk) s0 rq HL Hf) as (L' & s1 & E & HL' & HW); [apply HI0|done|done| |].
  { intros e He Heq%list_elem_of_singleton. rewrite Forall_forall in Hb. destruct (Hb e He) as (tk' & E' & S').
    rewrite Heq in E'. simpl in E'. congruence. }
  rewrite El in *.
  exists (set_queue_at (OfTask t) L' s1), (enqueue (tasks s) (task <$> bl (OfTask t)) rq), (updl (OfTask t) [] bl). split_and!.
  - apply (on_wakeup_done _ t s0 tk); [done|]. unfold wakeup_all.
    rewrite bind_loop_fuel, (bind_onq _ _ _ _ _ _ (iter_run _ _ HL)). done.
  - apply (inv_woken All _ (OfTask t) L' [] s0 s1); try done; by rewrite app_nil_r.
  - exists t. split_and!; [done| |done|done| |by apply (evolves_woken All _ (OfTask t) L' s0 s1 rq)]. { pose proof (f_equal TASKS (wk_erase _ _ _ _ _ HW)) as HT'. done. }
    intros u Hu. assert (status <$> tasks s1 !! u = Some TaskReady) as Hs.
    { rewrite (same_tasks_field status _ _ u (fun _ => eq_refl) (wk_tasks _ _ _ _ _ HW)). rewrite mark_lookup, decide_True by done.
      apply list_elem_of_fmap in Hu as (e & -> & He). rewrite Forall_forall in Hb. destruct (Hb e He) as (tk' & E' & _). by rewrite E'. }
    simpl. destruct (decide (u = t)) as [->|Hn]; [|by rewrite lookup_alter_ne]. rewrite lookup_alter_eq.
    by destruct (tasks s1 !! t).
  - pose proof (erase_scheduler s0 s1 me (wk_erase _ _ _ _ _ HW)) as Hb2. unfold s0 in Hb2. simpl in Hb2.
    rewrite lookup_alter_eq, Hsc in Hb2. simpl. destruct (SCHEDULERS s1 !! me) as [sc1|]; [|done].
    apply (inj Some) in Hb2. exists sc1. split; [done|]. apply blank_fields in Hb2 as (_ & B2 & _ & B4 & _ & B6). done.
Qed.

Lemma set_queue_same c sc s : SCHEDULERS s !! c = Some sc -> set_queue_at (OfCore c) (blocked_tasks sc) s = s.
Proof.
  intros Hsc. destruct s. unfold set_queue_at, with_SCHEDULERS. simpl in *. f_equal. apply map_eq. intros c'.
  destruct (decide (c' = c)) as [->|Hn]; [rewrite lookup_alter_eq, Hsc; simpl; by destruct sc|by rewrite lookup_alter_ne].
Qed.

(** Waking a task that may wait on some core. *)
Lemma custom_wakeup_inv s rq bl c sc t :
  sched_inv s rq bl -> SCHEDULERS s !! c = Some sc ->
  exists s' rq' bl', on_blocked c (custom_wakeup me t) s = Done (tt, s') /\ sched_inv s' rq' bl'
    /\ if decide (t ∈ task <$> bl (OfCore c)) then
         exists a e b, bl (OfCore c) = a ++ e :: b /\ task e = t /\ rq' = enqueue (tasks s) [t] rq
           /\ bl' = updl (OfCore c) (a ++ b) bl
           /\ timer s' = match a, b with [], e2 :: _ => <[me := wakeup_time e2]> (timer s) | _, _ => timer s end
           /\ same_tasks (mark Custom [t] (tasks s)) (tasks s') /\ evolves [t] s s'
       else rq' = rq /\ bl' = bl /\ s' = s.
Proof.
  intros HI Hsc. assert (queue_at s (OfCore c) = Some (blocked_tasks sc)) as Hq by (simpl; by rewrite Hsc).
  destruct (queue_facts s rq bl _ _ HI Hq) as (l & HL & El & Hf & Hb & Hnd).
  destruct (decide (t ∈ task <$> bl (OfCore c))) as [Hin|Hni].
  - rewrite <- El, <- list_fmap_compose in Hin. apply list_elem_of_fmap in Hin as ([i e] & Ht & Hin).
    apply list_elem_of_split in Hin as (a & b & ->). simpl in Ht. subst t.
    assert (blocked_in (tasks s) (task e)) as (tk & Htk & Hst).
    { rewrite Forall_forall in Hb. apply Hb. rewrite fmap_app, fmap_cons. set_solver. }
    assert (task e ∉ task <$> a.*2) as Hna.
    { rewrite fmap_app, fmap_cons, fmap_app, fmap_cons in Hnd. apply NoDup_app in Hnd as (_ & Hd & _).
      intros Hx. apply (Hd (task e) Hx). left. }
    destruct (custom_wakeup_spec me (task e) a i e b [] _ (blocked_tasks sc) s rq tk HL Hf) as (L' & s1 & E & HL' & HW);
      [done|done|apply HI|done|done|].
    assert (bl (OfCore c) = a.*2 ++ e :: b.*2) as Ebl by (by rewrite <- El, fmap_app, fmap_cons).
    assert (sched_inv (set_queue_at (OfCore c) L' s1) (enqueue (tasks s) [task e] rq) (updl (OfCore c) (a.*2 ++ b.*2) bl)) as HI'.
    { apply (inv_woken Custom _ (OfCore c) L' _ s s1); try done.
      - exists (a ++ b). split; [done|]. by rewrite fmap_app.
      - rewrite Ebl, !fmap_app, fmap_cons. simpl. by rewrite <- Permutation_middle.
      - apply (by_deadline_delete _ e). rewrite <- Ebl. apply HI. }
    pose proof (f_equal timer (wk_erase _ _ _ _ _ HW)) as Htm. simpl in Htm.
    eexists _, _, _. split; [|split; [|exists a.*2, e, b.*2; split_and!; [done|done|reflexivity|reflexivity|..]]].
    + eapply (on_blocked_done _ c s sc); [exact Hsc|]. unfold custom_wakeup.
      rewrite bind_loop_fuel, (bind_onq _ _ _ _ _ _ (iter_run _ _ HL)). exact E.
    + destruct a; simpl nil_b; cbv iota; [|done]. unfold rearm. destruct b as [|[j e2] b]; [done|].
      by apply (inv_timer (<[me:=wakeup_time e2]>)) in HI'.
    + destruct a; simpl nil_b; cbv iota; [|done]. unfold rearm. destruct b as [|[j e2] b]; simpl; congruence.
    + pose proof (wk_tasks _ _ _ _ _ HW). unfold rearm. by destruct (nil_b ([] ++ a)), b.
    + pose proof (evolves_woken Custom _ (OfCore c) L' s s1 rq HW). unfold rearm. by destruct (nil_b ([] ++ a)), b.
  - exists s, rq, bl. split_and!; try done.
    rewrite (on_blocked_done _ c s sc tt (blocked_tasks sc) s Hsc); [by rewrite set_queue_same|].
    unfold custom_wakeup. rewrite bind_loop_fuel, (bind_onq _ _ _ _ _ _ (iter_run _ _ HL)).
    apply (custom_wakeup_absent me t l [] _ true); [done|done|by rewrite El].
Qed.

(** *** Blocking the current task *)

Definition inserted (wt : option Z) (e : BlockedTask) vs : list BlockedTask :=
  match wt with Some w => insert_by_deadline w e vs | None => vs ++ [e] end.

Lemma insert_perm w e vs : insert_by_deadline w e vs ≡ₚ e :: vs.
Proof.
  induction vs as [|v vs IH]; simpl; [done|]. destruct (later w v); [done|]. rewrite IH. constructor.
Qed.

Lemma inserted_perm wt e vs : inserted wt e vs ≡ₚ e :: vs.
Proof. destruct wt; [apply insert_perm|]. simpl. by rewrite Permutation_app_comm. Qed.

Lemma inserted_sorted wt e vs : wakeup_time e = wt -> by_deadline vs -> by_deadline (inserted wt e vs).
Proof. destruct wt; [apply by_deadline_insert|apply by_deadline_push]. Qed.

(** The state in which task [cur] is blocked. *)
Definition block_task (cur : nat) s : Sched := with_tasks (fun _ => alter (set_status TaskBlocked) cur (tasks s)) s.

(** The timer when a task with deadline [wt] was inserted into [vs]. *)
Definition arm (wt : option Z) vs s : Sched :=
  match wt with Some w => if goes_first w vs then with_timer (<[me := Some w]>) s else s | None => s end.

Lemma add_spec held cur wt loc L s rq bl tk :
  sched_inv s rq bl -> queue_at s loc = Some L -> tasks s !! cur = Some tk -> status tk = TaskRunning -> cur ∉ held ->
  exists L', bq_add me held cur wt (L, s) = Done (tt, (L', arm wt (bl loc) (block_task cur s)))
    /\ list_repr L' (inserted wt (mkBlocked cur wt) (bl loc)).
Proof.
  intros HI Hq Ht Hst Hh. destruct (queue_facts s rq bl loc L HI Hq) as (l & HL & El & _).
  unfold bq_add. rewrite (bind_ons _ _ _ _ tt (block_task cur s)); cycle 1.
  { rewrite bind_massert.
    - rewrite (bind_done (borrow_task cur) _ s tk s) by (unfold borrow_task; by rewrite Ht).
      rewrite bind_massert by (by apply bool_decide_eq_true). done.
    - apply negb_true_iff, not_true_iff_false. rewrite existsb_exists. intros (x & Hx & ->%Nat.eqb_eq).
      apply Hh. by apply list_elem_of_In. }
  destruct (Node_new_repr L l (mkBlocked cur wt) HL) as (L1 & E1 & HL1 & Hd). rewrite (bind_onq _ _ _ _ _ _ E1).
  destruct wt as [w|].
  - rewrite bind_loop_fuel, (bind_onq _ _ _ _ _ _ (iter_run _ _ HL1)).
    destruct (add_loop_spec me w (mkBlocked cur (Some w)) (next_rc L) l [] (S (S (next_rc L1))) true L1 (block_task cur s) HL1 Hd)
      as (L' & E & HL'); [pose proof (dll_repr_length _ _ HL1); lia|].
    exists L'. rewrite El in *. simpl in HL'. split; [exact E|done].
  - destruct (push_repr L1 l _ _ HL1 Hd) as (L' & E & HL'). exists L'. split; [by apply onq_done|].
    eexists. split; [exact HL'|]. rewrite fmap_app, El. done.
Qed.

(** The current task [cur] goes to sleep in the queue at [loc]. *)
Lemma inv_blocked wt cur loc L' s rq bl tk :
  sched_inv s rq bl -> is_Some (queue_at s loc) -> tasks s !! cur = Some tk -> status tk = TaskRunning ->
  list_repr L' (inserted wt (mkBlocked cur wt) (bl loc)) ->
  sched_inv (set_queue_at loc L' (arm wt (bl loc) (block_task cur s))) rq
    (updl loc (inserted wt (mkBlocked cur wt) (bl loc)) bl).
Proof.
  intros [HR HO] Hq Ht Hst HL. pose proof (oo_wait _ _ _ HO) as HW.
  set (g := fun t st => if decide (t = cur) then TaskBlocked else st).
  assert (restated g (tasks s) (alter (set_status TaskBlocked) cur (tasks s))) as Hg.
  { intros t. unfold g. destruct (decide (t = cur)) as [->|Hn]; [rewrite lookup_alter_eq|by rewrite lookup_alter_ne].
    by destruct (tasks s !! cur). }
  pose proof (restated_set_queue g loc L' s _ Hg) as Hre.
  assert (~ blocked_in (tasks s) cur) as Hnb by (intros (tk' & E' & S'); congruence).
  assert (cur ∉ task <$> bl loc) as Hni.
  { intros Hin. apply Hnb. apply (proj1 (wo_blocked s bl HW cur)). by exists loc. }
  assert (task <$> inserted wt (mkBlocked cur wt) (bl loc) ≡ₚ cur :: (task <$> bl loc)) as Hp.
  { by rewrite inserted_perm. }
  assert (sched_inv (set_queue_at loc L' (block_task cur s)) rq (updl loc (inserted wt (mkBlocked cur wt) (bl loc)) bl)) as HI'.
  { split.
    - apply ready_set_queue. apply (ready_write [] [] s rq cur tk); try done. simpl. split; [by intros [? _]|intros [? _]; congruence].
    - apply (other_restated g None s _ bl); try done.
      + apply (wait_change loc L' _ s); try done.
        * intros loc'. by apply (queue_at_set g).
        * rewrite Hp. apply NoDup_cons. split; [done|apply HW].
        * apply inserted_sorted; [done|apply HW].
        * intros t. rewrite Hp. intros [->|Hin]%elem_of_cons; [by right|by left].
        * intros t. rewrite (blocked_restated _ _ _ t Hre), Hp, elem_of_cons. unfold g. split.
          -- intros (tk' & E & S). destruct (decide (t = cur)) as [->|]; [left; by left|].
             destruct (decide (t ∈ task <$> bl loc)); [left; by right|right; split; [by exists tk'|done]].
          -- intros [[->|Hin]|[(tk' & E & S) _]].
             ++ exists tk. rewrite decide_True by done. done.
             ++ destruct (proj1 (wo_blocked s bl HW t)) as (tk' & E & S); [by exists loc|]. exists tk'. by destruct (decide (t = cur)).
             ++ exists tk'. by destruct (decide (t = cur)).
      + intros c. apply sc_facts_set_queue.
      + by destruct loc.
      + by destruct loc.
      + intros t tk' E. unfold g. destruct (decide (t = cur)) as [->|]; [|done].
        rewrite Ht in E. injection E as <-. by rewrite Hst. }
  destruct wt as [w|]; [|done]. unfold arm. destruct (goes_first w (bl loc)); [|done].
  apply (inv_timer (<[me := Some w]>)) in HI'. by destruct loc.
Qed.

(** The same for the whole state. *)
Definition put_to_sleep (wt : option Z) (cur : nat) loc (L : BlockedTaskQueue) bl s : Sched :=
  set_queue_at loc L (arm wt (bl loc) (block_task cur s)).

Lemma sleep_spec held cur wt loc L s rq bl tk :
  sched_inv s rq bl -> queue_at s loc = Some L -> tasks s !! cur = Some tk -> status tk = TaskRunning -> cur ∉ held ->
  exists L', bq_add me held cur wt (L, s) = Done (tt, (L', arm wt (bl loc) (block_task cur s)))
    /\ sched_inv (put_to_sleep wt cur loc L' bl s) rq (updl loc (inserted wt (mkBlocked cur wt) (bl loc)) bl)
    /\ evolves [cur] s (put_to_sleep wt cur loc L' bl s).
Proof.
  intros HI Hq Hck Hst Hh. destruct (add_spec held cur wt loc L s rq bl tk HI Hq Hck Hst Hh) as (L' & E & HL).
  exists L'. split_and!; [done|eapply inv_blocked; [done|by eexists|done..]|]. unfold put_to_sleep.
  eapply evolves_trans; [|apply evolves_set_queue]. apply (evolves_trans _ _ (block_task cur s)).
  - apply evolves_write. intros tu _ Hx. exfalso. apply Hx. left.
  - apply evolves_same. unfold arm. destruct wt as [w|]; [|done]. by destruct (goes_first w (bl loc)).
Qed.

End operations.

(** ** Switching *)

Section switching.

Context (me : Z).
Implicit Types (s : Sched) (bl : Loc -> list BlockedTask) (rq : Z -> nat -> list nat) (sc : PerCoreScheduler).

Lemma wait_same s s' bl :
  wait_ok s bl -> (forall loc, queue_at s' loc = queue_at s loc) ->
  (forall t, blocked_in (tasks s') t <-> blocked_in (tasks s) t) -> wait_ok s' bl.
Proof.
  intros [W1 W2 W3 W4 W5 W6] Hq Hb. split; try done.
  - intros loc L. rewrite Hq. apply W1.
  - intros loc. rewrite Hq. apply W2.
  - intros t. by rewrite Hb.
Qed.

(** Writing the status of a task that is not blocked, to one that is not. *)
Lemma wait_status t tk st s s' bl :
  wait_ok s bl -> tasks s !! t = Some tk -> status tk <> TaskBlocked -> st <> TaskBlocked ->
  tasks s' = alter (set_status st) t (tasks s) -> (forall c, blocked_tasks <$> SCHEDULERS s' !! c = blocked_tasks <$> SCHEDULERS s !! c) ->
  wait_ok s' bl.
Proof.
  intros HW Ht Hn Hn' Htk Hsc. apply (wait_same s); [done| |].
  - intros [c|u]; simpl; [done|]. rewrite Htk. destruct (decide (u = t)) as [->|]; [|by rewrite lookup_alter_ne].
    rewrite lookup_alter_eq. by destruct (tasks s !! t).
  - intros u. rewrite Htk. unfold blocked_in. destruct (decide (u = t)) as [->|]; [|by rewrite lookup_alter_ne].
    rewrite lookup_alter_eq, Ht. split; intros (tu & [= <-] & S); done.
Qed.

Lemma other_weaken s bl : other_ok None s bl -> other_ok (Some me) s bl.
Proof.
  intros [O1 O2 O3 O4 O5 O6 O7 O8 O9 O10 O11]. split; try done. intros c sc Hc. destruct (O5 c sc Hc) as (tk & E & C & S).
  exists tk. split_and!; [done|done|]. intros _. by apply S.
Qed.

(** The running task becomes ready again. *)
Lemma other_preempted s bl t tk :
  other_ok None s bl -> tasks s !! t = Some tk -> status tk = TaskRunning ->
  other_ok None (with_tasks (alter (set_status TaskReady) t) s) bl.
Proof.
  intros HO Ht Hst. apply (other_restated (fun u st => if decide (u = t) then TaskReady else st) None s _ bl); try done.
  - apply (wait_status t tk TaskReady s); try done; [apply HO|congruence].
  - intros u. simpl. destruct (decide (u = t)) as [->|]; [rewrite lookup_alter_eq; by destruct (tasks s !! t)|by rewrite lookup_alter_ne].
  - intros u tu E. destruct (decide (u = t)) as [->|]; [|done]. rewrite Ht in E. injection E as <-. by rewrite Hst.
Qed.

(** The current task has ended: it becomes invalid and is left for the cleanup. *)
Definition end_task (t : nat) (tid : TaskId) s : Sched :=
  with_SCHEDULERS (alter (fun c => sc_with_finished (finished_tasks c ++ [tid]) c) me) (with_tasks (alter (set_status TaskInvalid) t) s).

Lemma other_ended s bl sc tk :
  other_ok None s bl -> SCHEDULERS s !! me = Some sc -> tasks s !! current_task sc = Some tk -> status tk = TaskFinished ->
  other_ok (Some me) (end_task (current_task sc) (id tk) s) bl.
Proof.
  intros HO Hsc Ht Hst. pose proof HO as [O1 O2 O3 O4 O5 O6 O7 O8 O9 O10 O11]. set (t := current_task sc) in *.
  assert (core_id tk = me) as Hco by (destruct (O5 me sc Hsc) as (tk' & E & C & _); fold t in E; congruence).
  assert (TASKS s !! id tk = Some t) as Hid by (apply O2; [done|congruence]).
  assert (forall u tu', alter (set_status TaskInvalid) t (tasks s) !! u = Some tu' -> exists tu, tasks s !! u = Some tu
    /\ id tu' = id tu /\ core_id tu' = core_id tu /\ (u = t -> tu = tk /\ status tu' = TaskInvalid) /\ (u <> t -> tu' = tu)) as HB.
  { intros u tu'. destruct (decide (u = t)) as [->|Hn].
    - rewrite lookup_alter_eq, Ht. intros [= <-]. by exists tk.
    - rewrite lookup_alter_ne by done. intros E. by exists tu'. }
  assert (forall u tu, tasks s !! u = Some tu -> u <> t -> alter (set_status TaskInvalid) t (tasks s) !! u = Some tu) as HF
    by (intros; by rewrite lookup_alter_ne).
  assert (forall c sc', SCHEDULERS (end_task t (id tk) s) !! c = Some sc' -> exists sc0, SCHEDULERS s !! c = Some sc0
    /\ sc_core_id sc' = sc_core_id sc0 /\ current_task sc' = current_task sc0 /\ idle_task sc' = idle_task sc0
    /\ last_task_switch_tick sc' = last_task_switch_tick sc0 /\ blocked_tasks sc' = blocked_tasks sc0
    /\ finished_tasks sc' = finished_tasks sc0 ++ (if decide (c = me) then [id tk] else [])) as HS.
  { intros c sc'. cbn [SCHEDULERS end_task with_SCHEDULERS with_tasks]. intros [(<- & sc0 & E & ->)|(Hn & E)]%lookup_alter_Some.
    - exists sc0. rewrite decide_True by done. done.
    - exists sc'. rewrite decide_False, app_nil_r by done. done. }
  assert (forall i, i ∈ finished_tasks sc -> i <> id tk) as Hnew.
  { intros i Hi ->. destruct (O7 me sc (id tk) Hsc Hi) as (u & tu & Tu & Eu & Su & _).
    rewrite Hid in Tu. injection Tu as <-. congruence. }
  split.
  - apply (wait_status t tk TaskInvalid s); try done; [congruence|]. intros c. simpl.
    destruct (decide (c = me)) as [->|]; [rewrite lookup_alter_eq; by destruct (SCHEDULERS s !! me)|by rewrite lookup_alter_ne].
  - intros u tu' E S. destruct (HB u tu' E) as (tu & E0 & F1 & F2 & F3 & F4). destruct (decide (u = t)) as [->|Hn].
    + by destruct (F3 eq_refl).
    + rewrite (F4 Hn) in *. by apply O2.
  - intros c sc' Hc. destruct (HS c sc' Hc) as (sc0 & E & B1 & B2 & B3 & _). rewrite B1, B3. destruct (O3 c sc0 E) as (C1 & ti & Ei & C2 & C3).
    split; [done|]. exists ti. split_and!; [|done|done]. apply HF; [done|]. intros Heq. congruence.
  - intros u tu' sc' E S Hc. destruct (HB u tu' E) as (tu & E0 & F1 & F2 & F3 & F4). destruct (HS _ sc' Hc) as (sc0 & E1 & B1 & B2 & B3 & _).
    destruct (decide (u = t)) as [->|Hn]; [destruct (F3 eq_refl); congruence|]. rewrite (F4 Hn) in *. rewrite B3. by apply (O4 u tu).
  - intros c sc' Hc. destruct (HS c sc' Hc) as (sc0 & E & B1 & B2 & B3 & _). rewrite B2. destruct (O5 c sc0 E) as (ti & Ei & C2 & C3).
    destruct (decide (current_task sc0 = t)) as [Heq|Hn].
    + exists (set_status TaskInvalid tk). simpl. rewrite Heq, lookup_alter_eq, Ht. rewrite Heq, Ht in Ei. injection Ei as <-.
      split_and!; [done|done|]. intros Hc'. exfalso. apply Hc'. congruence.
    + exists ti. split_and!; [by apply HF|done|]. intros _. by apply C3.
  - intros u tu' sc' E S Hc. destruct (HB u tu' E) as (tu & E0 & F1 & F2 & F3 & F4). destruct (HS _ sc' Hc) as (sc0 & E1 & B1 & B2 & B3 & _).
    destruct (decide (u = t)) as [->|Hn]; [destruct (F3 eq_refl); congruence|]. rewrite (F4 Hn) in *. rewrite B2. by apply (O6 u tu).
  - intros c sc' i Hc Hi. destruct (HS c sc' Hc) as (sc0 & E & B1 & B2 & B3 & B4 & B5 & B6). rewrite B6 in Hi.
    apply elem_of_app in Hi as [Hi|Hi].
    + destruct (O7 c sc0 i E Hi) as (u & tu & Tu & Eu & Su & Cu). exists u, tu. split_and!; try done.
      apply HF; [done|]. intros ->. congruence.
    + destruct (decide (c = me)) as [->|]; [|by apply elem_of_nil in Hi]. apply list_elem_of_singleton in Hi as ->.
      exists t, (set_status TaskInvalid tk). simpl. rewrite lookup_alter_eq, Ht. done.
  - intros c sc' Hc. destruct (HS c sc' Hc) as (sc0 & E & B1 & B2 & B3 & B4 & B5 & B6). rewrite B6. destruct (decide (c = me)) as [->|].
    + rewrite Hsc in E. injection E as <-. apply NoDup_app. split_and!; [by apply (O8 me)| |apply NoDup_singleton].
      intros i Hi ->%list_elem_of_singleton. by apply (Hnew (id tk)).
    + rewrite app_nil_r. by apply (O8 c).
  - intros c sc' Hc. destruct (HS c sc' Hc) as (sc0 & E & B1 & B2 & B3 & B4 & _). rewrite B4. by apply (O9 c).
  - done.
  - intros i u [tu E]%O11. destruct (decide (u = t)) as [->|Hn]; [|exists tu; by apply HF].
    simpl. rewrite lookup_alter_eq, Ht. by eexists.
Qed.

End switching.
