(* ===== verification/Dispatch.v ===== *)
(** * What the scheduler chooses, and that no task is lost

    The choice of the next task, the switch to it, and the invariant of the
    scheduler over all of its operations. *)

From stdpp Require Import base numbers list gmap.
From Stdlib Require Import ZArith Lia.
From S2P Require Import Prelude Links Mm Collections TaskQueue Tasks Scheduler Ready Waiting Scheduling.

#[local] Open Scope Z_scope.

Section dispatch.

Context (me : Z).
Implicit Types (s : Sched) (bl : Loc -> list BlockedTask) (rq : Z -> nat -> list nat) (sc : PerCoreScheduler).

(** ** Giving the core to a task *)

Definition set_running (tk : Task) : Task :=
  if bool_decide (status tk <> TaskIdle) then set_status TaskRunning tk else tk.

Definition dispatch (t : nat) (now : Z) s : Sched :=
  with_SCHEDULERS (alter (sc_with_current t now) me) (with_tasks (alter set_running t) s).

Lemma set_running_facts tk : status tk = TaskReady \/ status tk = TaskIdle ->
  id (set_running tk) = id tk /\ core_id (set_running tk) = core_id tk /\ prio (set_running tk) = prio tk
  /\ wakeup (set_running tk) = wakeup tk /\ view (set_running tk) = view tk
  /\ status (set_running tk) = (if decide (status tk = TaskIdle) then TaskIdle else TaskRunning).
Proof.
  unfold set_running. intros [H|H]; rewrite H; split_and!; try done.
Qed.

Lemma evolves_dispatch t tk now s : tasks s !! t = Some tk -> status tk = TaskReady \/ status tk = TaskIdle ->
  evolves [] s (dispatch t now s).
Proof.
  intros Ht Hst. apply (evolves_write [] s t set_running). intros tu E _. rewrite Ht in E. injection E as <-.
  unfold set_running, alive. destruct Hst as [S|S]; rewrite S; (split; [done|]); [|by intros [|]].
  intros _. split; [by right|done].
Qed.

Lemma alter_same `{Countable K} {A} (f : A -> A) (m : gmap K A) k x : m !! k = Some x -> f x = x -> alter f k m = m.
Proof.
  intros Hk Hf. apply map_eq. intros j. destruct (decide (j = k)) as [->|Hn]; [|by rewrite lookup_alter_ne].
  rewrite lookup_alter_eq, Hk. simpl. by rewrite Hf.
Qed.

Lemma with_tasks_same f s : f (tasks s) = tasks s -> with_tasks f s = s.
Proof. destruct s. unfold with_tasks. simpl. by intros ->. Qed.
Lemma with_SCHEDULERS_same f s : f (SCHEDULERS s) = SCHEDULERS s -> with_SCHEDULERS f s = s.
Proof. destruct s. unfold with_SCHEDULERS. simpl. by intros ->. Qed.

Lemma other_dispatch s bl sc t tk now :
  other_ok (Some me) s bl -> SCHEDULERS s !! me = Some sc -> tasks s !! t = Some tk -> core_id tk = me ->
  status tk = TaskReady \/ status tk = TaskIdle ->
  (forall u tu, tasks s !! u = Some tu -> status tu = TaskRunning -> core_id tu <> me) ->
  0 <= now /\ now + TASK_TIME_SLICE < W64 ->
  other_ok None (dispatch t now s) bl.
Proof.
  intros [O1 O2 O3 O4 O5 O6 O7 O8 O9 O10 O11] Hsc Ht Hco Hst Hrun Hnow.
  destruct (set_running_facts tk Hst) as (F1 & F2 & F3 & F4 & F5 & F6).
  assert (forall u tu', alter set_running t (tasks s) !! u = Some tu' -> exists tu, tasks s !! u = Some tu
    /\ id tu' = id tu /\ core_id tu' = core_id tu
    /\ status tu' = (if decide (u = t /\ status tu <> TaskIdle) then TaskRunning else status tu)) as HB.
  { intros u tu'. destruct (decide (u = t)) as [->|Hn].
    - rewrite lookup_alter_eq, Ht. intros [= <-]. exists tk. split_and!; [done..|]. rewrite F6.
      destruct (decide (status tk = TaskIdle)); [rewrite decide_False by naive_solver; congruence|by rewrite decide_True].
    - rewrite lookup_alter_ne by done. intros E. exists tu'. rewrite decide_False by naive_solver. done. }
  assert (forall u tu, tasks s !! u = Some tu -> exists tu', alter set_running t (tasks s) !! u = Some tu'
    /\ id tu' = id tu /\ core_id tu' = core_id tu
    /\ status tu' = (if decide (u = t /\ status tu <> TaskIdle) then TaskRunning else status tu)) as HF.
  { intros u tu E. destruct (alter set_running t (tasks s) !! u) as [tu'|] eqn:E'.
    - exists tu'. split; [done|]. destruct (HB u tu' E') as (tu0 & E0 & H). rewrite E in E0. by injection E0 as <-.
    - apply lookup_alter_None in E'. congruence. }
  assert (forall c sc', SCHEDULERS (dispatch t now s) !! c = Some sc' -> exists sc0, SCHEDULERS s !! c = Some sc0
    /\ sc_core_id sc' = sc_core_id sc0 /\ idle_task sc' = idle_task sc0
    /\ finished_tasks sc' = finished_tasks sc0 /\ blocked_tasks sc' = blocked_tasks sc0
    /\ current_task sc' = (if decide (c = me) then t else current_task sc0)
    /\ last_task_switch_tick sc' = (if decide (c = me) then now else last_task_switch_tick sc0)) as HS.
  { intros c sc'. cbn [SCHEDULERS dispatch with_SCHEDULERS with_tasks]. intros [(<- & sc0 & E & ->)|(Hn & E)]%lookup_alter_Some.
    - exists sc0. rewrite !decide_True by done. done.
    - exists sc'. rewrite !decide_False by done. done. }
  assert (forall u tu, tasks s !! u = Some tu -> (u = t /\ status tu <> TaskIdle) -> status tu = TaskReady) as Hready.
  { intros u tu E [-> Hn]. rewrite Ht in E. injection E as <-. by destruct Hst. }
  split.
  - apply (wait_same s); [done| |].
    + intros [c|u]; simpl.
      * destruct (decide (c = me)) as [->|]; [rewrite lookup_alter_eq, Hsc|rewrite lookup_alter_ne by done]; done.
      * destruct (decide (u = t)) as [->|]; [rewrite lookup_alter_eq, Ht; simpl; by rewrite F4|by rewrite lookup_alter_ne].
    + intros u. unfold blocked_in. split; intros (tu & E & S).
      * destruct (HB u tu E) as (tu0 & E0 & _ & _ & S0). exists tu0. split; [done|]. by case_decide; congruence.
      * destruct (HF u tu E) as (tu' & E' & _ & _ & S'). exists tu'. split; [done|]. case_decide as Hd; [|congruence].
        pose proof (Hready u tu E Hd). congruence.
  - intros u tu' E S. destruct (HB u tu' E) as (tu & E0 & G1 & G2 & G3). rewrite G1. apply O2; [done|].
    case_decide as Hd; [pose proof (Hready u tu E0 Hd)|]; congruence.
  - intros c sc' Hc. destruct (HS c sc' Hc) as (sc0 & E & B1 & B2 & _). destruct (O3 c sc0 E) as (C1 & ti & Ei & C2 & C3).
    split; [congruence|]. rewrite B2. destruct (HF _ ti Ei) as (ti' & Ei' & G1 & G2 & G3). exists ti'.
    split_and!; [done|congruence|]. rewrite G3, decide_False; [done|naive_solver].
  - intros u tu' sc' E S Hc. destruct (HB u tu' E) as (tu & E0 & G1 & G2 & G3). destruct (HS _ sc' Hc) as (sc0 & E1 & B1 & B2 & _).
    rewrite B2. apply (O4 u tu); [done| |congruence]. case_decide; congruence.
  - intros c sc' Hc. destruct (HS c sc' Hc) as (sc0 & E & _ & _ & _ & _ & B5 & _). rewrite B5.
    destruct (decide (c = me)) as [->|Hn].
    + destruct (HF t tk Ht) as (tk' & E' & G1 & G2 & G3). exists tk'. split_and!; [done|congruence|]. intros _.
      rewrite G3. case_decide; [done|]. destruct Hst; congruence.
    + destruct (O5 c sc0 E) as (ti & Ei & C2 & C3). destruct (HF _ ti Ei) as (ti' & Ei' & G1 & G2 & G3). exists ti'.
      split_and!; [done|congruence|]. intros _. rewrite G3. case_decide; [done|]. apply C3. congruence.
  - intros u tu' sc' E S Hc. destruct (HB u tu' E) as (tu & E0 & G1 & G2 & G3).
    destruct (HS _ sc' Hc) as (sc0 & E1 & _ & _ & _ & _ & B5 & _). rewrite B5. rewrite G2 in *.
    destruct (decide (u = t)) as [->|Hn].
    + rewrite Ht in E0. injection E0 as <-. by rewrite decide_True.
    + rewrite decide_False in G3 by naive_solver. assert (status tu = TaskRunning) as S0 by congruence.
      rewrite decide_False by (by apply (Hrun u)). by apply (O6 u tu).
  - intros c sc' i Hc Hi. destruct (HS c sc' Hc) as (sc0 & E & _ & _ & B3 & _). rewrite B3 in Hi.
    destruct (O7 c sc0 i E Hi) as (u & tu & Tu & Eu & Su & Cu). destruct (HF u tu Eu) as (tu' & E' & G1 & G2 & G3).
    exists u, tu'. split_and!; [done|done| |congruence]. rewrite G3. case_decide as Hd; [|done].
    pose proof (Hready u tu Eu Hd). congruence.
  - intros c sc' Hc. destruct (HS c sc' Hc) as (sc0 & E & _ & _ & B3 & _). rewrite B3. by apply (O8 c).
  - intros c sc' Hc. destruct (HS c sc' Hc) as (sc0 & E & _ & _ & _ & _ & _ & B6). rewrite B6. case_decide; [done|by apply (O9 c)].
  - done.
  - intros i u [tu E]%O11. destruct (HF u tu E) as (tu' & E' & _). by eexists.
Qed.

(** The chosen task [t], in transit from its queue or idle, gets the core. *)
Lemma inv_dispatch s rq bl sc t tk X now :
  ready_ok X s rq -> other_ok (Some me) s bl -> SCHEDULERS s !! me = Some sc ->
  tasks s !! t = Some tk -> core_id tk = me ->
  (status tk = TaskReady /\ X = [t]) \/ (status tk = TaskIdle /\ X = []) ->
  (forall u tu, tasks s !! u = Some tu -> status tu = TaskRunning -> core_id tu <> me) ->
  0 <= now /\ now + TASK_TIME_SLICE < W64 ->
  sched_inv (dispatch t now s) rq bl.
Proof.
  intros HR HO Hsc Ht Hco HX Hrun Hnow.
  assert (status tk = TaskReady \/ status tk = TaskIdle) as Hst by (destruct HX as [[? _]|[? _]]; [by left|by right]).
  destruct (set_running_facts tk Hst) as (F1 & F2 & F3 & F4 & F5 & F6). split; [|by apply (other_dispatch s bl sc t tk)].
  apply (ready_frame [] (with_tasks (alter set_running t) s)); [|done|].
  - apply (ready_write X [] s rq t tk); [done..| |].
    + rewrite F6. destruct HX as [[S ->]|[S ->]]; rewrite S; simpl.
      * split; [by intros [? _]|]. intros [_ Hx]. exfalso. apply Hx. left.
      * done.
    + intros u Hu. destruct HX as [[_ ->]|[_ ->]]; set_solver.
  - intros c. simpl. destruct (decide (c = me)) as [->|]; [rewrite lookup_alter_eq, Hsc|rewrite lookup_alter_ne by done]; done.
Qed.

Lemma switch_to_spec s rq bl sc t tk ck X :
  ready_ok X s rq -> other_ok (Some me) s bl -> SCHEDULERS s !! me = Some sc ->
  tasks s !! t = Some tk -> core_id tk = me ->
  (status tk = TaskReady /\ X = [t]) \/ (status tk = TaskIdle /\ X = []) ->
  tasks s !! current_task sc = Some ck -> TASKS s !! id ck = Some (current_task sc) -> status ck <> TaskRunning ->
  exists n, switch_to me (current_task sc) t (id ck) s
      = Done (if decide (t = current_task sc) then None else Some (mkSwitching (current_task sc) t (last_stack_pointer tk)),
              with_reads n (dispatch t (if decide (t = current_task sc) then last_task_switch_tick sc else clock s (reads s)) s))
    /\ sched_inv (with_reads n (dispatch t (if decide (t = current_task sc) then last_task_switch_tick sc else clock s (reads s)) s)) rq bl.
Proof.
  intros HR HO Hsc Ht Hco HX Hcur Hid Hnr.
  assert (forall u tu, tasks s !! u = Some tu -> status tu = TaskRunning -> core_id tu <> me) as Hrun.
  { intros u tu E S Hc. pose proof (oo_running _ _ _ HO u tu sc E S) as Hu. rewrite Hc in Hu. specialize (Hu Hsc).
    rewrite Hu in Hcur. congruence. }
  assert (TASKS s !! id tk = Some t) as Hidt by (apply HO; [done|destruct HX as [[S _]|[S _]]; congruence]).
  assert (forall n now, 0 <= now /\ now + TASK_TIME_SLICE < W64 -> sched_inv (with_reads n (dispatch t now s)) rq bl) as HI.
  { intros n now Hnow. apply inv_reads. by apply (inv_dispatch s rq bl sc t tk X). }
  unfold switch_to. rewrite (bind_done (borrow_task t) _ s tk s) by (unfold borrow_task; by rewrite Ht).
  rewrite (bind_done _ _ s tt (with_tasks (alter set_running t) s)); cycle 1.
  { unfold set_running. destruct (bool_decide (status tk <> TaskIdle)) eqn:Ei; unfold write_task, modify, ret; f_equal; f_equal.
    - unfold with_tasks. f_equal. apply map_eq. intros u. destruct (decide (u = t)) as [->|]; [|by rewrite !lookup_alter_ne].
      rewrite !lookup_alter_eq, Ht. simpl. by rewrite Ei.
    - symmetry. apply with_tasks_same. by apply (alter_same _ _ _ tk); [|rewrite Ei]. }
  destruct (decide (t = current_task sc)) as [Heq|Hne].
  - exists (reads s). split; [|by apply HI, HO with me]. rewrite bool_decide_eq_false_2; cycle 1.
    { intros Hx. apply Hx. rewrite <- Heq, Ht in Hcur. congruence. }
    unfold ret. do 2 f_equal. unfold dispatch. symmetry. etransitivity; [|apply with_SCHEDULERS_same].
    + by destruct s.
    + apply (alter_same _ _ _ sc); [done|]. rewrite Heq. by destruct sc.
  - exists (S (reads s)). split; [|by apply HI, HO]. rewrite bool_decide_eq_true_2; [done|].
    intros Heq. apply Hne. rewrite Heq, Hidt in Hid. congruence.
Qed.

(** ** The choice of the next task *)

(** Whether the time slice of the current task of [sc] has run out. *)
Definition expired s sc : bool := last_task_switch_tick sc + TASK_TIME_SLICE <? clock s (reads s).

(** The task that runs next, if there is a switch: the longest waiting one of
    the highest priority that is in use, where a running task only gives way
    to a higher priority or, at the end of its time slice, to its own; with no
    ready task the current one goes on, or else the idle task starts. *)
Definition chosen s rq sc (cur : Task) : option nat :=
  match highest NO_PRIORITIES (rq me) with
  | Some i =>
      if bool_decide (status cur = TaskRunning)
         && negb ((prio cur <? Z.of_nat i) || ((prio cur =? Z.of_nat i) && expired s sc))
      then None else hd_error (rq me i)
  | None =>
      match status cur with
      | TaskRunning | TaskIdle => None
      | _ => Some (idle_task sc)
      end
  end.

(** The queues after the choice. *)
Definition rest_after s rq sc (cur : Task) : Z -> nat -> list nat :=
  match highest NO_PRIORITIES (rq me), chosen s rq sc cur with
  | Some i, Some _ => updq me i (List.tl (rq me i)) rq
  | _, _ => rq
  end.

(** Taking the first task of the list of priority [i]. *)
Lemma take_ready s rq sc i :
  ready_ok [] s rq -> SCHEDULERS s !! me = Some sc -> highest NO_PRIORITIES (rq me) = Some i ->
  exists t q', hd_error (rq me i) = Some t
    /\ pq_pop_from_queue i (tasks s, ready_queue (state sc)) = Done (Some t, q')
    /\ on_ready me (pq_pop_from_queue i) s = Done (Some t, after_queue me sc q' s)
    /\ same_tasks (tasks s) (tasks (after_queue me sc q' s)) /\ erase (after_queue me sc q' s) = erase s
    /\ evolves [] s (after_queue me sc q' s)
    /\ ready_ok [t] (after_queue me sc q' s) (updq me i (List.tl (rq me i)) rq).
Proof.
  intros HR Hsc Hh. pose proof (highest_spec NO_PRIORITIES (rq me)) as Hs. rewrite Hh in Hs. destruct Hs as (_ & Hne & _). destruct (rq me i) as [|t l] eqn:El; [done|].
  destruct (ready_popped [] s rq me sc t i l HR Hsc El) as (Hs & HR' & E & Hev).
  eexists t, _. split_and!; [done|exact E|by apply on_ready_done|done|by apply erase_after_queue|exact Hev|exact HR'].
Qed.

Lemma on_ready_same {A} (m : M TQ A) s sc (a : A) :
  SCHEDULERS s !! me = Some sc -> m (tasks s, ready_queue (state sc)) = Done (a, (tasks s, ready_queue (state sc))) ->
  on_ready me m s = Done (a, s).
Proof.
  intros Hsc E. rewrite (on_ready_done _ _ _ _ _ _ Hsc E). do 2 f_equal.
  etransitivity; [|apply (with_tasks_same (fun _ => tasks s)); done].
  apply with_SCHEDULERS_same. simpl. apply insert_id. rewrite Hsc. f_equal. destruct sc as [? ? ? ? st ? ? ?]. by destruct st.
Qed.

Lemma on_ready_eq {A} (m m' : M TQ A) s sc :
  SCHEDULERS s !! me = Some sc -> m (tasks s, ready_queue (state sc)) = m' (tasks s, ready_queue (state sc)) ->
  on_ready me m s = on_ready me m' s.
Proof. intros Hsc E. unfold on_ready. by rewrite Hsc, E. Qed.

(** Asking for a task of at least priority [p]. *)
Lemma on_pop_with_prio s rq sc p :
  ready_ok [] s rq -> SCHEDULERS s !! me = Some sc ->
  on_ready me (pq_pop_with_prio p) s = match highest NO_PRIORITIES (rq me) with
    | Some i => if p <=? Z.of_nat i then on_ready me (pq_pop_from_queue i) s else Done (None, s)
    | None => Done (None, s)
    end.
Proof.
  intros HR Hsc. pose proof (pop_with_prio_run _ _ p (ro_repr _ _ _ HR me sc Hsc)) as E.
  destruct (highest NO_PRIORITIES (rq me)) as [i|].
  - destruct (p <=? Z.of_nat i); [by apply (on_ready_eq _ _ s sc)|by apply (on_ready_same _ s sc)].
  - by apply (on_ready_same _ s sc).
Qed.

Lemma on_pop s rq sc :
  ready_ok [] s rq -> SCHEDULERS s !! me = Some sc ->
  on_ready me pq_pop s = match highest NO_PRIORITIES (rq me) with
    | Some i => on_ready me (pq_pop_from_queue i) s
    | None => Done (None, s)
    end.
Proof.
  intros HR Hsc. pose proof (pop_run _ _ (ro_repr _ _ _ HR me sc Hsc)) as E.
  destruct (highest NO_PRIORITIES (rq me)) as [i|]; [by apply (on_ready_eq _ _ s sc)|by apply (on_ready_same _ s sc)].
Qed.

Lemma bind_core_scheduler {B} (k : PerCoreScheduler -> M Sched B) s sc :
  SCHEDULERS s !! me = Some sc -> bind (core_scheduler me) k s = k sc s.
Proof. intros Hsc. unfold core_scheduler, get_scheduler, bind. by rewrite Hsc. Qed.

(** A running task: first a higher priority, then the end of the slice. *)
Lemma select_running s rq sc p :
  ready_ok [] s rq -> SCHEDULERS s !! me = Some sc -> 0 <= p < Z.of_nat NO_PRIORITIES ->
  0 <= last_task_switch_tick sc /\ last_task_switch_tick sc + TASK_TIME_SLICE < W64 ->
  exists n, select_task me p TaskRunning s = match highest NO_PRIORITIES (rq me) with
    | Some i =>
        if (p <? Z.of_nat i) || ((p =? Z.of_nat i) && expired s sc)
        then on_ready me (pq_pop_from_queue i) (with_reads n s) else Done (None, with_reads n s)
    | None => Done (None, with_reads n s)
    end.
Proof.
  intros HR Hsc Hp Htick. unfold select_task. rewrite bool_decide_eq_true_2 by done.
  assert (add8 p 1 = Done (p + 1)) as E8.
  { unfold add8. rewrite (proj2 (Z.ltb_lt _ _)); [done|]. unfold NO_PRIORITIES in Hp. lia. }
  rewrite (bind_lift_done _ _ _ _ E8). unfold bind at 1. rewrite (on_pop_with_prio s rq sc) by done.
  set (s1 := with_reads (S (reads s)) s). assert (ready_ok [] s1 rq) as HR1 by (by apply (ready_frame [] s)).
  assert (forall X, obind (Done (X, s) : outcome (option nat * Sched)) (fun r => match r.1 with Some task => ret (Some task) | None =>
      let! now := get_timer_ticks in let! c := core_scheduler me in
      let! slice_end := lift (add64 (last_task_switch_tick c) TASK_TIME_SLICE) in
      if slice_end <? now then on_ready me (pq_pop_with_prio p) else ret None end r.2)
    = match X with Some task => Done (Some task, s)
      | None => if expired s sc then on_ready me (pq_pop_with_prio p) s1 else Done (None, s1) end) as Hnext.
  { intros [x|]; [done|]. cbn [obind fst snd].
    rewrite (bind_done get_timer_ticks _ s (clock s (reads s)) s1) by done. rewrite (bind_core_scheduler _ _ sc) by done.
    rewrite (bind_lift_done _ _ (last_task_switch_tick sc + TASK_TIME_SLICE)) by (apply add64_done; unfold TASK_TIME_SLICE in *; lia).
    unfold expired. by destruct (_ <? _). }
  destruct (highest NO_PRIORITIES (rq me)) as [i|] eqn:Hh.
  - destruct (Z.leb_spec (p + 1) (Z.of_nat i)) as [Hle|Hgt].
    + exists (reads s). rewrite (proj2 (Z.ltb_lt p (Z.of_nat i))) by lia. simpl. assert (with_reads (reads s) s = s) as -> by (by destruct s).
      destruct (take_ready s rq sc i HR Hsc Hh) as (t & q' & _ & _ & E & _). by rewrite E.
    + exists (S (reads s)). rewrite (proj2 (Z.ltb_ge p (Z.of_nat i))) by lia. rewrite orb_false_l, Hnext. fold s1.
      rewrite (on_pop_with_prio s1 rq sc) by done. rewrite Hh.
      destruct (expired s sc); rewrite ?andb_true_r, ?andb_false_r; [|done].
      destruct (Z.leb_spec p (Z.of_nat i)), (Z.eqb_spec p (Z.of_nat i)); try done; lia.
  - exists (S (reads s)). rewrite Hnext, (on_pop_with_prio s1 rq sc) by done. rewrite Hh. by destruct (expired s sc).
Qed.

Lemma select_spec s rq sc ck :
  ready_ok [] s rq -> SCHEDULERS s !! me = Some sc -> 0 <= prio ck < Z.of_nat NO_PRIORITIES ->
  0 <= last_task_switch_tick sc /\ last_task_switch_tick sc + TASK_TIME_SLICE < W64 ->
  exists s', select_task me (prio ck) (status ck) s = Done (chosen s rq sc ck, s')
    /\ same_tasks (tasks s) (tasks s') /\ erase s' = erase s /\ evolves [] s s'
    /\ ready_ok (match highest NO_PRIORITIES (rq me), chosen s rq sc ck with Some _, Some t => [t] | _, _ => [] end)
         s' (rest_after s rq sc ck).
Proof.
  intros HR Hsc Hp Htick. unfold rest_after.
  assert (forall i n, highest NO_PRIORITIES (rq me) = Some i -> exists t s', hd_error (rq me i) = Some t
    /\ on_ready me (pq_pop_from_queue i) (with_reads n s) = Done (Some t, s') /\ same_tasks (tasks s) (tasks s') /\ erase s' = erase s /\ evolves [] s s'
    /\ ready_ok [t] s' (updq me i (List.tl (rq me i)) rq)) as Htake.
  { intros i n Hh. assert (ready_ok [] (with_reads n s) rq) as HR1 by (by apply (ready_frame [] s)).
    destruct (take_ready (with_reads n s) rq sc i HR1 Hsc Hh) as (t & q' & Et & _ & E & Hs & He & Hev & HR'). by exists t, (after_queue me sc q' (with_reads n s)). }
  assert (forall n, same_tasks (tasks s) (tasks (with_reads n s)) /\ erase (with_reads n s) = erase s /\ evolves [] s (with_reads n s)
    /\ ready_ok [] (with_reads n s) rq) as Hsame.
  { intros n. split_and!; [done|done|by apply evolves_same|by apply (ready_frame [] s)]. }
  destruct (decide (status ck = TaskRunning)) as [Hr|Hr].
  - unfold chosen. rewrite Hr. rewrite bool_decide_eq_true_2 by done.
    destruct (select_running s rq sc (prio ck) HR Hsc Hp Htick) as (n & E). rewrite E.
    destruct (highest NO_PRIORITIES (rq me)) as [i|] eqn:Hh; [|by exists (with_reads n s)].
    destruct ((prio ck <? Z.of_nat i) || ((prio ck =? Z.of_nat i) && expired s sc)); [|by exists (with_reads n s)].
    destruct (Htake i n eq_refl) as (t & s' & Et & E' & H'). simpl. rewrite Et. by exists s'.
  - unfold select_task, chosen. rewrite bool_decide_eq_false_2 by done. unfold bind at 1. rewrite (on_pop s rq sc) by done.
    destruct (highest NO_PRIORITIES (rq me)) as [i|] eqn:Hh.
    + destruct (Htake i (reads s) eq_refl) as (t & s' & Et & E' & H'). assert (with_reads (reads s) s = s) as Eq by (by destruct s).
      rewrite Eq in E'. rewrite E'. simpl. rewrite Et. by exists s'.
    + cbn [obind fst snd]. destruct (Hsame (reads s)) as (H1 & H2 & H3 & H4). assert (with_reads (reads s) s = s) as Eq by (by destruct s).
      rewrite Eq in *. exists s. split; [|by destruct (status ck)].
      destruct (decide (status ck = TaskIdle)) as [Hi|Hi].
      * rewrite bool_decide_eq_true_2 by done. by rewrite Hi.
      * rewrite bool_decide_eq_false_2 by done. rewrite (bind_core_scheduler _ _ sc) by done. by destruct (status ck).
Qed.

(** ** One run of the scheduler *)

(** The queues when the task [cur] has given way: a running task waits again
    behind the others of its priority. *)
Definition requeued (cur : nat) (ck : Task) rq : Z -> nat -> list nat :=
  if decide (status ck = TaskRunning)
  then updq me (Z.to_nat (prio ck)) (rq me (Z.to_nat (prio ck)) ++ [cur]) rq else rq.

(** The finished tasks of a core when its task [ck] has given way: a task that
    has ended joins them, to be released later. *)
Definition ended_with (ck : Task) sc : list TaskId :=
  if decide (status ck = TaskFinished) then finished_tasks sc ++ [id ck] else finished_tasks sc.

Lemma handle_current_spec s rq bl sc ck X :
  ready_ok X s rq -> other_ok None s bl -> SCHEDULERS s !! me = Some sc -> tasks s !! current_task sc = Some ck ->
  (status ck = TaskRunning -> current_task sc ∉ X) ->
  exists s' sc' ck', handle_current me (current_task sc) (id ck) (status ck) s = Done (tt, s')
    /\ ready_ok X s' (requeued (current_task sc) ck rq) /\ other_ok (Some me) s' bl
    /\ TASKS s' = TASKS s /\ clock s' = clock s
    /\ (SCHEDULERS s' !! me = Some sc' /\ current_task sc' = current_task sc /\ last_task_switch_tick sc' = last_task_switch_tick sc)
    /\ (tasks s' !! current_task sc = Some ck' /\ id ck' = id ck /\ status ck' <> TaskRunning)
    /\ (forall u tu, tasks s !! u = Some tu -> status tu <> TaskRunning -> status tu <> TaskFinished ->
          exists tu', tasks s' !! u = Some tu' /\ TaskQueue.unlink tu' = TaskQueue.unlink tu)
    /\ evolves [] s s' /\ finished_tasks sc' = ended_with ck sc /\ (status ck = TaskFinished -> status ck' = TaskInvalid).
Proof.
  intros HR HO Hsc Hcur HX. unfold ended_with. set (cur := current_task sc) in *. unfold handle_current, requeued.
  assert (core_id ck = me) as Hco.
  { destruct (oo_current _ _ _ HO me sc Hsc) as (k & E & C & _). fold cur in E. congruence. }
  assert (forall f u tu, tasks s !! u = Some tu -> status tu <> status ck -> alter f cur (tasks s) !! u = Some tu) as Hother.
  { intros f u tu E S. rewrite lookup_alter_ne; [done|]. intros <-. congruence. }
  destruct (decide (status ck = TaskRunning)) as [Hst|Hnr].
  - rewrite Hst, bool_decide_eq_true_2 by done. destruct (ro_legal _ _ _ HR cur ck Hcur) as [Hp _].
    set (s1 := with_tasks (alter (set_status TaskReady) cur) s).
    assert (tasks s1 !! cur = Some (set_status TaskReady ck)) as Hcur1 by (simpl; by rewrite lookup_alter_eq, Hcur).
    assert (ready_ok (cur :: X) s1 rq) as HR1.
    { apply (ready_write X _ s rq cur ck); try done; [|intros u Hu; set_solver]. rewrite Hst. simpl.
      split; [intros [_ Hx]; exfalso; apply Hx; left|by intros [? _]]. }
    assert (other_ok None s1 bl) as HO1 by (by apply (other_preempted s bl cur ck)).
    destruct (ready_push X s1 rq me sc cur (set_status TaskReady ck) (Z.to_nat (prio ck)) HR1) as (q' & E & Hs & HR2 & Hev);
      [by apply HX|done|done|done|done|simpl; lia|].
    destruct (same_tasks_lookup _ _ _ _ Hs Hcur1) as (ck' & Ek & Uk).
    exists (after_queue me sc q' s1), (sc_with_state (set_ready q'.2) sc), ck'. split_and!; try done; try (by rewrite Hst).
    + apply other_weaken. apply (other_frame None s1); [done|by apply erase_after_queue|done].
    + simpl. apply lookup_insert_eq.
    + by apply (f_equal id) in Uk.
    + apply (f_equal status) in Uk. simpl in Uk. by rewrite Uk.
    + intros u tu E' S1 S2. apply (same_tasks_lookup (tasks s1)); [done|]. apply Hother; [done|congruence].
    + apply (evolves_trans _ _ s1); [|done]. apply evolves_write. intros tu E' _. rewrite Hcur in E'. injection E' as <-.
      rewrite Hst. split; [done|]. intros _. split; [by left|done].
  - rewrite bool_decide_eq_false_2 by done. destruct (decide (status ck = TaskFinished)) as [Hst|Hnf].
    + rewrite Hst, bool_decide_eq_true_2 by done.
      exists (end_task me cur (id ck) s), (sc_with_finished (finished_tasks sc ++ [id ck]) sc), (set_status TaskInvalid ck).
      split_and!; try done.
      * apply (ready_frame X (with_tasks (alter (set_status TaskInvalid) cur) s)); [|done|].
        -- apply (ready_write X X s rq cur ck); try done. rewrite Hst. split; by intros [? _].
        -- intros c. simpl. destruct (decide (c = me)) as [->|]; [rewrite lookup_alter_eq, Hsc|rewrite lookup_alter_ne by done]; done.
      * by apply other_ended.
      * simpl. by rewrite lookup_alter_eq, Hsc.
      * simpl. by rewrite lookup_alter_eq, Hcur.
      * intros u tu E' S1 S2. exists tu. split; [|done]. apply Hother; [done|congruence].
      * apply (evolves_write [] s cur (set_status TaskInvalid)). intros tu E' _. rewrite Hcur in E'. injection E' as <-.
        unfold alive. rewrite Hst. split; [done|]. by intros [|].
    + rewrite bool_decide_eq_false_2 by done. exists s, sc, ck. split_and!; try done; [by apply other_weaken| |by apply evolves_same].
      intros u tu E' _ _. by exists tu.
Qed.

Lemma halted_frame b s rq bl ex X :
  ready_ok X s rq -> other_ok ex s bl ->
  ready_ok X (with_SCHEDULERS (alter (sc_with_state (set_halted b)) me) s) rq
  /\ other_ok ex (with_SCHEDULERS (alter (sc_with_state (set_halted b)) me) s) bl.
Proof.
  intros HR HO. split.
  - apply (ready_frame X s); [done|done|]. intros c. simpl.
    destruct (decide (c = me)) as [->|]; [rewrite lookup_alter_eq; by destruct (SCHEDULERS s !! me)|by rewrite lookup_alter_ne].
  - apply (other_frame ex s); [done| |done]. unfold erase, with_reads, with_wakeups, with_SCHEDULERS, with_tasks. simpl. f_equal.
    apply map_eq. intros c. rewrite !lookup_fmap.
    destruct (decide (c = me)) as [->|]; [rewrite lookup_alter_eq; by destruct (SCHEDULERS s !! me)|by rewrite lookup_alter_ne].
Qed.

(** The queues after a run of the scheduler. *)
Definition next_queues s rq sc (ck : Task) : Z -> nat -> list nat :=
  match chosen s rq sc ck with
  | Some _ => requeued (current_task sc) ck (rest_after s rq sc ck)
  | None => rest_after s rq sc ck
  end.

Lemma chosen_task s rq sc bl ck t :
  ready_ok [] s rq -> other_ok None s bl -> SCHEDULERS s !! me = Some sc -> chosen s rq sc ck = Some t ->
  exists tk, tasks s !! t = Some tk /\ core_id tk = me
    /\ match highest NO_PRIORITIES (rq me) with
       | Some _ => status tk = TaskReady
       | None => status tk = TaskIdle /\ status ck <> TaskRunning
       end.
Proof.
  intros HR HO Hsc. unfold chosen. destruct (highest NO_PRIORITIES (rq me)) as [i|].
  - destruct (_ && _); [done|]. intros Hh. assert (t ∈ rq me i) as Hin.
    { destruct (rq me i); [done|]. injection Hh as ->. left. }
    apply (ro_mem _ _ _ HR me i t) in Hin as (tk & E & S & C & _); [|by eexists]. by exists tk.
  - intros Hch. destruct (oo_idle_task _ _ _ HO me sc Hsc) as (_ & tk & E & C & S). exists tk.
    destruct (status ck); try done; injection Hch as <-; done.
Qed.

Lemma schedule_spec s rq bl sc ck :
  sched_inv s rq bl -> SCHEDULERS s !! me = Some sc -> tasks s !! current_task sc = Some ck ->
  exists s', schedule me s = Done (match chosen s rq sc ck with
      | Some t => if decide (t = current_task sc) then None
                  else Some (mkSwitching (current_task sc) t (default 0 (last_stack_pointer <$> tasks s !! t)))
      | None => None
      end, s')
    /\ sched_inv s' (next_queues s rq sc ck) bl
    /\ current_task <$> SCHEDULERS s' !! me = Some (default (current_task sc) (chosen s rq sc ck))
    /\ exists tk tk', tasks s !! default (current_task sc) (chosen s rq sc ck) = Some tk
         /\ tasks s' !! default (current_task sc) (chosen s rq sc ck) = Some tk'
         /\ prio tk' = prio tk /\ status tk' = (if decide (status tk = TaskIdle) then TaskIdle else TaskRunning)
         /\ evolves [] s s'
         /\ finished_tasks <$> SCHEDULERS s' !! me = Some (ended_with ck sc)
         /\ (status ck = TaskFinished -> status <$> tasks s' !! current_task sc = Some TaskInvalid).
Proof.
  intros [HR HO] Hsc Hcur. unfold schedule, next_queues. rewrite (bind_core_scheduler _ _ sc) by done. cbv zeta.
  rewrite (bind_done (borrow_task _) _ s ck s) by (unfold borrow_task; by rewrite Hcur).
  set (s0 := with_SCHEDULERS (alter (sc_with_state (set_halted false)) me) s).
  rewrite (bind_done (write_scheduler _ _) _ s tt s0) by done.
  destruct (halted_frame false s rq bl None [] HR HO) as [HR0 HO0]. fold s0 in HR0, HO0.
  set (sc0 := sc_with_state (set_halted false) sc).
  assert (SCHEDULERS s0 !! me = Some sc0) as Hsc0 by (simpl; by rewrite lookup_alter_eq, Hsc).
  destruct (ro_legal _ _ _ HR _ ck Hcur) as [Hp _].
  destruct (select_spec s0 rq sc0 ck HR0 Hsc0 Hp (oo_ticks _ _ _ HO me sc Hsc)) as (s1 & E & Hs & He & Hev & HR1).
  change (evolves [] s s1) in Hev.
  change (chosen s0 rq sc0 ck) with (chosen s rq sc ck) in *. change (rest_after s0 rq sc0 ck) with (rest_after s rq sc ck) in *.
  rewrite (bind_done _ _ _ _ _ E). assert (other_ok None s1 bl) as HO1 by (by apply (other_frame None s0)).
  assert (exists sc1, SCHEDULERS s1 !! me = Some sc1 /\ blank sc1 = blank sc0) as (sc1 & Hsc1 & Bsc).
  { pose proof (erase_scheduler s0 s1 me He) as Hb. rewrite Hsc0 in Hb. destruct (SCHEDULERS s1 !! me) as [sc1|]; [|done].
    exists sc1. split; [done|]. by apply (inj Some). }
  pose proof (blank_fields _ _ Bsc) as (B1 & B2 & B3 & B4 & B5 & B6). simpl in B2, B6.
  destruct (chosen s rq sc ck) as [t|] eqn:Hch.
  - destruct (chosen_task s rq sc bl ck t HR HO Hsc Hch) as (tk & Ht & Hco & Hk).
    destruct (same_tasks_lookup _ _ _ _ Hs Hcur) as (ck1 & Hcur1 & (F1 & F2 & F3 & F4 & F5 & F6)%unlink_fields).
    destruct (same_tasks_lookup _ _ _ _ Hs Ht) as (tk1 & Ht1 & (G1 & G2 & G3 & G4 & G5 & G6)%unlink_fields).
    set (X := match highest NO_PRIORITIES (rq me) with Some _ => [t] | None => [] end) in HR1.
    rewrite <- B2 in Hcur1. rewrite <- B2, <- F1, <- F2.
    destruct (handle_current_spec s1 (rest_after s rq sc ck) bl sc1 ck1 X) as
      (s2 & sc2 & ck2 & E2 & HR2 & HO2 & HT2 & HC2 & (Hsc2 & D1 & D2) & (Hcur2 & D3 & D4) & Hoth & Hev2 & D5 & D6); [done..| |].
    { unfold X. rewrite F2. destruct (highest NO_PRIORITIES (rq me)); [|set_solver]. intros Hst Hin%list_elem_of_singleton.
      rewrite B2 in Hin. rewrite <- Hin in Ht. congruence. }
    rewrite (bind_done _ _ _ _ _ E2).
    assert (status tk1 = TaskReady \/ status tk1 = TaskIdle) as Hst by (rewrite G2; destruct (highest _ _); naive_solver).
    destruct (Hoth t tk1 Ht1) as (tk2 & Ht2 & (K1 & K2 & K3 & K4 & K5 & K6)%unlink_fields); [destruct Hst; congruence..|].
    rewrite <- D1 in Hcur2.
    destruct (switch_to_spec s2 (requeued (current_task sc1) ck1 (rest_after s rq sc ck)) bl sc2 t tk2 ck2 X) as (n & E3 & HI);
      [done..|congruence| |done| |done|].
    { unfold X. rewrite K2, G2. destruct (highest _ _); [by left|right; naive_solver]. }
    { rewrite HT2, D3, F1, D1, B2. assert (TASKS s1 = TASKS s) as -> by (by apply (f_equal TASKS) in He).
      apply HO; [done|]. destruct (oo_current _ _ _ HO me sc Hsc) as (k & Ek & _ & Sk). rewrite Hcur in Ek. injection Ek as <-. by apply Sk. }
    assert (forall rq', requeued (current_task sc1) ck1 rq' = requeued (current_task sc1) ck rq') as Eq
      by (intros; unfold requeued; by rewrite F2, F3). rewrite Eq in HI.
    rewrite D1, D3 in E3. rewrite D1 in HI. eexists. split; [|split; [exact HI|split]].
    + rewrite E3, Ht. simpl. rewrite K6, G6. reflexivity.
    + simpl. by rewrite lookup_alter_eq, Hsc2.
    + assert (status tk2 = TaskReady \/ status tk2 = TaskIdle) as Hst2 by (rewrite K2; done).
      destruct (set_running_facts tk2 Hst2) as (_ & _ & L3 & _ & _ & L6). exists tk, (set_running tk2).
      simpl. rewrite lookup_alter_eq, Ht2. split_and!; [done|done|congruence|by rewrite L6, K2, G2|..].
      { apply (evolves_trans _ _ s1), (evolves_trans _ _ s2); [done|done|]. by apply (evolves_dispatch t tk2). }
      { rewrite lookup_alter_eq, Hsc2. simpl. rewrite D5. unfold ended_with. by rewrite F1, F2, B4. }
      intros Hfin. rewrite lookup_alter_ne; [|intros ->; rewrite D1, Ht2 in Hcur2; specialize (D6 Hfin);
        injection Hcur2 as ->; destruct Hst2; congruence].
      rewrite <- D1, Hcur2. simpl. by rewrite D6.
  - replace (match highest NO_PRIORITIES (rq me) with Some _ => [] | None => [] end) with (@nil nat) in HR1
      by (by destruct (highest NO_PRIORITIES (rq me))).
    destruct (halted_frame true s1 _ bl None [] HR1 HO1) as [HR2 HO2].
    destruct (same_tasks_lookup _ _ _ _ Hs Hcur) as (ck1 & Hcur1 & (F1 & F2 & F3 & F4 & F5 & F6)%unlink_fields).
    destruct (decide (status ck = TaskIdle)) as [Hi|Hi].
    + rewrite bool_decide_eq_true_2 by done. eexists. split; [done|]. split; [by split|]. split.
      * simpl. rewrite lookup_alter_eq, Hsc1. simpl. by rewrite B2.
      * exists ck, ck1. split_and!; [done|done|done|by rewrite decide_True, F2|done| |congruence].
        simpl. rewrite lookup_alter_eq, Hsc1. unfold ended_with. rewrite decide_False by congruence. simpl. by rewrite B4.
    + rewrite bool_decide_eq_false_2 by done. exists s1. split; [done|]. split; [by split|]. split.
      * rewrite Hsc1. simpl. by rewrite B2.
      * assert (status ck <> TaskFinished) as Hnf.
        { unfold chosen in Hch. destruct (highest NO_PRIORITIES (rq me)) as [i|] eqn:Hh; [|by destruct (status ck)].
          destruct (bool_decide (status ck = TaskRunning)) eqn:Hb; [by apply bool_decide_eq_true in Hb as ->|].
          simpl in Hch. pose proof (highest_spec NO_PRIORITIES (rq me)) as Hsp. rewrite Hh in Hsp. destruct Hsp as (_ & Hne & _). by destruct (rq me i). }
        exists ck, ck1. split_and!; [done|done|done| |done| |done];
          [|rewrite Hsc1; unfold ended_with; rewrite decide_False by done; simpl; by rewrite B4].
        rewrite decide_False, F2 by done.
        unfold chosen in Hch. destruct (highest NO_PRIORITIES (rq me)) as [i|] eqn:Hh.
        -- destruct (bool_decide (status ck = TaskRunning)) eqn:Hb; [by apply bool_decide_eq_true in Hb|].
           simpl in Hch. pose proof (highest_spec NO_PRIORITIES (rq me)) as Hsp. rewrite Hh in Hsp. destruct Hsp as (_ & Hne & _). by destruct (rq me i).
        -- by destruct (status ck).
Qed.

(** No task that waits after a run of the scheduler has a higher priority than
    the task that runs. *)
Lemma next_queues_bound s rq bl sc ck u i :
  sched_inv s rq bl -> SCHEDULERS s !! me = Some sc -> tasks s !! current_task sc = Some ck ->
  (i < NO_PRIORITIES)%nat -> u ∈ next_queues s rq sc ck me i ->
  exists tk, tasks s !! default (current_task sc) (chosen s rq sc ck) = Some tk /\ Z.of_nat i <= prio tk /\ status tk <> TaskIdle.
Proof.
  intros [HR HO] Hsc Hcur Hi Hu. pose proof (highest_spec NO_PRIORITIES (rq me)) as Hsp.
  unfold next_queues, rest_after in Hu. destruct (highest NO_PRIORITIES (rq me)) as [h|] eqn:Hh.
  - destruct Hsp as (Hh1 & Hne & Habove).
    assert (forall v, v ∈ rq me i -> (i <= h)%nat) as Hle.
    { intros v Hv. destruct (decide (i <= h)%nat); [done|]. rewrite (Habove i) in Hv by lia. by apply elem_of_nil in Hv. }
    destruct (chosen s rq sc ck) as [t|] eqn:Hch.
    + assert (hd_error (rq me h) = Some t /\ (status ck = TaskRunning -> prio ck <= Z.of_nat h)) as [Ht Hck].
      { unfold chosen in Hch. rewrite Hh in Hch. destruct (bool_decide (status ck = TaskRunning)) eqn:Hb; cbn [andb] in Hch.
        - destruct (Z.ltb_spec (prio ck) (Z.of_nat h)); [split; [done|lia]|].
          destruct (Z.eqb_spec (prio ck) (Z.of_nat h)); [|done]. destruct (expired s sc); [split; [done|lia]|done].
        - split; [done|]. by apply bool_decide_eq_false in Hb. }
      assert (t ∈ rq me h) as Hin by (destruct (rq me h); [done|]; injection Ht as ->; left).
      apply (ro_mem _ _ _ HR) in Hin as (tk & E & S & _ & P & _); [|by eexists]. exists tk. split_and!; [done| |by rewrite S].
      rewrite P. unfold requeued in Hu. destruct (decide (status ck = TaskRunning)) as [Hr|_].
      * destruct (ro_legal _ _ _ HR _ ck Hcur) as [Hp _]. specialize (Hck Hr).
        rewrite updq_eq in Hu. destruct (decide (i = Z.to_nat (prio ck))) as [->|Hn]; [lia|]. rewrite upd_ne in Hu by done.
        rewrite updq_eq in Hu. destruct (decide (i = h)) as [->|Hn2]; [lia|]. rewrite upd_ne in Hu by done. specialize (Hle u Hu). lia.
      * rewrite updq_eq in Hu. destruct (decide (i = h)) as [->|Hn2]; [lia|]. rewrite upd_ne in Hu by done. specialize (Hle u Hu). lia.
    + exists ck. specialize (Hle u Hu). unfold chosen in Hch. rewrite Hh in Hch.
      destruct (bool_decide (status ck = TaskRunning)) eqn:Hb; cbn [andb] in Hch; [|by destruct (rq me h)].
      apply bool_decide_eq_true in Hb. rewrite Hb. split_and!; [done| |done].
      destruct (Z.ltb_spec (prio ck) (Z.of_nat h)); [by destruct (rq me h)|lia].
  - exfalso. assert (u ∈ rq me i) as Hu'; [|rewrite Hsp in Hu' by done; by apply elem_of_nil in Hu'].
    destruct (chosen s rq sc ck) as [t|] eqn:Hch; [|done].
    unfold chosen in Hch. rewrite Hh in Hch. unfold requeued in Hu.
    destruct (decide (status ck = TaskRunning)) as [Hr|_]; [by rewrite Hr in Hch|done].
Qed.

End dispatch.
