(* ===== verification/Tasking.v ===== *)
(** * New tasks, and the invariant of the whole scheduler

    Task identifiers, [spawn] and [clone], and what holds in every state that
    the operations of the cores lead to. *)

From stdpp Require Import base numbers list gmap fin_maps.
From Stdlib Require Import ZArith Lia.
From S2P Require Import Prelude Links Mm Collections TaskQueue Tasks Scheduler Ready Waiting Scheduling Dispatch.

#[local] Open Scope Z_scope.

(** Splits the steps of a computation [H] that ended in a value. *)
Ltac outcomes H :=
  repeat match type of H with
    | obind ?m _ = Done _ => destruct m eqn:?; simpl in H; [|discriminate H|discriminate H]
    end.

(** ** Task identifiers *)

Section identifiers.

Implicit Types (s : Sched) (bl : Loc -> list BlockedTask) (rq : Z -> nat -> list nat).

(** The [k]-th identifier that [get_tid] tries. *)
Definition candidate s (k : nat) : TaskId :=
  match k with O => TID_COUNTER s | S _ => (TID_COUNTER s + Z.of_nat k) mod W32 end.
Definition after_tid (tid : TaskId) s : Sched := with_counters (add32 tid 1) (NO_TASKS s) (NEXT_CORE_ID s) s.

Lemma candidate_next s k : candidate (after_tid (TID_COUNTER s) s) k = candidate s (S k).
Proof.
  destruct k as [|k]; [done|]. unfold candidate. change (TID_COUNTER (after_tid (TID_COUNTER s) s)) with ((TID_COUNTER s + 1) mod W32).
  rewrite Zplus_mod_idemp_l. f_equal. lia.
Qed.

Lemma get_tid_loop_spec fuel : forall s,
  (exists tid k, get_tid_loop fuel s = Done (tid, after_tid tid s) /\ TASKS s !! tid = None /\ tid = candidate s k)
  \/ forall k, (k < fuel)%nat -> is_Some (TASKS s !! candidate s k).
Proof.
  induction fuel as [|fuel IH]; intros s; [right; lia|].
  simpl. rewrite (bind_done fetch_tid _ s (TID_COUNTER s) (after_tid (TID_COUNTER s) s)) by done. rewrite bind_gets.
  match goal with |- context [match ?x with Some _ => _ | None => _ end] => destruct x as [t|] eqn:E end; cycle 1.
  { left. exists (TID_COUNTER s), O. split; [reflexivity|]. by split. }
  destruct (IH (after_tid (TID_COUNTER s) s)) as [(tid & k & E2 & Hn & Ht)|Hall].
  - left. exists tid, (S k). split; [exact E2|]. split; [exact Hn|]. by rewrite <- candidate_next.
  - right. intros [|k] Hk; [by eexists|]. rewrite <- candidate_next. apply (Hall k). lia.
Qed.

(** The candidates are distinct. *)
Lemma candidate_inj s i j : Z.of_nat i < W32 -> Z.of_nat j < W32 -> candidate s i = candidate s j -> i = j.
Proof.
  intros Hi Hj Hij.
  assert (forall a b, (a + Z.of_nat i) mod W32 = (b + Z.of_nat j) mod W32 -> a = b -> i = j) as Hmod.
  { intros a b H ->. pose proof (Z.div_mod (b + Z.of_nat i) W32 ltac:(done)). pose proof (Z.div_mod (b + Z.of_nat j) W32 ltac:(done)).
    assert (W32 * ((b + Z.of_nat i) / W32 - (b + Z.of_nat j) / W32) = Z.of_nat i - Z.of_nat j) as Hd by lia.
    assert (Z.abs (Z.of_nat i - Z.of_nat j) < W32) by lia. unfold W32 in *. lia. }
  destruct i as [|i], j as [|j]; [done| | |by apply (Hmod (TID_COUNTER s) (TID_COUNTER s))].
  - apply (Hmod (TID_COUNTER s) (TID_COUNTER s)); [|done]. unfold candidate in Hij. rewrite <- Hij, Z.add_0_r.
    rewrite Z.mod_small; [done|]. rewrite Hij. by apply Z.mod_pos_bound.
  - apply (Hmod (TID_COUNTER s) (TID_COUNTER s)); [|done]. unfold candidate in Hij. rewrite Hij, Z.add_0_r.
    rewrite Z.mod_small; [done|]. rewrite <- Hij. by apply Z.mod_pos_bound.
Qed.

Lemma get_tid_spec s : Z.of_nat (size (TASKS s)) < W32 ->
  exists tid k, get_tid s = Done (tid, after_tid tid s) /\ TASKS s !! tid = None /\ tid = candidate s k.
Proof.
  intros Hs. unfold get_tid. rewrite bind_gets.
  destruct (get_tid_loop_spec (S (size (TASKS s))) s) as [|Hall]; [done|]. exfalso.
  set (ids := candidate s <$> seq 0 (S (size (TASKS s)))).
  assert (NoDup ids) as Hnd.
  { apply NoDup_fmap_2_strong; [|apply NoDup_seq]. intros i j Hi%elem_of_seq Hj%elem_of_seq. apply candidate_inj; lia. }
  assert (length ids <= size (TASKS s))%nat as Hl.
  { rewrite <- (size_list_to_set (C := gset Z)) by done. rewrite <- size_dom. apply subseteq_size.
    intros x Hx%elem_of_list_to_set. apply list_elem_of_fmap in Hx as (k & -> & Hk%elem_of_seq).
    apply elem_of_dom, Hall. lia. }
  unfold ids in Hl. rewrite length_fmap, length_seq in Hl. lia.
Qed.

(** [get_tid] ends with an identifier that no task has: as long as fewer than
    2^32 tasks exist the loop stops after at most one attempt more than there are
    tasks - for the candidates, consecutive values of a counter that wraps around,
    are all different - and the counter is then behind the identifier. *)
Theorem get_tid_terminates s : Z.of_nat (size (TASKS s)) < W32 ->
  exists tid, get_tid s = Done (tid, after_tid tid s) /\ TASKS s !! tid = None
    /\ TID_COUNTER (after_tid tid s) = (tid + 1) mod W32 /\ (0 <= TID_COUNTER s < W32 -> 0 <= tid < W32).
Proof.
  intros Hs. destruct (get_tid_spec s Hs) as (tid & k & E & Hn & ->). exists (candidate s k).
  split_and!; [done|done|done|]. intros Hr. destruct k as [|k]; [done|]. by apply Z.mod_pos_bound.
Qed.

(** The counter wraps around; the identifiers 2^32 - 1 and 0 are taken. *)
Lemma get_tid_terminates_witness :
  let s := with_counters (W32 - 1) 2 1 (with_TASKS (fun _ => {[ W32 - 1 := 4%nat; 0 := 5%nat ]}) (Sched_init 1 Z.of_nat)) in
  match get_tid s with Done (tid, _) => tid = 1 | _ => False end
  /\ exists tid, get_tid s = Done (tid, after_tid tid s) /\ TASKS s !! tid = None
    /\ TID_COUNTER (after_tid tid s) = (tid + 1) mod W32 /\ (0 <= TID_COUNTER s < W32 -> 0 <= tid < W32).
Proof. split; [vm_compute; reflexivity|]. apply get_tid_terminates. vm_compute. reflexivity. Defined.

End identifiers.

(** ** A new task *)

Section enrolment.

Implicit Types (s : Sched) (bl : Loc -> list BlockedTask) (rq : Z -> nat -> list nat) (tk : Task).

Definition with_task (t : nat) tk s : Sched := with_tasks <[t := tk]> s.

Lemma new_task_done tk s : exists t, new_task tk s = Done (t, with_task t tk s) /\ tasks s !! t = None.
Proof.
  exists (fresh (dom (tasks s))). split; [done|]. apply not_elem_of_dom, is_fresh.
Qed.

(** A state with one more task, and perhaps one more core. *)
Lemma ready_enrolled X s rq t tk :
  ready_ok [] s rq -> tasks s !! t = None -> legal_task s tk ->
  (status tk = TaskReady /\ X = [t]) \/ (status tk <> TaskReady /\ X = []) ->
  ready_ok X (with_task t tk s) rq.
Proof.
  intros [R1 R2 R3] Ht Hl HX. split; simpl.
  - intros c sc Hc. apply (pq_repr_view (tasks s)); [|by apply R1]. intros i u Hu.
    rewrite lookup_insert_ne; [done|]. intros <-.
    apply (R2 c i t) in Hu as (tu & E & _); [congruence|by eexists].
  - intros c i u Hc. rewrite (R2 c i u Hc). destruct (decide (u = t)) as [->|Hn].
    + rewrite lookup_insert_eq, Ht. split; [by intros (tu & E & _)|]. intros (tu & [= <-] & S & C & P & Hx).
      destruct HX as [[_ ->]|[Hx' _]]; [exfalso; apply Hx; left|done].
    + rewrite lookup_insert_ne by done. split; intros (tu & E & S & C & P & Hx); exists tu; split_and!; try done.
      * destruct HX as [[_ ->]|[_ ->]]; [by rewrite list_elem_of_singleton|done].
      * by intros Hn'%elem_of_nil.
  - intros u tu. destruct (decide (u = t)) as [->|Hn]; [rewrite lookup_insert_eq; by intros [= <-]|].
    rewrite lookup_insert_ne by done. apply R3.
Qed.

Lemma wait_enrolled s s' bl t tk :
  wait_ok s bl -> tasks s !! t = None -> status tk <> TaskBlocked -> list_repr (wakeup tk) [] ->
  tasks s' = <[t := tk]> (tasks s) ->
  (forall c, SCHEDULERS s' !! c = SCHEDULERS s !! c \/ SCHEDULERS s !! c = None /\ exists sc, SCHEDULERS s' !! c = Some sc /\ list_repr (blocked_tasks sc) []) ->
  wait_ok s' bl.
Proof.
  intros [W1 W2 W3 W4 W5 W6] Ht Hst Hw Htk Hsc. split; try done.
  - intros [c|u] L; simpl.
    + destruct (Hsc c) as [->|(Hn & sc & -> & HL)]; [apply (W1 (OfCore c))|]. simpl. intros [= <-].
      rewrite (W2 (OfCore c)); [done|]. simpl. by rewrite Hn.
    + rewrite Htk. destruct (decide (u = t)) as [->|Hn]; [|rewrite lookup_insert_ne by done; apply (W1 (OfTask u))].
      rewrite lookup_insert_eq. simpl. intros [= <-]. rewrite (W2 (OfTask t)); [done|]. simpl. by rewrite Ht.
  - intros [c|u]; simpl.
    + destruct (Hsc c) as [->|(Hn & sc & -> & HL)]; [apply (W2 (OfCore c))|done].
    + rewrite Htk. destruct (decide (u = t)) as [->|Hn]; [by rewrite lookup_insert_eq|].
      rewrite lookup_insert_ne by done. apply (W2 (OfTask u)).
  - intros u. rewrite W5, Htk. unfold blocked_in. destruct (decide (u = t)) as [->|Hn]; [|by rewrite lookup_insert_ne].
    rewrite lookup_insert_eq, Ht. split; [by intros (? & ? & _)|]. by intros (? & [= <-] & ?).
Qed.

(** The new task [tk] is listed in the table of tasks. *)
Lemma other_enrolled s bl t tk :
  other_ok None s bl -> tasks s !! t = None -> TASKS s !! id tk = None -> list_repr (wakeup tk) [] ->
  status tk = TaskReady ->
  other_ok None (with_TASKS <[id tk := t]> (with_task t tk s)) bl.
Proof.
  intros [O1 O2 O3 O4 O5 O6 O7 O8 O9 O10 O11] Ht Hid Hw Hst.
  assert (forall u tu, <[t := tk]> (tasks s) !! u = Some tu -> (u = t /\ tu = tk) \/ (u <> t /\ tasks s !! u = Some tu)) as HB.
  { intros u tu. destruct (decide (u = t)) as [->|Hn]; [rewrite lookup_insert_eq; intros [= <-]; by left|].
    rewrite lookup_insert_ne by done. by right. }
  assert (forall u tu, tasks s !! u = Some tu -> <[t := tk]> (tasks s) !! u = Some tu) as HF.
  { intros u tu E. rewrite lookup_insert_ne; [done|]. intros <-. congruence. }
  split; simpl; try done.
  - apply (wait_enrolled s _ bl t tk); try done; [by rewrite Hst|by left].
  - intros u tu [[-> ->]|[Hn E]]%HB S; [by rewrite lookup_insert_eq|].
    rewrite lookup_insert_ne; [by apply O2|]. intros Heq. pose proof (O2 u tu E S). congruence.
  - intros c sc Hc. destruct (O3 c sc Hc) as (C1 & ti & Ei & C2). split; [done|]. exists ti. split; [by apply HF|done].
  - intros u tu sc [[-> ->]|[Hn E]]%HB S Hc; [congruence|by apply (O4 u tu)].
  - intros c sc Hc. destruct (O5 c sc Hc) as (ti & Ei & C2). exists ti. split; [by apply HF|done].
  - intros u tu sc [[-> ->]|[Hn E]]%HB S Hc; [congruence|by apply (O6 u tu)].
  - intros c sc i Hc Hi. destruct (O7 c sc i Hc Hi) as (u & tu & Tu & Eu & Su). exists u, tu.
    split; [|split; [by apply HF|done]]. rewrite lookup_insert_ne; [done|]. congruence.
  - intros i u [[_ <-]|[_ Hu]]%lookup_insert_Some; [rewrite lookup_insert_eq; by eexists|].
    destruct (O11 i u Hu) as [tu E]. exists tu. by apply HF.
Qed.

Lemma evolves_new X s t tk : tasks s !! t = None -> evolves X s (with_task t tk s).
Proof. intros Ht u tu E _. exists tu. simpl. rewrite lookup_insert_ne; [done|]. intros <-. congruence. Qed.

(** Starting a new task: it waits behind the others of its priority. *)
Lemma enrol_spec s rq bl c sc t tk :
  sched_inv s rq bl -> SCHEDULERS s !! c = Some sc -> core_id tk = c -> 0 <= prio tk < Z.of_nat NO_PRIORITIES ->
  status tk = TaskReady -> list_repr (wakeup tk) [] -> TASKS s !! id tk = None -> tasks s !! t = None ->
  exists s', on_ready c (pq_push t) (with_task t tk s) = Done (tt, s')
    /\ erase s' = erase (with_task t tk s) /\ evolves [] s s'
    /\ sched_inv (with_TASKS <[id tk := t]> s') (updq c (Z.to_nat (prio tk)) (rq c (Z.to_nat (prio tk)) ++ [t]) rq) bl.
Proof.
  intros [HR HO] Hsc Hco Hp Hst Hw Hid Ht. set (s1 := with_task t tk s).
  assert (ready_ok [t] s1 rq) as HR1.
  { apply ready_enrolled; try done; [split; [done|]; rewrite Hco; by eexists|by left]. }
  assert (tasks s1 !! t = Some tk) as Ht1 by apply lookup_insert_eq.
  destruct (ready_push [] s1 rq c sc t tk (Z.to_nat (prio tk)) HR1) as (q' & E & Hs & HR2 & Hev);
    [by intros Hx%elem_of_nil|done|done|done|done|lia|].
  exists (after_queue c sc q' s1). split_and!; [done|by apply erase_after_queue|by apply (evolves_trans _ _ s1); [apply evolves_new|]|]. split.
  - by apply (ready_frame [] (after_queue c sc q' s1)).
  - apply (other_frame None (with_TASKS <[id tk := t]> s1)); [done| |by apply other_enrolled].
    apply (erase_after_queue c sc q' (with_TASKS <[id tk := t]> s1)). done.
Qed.

End enrolment.

(** ** [spawn] and [clone] *)

Section creation.

Context {K : Type} `{KernelMemory K}.
Context (me : Z).
Implicit Types (s : Sched) (bl : Loc -> list BlockedTask) (rq : Z -> nat -> list nat) (tk : Task) (k : K).

Lemma bind_on_sched {A B} (m : M Sched A) (f : A -> M (Sched * K) B) s k a s' :
  m s = Done (a, s') -> bind (on_sched m) f (s, k) = f a (s', k).
Proof. intros E. unfold bind, on_sched. simpl. by rewrite E. Qed.

Lemma on_sched_done {A} (m : M Sched A) s k a s' : m s = Done (a, s') -> on_sched m (s, k) = Done (a, (s', k)).
Proof. intros E. unfold on_sched. simpl. by rewrite E. Qed.

Lemma inv_counters a b c s rq bl : sched_inv s rq bl -> sched_inv (with_counters a b c s) rq bl.
Proof.
  intros [HR HO]. split; [by apply (ready_frame [] s)|].
  destruct HO as [[W1 W2 W3 W4 W5 W6] O2 O3 O4 O5 O6 O7 O8 O9 O10 O11]. split; try done.
Qed.

Lemma inv_wakeups f s rq bl : sched_inv s rq bl -> sched_inv (with_wakeups f s) rq bl.
Proof. intros [HR HO]. split; [by apply ready_wakeups|by apply (other_frame None s)]. Qed.

Lemma wakeup_core_done c s : exists f, wakeup_core me c s = Done (tt, with_wakeups f s).
Proof.
  unfold wakeup_core. destruct (c =? me); [|by eexists]. exists (fun l => l). by destruct s.
Qed.

(** What [create_stack_frame] leaves as it is. *)
Lemma frame_pointers_fields tk tk' : create_stack_frame_pointers tk = Done tk' ->
  id tk' = id tk /\ status tk' = status tk /\ prio tk' = prio tk /\ core_id tk' = core_id tk /\ wakeup tk' = wakeup tk.
Proof.
  unfold create_stack_frame_pointers. intros E. outcomes E. by injection E as <-.
Qed.

Lemma frame_pointers_end tk : create_stack_frame_pointers tk <> OutOfFuel.
Proof.
  unfold create_stack_frame_pointers, add64, sub64, checked. intros E.
  repeat match type of E with context [if ?b then _ else _] => destruct b; simpl in E; [|discriminate E] end. discriminate E.
Qed.

(** The task that [spawn] and [clone] make on the stacks [st]. *)
Definition fresh_task (tid : TaskId) (core : Z) (p : Priority) (st : TaskStacks) (tls : option nat) (r : WakeupReason) : Task :=
  mkTask tid TaskReady p 0 0 0 FPUState_new core st None None BlockedTaskQueue_new tls r.

(** [s'] is [s] with the task [t] started on core [c]. *)
Record started (c : Z) (t : nat) tk s s' rq bl : Prop := {
  st_new : tasks s !! t = None;
  st_listed : TASKS s !! id tk = None /\ TASKS s' = <[id tk := t]> (TASKS s);
  st_count : NO_TASKS s' = add32 (NO_TASKS s) 1;
  st_evolves : evolves [] s s';
  st_inv : sched_inv s' (updq c (Z.to_nat (prio tk)) (rq c (Z.to_nat (prio tk)) ++ [t]) rq) bl
}.

Lemma bind_on_memory {A B} (m : M K A) (f : A -> M (Sched * K) B) s k :
  bind (on_memory m) f (s, k) =
  match m k with Done (a, k') => f a (s, k') | Panic => Panic | OutOfFuel => OutOfFuel end.
Proof. unfold bind, on_memory. simpl. by destruct (m k) as [[]| |]. Qed.

Lemma Task_new_run tid c p k :
  Task_new tid c TaskReady p k =
  match TaskStacks_new k with
  | Done (st, k') => Done (fresh_task tid c p st None Custom, k') | Panic => Panic | OutOfFuel => OutOfFuel
  end.
Proof. unfold Task_new, bind. by destruct (TaskStacks_new k) as [[]| |]. Qed.

(** The steps that make a new task known. *)
Lemma publish_done s rq bl c sc t tk :
  sched_inv s rq bl -> SCHEDULERS s !! c = Some sc -> core_id tk = c -> 0 <= prio tk < Z.of_nat NO_PRIORITIES ->
  status tk = TaskReady -> wakeup tk = BlockedTaskQueue_new -> TASKS s !! id tk = None -> tasks s !! t = None ->
  exists s', (forall B (f : M Sched B),
      (on_ready c (pq_push t) ;;; modify (with_TASKS <[id tk := t]>) ;;; add_no_tasks 1 ;;; f) (with_task t tk s) = f s')
    /\ started c t tk s s' rq bl.
Proof.
  intros HI Hsc Hco Hp Hst Hw Hid Ht.
  destruct (enrol_spec s rq bl c sc t tk HI) as (s1 & Ep & He & Hev & HI1); try done; [rewrite Hw; apply list_repr_empty|].
  eexists. split.
  - intros B f. rewrite (bind_done _ _ _ _ _ Ep), bind_modify. unfold add_no_tasks. rewrite bind_modify. reflexivity.
  - split; try done.
    + split; [done|]. apply (f_equal TASKS) in He. simpl in He. simpl. by rewrite He.
    + apply (f_equal NO_TASKS) in He. simpl in He. simpl. by rewrite He.
    + by apply inv_counters.
Qed.

Lemma started_wakeups f c t tk s s' rq bl : started c t tk s s' rq bl -> started c t tk s (with_wakeups f s') rq bl.
Proof. intros [S1 S2 S3 S4 S5]. split; try done. by apply inv_wakeups. Qed.

Lemma started_from a b s0 c t tk s s' rq bl :
  started c t tk s0 s' rq bl -> s0 = with_counters a (NO_TASKS s) b s -> started c t tk s s' rq bl.
Proof. intros [S1 S2 S3 S4 S5] ->. by split. Qed.

(** [spawn] either starts a task or panics for lack of memory. *)
Lemma spawn_spec s rq bl c sc p k :
  sched_inv s rq bl -> SCHEDULERS s !! c = Some sc -> 0 <= p < Z.of_nat NO_PRIORITIES ->
  Z.of_nat (size (TASKS s)) < W32 ->
  match TaskStacks_new k with
  | Done (st, k') =>
      exists tid, match create_stack_frame_pointers (fresh_task tid c p st None Custom) with
        | Done tk => exists t s', spawn me c p (s, k) = Done (tid, (s', k')) /\ id tk = tid /\ started c t tk s s' rq bl
        | _ => spawn me c p (s, k) = Panic
        end
  | Panic => spawn me c p (s, k) = Panic
  | OutOfFuel => spawn me c p (s, k) = OutOfFuel
  end.
Proof.
  intros HI Hsc Hp Hsz. destruct (get_tid_spec s Hsz) as (tid & ? & Et & Hid & _).
  destruct (oo_idle_task _ _ _ (proj2 HI) c sc Hsc) as [Hcore _].
  assert (spawn me c p (s, k) = bind (on_memory (Task_new tid c TaskReady p)) (fun t =>
    let! t := lift (create_stack_frame_pointers t) in
    on_sched (let! task := new_task t in on_ready c (pq_push task) ;;; modify (with_TASKS <[tid := task]>) ;;;
      add_no_tasks 1 ;;; wakeup_core me c ;;; ret tid)) (after_tid tid s, k)) as ->.
  { unfold spawn. rewrite (bind_on_sched (get_scheduler c) _ s k sc s) by (unfold get_scheduler; by rewrite Hsc).
    rewrite (bind_on_sched get_tid _ s k _ _ Et). by rewrite Hcore. }
  rewrite bind_on_memory, Task_new_run.
  destruct (TaskStacks_new k) as [[st k']| |]; [|done|done]. exists tid. set (s0 := after_tid tid s).
  destruct (create_stack_frame_pointers (fresh_task tid c p st None Custom)) as [tk| |] eqn:Ef; [|done|].
  2:{ by apply frame_pointers_end in Ef. }
  rewrite (bind_lift_done _ _ tk) by done.
  destruct (frame_pointers_fields _ _ Ef) as (F1 & F2 & F3 & F4 & F5). simpl in F1, F2, F3, F4, F5.
  destruct (new_task_done tk s0) as (t & En & Ht).
  assert (sched_inv s0 rq bl) as HI0 by (by apply inv_counters).
  destruct (publish_done s0 rq bl c sc t tk HI0) as (s3 & Ep & HS); try done; [by rewrite F3|by rewrite F1|].
  rewrite F1 in Ep. destruct (wakeup_core_done c s3) as (f & Ew). exists t, (with_wakeups f s3). split_and!; [|done|].
  - apply on_sched_done. rewrite (bind_done _ _ _ _ _ En), Ep, (bind_done _ _ _ _ _ Ew). done.
  - apply started_wakeups. by apply (started_from (add32 tid 1) (NEXT_CORE_ID s) s0).
Qed.

(** The core that [clone] takes. *)
Definition clone_core s : Z := if NEXT_CORE_ID s =? processor_count s then 0 else NEXT_CORE_ID s.

Lemma next_core_run s : exists n, next_core s = Done (clone_core s, with_counters (TID_COUNTER s) (NO_TASKS s) n s).
Proof.
  unfold next_core, clone_core. rewrite !bind_gets, bind_modify.
  destruct (NEXT_CORE_ID s =? processor_count s); eexists; reflexivity.
Qed.

Lemma Task_clone_run tid c ck k :
  Task_clone tid c ck k =
  match TaskStacks_new k with
  | Done (st, k') => Done (fresh_task tid c (prio ck) st (tls ck) (last_wakeup_reason ck), k')
  | Panic => Panic | OutOfFuel => OutOfFuel
  end.
Proof. unfold Task_clone, bind. by destruct (TaskStacks_new k) as [[]| |]. Qed.

(** A running task is in no ready queue, so that it is not the last of one. *)
Lemma tail_not_running s rq bl c sc t tk cur ck :
  sched_inv s rq bl -> SCHEDULERS s !! c = Some sc -> core_id tk = c -> 0 <= prio tk < Z.of_nat NO_PRIORITIES ->
  status tk = TaskReady -> tasks s !! t = None -> tasks s !! cur = Some ck -> status ck = TaskRunning ->
  exists q, on_ready c (get_queue (Z.to_nat (prio tk))) (with_task t tk s) = Done (q, with_task t tk s) /\ q_tail q <> Some cur.
Proof.
  intros [HR HO] Hsc Hco Hp Hst Ht Hcur Hrun. set (s1 := with_task t tk s).
  assert (ready_ok [t] s1 rq) as HR1.
  { apply ready_enrolled; try done; [split; [done|]; rewrite Hco; by eexists|by left]. }
  assert (Z.to_nat (prio tk) < NO_PRIORITIES)%nat as Hi by lia.
  destruct (repr_queue _ _ _ (ro_repr _ _ _ HR1 c sc Hsc) Hi) as (q & Eq & [Q1 Q2 Q3 Q4]).
  exists q. split.
  - apply (on_ready_same c _ s1 sc); [done|]. unfold get_queue. simpl. simpl in Eq. by rewrite Eq.
  - rewrite Q3. intros Hl%last_Some_elem_of. apply (ro_mem _ _ _ HR) in Hl as (tu & E & S & _); [|by eexists]. congruence.
Qed.

(** [clone] either starts a copy of the current task or panics. *)
Lemma clone_spec s rq bl msc ck sc k :
  sched_inv s rq bl -> SCHEDULERS s !! me = Some msc -> tasks s !! current_task msc = Some ck -> status ck = TaskRunning ->
  SCHEDULERS s !! clone_core s = Some sc -> Z.of_nat (size (TASKS s)) < W32 ->
  match TaskStacks_new k with
  | Done (st, k') =>
      exists tid,
        match create_stack_frame_pointers (fresh_task tid (clone_core s) (prio ck) st (tls ck) (last_wakeup_reason ck)) with
        | Done tk => exists t s', clone me (s, k) = Done (tid, (s', k')) /\ id tk = tid /\ started (clone_core s) t tk s s' rq bl
        | _ => clone me (s, k) = Panic
        end
  | Panic => clone me (s, k) = Panic
  | OutOfFuel => clone me (s, k) = OutOfFuel
  end.
Proof.
  intros HI Hmsc Hcur Hrun Hsc Hsz. destruct (next_core_run s) as (n & En). set (c := clone_core s) in *.
  set (sn := with_counters (TID_COUNTER s) (NO_TASKS s) n s) in En.
  destruct (get_tid_spec sn Hsz) as (tid & ? & Et & Hid & _). set (s0 := after_tid tid sn) in Et.
  assert (sched_inv s0 rq bl) as HI0 by (by do 2 apply inv_counters).
  unfold clone. rewrite (bind_on_sched _ _ _ _ _ _ En).
  rewrite (bind_on_sched (get_scheduler c) _ sn k sc sn) by (unfold get_scheduler; simpl; by rewrite Hsc).
  rewrite (bind_on_sched (core_scheduler me) _ sn k msc sn) by (unfold core_scheduler, get_scheduler; simpl; by rewrite Hmsc).
  rewrite (bind_on_sched (borrow_task _) _ sn k ck sn) by (unfold borrow_task; simpl; by rewrite Hcur).
  rewrite (bind_on_sched get_tid _ sn k _ _ Et), bind_on_memory, Task_clone_run.
  destruct (TaskStacks_new k) as [[st k']| |]; [|done|done]. exists tid.
  destruct (create_stack_frame_pointers (fresh_task tid c (prio ck) st (tls ck) (last_wakeup_reason ck))) as [tk| |] eqn:Ef; [|done|].
  2:{ by apply frame_pointers_end in Ef. }
  rewrite (bind_lift_done _ _ tk) by done.
  destruct (frame_pointers_fields _ _ Ef) as (F1 & F2 & F3 & F4 & F5). simpl in F1, F2, F3, F4, F5.
  destruct (new_task_done tk s0) as (t & Ent & Ht).
  destruct (ro_legal _ _ _ (proj1 HI) _ ck Hcur) as [Hp _]. rewrite <- F3 in Hp.
  destruct (publish_done s0 rq bl c sc t tk HI0) as (s3 & Ep & HS); try done; [by rewrite F1|].
  destruct (tail_not_running s0 rq bl c sc t tk (current_task msc) ck HI0) as (q & Eq & Hq); [done..|].
  rewrite F1 in Ep. destruct (wakeup_core_done c s3) as (f & Ew).
  exists t, (if is_halted (state sc) then with_wakeups f s3 else s3). split_and!; [|done|].
  - apply on_sched_done. rewrite (bind_done _ _ _ _ _ Ent), (bind_done _ _ _ _ _ Eq).
    rewrite bind_massert by (by apply bool_decide_eq_true). rewrite Ep.
    destruct (is_halted (state sc)); [by rewrite (bind_done _ _ _ _ _ Ew)|done].
  - apply (started_from (add32 tid 1) n s0); [|done].
    destruct (is_halted (state sc)); [by apply started_wakeups|done].
Qed.

End creation.
