(* ===== verification/Cores.v ===== *)
(** * The cores together

    A core joins the system, its tasks run, block, end and are woken by it or
    by others: what holds in every state that this leads to. *)

From stdpp Require Import base numbers list gmap.
From Stdlib Require Import ZArith Lia.
From S2P Require Import Prelude Links Mm Isolation Collections TaskQueue Tasks Scheduler Ready Waiting Scheduling Dispatch Tasking.

#[local] Open Scope Z_scope.

(** ** A new core *)

Section new_core.

Context (me : Z).
Implicit Types (s : Sched) (bl : Loc -> list BlockedTask) (rq : Z -> nat -> list nat) (tk : Task).

(** The scheduler of a new core, whose idle task is [t]. *)
Definition new_scheduler (t : nat) : PerCoreScheduler :=
  mkPerCore me t t t (mkSchedState PriorityTaskQueue_new false) [] BlockedTaskQueue_new 0.
Definition with_core (t : nat) s : Sched := with_SCHEDULERS <[me := new_scheduler t]> s.
Definition no_queue rq : Z -> nat -> list nat := fun c => if decide (c = me) then fun _ => [] else rq c.

Lemma ready_new_core s rq t :
  ready_ok [] s rq -> SCHEDULERS s !! me = None -> ready_ok [] (with_core t s) (no_queue rq).
Proof.
  intros [R1 R2 R3] Hme. unfold no_queue. split; simpl.
  - intros c sc. destruct (decide (c = me)) as [->|Hn].
    + rewrite lookup_insert_eq. intros [= <-]. apply new_repr.
    + rewrite lookup_insert_ne by done. apply R1.
  - intros c i u Hc. destruct (decide (c = me)) as [->|Hn].
    + split; [by intros Hx%elem_of_nil|]. intros (tu & E & S & C & _). destruct (R3 u tu E) as [_ [sc Hsc]]. congruence.
    + rewrite lookup_insert_ne in Hc by done. by apply R2.
  - intros u tu E. destruct (R3 u tu E) as [Hp Hc]. split; [done|]. simpl.
    apply lookup_insert_is_Some'. by right.
Qed.

Lemma other_new_core s rq bl t tk :
  ready_ok [] s rq -> other_ok None s bl -> SCHEDULERS s !! me = None -> tasks s !! t = None -> TASKS s !! id tk = None ->
  core_id tk = me -> status tk = TaskIdle -> list_repr (wakeup tk) [] ->
  other_ok None (with_core t (with_TASKS <[id tk := t]> (with_task t tk s))) bl.
Proof.
  intros HR [O1 O2 O3 O4 O5 O6 O7 O8 O9 O10 O11] Hme Ht Hid Hco Hst Hw.
  assert (forall u tu, tasks s !! u = Some tu -> core_id tu <> me) as Hnone.
  { intros u tu E. destruct (ro_legal _ _ _ HR u tu E) as [_ [sc Hsc]]. congruence. }
  assert (forall u tu, <[t := tk]> (tasks s) !! u = Some tu -> (u = t /\ tu = tk) \/ (u <> t /\ tasks s !! u = Some tu)) as HB.
  { intros u tu. destruct (decide (u = t)) as [->|Hn]; [rewrite lookup_insert_eq; intros [= <-]; by left|].
    rewrite lookup_insert_ne by done. by right. }
  assert (forall u tu, tasks s !! u = Some tu -> <[t := tk]> (tasks s) !! u = Some tu) as HF.
  { intros u tu E. rewrite lookup_insert_ne; [done|]. intros <-. congruence. }
  assert (forall c sc, <[me := new_scheduler t]> (SCHEDULERS s) !! c = Some sc ->
    (c = me /\ sc = new_scheduler t) \/ (c <> me /\ SCHEDULERS s !! c = Some sc)) as HS.
  { intros c sc. destruct (decide (c = me)) as [->|Hn]; [rewrite lookup_insert_eq; intros [= <-]; by left|].
    rewrite lookup_insert_ne by done. by right. }
  assert (<[t := tk]> (tasks s) !! t = Some tk) as Hnew by apply lookup_insert_eq.
  split; simpl; try done.
  - apply (wait_enrolled s _ bl t tk); try done; [by rewrite Hst|]. intros c. simpl. destruct (decide (c = me)) as [->|Hn].
    + right. split; [done|]. exists (new_scheduler t). split; [apply lookup_insert_eq|apply list_repr_empty].
    + left. by rewrite lookup_insert_ne.
  - intros u tu [[-> ->]|[Hn E]]%HB S; [by rewrite lookup_insert_eq|].
    rewrite lookup_insert_ne; [by apply O2|]. intros Heq. pose proof (O2 u tu E S). congruence.
  - intros c sc [[-> ->]|[Hn Hc]]%HS; [split; [done|]; by exists tk|].
    destruct (O3 c sc Hc) as (C1 & ti & Ei & C2). split; [done|]. exists ti. split; [by apply HF|done].
  - intros u tu sc E S [[Hc ->]|[Hn Hc]]%HS; destruct (HB u tu E) as [[-> ->]|[Hu E']]; [done| |congruence|by apply (O4 u tu)].
    by destruct (Hnone u tu).
  - intros c sc [[-> ->]|[Hn Hc]]%HS; [exists tk; split_and!; [done|done|by rewrite Hst]|].
    destruct (O5 c sc Hc) as (ti & Ei & C2). exists ti. split; [by apply HF|done].
  - intros u tu sc E S [[Hc ->]|[Hn Hc]]%HS; destruct (HB u tu E) as [[-> ->]|[Hu E']]; [done| |congruence|by apply (O6 u tu)].
    by destruct (Hnone u tu).
  - intros c sc i [[-> ->]|[Hn Hc]]%HS Hi; [by apply elem_of_nil in Hi|].
    destruct (O7 c sc i Hc Hi) as (u & tu & Tu & Eu & Su). exists u, tu.
    split; [|split; [by apply HF|done]]. rewrite lookup_insert_ne; [done|]. congruence.
  - intros c sc [[-> ->]|[Hn Hc]]%HS; [apply NoDup_nil_2|by apply (O8 c)].
  - intros c sc [[-> ->]|[Hn Hc]]%HS; [done|by apply (O9 c)].
  - intros i u [[_ <-]|[_ Hu]]%lookup_insert_Some; [by eexists|].
    destruct (O11 i u Hu) as [tu E]. exists tu. by apply HF.
Qed.

(** [add_current_core] on a core that is not yet known. *)
Lemma add_core_spec s rq bl rsp0 ist0 st :
  sched_inv s rq bl -> SCHEDULERS s !! me = None -> Z.of_nat (size (TASKS s)) < W32 ->
  from_boot_stacks rsp0 ist0 = Done st ->
  exists s', add_current_core me rsp0 ist0 s = Done (tt, s') /\ sched_inv s' (no_queue rq) bl /\ evolves [] s s'.
Proof.
  intros HI Hme Hsz Eb. destruct (get_tid_spec s Hsz) as (tid & ? & Et & Hid & _). set (s0 := after_tid tid s) in Et.
  assert (sched_inv s0 rq bl) as [HR HO] by (by apply inv_counters).
  set (tk := Task_new_idle tid me st). destruct (new_task_done tk s0) as (t & En & Ht).
  exists (with_core t (with_TASKS <[tid := t]> (with_task t tk s0))). split; [|split; [split|]].
  - unfold add_current_core. rewrite (bind_done _ _ _ _ _ Et), (bind_lift_done _ _ _ _ Eb), (bind_done _ _ _ _ _ En). done.
  - apply (ready_frame [] (with_task t tk (with_core t s0))); [|done|done].
    apply ready_enrolled; [by apply ready_new_core|done| |by right].
    split; [done|]. simpl. rewrite lookup_insert_eq. by eexists.
  - apply (other_new_core s0 rq bl t tk); try done. apply list_repr_empty.
  - exact (evolves_new [] s0 t tk Ht).
Qed.

End new_core.

(** ** What a core does *)

(** The operations of the scheduler as the kernel calls them: a core comes up;
    it looks for another task; the current task goes to sleep, waits for
    another one to end, or ends; the timer interrupt; waking a task of some
    core; new tasks. *)
Inductive Event :=
  | AddCore (rsp0 ist0 : Z)
  | Schedule
  | Sleep (wakeup_time : option Z)
  | WaitFor (tid : TaskId)
  | Finish
  | TimerInterrupt
  | Wake (core : Z) (task : nat)
  | Spawn (core : Z) (p : Priority)
  | Clone.

Section events.

Context {K : Type} `{KernelMemory K}.
Implicit Types (s : Sched) (bl : Loc -> list BlockedTask) (rq : Z -> nat -> list nat) (tk : Task) (k : K) (me : Z).

Definition run_event me (e : Event) : M (Sched * K) unit :=
  match e with
  | AddCore rsp0 ist0 => on_sched (add_current_core me rsp0 ist0)
  | Schedule => on_sched (scheduler me ;;; ret tt)
  | Sleep wt => on_sched (block_current me wt)
  | WaitFor tid => on_sched (wait_for me tid ;;; ret tt)
  | Finish => on_sched (end_current me)
  | TimerInterrupt => on_sched (on_blocked me (handle_waiting_tasks me))
  | Wake core task => on_sched (on_blocked core (custom_wakeup me task))
  | Spawn core p => spawn me core p ;;; ret tt
  | Clone => clone me ;;; ret tt
  end.

Definition core_up s (c : Z) : bool := bool_decide (is_Some (SCHEDULERS s !! c)).
Definition current_of s me : option nat := current_task <$> SCHEDULERS s !! me.
Definition runs s me : bool :=
  match current_of s me with
  | Some t => bool_decide (status <$> tasks s !! t = Some TaskRunning)
  | None => false
  end.
Definition ids_left s : bool := Z.of_nat (size (TASKS s)) <? W32.
Definition prio_ok (p : Priority) : bool := (0 <=? p) && (p <? Z.of_nat NO_PRIORITIES).
Definition boot_stacks_ok (rsp0 ist0 : Z) : bool := match from_boot_stacks rsp0 ist0 with Done _ => true | _ => false end.

(** When an event may happen: the cores it needs are up; only a running task
    sleeps, waits, ends or clones itself; it does not wait for itself; new
    tasks have a priority that exists and an identifier is left. *)
Definition legal me (e : Event) s : bool :=
  match e with
  | AddCore rsp0 ist0 => negb (core_up s me) && ids_left s && boot_stacks_ok rsp0 ist0
  | Schedule | TimerInterrupt => core_up s me
  | Sleep _ | Finish => runs s me
  | WaitFor tid => runs s me && bool_decide (TASKS s !! tid <> current_of s me)
  | Wake core _ => core_up s core
  | Spawn core p => core_up s core && ids_left s && prio_ok p
  | Clone => runs s me && core_up s (clone_core s) && ids_left s
  end.

(** The events that take memory, and may panic for lack of it. *)
Definition takes_memory (e : Event) : bool := match e with Spawn _ _ | Clone => true | _ => false end.

Definition sys_ok s : Prop := exists rq bl, sched_inv s rq bl.

Lemma runs_facts s me : runs s me = true ->
  exists sc ck, SCHEDULERS s !! me = Some sc /\ tasks s !! current_task sc = Some ck /\ status ck = TaskRunning.
Proof.
  unfold runs, current_of. destruct (SCHEDULERS s !! me) as [sc|]; [|done]. simpl. intros Hb%bool_decide_eq_true.
  destruct (tasks s !! current_task sc) as [ck|] eqn:E; [|done]. simpl in Hb. exists sc, ck. split_and!; [done|done|congruence].
Qed.

Lemma core_up_facts s c : core_up s c = true -> exists sc, SCHEDULERS s !! c = Some sc.
Proof. by intros [sc Hsc]%bool_decide_eq_true; exists sc. Qed.

(** *** What an event leaves of the tasks it does not concern *)

(** The event does not concern the task [u]. *)
Definition undisturbed me (e : Event) s (u : nat) : Prop :=
  match e with
  | Sleep _ | WaitFor _ | Finish => current_of s me <> Some u
  | Wake _ t => t <> u
  | _ => True
  end.

(** [u] is blocked without a deadline. *)
Definition asleep bl (u : nat) : Prop := exists c, mkBlocked u None ∈ bl (OfCore c).
Definition settled s bl (u : nat) : Prop := asleep bl u \/ exists tk, tasks s !! u = Some tk /\ alive tk.

(** After an event that leaves the invariant: the tasks it does not concern are
    where they were. *)
Definition respects (me : Z) (e : Event) s s' bl bl' : Prop :=
  exists X, evolves X s s'
    /\ (forall u, undisturbed me e s u -> settled s bl u -> u ∉ X)
    /\ (forall u c, undisturbed me e s u -> mkBlocked u None ∈ bl (OfCore c) -> mkBlocked u None ∈ bl' (OfCore c)).

Definition keeps s bl me (e : Event) s' : Prop := exists rq' bl', sched_inv s' rq' bl' /\ respects me e s s' bl bl'.
Definition keeps_ok s bl me (e : Event) (o : outcome (unit * (Sched * K))) : Prop :=
  exists s' k', o = Done (tt, (s', k')) /\ keeps s bl me e s'.

(** A task that sleeps in one queue is not in another. *)
Lemma asleep_once s bl rq u c loc : sched_inv s rq bl -> mkBlocked u None ∈ bl (OfCore c) -> u ∈ task <$> bl loc -> loc = OfCore c.
Proof.
  intros [_ HO] Hin Hu. apply (wo_once _ _ (oo_wait _ _ _ HO) loc (OfCore c) u Hu).
  change u with (task (mkBlocked u None)). by apply list_elem_of_fmap_2.
Qed.

Lemma entry_unique s bl rq loc e e' : sched_inv s rq bl -> e ∈ bl loc -> e' ∈ bl loc -> task e = task e' -> e = e'.
Proof.
  intros [_ HO] [i Hi]%list_elem_of_lookup [j Hj]%list_elem_of_lookup Ht.
  pose proof (wo_nodup _ _ (oo_wait _ _ _ HO) loc) as Hnd. assert (i = j) as ->; [|congruence].
  apply (NoDup_lookup _ _ _ (task e) Hnd); rewrite list_lookup_fmap, ?Hi, ?Hj; simpl; congruence.
Qed.

Lemma blocked_not_alive s rq bl loc u tk : sched_inv s rq bl -> u ∈ task <$> bl loc -> tasks s !! u = Some tk -> ~ alive tk.
Proof.
  intros [_ HO] Hu Ht Ha. destruct (proj1 (wo_blocked _ _ (oo_wait _ _ _ HO) u)) as (tk' & E & S); [by exists loc|].
  rewrite Ht in E. injection E as <-. destruct Ha; congruence.
Qed.

(** An event that wakes the tasks [X] of the queue at [loc], among which [u] is
    not one that sleeps there. *)
Lemma settled_not_woken s rq bl loc (X : list nat) u :
  sched_inv s rq bl -> (forall v, v ∈ X -> v ∈ task <$> bl loc) ->
  (forall c, loc = OfCore c -> mkBlocked u None ∈ bl loc -> u ∉ X) -> settled s bl u -> u ∉ X.
Proof.
  intros HI HX Hn [(c & Hc)|(tk & Ht & Ha)] Hu.
  - pose proof (asleep_once s bl rq u c loc HI Hc (HX u Hu)) as ->. by apply (Hn c).
  - exact (blocked_not_alive s rq bl loc u tk HI (HX u Hu) Ht Ha).
Qed.

Lemma updl_keeps u c loc vs bl : loc <> OfCore c -> mkBlocked u None ∈ bl (OfCore c) -> mkBlocked u None ∈ updl loc vs bl (OfCore c).
Proof. intros Hn Hin. by rewrite updl_ne. Qed.

(** The event changes no queue of blocked tasks. *)
Lemma respects_same me e s s' bl : evolves [] s s' -> respects me e s s' bl bl.
Proof. intros Hev. exists []. split_and!; [done|intros; apply not_elem_of_nil|done]. Qed.

Lemma scheduler_event me s rq bl k : sched_inv s rq bl -> core_up s me = true -> keeps_ok s bl me Schedule (run_event me Schedule (s, k)).
Proof.
  intros HI (sc & Hsc)%core_up_facts.
  destruct (cleanup_inv me s rq bl sc HI Hsc) as (s1 & rq1 & bl1 & E1 & HI1 & Hc & sc1 & Hsc1 & _).
  destruct (oo_current _ _ _ (proj2 HI1) me sc1 Hsc1) as (ck & Hck & _).
  destruct (schedule_spec me s1 rq1 bl1 sc1 ck HI1 Hsc1 Hck) as (s2 & E2 & HI2 & _ & _ & _ & _ & _ & _ & _ & Hev2 & _).
  exists s2, k. split; [|eexists _, bl1; split; [exact HI2|]].
  - apply on_sched_done. unfold scheduler. rewrite bind_assoc. by rewrite (bind_done _ _ _ _ _ E1), (bind_done _ _ _ _ _ E2).
  - destruct (finished_tasks sc) as [|tid rest]; [destruct Hc as (-> & -> & ->); by apply respects_same|].
    destruct Hc as (t & Ht & _ & _ & -> & _ & Hev). exists (task <$> bl (OfTask t)). split_and!.
    + apply (evolves_trans _ _ s1); [done|]. by apply (evolves_weaken []); [set_solver|].
    + intros u _. by apply (settled_not_woken s rq bl (OfTask t)).
    + intros u c _. by apply updl_keeps.
Qed.

(** The current task [cur] goes to sleep in the queue at [loc]. *)
Lemma respects_sleep me e s s' bl rq cur ck wt loc :
  sched_inv s rq bl -> (forall u, undisturbed me e s u -> u <> cur) -> evolves [cur] s s' ->
  tasks s !! cur = Some ck -> status ck = TaskRunning ->
  respects me e s s' bl (updl loc (inserted wt (mkBlocked cur wt) (bl loc)) bl).
Proof.
  intros HI Hu Hev Hck Hst. exists [cur]. split_and!; [done|set_solver|].
  intros u c _ Hin. destruct (decide (OfCore c = loc)) as [<-|Hn]; [|by apply updl_keeps].
  rewrite updl_eq, inserted_perm. by right.
Qed.

Lemma sleep_event me wt s rq bl k : sched_inv s rq bl -> runs s me = true -> keeps_ok s bl me (Sleep wt) (run_event me (Sleep wt) (s, k)).
Proof.
  intros HI (sc & ck & Hsc & Hck & Hst)%runs_facts.
  assert (queue_at s (OfCore me) = Some (blocked_tasks sc)) as Hq by (simpl; by rewrite Hsc).
  destruct (sleep_spec me [] (current_task sc) wt (OfCore me) _ s rq bl ck HI Hq Hck Hst) as (L' & E & HI' & Hev); [set_solver|].
  eexists _, k. split; [|eexists _, _; split; [exact HI'|]].
  - apply on_sched_done. unfold block_current. rewrite (bind_core_scheduler me _ s sc Hsc). by apply (on_blocked_done _ me s sc).
  - apply (respects_sleep me _ s _ bl rq _ ck wt); [done| |done..]. unfold undisturbed, current_of. rewrite Hsc. simpl. congruence.
Qed.

Lemma wait_event me tid s rq bl k :
  sched_inv s rq bl -> legal me (WaitFor tid) s = true -> keeps_ok s bl me (WaitFor tid) (run_event me (WaitFor tid) (s, k)).
Proof.
  intros HI [(sc & ck & Hsc & Hck & Hst)%runs_facts Hne%bool_decide_eq_true]%andb_true_iff.
  unfold current_of in Hne. rewrite Hsc in Hne. simpl in Hne.
  destruct (TASKS s !! tid) as [t|] eqn:Et.
  - destruct (oo_listed _ _ _ (proj2 HI) tid t Et) as [tk Ht].
    assert (queue_at s (OfTask t) = Some (wakeup tk)) as Hq by (simpl; by rewrite Ht).
    destruct (sleep_spec me [t] (current_task sc) None (OfTask t) _ s rq bl ck HI Hq Hck Hst) as (L' & E & HI' & Hev); [set_solver|].
    eexists _, k. split; [|eexists _, _; split; [exact HI'|]].
    + apply on_sched_done. unfold wait_for. rewrite bind_assoc, bind_gets, Et. rewrite bind_assoc, (bind_core_scheduler me _ s sc Hsc).
      rewrite bind_assoc, (bind_done _ _ _ _ _ (on_wakeup_done _ t s tk _ _ _ Ht E)). done.
    + apply (respects_sleep me _ s _ bl rq _ ck None); [done| |done..]. unfold undisturbed, current_of. rewrite Hsc. simpl. congruence.
  - exists s, k. split; [|eexists _, _; split; [done|by apply respects_same, evolves_same]].
    apply on_sched_done. unfold wait_for. by rewrite bind_assoc, bind_gets, Et.
Qed.

Lemma finish_event me s rq bl k : sched_inv s rq bl -> runs s me = true -> keeps_ok s bl me Finish (run_event me Finish (s, k)).
Proof.
  intros HI (sc & ck & Hsc & Hck & Hst)%runs_facts. set (cur := current_task sc) in *.
  set (s1 := with_tasks (alter (set_status TaskFinished) cur) s).
  assert (sched_inv s1 rq bl) as HI1.
  { destruct HI as [HR HO]. split.
    - apply (ready_write [] [] s rq cur ck); try done. rewrite Hst. split; by intros [? _].
    - apply (other_restated (fun u st => if decide (u = cur) then TaskFinished else st) None s _ bl); try done.
      + apply (wait_status cur ck TaskFinished s); try done; [apply HO|congruence].
      + intros u. simpl. destruct (decide (u = cur)) as [->|];
          [rewrite lookup_alter_eq; by destruct (tasks s !! cur)|by rewrite lookup_alter_ne].
      + intros u tu E. destruct (decide (u = cur)) as [->|]; [|done]. rewrite Hck in E. injection E as <-. by rewrite Hst. }
  exists (with_counters (TID_COUNTER s) (add32 (NO_TASKS s) (-1)) (NEXT_CORE_ID s) s1), k.
  split; [|exists rq, bl; split; [by apply inv_counters|]].
  - apply on_sched_done. unfold end_current. rewrite (bind_core_scheduler me _ s sc Hsc).
    rewrite (bind_done (borrow_task _) _ s ck s) by (unfold borrow_task; fold cur; by rewrite Hck).
    rewrite bind_massert by (apply bool_decide_eq_true; congruence). done.
  - exists [cur]. split_and!; [| |done].
    + apply (evolves_trans _ _ s1); [|by apply evolves_same]. apply evolves_write. intros tu _ Hx. exfalso. apply Hx. left.
    + intros u Hu _ Hx%list_elem_of_singleton. apply Hu. unfold current_of. by rewrite Hsc, Hx.
Qed.

Lemma timer_event me s rq bl k : sched_inv s rq bl -> core_up s me = true -> keeps_ok s bl me TimerInterrupt (run_event me TimerInterrupt (s, k)).
Proof.
  intros HI (sc & Hsc)%core_up_facts. destruct (handle_waiting_inv me s rq bl sc HI Hsc) as (s' & E & HI' & _ & _ & Hev).
  exists s', k. split; [by apply on_sched_done|]. set (time := clock s (reads s)) in *.
  destruct (due_filter time _ (wo_sorted _ _ (oo_wait _ _ _ (proj2 HI)) (OfCore me))) as [Ed En].
  eexists _, _. split; [exact HI'|]. eexists. split_and!; [exact Hev|..].
  - intros u _. apply (settled_not_woken s rq bl (OfCore me)); [done| |].
    + intros v (e & -> & He)%list_elem_of_fmap. apply list_elem_of_fmap_2. rewrite <- (due_split time (bl (OfCore me))). set_solver.
    + intros c _ Hin (e & -> & He)%list_elem_of_fmap. rewrite Ed in He. apply list_elem_of_filter in He as [Hl He].
      pose proof (entry_unique s bl rq _ _ e HI Hin He eq_refl) as Heq. by rewrite <- Heq in Hl.
  - intros u c _ Hin. destruct (decide (c = me)) as [->|Hn]; [|by apply updl_keeps; [congruence|]].
    rewrite updl_eq, En. by apply list_elem_of_filter.
Qed.

Lemma wake_event me c t s rq bl k : sched_inv s rq bl -> core_up s c = true -> keeps_ok s bl me (Wake c t) (run_event me (Wake c t) (s, k)).
Proof.
  intros HI (sc & Hsc)%core_up_facts. destruct (custom_wakeup_inv me s rq bl c sc t HI Hsc) as (s' & rq' & bl' & E & HI' & Hc).
  exists s', k. split; [by apply on_sched_done|]. eexists _, _. split; [exact HI'|]. destruct (decide (t ∈ task <$> bl (OfCore c))) as [Hin|Hni].
  - destruct Hc as (a & e & b & Eb & <- & _ & -> & _ & _ & Hev). exists [task e]. split_and!; [done|set_solver|].
    intros u c' Hu Hin'. destruct (decide (c' = c)) as [->|Hn]; [|by apply updl_keeps; [congruence|]]. rewrite updl_eq.
    rewrite Eb in Hin'. apply elem_of_app in Hin' as [Hin'|[<-|Hin']%elem_of_cons]; [set_solver|done|set_solver].
  - destruct Hc as (-> & -> & ->). by apply respects_same, evolves_same.
Qed.

Lemma add_core_event me rsp0 ist0 s rq bl k :
  sched_inv s rq bl -> legal me (AddCore rsp0 ist0) s = true -> keeps_ok s bl me (AddCore rsp0 ist0) (run_event me (AddCore rsp0 ist0) (s, k)).
Proof.
  intros HI [[Hup%negb_true_iff%bool_decide_eq_false Hids%Z.ltb_lt]%andb_true_iff Hb]%andb_true_iff.
  unfold boot_stacks_ok in Hb. destruct (from_boot_stacks rsp0 ist0) as [st| |] eqn:Eb; [|done|done].
  destruct (add_core_spec me s rq bl rsp0 ist0 st HI) as (s' & E & HI' & Hev); [by apply eq_None_not_Some|done|done|].
  exists s', k. split; [by apply on_sched_done|]. eexists _, _. split; [exact HI'|by apply respects_same].
Qed.

(** The memory gives what a new task takes: its stacks, at addresses at which
    the first frame can be computed. *)
Definition room_for_stacks k : Prop :=
  exists st k', TaskStacks_new k = Done (st, k')
    /\ 0 <= TaskQueue.stack st /\ TaskQueue.stack st + DEFAULT_STACK_SIZE < W64
    /\ 0 <= TaskQueue.user_stack st /\ TaskQueue.user_stack st + DEFAULT_STACK_SIZE < W64.

(** Starting tasks keeps the invariant, unless there is no memory for them. *)
Definition keeps_or_fails s bl me (e : Event) k (o : outcome (unit * (Sched * K))) : Prop :=
  match o with Done (_, (s', _)) => keeps s bl me e s' | _ => ~ room_for_stacks k end.

Lemma room_for_frame st k k' tk : TaskStacks_new k = Done (st, k') -> stacks tk = st -> room_for_stacks k -> is_done (create_stack_frame_pointers tk).
Proof.
  intros Es Est (st' & k2 & E & H1 & H2 & H3 & H4). rewrite Es in E. injection E as <- <-. rewrite <- Est in *.
  unfold create_stack_frame_pointers, add64, sub64, checked. change DEFAULT_STACK_SIZE with 262144 in *.
  repeat (rewrite (proj2 (andb_true_iff _ _)) by (split; [apply Z.leb_le|apply Z.ltb_lt]; lia); cbn [obind]).
  by eexists.
Qed.

Lemma no_room st k k' tk o : TaskStacks_new k = Done (st, k') -> create_stack_frame_pointers tk = o -> stacks tk = st ->
  (forall tk', o <> Done tk') -> ~ room_for_stacks k.
Proof. intros Es <- Est Hn Hr. destruct (room_for_frame st k k' tk Es Est Hr) as [tk' E]. by apply (Hn tk'). Qed.

Lemma started_keeps me e s rq bl c t tk s' : started c t tk s s' rq bl -> keeps s bl me e s'.
Proof. intros HS. eexists _, bl. split; [apply HS|]. apply respects_same, HS. Qed.

Lemma spawn_event me c p s rq bl k :
  sched_inv s rq bl -> legal me (Spawn c p) s = true -> keeps_or_fails s bl me (Spawn c p) k (run_event me (Spawn c p) (s, k)).
Proof.
  intros HI [[(sc & Hsc)%core_up_facts Hids%Z.ltb_lt]%andb_true_iff [Hp1%Z.leb_le Hp2%Z.ltb_lt]%andb_true_iff]%andb_true_iff.
  pose proof (spawn_spec me s rq bl c sc p k HI Hsc (conj Hp1 Hp2) Hids) as HS. unfold run_event, keeps_or_fails, bind.
  destruct (TaskStacks_new k) as [[st k']| |] eqn:Es; [|rewrite HS; by intros (? & ? & ? & _); congruence..]. destruct HS as (tid & HS).
  destruct (create_stack_frame_pointers _) as [tk| |] eqn:Ef; [|rewrite HS; by eapply no_room; [exact Es|exact Ef|..]..].
  destruct HS as (t & s' & E & _ & HS). rewrite E. simpl. by eapply started_keeps.
Qed.

Lemma clone_event me s rq bl k :
  sched_inv s rq bl -> legal me Clone s = true -> keeps_or_fails s bl me Clone k (run_event me Clone (s, k)).
Proof.
  intros HI [[(msc & ck & Hmsc & Hck & Hst)%runs_facts (sc & Hsc)%core_up_facts]%andb_true_iff Hids%Z.ltb_lt]%andb_true_iff.
  pose proof (clone_spec me s rq bl msc ck sc k HI Hmsc Hck Hst Hsc Hids) as HS. unfold run_event, keeps_or_fails, bind.
  destruct (TaskStacks_new k) as [[st k']| |] eqn:Es; [|rewrite HS; by intros (? & ? & ? & _); congruence..]. destruct HS as (tid & HS).
  destruct (create_stack_frame_pointers _) as [tk| |] eqn:Ef; [|rewrite HS; by eapply no_room; [exact Es|exact Ef|..]..].
  destruct HS as (t & s' & E & _ & HS). rewrite E. simpl. by eapply started_keeps.
Qed.

(** Every event keeps the invariant and leaves alone the tasks it does not
    concern, and ends unless it takes memory that there is not. *)
Lemma event_keeps me e s rq bl k : sched_inv s rq bl -> legal me e s = true ->
  match run_event me e (s, k) with
  | Done (_, (s', _)) => keeps s bl me e s'
  | _ => takes_memory e = true /\ ~ room_for_stacks k
  end.
Proof.
  intros HI Hl. assert (keeps_ok s bl me e (run_event me e (s, k)) \/ (takes_memory e = true /\ keeps_or_fails s bl me e k (run_event me e (s, k))))
    as [(s' & k' & -> & H')|[Hm H']].
  { destruct e; [left; by eapply add_core_event|left; by eapply scheduler_event|left; by eapply sleep_event|left; by eapply wait_event
      |left; by eapply finish_event|left; by eapply timer_event|left; by eapply wake_event|right..];
      (split; [done|]); [by eapply spawn_event|by eapply clone_event]. }
  - done.
  - unfold keeps_or_fails in H'. by destruct (run_event me e (s, k)) as [[[] [s' k']]| |].
Qed.

Lemma event_ok me e s k : sys_ok s -> legal me e s = true ->
  match run_event me e (s, k) with Done (_, (s', _)) => sys_ok s' | _ => takes_memory e = true /\ ~ room_for_stacks k end.
Proof.
  intros (rq & bl & HI) Hl. pose proof (event_keeps me e s rq bl k HI Hl) as He.
  destruct (run_event me e (s, k)) as [[[] [s' k']]| |]; [|done..]. destruct He as (rq' & bl' & HI' & _). by eexists _, _.
Qed.

(** ** Runs of the system *)

(** One step of the system: a core does what it may, and it ends. *)
Inductive sys_step : Sched * K -> Sched * K -> Prop :=
  | sys_step_event me e s k s' k' :
      legal me e s = true -> run_event me e (s, k) = Done (tt, (s', k')) -> sys_step (s, k) (s', k').

Lemma steps_ok c c' : rtc sys_step c c' -> sys_ok c.1 -> sys_ok c'.1.
Proof.
  induction 1 as [c|c c1 c' Hs _ IH]; [done|]. intros Hok. apply IH. destruct Hs as [me e s k s' k' Hl E].
  pose proof (event_ok me e s k Hok Hl) as He. by rewrite E in He.
Qed.

(** A run: which core does what, in order, as far as it is legal. *)
Fixpoint run_events (evs : list (Z * Event)) : M (Sched * K) unit :=
  match evs with
  | [] => ret tt
  | (me, e) :: evs' =>
      let! s := gets fst in
      if legal me e s then run_event me e ;;; run_events evs' else run_events evs'
  end.

Lemma init_ok count times : (forall n, 0 <= times n /\ times n + TASK_TIME_SLICE < W64) -> sys_ok (Sched_init count times).
Proof.
  intros Ht. exists (fun _ _ => []), (fun _ => []). split.
  - split; simpl.
    + intros c sc Hc. by rewrite lookup_empty in Hc.
    + intros c i t [sc Hc]. by rewrite lookup_empty in Hc.
    + intros t tk E. by rewrite lookup_empty in E.
  - split; simpl; try done.
    split; simpl; try done.
    + intros [c|t] L; simpl; by rewrite lookup_empty.
    + intros loc. apply NoDup_nil_2.
    + intros loc loc' t Hx. by apply elem_of_nil in Hx.
    + intros t. split; [intros [loc Hx]; by apply elem_of_nil in Hx|]. intros (tk & E & _). by rewrite lookup_empty in E.
Qed.

Lemma run_steps evs : forall c c', run_events evs c = Done (tt, c') -> rtc sys_step c c'.
Proof.
  induction evs as [|[me e] evs IH]; intros [s k] c'; cbn [run_events]; [intros [= <-]; done|]. rewrite bind_gets. cbn [fst].
  destruct (legal me e s) eqn:Hl; [|by apply IH]. unfold bind. destruct (run_event me e (s, k)) as [[[] [s1 k1]]| |] eqn:E; [|done..].
  intros H'. eapply rtc_l; [by econstructor|]. by apply IH.
Qed.

End events.

(** ** What the scheduler guarantees *)

Section guarantees.

Context (me : Z).
Implicit Types (s : Sched) (bl : Loc -> list BlockedTask) (rq : Z -> nat -> list nat) (sc : PerCoreScheduler).

(** C7. The scheduler does what it is meant to, completely. In a state that satisfies
    the invariant, [scheduler] neither panics nor loops. It first releases the
    oldest finished task, if there is one: the task leaves the table of tasks and
    the list of finished ones, and every task that waits for its end is ready
    again, in its ready queue and in no queue of blocked tasks. What it then does
    depends on the state [s1] after this: it takes the task that [chosen] determines, which is
    the longest waiting one of the highest priority in use - where a running task
    gives way only to a higher priority or, at the end of its time slice, to its
    own - or the idle task when the current one cannot go on; it puts the
    running task behind the others of its priority; a task that has ended it
    marks as invalid and puts at the end of the list of finished tasks, to be
    released by a later run; it switches stacks unless the chosen task is the
    current one; and the invariant holds again. *)
Theorem scheduler_correct s rq bl sc :
  sched_inv s rq bl -> SCHEDULERS s !! me = Some sc ->
  exists s1 rq1 bl1 sc1 ck s',
    cleanup_tasks me s = Done (tt, s1) /\ sched_inv s1 rq1 bl1
    /\ match finished_tasks sc with
       | [] => s1 = s /\ rq1 = rq /\ bl1 = bl
       | tid :: _ => exists t, TASKS s !! tid = Some t /\ TASKS s1 = delete tid (TASKS s)
           /\ rq1 = enqueue (tasks s) (task <$> bl (OfTask t)) rq /\ bl1 = updl (OfTask t) [] bl
           /\ forall u, u ∈ task <$> bl (OfTask t) -> status <$> tasks s1 !! u = Some TaskReady
       end
    /\ finished_tasks sc1 = List.tl (finished_tasks sc)
    /\ SCHEDULERS s1 !! me = Some sc1 /\ current_task sc1 = current_task sc /\ tasks s1 !! current_task sc = Some ck
    /\ scheduler me s = Done (match chosen me s1 rq1 sc1 ck with
         | Some t => if decide (t = current_task sc) then None
                     else Some (mkSwitching (current_task sc) t (default 0 (last_stack_pointer <$> tasks s1 !! t)))
         | None => None
         end, s')
    /\ sched_inv s' (next_queues me s1 rq1 sc1 ck) bl1
    /\ current_of s' me = Some (default (current_task sc) (chosen me s1 rq1 sc1 ck))
    /\ finished_tasks <$> SCHEDULERS s' !! me
         = Some (finished_tasks sc1 ++ (if decide (status ck = TaskFinished) then [id ck] else []))
    /\ (status ck = TaskFinished -> status <$> tasks s' !! current_task sc = Some TaskInvalid).
Proof.
  intros HI Hsc. destruct (cleanup_inv me s rq bl sc HI Hsc) as (s1 & rq1 & bl1 & E1 & HI1 & Hc1 & sc1 & Hsc1 & Hcur & _ & Hf).
  destruct (oo_current _ _ _ (proj2 HI1) me sc1 Hsc1) as (ck & Hck & _).
  destruct (schedule_spec me s1 rq1 bl1 sc1 ck HI1 Hsc1 Hck) as (s2 & E2 & HI2 & Hc & _ & _ & _ & _ & _ & _ & _ & Hf2 & Hinv).
  rewrite Hcur in *. exists s1, rq1, bl1, sc1, ck, s2. split_and!; try done.
  - destruct (finished_tasks sc) as [|tid rest]; [done|]. destruct Hc1 as (t & H1 & H2 & H3 & H4 & H5 & _). by exists t.
  - unfold scheduler. by rewrite (bind_done _ _ _ _ _ E1).
  - rewrite Hf2. unfold ended_with. case_decide; [done|]. by rewrite app_nil_r.
Qed.

(** C21. The scheduler serves priorities: after every run of [scheduler] on a core the
    current task is marked as running or is the idle task, no task that is
    ready on this core has a higher priority than it, and the idle task only
    runs when no task is ready. *)
Theorem scheduler_serves_priority s :
  sys_ok s -> core_up s me = true ->
  exists r s' t tk, scheduler me s = Done (r, s') /\ sys_ok s'
    /\ current_of s' me = Some t /\ tasks s' !! t = Some tk
    /\ (status tk = TaskRunning \/ status tk = TaskIdle)
    /\ forall u tu, tasks s' !! u = Some tu -> status tu = TaskReady -> core_id tu = me ->
         prio tu <= prio tk /\ status tk <> TaskIdle.
Proof.
  intros (rq & bl & HI) (sc & Hsc)%core_up_facts.
  destruct (cleanup_inv me s rq bl sc HI Hsc) as (s1 & rq1 & bl1 & E1 & HI1 & _ & sc1 & Hsc1 & _).
  destruct (oo_current _ _ _ (proj2 HI1) me sc1 Hsc1) as (ck & Hck & _).
  destruct (schedule_spec me s1 rq1 bl1 sc1 ck HI1 Hsc1 Hck) as (s2 & E2 & HI2 & Hc & tk & tk' & Ht & Ht' & Hp & Hst & _).
  eexists _, s2, _, tk'. split_and!; [|by eexists _, _|exact Hc|exact Ht'|rewrite Hst; case_decide; [by right|by left]|].
  - unfold scheduler. by rewrite (bind_done _ _ _ _ _ E1).
  - intros u tu E S C. destruct (ro_legal _ _ _ (proj1 HI2) u tu E) as [Hpu Hup].
    assert (u ∈ next_queues me s1 rq1 sc1 ck me (Z.to_nat (prio tu))) as Hin.
    { apply (ro_mem _ _ _ (proj1 HI2)); [by rewrite <- C|]. exists tu. split_and!; [done|done|done|lia|set_solver]. }
    assert (Z.to_nat (prio tu) < NO_PRIORITIES)%nat as Hi by lia.
    destruct (next_queues_bound me s1 rq1 bl1 sc1 ck u _ HI1 Hsc1 Hck Hi Hin) as (tk2 & Ht2 & Hle & Hn).
    rewrite Ht in Ht2. injection Ht2 as <-. rewrite Hst, Hp. split; [lia|by rewrite decide_False].
Qed.

(** C13. The timer interrupt wakes exactly the tasks that are due: with [time] the
    time read, every task asleep on this core whose deadline is not after
    [time] becomes ready, all others stay blocked in their order, and the timer
    is set to the next deadline if tasks are left. *)
Theorem timer_wakes_due s rq bl :
  let time := clock s (reads s) in
  let left := filter (fun e => later time e = true) (bl (OfCore me)) in
  sched_inv s rq bl -> core_up s me = true ->
  exists s' rq', on_blocked me (handle_waiting_tasks me) s = Done (tt, s') /\ sched_inv s' rq' (updl (OfCore me) left bl)
    /\ (forall e, e ∈ bl (OfCore me) ->
          status <$> tasks s' !! task e = Some (if later time e then TaskBlocked else TaskReady))
    /\ timer s' = match left with [] => timer s | e :: _ => <[me := wakeup_time e]> (timer s) end.
Proof.
  intros time left HI (sc & Hsc)%core_up_facts. pose proof (oo_wait _ _ _ (proj2 HI)) as HW.
  destruct (handle_waiting_inv me s rq bl sc HI Hsc) as (s' & E & HI' & Ht & Hs & _). fold time in HI', Ht, Hs.
  destruct (due_filter time _ (wo_sorted _ _ HW (OfCore me))) as [Ed En]. rewrite En in *. fold left in HI', Ht.
  eexists s', _. split_and!; [done|exact HI'| |done].
  intros e He. assert (blocked_in (tasks s) (task e)) as (tk & Htk & Hst).
  { apply (wo_blocked s bl HW). exists (OfCore me). by apply list_elem_of_fmap_2. }
  rewrite (same_tasks_field status _ _ (task e) (fun _ => eq_refl) Hs), mark_lookup, Ed. destruct (later time e) eqn:El.
  - rewrite decide_False; [rewrite Htk; simpl; congruence|]. intros (e' & Heq & [Hl He']%list_elem_of_filter)%list_elem_of_fmap.
    pose proof (wo_nodup s bl HW (OfCore me)) as Hnd.
    assert (e = e') as ->; [|congruence].
    apply list_elem_of_lookup in He as [i Hi]. apply list_elem_of_lookup in He' as [j Hj].
    assert (i = j) as ->; [|congruence]. apply (NoDup_lookup _ _ _ (task e) Hnd); rewrite list_lookup_fmap, ?Hi, ?Hj; simpl; congruence.
  - rewrite decide_True; [by rewrite Htk|]. apply list_elem_of_fmap_2. by apply list_elem_of_filter.
Qed.

(** Waiting for a task to end is not in vain: when the scheduler releases the
    finished task [tid], every task that waits for it becomes ready, and the
    identifier is free again. *)
Theorem finished_task_wakes_joiners s rq bl sc tid rest :
  sched_inv s rq bl -> SCHEDULERS s !! me = Some sc -> finished_tasks sc = tid :: rest ->
  exists t s', TASKS s !! tid = Some t /\ cleanup_tasks me s = Done (tt, s') /\ sys_ok s' /\ TASKS s' !! tid = None
    /\ forall u, u ∈ task <$> bl (OfTask t) -> status <$> tasks s' !! u = Some TaskReady.
Proof.
  intros HI Hsc Hf. destruct (cleanup_inv me s rq bl sc HI Hsc) as (s1 & rq1 & bl1 & E1 & HI1 & Hc & _).
  rewrite Hf in Hc. destruct Hc as (t & Ht & HT & _ & _ & Hu & _). exists t, s1.
  split_and!; [done|done|by eexists _, _| |done]. by rewrite HT, lookup_delete_eq.
Qed.

(** Waking a task of another core reprograms the wrong timer. When core [me] wakes
    the first task of the queue of core [c] - as [Semaphore::release] and
    [RecursiveMutex::release] do - and another task follows, the deadline of that
    one goes to the timer of [me], which loses its own; the timer of [c] keeps the
    deadline of the task that was woken. *)
Theorem custom_wakeup_sets_timer_of_caller s rq bl c e e2 rest :
  sched_inv s rq bl -> core_up s c = true -> c <> me -> bl (OfCore c) = e :: e2 :: rest ->
  exists s', on_blocked c (custom_wakeup me (task e)) s = Done (tt, s')
    /\ timer s' !! me = Some (wakeup_time e2) /\ timer s' !! c = timer s !! c.
Proof.
  intros HI (sc & Hsc)%core_up_facts Hne Hb.
  destruct (custom_wakeup_inv me s rq bl c sc (task e) HI Hsc) as (s' & rq' & bl' & E & _ & Hc).
  exists s'. split; [done|]. rewrite decide_True in Hc; [|rewrite Hb, fmap_cons; left].
  destruct Hc as (a & e' & b & Eb & Et & _ & _ & Ht & _). rewrite Hb in Eb.
  pose proof (wo_nodup s bl (oo_wait _ _ _ (proj2 HI)) (OfCore c)) as Hnd. rewrite Hb in Hnd.
  destruct a as [|x a].
  - injection Eb as -> <-. rewrite Ht, lookup_insert_eq. by rewrite lookup_insert_ne.
  - exfalso. injection Eb as <- Eb. rewrite !fmap_cons in Hnd. apply NoDup_cons in Hnd as [Hn _]. apply Hn.
    rewrite <- fmap_cons, Eb, fmap_app, fmap_cons, Et. set_solver.
Qed.

(** The registers that task [t] of core [me] works with, or will find again. *)
Definition registers s (t : nat) : option FPUState :=
  if bool_decide (fpu_owner <$> SCHEDULERS s !! me = Some t) then fpu s !! me else last_fpu_state <$> tasks s !! t.

(** Switching the FPU lazily is transparent: [fpu_switch] makes the current
    task the owner of the registers of its core, which then hold what this task
    left in them, and changes the registers of no task, except for those of an
    owner that has ended. *)
Theorem lazy_fpu_transparent s sc owner regs :
  SCHEDULERS s !! me = Some sc -> tasks s !! fpu_owner sc = Some owner -> is_Some (tasks s !! current_task sc) ->
  fpu s !! me = Some regs ->
  exists s', fpu_switch me s = Done (tt, s')
    /\ fpu_owner <$> SCHEDULERS s' !! me = Some (current_task sc) /\ fpu s' !! me = registers s (current_task sc)
    /\ forall t, t <> fpu_owner sc \/ (status owner <> TaskInvalid /\ status owner <> TaskFinished) ->
         registers s' t = registers s t.
Proof.
  intros Hsc Hown [ck Hck] Hregs. unfold fpu_switch. rewrite (bind_core_scheduler me _ s sc Hsc).
  destruct (Nat.eqb_spec (current_task sc) (fpu_owner sc)) as [Heq|Hne].
  { exists s. unfold registers. rewrite Hsc, Heq. split_and!; [done|done|by rewrite bool_decide_eq_true_2|done]. }
  rewrite (bind_done (borrow_task _) _ s owner s) by (unfold borrow_task; by rewrite Hown).
  set (f := if bool_decide (status owner <> TaskInvalid /\ status owner <> TaskFinished) then set_fpu regs else (fun tk => tk)).
  rewrite (bind_done _ _ s tt (with_tasks (alter f (fpu_owner sc)) s)); cycle 1.
  { unfold f. destruct (bool_decide _).
    - rewrite bind_gets. change (write_task (fpu_owner sc) (set_fpu (default [] (fpu s !! me))) s = Done (tt, with_tasks (alter (set_fpu regs) (fpu_owner sc)) s)). assert (default [] (fpu s !! me) = regs) as Hd by exact (f_equal (default []) Hregs). by rewrite Hd.
    - unfold ret. f_equal. f_equal. symmetry. by apply with_tasks_same, (alter_same _ _ _ owner). }
  rewrite (bind_done (borrow_task _) _ _ ck (with_tasks (alter f (fpu_owner sc)) s)); cycle 1.
  { unfold borrow_task. simpl. by rewrite lookup_alter_ne, Hck by done. }
  rewrite bind_modify. eexists. split; [reflexivity|]. unfold registers. simpl. rewrite lookup_alter_eq, Hsc. simpl.
  rewrite lookup_insert_eq. split_and!; [done| |].
  - rewrite bool_decide_eq_false_2 by congruence. by rewrite Hck.
  - intros t Ht. destruct (decide (t = current_task sc)) as [->|Hn].
    + rewrite bool_decide_eq_true_2 by done. rewrite bool_decide_eq_false_2 by congruence. by rewrite Hck.
    + rewrite bool_decide_eq_false_2 by congruence. destruct (decide (t = fpu_owner sc)) as [->|Hn2].
      * rewrite bool_decide_eq_true_2 by done. rewrite lookup_alter_eq, Hown, Hregs. simpl. unfold f.
        destruct Ht as [|Ht]; [done|]. by rewrite bool_decide_eq_true_2.
      * rewrite bool_decide_eq_false_2 by congruence. by rewrite lookup_alter_ne.
Qed.

End guarantees.

(** Where the invariant says a task is. *)
Definition in_place (s : Sched) (rq : Z -> nat -> list nat) (bl : Loc -> list BlockedTask) (t : nat) (tk : Task) : Prop :=
  match status tk with
  | TaskReady => t ∈ rq (core_id tk) (Z.to_nat (prio tk))
  | TaskBlocked => exists loc, t ∈ task <$> bl loc
  | TaskRunning => current_of s (core_id tk) = Some t
  | TaskIdle => idle_task <$> SCHEDULERS s !! core_id tk = Some t
  | TaskFinished | TaskInvalid => True
  end.

(** The queues of the state, as lists: [rq c i] of ready tasks, [bl loc] of
    blocked ones. *)
Definition queues_are (s : Sched) (rq : Z -> nat -> list nat) (bl : Loc -> list BlockedTask) : Prop :=
  (forall c sc, SCHEDULERS s !! c = Some sc -> pq_repr (tasks s, ready_queue (state sc)) (rq c))
  /\ (forall loc L, queue_at s loc = Some L -> list_repr L (bl loc)).

Section runs.

Context {K : Type} `{KernelMemory K}.

(** C1. No task is lost and none is in two places. Take any state that the cores
    lead to from the start of the system on, by steps in any order: they come up,
    schedule, create tasks, block, wake and end them, and take timer interrupts,
    each step one that [legal] allows - the cores it names are up (a core comes up
    once), only a running task sleeps, waits, ends or clones itself, it does not
    wait for itself, the priority of a new task exists and an identifier is left.
    There, each task is where its status says: a ready one waits in the queue of
    its core and priority, a blocked one in a queue of blocked tasks, a running
    one is the current task of its core, and the idle task of each core is its
    own; conversely the queues hold only such tasks, each of them once. And
    whatever legal step a core takes next, it ends: it neither panics nor loops,
    but for the creation of a task when the memory has no room for its stacks. *)
Theorem no_task_lost count times (k : K) s k' :
  (forall n, 0 <= times n /\ times n + TASK_TIME_SLICE < W64) ->
  rtc sys_step (Sched_init count times, k) (s, k') ->
  (exists rq bl, queues_are s rq bl
     /\ (forall t tk, tasks s !! t = Some tk -> in_place s rq bl t tk)
     /\ (forall c i t, core_up s c = true -> t ∈ rq c i ->
           exists tk, tasks s !! t = Some tk /\ status tk = TaskReady /\ core_id tk = c /\ prio tk = Z.of_nat i)
     /\ (forall loc t, t ∈ task <$> bl loc -> exists tk, tasks s !! t = Some tk /\ status tk = TaskBlocked)
     /\ (forall loc, NoDup (task <$> bl loc))
     /\ (forall loc loc' t, t ∈ task <$> bl loc -> t ∈ task <$> bl loc' -> loc = loc'))
  /\ (forall me e, legal me e s = true -> (takes_memory e = true -> room_for_stacks k') ->
        exists c, run_event me e (s, k') = Done (tt, c)).
Proof.
  intros Ht Hr. pose proof (steps_ok _ _ Hr (init_ok count times Ht)) as Hok. split; cycle 1.
  { intros me e Hl Hm. pose proof (event_ok me e s k' Hok Hl) as He.
    destruct (run_event me e (s, k')) as [[[] c]| |]; [by eexists| |]; destruct He as [He Hno]; by destruct (Hno (Hm He)). }
  cbn [fst] in Hok. destruct Hok as (rq & bl & HR & HO). pose proof (oo_wait _ _ _ HO) as HW. exists rq, bl. split_and!.
  - split; [apply (ro_repr _ _ _ HR)|apply (wo_repr _ _ HW)].
  - intros t tk E. destruct (ro_legal _ _ _ HR t tk E) as [Hp [sc Hsc]]. unfold in_place, current_of. rewrite Hsc.
    destruct (status tk) eqn:Hst; try done.
    + apply (ro_mem _ _ _ HR); [by eexists|]. exists tk. split_and!; [done|done|done|lia|set_solver].
    + simpl. f_equal. by apply (oo_running _ _ _ HO t tk sc).
    + apply (wo_blocked _ _ HW). by exists tk.
    + simpl. f_equal. symmetry. by apply (oo_idle _ _ _ HO t tk sc).
  - intros c i t Hc Hin. apply bool_decide_eq_true in Hc. apply (ro_mem _ _ _ HR) in Hin as (tk & E & S & C & P & _); [|done]. by exists tk.
  - intros loc t Hin. apply (wo_blocked _ _ HW t). by exists loc.
  - apply HW.
  - apply HW.
Qed.

End runs.

(** ** A concrete run *)

(** The tasks in a queue, read off its links. *)
Fixpoint queue_values (fuel : nat) (current : option nat) (L : BlockedTaskQueue) : list BlockedTask :=
  match fuel, current with
  | S fuel', Some i =>
      match mem L !! i with Some n => value n :: queue_values fuel' (next n) L | None => [] end
  | _, _ => []
  end.

Lemma queue_values_seg L l : forall fuel p, seg (mem L) p l None -> (length l < fuel)%nat ->
  queue_values fuel (first l None) L = l.*2.
Proof.
  induction l as [|[i v] l IH]; intros [|fuel] p Hs Hf; try done; [simpl in Hf; lia|].
  destruct Hs as [(nd & E & Hv & _ & Hn) Hs]. simpl. rewrite E. f_equal; [exact Hv|].
  change (next nd = first l None) in Hn. rewrite Hn. apply (IH fuel (Some i)); [done|]. simpl in Hf. lia.
Qed.

Lemma blocked_values s rq bl loc L : sched_inv s rq bl -> queue_at s loc = Some L ->
  bl loc = queue_values (S (S (next_rc L))) (head L) L.
Proof.
  intros HI Hq. destruct (queue_facts s rq bl loc L HI Hq) as (l & HL & <- & Hf & _).
  rewrite (repr_head _ _ HL). symmetry. by apply (queue_values_seg L l _ None); [apply HL|].
Qed.

(** Memory for the stacks: every block lies behind the last one. *)
Definition sample_memory : KernelMemory Z := {|
  km_allocate _ size _ := fun next => Done (next, next + size);
  km_deallocate _ _ := ret tt
|}.
#[local] Existing Instance sample_memory.

Definition room_for_stacksb (k : Z) : bool :=
  match TaskStacks_new k with
  | Done (st, _) => (0 <=? TaskQueue.stack st) && (TaskQueue.stack st + DEFAULT_STACK_SIZE <? W64)
      && ((0 <=? TaskQueue.user_stack st) && (TaskQueue.user_stack st + DEFAULT_STACK_SIZE <? W64))
  | _ => false
  end.
Lemma room_for_stacks_decided k : room_for_stacksb k = true -> room_for_stacks k.
Proof.
  unfold room_for_stacksb, room_for_stacks. destruct (TaskStacks_new k) as [[st k']| |]; [|done..].
  intros [[H1%Z.leb_le H2%Z.ltb_lt]%andb_true_iff [H3%Z.leb_le H4%Z.ltb_lt]%andb_true_iff]%andb_true_iff. by exists st, k'.
Qed.

Definition sample_clock (n : nat) : Z := Z.of_nat n mod 10 * 100.
Definition sample_run (evs : list (Z * Event)) : Sched :=
  match run_events evs (Sched_init 2 sample_clock, 0x800000) with
  | Done (_, (s, _)) => s
  | _ => Sched_init 2 sample_clock
  end.

Lemma sample_clock_ok n : 0 <= sample_clock n /\ sample_clock n + TASK_TIME_SLICE < W64.
Proof. unfold sample_clock. pose proof (Z.mod_pos_bound (Z.of_nat n) 10 ltac:(lia)). unfold TASK_TIME_SLICE, W64. lia. Qed.

Lemma sample_run_ok evs : sys_ok (sample_run evs).
Proof.
  unfold sample_run. destruct (run_events evs (Sched_init 2 sample_clock, 0x800000)) as [[[] [s k]]| |] eqn:E; [|apply init_ok, sample_clock_ok..].
  exact (steps_ok _ _ (run_steps _ _ _ E) (init_ok 2 sample_clock sample_clock_ok)).
Qed.

#[local] Opaque sample_run.

(** The value and the state that a computation ends with. *)
Definition value_of {A} (o : outcome (A * Sched)) : option A := match o with Done (a, _) => Some a | _ => None end.
Definition state_of {A} (o : outcome (A * Sched)) : Sched := match o with Done (_, s) => s | _ => Sched_init 0 sample_clock end.
Definition status_of (s : Sched) (t : nat) : option TaskStatus := status <$> tasks s !! t.
Definition switch_of (r : option (option Switching)) : option (nat * nat) :=
  match r with Some (Some sw) => Some (sw_from sw, sw_to sw) | _ => None end.

(** Two tasks on core 0, of which the first, task 2, is asleep until 500 when the
    scheduler is to run; on core 1, tasks 4 and 5 sleep until 300 and 400. *)
Definition sample_asleep : list (Z * Event) :=
  [(0, AddCore 0x100000 0x200000); (1, AddCore 0x300000 0x400000);
   (0, Spawn 0 2); (0, Spawn 0 2); (1, Spawn 1 2); (1, Spawn 1 2);
   (1, Schedule); (1, Sleep (Some 300)); (1, Schedule); (1, Sleep (Some 400)); (1, Schedule);
   (0, Schedule); (0, Sleep (Some 500))].

(** Then task 3 runs, which core 0 switches to. *)
Lemma scheduler_correct_witness :
  (exists r s', scheduler 0 (sample_run sample_asleep) = Done (r, s'))
  /\ switch_of (value_of (scheduler 0 (sample_run sample_asleep))) = Some (2, 3)%nat.
Proof.
  split; [|vm_compute; reflexivity]. destruct (sample_run_ok sample_asleep) as (rq & bl & HI).
  destruct (core_up_facts (sample_run sample_asleep) 0) as (sc & Hsc); [vm_compute; reflexivity|].
  destruct (scheduler_correct 0 _ rq bl sc HI Hsc) as (s1 & rq1 & bl1 & sc1 & ck & s' & _ & _ & _ & _ & _ & _ & _ & E & _).
  eexists _, s'. exact E.
Defined.

(** In the same situation task 3 is the one of highest priority. *)
Lemma scheduler_serves_priority_witness :
  exists r s' t tk, scheduler 0 (sample_run sample_asleep) = Done (r, s') /\ sys_ok s'
    /\ current_of s' 0 = Some t /\ tasks s' !! t = Some tk
    /\ (status tk = TaskRunning \/ status tk = TaskIdle)
    /\ forall u tu, tasks s' !! u = Some tu -> status tu = TaskReady -> core_id tu = 0 ->
         prio tu <= prio tk /\ status tk <> TaskIdle.
Proof. apply (scheduler_serves_priority 0); [apply sample_run_ok|vm_compute; reflexivity]. Defined.

(** At time 300 the timer interrupt of core 1 wakes task 4 and not task 5. *)
Lemma timer_wakes_due_witness :
  let s := with_reads 3 (sample_run sample_asleep) in
  (exists s' rq bl, on_blocked 1 (handle_waiting_tasks 1) s = Done (tt, s') /\ sched_inv s' rq bl)
  /\ (let s' := state_of (on_blocked 1 (handle_waiting_tasks 1) s) in (status_of s' 4, status_of s' 5, timer s' !! 1))
     = (Some TaskReady, Some TaskBlocked, Some (Some 400)).
Proof.
  split; [|vm_compute; reflexivity]. destruct (sample_run_ok sample_asleep) as (rq & bl & HI).
  apply (inv_reads 3) in HI. destruct (timer_wakes_due 1 _ rq bl HI) as (s' & rq' & E & HI' & _); [vm_compute; reflexivity|].
  exists s', rq'. eexists. split; [exact E|exact HI'].
Defined.

(** Core 0 wakes task 4: its own timer, set to 500, becomes 400. *)
Lemma custom_wakeup_sets_timer_of_caller_witness :
  let s := sample_run sample_asleep in
  timer s !! 0 = Some (Some 500) /\ timer s !! 1 = Some (Some 300)
  /\ exists s', on_blocked 1 (custom_wakeup 0 4) s = Done (tt, s')
       /\ timer s' !! 0 = Some (Some 400) /\ timer s' !! 1 = timer s !! 1.
Proof.
  split; [vm_compute; reflexivity|]. split; [vm_compute; reflexivity|].
  destruct (sample_run_ok sample_asleep) as (rq & bl & HI).
  destruct (core_up_facts (sample_run sample_asleep) 1) as (sc & Hsc); [vm_compute; reflexivity|].
  assert (queue_at (sample_run sample_asleep) (OfCore 1) = Some (blocked_tasks sc)) as Hq by (simpl; by rewrite Hsc).
  pose proof (blocked_values _ rq bl (OfCore 1) _ HI Hq) as Hb.
  apply (custom_wakeup_sets_timer_of_caller 0 _ rq bl 1 (mkBlocked 4 (Some 300)) (mkBlocked 5 (Some 400)) [] HI);
    [vm_compute; reflexivity|done|].
  rewrite Hb. replace sc with (default sc (SCHEDULERS (sample_run sample_asleep) !! 1)) by (by rewrite Hsc).
  vm_compute. reflexivity.
Defined.

(** Task 1 has joined task 2, which has ended. *)
Definition sample_joined : list (Z * Event) :=
  [(0, AddCore 0x100000 0x200000); (0, Spawn 0 2); (0, Spawn 0 2); (0, Schedule);
   (0, WaitFor 2); (0, Schedule); (0, Finish); (0, Schedule)].

Lemma finished_task_wakes_joiners_witness :
  let s := sample_run sample_joined in
  (exists t s', TASKS s !! 2 = Some t /\ cleanup_tasks 0 s = Done (tt, s') /\ sys_ok s')
  /\ (status_of s 1, status_of (state_of (cleanup_tasks 0 s)) 1) = (Some TaskBlocked, Some TaskReady).
Proof.
  split; [|vm_compute; reflexivity]. destruct (sample_run_ok sample_joined) as (rq & bl & HI).
  destruct (core_up_facts (sample_run sample_joined) 0) as (sc & Hsc); [vm_compute; reflexivity|].
  assert (finished_tasks sc = [2]) as Hf.
  { replace sc with (default sc (SCHEDULERS (sample_run sample_joined) !! 0)) by (by rewrite Hsc). vm_compute. reflexivity. }
  destruct (finished_task_wakes_joiners 0 _ rq bl sc 2 [] HI Hsc Hf) as (t & s' & Ht & E & Hok & _).
  exists t, s'. split; [exact Ht|]. split; [exact E|exact Hok].
Defined.

Lemma SCHEDULERS_with_fpu f s : SCHEDULERS (with_fpu f s) = SCHEDULERS s.
Proof. reflexivity. Qed.
Lemma tasks_with_fpu f s : tasks (with_fpu f s) = tasks s.
Proof. reflexivity. Qed.
Lemma fpu_with_fpu f s : fpu (with_fpu f s) = f (fpu s).
Proof. reflexivity. Qed.

(** Task 2 uses the FPU for the first time, which the idle task has used. *)
Lemma lazy_fpu_transparent_witness :
  let s := with_fpu <[0 := [1; 2; 3]]> (sample_run sample_asleep) in
  (exists s', fpu_switch 0 s = Done (tt, s') /\ fpu s' !! 0 = registers 0 s 2 /\ registers 0 s' 0 = registers 0 s 0)
  /\ registers 0 s 0 = Some [1; 2; 3].
Proof.
  split; [|vm_compute; reflexivity].
  destruct (core_up_facts (sample_run sample_asleep) 0) as (sc & Hsc); [vm_compute; reflexivity|].
  assert (fpu_owner sc = 0%nat /\ current_task sc = 2%nat) as [Ho Hc].
  { replace sc with (default sc (SCHEDULERS (sample_run sample_asleep) !! 0)) by (by rewrite Hsc). vm_compute. by split. }
  assert (exists owner, tasks (sample_run sample_asleep) !! 0%nat = Some owner /\ status owner = TaskIdle) as (owner & Eo & So).
  { vm_compute. eexists. split; reflexivity. }
  destruct (lazy_fpu_transparent 0 (with_fpu <[0 := [1; 2; 3]]> (sample_run sample_asleep)) sc owner [1; 2; 3]) as (s' & E & _ & H1 & H2).
  - rewrite SCHEDULERS_with_fpu. exact Hsc.
  - rewrite tasks_with_fpu, Ho. exact Eo.
  - rewrite tasks_with_fpu, Hc. apply (bool_decide_unpack _). vm_compute. exact I.
  - rewrite fpu_with_fpu. apply lookup_insert_eq.
  - exists s'. rewrite Hc in H1. split; [exact E|]. split; [exact H1|]. apply H2. right. rewrite So. split; discriminate.
Defined.

(** The run of [sample_joined] ends; in its last state every task is in its place
    and the next run of the scheduler ends as well. *)
Lemma no_task_lost_witness :
  (forall n, 0 <= sample_clock n /\ sample_clock n + TASK_TIME_SLICE < W64)
  /\ match run_events sample_joined (Sched_init 2 sample_clock, 0x800000) with
     | Done (_, (s, k)) =>
         (exists rq bl, queues_are s rq bl /\ forall t tk, tasks s !! t = Some tk -> in_place s rq bl t tk)
         /\ (exists c, run_event 0 Schedule (s, k) = Done (tt, c)) /\ (exists c, run_event 1 (Spawn 0 3) (s, k) = Done (tt, c))
     | _ => False
     end.
Proof.
  split; [apply sample_clock_ok|].
  assert (is_done (run_events sample_joined (Sched_init 2 sample_clock, 0x800000))) as [[[] [s k]] E].
  { vm_compute. eexists. reflexivity. }
  assert (legal 0 Schedule s = true /\ legal 1 (Spawn 0 3) s = true /\ room_for_stacks k) as (L1 & L2 & L3).
  { assert (forall P : Sched * Z -> Prop, match run_events sample_joined (Sched_init 2 sample_clock, 0x800000) with
      Done (_, c) => P c | _ => True end -> P (s, k)) as HP by (intros P; by rewrite E).
    destruct (room_for_stacksb k) eqn:Hb; cycle 1.
    { exfalso. apply diff_true_false. rewrite <- Hb. apply (HP (fun c => true = room_for_stacksb c.2)). vm_compute. reflexivity. }
    split; [apply (HP (fun c => legal 0 Schedule c.1 = true)); vm_compute; reflexivity|].
    split; [apply (HP (fun c => legal 1 (Spawn 0 3) c.1 = true)); vm_compute; reflexivity|].
    by apply room_for_stacks_decided. }
  rewrite E.
  destruct (no_task_lost 2 sample_clock 0x800000 s k sample_clock_ok (run_steps _ _ _ E)) as [(rq & bl & H1 & H2 & _) H3].
  split; [exists rq, bl; split; [exact H1|exact H2]|]. split.
  - apply (H3 0 Schedule L1). discriminate.
  - apply (H3 1 (Spawn 0 3) L2). intros _. exact L3.
Defined.
