(* ===== verification/WaitQueue.v ===== *)
(** * Queues that tasks wait in: what semaphores, mutexes and condition
    variables share

    Each of them has a [PriorityTaskQueue] of the tasks that wait for it, which
    are blocked in the queue of their core as well. A task has one pair of links
    for all priority queues: it is in a ready queue or in one of these. *)

From stdpp Require Import base numbers list gmap.
From Stdlib Require Import ZArith Lia.
From S2P Require Import Prelude Links Mm Collections TaskQueue Tasks Scheduler Ready Waiting Scheduling Dispatch Tasking Cores.

#[local] Open Scope Z_scope.

(** ** Operations *)

Section operations.

(** The core that executes the operations. *)
Context (me : Z).

(** A locked queue of waiting tasks, and the rest of the state. *)
Definition WQS : Type := (PriorityTaskQueue * Sched)%type.

Definition on_waiters {A} (m : M TQ A) : M WQS A := fun s =>
  let? r := m (tasks s.2, s.1) in Done (r.1, (r.2.2, with_tasks (fun _ => r.2.1) s.2)).
Definition on_scheduler {A} (m : M Sched A) : M WQS A := fun s =>
  let? r := m s.2 in Done (r.1, (s.1, r.2)).

(** To wait is two steps: the current task is blocked, and added to the queue
    of blocked tasks of its core; then it is put into the queue it waits in. *)
Definition block_in (wakeup_time : option Z) : M WQS nat :=
  let! c := on_scheduler (core_scheduler me) in
  on_scheduler (block_current me wakeup_time) ;;;
  ret (current_task c).
Definition enqueue_in (t : nat) : M WQS unit := on_waiters (pq_push t).

(** Both in one go. Only the lock of a semaphore, which masks interrupts, makes
    this one step for everybody else. A recursive mutex has a lock that leaves
    interrupts enabled, and a condition variable has none: for these it is one
    step as long as no interrupt and no other core comes in between. *)
Definition wait_in (wakeup_time : option Z) : M WQS unit :=
  let! t := block_in wakeup_time in enqueue_in t.

(** Wake up a task that has been waiting, if there is one. *)
Definition wake_next : M WQS (option nat) :=
  let! next := on_waiters pq_pop in
  match next with
  | Some task =>
      on_scheduler (let! borrowed := borrow_task task in on_blocked (core_id borrowed) (custom_wakeup me task)) ;;;
      ret (Some task)
  | None => ret None
  end.

End operations.

(** ** Links of tasks that are not ready *)

Section links.

Implicit Types (s : Sched) (bl : Loc -> list BlockedTask) (rq W : Z -> nat -> list nat) (t : nat).

Lemma ready_links s st' rq :
  ready_ok [] s rq -> same_tasks (tasks s) st' ->
  (forall u tk, tasks s !! u = Some tk -> status tk = TaskReady -> view <$> st' !! u = view <$> tasks s !! u) ->
  ready_ok [] (with_tasks (fun _ => st') s) rq.
Proof.
  intros [R1 R2 R3] Hs Hv.
  assert (forall u, (fun tk => (status tk, core_id tk, prio tk)) <$> st' !! u = (fun tk => (status tk, core_id tk, prio tk)) <$> tasks s !! u) as Hf
    by (intros u; by apply same_tasks_field).
  split; simpl.
  - intros c sc Hc. apply (pq_repr_view (tasks s)); [|by apply R1].
    intros i u Hu. apply (R2 c i u) in Hu as (tk & E & S & _); [by apply (Hv u tk)|by eexists].
  - intros c i u Hc. rewrite (R2 c i u Hc). specialize (Hf u).
    destruct (st' !! u) as [tk'|], (tasks s !! u) as [tk|]; try done; [].
    simpl in Hf. injection Hf as F1 F2 F3. split; intros (? & [= <-] & S & C & P & HX); eexists; (split; [done|]); split_and!; congruence || done.
  - intros u tk' E. specialize (Hf u). rewrite E in Hf. destruct (tasks s !! u) as [tk|] eqn:E0; [|done].
    simpl in Hf. injection Hf as F1 F2 F3. unfold legal_task. simpl. rewrite F2, F3. by apply (R3 u).
Qed.

Lemma sched_links s st' rq bl :
  sched_inv s rq bl -> same_tasks (tasks s) st' ->
  (forall u tk, tasks s !! u = Some tk -> status tk = TaskReady -> view <$> st' !! u = view <$> tasks s !! u) ->
  sched_inv (with_tasks (fun _ => st') s) rq bl.
Proof. intros [HR HO] Hs Hv. split; [by apply ready_links|by apply (other_frame None s)]. Qed.

(** ** The invariant of the queues

    [Q] are the queues, by the identity of what they belong to. The tasks in
    them sleep without a deadline, each in one of them, once. *)
Record waiters_ok s bl (Q : gmap Z PriorityTaskQueue) W : Prop := {
  wq_repr : forall o q, Q !! o = Some q -> pq_repr (tasks s, q) (W o);
  wq_none : forall o i, Q !! o = None -> W o i = [];
  wq_member : forall o i u, u ∈ W o i -> exists tk, tasks s !! u = Some tk /\ mkBlocked u None ∈ bl (OfCore (core_id tk));
  wq_once : forall o o' i j u, u ∈ W o i -> u ∈ W o' j -> o = o'
}.

Lemma waiter_facts s bl rq Q W o i u : sched_inv s rq bl -> waiters_ok s bl Q W -> u ∈ W o i ->
  exists tk sc, tasks s !! u = Some tk /\ status tk = TaskBlocked /\ prio tk = Z.of_nat i /\ (i < NO_PRIORITIES)%nat
    /\ SCHEDULERS s !! core_id tk = Some sc /\ mkBlocked u None ∈ bl (OfCore (core_id tk)).
Proof.
  intros [HR HO] [W1 W2 W3 W4] Hu. destruct (W3 o i u Hu) as (tk & E & Hb).
  destruct (Q !! o) as [q|] eqn:Eq; [|rewrite (W2 o i Eq) in Hu; by apply elem_of_nil in Hu].
  destruct (pr_prio _ _ (W1 o q Eq) i u Hu) as (Hi & tk' & E' & P). simpl in E'. rewrite E in E'. injection E' as <-.
  destruct (proj1 (wo_blocked _ _ (oo_wait _ _ _ HO) u)) as (tk' & E' & S).
  { exists (OfCore (core_id tk)). by apply (list_elem_of_fmap_2 task _ (mkBlocked u None)). }
  rewrite E in E'. injection E' as <-. destruct (ro_legal _ _ _ HR u tk E) as [_ [sc Hsc]]. by exists tk, sc.
Qed.

Lemma waiter_asleep s bl Q W o i u : waiters_ok s bl Q W -> u ∈ W o i -> asleep bl u.
Proof. intros [_ _ W3 _] (tk & _ & Hb)%W3. by eexists. Qed.

(** A step that moves none of the waiting tasks. *)
Lemma waiters_frame s s' bl bl' Q W X :
  waiters_ok s bl Q W -> evolves X s s' -> (forall o i u, u ∈ W o i -> u ∉ X) ->
  (forall o i u, u ∈ W o i -> blocked_in (tasks s) u) ->
  (forall o i u c, u ∈ W o i -> mkBlocked u None ∈ bl (OfCore c) -> mkBlocked u None ∈ bl' (OfCore c)) ->
  waiters_ok s' bl' Q W.
Proof.
  intros [W1 W2 W3 W4] Hev HX Hbk Hbl.
  assert (forall o i u, u ∈ W o i -> exists tk tk', tasks s !! u = Some tk /\ tasks s' !! u = Some tk' /\ kept tk' = kept tk) as Hk.
  { intros o i u Hu. destruct (Hbk o i u Hu) as (tk & E & S). destruct (Hev u tk E (HX o i u Hu)) as (tk' & E' & B & _).
    exists tk, tk'. split_and!; [done|done|by apply B]. }
  split; try done.
  - intros o q Eq. apply (pq_repr_view (tasks s)); [|by apply W1]. intros i u Hu.
    destruct (Hk o i u Hu) as (tk & tk' & -> & -> & Hkk). unfold kept in Hkk. simpl. congruence.
  - intros o i u Hu. destruct (Hk o i u Hu) as (tk & tk' & E & E' & Hkk). destruct (W3 o i u Hu) as (tk2 & E2 & Hb).
    rewrite E in E2. injection E2 as <-. exists tk'. split; [done|]. apply (Hbl o i u); [done|].
    unfold kept in Hkk. by replace (core_id tk') with (core_id tk) by congruence.
Qed.

Lemma waiters_event me e s s' bl bl' rq Q W :
  sched_inv s rq bl -> waiters_ok s bl Q W -> respects me e s s' bl bl' ->
  (forall o i u, u ∈ W o i -> undisturbed me e s u) -> waiters_ok s' bl' Q W.
Proof.
  intros HI HW (X & Hev & HX & Hbl) Hu. apply (waiters_frame s s' bl bl' Q W X); try done.
  - intros o i u Hin. apply HX; [by eapply Hu|]. left. by eapply waiter_asleep.
  - intros o i u Hin. destruct (waiter_facts s bl rq Q W o i u HI HW Hin) as (tk & sc & E & S & _). by exists tk.
  - intros o i u c Hin. by apply Hbl, (Hu o i).
Qed.

(** One queue changes: its list of priority [i] becomes [l]. *)
Lemma waiters_update s st' bl Q W o i l q q' :
  waiters_ok s bl Q W -> Q !! o = Some q -> same_tasks (tasks s) st' -> pq_repr (st', q') (upd i l (W o)) ->
  (forall o' j u, o' <> o -> u ∈ W o' j -> st' !! u = tasks s !! u) ->
  (forall u, u ∈ l -> u ∈ W o i \/ ((forall o' j, u ∉ W o' j)
     /\ exists tk, tasks s !! u = Some tk /\ mkBlocked u None ∈ bl (OfCore (core_id tk)))) ->
  waiters_ok (with_tasks (fun _ => st') s) bl (<[o := q']> Q) (updq o i l W).
Proof.
  intros [W1 W2 W3 W4] Eq Hs HR Hfr Hl.
  assert (forall o' j u, u ∈ updq o i l W o' j -> u ∈ W o' j \/ (o' = o /\ (forall o' j, u ∉ W o' j)
    /\ exists tk, tasks s !! u = Some tk /\ mkBlocked u None ∈ bl (OfCore (core_id tk)))) as Hin.
  { intros o' j u. destruct (decide (o' = o)) as [->|Hn]; [rewrite updq_eq|rewrite updq_ne by done; by left].
    destruct (decide (j = i)) as [->|Hn]; [rewrite upd_eq|rewrite upd_ne by done; by left]. intros [?|[? ?]]%Hl; [by left|by right]. }
  split.
  - intros o' q2. destruct (decide (o' = o)) as [->|Hn]; [rewrite lookup_insert_eq, updq_eq; by intros [= <-]|].
    rewrite lookup_insert_ne, updq_ne by done. intros E2. apply (pq_repr_view (tasks s)); [|by apply W1].
    intros j u Hu. simpl. by rewrite (Hfr o' j u Hn Hu).
  - intros o' j. destruct (decide (o' = o)) as [->|Hn]; [by rewrite lookup_insert_eq|].
    rewrite lookup_insert_ne, updq_ne by done. apply W2.
  - intros o' j u Hu. assert (exists tk, tasks s !! u = Some tk /\ mkBlocked u None ∈ bl (OfCore (core_id tk))) as (tk & E & Hb).
    { destruct (Hin o' j u Hu) as [Hu'|(_ & _ & Hx)]; [by apply (W3 o' j)|done]. }
    destruct (same_tasks_lookup _ _ _ _ Hs E) as (tk' & E' & (_ & _ & _ & F & _)%unlink_fields). exists tk'.
    split; [done|by rewrite F].
  - intros o1 o2 j1 j2 u [H1|(-> & H1 & _)]%Hin [H2|(-> & H2 & _)]%Hin; [by apply (W4 o1 o2 j1 j2 u)|by destruct (H2 o1 j1)|by destruct (H1 o2 j2)|done].
Qed.

(** ** What steps leave of other tasks, but for links *)
Definition steady (X : list nat) s s' : Prop :=
  forall u tk, tasks s !! u = Some tk -> u ∉ X ->
  exists tk', tasks s' !! u = Some tk' /\ (status tk = TaskBlocked -> status tk' = TaskBlocked)
    /\ (alive tk -> alive tk' /\ last_wakeup_reason tk' = last_wakeup_reason tk).

Lemma steady_evolves X s s' : evolves X s s' -> steady X s s'.
Proof.
  intros H u tk E Hu. destruct (H u tk E Hu) as (tk' & E' & B & A). exists tk'. split_and!; [done| |done].
  intros S. by apply (kept_blocked tk), B.
Qed.

Lemma steady_same X s s' : same_tasks (tasks s) (tasks s') -> steady X s s'.
Proof.
  intros H u tk E _. destruct (same_tasks_lookup _ _ _ _ H E) as (tk' & E' & U). exists tk'. split; [done|].
  apply (f_equal (fun x => (status x, last_wakeup_reason x))) in U. unfold alive. injection U as -> ->. done.
Qed.

Lemma steady_trans X s1 s2 s3 : steady X s1 s2 -> steady X s2 s3 -> steady X s1 s3.
Proof.
  intros H1 H2 u tk E HX. destruct (H1 u tk E HX) as (tk2 & E2 & B2 & A2). destruct (H2 u tk2 E2 HX) as (tk3 & E3 & B3 & A3).
  exists tk3. split_and!; [done|by intros S; apply B3, B2|].
  intros A. destruct (A2 A) as [A' R]. destruct (A3 A') as [A'' R']. split; [done|congruence].
Qed.

End links.

(** ** Waiting and waking *)

Section specifications.

Context (me : Z).
Implicit Types (s : Sched) (bl : Loc -> list BlockedTask) (rq W : Z -> nat -> list nat) (Q : gmap Z PriorityTaskQueue).

(** The current task enters the queue of [o]. *)
Lemma wait_in_spec s rq bl Q W o q sc ck :
  sched_inv s rq bl -> waiters_ok s bl Q W -> Q !! o = Some q ->
  SCHEDULERS s !! me = Some sc -> tasks s !! current_task sc = Some ck -> status ck = TaskRunning ->
  let cur := current_task sc in let i := Z.to_nat (prio ck) in
  exists q' s' bl', wait_in me None (q, s) = Done (tt, (q', s'))
    /\ sched_inv s' rq bl' /\ waiters_ok s' bl' (<[o := q']> Q) (updq o i (W o i ++ [cur]) W)
    /\ steady [cur] s s' /\ status <$> tasks s' !! cur = Some TaskBlocked.
Proof.
  intros HI HW Hq Hsc Hck Hst cur i. fold cur in Hck.
  assert (queue_at s (OfCore me) = Some (blocked_tasks sc)) as Hqa by (simpl; by rewrite Hsc).
  destruct (sleep_spec me [] cur None (OfCore me) _ s rq bl ck HI Hqa Hck Hst) as (L' & E & HI1 & Hev1); [set_solver|].
  set (s1 := put_to_sleep me None cur (OfCore me) L' bl s) in *.
  set (bl1 := updl (OfCore me) (inserted None (mkBlocked cur None) (bl (OfCore me))) bl) in *.
  assert (forall o' j u, u ∈ W o' j -> u <> cur) as Hcur.
  { intros o' j u Hu ->. destruct (waiter_facts s bl rq Q W o' j _ HI HW Hu) as (tk & ? & E' & S & _).
    rewrite Hck in E'. injection E' as <-. congruence. }
  assert (tasks s1 !! cur = Some (set_status TaskBlocked ck)) as Hck1.
  { unfold s1, put_to_sleep. simpl. by rewrite lookup_alter_eq, Hck. }
  assert (waiters_ok s1 bl1 Q W) as HW1.
  { apply (waiters_frame s s1 bl bl1 Q W [cur]); [done|done| | |].
    - intros o' j u Hu Hx%list_elem_of_singleton. by apply (Hcur o' j u).
    - intros o' j u Hu. destruct (waiter_facts s bl rq Q W o' j u HI HW Hu) as (tk & ? & E' & S & _). by exists tk.
    - intros o' j u c _ Hin. unfold bl1. destruct (decide (c = me)) as [->|Hn]; [|by apply updl_keeps; [congruence|]].
      rewrite updl_eq, inserted_perm. by right. }
  destruct (ro_legal _ _ _ (proj1 HI) cur ck Hck) as [Hp _].
  destruct (push_spec (tasks s1, q) (W o) cur (set_status TaskBlocked ck) i) as ([st' q'] & Ep & HR & Hs & Hf);
    [by apply (wq_repr _ _ _ _ HW1)|done|simpl; lia|lia|intros Hx; by apply (Hcur o i cur Hx)|]. cbn [fst] in *.
  exists q', (with_tasks (fun _ => st') s1), bl1. split_and!.
  - unfold wait_in, block_in, enqueue_in. rewrite bind_assoc. rewrite (bind_done _ _ (q, s) sc (q, s)) by (unfold on_scheduler, core_scheduler, get_scheduler; simpl; by rewrite Hsc).
    rewrite bind_assoc, (bind_done _ _ (q, s) tt (q, s1)); cycle 1.
    { unfold on_scheduler, block_current. cbn [snd]. rewrite (bind_core_scheduler me _ s sc Hsc).
      fold cur. by rewrite (on_blocked_done _ me s sc _ _ _ Hsc E). }
    rewrite bind_ret. unfold on_waiters. cbn [fst snd]. unfold cur in Ep. by rewrite Ep.
  - apply sched_links; [done|done|]. intros u tk Eu Su. rewrite Hf; [done| |].
    + intros ->. rewrite Hck1 in Eu. injection Eu as <-. done.
    + intros Hx. destruct (waiter_facts s1 bl1 rq Q W o i u HI1 HW1 Hx) as (tk' & ? & E' & S & _). congruence.
  - apply (waiters_update s1 st' bl1 Q W o i _ q q'); [done..| |].
    + intros o' j u Hn Hu. apply Hf; [by apply (Hcur o' j)|]. intros Hx. by apply Hn, (wq_once _ _ _ _ HW o' o j i u).
    + intros u [Hu|Hu%list_elem_of_singleton]%elem_of_app; [by left|right]. rewrite Hu. split; [intros o' j Hx; by apply (Hcur o' j cur Hx)|].
      exists (set_status TaskBlocked ck). split; [done|]. simpl.
      destruct (oo_current _ _ _ (proj2 HI) me sc Hsc) as (ck' & E' & C' & _). fold cur in E'. rewrite Hck in E'. injection E' as <-.
      unfold bl1. rewrite C', updl_eq, inserted_perm. left.
  - apply (steady_trans _ _ s1); [by apply steady_evolves|by apply steady_same].
  - simpl. rewrite (same_tasks_field status _ _ cur (fun _ => eq_refl) Hs), Hck1. done.
Qed.

(** The queue of [o] without its first task of priority [i]. *)
Lemma take_waiter s rq bl Q W o q i t l :
  sched_inv s rq bl -> waiters_ok s bl Q W -> Q !! o = Some q -> (i < NO_PRIORITIES)%nat -> W o i = t :: l ->
  exists st' q', pq_pop_from_queue i (tasks s, q) = Done (Some t, (st', q')) /\ same_tasks (tasks s) st'
    /\ sched_inv (with_tasks (fun _ => st') s) rq bl
    /\ waiters_ok (with_tasks (fun _ => st') s) bl (<[o := q']> Q) (updq o i l W) /\ forall o' j, t ∉ updq o i l W o' j.
Proof.
  intros HI HW Hq Hi El. pose proof (wq_repr _ _ _ _ HW o q Hq) as HQ.
  pose proof (pop_eq _ (W o) t i l HQ Hi El) as Ep. destruct (pop_repr _ (W o) t i l HQ Hi El) as (HR & Hs & Hf).
  destruct (popped (tasks s, q) i t l) as [st' q'] eqn:Epop. cbn [fst] in *. exists st', q'. split_and!; [done|done|..].
  - apply sched_links; [done|done|]. intros u tk Eu Su. rewrite Hf; [done|].
    intros Hx. destruct (waiter_facts s bl rq Q W o i u HI HW Hx) as (tk' & ? & E' & S & _). congruence.
  - apply (waiters_update s st' bl Q W o i l q q'); [done..| |].
    + intros o' j u Hn Hu. apply Hf. intros Hx. by apply Hn, (wq_once _ _ _ _ HW o' o j i u).
    + intros u Hu. left. rewrite El. by right.
  - destruct (repr_queue _ _ i HQ Hi) as (qh & _ & [Hnd _ _ _]). rewrite El in Hnd. apply NoDup_cons in Hnd as [Htl _].
    assert (t ∈ W o i) as Hin by (rewrite El; left). intros o' j Hu. destruct (decide (o' = o)) as [->|Hn].
    + rewrite updq_eq in Hu. destruct (decide (j = i)) as [->|Hn]; [by rewrite upd_eq in Hu|]. rewrite upd_ne in Hu by done.
      apply Hn. by apply (repr_disjoint _ _ _ _ t HQ).
    + rewrite updq_ne in Hu by done. apply Hn. by apply (wq_once _ _ _ _ HW o' o j i t).
Qed.

(** The longest waiting task of the highest priority becomes ready. *)
Lemma wake_next_spec s rq bl Q W o q :
  sched_inv s rq bl -> waiters_ok s bl Q W -> Q !! o = Some q ->
  match highest NO_PRIORITIES (W o) with
  | None => wake_next me (q, s) = Done (None, (q, s))
  | Some i => exists t l q' s' bl' tk, W o i = t :: l /\ wake_next me (q, s) = Done (Some t, (q', s'))
      /\ tasks s !! t = Some tk /\ sched_inv s' (enqueue (tasks s) [t] rq) bl'
      /\ waiters_ok s' bl' (<[o := q']> Q) (updq o i l W) /\ steady [t] s s'
      /\ exists tk', tasks s' !! t = Some tk' /\ status tk' = TaskReady /\ last_wakeup_reason tk' = Custom
  end.
Proof.
  intros HI HW Hq. pose proof (wq_repr _ _ _ _ HW o q Hq) as HQ. pose proof (pop_run _ _ HQ) as Epop.
  pose proof (highest_spec NO_PRIORITIES (W o)) as Hsp. unfold wake_next.
  destruct (highest NO_PRIORITIES (W o)) as [i|]; cycle 1.
  { unfold on_waiters, bind. cbn [fst snd]. rewrite Epop. simpl. by destruct s. }
  destruct Hsp as (Hi & Hne & _). destruct (W o i) as [|t l] eqn:El; [done|].
  destruct (take_waiter s rq bl Q W o q i t l HI HW Hq Hi El) as (st' & q' & Ep & Hs & HI1 & HW1 & Htl).
  set (s1 := with_tasks (fun _ => st') s) in *. destruct (waiter_facts s bl rq Q W o i t HI HW) as
    (tk & sc & Et & St & Pt & _ & Hsc & Hb); [rewrite El; left|].
  destruct (same_tasks_lookup _ _ _ _ Hs Et) as (tk1 & Et1 & (_ & F2 & F3 & F4 & _)%unlink_fields).
  destruct (custom_wakeup_inv me s1 rq bl (core_id tk) sc t HI1) as (s2 & rq2 & bl2 & Ew & HI2 & Hc); [done|].
  rewrite decide_True in Hc by (by apply (list_elem_of_fmap_2 task _ (mkBlocked t None))).
  destruct Hc as (a & e & b & Eb & He & -> & -> & _ & Hm & Hev).
  exists t, l, q', s2, (updl (OfCore (core_id tk)) (a ++ b) bl), tk. split_and!; [done| |done| | | |].
  - unfold on_waiters. unfold bind at 1. cbn [fst snd]. rewrite Epop, Ep. cbn [obind fst snd]. fold s1.
    unfold on_scheduler, bind at 1. cbn [fst snd]. rewrite (bind_done (borrow_task t) _ s1 tk1 s1)
      by (unfold borrow_task; simpl; by rewrite Et1). rewrite F4, Ew. done.
  - replace (enqueue (tasks s) [t] rq) with (enqueue (tasks s1) [t] rq); [done|].
    apply enqueue_ext. intros u. by apply same_tasks_field.
  - apply (waiters_frame s1 s2 bl _ _ _ [t]); [done|done|..].
    + intros o' j u Hu ->%list_elem_of_singleton. by apply (Htl o' j).
    + intros o' j u Hu. destruct (waiter_facts s1 bl rq _ _ o' j u HI1 HW1 Hu) as (tku & ? & E' & S & _). by exists tku.
    + intros o' j u c Hu Hin. destruct (decide (c = core_id tk)) as [->|Hn]; [|by apply updl_keeps; [congruence|]].
      rewrite updl_eq. rewrite Eb in Hin. apply elem_of_app in Hin as [?|[Heq|?]%elem_of_cons]; [set_solver| |set_solver].
      exfalso. apply (Htl o' j). replace t with u; [done|]. by rewrite <- He, <- Heq.
  - apply (steady_trans _ _ s1); [by apply steady_same|by apply steady_evolves].
  - destruct (same_tasks_lookup _ _ t (wake_up Custom tk1) Hm) as (tk' & E' & U).
    { simpl. by rewrite lookup_alter_eq, Et1. }
    exists tk'. split; [done|]. apply (f_equal (fun x => (status x, last_wakeup_reason x))) in U. by injection U as -> ->.
Qed.

End specifications.
