(* ===== verification/Synch.v ===== *)
(** * Semaphores, recursive mutexes and condition variables:
    src/synch/semaphore.rs, src/synch/recmutex.rs, src/syscalls/condvar.rs

    Each operation of a semaphore holds its lock, with interrupts masked, so it is
    one step on the state of the object and that of the scheduler. [acquire] is a
    loop that gives the core away between its rounds: a round is a step, and the
    tasks that are between two rounds are part of the state of the system. The
    operations of recursive mutexes and condition variables are written as one
    step as well, which they are only when nothing interrupts them: the lock of a
    mutex leaves interrupts enabled and a condition variable has no lock. What is
    stated of any order of steps is therefore stated of semaphores; what an
    interrupt within [RecursiveMutex::acquire] does is shown at the end. *)

From stdpp Require Import base numbers list gmap.
From Stdlib Require Import ZArith Lia.
From S2P Require Import Prelude Links Mm Collections TaskQueue Tasks Scheduler Ready Waiting Scheduling Dispatch Tasking Cores WaitQueue.

#[local] Open Scope Z_scope.

(** ** Data *)

Record SemaphoreState := mkSem { sem_count : Z; sem_queue : PriorityTaskQueue }.
Record RecursiveMutexState := mkMutex { current_tid : option TaskId; mx_count : Z; mx_queue : PriorityTaskQueue }.
Record CondQueue := mkCond { cond_queue : PriorityTaskQueue; cond_id : Z }.

Definition Semaphore_new (count : Z) : SemaphoreState := mkSem count PriorityTaskQueue_new.
Definition RecursiveMutex_new : RecursiveMutexState := mkMutex None 0 PriorityTaskQueue_new.
Definition CondQueue_new (id : Z) : CondQueue := mkCond PriorityTaskQueue_new id.

(** What tasks can wait for. *)
Class Waitable (O : Type) := {
  waiters : O -> PriorityTaskQueue;
  set_waiters : PriorityTaskQueue -> O -> O
}.

#[export] Instance Semaphore_waitable : Waitable SemaphoreState := {
  waiters := sem_queue; set_waiters q st := mkSem (sem_count st) q }.
#[export] Instance RecursiveMutex_waitable : Waitable RecursiveMutexState := {
  waiters := mx_queue; set_waiters q st := mkMutex (current_tid st) (mx_count st) q }.
#[export] Instance CondQueue_waitable : Waitable CondQueue := {
  waiters := cond_queue; set_waiters q st := mkCond q (cond_id st) }.

(** [isize] addition, checked for overflow. *)
Definition add_isize (a b : Z) : outcome Z := if a + b <? 2 ^ 63 then Done (a + b) else Panic.

(** ** Operations *)

Section operations.

Context (me : Z).

Definition on_object {O A} `{Waitable O} (m : M WQS A) : M (O * Sched) A := fun s =>
  let? r := m (waiters s.1, s.2) in Done (r.1, (set_waiters r.2.1 s.1, r.2.2)).
Definition on_sched_of {O A} (m : M Sched A) : M (O * Sched) A := fun s =>
  let? r := m s.2 in Done (r.1, (s.1, r.2)).
Definition put_object {O} (st : O) : M (O * Sched) unit := modify (fun s => (st, s.2)).

(** [Semaphore::acquire] first resets the reason of the last wakeup. A round of
    its loop ends the call with its result, or blocks the task. *)
Definition reset_reason : M Sched unit :=
  let! c := core_scheduler me in write_task (current_task c) (set_reason Custom).

Definition sem_acquire_round (wakeup_time : option Z) : M (SemaphoreState * Sched) (option bool) :=
  let! st := gets fst in
  if 0 <? sem_count st then
    put_object (mkSem (sem_count st - 1) (sem_queue st)) ;;;
    ret (Some true)
  else
    let! c := on_sched_of (core_scheduler me) in
    let! borrowed := on_sched_of (borrow_task (current_task c)) in
    if bool_decide (last_wakeup_reason borrowed = Timer) then
      on_object (on_waiters (pq_remove (current_task c))) ;;;
      ret (Some false)
    else
      on_object (wait_in me wakeup_time) ;;;
      ret None.

Definition sem_try_acquire : M (SemaphoreState * Sched) bool :=
  let! st := gets fst in
  if 0 <? sem_count st then put_object (mkSem (sem_count st - 1) (sem_queue st)) ;;; ret true
  else ret false.

Definition sem_release : M (SemaphoreState * Sched) unit :=
  let! st := gets fst in
  let! count := lift (add_isize (sem_count st) 1) in
  put_object (mkSem count (sem_queue st)) ;;;
  on_object (wake_next me) ;;;
  ret tt.

(** A round of [RecursiveMutex::acquire] that is not interrupted: whether the
    mutex is acquired. *)
Definition mutex_acquire_round : M (RecursiveMutexState * Sched) bool :=
  let! c := on_sched_of (core_scheduler me) in
  let! borrowed := on_sched_of (borrow_task (current_task c)) in
  let! st := gets fst in
  match current_tid st with
  | Some tid =>
      if tid =? id borrowed then
        let! count := lift (add64 (mx_count st) 1) in
        put_object (mkMutex (current_tid st) count (mx_queue st)) ;;;
        ret true
      else
        on_object (wait_in me None) ;;;
        ret false
  | None =>
      put_object (mkMutex (Some (id borrowed)) 1 (mx_queue st)) ;;;
      ret true
  end.

Definition mutex_release : M (RecursiveMutexState * Sched) unit :=
  let! st := gets fst in
  let! count := lift (sub64 (mx_count st) 1) in
  if count =? 0 then
    put_object (mkMutex None count (mx_queue st)) ;;;
    on_object (wake_next me) ;;;
    ret tt
  else put_object (mkMutex (current_tid st) count (mx_queue st)).

(** [sys_add_queue]; [sys_wait] is then a run of the scheduler. The code takes no
    lock of the condition variable, here and in [sys_notify]: this is what it does
    when no interrupt and no other core comes in between. *)
Definition cond_add_queue (wakeup_time : option Z) : M (CondQueue * Sched) unit := on_object (wait_in me wakeup_time).

(** [sys_notify], likewise without a lock: all tasks, or as many as [count] says. *)
Fixpoint notify_all (fuel : nat) : M WQS unit :=
  match fuel with
  | O => out_of_fuel
  | S fuel' =>
      let! next := wake_next me in
      match next with Some _ => notify_all fuel' | None => ret tt end
  end.

Fixpoint notify_some (count : nat) : M WQS unit :=
  match count with
  | O => ret tt
  | S count' => wake_next me ;;; notify_some count'
  end.

(** The loop over all tasks is given as many rounds as there are tasks, and one more. *)
Definition cond_notify (count : Z) : M (CondQueue * Sched) unit := on_object (
  if count <? 0 then let! n := gets (fun s => size (tasks s.2)) in notify_all (S n)
  else notify_some (Z.to_nat count)).

End operations.

(** ** The system *)

Inductive Object := OSem (st : SemaphoreState) | OMutex (st : RecursiveMutexState) | OCond (st : CondQueue).

Definition queue_of (ob : Object) : PriorityTaskQueue :=
  match ob with OSem st => waiters st | OMutex st => waiters st | OCond st => waiters st end.

(** [inside]: the tasks between two rounds of [acquire], of which object. *)
Record System := mkSystem { sched : Sched; objects : gmap Z Object; inside : gmap nat Z }.

(** What a core does: an operation of the scheduler; the current task calls
    [acquire], or goes on with it; the other operations on objects. *)
Inductive Act :=
  | Kernel (e : Event)
  | Acquire (o : Z)
  | Continue
  | TryAcquire (o : Z)
  | Release (o : Z)
  | AddQueue (o : Z)
  | Notify (o : Z) (count : Z).

Section system.

Context (me : Z).

Definition on_sem {A} (o : Z) (m : M (SemaphoreState * Sched) A) : M System A := fun S =>
  match objects S !! o with
  | Some (OSem st) => let? r := m (st, sched S) in Done (r.1, mkSystem r.2.2 (<[o := OSem r.2.1]> (objects S)) (inside S))
  | _ => Panic
  end.
Definition on_mutex {A} (o : Z) (m : M (RecursiveMutexState * Sched) A) : M System A := fun S =>
  match objects S !! o with
  | Some (OMutex st) => let? r := m (st, sched S) in Done (r.1, mkSystem r.2.2 (<[o := OMutex r.2.1]> (objects S)) (inside S))
  | _ => Panic
  end.
Definition on_cond {A} (o : Z) (m : M (CondQueue * Sched) A) : M System A := fun S =>
  match objects S !! o with
  | Some (OCond st) => let? r := m (st, sched S) in Done (r.1, mkSystem r.2.2 (<[o := OCond r.2.1]> (objects S)) (inside S))
  | _ => Panic
  end.

(** One round of [acquire] without a deadline; the result is [None] when the
    task is blocked and has to go on later. *)
Definition round (o : Z) : M System (option bool) := fun S =>
  match objects S !! o with
  | Some (OSem _) => on_sem o (sem_acquire_round me None) S
  | Some (OMutex _) => on_mutex o (let! b := mutex_acquire_round me in ret (if b then Some true else None)) S
  | _ => Panic
  end.

Definition start (o : Z) : M System unit := fun S =>
  match objects S !! o with
  | Some (OSem _) => on_sem o (on_sched_of (reset_reason me)) S
  | _ => Done (tt, S)
  end.

Definition set_inside (f : gmap nat Z -> gmap nat Z) : M System unit :=
  modify (fun S => mkSystem (sched S) (objects S) (f (inside S))).

(** A round by the current task [t]. *)
Definition round_of (t : nat) (o : Z) : M System (option bool) :=
  let! r := round o in
  set_inside (match r with Some _ => delete t | None => <[t := o]> end) ;;;
  ret r.

Definition acquire (o : Z) : M System (option bool) :=
  let! t := gets (fun S => current_of (sched S) me) in
  let! t := lift (unwrap t) in
  start o ;;; round_of t o.

Definition continue : M System (option bool) :=
  let! t := gets (fun S => current_of (sched S) me) in
  let! t := lift (unwrap t) in
  let! o := gets (fun S => inside S !! t) in
  let! o := lift (unwrap o) in
  round_of t o.

Definition release (o : Z) : M System unit := fun S =>
  match objects S !! o with
  | Some (OSem _) => on_sem o (sem_release me) S
  | Some (OMutex _) => on_mutex o (mutex_release me) S
  | _ => Panic
  end.

End system.

Section runs.

Context {K : Type} `{KernelMemory K}.

Definition kernel {A} (m : M (Sched * K) A) : M (System * K) A := fun s =>
  let? r := m (sched s.1, s.2) in Done (r.1, (mkSystem r.2.1 (objects s.1) (inside s.1), r.2.2)).
Definition on_system {A} (m : M System A) : M (System * K) A := fun s =>
  let? r := m s.1 in Done (r.1, (r.2, s.2)).

Definition run_act (me : Z) (a : Act) : M (System * K) unit :=
  match a with
  | Kernel e => kernel (run_event me e)
  | Acquire o => on_system (acquire me o ;;; ret tt)
  | Continue => on_system (continue me ;;; ret tt)
  | TryAcquire o => on_system (on_sem o sem_try_acquire ;;; ret tt)
  | Release o => on_system (release me o)
  | AddQueue o => on_system (on_cond o (cond_add_queue me None))
  | Notify o count => on_system (on_cond o (cond_notify me count))
  end.

(** The running task, if it is between two rounds of [acquire]. *)
Definition busy (me : Z) (S : System) : option Z := t ← current_of (sched S) me; inside S !! t.

(** Counters that do not overflow with one more. *)
Definition can_acquire (S : System) (o : Z) : bool :=
  match objects S !! o with
  | Some (OSem _) => true
  | Some (OMutex st) => mx_count st + 1 <? W64
  | _ => false
  end.
Definition can_release (S : System) (o : Z) : bool :=
  match objects S !! o with
  | Some (OSem st) => sem_count st + 1 <? 2 ^ 63
  | Some (OMutex st) => bool_decide (current_tid st <> None)
  | _ => false
  end.
Definition is_sem (S : System) (o : Z) : bool := match objects S !! o with Some (OSem _) => true | _ => false end.
Definition is_cond (S : System) (o : Z) : bool := match objects S !! o with Some (OCond _) => true | _ => false end.

(** When an act may happen. A task between two rounds of [acquire] does nothing
    else, though its core may be interrupted; sleeping tasks are woken by the
    operations on objects only; a mutex that is released is held. *)
Definition legal_act (me : Z) (a : Act) (S : System) : bool :=
  match a with
  | Kernel e =>
      legal me e (sched S) &&
      match e with
      | Wake _ _ => false
      | Sleep _ | WaitFor _ | Finish | Clone => bool_decide (busy me S = None)
      | _ => true
      end
  | Acquire o => runs (sched S) me && bool_decide (busy me S = None) && can_acquire S o
  | Continue => runs (sched S) me && match busy me S with Some o => can_acquire S o | None => false end
  | TryAcquire o => core_up (sched S) me && is_sem S o
  | Release o => core_up (sched S) me && can_release S o
  | AddQueue o => runs (sched S) me && bool_decide (busy me S = None) && is_cond S o
  | Notify o _ => core_up (sched S) me && is_cond S o
  end.

Fixpoint run_acts (acts : list (Z * Act)) : M (System * K) unit :=
  match acts with
  | [] => ret tt
  | (me, a) :: acts' =>
      let! st := gets fst in
      if legal_act me a st then run_act me a ;;; run_acts acts' else run_acts acts'
  end.

End runs.

(** ** The invariant *)

(** Whether a task is awake, and the tasks that are about to try again. *)
Definition awake (s : Sched) (t : nat) : bool := bool_decide (status <$> tasks s !! t <> Some TaskBlocked).
Definition pending (S : System) (o : Z) : gset nat := dom (filter (fun x => x.2 = o /\ awake (sched S) x.1 = true) (inside S)).

(** How many acquisitions of an object would succeed. *)
Definition available (ob : Object) : Z :=
  match ob with
  | OSem st => sem_count st
  | OMutex st => match current_tid st with Some _ => 0 | None => 1 end
  | OCond _ => 0
  end.
Definition acquirable (ob : Object) : bool := match ob with OCond _ => false | _ => true end.
Definition mutex_ok (ob : Object) : Prop :=
  match ob with OMutex st => 0 <= mx_count st < W64 /\ (current_tid st = None <-> mx_count st = 0) | _ => True end.

Definition has_waiters (W : Z -> nat -> list nat) (o : Z) : Prop := exists i u, u ∈ W o i.

Record system_inv (S : System) (rq : Z -> nat -> list nat) (bl : Loc -> list BlockedTask) (W : Z -> nat -> list nat) : Prop := {
  si_sched : sched_inv (sched S) rq bl;
  si_waiters : waiters_ok (sched S) bl (queue_of <$> objects S) W;
  si_inside : forall t o, inside S !! t = Some o ->
    (exists ob, objects S !! o = Some ob /\ acquirable ob = true)
    /\ ((exists i, t ∈ W o i) \/ exists tk, tasks (sched S) !! t = Some tk /\ alive tk /\ last_wakeup_reason tk = Custom);
  si_waits : forall o i t ob, t ∈ W o i -> objects S !! o = Some ob -> acquirable ob = true -> inside S !! t = Some o;
  si_mutex : forall o ob, objects S !! o = Some ob -> mutex_ok ob;
  si_pending : forall o ob, objects S !! o = Some ob -> has_waiters W o -> available ob <= Z.of_nat (size (pending S o))
}.

Section invariant.

Implicit Types (S : System) (s : Sched) (bl : Loc -> list BlockedTask) (rq W : Z -> nat -> list nat) (t : nat).

Lemma elem_of_pending S o t : t ∈ pending S o <-> inside S !! t = Some o /\ awake (sched S) t = true.
Proof.
  unfold pending. rewrite elem_of_dom. split.
  - intros [o' [E [Ho Ha]]%map_lookup_filter_Some]. simpl in *. by rewrite E, Ho.
  - intros [E Ha]. exists o. by apply map_lookup_filter_Some.
Qed.

Lemma awake_alive s t tk : tasks s !! t = Some tk -> alive tk -> awake s t = true.
Proof. intros E Ha. apply bool_decide_eq_true. rewrite E. simpl. destruct Ha; congruence. Qed.

Lemma awake_blocked s t tk : tasks s !! t = Some tk -> status tk = TaskBlocked -> awake s t = false.
Proof. intros E Ha. apply bool_decide_eq_false. rewrite E. simpl. intros Hx. apply Hx. congruence. Qed.

(** A task inside is asleep in the queue or about to try again. *)
Lemma inside_cases S rq bl W t o : system_inv S rq bl W -> inside S !! t = Some o ->
  exists tk, tasks (sched S) !! t = Some tk
    /\ (((exists i, t ∈ W o i) /\ status tk = TaskBlocked) \/ (alive tk /\ last_wakeup_reason tk = Custom)).
Proof.
  intros HI Hin. destruct (si_inside _ _ _ _ HI t o Hin) as [_ [[i Hi]|(tk & E & A)]]; [|by exists tk; split; [|right]].
  destruct (waiter_facts _ _ _ _ _ o i t (si_sched _ _ _ _ HI) (si_waiters _ _ _ _ HI) Hi) as (tk & sc & E & S0 & _).
  exists tk. split; [done|]. left. split; [by exists i|done].
Qed.

(** Steps leave the tasks inside, but for [X], asleep or awake as they were. *)
Lemma awake_steady S rq bl W X s' t o :
  system_inv S rq bl W -> steady X (sched S) s' -> inside S !! t = Some o -> t ∉ X -> awake s' t = awake (sched S) t.
Proof.
  intros HI Hst Hin HX. destruct (inside_cases S rq bl W t o HI Hin) as (tk & E & Hc).
  destruct (Hst t tk E HX) as (tk' & E' & B & A). destruct Hc as [[_ Sb]|[Ha _]].
  - by rewrite (awake_blocked s' t tk' E' (B Sb)), (awake_blocked (sched S) t tk E Sb).
  - by rewrite (awake_alive s' t tk' E' (proj1 (A Ha))), (awake_alive (sched S) t tk E Ha).
Qed.

(** Awake tasks inside that a step does not concern are still about to try again. *)
Lemma pending_steady S rq bl W X s' obs in' o :
  system_inv S rq bl W -> steady X (sched S) s' -> (forall t, t ∉ X -> in' !! t = inside S !! t) ->
  forall t, t ∉ X -> t ∈ pending (mkSystem s' obs in') o <-> t ∈ pending S o.
Proof.
  intros HI Hst Hin t Ht. rewrite !elem_of_pending. simpl. rewrite (Hin t Ht). split; intros [E Ha]; (split; [done|]).
  - by rewrite <- (awake_steady S rq bl W X s' t o).
  - by rewrite (awake_steady S rq bl W X s' t o).
Qed.

(** An operation on the object [o], where the tasks [X] may move. *)
Record moved (S : System) (o : Z) (W W' : Z -> nat -> list nat) (X : list nat) (s' : Sched) (in' : gmap nat Z) : Prop := {
  mv_steady : steady X (sched S) s';
  mv_others : forall o', o' <> o -> W' o' = W o';
  mv_in : forall i t, t ∈ W' o i -> t ∈ W o i \/ t ∈ X;
  mv_stays : forall i t, t ∈ W o i -> t ∉ X -> t ∈ W' o i;
  mv_inside : forall t, t ∉ X -> in' !! t = inside S !! t;
  mv_from : forall t, t ∈ X -> inside S !! t = None \/ inside S !! t = Some o;
  mv_to : forall t, t ∈ X -> in' !! t = None \/ (in' !! t = Some o /\ (exists ob, objects S !! o = Some ob /\ acquirable ob = true)
    /\ ((exists i, t ∈ W' o i) \/ exists tk, tasks s' !! t = Some tk /\ alive tk /\ last_wakeup_reason tk = Custom));
  mv_waits : forall i t ob, t ∈ X -> t ∈ W' o i -> objects S !! o = Some ob -> acquirable ob = true -> in' !! t = Some o
}.

Lemma system_step S rq bl W s' o ob ob' in' rq' bl' W' X :
  system_inv S rq bl W -> objects S !! o = Some ob ->
  sched_inv s' rq' bl' -> waiters_ok s' bl' (<[o := queue_of ob']> (queue_of <$> objects S)) W' ->
  moved S o W W' X s' in' -> acquirable ob' = acquirable ob -> mutex_ok ob' ->
  (has_waiters W' o -> available ob' <= Z.of_nat (size (pending (mkSystem s' (<[o := ob']> (objects S)) in') o))) ->
  system_inv (mkSystem s' (<[o := ob']> (objects S)) in') rq' bl' W'.
Proof.
  intros HI Ho HI' HW' [M1 M2 M3 M4 M5 M6 M7 M8] Hacq Hmx Hav. pose proof HI as [I1 I2 I3 I4 I5 I6].
  assert (forall o2 ob2, <[o := ob']> (objects S) !! o2 = Some ob2 -> (o2 = o /\ ob2 = ob') \/ (o2 <> o /\ objects S !! o2 = Some ob2)) as Hobs.
  { intros o2 ob2. destruct (decide (o2 = o)) as [->|Hn]; [rewrite lookup_insert_eq; intros [= <-]; by left|].
    rewrite lookup_insert_ne by done. by right. }
  assert (forall o2 ob2, objects S !! o2 = Some ob2 -> acquirable ob2 = true ->
    exists ob3, <[o := ob']> (objects S) !! o2 = Some ob3 /\ acquirable ob3 = true) as Hobs'.
  { intros o2 ob2 E2 A2. destruct (decide (o2 = o)) as [->|Hn]; [exists ob'; rewrite lookup_insert_eq|exists ob2; by rewrite lookup_insert_ne].
    split; [done|]. congruence. }
  split; simpl.
  - done.
  - by rewrite fmap_insert.
  - intros t o2 Hin. destruct (decide (t ∈ X)) as [HX|HX].
    + destruct (M7 t HX) as [?|(E & (ob2 & E2 & A2) & Hc)]; [congruence|]. rewrite Hin in E. injection E as ->. by split; [eapply Hobs'|].
    + rewrite (M5 t HX) in Hin. destruct (I3 t o2 Hin) as [(ob2 & E2 & A2) _]. split; [by eapply Hobs'|].
      destruct (inside_cases S rq bl W t o2 HI Hin) as (tk & E & Hc). destruct (M1 t tk E HX) as (tk' & E' & _ & A).
      destruct Hc as [[[i Hi] _]|[Ha Hr]]; [left; exists i|right; exists tk'; split_and!; [done|by apply A|rewrite <- Hr; by apply A]].
      destruct (decide (o2 = o)) as [->|Hn]; [by apply M4|by rewrite M2].
  - intros o2 i t ob2 Hin [[-> ->]|[Hn E2]]%Hobs A2.
    + rewrite Hacq in A2. destruct (decide (t ∈ X)) as [HX|HX]; [by apply (M8 i t ob)|]. rewrite (M5 t HX).
      destruct (M3 i t Hin) as [Hin'|?]; [by apply (I4 o i t ob)|done].
    + rewrite (M2 o2 Hn) in Hin. pose proof (I4 o2 i t ob2 Hin E2 A2) as Ht. rewrite (M5 t); [done|].
      intros HX. destruct (M6 t HX); congruence.
  - intros o2 ob2 [[-> ->]|[Hn E2]]%Hobs; [done|by apply (I5 o2)].
  - intros o2 ob2 [[-> ->]|[Hn E2]]%Hobs; [done|]. unfold has_waiters. rewrite (M2 o2 Hn). intros Hw.
    etransitivity; [by apply (I6 o2)|]. apply inj_le, subseteq_size. intros t Ht. apply (pending_steady S rq bl W X); try done.
    intros HX. apply elem_of_pending in Ht as [Ht _]. destruct (M6 t HX); congruence.
Qed.

(** *** Steps of the scheduler *)

Lemma busy_inside me S t : current_of (sched S) me = Some t -> busy me S = inside S !! t.
Proof. unfold busy. by intros ->. Qed.

Lemma kernel_step S rq bl W me e s' rq' bl' :
  system_inv S rq bl W -> legal_act me (Kernel e) S = true ->
  sched_inv s' rq' bl' -> respects me e (sched S) s' bl bl' ->
  system_inv (mkSystem s' (objects S) (inside S)) rq' bl' W.
Proof.
  intros HI [Hl Hb]%andb_true_iff HI' Hr. pose proof HI as [I1 I2 I3 I4 I5 I6].
  assert (forall t, current_of (sched S) me = Some t -> runs (sched S) me = true -> exists tk, tasks (sched S) !! t = Some tk /\ status tk = TaskRunning) as Hcur.
  { intros t Ht (sc & ck & Hsc & Hck & Hst)%runs_facts. unfold current_of in Ht. rewrite Hsc in Ht. injection Ht as <-. by exists ck. }
  assert (forall o i t, t ∈ W o i -> undisturbed me e (sched S) t) as Hw.
  { intros o i t Hin. destruct (waiter_facts _ _ _ _ _ o i t I1 I2 Hin) as (tk & sc & E & Sb & _).
    assert (runs (sched S) me = true -> current_of (sched S) me <> Some t) as Hn.
    { intros Hrun Ht. destruct (Hcur t Ht Hrun) as (tk' & E' & Sr). congruence. }
    destruct e; simpl in *; try done; try (by apply Hn). apply Hn. by apply andb_true_iff in Hl as [? _]. }
  assert (forall t o, inside S !! t = Some o -> undisturbed me e (sched S) t) as Hi.
  { intros t o Hin. assert (bool_decide (busy me S = None) = true -> current_of (sched S) me <> Some t) as Hn.
    { intros Hbn%bool_decide_eq_true Ht. rewrite (busy_inside me S t Ht) in Hbn. congruence. }
    destruct e; simpl in *; try done; by apply Hn. }
  assert (forall t o, inside S !! t = Some o -> settled (sched S) bl t) as Hs.
  { intros t o Hin. destruct (I3 t o Hin) as [_ [[i Hx]|(tk & E & Ha & _)]]; [left; by eapply waiter_asleep|right; by exists tk]. }
  destruct Hr as (X & Hev & HX & Hbl). pose proof (steady_evolves X _ _ Hev) as Hst.
  split; simpl; try done.
  - apply (waiters_event me e (sched S) s' bl bl' rq); [done|done|by exists X|done].
  - intros t o Hin. split; [by apply (I3 t o)|]. destruct (inside_cases S rq bl W t o HI Hin) as (tk & E & Hc).
    destruct (Hst t tk E) as (tk' & E' & _ & A); [by apply HX; [by eapply Hi|by eapply Hs]|].
    destruct Hc as [[Hx _]|[Ha Hr]]; [by left|right]. exists tk'. split_and!; [done|by apply A|rewrite <- Hr; by apply A].
  - intros o ob Ho Hwt. etransitivity; [by apply (I6 o)|]. apply inj_le, subseteq_size. intros t Ht.
    apply elem_of_pending in Ht as [Ht Ha]. apply elem_of_pending. split; [done|]. simpl.
    rewrite (awake_steady S rq bl W X s' t o); [done..|]. apply HX; [by eapply Hi|by eapply Hs].
Qed.

(** *** Rounds of [acquire] *)

Lemma running_not_waiting S rq bl W o i t tk : system_inv S rq bl W -> tasks (sched S) !! t = Some tk -> status tk = TaskRunning -> t ∉ W o i.
Proof.
  intros HI E Sr Hin. destruct (waiter_facts _ _ _ _ _ o i t (si_sched _ _ _ _ HI) (si_waiters _ _ _ _ HI) Hin) as (tk' & ? & E' & Sb & _).
  congruence.
Qed.

(** The running task [t] gets the object. *)
Lemma acquired_step S rq bl W o ob ob' t tk :
  system_inv S rq bl W -> objects S !! o = Some ob -> tasks (sched S) !! t = Some tk -> status tk = TaskRunning ->
  inside S !! t = None \/ inside S !! t = Some o ->
  queue_of ob' = queue_of ob -> acquirable ob' = acquirable ob -> mutex_ok ob' ->
  available ob' <= 0 \/ available ob' = available ob - 1 ->
  system_inv (mkSystem (sched S) (<[o := ob']> (objects S)) (delete t (inside S))) rq bl W.
Proof.
  intros HI Ho Ht Hr Hin Hq Ha Hm Hav. pose proof HI as [I1 I2 I3 I4 I5 I6].
  apply (system_step S rq bl W _ o ob ob' _ rq bl W [t]); try done.
  - rewrite Hq, insert_id; [done|]. by rewrite lookup_fmap, Ho.
  - split; try done.
    + by apply steady_same.
    + intros i u Hu. by left.
    + intros u Hu. rewrite lookup_delete_ne; [done|]. set_solver.
    + intros u ->%list_elem_of_singleton. done.
    + intros u ->%list_elem_of_singleton. left. apply lookup_delete_eq.
    + intros i u ob2 ->%list_elem_of_singleton Hx. by destruct (running_not_waiting S rq bl W o i t tk HI Ht Hr).
  - intros Hw. destruct Hav as [Hav|Hav]; [lia|]. rewrite Hav. pose proof (I6 o ob Ho Hw) as Hle.
    set (P := pending (mkSystem _ _ _) o). assert (pending S o ⊆ {[t]} ∪ P) as Hsub.
    { intros u Hu. apply elem_of_union. destruct (decide (u = t)) as [->|Hn]; [left; set_solver|right].
      apply elem_of_pending. simpl. rewrite lookup_delete_ne by done. by apply elem_of_pending. }
    apply subseteq_size in Hsub. rewrite size_union_alt in Hsub. rewrite size_singleton in Hsub.
    assert (size (P ∖ {[t]}) <= size P)%nat by (apply subseteq_size; set_solver). lia.
Qed.

(** The object changes, and nothing else; no more of it is available. *)
Lemma free_step S rq bl W o ob ob' :
  system_inv S rq bl W -> objects S !! o = Some ob ->
  queue_of ob' = queue_of ob -> acquirable ob' = acquirable ob -> mutex_ok ob' -> available ob' <= available ob ->
  system_inv (mkSystem (sched S) (<[o := ob']> (objects S)) (inside S)) rq bl W.
Proof.
  intros HI Ho Hq Ha Hm Hav. pose proof HI as [I1 I2 I3 I4 I5 I6].
  apply (system_step S rq bl W _ o ob ob' _ rq bl W []); try done.
  - by rewrite Hq, insert_id by (by rewrite lookup_fmap, Ho).
  - split; try done; try (by intros ? ?%elem_of_nil); [by apply steady_same|by intros ? ? ?; left|by intros ? ? ? ?%elem_of_nil].
  - intros Hw. etransitivity; [exact Hav|]. by apply (I6 o).
Qed.

(** The current task is blocked in the queue of the object. *)
Lemma blocked_step S rq bl W o ob me sc ck :
  system_inv S rq bl W -> objects S !! o = Some ob ->
  SCHEDULERS (sched S) !! me = Some sc -> tasks (sched S) !! current_task sc = Some ck -> status ck = TaskRunning ->
  inside S !! current_task sc = None \/ (inside S !! current_task sc = Some o) ->
  exists q' s' bl' W', wait_in me None (queue_of ob, sched S) = Done (tt, (q', s'))
    /\ status <$> tasks s' !! current_task sc = Some TaskBlocked
    /\ forall ob' in', queue_of ob' = q' -> acquirable ob' = acquirable ob -> mutex_ok ob' -> available ob' <= 0 ->
         in' = (if acquirable ob then <[current_task sc := o]> (inside S) else delete (current_task sc) (inside S)) ->
         system_inv (mkSystem s' (<[o := ob']> (objects S)) in') rq bl' W'.
Proof.
  intros HI Ho Hsc Hck Hst Hin. pose proof HI as [I1 I2 I3 I4 I5 I6].
  assert ((queue_of <$> objects S) !! o = Some (queue_of ob)) as Hq by (by rewrite lookup_fmap, Ho).
  destruct (wait_in_spec me _ rq bl _ W o _ sc ck I1 I2 Hq Hsc Hck Hst) as (q' & s' & bl' & E & HI' & HW' & Hs & Hb).
  set (cur := current_task sc) in *. set (i := Z.to_nat (prio ck)) in *.
  exists q', s', bl', (updq o i (W o i ++ [cur]) W). split_and!; [done|done|]. intros ob' in' <- Ha Hm Hav ->.
  assert (cur ∈ updq o i (W o i ++ [cur]) W o i) as Hmem by (rewrite updq_eq, upd_eq; set_solver).
  apply (system_step S rq bl W s' o ob ob' _ rq bl' _ [cur]); try done; [|lia]. split.
  - done.
  - intros o' Hn. by apply updq_ne.
  - intros j u. rewrite updq_eq. destruct (decide (j = i)) as [->|Hn]; [rewrite upd_eq; set_solver|rewrite upd_ne by done; by left].
  - intros j u Hu _. rewrite updq_eq. destruct (decide (j = i)) as [->|Hn]; [rewrite upd_eq; set_solver|by rewrite upd_ne].
  - intros u Hu. destruct (acquirable ob); [rewrite lookup_insert_ne|rewrite lookup_delete_ne]; set_solver.
  - by intros u ->%list_elem_of_singleton.
  - intros u ->%list_elem_of_singleton. destruct (acquirable ob) eqn:Eo; [right|left; apply lookup_delete_eq].
    rewrite lookup_insert_eq. split_and!; [done|by exists ob|left; by exists i].
  - intros j u ob2 ->%list_elem_of_singleton _ E2 A2. rewrite Ho in E2. injection E2 as <-. rewrite A2. apply lookup_insert_eq.
Qed.

(** *** Waking the next task *)

Lemma no_waiters S rq bl W o ob : system_inv S rq bl W -> objects S !! o = Some ob ->
  highest NO_PRIORITIES (W o) = None -> ~ has_waiters W o.
Proof.
  intros HI Ho Hh (i & u & Hu). pose proof (highest_spec NO_PRIORITIES (W o)) as Hsp. rewrite Hh in Hsp.
  destruct (waiter_facts _ _ _ _ _ o i u (si_sched _ _ _ _ HI) (si_waiters _ _ _ _ HI) Hu) as (tk & sc & _ & _ & _ & Hi & _).
  rewrite Hsp in Hu by done. by apply elem_of_nil in Hu.
Qed.

Definition total W o : nat := sum_list_with (fun i => length (W o i)) (seq 0 NO_PRIORITIES).

Lemma total_less W o i t l : W o i = t :: l -> (i < NO_PRIORITIES)%nat -> (total (updq o i l W) o < total W o)%nat.
Proof.
  intros El Hi. assert (i ∈ seq 0 NO_PRIORITIES) as Hin by (apply elem_of_seq; lia). unfold total.
  assert (forall ns, (sum_list_with (fun j => length (updq o i l W o j)) ns <= sum_list_with (fun j => length (W o j)) ns)%nat) as Hle.
  { induction ns as [|n ns IH]; simpl; [lia|]. rewrite updq_eq. rewrite updq_eq in IH.
    destruct (decide (n = i)) as [->|Hn]; [rewrite upd_eq, El; simpl; lia|rewrite upd_ne by done; lia]. }
  generalize dependent (seq 0 NO_PRIORITIES). induction l0 as [|n ns IH]; intros Hin; [by apply elem_of_nil in Hin|].
  simpl. specialize (Hle ns). rewrite updq_eq in *. destruct (decide (n = i)) as [->|Hn]; [rewrite upd_eq, El; simpl; lia|].
  rewrite upd_ne by done. apply elem_of_cons in Hin as [->|Hin]; [done|]. specialize (IH Hin). lia.
Qed.

(** The longest waiting task of the highest priority is woken; if it is inside,
    it is about to try again. *)
Lemma woken_step S rq bl W o ob me :
  system_inv S rq bl W -> objects S !! o = Some ob ->
  exists r q' s' rq' bl' W', wake_next me (queue_of ob, sched S) = Done (r, (q', s'))
    /\ match r with Some _ => (total W' o < total W o)%nat | None => ~ has_waiters W' o end
    /\ forall ob', queue_of ob' = q' -> acquirable ob' = acquirable ob -> mutex_ok ob' -> available ob' <= available ob + 1 ->
         system_inv (mkSystem s' (<[o := ob']> (objects S)) (inside S)) rq' bl' W'.
Proof.
  intros HI Ho. pose proof HI as [I1 I2 I3 I4 I5 I6].
  assert ((queue_of <$> objects S) !! o = Some (queue_of ob)) as Hq by (by rewrite lookup_fmap, Ho).
  pose proof (wake_next_spec me _ rq bl _ W o _ I1 I2 Hq) as Hsp.
  destruct (highest NO_PRIORITIES (W o)) as [i|] eqn:Hh; cycle 1.
  { pose proof (no_waiters S rq bl W o ob HI Ho Hh) as Hno. eexists _, _, _, rq, bl, W. split; [exact Hsp|]. split; [done|].
    intros ob' Eq Ha Hm _. apply (system_step S rq bl W _ o ob ob' _ rq bl W []); try done.
    - rewrite Eq, insert_id; done.
    - split; try done; try (by intros ? ?%elem_of_nil); [by apply steady_same|by intros ? ? ?; left|by intros ? ? ? ?%elem_of_nil]. }
  destruct Hsp as (t & l & q' & s' & bl' & tk & El & E & Et & HI' & HW' & Hs & tk' & Et' & St' & Rt').
  assert (t ∈ W o i) as Hti by (rewrite El; left).
  pose proof (highest_spec NO_PRIORITIES (W o)) as Hsp. rewrite Hh in Hsp. destruct Hsp as (Hi & _).
  eexists _, q', s', _, bl', (updq o i l W). split; [exact E|]. split; [by eapply total_less|].
  intros ob' Eq Ha Hm Hav.
  assert (inside S !! t = None \/ inside S !! t = Some o) as Hin.
  { destruct (inside S !! t) as [o2|] eqn:E2; [|by left]. right. destruct (I3 t o2 E2) as [_ [[j Hj]|(tk2 & E2' & A2 & _)]].
    - f_equal. by apply (wq_once _ _ _ _ I2 o2 o j i t).
    - destruct (waiter_facts _ _ _ _ _ o i t I1 I2 Hti) as (tk3 & ? & E3 & S3 & _). rewrite E2' in E3. injection E3 as <-.
      destruct A2; congruence. }
  apply (system_step S rq bl W s' o ob ob' _ _ bl' _ [t]); try done; [by rewrite Eq| |].
  - split; try done.
    + intros o' Hn. by apply updq_ne.
    + intros j u. rewrite updq_eq. destruct (decide (j = i)) as [->|Hn]; [rewrite upd_eq, El; left; by right|rewrite upd_ne by done; by left].
    + intros j u Hu Hn. rewrite updq_eq. destruct (decide (j = i)) as [->|Hji]; [rewrite upd_eq; rewrite El in Hu; set_solver|by rewrite upd_ne].
    + by intros u ->%list_elem_of_singleton.
    + intros u ->%list_elem_of_singleton. destruct Hin as [?|Hin]; [by left|right].
      split_and!; [done|by apply (I3 t o)|right]. exists tk'. split_and!; [done|by left|done].
    + intros j u ob2 ->%list_elem_of_singleton _. by apply (I4 o i t).
  - intros (j & u & Hu). destruct (acquirable ob) eqn:Eo.
    + assert (has_waiters W o) as Hw by (by exists i, t). specialize (I6 o ob Ho Hw).
      set (P := pending (mkSystem _ _ _) o). assert (t ∉ pending S o) as Hnp.
      { intros [_ Hx]%elem_of_pending. destruct (waiter_facts _ _ _ _ _ o i t I1 I2 Hti) as (tk3 & ? & E3 & S3 & _).
        rewrite (awake_blocked _ t tk3 E3 S3) in Hx. done. }
      assert ({[t]} ∪ pending S o ⊆ P) as Hsub.
      { intros v [->%elem_of_singleton|Hv]%elem_of_union.
        - apply elem_of_pending. split; [by apply (I4 o i t ob)|]. apply (awake_alive _ t tk'); [done|by left].
        - apply (pending_steady S rq bl W [t]); try done. intros ->%list_elem_of_singleton. done. }
      apply subseteq_size in Hsub. rewrite size_union, size_singleton in Hsub by set_solver. lia.
    + assert (available ob' = 0) as -> by (by destruct ob'). lia.
Qed.

(** *** Calls of [acquire] *)

Lemma reason_inv s rq bl t tk r : sched_inv s rq bl -> tasks s !! t = Some tk ->
  sched_inv (with_tasks (alter (set_reason r) t) s) rq bl.
Proof.
  intros [HR HO] Ht.
  assert (forall A (g : Task -> A) u, (forall x, g (set_reason r x) = g x) ->
    g <$> alter (set_reason r) t (tasks s) !! u = g <$> tasks s !! u) as Hf.
  { intros A g u Hg. destruct (decide (u = t)) as [->|Hn]; [rewrite lookup_alter_eq|by rewrite lookup_alter_ne].
    destruct (tasks s !! t); simpl; [by rewrite Hg|done]. }
  split; [by apply (ready_write [] [] s rq t tk)|].
  apply (other_restated (fun _ st => st) None s _ bl bl); try done.
  - apply (wait_same s); [apply HO| |].
    + intros [c|u]; [done|]. simpl. by apply Hf.
    + intros u. unfold blocked_in. simpl. pose proof (Hf _ status u (fun _ => eq_refl)) as H.
      split; intros (x & E & Sx); rewrite E in H; simpl in H;
        [destruct (tasks s !! u) as [y|]|destruct (alter (set_reason r) t (tasks s) !! u) as [y|]]; try done; exists y;
        (split; [done|]); simpl in H; congruence.
  - intros u. simpl. by apply Hf.
Qed.

Lemma reset_step S rq bl W o ob t tk :
  system_inv S rq bl W -> objects S !! o = Some ob -> tasks (sched S) !! t = Some tk -> status tk = TaskRunning ->
  inside S !! t = None ->
  system_inv (mkSystem (with_tasks (alter (set_reason Custom) t) (sched S)) (objects S) (inside S)) rq bl W.
Proof.
  intros HI Ho Ht Hr Hin. pose proof HI as [I1 I2 I3 I4 I5 I6].
  assert (evolves [t] (sched S) (with_tasks (alter (set_reason Custom) t) (sched S))) as Hev.
  { apply evolves_write. intros x _ Hx. exfalso. apply Hx. left. }
  assert (objects S = <[o := ob]> (objects S)) as Hobs by (by rewrite insert_id).
  assert (forall o2 i u, u ∈ W o2 i -> u ∉ [t]) as Hw.
  { intros o2 i u Hu ->%list_elem_of_singleton. by apply (running_not_waiting S rq bl W o2 i t tk HI Ht Hr). }
  rewrite Hobs. apply (system_step S rq bl W _ o ob ob _ rq bl W [t]); try done.
  - by apply (reason_inv _ _ _ t tk).
  - rewrite insert_id by (by rewrite lookup_fmap, Ho). apply (waiters_frame (sched S) _ bl bl _ W [t]); try done.
    intros o2 i u Hu. destruct (waiter_facts _ _ _ _ _ o2 i u I1 I2 Hu) as (x & ? & E & Sx & _). by exists x.
  - split; try done.
    + by apply steady_evolves.
    + intros i u Hu. by left.
    + intros u ->%list_elem_of_singleton. by left.
    + intros u ->%list_elem_of_singleton. by left.
    + intros i u ob2 Hu Hx. by destruct (Hw o i u Hx).
  - by apply (I5 o).
  - intros Hwt. etransitivity; [by apply (I6 o)|]. apply inj_le, subseteq_size. intros u Hu.
    apply (pending_steady S rq bl W [t]); try done; [by apply steady_evolves|]. intros ->%list_elem_of_singleton.
    apply elem_of_pending in Hu as [Hu _]. congruence.
Qed.

Definition system_ok S : Prop := exists rq bl W, system_inv S rq bl W.

(** The queue operations of an object that the object lists its state in. *)
Lemma on_object_done {O A} `{Waitable O} (m : M WQS A) (st : O) s a q' s' :
  m (waiters st, s) = Done (a, (q', s')) -> on_object m (st, s) = Done (a, (set_waiters q' st, s')).
Proof. intros E. unfold on_object. simpl. by rewrite E. Qed.

Lemma bind_on_sched_of {O A B} (m : M Sched A) (f : A -> M (O * Sched) B) (st : O) s a s' :
  m s = Done (a, s') -> bind (on_sched_of m) f (st, s) = f a (st, s').
Proof. intros E. unfold bind, on_sched_of. simpl. by rewrite E. Qed.

Lemma borrow_task_done s t tk : tasks s !! t = Some tk -> borrow_task t s = Done (tk, s).
Proof. intros E. unfold borrow_task. by rewrite E. Qed.

Lemma core_scheduler_done me s sc : SCHEDULERS s !! me = Some sc -> core_scheduler me s = Done (sc, s).
Proof. intros E. unfold core_scheduler, get_scheduler. by rewrite E. Qed.

(** The object after a successful round, and whether there is one. *)
Definition got (ob : Object) (tid : TaskId) : option Object :=
  match ob with
  | OSem st => if 0 <? sem_count st then Some (OSem (mkSem (sem_count st - 1) (sem_queue st))) else None
  | OMutex st =>
      match current_tid st with
      | Some t => if t =? tid then Some (OMutex (mkMutex (current_tid st) (mx_count st + 1) (mx_queue st))) else None
      | None => Some (OMutex (mkMutex (Some tid) 1 (mx_queue st)))
      end
  | OCond _ => None
  end.

(** A round either takes the object, if it is free for the task, or blocks. *)
Lemma round_run S o ob me sc ck :
  objects S !! o = Some ob -> can_acquire S o = true -> mutex_ok ob ->
  SCHEDULERS (sched S) !! me = Some sc -> tasks (sched S) !! current_task sc = Some ck ->
  last_wakeup_reason ck <> Timer \/ is_sem S o = false ->
  match got ob (id ck) with
  | Some ob' => round me o S = Done (Some true, mkSystem (sched S) (<[o := ob']> (objects S)) (inside S))
  | None => forall q' s', wait_in me None (queue_of ob, sched S) = Done (tt, (q', s')) ->
      exists ob', round me o S = Done (None, mkSystem s' (<[o := ob']> (objects S)) (inside S))
        /\ queue_of ob' = q' /\ acquirable ob' = acquirable ob /\ mutex_ok ob' /\ available ob' <= 0
  end.
Proof.
  intros Ho Hacq Hm Hsc Hck Hr. unfold can_acquire, is_sem in *. unfold round. rewrite Ho in *.
  destruct ob as [[n q]|[ct n q]|]; [| |done]; unfold got; cbn [sem_count sem_queue current_tid mx_count mx_queue].
  - unfold on_sem. rewrite Ho. unfold sem_acquire_round. rewrite bind_gets. cbn [fst sem_count sem_queue].
    destruct (Z.ltb_spec 0 n) as [Hn|Hn]; [done|]. intros q' s' E. exists (OSem (mkSem n q')).
    rewrite (bind_on_sched_of _ _ _ _ _ _ (core_scheduler_done _ _ _ Hsc)), (bind_on_sched_of _ _ _ _ _ _ (borrow_task_done _ _ _ Hck)).
    destruct Hr as [Hr|]; [|done]. rewrite bool_decide_eq_false_2 by done.
    rewrite (bind_done _ _ _ _ _ (on_object_done (O := SemaphoreState) _ (mkSem n q) _ _ _ _ E)). done.
  - unfold on_mutex. rewrite Ho. unfold mutex_acquire_round. rewrite !bind_assoc.
    rewrite (bind_on_sched_of _ _ _ _ _ _ (core_scheduler_done _ _ _ Hsc)), bind_assoc,
      (bind_on_sched_of _ _ _ _ _ _ (borrow_task_done _ _ _ Hck)), bind_assoc, bind_gets. cbn [fst current_tid mx_count mx_queue].
    destruct ct as [tid|]; [|done]. destruct (tid =? id ck).
    + apply Z.ltb_lt in Hacq. assert (add64 n 1 = Done (n + 1)) as E by (apply add64_done; unfold mutex_ok in *; cbn [mx_count current_tid] in *; lia).
      by rewrite bind_assoc, (bind_lift_done _ _ _ _ E).
    + intros q' s' E. exists (OMutex (mkMutex (Some tid) n q')). rewrite bind_assoc.
      by rewrite (bind_done _ _ _ _ _ (on_object_done (O := RecursiveMutexState) _ (mkMutex (Some tid) n q) _ _ _ _ E)).
Qed.

Lemma got_facts ob tid ob' : got ob tid = Some ob' -> mutex_ok ob -> (forall st, ob = OMutex st -> mx_count st + 1 < W64) ->
  queue_of ob' = queue_of ob /\ acquirable ob' = acquirable ob /\ mutex_ok ob' /\ (available ob' <= 0 \/ available ob' = available ob - 1).
Proof.
  intros Hg Hm Hc. destruct ob as [[n q]|[ct n q]|]; simpl in *; [| |done].
  - destruct (0 <? n); [|done]. injection Hg as <-. simpl. split_and!; [done..|by right].
  - specialize (Hc _ eq_refl). simpl in Hc. destruct ct as [t|]; [destruct (t =? tid); [|done]|]; injection Hg as <-; simpl.
    + destruct Hm as [Hn _]. split_and!; [done|done|lia|lia|split; [done|intros; exfalso; lia]|by left].
    + split_and!; [done|done|done|done|done|by left].
Qed.

(** How a call of [acquire] by task [t] for the object [ob], or its next round, ends. *)
Definition acquires o ob t (tid : TaskId) S (r : option bool) S' : Prop :=
  match got ob tid with
  | Some ob' => r = Some true /\ objects S' = <[o := ob']> (objects S) /\ inside S' = delete t (inside S)
  | None => r = None /\ status <$> tasks (sched S') !! t = Some TaskBlocked /\ inside S' !! t = Some o
  end.

(** A round of the current task keeps the invariant; it does not time out. *)
Lemma round_step S rq bl W o ob me sc ck :
  system_inv S rq bl W -> objects S !! o = Some ob -> can_acquire S o = true ->
  SCHEDULERS (sched S) !! me = Some sc -> tasks (sched S) !! current_task sc = Some ck -> status ck = TaskRunning ->
  inside S !! current_task sc = None \/ inside S !! current_task sc = Some o ->
  last_wakeup_reason ck <> Timer \/ is_sem S o = false ->
  exists r S', round_of me (current_task sc) o S = Done (r, S') /\ system_ok S' /\ acquires o ob (current_task sc) (id ck) S r S'.
Proof.
  intros HI Ho Hacq Hsc Hck Hst Hin Hr. pose proof Hacq as Hacq'. unfold can_acquire in Hacq'. rewrite Ho in Hacq'.
  assert (acquirable ob = true) as Ha by (by destruct ob).
  assert (forall st, ob = OMutex st -> mx_count st + 1 < W64) as Hcnt by (intros st ->; by apply Z.ltb_lt).
  pose proof (si_mutex _ _ _ _ HI o ob Ho) as Hm.
  pose proof (round_run S o ob me sc ck Ho Hacq Hm Hsc Hck Hr) as HR. unfold round_of, acquires.
  destruct (got ob (id ck)) as [ob'|] eqn:Eg.
  - destruct (got_facts ob (id ck) ob' Eg Hm Hcnt) as (Hq & Ha' & Hm' & Hav). rewrite (bind_done _ _ _ _ _ HR).
    eexists _, _. split; [reflexivity|]. split; [|done]. exists rq, bl, W.
    by apply (acquired_step S rq bl W o ob ob' _ ck).
  - destruct (blocked_step S rq bl W o ob me sc ck HI Ho Hsc Hck Hst Hin) as (q' & s' & bl' & W' & E & Hb & HS).
    destruct (HR q' s' E) as (ob' & ER & Hq & Ha' & Hm' & Hav). rewrite (bind_done _ _ _ _ _ ER).
    eexists _, _. split; [reflexivity|]. split; [exists rq, bl', W'; apply HS; try done; by rewrite Ha|].
    split_and!; [done|done|apply lookup_insert_eq].
Qed.

Lemma current_runs me S : runs (sched S) me = true ->
  exists sc ck, SCHEDULERS (sched S) !! me = Some sc /\ current_of (sched S) me = Some (current_task sc)
    /\ tasks (sched S) !! current_task sc = Some ck /\ status ck = TaskRunning.
Proof.
  intros (sc & ck & Hsc & Hck & Hst)%runs_facts. exists sc, ck. unfold current_of. by rewrite Hsc.
Qed.

(** What [acquire] and its later rounds do, in the terms of the object and the
    identifier of the current task. *)
Definition current_acquires me o S r S' : Prop :=
  exists ob t tk, objects S !! o = Some ob /\ current_of (sched S) me = Some t /\ tasks (sched S) !! t = Some tk
    /\ acquires o ob t (id tk) S r S'.

Lemma acquire_step S me o : system_ok S -> legal_act me (Acquire o) S = true ->
  exists r S', acquire me o S = Done (r, S') /\ system_ok S' /\ current_acquires me o S r S'.
Proof.
  intros (rq & bl & W & HI) [[(sc & ck & Hsc & Hcur & Hck & Hst)%current_runs Hb%bool_decide_eq_true]%andb_true_iff Hacq]%andb_true_iff.
  rewrite (busy_inside me S _ Hcur) in Hb. unfold acquire. rewrite bind_gets, Hcur, (bind_lift_done _ _ (current_task sc)) by done.
  destruct (objects S !! o) as [ob|] eqn:Ho; [|unfold can_acquire in Hacq; by rewrite Ho in Hacq].
  destruct (is_sem S o) eqn:Es.
  - unfold is_sem in Es. rewrite Ho in Es. destruct ob as [st| |]; try done.
    pose proof (reset_step S rq bl W o (OSem st) (current_task sc) ck HI Ho Hck Hst Hb) as HI1.
    set (S1 := mkSystem (with_tasks (alter (set_reason Custom) (current_task sc)) (sched S)) (objects S) (inside S)) in *.
    rewrite (bind_done (start me o) _ S tt S1); cycle 1.
    { unfold start. rewrite Ho. unfold on_sem. rewrite Ho. unfold on_sched_of, reset_reason. cbn [snd].
      rewrite (bind_done _ _ _ _ _ (core_scheduler_done _ _ _ Hsc)). unfold write_task, modify. cbn [obind fst snd].
      rewrite insert_id by done. done. }
    destruct (round_step S1 rq bl W o (OSem st) me sc (set_reason Custom ck) HI1) as (r & S' & E & Hok & Ha); try done.
    + simpl. by rewrite lookup_alter_eq, Hck.
    + by left.
    + by left.
    + exists r, S'. split_and!; [done|done|]. by exists (OSem st), (current_task sc), ck.
  - rewrite (bind_done (start me o) _ S tt S); cycle 1.
    { unfold start. unfold is_sem in Es. rewrite Ho in *. by destruct ob. }
    destruct (round_step S rq bl W o ob me sc ck HI Ho) as (r & S' & E & Hok & Ha); try done; [by left|by right|].
    exists r, S'. split_and!; [done|done|]. by exists ob, (current_task sc), ck.
Qed.

Lemma continue_step S me o : system_ok S -> legal_act me Continue S = true -> busy me S = Some o ->
  exists r S', continue me S = Done (r, S') /\ system_ok S' /\ current_acquires me o S r S'.
Proof.
  intros (rq & bl & W & HI) [(sc & ck & Hsc & Hcur & Hck & Hst)%current_runs Hacq]%andb_true_iff Hb.
  rewrite Hb in Hacq. rewrite (busy_inside me S _ Hcur) in Hb.
  destruct (objects S !! o) as [ob|] eqn:Ho; [|unfold can_acquire in Hacq; by rewrite Ho in Hacq].
  unfold continue. rewrite bind_gets, Hcur, (bind_lift_done _ _ (current_task sc)) by done.
  rewrite bind_gets, Hb, (bind_lift_done _ _ o) by done.
  destruct (round_step S rq bl W o ob me sc ck HI Ho) as (r & S' & E & Hok & Ha); try done; [by right| |].
  - left. destruct (inside_cases S rq bl W _ o HI Hb) as (tk & E & [[_ Sb]|[_ Hr]]); congruence.
  - exists r, S'. split_and!; [done|done|]. by exists ob, (current_task sc), ck.
Qed.

(** *** The other operations *)

Lemma try_acquire_step S o : system_ok S -> is_sem S o = true ->
  exists r S', on_sem o sem_try_acquire S = Done (r, S') /\ system_ok S'.
Proof.
  intros (rq & bl & W & HI) Hs. unfold is_sem in Hs. destruct (objects S !! o) as [[[n q]| |]|] eqn:Ho; try done.
  unfold on_sem. rewrite Ho. unfold sem_try_acquire. rewrite bind_gets. cbn [fst sem_count sem_queue].
  destruct (0 <? n); eexists _, _; (split; [reflexivity|]); cbn [fst snd].
  - exists rq, bl, W. apply (free_step S rq bl W o (OSem (mkSem n q))); try done. simpl. lia.
  - exists rq, bl, W. by apply (free_step S rq bl W o (OSem (mkSem n q))).
Qed.

Lemma release_step S me o : system_ok S -> can_release S o = true ->
  exists S', release me o S = Done (tt, S') /\ system_ok S'.
Proof.
  intros (rq & bl & W & HI) Hr. unfold can_release in Hr. unfold release.
  destruct (objects S !! o) as [[[n q]|[ct n q]|]|] eqn:Ho; try done.
  - apply Z.ltb_lt in Hr. cbn [sem_count] in Hr.
    destruct (woken_step S rq bl W o _ me HI Ho) as (r & q' & s' & rq' & bl' & W' & E & _ & HS).
    unfold on_sem. rewrite Ho. unfold sem_release. rewrite bind_gets. cbn [fst sem_count].
    rewrite (bind_lift_done _ _ (n + 1)) by (unfold add_isize; by rewrite (proj2 (Z.ltb_lt _ _))).
    unfold put_object. rewrite bind_modify. cbn [fst snd sem_queue].
    rewrite (bind_done _ _ _ _ _ (on_object_done (O := SemaphoreState) _ (mkSem (n + 1) q) _ _ _ _ E)).
    eexists. split; [reflexivity|]. exists rq', bl', W'. apply HS; try done; simpl; lia.
  - apply bool_decide_eq_true in Hr. cbn [current_tid] in Hr. pose proof (si_mutex _ _ _ _ HI o _ Ho) as [Hn Hz]. cbn [current_tid mx_count] in *.
    assert (n <> 0) by (intros Hx; apply Hr, Hz, Hx).
    unfold on_mutex. rewrite Ho. unfold mutex_release. rewrite bind_gets. cbn [fst mx_count].
    assert (sub64 n 1 = Done (n - 1)) as Es by (apply sub64_done; lia). rewrite (bind_lift_done _ _ _ _ Es).
    destruct (Z.eqb_spec (n - 1) 0) as [Hz1|Hz1].
    + destruct (woken_step S rq bl W o _ me HI Ho) as (r & q' & s' & rq' & bl' & W' & E & _ & HS).
      unfold put_object. rewrite bind_modify. cbn [fst snd mx_queue].
      rewrite (bind_done _ _ _ _ _ (on_object_done (O := RecursiveMutexState) _ (mkMutex None (n - 1) q) _ _ _ _ E)).
      eexists. split; [reflexivity|]. exists rq', bl', W'. apply HS; try done; simpl; [|by destruct ct].
      rewrite Hz1. done.
    + eexists. split; [reflexivity|]. exists rq, bl, W. apply (free_step S rq bl W o (OMutex (mkMutex ct n q))); try done. simpl.
      split; [lia|]. split; [done|lia].
Qed.

Lemma add_queue_step S me o : system_ok S -> legal_act me (AddQueue o) S = true ->
  exists S', on_cond o (cond_add_queue me None) S = Done (tt, S') /\ system_ok S'.
Proof.
  intros (rq & bl & W & HI) [[(sc & ck & Hsc & Hcur & Hck & Hst)%current_runs Hb%bool_decide_eq_true]%andb_true_iff Hc]%andb_true_iff.
  rewrite (busy_inside me S _ Hcur) in Hb. unfold is_cond in Hc. destruct (objects S !! o) as [[| |[q i]]|] eqn:Ho; try done.
  destruct (blocked_step S rq bl W o _ me sc ck HI Ho Hsc Hck Hst) as (q' & s' & bl' & W' & E & _ & HS); [by left|].
  unfold on_cond. rewrite Ho. unfold cond_add_queue.
  rewrite (on_object_done (O := CondQueue) _ (mkCond q i) _ _ _ _ E). eexists. split; [reflexivity|].
  exists rq, bl', W'. apply HS; try done. simpl. by rewrite delete_id.
Qed.

(** There are at most as many waiting tasks as tasks. *)
Lemma total_bound S rq bl W o ob : system_inv S rq bl W -> objects S !! o = Some ob ->
  (total W o <= size (tasks (sched S)))%nat.
Proof.
  intros HI Ho. pose proof (wq_repr _ _ _ _ (si_waiters _ _ _ _ HI) o (queue_of ob)) as HQ.
  rewrite lookup_fmap, Ho in HQ. specialize (HQ eq_refl). set (ts := tasks (sched S)) in *.
  assert (forall n a, (a + n <= NO_PRIORITIES)%nat -> exists X : gset nat, size X = sum_list_with (fun i => length (W o i)) (seq a n)
    /\ forall u, u ∈ X <-> exists i, (a <= i < a + n)%nat /\ u ∈ W o i) as Hset.
  { induction n as [|n IH]; intros a Ha; [exists ∅; split; [done|]; intros u; split; [set_solver|intros (i & Hi & _); lia]|].
    destruct (IH (Datatypes.S a) ltac:(lia)) as (X & Hsz & HX). destruct (repr_queue _ _ a HQ ltac:(lia)) as (qh & _ & [Hnd _ _ _]).
    exists (list_to_set (W o a) ∪ X). split.
    - simpl. rewrite size_union, (size_list_to_set _ Hnd), Hsz; [done|]. intros u Hu%elem_of_list_to_set (i & Hi & Hui)%HX.
      pose proof (repr_disjoint _ _ a i u HQ Hu Hui). lia.
    - intros u. rewrite elem_of_union, elem_of_list_to_set, HX. split.
      + intros [Hu|(i & Hi & Hu)]; [exists a|exists i]; (split; [lia|done]).
      + intros (i & Hi & Hu). destruct (decide (i = a)) as [->|Hn]; [by left|right; exists i; split; [lia|done]]. }
  destruct (Hset NO_PRIORITIES O ltac:(lia)) as (X & Hsz & HX). unfold total. rewrite <- Hsz, <- size_dom.
  apply subseteq_size. intros u (i & _ & Hu)%HX. apply elem_of_dom.
  destruct (pr_prio _ _ HQ i u Hu) as (_ & tk & E & _). by exists tk.
Qed.

(** Waking all tasks of a condition variable ends, with none left waiting. *)
Lemma notify_all_run me o cid fuel : forall S rq bl W q,
  system_inv S rq bl W -> objects S !! o = Some (OCond (mkCond q cid)) -> (total W o < fuel)%nat ->
  exists q' s' rq' bl' W', notify_all me fuel (q, sched S) = Done (tt, (q', s'))
    /\ system_inv (mkSystem s' (<[o := OCond (mkCond q' cid)]> (objects S)) (inside S)) rq' bl' W' /\ ~ has_waiters W' o.
Proof.
  induction fuel as [|fuel IH]; intros S rq bl W q HI Ho Hf; [lia|].
  destruct (woken_step S rq bl W o _ me HI Ho) as (r & q1 & s1 & rq1 & bl1 & W1 & E & Hr & HS).
  pose proof (HS (OCond (mkCond q1 cid)) eq_refl eq_refl I) as HI1. simpl in HI1. specialize (HI1 ltac:(lia)).
  cbn [notify_all]. rewrite (bind_done _ _ _ _ _ E). destruct r as [t|].
  - destruct (IH _ rq1 bl1 W1 q1 HI1) as (q' & s' & rq' & bl' & W' & E' & HI' & Hn); [apply lookup_insert_eq|lia|].
    exists q', s', rq', bl', W'. simpl in *. rewrite insert_insert_eq in HI'. done.
  - by exists q1, s1, rq1, bl1, W1.
Qed.

Lemma notify_some_run me o cid n : forall S rq bl W q,
  system_inv S rq bl W -> objects S !! o = Some (OCond (mkCond q cid)) ->
  exists q' s' rq' bl' W', notify_some me n (q, sched S) = Done (tt, (q', s'))
    /\ system_inv (mkSystem s' (<[o := OCond (mkCond q' cid)]> (objects S)) (inside S)) rq' bl' W'.
Proof.
  induction n as [|n IH]; intros S rq bl W q HI Ho.
  - exists q, (sched S), rq, bl, W. split; [done|]. rewrite insert_id by done. by destruct S.
  - destruct (woken_step S rq bl W o _ me HI Ho) as (r & q1 & s1 & rq1 & bl1 & W1 & E & Hr & HS).
    pose proof (HS (OCond (mkCond q1 cid)) eq_refl eq_refl I) as HI1. simpl in HI1. specialize (HI1 ltac:(lia)).
    cbn [notify_some]. rewrite (bind_done _ _ _ _ _ E).
    destruct (IH _ rq1 bl1 W1 q1 HI1) as (q' & s' & rq' & bl' & W' & E' & HI'); [apply lookup_insert_eq|].
    exists q', s', rq', bl', W'. simpl in *. rewrite insert_insert_eq in HI'. done.
Qed.

Lemma notify_step S me o count : system_ok S -> is_cond S o = true ->
  exists S', on_cond o (cond_notify me count) S = Done (tt, S') /\ system_ok S'.
Proof.
  intros (rq & bl & W & HI) Hc. unfold is_cond in Hc. destruct (objects S !! o) as [[| |[q cid]]|] eqn:Ho; try done.
  unfold on_cond. rewrite Ho. unfold cond_notify. destruct (count <? 0).
  - pose proof (total_bound S rq bl W o _ HI Ho) as Hb.
    destruct (notify_all_run me o cid (Datatypes.S (size (tasks (sched S)))) S rq bl W q HI Ho ltac:(lia)) as (q' & s' & rq' & bl' & W' & E & HI' & _).
    rewrite (on_object_done (O := CondQueue) _ (mkCond q cid) (sched S) tt q' s') by (by rewrite bind_gets).
    eexists. split; [reflexivity|]. by exists rq', bl', W'.
  - destruct (notify_some_run me o cid (Z.to_nat count) S rq bl W q HI Ho) as (q' & s' & rq' & bl' & W' & E & HI').
    rewrite (on_object_done (O := CondQueue) _ (mkCond q cid) (sched S) tt q' s') by done.
    eexists. split; [reflexivity|]. by exists rq', bl', W'.
Qed.

End invariant.

(** ** What semaphores, mutexes and condition variables guarantee *)

Section guarantees.

Context {K : Type} `{KernelMemory K}.
Implicit Types (S : System) (W : Z -> nat -> list nat) (k : K).

Definition act_memory (a : Act) : bool := match a with Kernel e => takes_memory e | _ => false end.

Lemma on_system_done {A} (m : M System A) S k a S' : m S = Done (a, S') -> on_system m (S, k) = Done (a, (S', k)).
Proof. intros E. unfold on_system. simpl. by rewrite E. Qed.

Lemma act_ok me a S k : system_ok S -> legal_act me a S = true ->
  match run_act me a (S, k) with Done (_, (S', _)) => system_ok S' | _ => act_memory a = true /\ ~ room_for_stacks k end.
Proof.
  intros Hok Hl. assert (forall A (m : M System A), (exists r S', m S = Done (r, S') /\ system_ok S') ->
    match on_system (m ;;; ret tt) (S, k) with Done (_, (S', _)) => system_ok S' | _ => act_memory a = true /\ ~ room_for_stacks k end) as Hm.
  { intros A m (r & S' & E & Hok'). rewrite (on_system_done _ S k tt S') by (by rewrite (bind_done _ _ _ _ _ E)). done. }
  assert (forall (m : M System unit), (exists S', m S = Done (tt, S') /\ system_ok S') ->
    match on_system m (S, k) with Done (_, (S', _)) => system_ok S' | _ => act_memory a = true /\ ~ room_for_stacks k end) as Hm1.
  { intros m (S' & E & Hok'). by rewrite (on_system_done _ S k tt S'). }
  destruct a as [e|o| |o|o|o|o count]; cbn [run_act].
  - destruct Hok as (rq & bl & W & HI). pose proof Hl as [Hle _]%andb_true_iff.
    pose proof (event_keeps me e (sched S) rq bl k (si_sched _ _ _ _ HI) Hle) as He. unfold kernel. cbn [fst snd].
    destruct (run_event me e (sched S, k)) as [[[] [s' k']]| |]; [|done..]. destruct He as (rq' & bl' & HI' & Hr). simpl.
    exists rq', bl', W. by apply (kernel_step S rq bl W me e).
  - apply Hm. destruct (acquire_step S me o Hok Hl) as (r & S' & E & Hok' & _). by exists r, S'.
  - apply Hm. destruct (busy me S) as [o|] eqn:Hb.
    + destruct (continue_step S me o Hok Hl Hb) as (r & S' & E & Hok' & _). by exists r, S'.
    + unfold legal_act in Hl. rewrite Hb, andb_false_r in Hl. done.
  - apply Hm. apply andb_true_iff in Hl as [_ Hl]. by apply try_acquire_step.
  - apply Hm1. apply andb_true_iff in Hl as [_ Hl]. by apply release_step.
  - apply Hm1. by apply add_queue_step.
  - apply Hm1. apply andb_true_iff in Hl as [_ Hl]. by apply notify_step.
Qed.

(** One step of the system: a core does what it may, and it ends. *)
Inductive act_step : System * K -> System * K -> Prop :=
  | act_step_act me a S k S' k' :
      legal_act me a S = true -> run_act me a (S, k) = Done (tt, (S', k')) -> act_step (S, k) (S', k').

Lemma act_steps_ok c c' : rtc act_step c c' -> system_ok c.1 -> system_ok c'.1.
Proof.
  induction 1 as [c|c c1 c' Hs _ IH]; [done|]. intros Hok. apply IH. destruct Hs as [me a S k S' k' Hl E].
  pose proof (act_ok me a S k Hok Hl) as Ha. by rewrite E in Ha.
Qed.

Lemma run_act_steps acts : forall c c', run_acts acts c = Done (tt, c') -> rtc act_step c c'.
Proof.
  induction acts as [|[me a] acts IH]; intros [S k] c'; cbn [run_acts]; [intros [= <-]; done|]. rewrite bind_gets. cbn [fst].
  destruct (legal_act me a S) eqn:Hl; [|by apply IH]. unfold bind. destruct (run_act me a (S, k)) as [[[] [S1 k1]]| |] eqn:E; [|done..].
  intros H'. eapply rtc_l; [by econstructor|]. by apply IH.
Qed.

(** An object as its constructor makes it. *)
Definition is_new (ob : Object) : Prop :=
  match ob with
  | OSem st => st = Semaphore_new (sem_count st)
  | OMutex st => st = RecursiveMutex_new
  | OCond st => st = CondQueue_new (cond_id st)
  end.

Definition System_init (count : Z) (times : nat -> Z) (obs : gmap Z Object) : System := mkSystem (Sched_init count times) obs ∅.

Lemma system_init_ok count times obs :
  (forall n, 0 <= times n /\ times n + TASK_TIME_SLICE < W64) -> (forall o ob, obs !! o = Some ob -> is_new ob) ->
  system_ok (System_init count times obs).
Proof.
  intros Ht Hn. destruct (init_ok count times Ht) as (rq & bl & HI). exists rq, bl, (fun _ _ => []).
  split; simpl; try done; try (by intros ? ? ? ? ?%elem_of_nil).
  - split; try done; try (by intros ? ? ? ?%elem_of_nil); try (by intros ? ? ? ? ? ?%elem_of_nil).
    intros o q Hq. rewrite lookup_fmap in Hq. destruct (obs !! o) as [ob|] eqn:Ho; [|done].
    injection Hq as <-. specialize (Hn o ob Ho). destruct ob as [st|st|st]; simpl in *; rewrite Hn; apply new_repr.
  - intros o ob Ho. specialize (Hn o ob Ho). destruct ob as [|st|]; [done| |done]. simpl in *. by rewrite Hn.
  - intros o ob _ (i & u & Hu). by apply elem_of_nil in Hu.
Qed.

(** C2. No wakeup is lost. Cores run tasks which use semaphores, without deadlines.
    Take any state that this leads to from the start on, by steps in any order,
    each one that [legal_act] allows: that the scheduler allows, where a task
    between two rounds of [acquire] does nothing else, a count does not overflow,
    and sleeping tasks are woken by the semaphores only. There
    - the queue of every semaphore holds the tasks [W o i], by priority and in the
      order in which they came, each of them blocked;
    - every task between two rounds of [acquire] is in that queue, or it is
      ready or running and about to try again;
    - while tasks wait for a semaphore, at least as many tasks are about to try
      again as acquisitions would succeed: a waiting task never waits for a
      resource that nobody is going to take.
    And whatever such step a core takes next, it ends: it neither panics nor loops,
    but for the creation of a task when the memory has no room for its stacks.
    With deadlines this does not hold: see [semaphore_timeout_loses_waiter]. *)
Theorem no_wakeup_lost count times obs (k : K) sys k' :
  (forall n, 0 <= times n /\ times n + TASK_TIME_SLICE < W64) ->
  (forall o ob, obs !! o = Some ob -> exists n, ob = OSem (Semaphore_new n)) ->
  rtc act_step (System_init count times obs, k) (sys, k') ->
  (exists W,
      (forall o ob, objects sys !! o = Some ob -> pq_repr (tasks (sched sys), queue_of ob) (W o))
      /\ (forall o i t, t ∈ W o i -> blocked_in (tasks (sched sys)) t)
      /\ (forall t o, inside sys !! t = Some o ->
            (exists i, t ∈ W o i) \/ exists tk, tasks (sched sys) !! t = Some tk /\ (status tk = TaskReady \/ status tk = TaskRunning))
      /\ forall o ob, objects sys !! o = Some ob -> has_waiters W o -> available ob <= Z.of_nat (size (pending sys o)))
  /\ (forall me a, legal_act me a sys = true -> (act_memory a = true -> room_for_stacks k') ->
        exists c, run_act me a (sys, k') = Done (tt, c)).
Proof.
  intros Ht Hn Hr. assert (system_ok sys) as Hok.
  { apply (act_steps_ok _ _ Hr). apply system_init_ok; [done|]. intros o ob Ho. by destruct (Hn o ob Ho) as [n ->]. }
  split; cycle 1.
  { intros me a Hl Hm. pose proof (act_ok me a sys k' Hok Hl) as He.
    destruct (run_act me a (sys, k')) as [[[] c]| |]; [by eexists| |]; destruct He as [He Hno]; by destruct (Hno (Hm He)). }
  destruct Hok as (rq & bl & W & [I1 I2 I3 I4 I5 I6]). exists W. split_and!; [| | |done].
  - intros o ob Ho. apply (wq_repr _ _ _ _ I2). by rewrite lookup_fmap, Ho.
  - intros o i t Hin. destruct (waiter_facts _ _ _ _ _ o i t I1 I2 Hin) as (tk & ? & E & Sb & _). by exists tk.
  - intros t o Hin. destruct (I3 t o Hin) as [_ [?|(tk & E & Ha & _)]]; [by left|right]. by exists tk.
Qed.

(** C25. [Semaphore::acquire] without a deadline does what it is meant to, in the
    round that the call begins with and in every later one that the running task
    goes on with. When the count is positive the task gets the semaphore: the
    count falls by one, nothing else of any object changes, and the call returns
    [true]. Otherwise the task is blocked and has to go on later. In no round
    does the call return without the semaphore. *)
Theorem acquire_correct me o S st (continues : bool) :
  system_ok S -> objects S !! o = Some (OSem st) ->
  legal_act me (if continues then Continue else Acquire o) S = true -> (continues = true -> busy me S = Some o) ->
  exists r S' t, (if continues then continue me else acquire me o) S = Done (r, S') /\ system_ok S'
    /\ current_of (sched S) me = Some t
    /\ if decide (0 < sem_count st)
       then r = Some true /\ objects S' = <[o := OSem (mkSem (sem_count st - 1) (sem_queue st))]> (objects S)
            /\ inside S' = delete t (inside S)
       else r = None /\ status <$> tasks (sched S') !! t = Some TaskBlocked /\ inside S' !! t = Some o.
Proof.
  intros Hok Ho Hl Hb. assert (exists r S', (if continues then continue me else acquire me o) S = Done (r, S') /\ system_ok S'
    /\ current_acquires me o S r S') as (r & S' & E & Hok' & ob & t & tk & Ho' & Hc & _ & Ha).
  { destruct continues; [by apply continue_step; [..|apply Hb]|by apply acquire_step]. }
  rewrite Ho in Ho'. injection Ho' as <-. exists r, S', t. split_and!; [done..|].
  unfold acquires in Ha. cbn [got] in Ha. destruct st as [n q]. cbn [sem_count sem_queue] in *.
  destruct (Z.ltb_spec 0 n); case_decide; done || lia.
Qed.

(** [sys_notify] with a negative count ends, whatever tasks wait without a deadline
    and when nothing interrupts it, and then no task waits for the condition
    variable any more. *)
Lemma notify_all_terminates me o S q cid count :
  system_ok S -> objects S !! o = Some (OCond (mkCond q cid)) -> count < 0 ->
  exists S' q', on_cond o (cond_notify me count) S = Done (tt, S') /\ system_ok S'
    /\ objects S' !! o = Some (OCond (mkCond q' cid)) /\ prio_bitmap q' = 0.
Proof.
  intros (rq & bl & W & HI) Ho Hc. pose proof (total_bound S rq bl W o _ HI Ho) as Hb.
  destruct (notify_all_run me o cid (Datatypes.S (size (tasks (sched S)))) S rq bl W q HI Ho) as (q' & s' & rq' & bl' & W' & E & HI' & Hn); [lia|].
  exists (mkSystem s' (<[o := OCond (mkCond q' cid)]> (objects S)) (inside S)), q'.
  split_and!; [|by exists rq', bl', W'|apply lookup_insert_eq|].
  - unfold on_cond. rewrite Ho. unfold cond_notify. rewrite (proj2 (Z.ltb_lt count 0)) by done.
    rewrite (on_object_done (O := CondQueue) _ (mkCond q cid) (sched S) tt q' s') by (by rewrite bind_gets). reflexivity.
  - pose proof (wq_repr _ _ _ _ (si_waiters _ _ _ _ HI') o q') as HQ. simpl in HQ. rewrite lookup_fmap, lookup_insert_eq in HQ.
    destruct (pr_bits _ _ (HQ eq_refl)) as [Hb0 Hbits]. simpl in *. apply Z.bits_inj_0. intros n.
    destruct (Z.neg_nonneg_cases n) as [Hneg|Hpos]; [by apply Z.testbit_neg_r|]. rewrite Hbits by done.
    apply bool_decide_eq_false. intros Hx. apply Hx. destruct (W' o (Z.to_nat n)) as [|u l] eqn:Ew; [done|].
    exfalso. apply Hn. exists (Z.to_nat n), u. rewrite Ew. left.
Qed.

End guarantees.

(** ** Concrete runs *)

#[local] Existing Instance sample_memory.

(** A semaphore without resources, a mutex and a condition variable. *)
Definition sample_objects : gmap Z Object :=
  <[1 := OSem (Semaphore_new 0)]> (<[2 := OMutex RecursiveMutex_new]> (<[3 := OCond (CondQueue_new 7)]> ∅)).

Lemma sample_objects_new o ob : sample_objects !! o = Some ob -> is_new ob.
Proof. unfold sample_objects. rewrite !lookup_insert_Some. by intros [[_ <-]|[_ [[_ <-]|[_ [[_ <-]|[_ Hx]]]]]]. Qed.

Definition sample_acts : list (Z * Act) :=
  [(0, Kernel (AddCore 0x100000 0x200000)); (0, Kernel (Spawn 0 2)); (0, Kernel (Spawn 0 2)); (0, Kernel (Spawn 0 2));
   (0, Kernel Schedule); (0, Acquire 1); (0, Kernel Schedule); (0, Acquire 2); (0, Acquire 1); (0, Kernel Schedule)].

Definition sample_system (acts : list (Z * Act)) : System :=
  match run_acts acts (System_init 1 sample_clock sample_objects, 0x800000) with
  | Done (_, (sys, _)) => sys
  | _ => System_init 1 sample_clock sample_objects
  end.

Lemma sample_system_ok acts : system_ok (sample_system acts).
Proof.
  pose proof (system_init_ok 1 sample_clock sample_objects sample_clock_ok sample_objects_new) as Hi.
  unfold sample_system. destruct (run_acts acts (System_init 1 sample_clock sample_objects, 0x800000)) as [[[] [sys k]]| |] eqn:E; [|done..].
  exact (act_steps_ok _ _ (run_act_steps _ _ _ E) Hi).
Qed.

Example sample_state :
  let sys := sample_system (sample_acts ++ [(0, Release 1)]) in
  (status_of (sched sys) 1, status_of (sched sys) 2, status_of (sched sys) 3) = (Some TaskReady, Some TaskBlocked, Some TaskRunning)
  /\ elements (pending sys 1) = [1%nat] /\ available <$> objects sys !! 1 = Some 1.
Proof. vm_compute. done. Qed.

(** A task waits for a semaphore with a deadline, another one without; the first
    one times out, and then a resource is released. *)
Definition timeout_run : M (System * Z) (option bool) :=
  run_acts [(0, Kernel (AddCore 0x100000 0x200000)); (0, Kernel (Spawn 0 2)); (0, Kernel (Spawn 0 2)); (0, Kernel Schedule)] ;;;
  on_system (start 0 1) ;;;
  on_system (on_sem 1 (sem_acquire_round 0 (Some 0))) ;;;
  run_acts [(0, Kernel Schedule); (0, Acquire 1); (0, Kernel TimerInterrupt); (0, Kernel Schedule)] ;;;
  let! r := on_system (on_sem 1 (sem_acquire_round 0 (Some 0))) in
  run_acts [(0, Release 1)] ;;;
  ret r.

Definition timed_out : option (option bool * System) :=
  match timeout_run (System_init 1 sample_clock sample_objects, 0x800000) with
  | Done (r, (sys, _)) => Some (r, sys)
  | _ => None
  end.

Lemma release_nobody me st s : prio_bitmap (sem_queue st) = 0 ->
  match sem_release me (st, s) with Done (_, (st', s')) => s' = s /\ sem_queue st' = sem_queue st | _ => True end.
Proof.
  intros Hq. unfold sem_release. rewrite bind_gets. cbn [fst]. unfold bind at 1, lift.
  destruct (add_isize (sem_count st) 1) as [n| |]; [|done..]. cbn [obind fst snd]. unfold put_object. rewrite bind_modify. cbn [fst snd].
  assert (wake_next me (sem_queue st, s) = Done (None, (sem_queue st, s))) as E.
  { unfold wake_next, on_waiters, bind. cbn [fst snd]. unfold pq_pop, bind, gets. cbn [obind fst snd]. rewrite Hq. simpl. by destruct s. }
  rewrite (bind_done _ _ _ _ _ (on_object_done (O := SemaphoreState) _ (mkSem n (sem_queue st)) _ _ _ _ E)). done.
Qed.

(** A timeout of a semaphore loses the tasks that wait behind. The run above
    makes the first task time out, and releases a resource: the count is 1, yet
    the second task is still blocked, no task is about to try again, and
    whatever number of resources are released it is never woken: the queue of
    the semaphore does not know it any more. *)
Theorem semaphore_timeout_loses_waiter :
  exists q sys, timed_out = Some (Some false, sys)
    /\ objects sys !! 1 = Some (OSem (mkSem 1 q))
    /\ status_of (sched sys) 2 = Some TaskBlocked /\ inside sys !! 2%nat = Some 1 /\ pending sys 1 = ∅
    /\ forall me st, sem_queue st = q ->
         match sem_release me (st, sched sys) with Done (_, (st', s')) => s' = sched sys /\ sem_queue st' = q | _ => True end.
Proof.
  set (o := timed_out).
  assert (match o with
    | Some (r, sys) => bool_decide (r = Some false /\ status_of (sched sys) 2 = Some TaskBlocked /\ inside sys !! 2%nat = Some 1 /\ pending sys 1 = ∅)
        && match objects sys !! 1 with Some (OSem st) => (sem_count st =? 1) && (prio_bitmap (sem_queue st) =? 0) | _ => false end
    | None => false end = true) as Hb by (vm_compute; reflexivity).
  destruct o as [[r sys]|]; [|done]. apply andb_true_iff in Hb as [(-> & H1 & H2 & H3)%bool_decide_eq_true Hb].
  destruct (objects sys !! 1) as [[[n q]| |]|] eqn:Ho; try done. apply andb_true_iff in Hb as [Hn%Z.eqb_eq Hq%Z.eqb_eq].
  cbn [sem_count sem_queue] in *. exists q, sys. split_and!; try done; [by rewrite Ho, Hn|].
  intros me st Hst. pose proof (release_nobody me st (sched sys)) as Hr. rewrite Hst in Hr. exact (Hr Hq).
Qed.

(** The first task holds the mutex and sleeps; the second one asks for the mutex
    and is interrupted when it is blocked but not yet in the queue of the mutex,
    and the interrupt runs the scheduler. Then the first task goes on. *)
Definition interrupted_run : M (System * Z) nat :=
  run_acts [(0, Kernel (AddCore 0x100000 0x200000)); (0, Kernel (Spawn 0 2)); (0, Kernel (Spawn 0 2)); (0, Kernel Schedule);
            (0, Acquire 2); (0, Acquire 1); (0, Kernel Schedule)] ;;;
  let! t := on_system (on_mutex 2 (on_object (block_in 0 None))) in
  run_acts [(0, Kernel Schedule); (0, Release 1); (0, Kernel Schedule)] ;;;
  ret t.

Definition interrupted : option (nat * System) :=
  match interrupted_run (System_init 1 sample_clock sample_objects, 0x800000) with
  | Done (t, (sys, _)) => Some (t, sys)
  | _ => None
  end.

(** A recursive mutex loses a task that is interrupted between the two steps of
    waiting, for its lock leaves interrupts enabled: the task is blocked and in no
    queue of the mutex, so that no release wakes it. In the code it has the lock
    of the mutex as well, so that the release does not even get that far. *)
Theorem recmutex_interrupt_loses_waiter :
  exists sys st, interrupted = Some (2%nat, sys)
    /\ objects sys !! 2 = Some (OMutex st) /\ current_tid st = Some 1 /\ status_of (sched sys) 1 = Some TaskRunning
    /\ status_of (sched sys) 2 = Some TaskBlocked
    /\ match mutex_release 0 (st, sched sys) with
       | Done (_, (st', s')) => s' = sched sys /\ current_tid st' = None
       | _ => False
       end.
Proof.
  set (o := interrupted).
  assert (match o with
    | Some (t, sys) => bool_decide (t = 2%nat /\ status_of (sched sys) 1 = Some TaskRunning /\ status_of (sched sys) 2 = Some TaskBlocked)
        && match objects sys !! 2 with
           | Some (OMutex st) => bool_decide (current_tid st = Some 1) && (mx_count st =? 1) && (prio_bitmap (mx_queue st) =? 0)
           | _ => false
           end
    | None => false end = true) as Hb by (vm_compute; reflexivity).
  destruct o as [[t sys]|]; [|done]. apply andb_true_iff in Hb as [(-> & H1 & H2)%bool_decide_eq_true Hb].
  destruct (objects sys !! 2) as [[|[ct n q]|]|] eqn:Ho; try done.
  apply andb_true_iff in Hb as [[Hct%bool_decide_eq_true Hn%Z.eqb_eq]%andb_true_iff Hq%Z.eqb_eq]. cbn in Hct, Hn, Hq. subst ct n.
  exists sys, (mkMutex (Some 1) 1 q). split_and!; try done.
  unfold mutex_release. rewrite bind_gets. cbn [fst mx_count].
  rewrite (bind_lift_done _ _ 0) by reflexivity. cbn [Z.eqb]. unfold put_object. rewrite bind_modify. cbn [fst snd mx_queue].
  assert (wake_next 0 (q, sched sys) = Done (None, (q, sched sys))) as E.
  { unfold wake_next, on_waiters, bind. cbn [fst snd]. unfold pq_pop, bind, gets. cbn [obind fst snd]. rewrite Hq. simpl. by destruct (sched sys). }
  rewrite (bind_done _ _ _ _ _ (on_object_done (O := RecursiveMutexState) _ (mkMutex None 0 q) _ _ _ _ E)). done.
Qed.

(** Two semaphores, without resources and with one. *)
Definition sample_semaphores : gmap Z Object := <[1 := OSem (Semaphore_new 0)]> (<[2 := OSem (Semaphore_new 1)]> ∅).

Lemma sample_semaphores_new o ob : sample_semaphores !! o = Some ob -> exists n, ob = OSem (Semaphore_new n).
Proof. unfold sample_semaphores. rewrite !lookup_insert_Some. intros [[_ <-]|[_ [[_ <-]|[_ Hx]]]]; [by eexists|by eexists|done]. Qed.

(** Three tasks: the first waits for semaphore 1, the second gets semaphore 2 and
    waits for the first one too; then the next release, and the next task, are
    steps that end. *)
Lemma no_wakeup_lost_witness :
  (forall n, 0 <= sample_clock n /\ sample_clock n + TASK_TIME_SLICE < W64)
  /\ (exists ob, sample_semaphores !! 1 = Some ob)
  /\ match run_acts sample_acts (System_init 1 sample_clock sample_semaphores, 0x800000) with
     | Done (_, (sys, k)) =>
         (exists W ob, objects sys !! 1 = Some ob /\ pq_repr (tasks (sched sys), queue_of ob) (W 1))
         /\ (exists c, run_act 0 (Release 1) (sys, k) = Done (tt, c)) /\ (exists c, run_act 0 (Kernel (Spawn 0 3)) (sys, k) = Done (tt, c))
     | _ => False
     end.
Proof.
  split; [apply sample_clock_ok|]. split; [by exists (OSem (Semaphore_new 0))|].
  assert (match run_acts sample_acts (System_init 1 sample_clock sample_semaphores, 0x800000) with
    | Done (_, (sys, k)) => bool_decide (is_Some (objects sys !! 1)) && legal_act 0 (Release 1) sys
        && legal_act 0 (Kernel (Spawn 0 3)) sys && room_for_stacksb k
    | _ => false end = true) as E by (vm_compute; reflexivity).
  destruct (run_acts sample_acts (System_init 1 sample_clock sample_semaphores, 0x800000)) as [[[] [sys k]]| |] eqn:Er; [|discriminate E..].
  apply andb_true_iff in E as [[[[ob Ho]%bool_decide_eq_true L1]%andb_true_iff L2]%andb_true_iff L3].
  destruct (no_wakeup_lost 1 sample_clock sample_semaphores 0x800000 sys k sample_clock_ok sample_semaphores_new (run_act_steps _ _ _ Er))
    as [(W & HQ & _) Hnext].
  split; [exists W, ob; split; [exact Ho|apply (HQ 1 ob Ho)]|]. split.
  - apply (Hnext 0 (Release 1) L1). discriminate.
  - apply (Hnext 0 (Kernel (Spawn 0 3)) L2). intros _. by apply room_for_stacks_decided.
Defined.

(** The third task takes the semaphore after it released it. *)
Lemma acquire_correct_witness :
  let S := sample_system (sample_acts ++ [(0, Release 1)]) in
  legal_act 0 (Acquire 1) S = true /\ exists r S', acquire 0 1 S = Done (r, S') /\ system_ok S' /\ r = Some true.
Proof.
  cbv zeta. set (S := sample_system (sample_acts ++ [(0, Release 1)])).
  assert (legal_act 0 (Acquire 1) S = true) as Hl by (vm_compute; reflexivity). split; [exact Hl|].
  assert (match objects S !! 1 with Some (OSem st) => sem_count st =? 1 | _ => false end = true) as Hb by (vm_compute; reflexivity).
  pose proof (sample_system_ok (sample_acts ++ [(0, Release 1)])) as Hok. fold S in Hok. clearbody S.
  destruct (objects S !! 1) as [[st| |]|] eqn:Ho; try discriminate Hb. apply Z.eqb_eq in Hb.
  destruct (acquire_correct 0 1 S st false Hok Ho Hl) as (r & S' & t & E & Hok' & _ & H'); [discriminate|].
  exists r, S'. rewrite decide_True in H' by lia. split; [exact E|]. split; [exact Hok'|apply H'].
Defined.
