(* ===== verification/Calls.v ===== *)
(** * System calls on objects of the kernel: src/syscalls/semaphore.rs, recmutex.rs,
    condvar.rs, spinlock.rs and tasks.rs

    The functions that [kernel_function!] calls for an application. Objects are boxed, and
    an application names them by their addresses, which it gets in words of its memory.
    Following a pointer that is not the address of such an object is a [Panic] here;
    the result of Box::new is an argument. *)

From stdpp Require Import base numbers list gmap.
From Stdlib Require Import ZArith Lia.
From S2P Require Import Prelude Links Mm Collections TaskQueue Tasks Scheduler Ready Waiting Scheduling Dispatch Tasking Cores WaitQueue Synch.
From S2P Require Spinlock.

#[local] Open Scope Z_scope.

(** errno.rs *)
Definition EINVAL : Z := 22.
Definition ENOSYS : Z := 38.
Definition ETIME : Z := 62.
Definition ECANCELED : Z := 125.

(** [SpinlockContainer] and [SpinlockIrqSaveContainer]; the guard holds the lock. *)
Record SpinlockContainer := mkContainer { lock : Spinlock.Lock unit; guard : bool }.

(** The machine with its semaphores, mutexes and queues, and what the calls add: words of the
    applications, spinlocks, whether interrupts are on, and the counters of the file. *)
Record Calls (K : Type) := mkCalls {
  machine : System * K;
  user : gmap Z Z;
  containers : gmap Z SpinlockContainer;
  interrupts : bool;
  SBRK_COUNTER : Z;
  CORE_COUNTER : Z
}.
Arguments mkCalls {K} _ _ _ _ _ _.
Arguments machine {K} _.
Arguments user {K} _.
Arguments containers {K} _.
Arguments interrupts {K} _.
Arguments SBRK_COUNTER {K} _.
Arguments CORE_COUNTER {K} _.

Section calls.

Context {K : Type} `{KernelMemory K}.

(** The core; the words isolated code may use *)
Context (me : Z) (open : Z -> bool).

Abbreviation Run := (M (Calls K)).

Definition on_machine {A} (o : M (System * K) A) : Run A := fun s =>
  let? (a, m) := o (machine s) in
  Done (a, mkCalls m (user s) (containers s) (interrupts s) (SBRK_COUNTER s) (CORE_COUNTER s)).

Definition on_objects {A} (o : M System A) : Run A := on_machine (on_system o).
Definition on_scheduler {A} (o : M Sched A) : Run A := on_machine (kernel (on_sched o)).

(** [isolation_start!(); .. *p ..; isolation_end!()] *)
Definition user_load (p : Z) : Run Z :=
  if open p then let! u := gets user in ret (default 0 (u !! p)) else panic.

Definition user_store (p v : Z) : Run unit :=
  if open p then modify (fun s =>
    mkCalls (machine s) (<[p := v]> (user s)) (containers s) (interrupts s) (SBRK_COUNTER s) (CORE_COUNTER s))
  else panic.

(** [Box::into_raw(Box::new(ob))], at [address] *)
Definition new_object (address : Z) (ob : Object) : M System unit :=
  modify (fun S => mkSystem (sched S) (<[address := ob]> (objects S)) (inside S)).

(** [reschedule] *)
Definition reschedule : Run unit := on_scheduler (scheduler me ;;; ret tt).

(** ** semaphore.rs *)

(** [value as isize] of a [u32] *)
Definition sys_sem_init (sem value address : Z) : Run Z :=
  if sem =? 0 then ret (- EINVAL)
  else
    on_objects (new_object address (OSem (Semaphore_new value))) ;;;
    user_store sem address ;;;
    ret 0.

(** The [Box] is not dropped: that part is commented out. *)
Definition sys_sem_destroy (sem : Z) : Run Z :=
  if sem =? 0 then ret (- EINVAL) else ret 0.

Definition sys_sem_post (sem : Z) : Run Z :=
  if sem =? 0 then ret (- EINVAL)
  else on_objects (on_sem sem (sem_release me)) ;;; ret 0.

Definition sys_sem_trywait (sem : Z) : Run Z :=
  if sem =? 0 then ret (- EINVAL)
  else
    let! b := on_objects (on_sem sem sem_try_acquire) in
    ret (if b : bool then 0 else - ECANCELED).

(** A round of [acquire] with a deadline, by the task [t] *)
Definition sem_round_of (t : nat) (sem : Z) (wakeup_time : option Z) : M System (option bool) :=
  let! r := on_sem sem (sem_acquire_round me wakeup_time) in
  set_inside (match r with Some _ => delete t | None => <[t := sem]> end) ;;;
  ret r.

Definition current_id : M System nat :=
  let! t := gets (fun S => current_of (sched S) me) in
  lift (unwrap t).

Definition sem_acquire (sem : Z) (wakeup_time : option Z) : M System (option bool) :=
  let! t := current_id in
  on_sem sem (on_sched_of (reset_reason me)) ;;;
  sem_round_of t sem wakeup_time.

Definition timedwait_result (wakeup_time : option Z) (r : option bool) : Z + option Z :=
  match r with Some true => inl 0 | Some false => inl (- ETIME) | None => inr wakeup_time end.

(** The first round, with the result or, if the task is blocked, the deadline to go on with *)
Definition sys_sem_timedwait (sem ms : Z) : Run (Z + option Z) :=
  if sem =? 0 then ret (inl (- EINVAL))
  else
    let! wakeup_time :=
      if 0 <? ms then
        let! ticks := on_scheduler get_timer_ticks in
        let! d := lift (mul64 ms 1000) in
        let! w := lift (add64 ticks d) in
        ret (Some w)
      else ret None in
    let! r := on_objects (sem_acquire sem wakeup_time) in
    ret (timedwait_result wakeup_time r).

(** A later round *)
Definition sem_timedwait_again (sem : Z) (wakeup_time : option Z) : Run (Z + option Z) :=
  let! r := on_objects (let! t := current_id in sem_round_of t sem wakeup_time) in
  ret (timedwait_result wakeup_time r).

Definition sys_sem_cancelablewait (sem ms : Z) : Run (Z + option Z) := sys_sem_timedwait sem ms.

(** ** recmutex.rs *)

Definition sys_recmutex_init (recmutex address : Z) : Run Z :=
  if recmutex =? 0 then ret (- EINVAL)
  else
    on_objects (new_object address (OMutex RecursiveMutex_new)) ;;;
    user_store recmutex address ;;;
    ret 0.

Definition sys_recmutex_destroy (recmutex : Z) : Run Z :=
  if recmutex =? 0 then ret (- EINVAL) else ret 0.

(** [None]: the task is blocked and goes on with [Synch.continue]. *)
Definition sys_recmutex_lock (recmutex : Z) : Run (option Z) :=
  if recmutex =? 0 then ret (Some (- EINVAL))
  else
    let! r := on_objects (acquire me recmutex) in
    ret (match r with Some _ => Some 0 | None => None end).

Definition sys_recmutex_unlock (recmutex : Z) : Run Z :=
  if recmutex =? 0 then ret (- EINVAL)
  else on_objects (on_mutex recmutex (mutex_release me)) ;;; ret 0.

(** ** condvar.rs *)

Definition drop_object (address : Z) : M System unit :=
  modify (fun S => mkSystem (sched S) (delete address (objects S)) (inside S)).

Definition sys_destroy_queue (ptr : Z) : Run Z :=
  if ptr =? 0 then ret (-1)
  else
    let! temp_id := user_load ptr in
    (if negb (temp_id =? 0) then
       on_objects (on_cond temp_id (ret tt)) ;;;
       on_objects (drop_object temp_id) ;;;
       user_store ptr 0
     else ret tt) ;;;
    ret 0.

(** The word is read before the pointer is tested. *)
Definition sys_notify (ptr count : Z) : Run Z :=
  let! temp_id := user_load ptr in
  if (ptr =? 0) || (temp_id =? 0) then ret (-1)
  else
    let! id := user_load ptr in
    on_objects (on_cond id (cond_notify me count)) ;;;
    ret 0.

Definition sys_add_queue (ptr timeout_ns address : Z) : Run Z :=
  if ptr =? 0 then ret (-1)
  else
    let! temp_id := user_load ptr in
    (if temp_id =? 0 then
       on_objects (new_object address (OCond (CondQueue_new ptr))) ;;;
       user_store ptr address
     else ret tt) ;;;
    let wakeup_time := if timeout_ns <=? 0 then None else Some (timeout_ns / 1000) in
    let! id := user_load ptr in
    on_objects (on_cond id (cond_add_queue me wakeup_time)) ;;;
    ret 0.

Definition sys_wait (ptr : Z) : Run Z := reschedule ;;; ret 0.

(** ** spinlock.rs *)

Definition set_containers (f : gmap Z SpinlockContainer -> gmap Z SpinlockContainer) : Run unit :=
  modify (fun s => mkCalls (machine s) (user s) (f (containers s)) (interrupts s) (SBRK_COUNTER s) (CORE_COUNTER s)).
Definition set_interrupts (b : bool) : Run unit :=
  modify (fun s => mkCalls (machine s) (user s) (containers s) b (SBRK_COUNTER s) (CORE_COUNTER s)).

Definition sys_spinlock_init (p address : Z) : Run Z :=
  if p =? 0 then ret (- EINVAL)
  else
    set_containers <[address := mkContainer (Spinlock.Lock_new tt) false]> ;;;
    user_store p address ;;;
    ret 0.

(** The container at an address *)
Definition container (p : Z) : Run SpinlockContainer :=
  let! cs := gets containers in lift (unwrap (cs !! p)).

(** [container.lock.lock()]: nothing else runs while this core waits. *)
Definition obtain_lock (kind : Spinlock.Kind) (p : Z) : Run unit :=
  let! was := gets interrupts in
  (match kind with Spinlock.IrqSave => set_interrupts false | Spinlock.Plain => ret tt end) ;;;
  let! c := container p in
  let! r := lift (Spinlock.take_ticket (lock c)) in
  set_containers <[p := mkContainer r.2 (guard c)]> ;;;
  if Spinlock.my_turn r.2 r.1 then
    match kind with
    | Spinlock.IrqSave => set_containers (alter (fun c => mkContainer (Spinlock.store_irq was (lock c)) (guard c)) p)
    | Spinlock.Plain => ret tt
    end
  else out_of_fuel.

(** The drop of the guard *)
Definition drop_guard (kind : Spinlock.Kind) (p : Z) : Run unit :=
  let! c := container p in
  match kind with
  | Spinlock.IrqSave =>
      let r := Spinlock.swap_irq (lock c) in
      set_containers <[p := mkContainer (Spinlock.next_ticket r.2) false]> ;;;
      if r.1 then set_interrupts true else ret tt
  | Spinlock.Plain => set_containers <[p := mkContainer (Spinlock.next_ticket (lock c)) false]>
  end.

(** The functions for both kinds of locks are the same but for the kind. *)
Definition sys_spinlock_destroy (kind : Spinlock.Kind) (p : Z) : Run Z :=
  if p =? 0 then ret (- EINVAL)
  else
    let! c := container p in
    (if guard c then drop_guard kind p else ret tt) ;;;
    set_containers (delete p) ;;;
    ret 0.

(** [sys_spinlock_lock] is two steps: the assertion that no guard is stored, and
    taking the lock and storing its guard. Another core may act in between. *)
Definition spinlock_lock_check (p : Z) : Run unit :=
  let! c := container p in
  massert (negb (guard c)).
Definition spinlock_lock_take (kind : Spinlock.Kind) (p : Z) : Run unit :=
  obtain_lock kind p ;;;
  set_containers (alter (fun c => mkContainer (lock c) true) p).

(** The call when no other core acts in between *)
Definition sys_spinlock_lock (kind : Spinlock.Kind) (p : Z) : Run Z :=
  if p =? 0 then ret (- EINVAL)
  else
    spinlock_lock_check p ;;;
    spinlock_lock_take kind p ;;;
    ret 0.

Definition sys_spinlock_unlock (kind : Spinlock.Kind) (p : Z) : Run Z :=
  if p =? 0 then ret (- EINVAL)
  else
    let! c := container p in
    massert (guard c) ;;;
    drop_guard kind p ;;;
    ret 0.

Definition sys_spinlock_irqsave_init (p address : Z) : Run Z := sys_spinlock_init p address.
Definition sys_spinlock_irqsave_destroy (p : Z) : Run Z := sys_spinlock_destroy Spinlock.IrqSave p.
Definition sys_spinlock_irqsave_lock (p : Z) : Run Z := sys_spinlock_lock Spinlock.IrqSave p.
Definition sys_spinlock_irqsave_unlock (p : Z) : Run Z := sys_spinlock_unlock Spinlock.IrqSave p.

(** ** tasks.rs *)

Definition current_borrowed : Run Task :=
  on_scheduler (let! c := core_scheduler me in borrow_task (current_task c)).

Definition sys_getpid : Run Z :=
  let! t := current_borrowed in ret (id t).

Definition sys_getprio (p : Z) : Run Z :=
  let! current_task_borrowed := current_borrowed in
  let! own := if p =? 0 then ret true else let! temp := user_load p in ret (temp =? id current_task_borrowed) in
  if own : bool then ret (prio current_task_borrowed) else ret (- EINVAL).

Definition sys_setprio : Run Z := ret (- ENOSYS).

Definition sys_thread_exit : Run Switching := on_scheduler (exit me).

Definition set_sbrk_counter (v : Z) : Run unit :=
  modify (fun s => mkCalls (machine s) (user s) (containers s) (interrupts s) v (CORE_COUNTER s)).

Definition sbrk_init (task_heap_start : Z) : Run unit := set_sbrk_counter task_heap_start.

(** [incr.abs()] overflows for the least [isize]; [fetch_add] and [fetch_sub] wrap around. *)
Definition sys_sbrk (task_heap_start task_heap_end incr : Z) : Run Z :=
  let! old_end := gets SBRK_COUNTER in
  if 0 <=? incr then
    set_sbrk_counter ((old_end + incr) mod W64) ;;;
    let! end_ := lift (add64 old_end incr) in
    massert (end_ <=? task_heap_end) ;;;
    ret old_end
  else
    massert (negb (incr =? - 2 ^ 63)) ;;;
    set_sbrk_counter ((old_end - Z.abs incr) mod W64) ;;;
    let! end_ := lift (sub64 old_end (Z.abs incr)) in
    massert (task_heap_start <? end_) ;;;
    ret old_end.

(** [sys_usleep]; a short time is waited for by [udelay], whose argument is the result. *)
Definition sys_usleep (usecs : Z) : Run (option Z) :=
  if TASK_TIME_SLICE <? usecs then
    let! ticks := on_scheduler get_timer_ticks in
    let! wakeup_time := lift (add64 ticks usecs) in
    on_scheduler (block_current me (Some wakeup_time)) ;;;
    reschedule ;;;
    ret None
  else if 0 <? usecs then ret (Some usecs) else ret None.

Definition sys_yield : Run unit := reschedule.

Definition sys_kill : Run Z := ret (- ENOSYS).
Definition sys_signal : Run Z := ret 0.

Definition store_id (p tid : Z) : Run unit :=
  if negb (p =? 0) then user_store p tid else ret tt.

Definition sys_clone (p : Z) : Run Z :=
  let! task_id := on_machine (kernel (clone me)) in
  store_id p task_id ;;;
  ret 0.

(** [CORE_COUNTER.fetch_add(1)]; [%] panics for no processors. *)
Definition choose_core (selector processors : Z) : Run Z :=
  if selector <? 0 then
    let! n := gets CORE_COUNTER in
    modify (fun s => mkCalls (machine s) (user s) (containers s) (interrupts s) (SBRK_COUNTER s) ((n + 1) mod W64)) ;;;
    if processors =? 0 then panic else ret (n mod processors)
  else ret selector.

Definition sys_spawn (p prio selector processors : Z) : Run Z :=
  let! core_id := choose_core selector processors in
  let! task_id := on_machine (kernel (spawn me core_id prio)) in
  store_id p task_id ;;;
  ret 0.

(** A run of the scheduler follows if the task waits. *)
Definition sys_join (tid : Z) : Run Z :=
  let! r := on_scheduler (join me tid) in
  ret (match r with Ok _ => 0 | Err _ => - EINVAL end).

End calls.

(** ** Correctness *)

Section correct.

Context {K : Type} `{KernelMemory K}.
Context (me : Z) (open : Z -> bool).

Implicit Types (s : Calls K).

(** *** Spinlocks *)

(** A lock no core waits for *)
Definition container_ok (c : SpinlockContainer) : Prop :=
  0 <= Spinlock.queue (lock c) /\ Spinlock.queue (lock c) + 1 < W64 /\
  Spinlock.dequeue (lock c) = Spinlock.queue (lock c) + (if guard c then 0 else 1).

Definition with_container (p : Z) (c : SpinlockContainer) (i : bool) s : Calls K :=
  mkCalls (machine s) (user s) (<[p := c]> (containers s)) i (SBRK_COUNTER s) (CORE_COUNTER s).

Lemma container_run s p c {A} (k : SpinlockContainer -> M (Calls K) A) :
  containers s !! p = Some c -> bind (container p) k s = k c s.
Proof. intros E. unfold container. by rewrite bind_assoc, bind_gets, E. Qed.

(** The container of a lock that is taken, and of one that is given back *)
Definition taken (kind : Spinlock.Kind) (was : bool) (c : SpinlockContainer) : SpinlockContainer :=
  mkContainer (Spinlock.mkLock (Spinlock.queue (lock c) + 1) (Spinlock.dequeue (lock c))
    (match kind with Spinlock.IrqSave => was | Spinlock.Plain => Spinlock.irq (lock c) end) (Spinlock.data (lock c))) true.

Definition given_back (kind : Spinlock.Kind) (c : SpinlockContainer) : SpinlockContainer :=
  mkContainer (Spinlock.mkLock (Spinlock.queue (lock c)) (Spinlock.dequeue (lock c) + 1)
    (match kind with Spinlock.IrqSave => false | Spinlock.Plain => Spinlock.irq (lock c) end) (Spinlock.data (lock c))) false.

(** The step that takes a lock which no core holds or waits for *)
Lemma spinlock_take_run kind p c s :
  containers s !! p = Some c -> container_ok c -> guard c = false ->
  spinlock_lock_take kind p s = Done (tt, with_container p (taken kind (interrupts s) c)
      (match kind with Spinlock.IrqSave => false | Spinlock.Plain => interrupts s end) s).
Proof.
  intros E (Hq & Hw & Hd) Eg. unfold spinlock_lock_take.
  destruct c as [[q d i []] g]. cbn in Hq, Hw, Hd, Eg. subst g d.
  assert (Et : Spinlock.take_ticket (Spinlock.mkLock q (q + 1) i tt) = Done (q + 1, Spinlock.mkLock (q + 1) (q + 1) i tt)).
  { unfold Spinlock.take_ticket. cbn [Spinlock.queue]. rewrite add64_done by lia. cbn. by rewrite Z.mod_small by lia. }
  unfold obtain_lock. rewrite bind_assoc, bind_gets. destruct kind; unfold set_interrupts, set_containers.
  - rewrite bind_assoc, bind_ret, bind_assoc, (container_run s p _ _ E), bind_assoc. cbn [lock]. rewrite (bind_lift_done _ _ _ _ Et).
    rewrite bind_assoc, bind_modify. unfold Spinlock.my_turn. cbn [fst snd Spinlock.dequeue guard]. rewrite Z.eqb_refl.
    rewrite bind_ret. unfold modify, with_container, taken. cbn. by rewrite alter_insert_eq.
  - rewrite bind_assoc, bind_modify, bind_assoc.
    match goal with |- context [bind (container p) ?k ?s'] => rewrite (container_run s' p _ k E) end.
    rewrite bind_assoc. cbn [lock]. rewrite (bind_lift_done _ _ _ _ Et).
    rewrite bind_assoc, bind_modify. unfold Spinlock.my_turn. cbn [fst snd Spinlock.dequeue guard]. rewrite Z.eqb_refl.
    rewrite bind_modify. unfold modify, with_container, taken. cbn. by rewrite !alter_insert_eq.
Qed.

(** A call that nothing comes between takes a free lock at once; if a guard is
    stored, by whatever task or core, the kernel panics. *)
Theorem spinlock_lock_correct kind p c s :
  p <> 0 -> containers s !! p = Some c -> container_ok c ->
  sys_spinlock_lock kind p s =
    if guard c then Panic
    else Done (0, with_container p (taken kind (interrupts s) c)
      (match kind with Spinlock.IrqSave => false | Spinlock.Plain => interrupts s end) s).
Proof.
  intros Hp E Hok. unfold sys_spinlock_lock. destruct (Z.eqb_spec p 0); [done|]. unfold spinlock_lock_check.
  rewrite bind_assoc, (container_run s p c) by done. destruct (guard c) eqn:Eg; [done|]. rewrite bind_massert by done.
  by rewrite (bind_done _ _ _ _ _ (spinlock_take_run kind p c s E Hok Eg)).
Qed.

(** Two cores that both pass the assertion before either takes the lock: the
    first one gets it; the second one takes a ticket and waits for its turn. A
    core that comes later panics at the assertion. *)
Theorem spinlock_second_waits p c s :
  containers s !! p = Some c -> container_ok c -> guard c = false -> Spinlock.queue (lock c) + 2 < W64 ->
  exists s1, spinlock_lock_check p s = Done (tt, s) /\ spinlock_lock_take Spinlock.Plain p s = Done (tt, s1)
    /\ spinlock_lock_take Spinlock.Plain p s1 = OutOfFuel /\ spinlock_lock_check p s1 = Panic.
Proof.
  intros E Hok Hg Hw. eexists. split_and!.
  - unfold spinlock_lock_check. rewrite (container_run s p c _ E), Hg. done.
  - exact (spinlock_take_run Spinlock.Plain p c s E Hok Hg).
  - destruct Hok as (Hq & _ & Hd). destruct c as [[q d i []] g]. cbn in Hq, Hw, Hd, Hg. subst g d.
    unfold spinlock_lock_take, obtain_lock. rewrite bind_assoc, bind_gets, bind_assoc, bind_ret, bind_assoc.
    match goal with |- context [bind (container p) ?k ?s'] =>
      rewrite (container_run s' p (taken Spinlock.Plain (interrupts s) (mkContainer (Spinlock.mkLock q (q + 1) i tt) false)) k)
        by (cbn; apply lookup_insert_eq) end.
    rewrite bind_assoc. unfold Spinlock.take_ticket, taken. cbn [lock Spinlock.queue Spinlock.dequeue Spinlock.irq Spinlock.data].
    rewrite (add64_done (q + 1) 1) by lia. cbn [obind]. rewrite (bind_lift_done _ _ _ _ eq_refl).
    rewrite bind_assoc. unfold set_containers at 1. rewrite bind_modify. unfold Spinlock.my_turn. cbn [fst snd Spinlock.dequeue].
    rewrite (proj2 (Z.eqb_neq (q + 1) (q + 1 + 1))) by lia. done.
  - unfold spinlock_lock_check.
    match goal with |- bind (container p) ?k ?s' = _ => rewrite (container_run s' p (taken Spinlock.Plain (interrupts s) c) k)
      by (cbn; apply lookup_insert_eq) end. done.
Qed.

Theorem spinlock_unlock_correct kind p c s :
  p <> 0 -> containers s !! p = Some c -> container_ok c ->
  sys_spinlock_unlock kind p s =
    if guard c then Done (0, with_container p (given_back kind c)
      (match kind with Spinlock.IrqSave => Spinlock.irq (lock c) || interrupts s | Spinlock.Plain => interrupts s end) s)
    else Panic.
Proof.
  intros Hp E (Hq & Hw & Hd). unfold sys_spinlock_unlock. destruct (Z.eqb_spec p 0); [done|].
  rewrite (container_run s p c) by done. destruct (guard c) eqn:Eg; [|done]. rewrite bind_massert by done.
  destruct c as [[q d i []] g]. cbn in Hq, Hw, Hd, Eg. subst g. rewrite Z.add_0_r in Hd. subst d.
  unfold drop_guard. rewrite bind_assoc, (container_run s p _ _ E). cbn [lock].
  assert (En : forall j, Spinlock.next_ticket (Spinlock.mkLock q q j tt) = Spinlock.mkLock q (q + 1) j tt).
  { intros j. unfold Spinlock.next_ticket. cbn. by rewrite Z.mod_small by lia. }
  destruct kind; unfold set_interrupts, set_containers.
  - rewrite En, bind_modify. reflexivity.
  - unfold Spinlock.swap_irq. cbn [fst snd Spinlock.irq]. unfold Spinlock.store_irq. cbn [Spinlock.queue Spinlock.dequeue Spinlock.data].
    rewrite En, bind_assoc, bind_modify. by destruct i.
Qed.

Lemma container_ok_taken kind was c : container_ok c -> guard c = false -> Spinlock.queue (lock c) + 2 < W64 -> container_ok (taken kind was c).
Proof. intros (H1 & H2 & H3) Hg Hw. rewrite Hg in H3. unfold container_ok, taken. cbn. lia. Qed.

Lemma container_ok_given_back kind c : container_ok c -> guard c = true -> container_ok (given_back kind c).
Proof. intros (H1 & H2 & H3) Hg. rewrite Hg in H3. unfold container_ok, given_back. cbn. lia. Qed.

(** *** Growing the heap of the tasks *)

(** A break between the bounds, as calls move it, and the old breaks they return *)
Fixpoint breaks (heap_start heap_end brk : Z) (incrs : list Z) : option (list Z * Z) :=
  match incrs with
  | [] => Some ([], brk)
  | incr :: l =>
      if (if 0 <=? incr then brk + incr <=? heap_end else heap_start <? brk + incr) then
        '(olds, b) ← breaks heap_start heap_end (brk + incr) l; Some (brk :: olds, b)
      else None
  end.

Fixpoint run_sbrk (heap_start heap_end : Z) (incrs : list Z) : M (Calls K) (list Z) :=
  match incrs with
  | [] => ret []
  | incr :: l =>
      let! old := sys_sbrk heap_start heap_end incr in
      let! olds := run_sbrk heap_start heap_end l in
      ret (old :: olds)
  end.

Definition with_break (b : Z) s : Calls K :=
  mkCalls (machine s) (user s) (containers s) (interrupts s) b (CORE_COUNTER s).

Lemma sys_sbrk_run heap_start heap_end incr s :
  0 <= heap_start -> heap_end < 2 ^ 63 -> heap_start <= SBRK_COUNTER s <= heap_end -> - 2 ^ 63 <= incr < 2 ^ 63 ->
  sys_sbrk heap_start heap_end incr s =
    if (if 0 <=? incr then SBRK_COUNTER s + incr <=? heap_end else heap_start <? SBRK_COUNTER s + incr)
    then Done (SBRK_COUNTER s, with_break (SBRK_COUNTER s + incr) s) else Panic.
Proof.
  intros H0 He Hc Hi. assert (HW : W64 = 2 * 2 ^ 63) by done. unfold sys_sbrk. rewrite bind_gets. unfold set_sbrk_counter.
  destruct (Z.leb_spec 0 incr).
  - rewrite bind_modify, Z.mod_small by lia. rewrite (bind_lift_done _ _ _ _ (add64_done (SBRK_COUNTER s) incr ltac:(lia))).
    unfold bind, massert, lift. by destruct (_ <=? heap_end).
  - destruct (Z.eqb_spec incr (- 2 ^ 63)) as [->|].
    { destruct (Z.ltb_spec heap_start (SBRK_COUNTER s + - 2 ^ 63)); [lia|done]. }
    rewrite bind_massert by done. rewrite bind_modify. destruct (Z.ltb_spec heap_start (SBRK_COUNTER s + incr)) as [Hl|Hl].
    + rewrite Z.mod_small by lia. rewrite (bind_lift_done _ _ _ _ (sub64_done (SBRK_COUNTER s) (Z.abs incr) ltac:(lia))).
      replace (SBRK_COUNTER s - Z.abs incr) with (SBRK_COUNTER s + incr) by lia.
      unfold bind, massert, lift. by destruct (Z.ltb_spec heap_start (SBRK_COUNTER s + incr)); [|lia].
    + unfold bind, lift, sub64, checked. destruct (_ && _); [|done]. cbn [obind fst snd]. unfold massert, lift.
      by destruct (Z.ltb_spec heap_start (SBRK_COUNTER s - Z.abs incr)); [lia|].
Qed.

(** Whatever sequence of calls of [sys_sbrk] applications make, the kernel panics at the
    first that leaves the heap of the tasks and otherwise returns the old breaks, all
    breaks being in the heap; so what a growing call hands out lies in the heap. *)
Theorem sbrk_correct heap_start heap_end incrs s :
  0 <= heap_start -> heap_end < 2 ^ 63 -> heap_start <= SBRK_COUNTER s <= heap_end ->
  Forall (fun i => - 2 ^ 63 <= i < 2 ^ 63) incrs ->
  match breaks heap_start heap_end (SBRK_COUNTER s) incrs with
  | Some (olds, b) => run_sbrk heap_start heap_end incrs s = Done (olds, with_break b s) /\ heap_start <= b <= heap_end /\ Forall2 (fun old incr => heap_start <= old + incr <= heap_end /\ heap_start <= old <= heap_end) olds incrs
  | None => run_sbrk heap_start heap_end incrs s = Panic
  end.
Proof.
  intros H0 He. revert s. induction incrs as [|incr l IH]; intros s Hc Hi.
  { split_and!; [|lia|lia|constructor]. unfold with_break. by destruct s. }
  apply Forall_cons in Hi as [Hi Hl]. cbn [breaks run_sbrk]. pose proof (sys_sbrk_run heap_start heap_end incr s H0 He Hc Hi) as E.
  destruct (if 0 <=? incr then SBRK_COUNTER s + incr <=? heap_end else heap_start <? SBRK_COUNTER s + incr) eqn:Et.
  2: { unfold bind at 1. by rewrite E. }
  assert (Hb : heap_start <= SBRK_COUNTER s + incr <= heap_end).
  { destruct (Z.leb_spec 0 incr); [apply Z.leb_le in Et|apply Z.ltb_lt in Et]; lia. }
  rewrite (bind_done _ _ _ _ _ E). specialize (IH (with_break (SBRK_COUNTER s + incr) s) Hb Hl).
  cbn [SBRK_COUNTER with_break] in IH. destruct (breaks _ _ _ l) as [[olds b]|]; cbn [mbind option_bind].
  - destruct IH as (E2 & Hb2 & HF). split_and!; [|lia|lia|by constructor]. by rewrite (bind_done _ _ _ _ _ E2).
  - unfold bind. by rewrite IH.
Qed.

(** *** Arguments the kernel does not check *)

(** [sys_notify] tests the pointer after it has read the word. *)
Lemma sys_notify_null count s : open 0 = false -> sys_notify me open 0 count s = Panic.
Proof. intros Ho. unfold sys_notify, user_load. by rewrite Ho. Qed.

(** A core that is not there *)
Lemma sys_spawn_bad_core p prio selector processors s :
  0 <= selector -> SCHEDULERS (sched (machine s).1) !! selector = None -> sys_spawn me open p prio selector processors s = Panic.
Proof.
  intros Hs Hn. unfold sys_spawn, choose_core. destruct (Z.ltb_spec selector 0); [lia|]. rewrite bind_ret.
  unfold bind, on_machine, kernel, spawn, bind, on_sched, get_scheduler. cbn [fst snd]. by rewrite Hn.
Qed.

(** *** Semaphores and mutexes *)

(** Calls of an application, without deadlines; [WaitAgain] and [LockAgain] are the later rounds. *)
Inductive Call :=
  | Post (sem : Z)
  | TryWait (sem : Z)
  | Wait (sem : Z)
  | WaitAgain (sem : Z)
  | LockMutex (recmutex : Z)
  | LockAgain
  | UnlockMutex (recmutex : Z).

Definition run_call (core : Z) (c : Call) : M (Calls K) unit :=
  match c with
  | Post sem => sys_sem_post core sem ;;; ret tt
  | TryWait sem => sys_sem_trywait sem ;;; ret tt
  | Wait sem => sys_sem_timedwait core sem 0 ;;; ret tt
  | WaitAgain sem => sem_timedwait_again core sem None ;;; ret tt
  | LockMutex recmutex => sys_recmutex_lock core recmutex ;;; ret tt
  | LockAgain => on_objects (continue core) ;;; ret tt
  | UnlockMutex recmutex => sys_recmutex_unlock core recmutex ;;; ret tt
  end.

(** What the call is for the machine *)
Definition act_of (c : Call) : Act :=
  match c with
  | Post sem => Release sem
  | TryWait sem => TryAcquire sem
  | Wait sem => Acquire sem
  | WaitAgain sem => Continue
  | LockMutex recmutex => Acquire recmutex
  | LockAgain => Continue
  | UnlockMutex recmutex => Release recmutex
  end.

Definition is_mutex (S : System) (o : Z) : bool := match objects S !! o with Some (OMutex _) => true | _ => false end.

(** The pointer is to an object of the right type. *)
Definition addressed (core : Z) (c : Call) (S : System) : bool :=
  match c with
  | Post sem | TryWait sem | Wait sem => negb (sem =? 0) && is_sem S sem
  | WaitAgain sem => is_sem S sem && bool_decide (busy core S = Some sem)
  | LockMutex m | UnlockMutex m => negb (m =? 0) && is_mutex S m
  | LockAgain => true
  end.

Definition with_machine (m : System * K) s : Calls K :=
  mkCalls m (user s) (containers s) (interrupts s) (SBRK_COUNTER s) (CORE_COUNTER s).

(** The machine's part of a call *)
Definition machine_part s (r : outcome (unit * (System * K))) : outcome (unit * Calls K) :=
  let? r := r in Done (tt, with_machine r.2 s).

Lemma machine_part_is {A} (o : M System A) (o' : M System unit) s :
  bind o (fun _ => ret tt) (machine s).1 = o' (machine s).1 ->
  bind (on_objects o) (fun _ => ret tt) s = machine_part s (on_system o' (machine s)).
Proof.
  intros E. unfold machine_part, on_objects, on_machine, on_system. rewrite <- E. unfold bind. by destruct (o (machine s).1) as [[a S']| |].
Qed.

Lemma on_sem_ok {A} sem (o : M (SemaphoreState * Sched) A) S a S' :
  on_sem sem o S = Done (a, S') -> exists st, objects S' !! sem = Some (OSem st).
Proof.
  unfold on_sem. destruct (objects S !! sem) as [[st| |]|]; try done. destruct (o _) as [[b [st' Sc]]| |]; [|done..].
  cbn. intros E. injection E as _ <-. exists st'. cbn. by rewrite lookup_insert_eq.
Qed.

Lemma sem_round_is (core : Z) t sem S : is_sem S sem = true -> sem_round_of core t sem None S = round_of core t sem S.
Proof.
  unfold is_sem, sem_round_of, round_of, bind, round. destruct (objects S !! sem) as [[st| |]|]; try done.
Qed.

Lemma sem_acquire_is (core : Z) sem S : is_sem S sem = true -> sem_acquire core sem None S = acquire core sem S.
Proof.
  intros Hs. unfold sem_acquire, acquire, current_id. rewrite bind_assoc, !bind_gets.
  destruct (current_of (sched S) core) as [t|]; [|done]. cbn [unwrap]. rewrite !(bind_lift_done _ _ _ _ eq_refl).
  assert (Es : start core sem S = on_sem sem (on_sched_of (reset_reason core)) S).
  { unfold start. unfold is_sem in Hs. by destruct (objects S !! sem) as [[st| |]|]. }
  unfold bind. rewrite Es. destruct (on_sem sem (on_sched_of (reset_reason core)) S) as [[[] S']| |] eqn:E; [|done..]. cbn [obind fst snd].
  apply sem_round_is. apply on_sem_ok in E as [st' E]. unfold is_sem. by rewrite E.
Qed.

Lemma bind_tt {S} (o : M S unit) (x : S) : bind o (fun _ => ret tt) x = o x.
Proof. unfold bind. by destruct (o x) as [[[] x']| |]. Qed.

Lemma release_sem_is (core : Z) sem S : is_sem S sem = true -> release core sem S = on_sem sem (sem_release core) S.
Proof. unfold is_sem, release. by destruct (objects S !! sem) as [[st| |]|]. Qed.

Lemma release_mutex_is (core : Z) m S : is_mutex S m = true -> release core m S = on_mutex m (mutex_release core) S.
Proof. unfold is_mutex, release. by destruct (objects S !! m) as [[|st|]|]. Qed.

(** A call with a pointer to an object of the right type does to the machine what the act does. *)
Lemma call_is_act (core : Z) c s :
  addressed core c (machine s).1 = true -> run_call core c s = machine_part s (run_act core (act_of c) (machine s)).
Proof.
  intros Ha. destruct c as [sem|sem|sem|sem|m| |m]; cbn [run_call act_of run_act addressed] in *.
  - apply andb_true_iff in Ha as [Hn Hs]. unfold sys_sem_post. destruct (sem =? 0); [done|]. rewrite bind_assoc.
    apply machine_part_is. by rewrite bind_tt, release_sem_is.
  - apply andb_true_iff in Ha as [Hn Hs]. unfold sys_sem_trywait. destruct (sem =? 0); [done|]. rewrite bind_assoc.
    by apply machine_part_is.
  - apply andb_true_iff in Ha as [Hn Hs]. unfold sys_sem_timedwait. destruct (sem =? 0); [done|]. rewrite bind_assoc.
    cbn [Z.ltb Z.compare]. rewrite bind_ret, bind_assoc. apply machine_part_is. unfold bind. by rewrite sem_acquire_is.
  - apply andb_true_iff in Ha as [Hs Hb]. apply bool_decide_eq_true in Hb. unfold sem_timedwait_again. rewrite bind_assoc.
    apply machine_part_is. unfold continue, current_id. rewrite !bind_assoc, !bind_gets. unfold busy in Hb.
    destruct (current_of (sched (machine s).1) core) as [t|] eqn:Et; [|done]. cbn [unwrap mbind option_bind] in *.
    rewrite !bind_assoc, !(bind_lift_done _ _ _ _ eq_refl), !bind_assoc, !bind_gets, Hb. cbn [unwrap].
    rewrite !bind_assoc, !(bind_lift_done _ _ _ _ eq_refl). unfold bind. by rewrite sem_round_is.
  - apply andb_true_iff in Ha as [Hn Hs]. unfold sys_recmutex_lock. destruct (m =? 0); [done|]. rewrite bind_assoc.
    by apply machine_part_is.
  - by apply machine_part_is.
  - apply andb_true_iff in Ha as [Hn Hs]. unfold sys_recmutex_unlock. destruct (m =? 0); [done|]. rewrite bind_assoc.
    apply machine_part_is. by rewrite bind_tt, release_mutex_is.
Qed.

(** Calls by tasks of several cores; those that the running task may not make are left out. *)
Fixpoint run_calls (l : list (Z * Call)) : M (Calls K) unit :=
  match l with
  | [] => ret tt
  | (core, c) :: l =>
      let! sys := gets (fun s => (machine s).1) in
      if legal_act core (act_of c) sys && addressed core c sys then run_call core c ;;; run_calls l else run_calls l
  end.

(** The calls of several cores on semaphores, without deadlines, and on recursive
    mutexes, when nothing interrupts these, with pointers from the kernel and where
    [legal_act] allows it: none panics, each is an operation of the machine of the
    kernel, which keeps its invariant, and no word of the applications changes. *)
Theorem calls_refine_acts l s :
  system_ok (machine s).1 ->
  exists acts m', run_calls l s = Done (tt, with_machine m' s) /\ run_acts acts (machine s) = Done (tt, m') /\ system_ok m'.1 /\
    sublist acts ((fun c => (c.1, act_of c.2)) <$> l).
Proof.
  revert s. induction l as [|[core c] l IH]; intros s Hok.
  { exists [], (machine s). split_and!; [by destruct s|done|done|constructor]. }
  cbn [run_calls]. rewrite bind_gets. destruct (_ && _) eqn:Et.
  - apply andb_true_iff in Et as [Hl Ha]. pose proof (call_is_act core c s Ha) as E.
    destruct (machine s) as [S k] eqn:Em. cbn [fst] in *. pose proof (act_ok core (act_of c) S k Hok Hl) as Hact.
    destruct (run_act core (act_of c) (S, k)) as [[[] [S1 k1]]| |] eqn:Ea; [|destruct Hact as [Hact _]; by destruct c..].
    unfold machine_part in E. cbn [obind snd] in E. rewrite (bind_done _ _ _ _ _ E).
    destruct (IH (with_machine (S1, k1) s) Hact) as (acts & m' & E1 & E2 & Hok' & Hs).
    exists ((core, act_of c) :: acts), m'. split_and!; [exact E1| |done|by constructor].
    cbn [run_acts]. rewrite bind_gets. cbn [fst]. rewrite Hl. by rewrite (bind_done _ _ _ _ _ Ea).
  - destruct (IH s Hok) as (acts & m' & E1 & E2 & Hok' & Hs). exists acts, m'. split_and!; [done..|]. by constructor.
Qed.

End correct.

(** *** Examples *)

Section sample.

#[local] Existing Instance sample_memory.

(** The system of the examples of [Synch], with a free lock and a held one *)
Definition held : SpinlockContainer := mkContainer (Spinlock.mkLock 1 1 false tt) true.

Definition sample_calls : Calls Z :=
  mkCalls (sample_system sample_acts, 0x800000) ∅
    {[0x2000 := mkContainer (Spinlock.Lock_new tt) false; 0x3000 := held]} true 0x40000000 1.

(** A task posts the semaphore 1 and takes it: both calls are made. *)
Example sample_calls_made :
  bool_decide (is_Some (match run_calls [(0, Post 1); (0, TryWait 1)] sample_calls with Done (_, s) => objects (machine s).1 !! 1 | _ => None end)) = true.
Proof. vm_compute. reflexivity. Qed.

Lemma container_ok_held : container_ok held.
Proof. split_and!; by vm_compute. Qed.

Lemma sbrk_correct_witness :
  run_sbrk 0x40000000 0x40010000 [0x1000; -0x800; 0] sample_calls = Done ([0x40000000; 0x40001000; 0x40000800], with_break 0x40000800 sample_calls).
Proof.
  unfold sample_calls. generalize (sample_system sample_acts). intros sys.
  match goal with |- run_sbrk ?a ?b ?l ?s = Done (?o, with_break ?e _) =>
    assert (Eb : breaks a b (SBRK_COUNTER s) l = Some (o, e)) by reflexivity; pose proof (sbrk_correct a b l s) as G end.
  rewrite Eb in G. apply G; [lia|lia|cbn [SBRK_COUNTER]; lia|]. repeat constructor; lia.
Defined.

End sample.

