(* ===== verification/Clock.v ===== *)
(** * The calendar and the real time clock:
    src/arch/x86_64/kernel/systemtime.rs

    The time since 1970-01-01 in microseconds from a date and back, with the
    overflow checks of the arithmetic, and reading the date out of the registers
    of the CMOS clock. *)

From stdpp Require Import base numbers list.
From Stdlib Require Import ZArith Lia.
From S2P Require Import Prelude.

#[local] Open Scope Z_scope.

(** ** Dates and times *)

Record DateTime := mkDate { year : Z; month : Z; day : Z; hour : Z; minute : Z; second : Z }.

#[export] Instance DateTime_eq_dec : EqDecision DateTime.
Proof. solve_decision. Defined.

(** Checked arithmetic on [u8] and [u16]. *)
Definition checked_below (bound x : Z) : outcome Z := if (0 <=? x) && (x <? bound) then Done x else Panic.
Definition add_u8 (a b : Z) : outcome Z := checked_below 256 (a + b).
Definition sub_u8 (a b : Z) : outcome Z := checked_below 256 (a - b).
Definition mul_u8 (a b : Z) : outcome Z := checked_below 256 (a * b).
Definition add_u16 (a b : Z) : outcome Z := checked_below 65536 (a + b).
Definition sub_u16 (a b : Z) : outcome Z := checked_below 65536 (a - b).

(** [Rtc::microseconds_from_date]: first the day, counted from the epoch. *)
Definition days_from_date (d : DateTime) : outcome Z :=
  let? (m, y) :=
    if 2 <? month d then let? m := sub_u8 (month d) 2 in Done (m, year d)
    else
      let? m12 := add_u8 (month d) 12 in
      let? m := sub_u8 m12 2 in
      let? y := sub_u16 (year d) 1 in Done (m, y) in
  let? a := sub64 (y / 4) (y / 100) in
  let? b := add64 a (y / 400) in
  let? p := mul64 367 m in
  let? c := add64 b (p / 12) in
  let? e := add64 c (day d) in
  let? q := mul64 y 365 in
  let? f := add64 e q in
  sub64 f 719499.

Definition microseconds_from_date (d : DateTime) : outcome Z :=
  let? days_since_epoch := days_from_date d in
  let? h := mul64 days_since_epoch 24 in
  let? hours_since_epoch := add64 h (hour d) in
  let? m := mul64 hours_since_epoch 60 in
  let? minutes_since_epoch := add64 m (minute d) in
  let? s := mul64 minutes_since_epoch 60 in
  let? seconds_since_epoch := add64 s (second d) in
  mul64 seconds_since_epoch 1000000.

(** [date_from_microseconds]: the date of a day counted from the epoch. *)
Definition date_from_days (days_since_epoch : Z) : outcome (Z * Z * Z) :=
  let? days := add64 days_since_epoch 719468 in
  let era := days / 146097 in
  let day_of_era := days mod 146097 in
  let? a := sub64 day_of_era (day_of_era / 1460) in
  let? b := add64 a (day_of_era / 36524) in
  let? c := sub64 b (day_of_era / 146096) in
  let year_of_era := c / 365 in
  let? e := mul64 era 400 in
  let? y64 := add64 year_of_era e in
  let year := y64 mod 65536 in
  let? f := mul64 365 year_of_era in
  let? g := add64 f (year_of_era / 4) in
  let? h := sub64 g (year_of_era / 100) in
  let? day_of_year := sub64 day_of_era h in
  let? i := mul64 5 day_of_year in
  let? j := add64 i 2 in
  let internal_month := j / 153 in
  let? k := mul64 153 internal_month in
  let? l := add64 k 2 in
  let? n := sub64 day_of_year (l / 5) in
  let? d := add64 n 1 in
  let day := d mod 256 in
  let month := internal_month mod 256 in
  let? month := if internal_month <? 10 then add_u8 month 3 else sub_u8 month 9 in
  let? year := if month <=? 2 then add_u16 year 1 else Done year in
  Done (year, month, day).

Definition date_from_microseconds (microseconds_since_epoch : Z) : outcome DateTime :=
  let seconds_since_epoch := microseconds_since_epoch / 1000000 in
  let second := (seconds_since_epoch mod 60) mod 256 in
  let minutes_since_epoch := seconds_since_epoch / 60 in
  let minute := (minutes_since_epoch mod 60) mod 256 in
  let hours_since_epoch := minutes_since_epoch / 60 in
  let hour := (hours_since_epoch mod 24) mod 256 in
  let days_since_epoch := hours_since_epoch / 24 in
  let? (year, month, day) := date_from_days days_since_epoch in
  Done (mkDate year month day hour minute second).

(** ** The Gregorian calendar *)

Definition leap (y : Z) : bool := (y mod 4 =? 0) && (negb (y mod 100 =? 0) || (y mod 400 =? 0)).
Definition days_in_month (y m : Z) : Z :=
  if m =? 2 then (if leap y then 29 else 28)
  else if (m =? 4) || (m =? 6) || (m =? 9) || (m =? 11) then 30 else 31.

Definition valid_day (y m d : Z) : Prop := 1 <= m <= 12 /\ 1 <= d <= days_in_month y m.
Definition valid_time (d : DateTime) : Prop := 0 <= hour d < 24 /\ 0 <= minute d < 60 /\ 0 <= second d < 60.

(** The day after a day. *)
Definition next_day (x : Z * Z * Z) : Z * Z * Z :=
  let '(y, m, d) := x in
  if d <? days_in_month y m then (y, m, d + 1)
  else if m <? 12 then (y, m + 1, 1)
  else (y + 1, 1, 1).

(** The day number [n] after 1970-01-01. *)
Definition nth_day (n : nat) : Z * Z * Z := Nat.iter n next_day (1970, 1, 1).

(** ** Counting days *)

(** Years that begin in March, and months counted from there. *)
Definition march_year (y m : Z) : Z := if 2 <? m then y else y - 1.
Definition march_month (m : Z) : Z := if 2 <? m then m - 2 else m + 10.

Definition day_of_march_year (m d : Z) : Z := 367 * march_month m / 12 + d - 31.
Definition day_number (x : Z * Z * Z) : Z :=
  let '(y, m, d) := x in
  let y' := march_year y m in
  y' / 4 - y' / 100 + y' / 400 + 365 * y' + day_of_march_year m d - 719468.

Lemma months m : 1 <= m <= 12 ->
  m = 1 \/ m = 2 \/ m = 3 \/ m = 4 \/ m = 5 \/ m = 6 \/ m = 7 \/ m = 8 \/ m = 9 \/ m = 10 \/ m = 11 \/ m = 12.
Proof. lia. Qed.

(** Splits into the months; [tac] closes each case. *)
Ltac by_month m tac :=
  destruct (months m ltac:(lia)) as [->|[->|[->|[->|[->|[->|[->|[->|[->|[->|[->| ->]]]]]]]]]]]; tac.

(** Evaluates the days before a month. *)
Ltac month_days :=
  repeat match goal with |- context [367 * ?k / 12] =>
    let v := eval vm_compute in (367 * k / 12) in change (367 * k / 12) with v end.

Lemma leap_spec y : leap y = true <-> (y mod 4 = 0 /\ (y mod 100 <> 0 \/ y mod 400 = 0)).
Proof. unfold leap. rewrite andb_true_iff, orb_true_iff, negb_true_iff, !Z.eqb_eq, Z.eqb_neq. done. Qed.

(** The leap days before a year, and the one in it. *)
Lemma leap_days y :
  let c x := x / 4 - x / 100 + x / 400 in c y = c (y - 1) + (if leap y then 1 else 0).
Proof.
  intros c. subst c. destruct (leap y) eqn:E.
  - apply leap_spec in E. Z.div_mod_to_equations. lia.
  - apply not_true_iff_false in E. rewrite leap_spec in E. Z.div_mod_to_equations. lia.
Qed.

Lemma days_in_month_pos y m : 28 <= days_in_month y m <= 31.
Proof. unfold days_in_month. repeat case_match; lia. Qed.

Lemma valid_next y m d : valid_day y m d -> let '(y', m', d') := next_day (y, m, d) in valid_day y' m' d'.
Proof.
  intros [Hm Hd]. unfold next_day. pose proof (days_in_month_pos y (m + 1)). pose proof (days_in_month_pos (y + 1) 1).
  destruct (Z.ltb_spec d (days_in_month y m)); [split; lia|]. destruct (Z.ltb_spec m 12); split; lia.
Qed.

Lemma number_next y m d : valid_day y m d -> day_number (next_day (y, m, d)) = day_number (y, m, d) + 1.
Proof.
  intros [Hm Hd]. unfold next_day. destruct (Z.ltb_spec d (days_in_month y m)) as [Hlt|Hge].
  { unfold day_number, day_of_march_year. lia. }
  assert (d = days_in_month y m) as -> by lia. pose proof (leap_days y) as HL. cbv zeta in HL.
  by_month m ltac:(unfold day_number, day_of_march_year, days_in_month, march_year, march_month in *; simpl; month_days; try lia).
  - revert HL. destruct (leap y); simpl; lia.
  - replace (y + 1 - 1) with y by lia. lia.
Qed.

Lemma nth_day_spec n : let '(y, m, d) := nth_day n in valid_day y m d /\ day_number (y, m, d) = Z.of_nat n.
Proof.
  induction n as [|n IH]; [by split_and!|]. change (nth_day (S n)) with (next_day (nth_day n)).
  destruct (nth_day n) as [[y m] d]. destruct IH as [Hv Hn]. pose proof (number_next y m d Hv) as Hx. pose proof (valid_next y m d Hv) as Hy.
  destruct (next_day (y, m, d)) as [[y' m'] d']. split; [done|lia].
Qed.

Lemma nth_day_year n : 1970 <= (nth_day n).1.1.
Proof.
  induction n as [|n IH]; [done|]. change (nth_day (S n)) with (next_day (nth_day n)).
  destruct (nth_day n) as [[y m] d]. unfold next_day. simpl in IH. repeat case_match; simpl; lia.
Qed.

(** ** From the number of a day to its date *)

(** The years of an era of 400 years: centuries [c], four-year cycles [q] in the
    century, years [r] in the cycle. *)
Lemma year_split Y : 0 <= Y -> exists e c q r,
  Y = 400 * e + 100 * c + 4 * q + r /\ 0 <= e /\ 0 <= c <= 3 /\ 0 <= q <= 24 /\ 0 <= r <= 3
  /\ Y / 4 = 100 * e + 25 * c + q /\ Y / 100 = 4 * e + c /\ Y / 400 = e.
Proof.
  intros HY. exists (Y / 400), (Y mod 400 / 100), (Y mod 100 / 4), (Y mod 4).
  split_and!; Z.div_mod_to_equations; lia.
Qed.

Lemma leap_split e c q r : 0 <= c <= 3 -> 0 <= q <= 24 -> 0 <= r <= 3 ->
  leap (400 * e + 100 * c + 4 * q + r + 1) = true -> r = 3 /\ (q < 24 \/ c = 3).
Proof. intros Hc Hq Hr HL%leap_spec. Z.div_mod_to_equations. lia. Qed.

(** The day of the year that begins in March. *)
Lemma march_day y m d : valid_day y m d ->
  0 <= day_of_march_year m d <= 365 /\ (day_of_march_year m d = 365 -> leap (march_year y m + 1) = true).
Proof.
  intros [Hm Hd]. unfold day_of_march_year, march_month, march_year, days_in_month in *.
  by_month m ltac:(simpl in Hd |- *; month_days; try lia).
  replace (y - 1 + 1) with y by lia. destruct (leap y); split; try done; lia.
Qed.

(** What the month formula recovers from the day. *)
Lemma month_of_march_day y m d : valid_day y m d ->
  let doy := day_of_march_year m d in
  (5 * doy + 2) / 153 = march_month m - 1 /\ doy - (153 * (march_month m - 1) + 2) / 5 + 1 = d.
Proof.
  intros [Hm Hd]. cbv zeta. unfold day_of_march_year, march_month, days_in_month in *.
  by_month m ltac:(simpl in Hd |- *; month_days); try destruct (leap y); split; Z.div_mod_to_equations; lia.
Qed.

(** The year within the era. *)
Lemma year_of_era_spec c q r doy :
  0 <= c <= 3 -> 0 <= q <= 24 -> 0 <= r <= 3 -> 0 <= doy <= 365 -> (doy = 365 -> r = 3 /\ (q < 24 \/ c = 3)) ->
  let doe := 36524 * c + 1461 * q + 365 * r + doy in
  0 <= doe < 146097 /\ doe / 1460 <= doe /\ doe / 146096 <= doe - doe / 1460 + doe / 36524
  /\ (doe - doe / 1460 + doe / 36524 - doe / 146096) / 365 = 100 * c + 4 * q + r.
Proof.
  intros Hc Hq Hr Hd H365 doe.
  assert (0 <= doe < 146097) as Hdoe by (unfold doe; lia).
  assert (doe / 36524 - doe / 146096 = c) as E1 by (unfold doe in *; Z.div_mod_to_equations; lia).
  assert (exists delta, doe / 1460 = 25 * c + q + delta /\ 0 <= doy - delta < 365) as (delta & E2 & Hdelta).
  { exists (if 1460 <=? 24 * c + q + 365 * r + doy then 1 else 0). unfold doe in *.
    destruct (Z.leb_spec 1460 (24 * c + q + 365 * r + doy)); split; Z.div_mod_to_equations; lia. }
  split_and!; [lia|lia|Z.div_mod_to_equations; lia|Z.div_mod_to_equations; lia|].
  replace (doe - doe / 1460 + doe / 36524 - doe / 146096) with (365 * (100 * c + 4 * q + r) + (doy - delta)) by (unfold doe in *; lia).
  Z.div_mod_to_equations. lia.
Qed.

(** ** The functions of the kernel *)

Lemma below_done b x : 0 <= x < b -> checked_below b x = Done x.
Proof. intros [H1 H2]. unfold checked_below. by rewrite (proj2 (Z.leb_le _ _) H1), (proj2 (Z.ltb_lt _ _) H2). Qed.

(** Runs a checked computation whose steps stay in range. *)
Ltac in_range :=
  repeat (first
    [ rewrite add64_done by (unfold W64; lia) | rewrite sub64_done by (unfold W64; lia)
    | rewrite mul64_done by (unfold W64; lia) | rewrite below_done by lia ]; cbn [obind]).

Definition YEAR_MAX : Z := 65535.

Lemma march_year_bounds y m : 1970 <= y <= YEAR_MAX -> 1969 <= march_year y m <= YEAR_MAX.
Proof. unfold march_year, YEAR_MAX. destruct (2 <? m); lia. Qed.

Lemma day_number_bounds y m d : valid_day y m d -> 1970 <= y <= YEAR_MAX -> 0 <= day_number (y, m, d) < 24000000.
Proof.
  intros Hv Hy. destruct (march_day y m d Hv) as [Hd _]. pose proof (march_year_bounds y m Hy) as Hmy.
  assert (y = 1970 -> march_year y m = 1969 -> 306 <= day_of_march_year m d) as Hfirst.
  { destruct Hv as [Hm Hdd]. unfold march_year, day_of_march_year, march_month. destruct (Z.ltb_spec 2 m); [lia|].
    intros _ _. assert (m = 1 \/ m = 2) as [->| ->] by lia; month_days; lia. }
  assert (march_year y m = y \/ march_year y m = y - 1) as Hcase by (unfold march_year; destruct (2 <? m); [by left|by right]).
  unfold day_number, YEAR_MAX in *. set (Y := march_year y m) in *. set (D := day_of_march_year m d) in *.
  clearbody Y D. destruct (decide (Y = 1969)) as [->|].
  - assert (1969 / 4 = 492 /\ 1969 / 100 = 19 /\ 1969 / 400 = 4) as (-> & -> & ->) by done. lia.
  - assert (1970 <= Y) by lia. Z.div_mod_to_equations. lia.
Qed.

Lemma days_from_date_done d :
  valid_day (year d) (month d) (day d) -> 1970 <= year d <= YEAR_MAX ->
  days_from_date d = Done (day_number (year d, month d, day d)).
Proof.
  intros Hv Hy. pose proof (day_number_bounds _ _ _ Hv Hy) as Hb. destruct Hv as [Hm Hd].
  pose proof (days_in_month_pos (year d) (month d)) as Hl. pose proof (march_year_bounds (year d) (month d) Hy) as Hmy.
  unfold days_from_date. unfold day_number, day_of_march_year in *.
  replace (if 2 <? month d then let? m := sub_u8 (month d) 2 in Done (m, year d)
    else let? m12 := add_u8 (month d) 12 in let? m := sub_u8 m12 2 in let? y := sub_u16 (year d) 1 in Done (m, y))
    with (Done (march_month (month d), march_year (year d) (month d)) : outcome (Z * Z)); cycle 1.
  { unfold march_month, march_year, sub_u8, add_u8, sub_u16, YEAR_MAX in *. destruct (Z.ltb_spec 2 (month d)).
    - rewrite below_done by lia. done.
    - rewrite below_done by lia. cbn [obind]. rewrite below_done by lia. cbn [obind]. rewrite below_done by lia. cbn [obind].
      do 2 f_equal. lia. }
  cbn [obind]. set (Y := march_year (year d) (month d)) in *.
  assert (1 <= march_month (month d) <= 12) as Hmm by (unfold march_month; destruct (Z.ltb_spec 2 (month d)); lia).
  set (P := march_month (month d)) in *. clearbody Y P. unfold YEAR_MAX in *.
  assert (0 <= Y / 4 - Y / 100 < 100000) by (Z.div_mod_to_equations; lia).
  assert (0 <= Y / 400 < 100000) by (Z.div_mod_to_equations; lia).
  assert (0 <= 367 * P / 12 < 1000) by (Z.div_mod_to_equations; lia).
  in_range. f_equal. lia.
Qed.

Lemma date_from_days_done y m d :
  valid_day y m d -> 1970 <= y <= YEAR_MAX -> date_from_days (day_number (y, m, d)) = Done (y, m, d).
Proof.
  intros Hv Hy. pose proof (day_number_bounds y m d Hv Hy) as Hb.
  destruct (march_day y m d Hv) as [Hdoy H365]. pose proof (month_of_march_day y m d Hv) as [Em Ed].
  pose proof (march_year_bounds y m Hy) as HY. pose proof (proj1 Hv) as Hm. pose proof (proj2 Hv) as Hd. pose proof (days_in_month_pos y m) as Hl.
  destruct (year_split (march_year y m) ltac:(lia)) as (e & c & q & r & EY & He & Hc & Hq & Hr & E4 & E100 & E400).
  set (doy := day_of_march_year m d) in *.
  destruct (year_of_era_spec c q r doy Hc Hq Hr Hdoy) as (Hdoe & B1 & B2 & Eyoe).
  { intros H. apply (leap_split e c q r); try done. rewrite <- EY. by apply H365. }
  set (doe := 36524 * c + 1461 * q + 365 * r + doy) in *.
  assert (day_number (y, m, d) + 719468 = 146097 * e + doe) as Edays.
  { unfold day_number. rewrite E4, E100, E400, EY. unfold doe. fold doy. lia. }
  assert ((146097 * e + doe) / 146097 = e /\ (146097 * e + doe) mod 146097 = doe) as [Ee Em'] by (Z.div_mod_to_equations; lia).
  unfold YEAR_MAX in *.
  unfold date_from_days. rewrite add64_done by (unfold W64; lia). cbn [obind]. rewrite Edays, Ee, Em'.
  assert (0 <= doe / 36524 <= 4 /\ 0 <= doe / 1460 /\ 0 <= doe / 146096 <= 1) as (B3 & B4 & B5) by (Z.div_mod_to_equations; lia).
  rewrite sub64_done by (unfold W64; lia). cbn [obind]. rewrite add64_done by (unfold W64; lia). cbn [obind].
  rewrite sub64_done by (unfold W64; lia). cbn [obind]. rewrite Eyoe. set (yoe := 100 * c + 4 * q + r) in *.
  assert (yoe + e * 400 = march_year y m) as Eym by (unfold yoe; lia).
  assert (yoe / 4 = 25 * c + q /\ yoe / 100 = c) as [F4 F100] by (unfold yoe; Z.div_mod_to_equations; lia).
  assert (0 <= yoe < 400) as Hyoe by (unfold yoe; lia).
  in_range. rewrite Eym, F4, F100. rewrite (Z.mod_small (march_year y m)) by lia. cbn [obind].
  in_range.
  assert (doe - (365 * yoe + (25 * c + q) - c) = doy) as Edoy by (unfold doe, yoe; lia). rewrite Edoy.
  in_range. rewrite Em.
  assert (1 <= march_month m <= 12) as Hmm by (unfold march_month; destruct (Z.ltb_spec 2 m); lia).
  assert (0 <= (153 * (march_month m - 1) + 2) / 5 < 400) as Hmd by (Z.div_mod_to_equations; lia).
  in_range. rewrite Ed, !Z.mod_small by lia. unfold march_month, march_year, add_u8, sub_u8, add_u16 in *.
  destruct (Z.ltb_spec 2 m) as [Hgt|Hle].
  - rewrite (proj2 (Z.ltb_lt (m - 2 - 1) 10)) by lia. in_range.
    rewrite (proj2 (Z.leb_gt (m - 2 - 1 + 3) 2)) by lia. cbn [obind]. do 3 f_equal. lia.
  - rewrite (proj2 (Z.ltb_ge (m + 10 - 1) 10)) by lia. in_range.
    rewrite (proj2 (Z.leb_le (m + 10 - 1 - 9) 2)) by lia. in_range. cbn [obind]. do 3 f_equal; lia.
Qed.

(** ** Dates and times together *)

Definition date_of (d : DateTime) : Z * Z * Z := (year d, month d, day d).
Definition seconds_of (d : DateTime) : Z := ((day_number (date_of d) * 24 + hour d) * 60 + minute d) * 60 + second d.

Definition valid_date (d : DateTime) : Prop :=
  valid_day (year d) (month d) (day d) /\ valid_time d /\ 1970 <= year d <= YEAR_MAX.

Lemma microseconds_done d : valid_date d -> microseconds_from_date d = Done (seconds_of d * 1000000).
Proof.
  intros (Hv & (Hh & Hm & Hs) & Hy). pose proof (day_number_bounds _ _ _ Hv Hy) as Hb. unfold microseconds_from_date, seconds_of, date_of in *.
  rewrite (days_from_date_done d Hv Hy). cbn [obind]. set (n := day_number (year d, month d, day d)) in *. clearbody n.
  in_range. done.
Qed.

(** Any time of the day of [d]. *)
Lemma date_done d us : valid_date d -> us / 1000000 = seconds_of d -> date_from_microseconds us = Done d.
Proof.
  intros (Hv & (Hh & Hm & Hs) & Hy) Hus. unfold date_from_microseconds. rewrite Hus. unfold seconds_of, date_of.
  set (n := day_number (year d, month d, day d)).
  assert ((((n * 24 + hour d) * 60 + minute d) * 60 + second d) / 60 = (n * 24 + hour d) * 60 + minute d
    /\ (((n * 24 + hour d) * 60 + minute d) * 60 + second d) mod 60 = second d) as [-> ->] by (Z.div_mod_to_equations; lia).
  assert (((n * 24 + hour d) * 60 + minute d) / 60 = n * 24 + hour d /\ ((n * 24 + hour d) * 60 + minute d) mod 60 = minute d)
    as [-> ->] by (Z.div_mod_to_equations; lia).
  assert ((n * 24 + hour d) / 24 = n /\ (n * 24 + hour d) mod 24 = hour d) as [-> ->] by (Z.div_mod_to_equations; lia).
  unfold n. rewrite (date_from_days_done _ _ _ Hv Hy). cbn [obind]. rewrite !Z.mod_small by lia. by destruct d.
Qed.

(** C23. The conversion of dates counts the days of the Gregorian calendar. For
    the [n]-th day after 1970-01-01, found by going from day to day with leap
    years and months as they are, and every time of that day,
    [microseconds_from_date] computes [n] days and that time without an overflow,
    up to the year 65535. *)
Theorem microseconds_from_date_correct n d :
  date_of d = nth_day n -> valid_time d -> year d <= YEAR_MAX ->
  microseconds_from_date d = Done ((((Z.of_nat n * 24 + hour d) * 60 + minute d) * 60 + second d) * 1000000).
Proof.
  intros Hd Ht Hy. pose proof (nth_day_spec n) as Hn. rewrite <- Hd in Hn. unfold date_of in Hn. destruct Hn as [Hv Hn].
  rewrite microseconds_done; [unfold seconds_of, date_of; by rewrite Hn|]. split_and!; try done. pose proof (nth_day_year n) as H.
  rewrite <- Hd in H. exact H.
Qed.

(** C24. The conversion back finds the calendar day: for every number of
    microseconds in the [n]-th day after 1970-01-01, [date_from_microseconds]
    returns that day and the time of the day in whole seconds, and no operation
    on [u64], [u16] or [u8] overflows, up to the year 65535. *)
Theorem date_from_microseconds_correct n us y m d :
  nth_day n = (y, m, d) -> y <= YEAR_MAX -> us / 86400000000 = Z.of_nat n ->
  let s := us / 1000000 mod 86400 in
  date_from_microseconds us = Done (mkDate y m d (s / 3600) (s / 60 mod 60) (s mod 60)).
Proof.
  intros Hn Hy Hus s. pose proof (nth_day_spec n) as Hx. pose proof (nth_day_year n) as Hz. rewrite Hn in Hx, Hz. destruct Hx as [Hv En]. simpl in Hz.
  apply date_done.
  - unfold valid_date, valid_time. split_and!; try done; subst s; simpl; Z.div_mod_to_equations; lia.
  - unfold seconds_of, date_of. cbn [year month day hour minute second]. rewrite En, <- Hus. subst s. Z.div_mod_to_equations. lia.
Qed.

(** ** The CMOS clock *)

Definition CMOS_DISABLE_NMI : Z := 0x80.
Definition CMOS_SECOND_REGISTER : Z := 0x00.
Definition CMOS_MINUTE_REGISTER : Z := 0x02.
Definition CMOS_HOUR_REGISTER : Z := 0x04.
Definition CMOS_DAY_REGISTER : Z := 0x07.
Definition CMOS_MONTH_REGISTER : Z := 0x08.
Definition CMOS_YEAR_REGISTER : Z := 0x09.
Definition CMOS_STATUS_REGISTER_A : Z := 0x0A.
Definition CMOS_STATUS_REGISTER_B : Z := 0x0B.
Definition CMOS_UPDATE_IN_PROGRESS_FLAG : Z := 0x80.
Definition CMOS_24_HOUR_FORMAT_FLAG : Z := 0x02.
Definition CMOS_BINARY_FORMAT_FLAG : Z := 0x04.
Definition CMOS_12_HOUR_PM_FLAG : Z := 0x80.

Definition is_24_hour_format (cmos_format : Z) : bool := 0 <? Z.land cmos_format CMOS_24_HOUR_FORMAT_FLAG.
Definition is_binary_format (cmos_format : Z) : bool := 0 <? Z.land cmos_format CMOS_BINARY_FORMAT_FLAG.
Definition time_is_pm (hour : Z) : bool := 0 <? Z.land hour CMOS_12_HOUR_PM_FLAG.
Definition convert_bcd_value (value : Z) : outcome Z :=
  let? tens := mul_u8 (value / 16) 10 in add_u8 tens (Z.land value 0xF).

Section rtc.

(** The device: [cmos n c] is the byte it shows at the [n]-th read, after the
    command [c] was written to its command port. The state counts the reads. *)
Context (cmos : nat -> Z -> Z).

Definition read_cmos_register (register : Z) : M nat Z := fun n =>
  Done (cmos n (Z.lor CMOS_DISABLE_NMI register), S n).

(** [Rtc::new]: the format of the values. *)
Definition Rtc_new : M nat Z := read_cmos_register CMOS_STATUS_REGISTER_B.

Definition read_datetime_register (cmos_format register : Z) : M nat Z :=
  let! value := read_cmos_register register in
  if is_binary_format cmos_format then ret value else lift (convert_bcd_value value).

Definition read_all_values (cmos_format : Z) : M nat Z :=
  let! y := read_datetime_register cmos_format CMOS_YEAR_REGISTER in
  let! year := lift (add_u16 y 2000) in
  let! month := read_datetime_register cmos_format CMOS_MONTH_REGISTER in
  let! day := read_datetime_register cmos_format CMOS_DAY_REGISTER in
  let! hour := read_cmos_register CMOS_HOUR_REGISTER in
  let is_pm := negb (is_24_hour_format cmos_format) && time_is_pm hour in
  let hour := if is_24_hour_format cmos_format then hour else Z.ldiff hour CMOS_12_HOUR_PM_FLAG in
  let! hour := lift (if is_binary_format cmos_format then Done hour else convert_bcd_value hour) in
  let! hour := lift
    (if is_24_hour_format cmos_format then Done hour
     else
       let hour := if hour =? 12 then 0 else hour in
       if is_pm then add_u8 hour 12 else Done hour) in
  let! minute := read_datetime_register cmos_format CMOS_MINUTE_REGISTER in
  let! second := read_datetime_register cmos_format CMOS_SECOND_REGISTER in
  lift (microseconds_from_date (mkDate year month day hour minute second)).

Definition updating : M nat bool :=
  let! a := read_cmos_register CMOS_STATUS_REGISTER_A in
  ret (0 <? Z.land a CMOS_UPDATE_IN_PROGRESS_FLAG).

Fixpoint wait_update (fuel : nat) : M nat unit :=
  match fuel with
  | O => out_of_fuel
  | S fuel' => let! u := updating in if u then wait_update fuel' else ret tt
  end.

(** Each of the two loops is given [fuel] rounds. *)
Fixpoint read_twice (fuel rounds : nat) (cmos_format : Z) : M nat Z :=
  match rounds with
  | O => out_of_fuel
  | S rounds' =>
      wait_update fuel ;;;
      let! microseconds_since_epoch_1 := read_all_values cmos_format in
      let! u := updating in
      if u then read_twice fuel rounds' cmos_format
      else
        let! microseconds_since_epoch_2 := read_all_values cmos_format in
        if microseconds_since_epoch_1 =? microseconds_since_epoch_2 then ret microseconds_since_epoch_1
        else read_twice fuel rounds' cmos_format
  end.

Definition get_microseconds_since_epoch (fuel : nat) (cmos_format : Z) : M nat Z := read_twice fuel fuel cmos_format.

(** ** How a clock shows a date *)

Definition encode (cmos_format v : Z) : Z := if is_binary_format cmos_format then v else 16 * (v / 10) + v mod 10.
Definition encode_hour (cmos_format h : Z) : Z :=
  if is_24_hour_format cmos_format then encode cmos_format h
  else encode cmos_format (if h mod 12 =? 0 then 12 else h mod 12) + (if 12 <=? h then 128 else 0).

(** At read [n] the clock shows the date [d], and no update is going on. *)
Record shows (cmos_format : Z) (d : DateTime) (n : nat) : Prop := {
  sh_year : cmos n (Z.lor CMOS_DISABLE_NMI CMOS_YEAR_REGISTER) = encode cmos_format (year d - 2000);
  sh_month : cmos n (Z.lor CMOS_DISABLE_NMI CMOS_MONTH_REGISTER) = encode cmos_format (month d);
  sh_day : cmos n (Z.lor CMOS_DISABLE_NMI CMOS_DAY_REGISTER) = encode cmos_format (day d);
  sh_hour : cmos n (Z.lor CMOS_DISABLE_NMI CMOS_HOUR_REGISTER) = encode_hour cmos_format (hour d);
  sh_minute : cmos n (Z.lor CMOS_DISABLE_NMI CMOS_MINUTE_REGISTER) = encode cmos_format (minute d);
  sh_second : cmos n (Z.lor CMOS_DISABLE_NMI CMOS_SECOND_REGISTER) = encode cmos_format (second d);
  sh_idle : Z.land (cmos n (Z.lor CMOS_DISABLE_NMI CMOS_STATUS_REGISTER_A)) CMOS_UPDATE_IN_PROGRESS_FLAG = 0
}.

(** The other digit fits in four bits. *)
Lemma bcd_done v : 0 <= v < 100 -> convert_bcd_value (16 * (v / 10) + v mod 10) = Done v.
Proof.
  intros Hv. unfold convert_bcd_value, mul_u8, add_u8.
  assert (Z.land (16 * (v / 10) + v mod 10) 15 = v mod 10) as ->.
  { change 15 with (Z.ones 4). rewrite Z.land_ones by lia. change (2 ^ 4) with 16. Z.div_mod_to_equations. lia. }
  assert ((16 * (v / 10) + v mod 10) / 16 = v / 10) as -> by (Z.div_mod_to_equations; lia).
  assert (0 <= v / 10 < 10 /\ 0 <= v mod 10 < 10) as [H1 H2] by (Z.div_mod_to_equations; lia).
  rewrite below_done by lia. cbn [obind]. rewrite below_done by lia. f_equal. Z.div_mod_to_equations. lia.
Qed.

Lemma read_register_done fmt register v n :
  cmos n (Z.lor CMOS_DISABLE_NMI register) = encode fmt v -> 0 <= v < 100 ->
  read_datetime_register fmt register n = Done (v, S n).
Proof.
  intros E Hv. unfold read_datetime_register, bind, read_cmos_register. simpl. rewrite E. unfold encode.
  destruct (is_binary_format fmt); [done|]. unfold lift. by rewrite bcd_done.
Qed.

(** The hour, in each of the four formats. *)
Lemma hour_done fmt h : 0 <= h < 24 ->
  let raw := encode_hour fmt h in
  let is_pm := negb (is_24_hour_format fmt) && time_is_pm raw in
  let hour := if is_24_hour_format fmt then raw else Z.ldiff raw CMOS_12_HOUR_PM_FLAG in
  (let? hour := if is_binary_format fmt then Done hour else convert_bcd_value hour in
   if is_24_hour_format fmt then Done hour
   else let hour := if hour =? 12 then 0 else hour in if is_pm then add_u8 hour 12 else Done hour) = Done h.
Proof.
  intros Hh. cbv zeta. unfold encode_hour, encode.
  destruct (is_24_hour_format fmt), (is_binary_format fmt); cbn [negb andb].
  - done.
  - rewrite bcd_done by lia. done.
  - assert (h = 0 \/ h = 1 \/ h = 2 \/ h = 3 \/ h = 4 \/ h = 5 \/ h = 6 \/ h = 7 \/ h = 8 \/ h = 9 \/ h = 10 \/ h = 11
      \/ 12 <= h < 24) as Hc by lia. repeat destruct Hc as [->|Hc]; try reflexivity.
    assert (h = 12 \/ h = 13 \/ h = 14 \/ h = 15 \/ h = 16 \/ h = 17 \/ h = 18 \/ h = 19 \/ h = 20 \/ h = 21 \/ h = 22
      \/ h = 23) as Hc2 by lia. repeat destruct Hc2 as [->|Hc2]; try reflexivity. subst. reflexivity.
  - assert (h = 0 \/ h = 1 \/ h = 2 \/ h = 3 \/ h = 4 \/ h = 5 \/ h = 6 \/ h = 7 \/ h = 8 \/ h = 9 \/ h = 10 \/ h = 11
      \/ 12 <= h < 24) as Hc by lia. repeat destruct Hc as [->|Hc]; try reflexivity.
    assert (h = 12 \/ h = 13 \/ h = 14 \/ h = 15 \/ h = 16 \/ h = 17 \/ h = 18 \/ h = 19 \/ h = 20 \/ h = 21 \/ h = 22
      \/ h = 23) as Hc2 by lia. repeat destruct Hc2 as [->|Hc2]; try reflexivity. subst. reflexivity.
Qed.

Lemma bind_lift2 {A B C} (o : outcome A) (f : A -> outcome B) (k : B -> M nat C) b n :
  obind o f = Done b -> bind (lift o) (fun a => bind (lift (f a)) k) n = k b n.
Proof. intros E. destruct o as [a| |]; [|done|done]. simpl in E. unfold bind, lift. simpl. by rewrite E. Qed.

(** The dates that a clock can show. *)
Definition showable (d : DateTime) : Prop := valid_date d /\ 2000 <= year d < 2100.

Lemma read_all_done fmt d n : showable d -> (forall i, (i < 6)%nat -> shows fmt d (n + i)%nat) ->
  read_all_values fmt n = Done (seconds_of d * 1000000, (n + 6)%nat).
Proof.
  intros [Hv Hy] Hs. pose proof Hv as ((Hm & Hd) & (Hh & Hmi & Hse) & _). pose proof (days_in_month_pos (year d) (month d)) as Hl.
  assert (forall i, (i < 6)%nat -> shows fmt d (i + n)%nat) as Hs' by (intros i Hi; rewrite Nat.add_comm; by apply Hs).
  unfold read_all_values.
  rewrite (bind_done _ _ _ _ _ (read_register_done fmt _ (year d - 2000) n (sh_year _ _ _ (Hs' 0%nat ltac:(lia))) ltac:(lia))).
  rewrite (bind_lift_done _ _ (year d)) by (unfold add_u16; rewrite below_done by lia; f_equal; lia).
  rewrite (bind_done _ _ _ _ _ (read_register_done fmt _ (month d) _ (sh_month _ _ _ (Hs' 1%nat ltac:(lia))) ltac:(lia))).
  rewrite (bind_done _ _ _ _ _ (read_register_done fmt _ (day d) _ (sh_day _ _ _ (Hs' 2%nat ltac:(lia))) ltac:(lia))).
  rewrite (bind_done (read_cmos_register CMOS_HOUR_REGISTER) _ _ (encode_hour fmt (hour d)) (4 + n)%nat); cycle 1.
  { unfold read_cmos_register. do 2 f_equal. apply (sh_hour _ _ _ (Hs' 3%nat ltac:(lia))). }
  cbv zeta. rewrite (bind_lift2 _ _ _ (hour d)) by (apply (hour_done fmt (hour d)); lia).
  rewrite (bind_done _ _ _ _ _ (read_register_done fmt _ (minute d) _ (sh_minute _ _ _ (Hs' 4%nat ltac:(lia))) ltac:(lia))).
  rewrite (bind_done _ _ _ _ _ (read_register_done fmt _ (second d) _ (sh_second _ _ _ (Hs' 5%nat ltac:(lia))) ltac:(lia))).
  assert (mkDate (year d) (month d) (day d) (hour d) (minute d) (second d) = d) as -> by (by destruct d).
  unfold lift. rewrite microseconds_done by done. cbn [obind]. do 2 f_equal. lia.
Qed.

Lemma updating_done n b : (0 <? Z.land (cmos n (Z.lor CMOS_DISABLE_NMI CMOS_STATUS_REGISTER_A)) CMOS_UPDATE_IN_PROGRESS_FLAG) = b ->
  updating n = Done (b, S n).
Proof. intros <-. done. Qed.

Lemma wait_update_done fuel k : forall n, (k < fuel)%nat ->
  (forall i, (i < k)%nat -> (0 <? Z.land (cmos (n + i) (Z.lor CMOS_DISABLE_NMI CMOS_STATUS_REGISTER_A)) CMOS_UPDATE_IN_PROGRESS_FLAG) = true) ->
  Z.land (cmos (n + k) (Z.lor CMOS_DISABLE_NMI CMOS_STATUS_REGISTER_A)) CMOS_UPDATE_IN_PROGRESS_FLAG = 0 ->
  wait_update fuel n = Done (tt, (n + k + 1)%nat).
Proof.
  revert fuel. induction k as [|k IH]; intros [|fuel] n Hf Hb Hi; try lia; cbn [wait_update].
  - rewrite Nat.add_0_r in *. rewrite (bind_done _ _ _ _ _ (updating_done n false ltac:(by rewrite Hi))). unfold ret. do 2 f_equal. lia.
  - specialize (Hb 0%nat ltac:(lia)) as H0. rewrite Nat.add_0_r in H0. rewrite (bind_done _ _ _ _ _ (updating_done n true H0)).
    rewrite (IH fuel (S n)); [do 2 f_equal; lia|lia| |].
    + intros i Hi'. specialize (Hb (S i) ltac:(lia)). by replace (S n + i)%nat with (n + S i)%nat by lia.
    + by replace (S n + k)%nat with (n + S k)%nat by lia.
Qed.

(** The boot time is read off the clock correctly in each of its four formats,
    with hours from 0 to 23 or from 1 to 12 and a flag, in binary or in decimal
    digits: when the clock is updated during the first [k] reads of its status
    and then shows the date [d], the function waits, reads the date twice and
    returns the microseconds from the epoch to [d]; the rounds given to its loops
    need only exceed [k]. *)
Theorem rtc_read_correct fmt d n k fuel :
  showable d -> (k < fuel)%nat ->
  (forall i, (i < k)%nat -> (0 <? Z.land (cmos (n + i) (Z.lor CMOS_DISABLE_NMI CMOS_STATUS_REGISTER_A)) CMOS_UPDATE_IN_PROGRESS_FLAG) = true) ->
  (forall i, (i < 14)%nat -> shows fmt d (n + k + i)%nat) ->
  get_microseconds_since_epoch fuel fmt n = Done (seconds_of d * 1000000, (n + k + 14)%nat)
  /\ date_from_microseconds (seconds_of d * 1000000) = Done d.
Proof.
  intros Hd Hk Hb Hs. split; [|apply date_done; [apply Hd|by rewrite Z.div_mul]].
  unfold get_microseconds_since_epoch. destruct fuel as [|fuel]; [lia|]. cbn [read_twice].
  assert (forall i, (n + k <= i < n + k + 14)%nat -> shows fmt d i) as Hs'.
  { intros i Hi. replace i with (n + k + (i - n - k))%nat by lia. apply Hs. lia. }
  assert (wait_update (S fuel) n = Done (tt, (n + k + 1)%nat)) as E1.
  { apply wait_update_done; [done|done|]. apply (sh_idle fmt d), Hs'. lia. }
  assert (read_all_values fmt (n + k + 1)%nat = Done (seconds_of d * 1000000, (n + k + 7)%nat)) as E2.
  { rewrite (read_all_done fmt d); [do 2 f_equal; lia|done|]. intros i Hi. apply Hs'. lia. }
  assert (updating (n + k + 7)%nat = Done (false, (n + k + 8)%nat)) as E3.
  { rewrite (updating_done _ false); [do 2 f_equal; lia|]. rewrite (sh_idle fmt d); [done|]. apply Hs'. lia. }
  assert (read_all_values fmt (n + k + 8)%nat = Done (seconds_of d * 1000000, (n + k + 14)%nat)) as E4.
  { rewrite (read_all_done fmt d); [do 2 f_equal; lia|done|]. intros i Hi. apply Hs'. lia. }
  rewrite (bind_done _ _ _ _ _ E1), (bind_done _ _ _ _ _ E2), (bind_done _ _ _ _ _ E3). cbv iota.
  rewrite (bind_done _ _ _ _ _ E4).
  rewrite Z.eqb_refl. done.
Qed.

End rtc.

(** ** Concrete dates *)

(** 1972-02-29 is day 789. *)
Lemma microseconds_from_date_correct_witness :
  microseconds_from_date (mkDate 1972 2 29 23 59 58) = Done 68255998000000
  /\ microseconds_from_date (mkDate 1972 2 29 23 59 58) = Done ((((Z.of_nat 789 * 24 + 23) * 60 + 59) * 60 + 58) * 1000000).
Proof.
  split; [vm_compute; reflexivity|].
  apply (microseconds_from_date_correct 789 (mkDate 1972 2 29 23 59 58)); [vm_compute; reflexivity|unfold valid_time; simpl; lia|done].
Defined.

Lemma date_from_microseconds_correct_witness :
  date_from_microseconds 68255998999999 = Done (mkDate 1972 2 29 23 59 58)
  /\ date_from_microseconds 68255998999999 = Done (mkDate 1972 2 29 (86398 / 3600) (86398 / 60 mod 60) (86398 mod 60)).
Proof.
  split; [vm_compute; reflexivity|].
  apply (date_from_microseconds_correct 789 68255998999999 1972 2 29); [vm_compute; reflexivity|done|vm_compute; reflexivity].
Defined.

(** A clock in the twelve hour format with decimal digits, which is updated
    during the first two reads and then shows 2021-12-31, 12:05:59 PM. *)
Definition sample_cmos (n : nat) (command : Z) : Z :=
  if command =? 0x80 + CMOS_YEAR_REGISTER then 0x21
  else if command =? 0x80 + CMOS_MONTH_REGISTER then 0x12
  else if command =? 0x80 + CMOS_DAY_REGISTER then 0x31
  else if command =? 0x80 + CMOS_HOUR_REGISTER then 0x92
  else if command =? 0x80 + CMOS_MINUTE_REGISTER then 0x05
  else if command =? 0x80 + CMOS_SECOND_REGISTER then 0x59
  else if command =? 0x80 + CMOS_STATUS_REGISTER_A then (if (n <? 2)%nat then 0xA6 else 0x26)
  else 0.

Lemma rtc_read_correct_witness :
  let d := mkDate 2021 12 31 12 5 59 in
  get_microseconds_since_epoch sample_cmos 3 0 0%nat = Done (1640952359000000, 16%nat)
  /\ get_microseconds_since_epoch sample_cmos 3 0 0%nat = Done (seconds_of d * 1000000, (0 + 2 + 14)%nat)
  /\ date_from_microseconds (seconds_of d * 1000000) = Done d.
Proof.
  split; [vm_compute; reflexivity|]. apply (rtc_read_correct sample_cmos 0 (mkDate 2021 12 31 12 5 59) 0 2 3).
  - split; [|simpl; lia]. split_and!; vm_compute; try done; split; done.
  - lia.
  - intros i Hi. assert (i = 0 \/ i = 1)%nat as [->| ->] by lia; reflexivity.
  - intros i Hi. split; reflexivity.
Defined.
