(* ===== verification/Bytes.v ===== *)
(** * Bytes: the slices and the little-endian numbers of firmware tables

    A byte is an integer in [0, 256); [&[u8]] is a list of them. [le] reads a
    number the way x86-64 loads it, [checksum] is the wrapping sum of
    src/arch/x86_64/kernel/acpi.rs, and [position_window] is
    [slice.windows(n).position(..)] of Rust's core library. A [#[repr(C, packed)]]
    struct is its list of fields with their sizes; [offset_of] finds a field. *)

From Stdlib Require Import ZArith Lia Ascii String.
From stdpp Require Import base numbers list.
From S2P Require Import Prelude.

#[local] Open Scope Z_scope.

Definition is_byte (b : Z) : Prop := 0 <= b < 256.

(** ** Numbers *)

Fixpoint le (bs : list Z) : Z :=
  match bs with
  | [] => 0
  | b :: bs => b + 256 * le bs
  end.

Fixpoint le_bytes (n : nat) (x : Z) : list Z :=
  match n with
  | O => []
  | S n => x mod 256 :: le_bytes n (x / 256)
  end.

Lemma length_le_bytes n x : length (le_bytes n x) = n.
Proof. revert x. induction n as [|n IH]; intros x; [done|]. simpl. by rewrite IH. Qed.

Lemma pow256_succ n : 256 ^ Z.of_nat (S n) = 256 * 256 ^ Z.of_nat n.
Proof. rewrite Nat2Z.inj_succ, Z.pow_succ_r by lia. done. Qed.

Lemma le_le_bytes n x : 0 <= x < 256 ^ Z.of_nat n -> le (le_bytes n x) = x.
Proof.
  revert x. induction n as [|n IH]; intros x Hx.
  - change (256 ^ Z.of_nat 0) with 1 in Hx. simpl. lia.
  - rewrite pow256_succ in Hx. simpl. pose proof (Z.div_mod x 256 ltac:(lia)).
    rewrite IH; [lia|]. split; [by apply Z.div_pos; lia|]. apply Z.div_lt_upper_bound; lia.
Qed.

Lemma le_range bs : Forall is_byte bs -> 0 <= le bs < 256 ^ Z.of_nat (length bs).
Proof.
  induction 1 as [|b bs [Hb1 Hb2] _ IH]; [simpl; lia|].
  change (length (b :: bs)) with (S (length bs)). rewrite pow256_succ. simpl le. lia.
Qed.

Lemma le_bytes_byte n x : Forall is_byte (le_bytes n x).
Proof.
  revert x. induction n as [|n IH]; intros x; simpl; constructor; [|done].
  apply Z.mod_pos_bound. lia.
Qed.

(** ** Checksums *)

(** [slice.iter().fold(0, |acc: u8, x| acc.wrapping_add( *x))] *)
Definition checksum (bs : list Z) : Z := fold_left (fun acc x => (acc + x) mod 256) bs 0.

Definition sum_bytes (bs : list Z) : Z := foldr Z.add 0 bs.

Lemma checksum_sum bs : checksum bs = sum_bytes bs mod 256.
Proof.
  assert (H : forall acc, 0 <= acc < 256 ->
    fold_left (fun acc x => (acc + x) mod 256) bs acc = (acc + sum_bytes bs) mod 256).
  { induction bs as [|b bs IH]; intros acc Ha; simpl.
    - rewrite Z.add_0_r. by rewrite Z.mod_small.
    - rewrite IH by (apply Z.mod_pos_bound; lia). rewrite Zplus_mod_idemp_l. f_equal. lia. }
  unfold checksum. rewrite H by lia. done.
Qed.

Lemma sum_bytes_app a b : sum_bytes (a ++ b) = sum_bytes a + sum_bytes b.
Proof. induction a as [|x a IH]; [done|]. simpl. rewrite IH. lia. Qed.

(** ** Text *)

(** The bytes of an ASCII literal. *)
Definition text (s : string) : list Z := (fun c => Z.of_N (N_of_ascii c)) <$> list_ascii_of_string s.

(** ** Slices *)

(** [slice[i]], which panics out of range *)
Definition at_index (bs : list Z) (i : nat) : outcome Z := unwrap (bs !! i).

(** [slice.windows(w.len()).position(|window| window == w)] *)
Fixpoint position_window (w bs : list Z) : option nat :=
  if (length w <=? length bs)%nat then
    if bool_decide (take (length w) bs = w) then Some 0%nat
    else match bs with
         | [] => None
         | _ :: bs' => S <$> position_window w bs'
         end
  else None.

Lemma at_index_app (l1 l2 : list Z) j : at_index (l1 ++ l2) (base.length l1 + j) = at_index l2 j.
Proof. unfold at_index. by rewrite lookup_app_r, Nat.add_sub' by lia. Qed.

(** The first place where [w] occurs in [bs]. *)
Definition occurs_at (w bs : list Z) (i : nat) : Prop := take (length w) (drop i bs) = w.

Lemma occurs_length w bs i : w <> [] -> occurs_at w bs i -> (i + length w <= length bs)%nat.
Proof.
  unfold occurs_at. intros Hw H. apply (f_equal length) in H. rewrite length_take, length_drop in H.
  assert (0 < length w)%nat by (destruct w; simpl; [done|lia]). lia.
Qed.

Lemma position_window_spec w bs i : w <> [] ->
  position_window w bs = Some i <-> occurs_at w bs i /\ forall j, (j < i)%nat -> ~ occurs_at w bs j.
Proof.
  intros Hw. assert (Hn : (0 < length w)%nat) by (destruct w; simpl; [done|lia]).
  revert i. induction bs as [|b bs IH]; intros i.
  - simpl. destruct (Nat.leb_spec (length w) 0); [lia|]. split; [done|].
    intros [Ho _]. apply occurs_length in Ho; [|done]. simpl in Ho. lia.
  - cbn [position_window]. destruct (Nat.leb_spec (length w) (length (b :: bs))) as [Hl|Hl].
    + case_bool_decide as E.
      * split; [intros [= <-]; split; [done|lia]|]. intros [H1 H2]. destruct i; [done|].
        exfalso. apply (H2 0%nat); [lia|done].
      * destruct i as [|i].
        -- split; [by destruct (position_window w bs)|]. intros [H1 _]. done.
        -- assert ((S <$> position_window w bs) = Some (S i) <-> position_window w bs = Some i) as ->.
           { destruct (position_window w bs); simpl; split; intros; by simplify_eq. }
           rewrite IH. unfold occurs_at. simpl drop. split; intros [H1 H2]; (split; [done|]).
           ++ intros [|j] Hj; [done|]. apply H2. lia.
           ++ intros j Hj. apply (H2 (S j)). lia.
    + split; [done|]. intros [H _]. apply occurs_length in H; [|done]. lia.
Qed.

(** ** Packed structs *)

Abbreviation layout := (list (string * Z)).

Fixpoint find_field (fields : layout) (name : string) (offset : Z) : Z * nat :=
  match fields with
  | [] => (offset, 0%nat)
  | (n, size) :: fields =>
      if bool_decide (n = name) then (offset, Z.to_nat size) else find_field fields name (offset + size)
  end.

(** Offset and size of a field. *)
Definition field (fields : layout) (name : string) : Z * nat := find_field fields name 0.
Definition offset_of (fields : layout) (name : string) : Z := (field fields name).1.
Definition size_of (fields : layout) : Z := foldr (fun f n => f.2 + n) 0 fields.

(** [(start..end).step_by(step)] *)
Definition step_by (start end_ step : Z) : list Z :=
  (fun i => start + step * i) <$> seqZ 0 ((end_ - start + (step - 1)) / step).

Lemma elem_of_step_by a start end_ step :
  0 < step -> a ∈ step_by start end_ step -> start <= a < end_.
Proof.
  intros Hs (i & -> & Hi)%list_elem_of_fmap. apply elem_of_seqZ in Hi.
  pose proof (Z.div_mod (end_ - start + (step - 1)) step ltac:(lia)).
  pose proof (Z.mod_pos_bound (end_ - start + (step - 1)) step ltac:(lia)). nia.
Qed.
