(* ===== verification/Room.v ===== *)
(** * How much memory a page allocator has left

    The laws of [PageAllocator] allow an allocation to be refused. [RoomLaws]
    adds when it is not: [pa_room a n] says that [a] has [n] bytes in one
    region, which every allocation uses up and no deallocation takes away.
    [VirtMem] and [PhysMem] are instances: the first-fit search of
    [FreeList::allocate] stops at the latest at the largest region. *)

From stdpp Require Import base numbers list gmap.
From Stdlib Require Import ZArith Lia.
From S2P Require Import Prelude Links Collections FreeList Pte PageAlloc.

#[local] Open Scope Z_scope.

Class RoomLaws (A : Type) `{PageAllocatorLaws A} := {
  pa_room : A -> Z -> Prop;
  pa_room_le : forall a n m, m <= n -> pa_room a n -> pa_room a m;
  pa_room_allocate : forall a size n,
    pa_ok a -> 0 < size -> size mod 4096 = 0 -> 0 <= n -> pa_room a (size + n) ->
    exists p a', pa_allocate size a = Done (Ok p, a') /\ pa_room a' n;
  pa_room_aligned : forall a size alignment n,
    pa_ok a -> 0 < size <= 2 ^ 60 -> pow2 alignment -> 4096 <= alignment <= 2 ^ 60 -> size mod alignment = 0 -> 0 <= n ->
    pa_room a (size + alignment + n) ->
    exists p a', pa_allocate_aligned size alignment a = Done (Ok p, a') /\ pa_room a' n;
  pa_room_deallocate : forall a p size a' n,
    pa_ok a -> 0 < size -> 0 <= p -> p + size <= 2 ^ 48 -> pa_deallocate p size a = Done (tt, a') ->
    pa_room a n -> pa_room a' n
}.

(** ** Free lists *)

(** Some region has [n] bytes. *)
Definition region_of (n : Z) (es : list FreeListEntry) : Prop :=
  n <= 0 \/ Exists (fun e => n <= end_ e - start e) es.

Lemma scan_room size n es :
  0 < size -> 0 <= n -> region_of (size + n) es ->
  exists p es', scan (allocate_step size) es = Some (p, es') /\ region_of n es'.
Proof.
  intros Hs Hn [H|H]; [lia|]. induction es as [|e es IH]; [by inversion H|]. simpl.
  destruct (allocate_step size e) as [[p repl]|] eqn:E.
  - exists p, (repl ++ es). split; [done|]. unfold region_of. apply Exists_cons in H as [H|H].
    + unfold allocate_step in E. destruct (Z.gtb_spec (end_ e - start e) size).
      * injection E as <- <-. right. simpl. apply Exists_cons. left. simpl. lia.
      * left. lia.
    + right. apply Exists_app. right. eapply Exists_impl; [exact H|]. simpl. lia.
  - apply Exists_cons in H as [H|H].
    + exfalso. unfold allocate_step in E. destruct (Z.gtb_spec (end_ e - start e) size); [done|].
      destruct (Z.eqb_spec (end_ e - start e) size); [done|]. lia.
    + destruct (IH H) as (p & es' & -> & Hr). exists p, (e :: es'). split; [done|].
      destruct Hr as [Hr|Hr]; [by left|right]. apply Exists_cons. by right.
Qed.

Lemma region_of_le n m es : m <= n -> region_of n es -> region_of m es.
Proof. intros Hm [H|H]; [left; lia|right]. eapply Exists_impl; [exact H|]. simpl. lia. Qed.

(** The part behind an aligned block is at least as long as a region is longer than the
    block and the alignment; a region that is so long has such a block. *)
Lemma aligned_step_room size alignment n e :
  0 < size -> 0 < alignment -> 0 <= n -> size + alignment + n <= end_ e - start e ->
  exists p repl, aligned_step size alignment e = Some (p, repl) /\ Exists (fun e => n <= end_ e - start e) repl.
Proof.
  intros Hs Hal Hn H. pose proof (align_up_val_spec (start e) alignment Hal) as [Hb _].
  unfold aligned_step, carve. set (A := align_up_val (start e) alignment) in *. rewrite Z.gtb_ltb.
  destruct (Z.eqb_spec (start e) A), (Z.eqb_spec (end_ e) (A + size)), (Z.ltb_spec (start e) A),
    (Z.ltb_spec (A + size) (end_ e)); try lia; cbn [andb]; eexists _, _; (split; [done|]).
  - left. simpl. lia.
  - right. left. simpl. lia.
Qed.

Lemma scan_room_aligned size alignment n es :
  0 < size -> 0 < alignment -> 0 <= n -> region_of (size + alignment + n) es ->
  exists p es', scan (aligned_step size alignment) es = Some (p, es') /\ region_of n es'.
Proof.
  intros Hs Hal Hn [H|H]; [lia|]. induction es as [|e es IH]; [by inversion H|]. simpl.
  apply Exists_cons in H as [H|H].
  - destruct (aligned_step_room size alignment n e Hs Hal Hn H) as (p & repl & -> & Hr).
    exists p, (repl ++ es). split; [done|]. right. apply Exists_app. by left.
  - destruct (aligned_step size alignment e) as [[p repl]|].
    + exists p, (repl ++ es). split; [done|]. right. apply Exists_app. right.
      eapply Exists_impl; [exact H|]. simpl. lia.
    + destruct (IH H) as (p & es' & -> & Hr). exists p, (e :: es'). split; [done|].
      destruct Hr as [Hr|Hr]; [by left|right]. apply Exists_cons. by right.
Qed.

Lemma insert_region_room address end' n es :
  address <= end' -> Forall (fun e => start e < end_ e) es ->
  region_of n es -> region_of n (insert_region address end' es).
Proof.
  intros Ha HF [H|H]; [by left|right]. induction es as [|e es IH]; [by inversion H|].
  inversion HF; subst. simpl.
  destruct (Z.eqb_spec (start e) end'); [|destruct (Z.eqb_spec (end_ e) address);
    [|destruct (Z.ltb_spec end' (start e))]]; rewrite ?Exists_cons in *; simpl; naive_solver lia.
Qed.

Definition list_room (L : FreeList) (n : Z) : Prop := exists es, list_repr L es /\ region_of n es.

Section lists.

Context (lo hi : Z).
Hypothesis Hrange : 0 <= lo /\ hi <= 2 ^ 48.

Lemma pages_room_allocate L size n :
  pages_ok lo hi L -> 0 < size -> 0 <= n -> list_room L (size + n) ->
  exists p L', FreeList.allocate size L = Done (Ok p, L') /\ list_room L' n.
Proof.
  intros (es & HR & Hok & _) Hs Hn (es' & HR' & Hroom).
  rewrite (list_repr_functional L es' es) in Hroom by done.
  destruct (scan_room size n es Hs Hn Hroom) as (p & es2 & E & Hr).
  pose proof (for_list_run _ _ _ L es (allocate_implements size ltac:(lia)) HR (regions_entry_ok _ Hok)) as Hrun.
  rewrite E in Hrun. destruct Hrun as (L' & E' & HR2). exists p, L'. split; [done|]. by exists es2.
Qed.

Lemma pages_room_allocate_aligned L size alignment n :
  pages_ok lo hi L -> 0 < size <= 2 ^ 60 -> pow2 alignment -> alignment <= 2 ^ 60 -> 0 <= n ->
  list_room L (size + alignment + n) ->
  exists p L', FreeList.allocate_aligned size alignment L = Done (Ok p, L') /\ list_room L' n.
Proof.
  intros (es & HR & Hok & _ & Hb) Hs Hpow Hal Hn (es' & HR' & Hroom). pose proof (pow2_pos _ Hpow).
  rewrite (list_repr_functional L es' es) in Hroom by done.
  destruct (scan_room_aligned size alignment n es ltac:(lia) ltac:(lia) Hn Hroom) as (p & es2 & E & Hr).
  assert (HP : Forall (room_ok alignment size) es).
  { apply Forall_forall. intros e He. rewrite Forall_forall in Hb. destruct (Hb e He) as [B1 B2].
    pose proof (regions_ok_forall _ _ Hok) as HF. rewrite Forall_forall in HF. specialize (HF e He). simpl in HF.
    unfold room_ok. assert (2 ^ 48 + 2 ^ 60 + 2 ^ 60 < W64) by done. lia. }
  pose proof (for_list_run _ _ _ L es (aligned_implements size alignment ltac:(lia) Hpow) HR HP) as Hrun.
  rewrite E in Hrun. destruct Hrun as (L' & E' & HR2). exists p, L'. split; [done|]. by exists es2.
Qed.

Lemma pages_room_deallocate L p size L' n :
  pages_ok lo hi L -> 0 < size -> 0 <= p -> p + size <= 2 ^ 48 -> FreeList.deallocate p size L = Done (tt, L') ->
  list_room L n -> list_room L' n.
Proof.
  intros (es & HR & Hok & _) Hs Hp Hb E (es' & HR' & Hroom).
  rewrite (list_repr_functional L es' es) in Hroom by done. assert (2 ^ 48 < W64) by done.
  destruct (deallocate_run L es p size HR (regions_nonempty _ Hok) ltac:(lia) ltac:(lia) ltac:(lia))
    as (L2 & E2 & HR2).
  assert (L2 = L') as -> by congruence. eexists. split; [done|].
  apply insert_region_room; [lia|by apply (regions_nonempty _ Hok)|done].
Qed.

End lists.

(** ** Both modules *)

Lemma bind_massert_inv {S B} (b : bool) (k : unit -> M S B) s r :
  bind (massert b) k s = Done r -> k tt s = Done r.
Proof. by destruct b. Qed.

Lemma aligned_checks size alignment :
  0 < size -> pow2 alignment -> 4096 <= alignment -> size mod alignment = 0 ->
  (0 <? size) = true /\ (0 <? alignment) = true /\ (size mod alignment =? 0) = true /\ (alignment mod SIZE BasePageSize =? 0) = true.
Proof.
  intros Hs Hpow Hal Hm. split_and!; [apply Z.ltb_lt; lia|apply Z.ltb_lt; lia|by apply Z.eqb_eq|].
  apply Z.eqb_eq. eapply mod_4096; [exact Hpow|lia|]. apply Z.mod_same. lia.
Qed.

Section instances.

Context (kernel_end_address phys_top : Z).
Hypothesis Hend : 0 <= kernel_end_address.
Hypothesis Htop : phys_top <= 2 ^ 48.

Definition virt_room_laws :
  @RoomLaws VirtMem (virt_allocator kernel_end_address) (virt_allocator_laws kernel_end_address Hend).
Proof.
  refine {| pa_room := fun s => list_room (KERNEL_FREE_LIST s) |}.
  - intros s n m Hm (es & HR & Hr). exists es. split; [done|by eapply region_of_le].
  - intros s size n Hok Hs Hm Hn Hroom.
    destruct (pages_room_allocate _ _ _ size n Hok Hs Hn Hroom) as (p & L' & E & Hr).
    exists p, (mkVirtMem L'). split; [|done]. destruct (page_checks size Hs Hm) as [C1 C2].
    simpl. unfold virt_allocate. rewrite !bind_massert by done. unfold on_virt. by rewrite E.
  - intros s size alignment n Hok Hs Hpow Hal Hm Hn Hroom.
    destruct (pages_room_allocate_aligned _ _ (heap_range kernel_end_address Hend) _ size alignment n Hok Hs Hpow ltac:(lia) Hn Hroom) as (p & L' & E & Hr).
    exists p, (mkVirtMem L'). split; [|done]. destruct (aligned_checks size alignment ltac:(lia) Hpow ltac:(lia) Hm) as (C1 & C2 & C3 & C4).
    simpl. unfold virt_allocate_aligned. rewrite !bind_massert by done. unfold on_virt. by rewrite E.
  - intros s p size s' n Hok Hs Hp Hb E Hroom. simpl in E. unfold virt_deallocate in E.
    repeat apply bind_massert_inv in E.
    unfold on_virt in E. destruct (FreeList.deallocate _ _ _) as [[[] L']| |] eqn:ED; simpl in E; try done.
    injection E as <-. simpl. by exact (pages_room_deallocate _ _ _ p size L' n Hok Hs Hp Hb ED Hroom).
Defined.

Definition phys_room_laws :
  @RoomLaws PhysMem (phys_allocator kernel_end_address) (phys_allocator_laws kernel_end_address phys_top Hend Htop).
Proof.
  refine {| pa_room := fun s => list_room (PHYSICAL_FREE_LIST s) |}.
  - intros s n m Hm (es & HR & Hr). exists es. split; [done|by eapply region_of_le].
  - intros s size n Hok Hs Hm Hn Hroom.
    destruct (pages_room_allocate _ _ _ size n Hok Hs Hn Hroom) as (p & L' & E & Hr).
    exists p, (mkPhysMem L' (TOTAL_MEMORY s)). split; [|done]. destruct (page_checks size Hs Hm) as [C1 C2].
    simpl. unfold phys_allocate. rewrite !bind_massert by done. unfold on_phys. by rewrite E.
  - intros s size alignment n Hok Hs Hpow Hal Hm Hn Hroom.
    destruct (pages_room_allocate_aligned _ _ (conj Hend Htop) _ size alignment n Hok Hs Hpow ltac:(lia) Hn Hroom) as (p & L' & E & Hr).
    exists p, (mkPhysMem L' (TOTAL_MEMORY s)). split; [|done]. destruct (aligned_checks size alignment ltac:(lia) Hpow ltac:(lia) Hm) as (C1 & C2 & C3 & C4).
    simpl. unfold phys_allocate_aligned. rewrite !bind_massert by done. unfold on_phys. by rewrite E.
  - intros s p size s' n Hok Hs Hp Hb E Hroom. simpl in E. unfold phys_deallocate in E.
    repeat apply bind_massert_inv in E.
    unfold on_phys in E. destruct (FreeList.deallocate _ _ _) as [[[] L']| |] eqn:ED; simpl in E; try done.
    injection E as <-. simpl. by exact (pages_room_deallocate _ _ _ p size L' n Hok Hs Hp Hb ED Hroom).
Defined.

End instances.
