(* ===== verification/MmInit.v ===== *)
(** * The heaps at the start: [init] and [init_user_allocator] of src/mm/mod.rs

    The kernel gets a heap of 8 MiB of large pages, and, before the application starts, the
    application one of what is left of physical memory; both are the one global allocator's.
    This is the code of a build without the feature [newlib]. What [init] calls first for
    physical memory, virtual memory and page tables is in PageAlloc.v and Mm.v. *)

From stdpp Require Import base numbers list gmap.
From Stdlib Require Import ZArith Lia.
From S2P Require Import Prelude Links Collections FreeList Pte Mmu Paging PageAlloc Room Mm Hole Heap Mpk.

#[local] Open Scope Z_scope.

(** Memory and the variables of the file, [ALLOCATOR] among them *)
Record Boot (P V : Type) := mkBoot {
  kernel : Kernel P V;
  ALLOCATOR : Heap;
  KERNEL_START_ADDRESS : Z;
  KERNEL_END_ADDRESS : Z;
  HEAP_START_ADDRESS : Z;
  HEAP_END_ADDRESS : Z;
  USER_HEAP_START_ADDRESS : Z;
  USER_HEAP_END_ADDRESS : Z;
  USER_HEAP_SIZE : Z
}.
Arguments mkBoot {P V} _ _ _ _ _ _ _ _ _.
Arguments kernel {P V} _.
Arguments ALLOCATOR {P V} _.
Arguments KERNEL_START_ADDRESS {P V} _.
Arguments KERNEL_END_ADDRESS {P V} _.
Arguments HEAP_START_ADDRESS {P V} _.
Arguments HEAP_END_ADDRESS {P V} _.
Arguments USER_HEAP_START_ADDRESS {P V} _.
Arguments USER_HEAP_END_ADDRESS {P V} _.
Arguments USER_HEAP_SIZE {P V} _.

Section init.

Context {P V : Type} `{PageAllocator P, PageAllocator V}.
Context (root phys_bits : Z) (supports_1gib_pages : bool).

(** [physicalmem::total_memory_size] *)
Context (total_memory : P -> Z).

Abbreviation Run := (M (Boot P V)).

Definition with_kernel (k : Kernel P V) (b : Boot P V) : Boot P V :=
  mkBoot k (ALLOCATOR b) (KERNEL_START_ADDRESS b) (KERNEL_END_ADDRESS b) (HEAP_START_ADDRESS b) (HEAP_END_ADDRESS b)
    (USER_HEAP_START_ADDRESS b) (USER_HEAP_END_ADDRESS b) (USER_HEAP_SIZE b).
Definition with_allocator (h : Heap) (b : Boot P V) : Boot P V :=
  mkBoot (kernel b) h (KERNEL_START_ADDRESS b) (KERNEL_END_ADDRESS b) (HEAP_START_ADDRESS b) (HEAP_END_ADDRESS b)
    (USER_HEAP_START_ADDRESS b) (USER_HEAP_END_ADDRESS b) (USER_HEAP_SIZE b).
Definition with_addresses (start end_ : Z) (b : Boot P V) : Boot P V :=
  mkBoot (kernel b) (ALLOCATOR b) start end_ (HEAP_START_ADDRESS b) (HEAP_END_ADDRESS b)
    (USER_HEAP_START_ADDRESS b) (USER_HEAP_END_ADDRESS b) (USER_HEAP_SIZE b).
Definition with_heap_start (a : Z) (b : Boot P V) : Boot P V :=
  mkBoot (kernel b) (ALLOCATOR b) (KERNEL_START_ADDRESS b) (KERNEL_END_ADDRESS b) a (HEAP_END_ADDRESS b)
    (USER_HEAP_START_ADDRESS b) (USER_HEAP_END_ADDRESS b) (USER_HEAP_SIZE b).
Definition with_heap_end (a : Z) (b : Boot P V) : Boot P V :=
  mkBoot (kernel b) (ALLOCATOR b) (KERNEL_START_ADDRESS b) (KERNEL_END_ADDRESS b) (HEAP_START_ADDRESS b) a
    (USER_HEAP_START_ADDRESS b) (USER_HEAP_END_ADDRESS b) (USER_HEAP_SIZE b).
Definition with_user_heap (start end_ : Z) (b : Boot P V) : Boot P V :=
  mkBoot (kernel b) (ALLOCATOR b) (KERNEL_START_ADDRESS b) (KERNEL_END_ADDRESS b) (HEAP_START_ADDRESS b) (HEAP_END_ADDRESS b)
    start end_ (USER_HEAP_SIZE b).
Definition with_user_size (n : Z) (b : Boot P V) : Boot P V :=
  mkBoot (kernel b) (ALLOCATOR b) (KERNEL_START_ADDRESS b) (KERNEL_END_ADDRESS b) (HEAP_START_ADDRESS b) (HEAP_END_ADDRESS b)
    (USER_HEAP_START_ADDRESS b) (USER_HEAP_END_ADDRESS b) n.

Definition on_kernel {A} (o : M (Kernel P V) A) : Run A := fun b =>
  let? (a, k) := o (kernel b) in Done (a, with_kernel k b).
Definition on_allocator {A} (o : M Heap A) : Run A := fun b =>
  let? (a, h) := o (ALLOCATOR b) in Done (a, with_allocator h b).

(** The addresses of the large pages that map the kernel *)
Definition set_kernel_addresses (base_address image_size : Z) : Run unit :=
  let! start := lift (align_down base_address (SIZE LargePageSize)) in
  let! e := lift (add64 base_address image_size) in
  let! end_ := lift (align_up e (SIZE LargePageSize)) in
  modify (with_addresses start end_).

Definition total_memory_size : Run Z := gets (fun b => total_memory (frames (mmu (kernel b)))).

(** The size of the kernel's heap *)
Definition virt_size : Z := 4 * SIZE LargePageSize.

Definition allocate_virtual (size alignment : Z) : Run Z :=
  let! r := on_kernel (virtualmem (pa_allocate_aligned size alignment)) in
  lift (unwrap_res r).

(** The rest of the heap is mapped with pages of size [S], if there is more than one page. *)
Definition map_rest (S : PageSize) (map_addr map_size : Z) : Run (Z * Z) :=
  let! counter := on_kernel (map_heap root phys_bits supports_1gib_pages S map_addr map_size true) in
  let! map_size := lift (sub64 map_size counter) in
  let! map_addr := lift (add64 map_addr counter) in
  ret (map_addr, map_size).

(** What is left of physical memory, without the kernel's heap, is the application's. *)
Definition set_user_heap_size : Run unit :=
  let! total := total_memory_size in
  let! kernel_end_address := gets KERNEL_END_ADDRESS in
  let! d := lift (sub64 total kernel_end_address) in
  let! d := lift (sub64 d (reserved_space total)) in
  let! a := lift (align_down d (SIZE LargePageSize)) in
  let! user_heap_size := lift (sub64 a virt_size) in
  modify (with_user_size user_heap_size).

(** The kernel's heap *)
Definition init_heap : Run unit :=
  let has_1gib_pages := supports_1gib_pages in
  set_user_heap_size ;;;
  let! virt_addr :=
    if has_1gib_pages && (SIZE HugePageSize <? virt_size) then
      let! size := lift (align_up virt_size (SIZE HugePageSize)) in
      allocate_virtual size (SIZE HugePageSize)
    else allocate_virtual virt_size (SIZE LargePageSize) in
  let! counter :=
    if has_1gib_pages && (SIZE HugePageSize <? virt_size) then
      on_kernel (map_heap root phys_bits supports_1gib_pages HugePageSize virt_addr (SIZE HugePageSize) true)
    else ret 0 in
  let! counter :=
    if counter =? 0 then
      on_kernel (map_heap root phys_bits supports_1gib_pages LargePageSize virt_addr (SIZE LargePageSize) true)
    else ret counter in
  modify (with_heap_start virt_addr) ;;;
  on_allocator (Heap_init virt_addr virt_size) ;;;
  let! map_addr := lift (add64 virt_addr counter) in
  let! map_size := lift (sub64 virt_size counter) in
  let! r :=
    if has_1gib_pages && (SIZE HugePageSize <? map_size) && (Z.land map_addr (not64 (SIZE HugePageSize - 1)) =? 0)
    then map_rest HugePageSize map_addr map_size
    else ret (map_addr, map_size) in
  let! r := if SIZE LargePageSize <? r.2 then map_rest LargePageSize r.1 r.2 else ret r in
  modify (with_heap_end r.1).

(** [init]; [arch_init] is what it does before the kernel's sections are mapped. Without
    enough memory the kernel waits forever. *)
Definition init (base_address image_size : Z) (arch_init : M (Kernel P V) unit) : Run unit :=
  set_kernel_addresses base_address image_size ;;;
  on_kernel arch_init ;;;
  on_kernel (init_pages_before_kernel root phys_bits supports_1gib_pages) ;;;
  let! total := total_memory_size in
  let! kernel_end_address := gets KERNEL_END_ADDRESS in
  let! need := lift (add64 kernel_end_address (reserved_space total)) in
  let! need := lift (add64 need (SIZE LargePageSize)) in
  if total <? need then out_of_fuel
  else
    on_kernel (allocate_safe_data root phys_bits supports_1gib_pages) ;;;
    on_kernel (allocate_unsafe_data root phys_bits supports_1gib_pages) ;;;
    init_heap.

(** The application's heap, which becomes the global allocator's *)
Definition init_user_allocator : Run unit :=
  let! user_heap_size := gets USER_HEAP_SIZE in
  let! user_heap_start_addr := allocate_virtual user_heap_size (SIZE LargePageSize) in
  let! map_count := on_kernel (map_heap root phys_bits supports_1gib_pages LargePageSize user_heap_start_addr user_heap_size false) in
  massert (map_count =? user_heap_size) ;;;
  let! end_ := lift (add64 user_heap_start_addr user_heap_size) in
  modify (with_user_heap user_heap_start_addr end_) ;;;
  on_allocator (Heap_init user_heap_start_addr user_heap_size).

End init.

(** ** Correctness *)

Section correct.

Context {P V : Type} `{PageAllocatorLaws P, PageAllocatorLaws V, !RoomLaws P, !RoomLaws V}.
Context (root phys_bits : Z) (supports_1gib_pages : bool) (total_memory : P -> Z).
Hypothesis Hbits : 12 <= phys_bits <= 52.
Hypothesis Hphys : pa_high (A := P) <= 2 ^ phys_bits.
Hypothesis Hvirt : pa_high (A := V) <= 2 ^ 47.

Implicit Types (k : Kernel P V) (f : P).

Abbreviation phys k := (frames (mmu k)).
Abbreviation tables k := (mem (mmu k)).

(** *** Frames and room *)

Lemma taken_room j r f f' :
  pa_ok f -> 0 <= r -> taken j f f' -> pa_room f (Z.of_nat j * 4096 + r) -> pa_ok f' /\ pa_room f' r.
Proof.
  intros Hok Hr. revert f Hok. induction j as [|j IH]; intros f Hok; cbn [taken].
  - intros ->. change (Z.of_nat 0 * 4096 + r) with r. done.
  - intros (p & f1 & E & Ht) Hroom.
    replace (Z.of_nat (S j) * 4096 + r) with (4096 + (Z.of_nat j * 4096 + r)) in Hroom by lia.
    destruct (pa_room_allocate f 4096 (Z.of_nat j * 4096 + r) Hok ltac:(lia) eq_refl ltac:(lia) Hroom) as (p' & f2 & E2 & Hroom2).
    pose proof (frame_alloc_law f f1 p Hok E) as (Hok1 & _).
    unfold frame_alloc, allocator_frames in E. rewrite E in E2. injection E2 as <- <-. by apply (IH f1).
Qed.

Lemma takes_room n r f f' :
  pa_ok f -> 0 <= r -> takes_at_most n f f' -> pa_room f (Z.of_nat n * 4096 + r) -> pa_ok f' /\ pa_room f' r.
Proof.
  intros Hok Hr (j & Hj & Ht) Hroom. apply (taken_room j r f f' Hok Hr Ht).
  eapply pa_room_le; [|exact Hroom]. lia.
Qed.

Lemma room_supply n f : pa_ok f -> pa_room f (Z.of_nat n * 4096) -> supply n f.
Proof.
  revert f. induction n as [|n IH]; intros f Hok Hroom; [done|].
  replace (Z.of_nat (S n) * 4096) with (4096 + Z.of_nat n * 4096) in Hroom by lia.
  destruct (pa_room_allocate f 4096 (Z.of_nat n * 4096) Hok ltac:(lia) eq_refl ltac:(lia) Hroom) as (p & f1 & E & Hroom1).
  exists p, f1. split; [exact E|]. apply IH; [|exact Hroom1].
  exact (proj1 (@frame_alloc_law P _ allocator_frame_laws f f1 p Hok E)).
Qed.

(** *** Larger pages in the way *)

(** A page table leads to the address unless a larger page is in the way. *)
Lemma flat_large m S v : flat root m BasePageSize v -> flat root m S v.
Proof. intros Hf i t Hi. apply Hf. destruct S; simpl in *; lia. Qed.

Lemma flat_walk m v l e : flat root m BasePageSize v -> walk m root v = Some (l, e) -> l = 0%nat.
Proof.
  intros Hf Hw. destruct (walk_inv m root v l e Hw) as (Hl & Hp & Hh & _ & t & Ed & Er).
  destruct Hh as [|Hh]; [done|]. destruct l as [|l]; [done|]. exfalso.
  pose proof (Hf (3 - Datatypes.S l)%nat t ltac:(simpl; lia) Ed) as Hn.
  replace (3 - (3 - Datatypes.S l))%nat with (Datatypes.S l) in Hn by lia. rewrite Er, Hh in Hn. by specialize (Hn Hp).
Qed.

(** Mapping larger pages elsewhere changes nothing for an address. *)
Lemma flat_elsewhere m m' v :
  flat root m BasePageSize v -> flat root m' LargePageSize v -> walk m' root v = walk m root v -> flat root m' BasePageSize v.
Proof.
  intros Hf Hf' Hw i t Hi Ed Hp. destruct (decide (i < 2)%nat) as [C|C]; [by apply Hf'|].
  simpl in Hi. replace i with 2%nat in * by lia. change (3 - 2)%nat with 1%nat in *.
  destruct (is_huge (rd m' (t + 8 * Mmu.index 1 v))) eqn:Hh; [|done].
  assert (E : walk m' root v = Some (1%nat, rd m' (t + 8 * Mmu.index 1 v))).
  { rewrite (walk_descend m' root v 2 t) by (done || lia). change (3 - 2)%nat with 1%nat. cbn [walk_from]. by rewrite Hp, Hh. }
  rewrite Hw in E. by apply (flat_walk m) in E.
Qed.

(** *** [map_heap] *)

(** Room for one page of size [S] with its page tables *)
Definition page_room (S : PageSize) : Z := 2 * SIZE S + 3 * 4096.

(** [n] pages of size [S] at [v] are mapped onto the frames [ps], which were free. *)
Record heap_mapped k (S : PageSize) (v : Z) (ps : list Z) (flags : Z) k' : Prop := {
  hm_ok : mm_ok root phys_bits (mmu k');
  hm_virt : virt k' = virt k;
  hm_free : forall x, pa_free (phys k') x -> pa_free (phys k) x;
  hm_frames : Forall (fun p => p mod SIZE S = 0 /\ 0 <= p /\ p + SIZE S <= 2 ^ phys_bits /\
                forall x, p <= x < p + SIZE S -> pa_free (phys k) x /\ ~ pa_free (phys k') x) ps;
  hm_apart : pairwise (fun p q => p + SIZE S <= q \/ q + SIZE S <= p) ps;
  hm_page : forall i p x, ps !! i = Some p -> v + Z.of_nat i * SIZE S <= x < v + (Z.of_nat i + 1) * SIZE S ->
    walk (tables k') root x = Some (MAP_LEVEL S, page_entry S p flags);
  hm_other : forall x, lower x -> ~ v <= x < v + Z.of_nat (base.length ps) * SIZE S ->
    walk (tables k') root x = walk (tables k) root x;
  hm_flat : forall x, user x -> flat root (tables k) S x -> flat root (tables k') S x
}.

Lemma heap_mapped_nil k S v flags : mm_ok root phys_bits (mmu k) -> heap_mapped k S v [] flags k.
Proof. intros Hk. split; try done. Qed.

(** What the frames of later pages have in common with a page that is taken: nothing *)
Lemma frames_apart (A B : Z -> Prop) p q n :
  0 < n -> (forall x, p <= x < p + n -> ~ A x) -> (forall x, q <= x < q + n -> B x) -> (forall x, B x -> A x) ->
  p + n <= q \/ q + n <= p.
Proof.
  intros Hn Hp Hq HAB. destruct (Z.le_gt_cases (p + n) q) as [|H1']; [by left|].
  destruct (Z.le_gt_cases (q + n) p) as [|H2']; [by right|]. exfalso.
  apply (Hp (Z.max p q)); [lia|]. apply HAB, Hq. lia.
Qed.

Lemma take_frames k f p size :
  mm_ok root phys_bits (mmu k) -> pa_ok f -> takes (pa_free (phys k)) (pa_free f) p size ->
  mm_ok root phys_bits (mmu (with_frames k f)).
Proof.
  intros [T1 T2 T3 T4] Hf [_ Ht]. split; simpl; [done|done| |].
  - intros x Hx. apply T3. by apply Ht in Hx as [Hx _].
  - intros t x Hi Hx Hfree. apply (T4 t x Hi Hx). by apply Ht in Hfree as [Hfree _].
Qed.

(** A page of which the frame was just taken *)
Lemma heap_mapped_one k S v p flags f1 s' :
  0 <= v -> v + SIZE S <= 2 ^ 47 ->
  0 <= p -> p mod SIZE S = 0 -> p + SIZE S <= 2 ^ phys_bits -> takes (pa_free (phys k)) (pa_free f1) p (SIZE S) ->
  range_mapped root phys_bits (mmu (with_frames k f1)) S v 1 p flags false s' ->
  heap_mapped k S v [p] flags (mkKernel s' (virt k)).
Proof.
  intros Hv0 Hvb Hp0 Hpm Hpb [Tp1 Tp2] [R1 [_ RF] R3 R4 _]. pose proof (SIZE_pos S) as HS. rewrite Z.mul_1_l in R3.
  assert (RF' : forall x, pa_free (frames s') x -> pa_free f1 x) by exact RF.
  split; cbn [mmu virt]; [exact R1|done| | | | | |exact R4].
  - intros x Hx%RF'. by apply Tp2 in Hx as [Hx _].
  - rewrite Forall_singleton. split_and!; try done. intros x Hx. split; [by apply Tp1|].
    intros Hx'%RF'. by apply Tp2 in Hx' as [_ []].
  - by split.
  - intros i q x Hi Hx. assert (i = 0%nat) as -> by (apply lookup_lt_Some in Hi; simpl in Hi; lia).
    injection Hi as <-. change (Z.of_nat 0) with 0 in Hx. rewrite R3 by (unfold lower; lia).
    rewrite decide_True by lia. unfold range_entry. rewrite Z.div_small by lia. by rewrite Z.mul_0_l, Z.add_0_r.
  - intros x Hx Ho. change (Z.of_nat (base.length [p])) with 1 in Ho. rewrite R3 by done. by rewrite decide_False by lia.
Qed.

(** One page *)
Lemma map_one k S v flags r :
  mm_ok root phys_bits (mmu k) -> (S = HugePageSize -> supports_1gib_pages = true) ->
  0 <= v -> v mod SIZE S = 0 -> v + SIZE S <= 2 ^ 47 -> flat root (tables k) S v ->
  plain_flags flags -> contains HUGE_PAGE flags = false -> 0 <= r -> pa_room (phys k) (page_room S + r) ->
  exists p f1 s', physicalmem (pa_allocate_aligned (SIZE S) (SIZE S)) k = Done (Ok p, with_frames k f1) /\
    Paging.map root phys_bits supports_1gib_pages S v p 1 flags (mmu (with_frames k f1)) = Done (tt, s') /\
    heap_mapped k S v [p] flags (mkKernel s' (virt k)) /\ pa_room (frames s') r.
Proof.
  intros Hk HG Hv Hm Hb Hf Hfl Hh Hr Hroom. pose proof (SIZE_pos S) as HS.
  assert (Hfr : pa_ok (phys k)) by exact (mk_frames _ _ _ Hk).
  assert (Hpow : pow2 (SIZE S)) by (destruct S; [by exists 12|by exists 21|by exists 30]).
  assert (HS60 : SIZE S <= 2 ^ 60) by (by destruct S).
  unfold page_room in Hroom. replace (2 * SIZE S + 3 * 4096 + r) with (SIZE S + SIZE S + (3 * 4096 + r)) in Hroom by lia.
  destruct (pa_room_aligned (phys k) (SIZE S) (SIZE S) (3 * 4096 + r) Hfr ltac:(lia) Hpow ltac:(lia)
    ltac:(by rewrite Z.mod_same by lia) ltac:(lia) Hroom) as (p & f1 & E & Hroom1).
  destruct (pa_allocate_aligned_law (phys k) (SIZE S) (SIZE S) Hfr ltac:(lia) Hpow ltac:(lia)
    ltac:(by rewrite Z.mod_same by lia)) as (r1 & f2 & E2 & Hr1).
  rewrite E in E2. injection E2 as <- <-. destruct Hr1 as (Hf1 & Hpm & _ & Tp).
  pose proof (takes_range phys_bits (phys k) f1 p (SIZE S) Hfr ltac:(lia) Tp) as [Lp Up]. pose proof (pa_range (A := P)) as HrP.
  assert (Hsup : supply (3 * Z.to_nat 1 + 0) f1) by (apply room_supply; [done|]; eapply pa_room_le; [|exact Hroom1]; lia).
  destruct (map_spec root phys_bits supports_1gib_pages Hbits S v 1 p flags (mmu (with_frames k f1)) 0)
    as (s' & Em & HR & _ & HT); rewrite ?Hm, ?Z.sub_0_r, ?Z.mul_1_l; try done; try lia.
  { by eapply take_frames. }
  { intros i Hi. assert (i = 0) as -> by lia. by rewrite Z.mul_0_l, Z.add_0_r. }
  rewrite Hm, Z.sub_0_r in HR. exists p, f1, s'. split_and!; [unfold physicalmem; by rewrite E|exact Em| |].
  - eapply heap_mapped_one; [done|done|lia|done|lia|done|exact HR].
  - by apply (takes_room 3 r f1 (frames s') Hf1 Hr HT).
Qed.

(** Pages one behind the other *)
Lemma heap_mapped_cons k k1 k2 S v p ps flags :
  v mod SIZE S = 0 -> 0 <= v -> v + (Z.of_nat (base.length ps) + 1) * SIZE S <= 2 ^ 47 ->
  heap_mapped k S v [p] flags k1 -> heap_mapped k1 S (v + SIZE S) ps flags k2 -> heap_mapped k S v (p :: ps) flags k2.
Proof.
  intros Hm Hv Hb [A1 A2 A3 A4 A5 A6 A7 A8] [B1 B2 B3 B4 B5 B6 B7 B8]. pose proof (SIZE_pos S) as HS.
  apply Forall_singleton in A4 as (Q1 & Q2 & Q3 & Q4).
  split; [done|congruence|auto| | | | |auto].
  - constructor.
    + split_and!; [done..|]. intros x Hx. destruct (Q4 x Hx). auto.
    + eapply Forall_impl; [exact B4|]. cbv beta. intros q (C1 & C2 & C3 & C4). split_and!; [done..|]. intros x Hx. destruct (C4 x Hx). auto.
  - split; [|done]. eapply Forall_impl; [exact B4|]. cbv beta. intros q (_ & _ & _ & C4).
    apply (frames_apart (pa_free (phys k1)) (pa_free (phys k1)) p q (SIZE S)); [lia| |by intros x Hx; apply C4|done].
    intros x Hx. by apply Q4.
  - intros [|i] q x Hi Hx.
    + injection Hi as <-. rewrite B7; [by apply (A6 0%nat)|unfold lower; change (Z.of_nat 0) with 0 in Hx; lia|]. change (Z.of_nat 0) with 0 in Hx. lia.
    + apply (B6 i q x Hi). lia.
  - intros x Hx Ho. cbn [base.length] in Ho. rewrite B7 by (done || lia). apply A7; [done|]. change (Z.of_nat (base.length [p])) with 1. lia.
Qed.

Lemma map_heap_loop_run S v flags r n : forall k i,
  mm_ok root phys_bits (mmu k) -> (S = HugePageSize -> supports_1gib_pages = true) ->
  0 <= v -> 0 <= i -> (v + i) mod SIZE S = 0 -> v + i + Z.of_nat n * SIZE S <= 2 ^ 47 ->
  (forall x, v + i <= x < v + i + Z.of_nat n * SIZE S -> flat root (tables k) S x) ->
  plain_flags flags -> contains HUGE_PAGE flags = false -> 0 <= r ->
  pa_room (phys k) (Z.of_nat n * page_room S + r) ->
  exists ps k', base.length ps = n /\
    map_heap_loop root phys_bits supports_1gib_pages n S v (i + Z.of_nat n * SIZE S) flags i k =
      Done (i + Z.of_nat n * SIZE S, k') /\
    heap_mapped k S (v + i) ps flags k' /\ pa_room (phys k') r.
Proof.
  pose proof (SIZE_pos S) as HS. assert (HW : 2 ^ 47 < W64) by done.
  induction n as [|n IH]; intros k i Hk HG Hv Hi Hm Hb Hf Hfl Hh Hr Hroom.
  - exists [], k. cbn [map_heap_loop]. change (Z.of_nat 0) with 0 in *. rewrite Z.mul_0_l, Z.add_0_r, Z.ltb_irrefl in *.
    split_and!; [done|done|by apply heap_mapped_nil|exact Hroom].
  - assert (Hpr : 0 <= page_room S) by (unfold page_room; lia).
    replace (Z.of_nat (Datatypes.S n) * page_room S + r) with (page_room S + (Z.of_nat n * page_room S + r)) in Hroom by lia.
    destruct (map_one k S (v + i) flags (Z.of_nat n * page_room S + r) Hk HG ltac:(lia) Hm ltac:(nia))
      as (p & f1 & s' & E1 & E2 & HM & Hroom1); [apply Hf; nia|done|done|nia|exact Hroom|].
    destruct (IH (mkKernel s' (virt k)) (i + SIZE S)) as (ps & k' & Hl & E & HM' & Hroom'); try done; try nia.
    { apply (hm_ok _ _ _ _ _ _ HM). }
    { rewrite Z.add_assoc, <- (Z.mul_1_l (SIZE S)) at 1. by rewrite Z.mod_add by lia. }
    { intros x Hx. apply (hm_flat _ _ _ _ _ _ HM); [apply lower_user; unfold lower; nia|apply Hf; nia]. }
    exists (p :: ps), k'. rewrite Z.add_assoc in HM'.
    split_and!; [simpl; by rewrite Hl| |eapply heap_mapped_cons; [done|lia|rewrite Hl; nia|exact HM|exact HM']|exact Hroom'].
    cbn [map_heap_loop]. rewrite (proj2 (Z.ltb_lt _ _)) by nia. rewrite (bind_done _ _ _ _ _ E1).
    rewrite (bind_lift_done _ _ (v + i)) by (apply add64_done; nia).
    assert (Ep : paging_map root phys_bits supports_1gib_pages S (v + i) p 1 flags (with_frames k f1) = Done (tt, mkKernel s' (virt k))).
    { unfold paging_map, on_mmu. by rewrite E2. }
    rewrite (bind_done _ _ _ _ _ Ep), (bind_lift_done _ _ (i + SIZE S)) by (apply add64_done; nia).
    replace (i + Z.of_nat (Datatypes.S n) * SIZE S) with (i + SIZE S + Z.of_nat n * SIZE S) by lia. exact E.
Qed.

(** The flags of a heap *)
Definition heap_flags (is_kernel : bool) : Z :=
  if is_kernel then pkey UNSAFE_MEM_REGION (execute_disable (writable (normal 0)))
  else execute_disable (writable (normal 0)).

Lemma heap_flags_ok is_kernel :
  plain_flags (heap_flags is_kernel) /\ contains HUGE_PAGE (heap_flags is_kernel) = false /\
  pkey_of (heap_flags is_kernel) = (if is_kernel then UNSAFE_MEM_REGION else 0) /\ Z.testbit (heap_flags is_kernel) 1 = true.
Proof. destruct is_kernel; (split_and!; [by apply plain_flags_test|done|by vm_compute|by vm_compute]). Qed.

(** [map_heap] maps the whole range, if physical memory has room for it. *)
Lemma map_heap_run S v n is_kernel r k :
  mm_ok root phys_bits (mmu k) -> (S = HugePageSize -> supports_1gib_pages = true) ->
  0 <= v -> v mod SIZE S = 0 -> v + Z.of_nat n * SIZE S <= 2 ^ 47 ->
  (forall x, v <= x < v + Z.of_nat n * SIZE S -> flat root (tables k) S x) -> 0 <= r ->
  pa_room (phys k) (Z.of_nat n * page_room S + r) ->
  exists ps k', base.length ps = n /\
    map_heap root phys_bits supports_1gib_pages S v (Z.of_nat n * SIZE S) is_kernel k = Done (Z.of_nat n * SIZE S, k') /\
    heap_mapped k S v ps (heap_flags is_kernel) k' /\ pa_room (phys k') r.
Proof.
  intros Hk HG Hv Hm Hb Hf Hr Hroom. pose proof (SIZE_pos S) as HS. assert (HW : 2 ^ 47 < W64) by done.
  assert (Hpow : pow2 (SIZE S)) by (destruct S; [by exists 12|by exists 21|by exists 30]).
  destruct (heap_flags_ok is_kernel) as (F1 & F2 & _).
  destruct (map_heap_loop_run S v (heap_flags is_kernel) r n k 0) as (ps & k' & Hl & E & HM & Hroom');
    rewrite ?Z.add_0_r in *; try done.
  exists ps, k'. split_and!; [done| |done|done]. unfold map_heap.
  rewrite (bind_lift_done _ _ _ _ (align_down_done (Z.of_nat n * SIZE S) (SIZE S) ltac:(unfold in_u64; nia) Hpow)).
  rewrite Z.mod_mul, Z.sub_0_r, Z.div_mul, Nat2Z.id by lia. exact E.
Qed.

(** *** Mapped heaps *)

(** The key of a heap's pages, which are writable *)
Definition heap_key (is_kernel : bool) : Z := if is_kernel then UNSAFE_MEM_REGION else 0.

(** [k'] has a heap of [n] bytes at [v]: the addresses are those virtual memory gave away,
    each has a byte of physical memory of its own that was free, under large pages with the
    heap's key; nothing else is mapped otherwise. *)
Record heap_ready k (v n : Z) (is_kernel : bool) k' : Prop := {
  hr_ok : kernel_ok root phys_bits k';
  hr_aligned : v mod SIZE LargePageSize = 0;
  hr_virt : takes (pa_free (virt k)) (pa_free (virt k')) v n;
  hr_page : forall x, v <= x < v + n -> exists e,
    walk (tables k') root x = Some (1%nat, e) /\ pkey_of e = heap_key is_kernel /\ Z.testbit e 1 = true;
  hr_frame : forall x, v <= x < v + n -> exists p,
    translate (tables k') root x = Some p /\ pa_free (phys k) p /\ ~ pa_free (phys k') p;
  hr_inj : forall x y, v <= x < v + n -> v <= y < v + n -> translate (tables k') root x = translate (tables k') root y -> x = y;
  hr_other : forall x, lower x -> ~ v <= x < v + n -> walk (tables k') root x = walk (tables k) root x
}.

Lemma writable_page S p flags : Z.testbit flags 1 = true -> Z.testbit (page_entry S p flags) 1 = true.
Proof.
  intros Hf. unfold page_entry, entry_of, insert, page_flags. rewrite !Z.lor_spec, Hf. by rewrite !orb_true_r.
Qed.

(** The page of an address *)
Lemma page_of v n x : v <= x < v + Z.of_nat n * SIZE LargePageSize ->
  exists i, (i < n)%nat /\ v + Z.of_nat i * SIZE LargePageSize <= x < v + (Z.of_nat i + 1) * SIZE LargePageSize.
Proof.
  intros Hx. pose proof (SIZE_pos LargePageSize) as HS.
  pose proof (Z.div_mod (x - v) (SIZE LargePageSize) ltac:(lia)) as Hd.
  pose proof (Z.mod_pos_bound (x - v) (SIZE LargePageSize) ltac:(lia)).
  assert (0 <= (x - v) / SIZE LargePageSize < Z.of_nat n) by (split; [apply Z.div_pos; lia|apply Z.div_lt_upper_bound; lia]).
  exists (Z.to_nat ((x - v) / SIZE LargePageSize)). rewrite Z2Nat.id by lia. split; [lia|nia].
Qed.

Lemma heap_page k v ps flags k' i p x :
  heap_mapped k LargePageSize v ps flags k' -> plain_flags flags -> contains HUGE_PAGE flags = false -> v mod SIZE LargePageSize = 0 ->
  ps !! i = Some p -> v + Z.of_nat i * SIZE LargePageSize <= x < v + (Z.of_nat i + 1) * SIZE LargePageSize ->
  translate (tables k') root x = Some (p + (x - (v + Z.of_nat i * SIZE LargePageSize))) /\
  exists e, walk (tables k') root x = Some (1%nat, e) /\ pkey_of e = pkey_of flags /\ (Z.testbit flags 1 = true -> Z.testbit e 1 = true).
Proof.
  intros HM Hf Hh Hm Hi Hx. pose proof (hm_page _ _ _ _ _ _ HM i p x Hi Hx) as Hw.
  pose proof (hm_frames _ _ _ _ _ _ HM) as HF. rewrite Forall_forall in HF.
  destruct (HF p (list_elem_of_lookup_2 _ _ _ Hi)) as (A1 & A2 & A3 & _). pose proof (SIZE_pos LargePageSize) as HS.
  destruct (page_entry_spec phys_bits Hbits LargePageSize p flags) as (_ & _ & _ & _ & E1 & E2); [split_and!; [done|done|lia|lia|done]|].
  split.
  - unfold translate. rewrite Hw, E1, <- SIZE_page_bits. do 2 f_equal.
    symmetry. apply (Z.mod_unique _ _ (v / SIZE LargePageSize + Z.of_nat i)); [lia|].
    pose proof (Z.div_mod v (SIZE LargePageSize) ltac:(lia)). lia.
  - eexists. split; [exact Hw|]. split; [exact E2|]. apply writable_page.
Qed.

(** Different pages have frames that are apart. *)
Lemma pairwise_lookup {A} (R : A -> A -> Prop) (l : list A) i j a b :
  (forall a b, R a b -> R b a) -> pairwise R l -> l !! i = Some a -> l !! j = Some b -> i <> j -> R a b.
Proof.
  intros HR. revert i j. induction l as [|c l IH]; intros i j HP Hi Hj Hn; [done|]. destruct HP as [HF HP]. rewrite Forall_forall in HF.
  destruct i as [|i], j as [|j]; cbn in Hi, Hj; try done.
  - injection Hi as ->. by apply HF, (list_elem_of_lookup_2 _ j).
  - injection Hj as ->. by apply HR, HF, (list_elem_of_lookup_2 _ i).
  - apply (IH i j); [done..|congruence].
Qed.

Lemma heap_is_ready k (V1 : V) v n is_kernel ps k2 :
  kernel_ok root phys_bits k -> pa_ok V1 -> takes (pa_free (virt k)) (pa_free V1) v (Z.of_nat n * SIZE LargePageSize) ->
  v mod SIZE LargePageSize = 0 -> base.length ps = n ->
  heap_mapped (mkKernel (mmu k) V1) LargePageSize v ps (heap_flags is_kernel) k2 ->
  heap_ready k v (Z.of_nat n * SIZE LargePageSize) is_kernel k2.
Proof.
  intros [K1 K2 K3] HV Tv Hm Hl HM. pose proof (SIZE_pos LargePageSize) as HS. pose proof (pa_range (A := V)) as HrV.
  destruct (heap_flags_ok is_kernel) as (F1 & F2 & F3 & F4).
  assert (Hpage : forall x, v <= x < v + Z.of_nat n * SIZE LargePageSize -> exists i p, ps !! i = Some p /\
    v + Z.of_nat i * SIZE LargePageSize <= x < v + (Z.of_nat i + 1) * SIZE LargePageSize /\
    translate (tables k2) root x = Some (p + (x - (v + Z.of_nat i * SIZE LargePageSize))) /\
    exists e, walk (tables k2) root x = Some (1%nat, e) /\ pkey_of e = heap_key is_kernel /\ Z.testbit e 1 = true).
  { intros x Hx. destruct (page_of v n x Hx) as (i & Hi & Hx'). rewrite <- Hl in Hi.
    destruct (lookup_lt_is_Some_2 ps i Hi) as [p Hp].
    destruct (heap_page _ _ _ _ _ i p x HM F1 F2 Hm Hp Hx') as (Ht & e & Ew & Ek & Et).
    exists i, p. split_and!; [done|lia|lia|done|]. exists e. split_and!; [done|by rewrite Ek, F3|by apply Et]. }
  pose proof (hm_frames _ _ _ _ _ _ HM) as HF. rewrite Forall_forall in HF.
  split; [|done| | | | |].
  - split; [apply (hm_ok _ _ _ _ _ _ HM)|by rewrite (hm_virt _ _ _ _ _ _ HM)|].
    intros x Hx. rewrite (hm_virt _ _ _ _ _ _ HM) in Hx. cbn [virt] in Hx. apply (proj2 Tv) in Hx as [Hx Hn].
    assert (Hlow : lower x) by (pose proof (pa_inside (virt k) x K2 Hx); unfold lower; lia).
    apply (flat_elsewhere (tables k)); [by apply K3|apply (hm_flat _ _ _ _ _ _ HM); [by apply lower_user|by apply flat_large, K3]|].
    rewrite (hm_other _ _ _ _ _ _ HM x Hlow) by (rewrite Hl; lia). done.
  - by rewrite (hm_virt _ _ _ _ _ _ HM).
  - intros x Hx. by destruct (Hpage x Hx) as (_ & _ & _ & _ & _ & Hw).
  - intros x Hx. destruct (Hpage x Hx) as (i & p & Hp & Hi & Ht & _). eexists. split; [exact Ht|].
    destruct (HF p (list_elem_of_lookup_2 _ _ _ Hp)) as (_ & _ & _ & Hfree). apply Hfree. lia.
  - intros x y Hx Hy. destruct (Hpage x Hx) as (i & p & Hp & Hi & -> & _), (Hpage y Hy) as (j & q & Hq & Hj & -> & _).
    intros Exy%(inj Some). destruct (decide (i = j)) as [->|Hn].
    + rewrite Hp in Hq. injection Hq as ->. lia.
    + assert (p + SIZE LargePageSize <= q \/ q + SIZE LargePageSize <= p) as [D|D]; [|lia|lia].
      eapply (pairwise_lookup (fun p q => p + SIZE LargePageSize <= q \/ q + SIZE LargePageSize <= p) ps i j);
        [intros ? ?; tauto|apply (hm_apart _ _ _ _ _ _ HM)|done..].
  - intros x Hx Hn. rewrite (hm_other _ _ _ _ _ _ HM x Hx) by (rewrite Hl; lia). done.
Qed.

(** *** The two heaps *)

Lemma on_kernel_step {A B} (o : M (Kernel P V) A) (b : Boot P V) (c : A -> M (Boot P V) B) a k :
  o (kernel b) = Done (a, k) -> bind (on_kernel o) c b = c a (with_kernel k b).
Proof. intros E. unfold bind, on_kernel. by rewrite E. Qed.


(** Virtual addresses for a heap of [n] large pages *)
Lemma allocate_virtual_run (b : Boot P V) n :
  pa_ok (virt (kernel b)) -> (0 < n)%nat -> Z.of_nat n * SIZE LargePageSize <= 2 ^ 47 ->
  pa_room (virt (kernel b)) (Z.of_nat n * SIZE LargePageSize + SIZE LargePageSize) ->
  exists v V1, pa_ok V1 /\ v mod SIZE LargePageSize = 0 /\
    takes (pa_free (virt (kernel b))) (pa_free V1) v (Z.of_nat n * SIZE LargePageSize) /\
    allocate_virtual (Z.of_nat n * SIZE LargePageSize) (SIZE LargePageSize) b =
      Done (v, with_kernel (mkKernel (mmu (kernel b)) V1) b).
Proof.
  intros Hok Hn Hb Hroom. assert (Hs : 0 < Z.of_nat n * SIZE LargePageSize <= 2 ^ 60) by (simpl SIZE in *; lia).
  assert (Hpow : pow2 (SIZE LargePageSize)) by (by exists 21).
  assert (Hmod : Z.of_nat n * SIZE LargePageSize mod SIZE LargePageSize = 0) by (apply Z.mod_mul; done).
  destruct (pa_room_aligned (virt (kernel b)) _ (SIZE LargePageSize) 0 Hok Hs Hpow ltac:(done) Hmod ltac:(lia)) as (v & V1 & E & _).
  { by rewrite Z.add_0_r. }
  destruct (pa_allocate_aligned_law (virt (kernel b)) _ (SIZE LargePageSize) Hok Hs Hpow ltac:(done) Hmod) as (r & V2 & E2 & Hr).
  rewrite E in E2. injection E2 as <- <-. destruct Hr as (HV & Hm & _ & Tv). exists v, V1. split_and!; [done..|].
  unfold allocate_virtual.
  erewrite on_kernel_step; [|unfold virtualmem; by rewrite E]. reflexivity.
Qed.

(** What is left of physical memory behind the kernel and the page tables *)
Definition left_over (b : Boot P V) : Z :=
  total_memory (phys (kernel b)) - KERNEL_END_ADDRESS b - reserved_space (total_memory (phys (kernel b))).


(** [Heap_init] makes a heap of which everything is free. *)
Lemma client_init h b0 s0 :
  0 < b0 -> (align_of_Hole | b0) -> (align_of_Hole | s0) -> min_size <= s0 -> b0 + s0 < W64 ->
  exists h', Heap_init b0 s0 h = Done (tt, h') /\ client_ok b0 s0 (h', []).
Proof.
  intros Hb D1 D2 Hs Hw. eexists. split; [reflexivity|].
  destruct (client_new (here h) b0 s0 Hb D1 D2 Hs Hw) as [[A1 A2 A3 A4] B C D E F]. by split.
Qed.

(** The size of the application's heap, if there are 8 MiB left for the kernel's *)
Definition user_heap_size (b : Boot P V) : Z :=
  left_over b - left_over b mod SIZE LargePageSize - virt_size.



Hypothesis Hlow : 0 < pa_low (A := V).

(** A heap that virtual memory gave away begins behind its lower bound. *)
Lemma heap_bounds k V1 v n :
  kernel_ok root phys_bits k -> 0 < n -> takes (pa_free (virt k)) (pa_free V1) v n -> 0 < v /\ v + n <= 2 ^ 47.
Proof.
  intros [_ K2 _] Hn [Tv _]. pose proof (pa_inside (virt k) v K2 (Tv v ltac:(lia))).
  pose proof (pa_inside (virt k) _ K2 (Tv (v + n - 1) ltac:(lia))). lia.
Qed.

(** The global allocator on a heap of large pages *)
Lemma heap_init_run h v n :
  0 < v -> v + Z.of_nat n * SIZE LargePageSize <= 2 ^ 47 -> (0 < n)%nat -> v mod SIZE LargePageSize = 0 ->
  exists h', Heap_init v (Z.of_nat n * SIZE LargePageSize) h = Done (tt, h') /\
    client_ok v (Z.of_nat n * SIZE LargePageSize) (h', []).
Proof.
  intros Hv Hb Hn Hm. assert (D : (align_of_Hole | SIZE LargePageSize)) by (by exists 0x40000).
  assert (HW : 2 ^ 47 < W64) by done. assert (Hs : min_size <= SIZE LargePageSize) by done. pose proof (SIZE_pos LargePageSize).
  apply client_init; [done| | |nia|lia].
  - etransitivity; [exact D|]. by apply Z.mod_divide.
  - by apply Z.divide_mul_r.
Qed.




(** The application's heap has no protection key. *)
Lemma init_user_allocator_run b n :
  kernel_ok root phys_bits (kernel b) -> USER_HEAP_SIZE b = Z.of_nat n * SIZE LargePageSize -> (0 < n)%nat ->
  Z.of_nat n * SIZE LargePageSize <= 2 ^ 47 ->
  pa_room (virt (kernel b)) (Z.of_nat n * SIZE LargePageSize + SIZE LargePageSize) ->
  pa_room (phys (kernel b)) (Z.of_nat n * page_room LargePageSize) ->
  exists v k h,
    init_user_allocator root phys_bits supports_1gib_pages b =
      Done (tt, mkBoot k h (KERNEL_START_ADDRESS b) (KERNEL_END_ADDRESS b) (HEAP_START_ADDRESS b) (HEAP_END_ADDRESS b)
                  v (v + USER_HEAP_SIZE b) (USER_HEAP_SIZE b)) /\
    heap_ready (kernel b) v (USER_HEAP_SIZE b) false k /\ client_ok v (USER_HEAP_SIZE b) (h, []).
Proof.
  intros Hk Hs Hn Hb Hrv Hrp. rewrite Hs. pose proof (SIZE_pos LargePageSize) as HS. pose proof (pa_range (A := V)) as HrV.
  destruct (allocate_virtual_run b n) as (v & V1 & HV & Hm & Tv & E); [apply Hk|done..|].
  destruct (heap_bounds (kernel b) V1 v (Z.of_nat n * SIZE LargePageSize) Hk ltac:(nia) Tv) as [Hv0 Hvb].
  destruct Hk as [K1 K2 K3].
  destruct (map_heap_run LargePageSize v n false 0 (mkKernel (mmu (kernel b)) V1)) as (ps & k2 & Hl & E2 & HM & _);
    rewrite ?Z.add_0_r; try done; [lia| |].
  { intros x Hx. by apply flat_large, K3, (proj1 Tv). }
  destruct (heap_init_run (ALLOCATOR b) v n Hv0 Hvb Hn Hm) as (h & Eh & Hc).
  exists v, k2, h. split_and!; [|by apply (heap_is_ready (kernel b) V1 v n false ps)|done].
  unfold init_user_allocator. rewrite bind_gets, Hs, (bind_done _ _ _ _ _ E).
  erewrite on_kernel_step; [|exact E2]. rewrite bind_massert by apply Z.eqb_refl.
  rewrite (bind_lift_done _ _ (v + Z.of_nat n * SIZE LargePageSize)) by (apply add64_done; change W64 with (2 ^ 64); lia).
  rewrite bind_modify. unfold on_allocator. cbn [ALLOCATOR with_user_heap with_kernel]. rewrite Eh. by rewrite <- Hs.
Qed.

End correct.

(** ** Examples *)

Section sample.

#[local] Instance sample_phys : PageAllocator PhysMem := phys_allocator sample_end.
#[local] Instance sample_virt : PageAllocator VirtMem := virt_allocator sample_end.
#[local] Instance sample_phys_laws : PageAllocatorLaws PhysMem :=
  phys_allocator_laws sample_end sample_top ltac:(by vm_compute) ltac:(by vm_compute).
#[local] Instance sample_virt_laws : PageAllocatorLaws VirtMem :=
  virt_allocator_laws sample_end ltac:(by vm_compute).
#[local] Instance sample_phys_room : RoomLaws PhysMem := phys_room_laws sample_end sample_top ltac:(by vm_compute) ltac:(by vm_compute).
#[local] Instance sample_virt_room : RoomLaws VirtMem := virt_room_laws sample_end ltac:(by vm_compute).

(** 256 MiB of memory, a kernel of 8 MiB; the allocator has handed out some of [first_block]. *)
Definition sample_boot : Boot PhysMem VirtMem :=
  mkBoot sample_kernel (mkHeap 0x500000 128 0 0 (HoleList_empty 0x500000)) 0x400000 sample_end 0 0 0 0 0.





(** 15 MiB of memory pass the check of [init], but are too small for the kernel's heap. *)
Definition sample_init (total : Z) : outcome (unit * Boot PhysMem VirtMem) :=
  init sample_root 39 false (fun _ => total) 0x400000 0x400000 (ret tt) sample_boot.

Example init_heap_small :
  sample_init 0xF00000 = Panic /\ sample_init 0xC00000 = OutOfFuel /\
  match sample_init sample_top with
  | Done (_, b) => (HEAP_START_ADDRESS b, HEAP_END_ADDRESS b) = (0x800000, 0x1000000)
  | _ => False
  end.
Proof. vm_compute. split_and!; reflexivity. Qed.

(** A block of the kernel's heap that is given back after the switch is handed out as a block
    of the application's heap, with the kernel's key. *)
Definition layout64 : Layout := mkLayout 64 8.

Definition sample_switch : M (Boot PhysMem VirtMem) (Z * Z * Z) :=
  let! _ := init_heap sample_root 39 false (fun _ => sample_top) in
  let! p := on_allocator (global_alloc layout64) in
  let! _ := init_user_allocator sample_root 39 false in
  let! q := on_allocator (global_alloc layout64) in
  let! _ := on_allocator (global_dealloc sample_end p layout64) in
  let! r := on_allocator (global_alloc layout64) in
  ret (p, q, r).

Definition key_at (b : Boot PhysMem VirtMem) (x : Z) : option Z := option_map (fun w => pkey_of w.2) (walk (mem (mmu (kernel b))) sample_root x).

Example kernel_block_returns :
  match sample_switch sample_boot with
  | Done ((p, q, r), b) => p = 0x800000 /\ q = 0x1000000 /\ r = p /\ key_at b q = Some 0 /\ key_at b r = Some UNSAFE_MEM_REGION
  | _ => False
  end.
Proof. vm_compute. split_and!; reflexivity. Qed.

End sample.
