(* ===== verification/Acpi.v ===== *)
(** * ACPI tables: src/arch/x86_64/kernel/acpi.rs

    The firmware leaves a chain of tables in physical memory: the RSDP, found by
    its signature in the BIOS areas, points to the RSDT or XSDT, whose entries
    point to the MADT, the FADT and the SSDTs; the FADT points to the DSDT. The
    code reads them through virtual memory: [detect_rsdp] identity-maps the
    BIOS pages, [AcpiTable::map] maps a table into fresh virtual memory and
    [Drop for AcpiTable] gives that memory back.

    [rom] is the content of physical memory as the firmware left it; a load
    from a virtual address goes through the page tables of [Mm.Kernel], and a
    page fault aborts. The tables are mapped with protection key 0 or read
    outside of the isolated section, so the PKRU register plays no part here. *)

From Stdlib Require Import ZArith Lia String.
From stdpp Require Import base numbers list gmap.
From S2P Require Import Prelude Pte Mmu PageAlloc Paging Mm Bytes.

#[local] Open Scope Z_scope.

(** ** The structs *)

Definition AcpiRsdp : layout :=
  [("signature", 8); ("checksum", 1); ("oem_id", 6); ("revision", 1); ("rsdt_physical_address", 4);
   ("length", 4); ("xsdt_physical_address", 8); ("extended_checksum", 1); ("reserved", 3)]%string.

Definition AcpiSdtHeader : layout :=
  [("signature", 4); ("length", 4); ("revision", 1); ("checksum", 1); ("oem_id", 6); ("oem_table_id", 8);
   ("oem_revision", 4); ("creator_id", 4); ("creator_revision", 4)]%string.

Definition AcpiGenericAddress : layout :=
  [("address_space", 1); ("bit_width", 1); ("bit_offset", 1); ("access_size", 1); ("address", 8)]%string.

Definition AcpiFadt : layout :=
  let gas := size_of AcpiGenericAddress in
  [("firmware_ctrl", 4); ("dsdt", 4); ("reserved1", 1); ("preferred_pm_profile", 1); ("sci_int", 2);
   ("smi_cmd", 4); ("acpi_enable", 1); ("acpi_disable", 1); ("s4bios_req", 1); ("pstate_cnt", 1);
   ("pm1a_evt_blk", 4); ("pm1b_evt_blk", 4); ("pm1a_cnt_blk", 4); ("pm1b_cnt_blk", 4);
   ("pm2_cnt_blk", 4); ("pm_tmr_blk", 4); ("gpe0_blk", 4); ("gpe1_blk", 4); ("pm1_evt_len", 1);
   ("pm1_cnt_len", 1); ("pm2_cnt_len", 1); ("pm_tmr_len", 1); ("gpe0_blk_len", 1);
   ("gpe1_blk_len", 1); ("gpe1_base", 1); ("cst_cnt", 1); ("p_lvl2_lat", 2); ("p_lvl3_lat", 2);
   ("flush_size", 2); ("flush_stride", 2); ("duty_offset", 1); ("duty_width", 1); ("day_alrm", 1);
   ("mon_alrm", 1); ("century", 1); ("iapc_boot_arch", 2); ("reserved2", 1); ("flags", 4);
   ("reset_reg", gas); ("reset_value", 1); ("arm_boot_arch", 2); ("fadt_minor_version", 1);
   ("x_firmware_ctrl", 8); ("x_dsdt", 8); ("x_pm1a_evt_blk", gas); ("x_pm1b_evt_blk", gas);
   ("x_pm1a_cnt_blk", gas); ("x_pm1b_cnt_blk", gas); ("x_pm2_cnt_blk", gas); ("x_pm_tmr_blk", gas);
   ("x_gpe0_blk", gas); ("x_gpe1_blk", gas); ("sleep_control_reg", gas); ("sleep_status_reg", gas);
   ("hypervisor_vendor_id", 8)]%string.

Definition EBDA_PTR_LOCATION : Z := 0x40E.
Definition EBDA_MINIMUM_ADDRESS : Z := 0x400.
Definition EBDA_WINDOW_SIZE : Z := 1024.
Definition RSDP_SEARCH_ADDRESS_LOW : Z := 0xE0000.
Definition RSDP_SEARCH_ADDRESS_HIGH : Z := 0xFFFFF.
Definition RSDP_CHECKSUM_LENGTH : Z := 20.
Definition RSDP_XCHECKSUM_LENGTH : Z := 36.
Definition AML_NAMEOP : Z := 0x08.
Definition AML_PACKAGEOP : Z := 0x12.
Definition AML_ZEROOP : Z := 0x00.
Definition AML_ONEOP : Z := 0x01.
Definition AML_BYTEPREFIX : Z := 0x0A.
Definition SLP_EN : Z := Z.shiftl 1 13.
Definition GENERIC_ADDRESS_IO_SPACE : Z := 1.

(** [struct AcpiTable]: the header reference is its address. *)
Record AcpiTable := mkTable { header : Z; allocated_virtual_address : Z; allocated_length : Z }.

(** The kernel's memory and the three globals of the file. *)
Record Acpi (P V : Type) := mkAcpi {
  kern : Kernel P V;
  MADT : option AcpiTable;
  PM1A_CNT_BLK : option Z;
  SLP_TYPA : option Z
}.
Arguments mkAcpi {P V}.
Arguments kern {P V}.
Arguments MADT {P V}.
Arguments PM1A_CNT_BLK {P V}.
Arguments SLP_TYPA {P V}.

(** ** The "_S5_" object in AML bytecode *)

Definition s5_name : list Z := (text "_S5_" ++ [AML_PACKAGEOP])%list.

(** The part of [search_s5_in_table] that looks at the bytecode: the value it
    stores to [SLP_TYPA], if any. *)
Definition search_s5 (aml : list Z) : outcome (option Z) :=
  match position_window s5_name aml with
  | None => Done None
  | Some i =>
      let? named :=
        if (2 <? i)%nat then
          let? a := at_index aml (i - 1) in
          if a =? AML_NAMEOP then Done true
          else
            let? b := at_index aml (i - 2) in
            Done ((b =? AML_NAMEOP) && (a =? 0x5C))
        else Done false in
      if named : bool then
        let? pkg_length := at_index aml (i + 5) in
        let? num_elements := at_index aml (i + 6) in
        if (Z.land pkg_length 192 =? 0) && (0 <? num_elements) then
          let? op := at_index aml (i + 7) in
          if op =? AML_ZEROOP then Done (Some 0)
          else if op =? AML_ONEOP then Done (Some 1)
          else if op =? AML_BYTEPREFIX then let? v := at_index aml (i + 8) in Done (Some v)
          else Done None
        else Done None
      else Done None
  end.

Section acpi.

Context {P V : Type} `{PageAllocator P, PageAllocator V}.
Context (root phys_bits : Z) (supports_1gib_pages : bool) (kernel_start_address : Z).
Context (rom : Z -> Z).

(** ** Loads *)

Definition read_byte (a : Z) : M (Kernel P V) Z := fun k =>
  match translate (Paging.mem (mmu k)) root a with Some p => Done (rom p, k) | None => Panic end.

Fixpoint read_bytes (a : Z) (n : nat) : M (Kernel P V) (list Z) :=
  match n with
  | O => ret []
  | S n => let! b := read_byte a in let! bs := read_bytes (a + 1) n in ret (b :: bs)
  end.

Definition load_bytes (fields : layout) (name : string) (a : Z) : M (Kernel P V) (list Z) :=
  read_bytes (a + offset_of fields name) (field fields name).2.

Definition load (fields : layout) (name : string) (a : Z) : M (Kernel P V) Z :=
  let! bs := load_bytes fields name a in ret (le bs).

(** ** [AcpiTable] *)

Definition AcpiTable_map (physical_address : Z) : M (Kernel P V) AcpiTable :=
  let flags := execute_disable (read_only (normal 0)) in
  let allocated_length := 2 * SIZE BasePageSize in
  let count := allocated_length / SIZE BasePageSize in
  let! physical_map_address := lift (align_down physical_address (SIZE BasePageSize)) in
  let! offset := lift (sub64 physical_address physical_map_address) in
  let! r := virtualmem (pa_allocate allocated_length) in
  let! virtual_address := lift (unwrap_res r) in
  paging_map root phys_bits supports_1gib_pages BasePageSize virtual_address physical_map_address count flags ;;;
  let! header_ptr := lift (add64 virtual_address offset) in
  let! table_length := load AcpiSdtHeader "length" header_ptr in
  let! available := lift (sub64 allocated_length offset) in
  if available <? table_length then
    virtualmem (pa_deallocate virtual_address allocated_length) ;;;
    let! end_ := lift (add64 table_length offset) in
    let! allocated_length := lift (align_up end_ (SIZE BasePageSize)) in
    let count := allocated_length / SIZE BasePageSize in
    let! r := virtualmem (pa_allocate allocated_length) in
    let! virtual_address := lift (unwrap_res r) in
    paging_map root phys_bits supports_1gib_pages BasePageSize virtual_address physical_map_address count flags ;;;
    let! header_ptr := lift (add64 virtual_address offset) in
    ret (mkTable header_ptr virtual_address allocated_length)
  else ret (mkTable header_ptr virtual_address allocated_length).

Definition header_start_address (t : AcpiTable) : Z := header t.

Definition table_start_address (t : AcpiTable) : outcome Z :=
  add64 (header_start_address t) (size_of AcpiSdtHeader).

Definition table_length (t : AcpiTable) : M (Kernel P V) Z := load AcpiSdtHeader "length" (header t).

Definition table_end_address (t : AcpiTable) : M (Kernel P V) Z :=
  let! length := table_length t in lift (add64 (header_start_address t) length).

Definition signature (t : AcpiTable) : M (Kernel P V) (list Z) := load_bytes AcpiSdtHeader "signature" (header t).

(** [Drop for AcpiTable] *)
Definition AcpiTable_drop (t : AcpiTable) : M (Kernel P V) unit :=
  virtualmem (pa_deallocate (allocated_virtual_address t) (allocated_length t)).

(** ** The RSDP *)

Definition verify_checksum (start_address length : Z) : M (Kernel P V) (result unit unit) :=
  let! slice := read_bytes start_address (Z.to_nat length) in
  ret (if Bytes.checksum slice =? 0 then Ok tt else Err tt).

Definition is_err {A E} (r : result A E) : bool := match r with Ok _ => false | Err _ => true end.

(** The [for] loop over the candidate addresses. *)
Fixpoint detect_rsdp_in (addresses : list Z) (current_page : Z) : M (Kernel P V) (result Z unit) :=
  match addresses with
  | [] => ret (Err tt)
  | current_address :: addresses =>
      let! current_page :=
        if current_page <? current_address / SIZE BasePageSize then
          on_mmu (identity_map root phys_bits supports_1gib_pages kernel_start_address current_address current_address) ;;;
          ret (current_address / SIZE BasePageSize)
        else ret current_page in
      let! signature := load_bytes AcpiRsdp "signature" current_address in
      if negb (bool_decide (signature = text "RSD PTR ")) then detect_rsdp_in addresses current_page
      else
        let! r := verify_checksum current_address RSDP_CHECKSUM_LENGTH in
        if is_err r then detect_rsdp_in addresses current_page
        else
          let! revision := load AcpiRsdp "revision" current_address in
          let! bad :=
            if 2 <=? revision then
              let! r := verify_checksum current_address RSDP_XCHECKSUM_LENGTH in ret (is_err r)
            else ret false in
          if bad : bool then detect_rsdp_in addresses current_page else ret (Ok current_address)
  end.

Definition detect_rsdp (start_address end_address : Z) : M (Kernel P V) (result Z unit) :=
  detect_rsdp_in (step_by start_address end_address 16) 0.

Definition detect_acpi : M (Kernel P V) (result Z unit) :=
  on_mmu (identity_map root phys_bits supports_1gib_pages kernel_start_address EBDA_PTR_LOCATION EBDA_PTR_LOCATION) ;;;
  let! pointer := read_bytes EBDA_PTR_LOCATION 2 in
  let ebda_address := Z.shiftl (le pointer) 4 in
  let! found :=
    if EBDA_MINIMUM_ADDRESS <? ebda_address then detect_rsdp ebda_address (ebda_address + EBDA_WINDOW_SIZE)
    else ret (Err tt) in
  match found with
  | Ok rsdp => ret (Ok rsdp)
  | Err _ => detect_rsdp RSDP_SEARCH_ADDRESS_LOW RSDP_SEARCH_ADDRESS_HIGH
  end.

(** ** The tables *)

Definition on_kern {A} (m : M (Kernel P V) A) : M (Acpi P V) A := fun s =>
  let? (a, k) := m (kern s) in Done (a, mkAcpi k (MADT s) (PM1A_CNT_BLK s) (SLP_TYPA s)).

Definition set_SLP_TYPA (v : Z) : M (Acpi P V) unit :=
  modify (fun s => mkAcpi (kern s) (MADT s) (PM1A_CNT_BLK s) (Some v)).
Definition set_PM1A_CNT_BLK (v : Z) : M (Acpi P V) unit :=
  modify (fun s => mkAcpi (kern s) (MADT s) (Some v) (SLP_TYPA s)).

(** The table is an argument by value: it is dropped on return. *)
Definition search_s5_in_table (table : AcpiTable) : M (Acpi P V) unit :=
  let! start := lift (table_start_address table) in
  let! end_ := on_kern (table_end_address table) in
  let! length := lift (sub64 end_ start) in
  let! aml := on_kern (read_bytes start (Z.to_nat length)) in
  let! found := lift (search_s5 aml) in
  (match found with Some slp_typa => set_SLP_TYPA slp_typa | None => ret tt end) ;;;
  on_kern (AcpiTable_drop table).

Definition parse_fadt (fadt : AcpiTable) : M (Acpi P V) unit :=
  let! fadt_table := lift (table_start_address fadt) in
  let x_pm1a_cnt_blk := fadt_table + offset_of AcpiFadt "x_pm1a_cnt_blk" in
  let! end_ := on_kern (table_end_address fadt) in
  let! is_io :=
    if x_pm1a_cnt_blk <? end_ then
      let! space := on_kern (load AcpiGenericAddress "address_space" x_pm1a_cnt_blk) in
      ret (space =? GENERIC_ADDRESS_IO_SPACE)
    else ret false in
  let! pm1a_cnt_blk :=
    if is_io : bool then on_kern (load AcpiGenericAddress "address" x_pm1a_cnt_blk)
    else on_kern (load AcpiFadt "pm1a_cnt_blk" fadt_table) in
  set_PM1A_CNT_BLK (pm1a_cnt_blk mod 2 ^ 16) ;;;
  let x_dsdt_field_address := fadt_table + offset_of AcpiFadt "x_dsdt" in
  let! end_ := on_kern (table_end_address fadt) in
  let! x_dsdt :=
    if x_dsdt_field_address <? end_ then on_kern (load AcpiFadt "x_dsdt" fadt_table) else ret 0 in
  let! dsdt_address := if 0 <? x_dsdt then ret x_dsdt else on_kern (load AcpiFadt "dsdt" fadt_table) in
  let! dsdt := on_kern (AcpiTable_map dsdt_address) in
  let! sig := on_kern (signature dsdt) in
  massert (bool_decide (sig = text "DSDT")) ;;;
  let! length := on_kern (table_length dsdt) in
  let! r := on_kern (verify_checksum (header_start_address dsdt) length) in
  massert (negb (is_err r)) ;;;
  search_s5_in_table dsdt ;;;
  on_kern (AcpiTable_drop fadt).

Definition parse_ssdt (ssdt : AcpiTable) : M (Acpi P V) unit :=
  let! typa := gets SLP_TYPA in
  match typa with
  | Some _ => on_kern (AcpiTable_drop ssdt)
  | None => search_s5_in_table ssdt
  end.

Definition get_madt : M (Acpi P V) (option AcpiTable) := gets MADT.

(** [MADT = Some(table)] drops the table that was there. *)
Definition set_MADT (table : AcpiTable) : M (Acpi P V) unit :=
  let! old := gets MADT in
  modify (fun s => mkAcpi (kern s) (Some table) (PM1A_CNT_BLK s) (SLP_TYPA s)) ;;;
  match old with Some t => on_kern (AcpiTable_drop t) | None => ret tt end.

(** [assert!(verify_checksum(table.header_start_address(), table.header.length as usize).is_ok())] *)
Definition assert_checksum (table : AcpiTable) : M (Acpi P V) unit :=
  let! length := on_kern (table_length table) in
  let! r := on_kern (verify_checksum (header_start_address table) length) in
  massert (negb (is_err r)).

(** The body of the loop of [init] after the table is mapped. *)
Definition init_table (table : AcpiTable) : M (Acpi P V) unit :=
  let! sig := on_kern (signature table) in
  if bool_decide (sig = text "APIC") then assert_checksum table ;;; set_MADT table
  else if bool_decide (sig = text "FACP") then assert_checksum table ;;; parse_fadt table
  else if bool_decide (sig = text "SSDT") then assert_checksum table ;;; parse_ssdt table
  else on_kern (AcpiTable_drop table).

(** The [while] loop of [init]. *)
Fixpoint init_loop (fuel : nat) (rsdp : Z) (rsdt : AcpiTable) (current_address : Z) : M (Acpi P V) unit :=
  let! end_ := on_kern (table_end_address rsdt) in
  if current_address <? end_ then
    match fuel with
    | O => out_of_fuel
    | S fuel =>
        let! revision := on_kern (load AcpiRsdp "revision" rsdp) in
        let size := if 2 <=? revision then 8 else 4 in
        let! bytes := on_kern (read_bytes current_address (Z.to_nat size)) in
        let! next := lift (add64 current_address size) in
        let! table := on_kern (AcpiTable_map (le bytes)) in
        init_table table ;;;
        init_loop fuel rsdp rsdt next
    end
  else ret tt.

(** Every round advances by at least four bytes, so a quarter of the length of
    the table is enough fuel. *)
Definition init : M (Acpi P V) unit :=
  let! r := on_kern detect_acpi in
  let! rsdp := lift (unwrap_res r) in
  let! revision := on_kern (load AcpiRsdp "revision" rsdp) in
  let! rsdt_physical_address :=
    if 2 <=? revision then on_kern (load AcpiRsdp "xsdt_physical_address" rsdp)
    else on_kern (load AcpiRsdp "rsdt_physical_address" rsdp) in
  let! rsdt := on_kern (AcpiTable_map rsdt_physical_address) in
  let! current_address := lift (table_start_address rsdt) in
  let! length := on_kern (table_length rsdt) in
  init_loop (Z.to_nat (length / 4 + 1)) rsdp rsdt current_address ;;;
  on_kern (AcpiTable_drop rsdt).

(** [poweroff]: the port and the value written to it, if any. *)
Definition poweroff : M (Acpi P V) (option (Z * Z)) :=
  let! s := gets (fun s => (PM1A_CNT_BLK s, SLP_TYPA s)) in
  match s with
  | (Some pm1a_cnt_blk, Some slp_typa) => ret (Some (pm1a_cnt_blk, Z.lor (Z.shiftl slp_typa 10 mod 2 ^ 16) SLP_EN))
  | _ => ret None
  end.

End acpi.

(** ** The "_S5_" object is found *)

(** The object as a compiler emits it: a name declaration, a package of [n]
    elements whose first is the integer [v]. *)
Definition encode_s5 (pkg_length n v : Z) : list Z :=
  (s5_name ++ [pkg_length; n] ++
   (if v =? 0 then [AML_ZEROOP] else if v =? 1 then [AML_ONEOP] else [AML_BYTEPREFIX; v]))%list.

(** Bytecode that declares "_S5_" at its root or in a scope, whatever comes
    before and after it, provided the name does not occur earlier: its first
    element is the sleep type. *)
Theorem search_s5_finds pre named post pkg_length n v :
  named = [AML_NAMEOP] \/ named = [AML_NAMEOP; 0x5C] -> (2 <= base.length pre)%nat ->
  0 <= pkg_length < 64 -> 0 < n ->
  let aml := (pre ++ named ++ encode_s5 pkg_length n v ++ post)%list in
  (forall j, (j < base.length (pre ++ named))%nat -> ~ occurs_at s5_name aml j) ->
  search_s5 aml = Done (Some v).
Proof.
  intros Hnamed Hpre Hpkg Hn aml Hfirst. set (i := base.length (pre ++ named)) in *.
  assert (Ei : aml = ((pre ++ named) ++ encode_s5 pkg_length n v ++ post)%list) by (unfold aml; by rewrite <- app_assoc).
  assert (Hpos : position_window s5_name aml = Some i).
  { apply position_window_spec; [done|]. split; [|done]. unfold occurs_at, i. by rewrite Ei, drop_app_length. }
  assert (Hidx : forall j, at_index aml (i + j) = at_index (encode_s5 pkg_length n v ++ post) j)
    by (intros j; rewrite Ei; apply at_index_app).
  assert (Hland : Z.land pkg_length 192 = 0).
  { apply Z.bits_inj'. intros b Hb. rewrite Z.land_spec, Z.bits_0. destruct (Z.lt_ge_cases b 6).
    - replace (Z.testbit 192 b) with false; [apply andb_false_r|].
      assert (b = 0 \/ b = 1 \/ b = 2 \/ b = 3 \/ b = 4 \/ b = 5) as Hcases by lia. by destruct_or! Hcases; subst.
    - rewrite <- (Z.mod_small pkg_length (2 ^ 6)) by lia. by rewrite Z.mod_pow2_bits_high by lia. }
  assert (Hlen : i = (base.length pre + base.length named)%nat) by (unfold i; by rewrite length_app).
  unfold search_s5. rewrite Hpos, (proj2 (Nat.ltb_lt 2 i)) by (destruct Hnamed; subst named; simpl in Hlen; lia).
  assert (Hname : forall j, (j < base.length named)%nat ->
    at_index aml (i - base.length named + j) = at_index named j).
  { intros j Hj. replace (i - base.length named + j)%nat with (base.length pre + j)%nat by lia. unfold aml.
    rewrite at_index_app. unfold at_index. by rewrite lookup_app_l. }
  rewrite !Hidx. assert (Hbody : forall b : bool, b = true ->
    (if b then
       let? pkg_length0 := at_index (encode_s5 pkg_length n v ++ post) 5 in
       let? num_elements := at_index (encode_s5 pkg_length n v ++ post) 6 in
       if (Z.land pkg_length0 192 =? 0) && (0 <? num_elements) then
         let? op := at_index (encode_s5 pkg_length n v ++ post) 7 in
         if op =? AML_ZEROOP then Done (Some 0) else if op =? AML_ONEOP then Done (Some 1)
         else if op =? AML_BYTEPREFIX then let? x := at_index (encode_s5 pkg_length n v ++ post) 8 in Done (Some x)
         else Done None
       else Done None
     else Done None) = Done (Some v)).
  { intros b ->. cbn. rewrite Hland, (proj2 (Z.ltb_lt 0 n) Hn). cbn.
    destruct (Z.eqb_spec v 0) as [->|]; [done|]. by destruct (Z.eqb_spec v 1) as [->|]. }
  destruct Hnamed; subst named; simpl base.length in *.
  - replace (i - 1)%nat with (i - 1 + 0)%nat by lia. rewrite Hname by lia. exact (Hbody true eq_refl).
  - assert (E1 : at_index aml (i - 1) = Done 0x5C)
      by (replace (i - 1)%nat with (i - 2 + 1)%nat by lia; by rewrite Hname by lia).
    assert (E2 : at_index aml (i - 2) = Done AML_NAMEOP)
      by (replace (i - 2)%nat with (i - 2 + 0)%nat by lia; by rewrite Hname by lia).
    rewrite E1, E2. exact (Hbody true eq_refl).
Qed.

(** A scope with a method, the object, and more bytecode. *)
Definition sample_aml : list Z := ([0x10; 0x20; 0x5C; 0x5F; 0x53] ++ [AML_NAMEOP] ++ encode_s5 6 4 5 ++ [0; 0; 0])%list.

Lemma search_s5_finds_witness : search_s5 sample_aml = Done (Some 5).
Proof.
  apply (search_s5_finds [0x10; 0x20; 0x5C; 0x5F; 0x53] [AML_NAMEOP] [0; 0; 0] 6 4 5).
  - by left.
  - simpl. lia.
  - lia.
  - lia.
  - intros j Hj. do 6 (destruct j as [|j]; [by vm_compute|]). simpl in Hj. lia.
Defined.
