(* ===== verification/Firmware.v ===== *)
(** * The firmware's tables in physical memory, and how the kernel finds them

    [acpi_tables] reads the tables where they are, in physical memory: no
    mapping, no loop over pages, no state. The theorems show that
    [Acpi.init], which maps, reads and unmaps them one after another, has the
    same outcome, and what it leaves of virtual memory. *)

From Stdlib Require Import ZArith Lia String.
From stdpp Require Import base numbers list gmap.
From S2P Require Collections FreeList.
From S2P Require Import Prelude Pte Mmu PageAlloc Paging Mm Bytes Room Acpi.

#[local] Open Scope Z_scope.

(** ** The tables, in physical memory *)

Abbreviation bios_window := (step_by RSDP_SEARCH_ADDRESS_LOW RSDP_SEARCH_ADDRESS_HIGH 16).

Section tables.

Context (rom : Z -> Z).

Fixpoint phys_bytes (a : Z) (n : nat) : list Z :=
  match n with O => [] | S n => rom a :: phys_bytes (a + 1) n end.

Definition phys_field (fields : layout) (name : string) (a : Z) : Z :=
  le (phys_bytes (a + offset_of fields name) (field fields name).2).

Definition phys_valid (a len : Z) : bool := checksum (phys_bytes a (Z.to_nat len)) =? 0.

(** An RSDP: the signature, the checksum and, from revision 2 on, the extended checksum. *)
Definition rsdp_at (a : Z) : bool :=
  bool_decide (phys_bytes a 8 = text "RSD PTR ") && phys_valid a RSDP_CHECKSUM_LENGTH &&
  (negb (2 <=? phys_field AcpiRsdp "revision" a) || phys_valid a RSDP_XCHECKSUM_LENGTH).

Definition first_rsdp (addresses : list Z) : option Z := snd <$> list_find rsdp_at addresses.

Definition ebda : Z := Z.shiftl (le (phys_bytes EBDA_PTR_LOCATION 2)) 4.

(** The addresses where an RSDP may be: the BIOS area and the EBDA window. *)
Definition ebda_window : list Z :=
  if EBDA_MINIMUM_ADDRESS <? ebda then step_by ebda (ebda + EBDA_WINDOW_SIZE) 16 else [].

(** The first RSDP of the EBDA window or, if it has none, of the BIOS area. *)
Definition rsdp : option Z :=
  match first_rsdp ebda_window with Some a => Some a | None => first_rsdp bios_window end.

Definition table_size (pa : Z) : Z := phys_field AcpiSdtHeader "length" pa.
Definition table_name (pa : Z) : list Z := phys_bytes pa 4.
Definition table_body (pa : Z) : Z := pa + size_of AcpiSdtHeader.

(** What the code wants from the tables. *)
Record Found := mkFound { f_madt : option Z; f_pm1a : option Z; f_typa : option Z }.

Definition s5_table (f : Found) (pa : Z) : outcome Found :=
  let? n := sub64 (table_size pa) (size_of AcpiSdtHeader) in
  let? found := search_s5 (phys_bytes (table_body pa) (Z.to_nat n)) in
  Done (match found with Some v => mkFound (f_madt f) (f_pm1a f) (Some v) | None => f end).

(** Whether the FADT is large enough to have the field. *)
Definition fadt_has (pa : Z) (name : string) : bool :=
  table_body pa + offset_of AcpiFadt name <? pa + table_size pa.

Definition fadt_pm1a (pa : Z) : Z :=
  let x := table_body pa + offset_of AcpiFadt "x_pm1a_cnt_blk" in
  (if fadt_has pa "x_pm1a_cnt_blk" && (phys_field AcpiGenericAddress "address_space" x =? GENERIC_ADDRESS_IO_SPACE)
   then phys_field AcpiGenericAddress "address" x
   else phys_field AcpiFadt "pm1a_cnt_blk" (table_body pa)) mod 2 ^ 16.

Definition fadt_dsdt (pa : Z) : Z :=
  let x := phys_field AcpiFadt "x_dsdt" (table_body pa) in
  if fadt_has pa "x_dsdt" && (0 <? x) then x else phys_field AcpiFadt "dsdt" (table_body pa).

Definition fadt_table (f : Found) (pa : Z) : outcome Found :=
  let dsdt := fadt_dsdt pa in
  if bool_decide (table_name dsdt = text "DSDT") && phys_valid dsdt (table_size dsdt)
  then s5_table (mkFound (f_madt f) (Some (fadt_pm1a pa)) (f_typa f)) dsdt
  else Panic.

Definition acpi_table (f : Found) (pa : Z) : outcome Found :=
  let valid := phys_valid pa (table_size pa) in
  if bool_decide (table_name pa = text "APIC") then
    if valid then Done (mkFound (Some pa) (f_pm1a f) (f_typa f)) else Panic
  else if bool_decide (table_name pa = text "FACP") then if valid then fadt_table f pa else Panic
  else if bool_decide (table_name pa = text "SSDT") then
    if valid then match f_typa f with Some _ => Done f | None => s5_table f pa end else Panic
  else Done f.

Fixpoint acpi_entries (f : Found) (pas : list Z) : outcome Found :=
  match pas with
  | [] => Done f
  | pa :: pas => let? f := acpi_table f pa in acpi_entries f pas
  end.

(** The RSDT with 32-bit entries or, from revision 2 on, the XSDT with 64-bit entries. *)
Definition entry_size (r : Z) : Z := if 2 <=? phys_field AcpiRsdp "revision" r then 8 else 4.
Definition root_table (r : Z) : Z :=
  if 2 <=? phys_field AcpiRsdp "revision" r then phys_field AcpiRsdp "xsdt_physical_address" r
  else phys_field AcpiRsdp "rsdt_physical_address" r.

Fixpoint entries_from (a size : Z) (n : nat) : list Z :=
  match n with
  | O => []
  | S n => le (phys_bytes a (Z.to_nat size)) :: entries_from (a + size) size n
  end.

Definition entry_count (r : Z) : Z := (table_size (root_table r) - size_of AcpiSdtHeader) / entry_size r.

Definition entries (r : Z) : list Z :=
  entries_from (table_body (root_table r)) (entry_size r) (Z.to_nat (entry_count r)).

Definition acpi_tables : outcome Found :=
  match rsdp with
  | Some r => acpi_entries (mkFound None None None) (entries r)
  | None => Panic
  end.

(** ** What the tables ask of memory *)

(** Where a table starts in its page, and how much [AcpiTable::map] maps of it:
    two pages for the header and, if these are too few, all of the table anew. *)
Definition page_offset (pa : Z) : Z := pa mod 4096.
Definition mapped_length (pa : Z) : Z :=
  if 8192 - page_offset pa <? table_size pa then align_up_val (table_size pa + page_offset pa) 4096 else 8192.
Definition table_pages (pa : Z) : Z :=
  (if 8192 - page_offset pa <? table_size pa then 2 else 0) + mapped_length pa / 4096.

Definition fits (phys_bits pa : Z) : Prop :=
  0 <= pa /\ pa - page_offset pa + mapped_length pa <= 2 ^ phys_bits.

(** How often [detect_rsdp] enters a new page, and the pages [detect_acpi] identity-maps. *)
Fixpoint page_switches (page : Z) (addresses : list Z) : nat :=
  match addresses with
  | [] => 0
  | a :: addresses =>
      if page <? a / 4096 then S (page_switches (a / 4096) addresses) else page_switches page addresses
  end.

Definition bios_pages : nat := 1 + page_switches 0 ebda_window + page_switches 0 bios_window.

(** The tables an entry leads to. *)
Definition reached (pa : Z) : list Z :=
  pa :: (if bool_decide (table_name pa = text "FACP") then [fadt_dsdt pa] else []).

Definition all_tables (r : Z) : list Z := root_table r :: (entries r ≫= reached).

Definition pages_of (pas : list Z) : Z := foldr (fun pa n => table_pages pa + n) 0 pas.

(** Every table lies in physical memory and the root table holds whole entries. *)
Record well_placed (phys_bits r : Z) : Prop := {
  wp_fits : Forall (fits phys_bits) (all_tables r);
  wp_entries : size_of AcpiSdtHeader <= table_size (root_table r);
  wp_whole : (table_size (root_table r) - size_of AcpiSdtHeader) mod entry_size r = 0
}.

End tables.

(** ** Mapped tables *)

Section mapped.

Context {P V : Type} `{PageAllocatorLaws P, HV : PageAllocatorLaws V, !RoomLaws V}.
Context (root phys_bits : Z) (supports_1gib_pages : bool) (kernel_start_address : Z).
Context (rom : Z -> Z).
Hypothesis Hbits : 21 <= phys_bits <= 52.
Hypothesis Hvirt : pa_high (A := V) <= 2 ^ 47.
Hypothesis Hlow : 0x200000 <= pa_low (A := V).
Hypothesis Hstart : 0x200000 <= kernel_start_address.
Hypothesis Hrom : forall a, is_byte (rom a).

#[local] Fact wide_enough : 12 <= phys_bits <= 52.
Proof. lia. Qed.
#[local] Hint Resolve wide_enough : core.

Implicit Types (k : Kernel P V) (b : AcpiTable * Z).

Abbreviation tables k := (Paging.mem (mmu k)).
Abbreviation phys_bytes := (phys_bytes rom).
Abbreviation table_size := (table_size rom).
Abbreviation mapped_length := (mapped_length rom).
Abbreviation table_pages := (table_pages rom).

(** A mapped table [t] and the physical address [pa] of its header. *)
Definition area b (x : Z) : Prop :=
  allocated_virtual_address b.1 <= x < allocated_virtual_address b.1 + allocated_length b.1.

Record area_ok k b : Prop := {
  ar_aligned : allocated_virtual_address b.1 mod 4096 = 0 /\ allocated_length b.1 mod 4096 = 0;
  ar_length : 8192 <= allocated_length b.1;
  ar_header : header b.1 = allocated_virtual_address b.1 + page_offset b.2;
  ar_range : pa_low (A := V) <= allocated_virtual_address b.1 /\
             allocated_virtual_address b.1 + allocated_length b.1 <= pa_high (A := V);
  ar_used : forall x, area b x -> ~ pa_free (virt k) x;
  ar_walk : forall x, area b x ->
    translate (tables k) root x = Some (b.2 - page_offset b.2 + (x - allocated_virtual_address b.1)) /\
    flat root (tables k) BasePageSize x
}.

(** All of the table is mapped. *)
Definition covers b : Prop := page_offset b.2 + table_size b.2 <= allocated_length b.1.

Definition disjoint_areas b1 b2 : Prop := forall x, area b1 x -> ~ area b2 x.

#[local] Instance disjoint_areas_sym : Symmetric disjoint_areas.
Proof. intros b1 b2 D x X1 X2. by apply (D x). Qed.

(** The first 2 MiB are identity-mapped by 4 KiB pages, as [init_pages_before_kernel] left them. *)
Definition low_memory k : Prop := forall x, 0 <= x < 0x200000 ->
  translate (tables k) root x = Some x /\ flat root (tables k) BasePageSize x.

(** The kernel while the tables of [l] are mapped: [n] more frames and [r]
    more bytes of virtual memory are there for what is to come, and [free0] is
    what was free before the first table. *)
Record kernel_at (free0 : Z -> Prop) (l : list (AcpiTable * Z)) (n : nat) (r : Z) k : Prop := {
  ka_ok : kernel_ok root phys_bits k;
  ka_low : low_memory k;
  ka_supply : supply n (Paging.frames (mmu k));
  ka_room : pa_room (virt k) r;
  ka_areas : Forall (area_ok k) l;
  ka_disjoint : pairwise disjoint_areas l;
  ka_free : forall x, free0 x <-> pa_free (virt k) x \/ Exists (fun b => area b x) l
}.

(** The order in which the tables were mapped does not matter. *)
#[local] Instance kernel_at_proper free0 : Proper ((≡ₚ) ==> eq ==> eq ==> eq ==> iff) (kernel_at free0).
Proof.
  intros l l' E n ? <- r ? <- k ? <-.
  split; intros [K1 K2 K3 K4 K5 K6 K7]; (split; try done;
    [by rewrite <- E || by rewrite E|by rewrite <- E || by rewrite E|intros x; rewrite K7; by rewrite E]).
Qed.

Lemma kernel_at_less f l m n r k : kernel_at f l (m + n) r k -> kernel_at f l n r k.
Proof. intros [K1 K2 K3 K4 K5 K6 K7]. split; try done. by apply supply_le in K3. Qed.

(** *** Loads *)

Lemma read_bytes_done k a p n :
  (forall i, 0 <= i < Z.of_nat n -> translate (tables k) root (a + i) = Some (p + i)) ->
  read_bytes root rom a n k = Done (phys_bytes p n, k).
Proof.
  revert a p. induction n as [|n IH]; intros a p Ht; [done|]. cbn [read_bytes Firmware.phys_bytes].
  assert (E : read_byte root rom a k = Done (rom p, k)).
  { unfold read_byte. specialize (Ht 0 ltac:(lia)). rewrite !Z.add_0_r in Ht. by rewrite Ht. }
  rewrite (bind_done _ _ _ _ _ E).
  rewrite (bind_done _ _ _ (phys_bytes (p + 1) n) k); [done|]. apply IH.
  intros i Hi. rewrite <- !Z.add_assoc. apply Ht. lia.
Qed.

Lemma read_low k a n : low_memory k -> 0 <= a -> a + Z.of_nat n <= 0x200000 ->
  read_bytes root rom a n k = Done (phys_bytes a n, k).
Proof. intros Hk Ha Hn. apply read_bytes_done. intros i Hi. apply Hk. lia. Qed.

Lemma page_offset_range pa : 0 <= page_offset pa < 4096.
Proof. apply Z.mod_pos_bound. lia. Qed.

Lemma read_acpi_table f l n0 r k b o n :
  kernel_at f l n0 r k -> b ∈ l -> 0 <= o -> page_offset b.2 + o + Z.of_nat n <= allocated_length b.1 ->
  read_bytes root rom (header b.1 + o) n k = Done (phys_bytes (b.2 + o) n, k).
Proof.
  intros Hk Hb Ho Hn. pose proof (ka_areas _ _ _ _ _ Hk) as HF. rewrite Forall_forall in HF.
  specialize (HF b Hb). pose proof (page_offset_range b.2). apply read_bytes_done. intros i Hi.
  pose proof (ar_header _ _ HF) as Eh. destruct (ar_walk _ _ HF (header b.1 + o + i)) as [-> _].
  - unfold area. rewrite Eh. lia.
  - f_equal. rewrite Eh. lia.
Qed.

(** *** Mapping and unmapping *)

Definition table_flags : Z := execute_disable (read_only (normal 0)).

(** Memory mapped page by page: the range translates to the physical range and
    the rest of the lower half as before. *)
Lemma range_translate (s : Mmu P) v c pa flags s' x :
  range_mapped root phys_bits s BasePageSize v c pa flags false s' ->
  plain_flags flags -> contains HUGE_PAGE flags = false ->
  v mod 4096 = 0 -> pa mod 4096 = 0 -> 0 <= pa -> pa + c * 4096 <= 2 ^ phys_bits -> lower x ->
  translate (Paging.mem s') root x =
    if decide (v <= x < v + c * 4096) then Some (pa + (x - v)) else translate (Paging.mem s) root x.
Proof.
  intros HR Hf1 Hf2 Hv Hp Hp0 Hb Hx. unfold translate. rewrite (rm_walk _ _ _ _ _ _ _ _ _ _ HR) by done.
  simpl SIZE. case_decide as C; [|done]. f_equal.
  by apply (range_entry_spec phys_bits wide_enough BasePageSize v c pa flags x).
Qed.

Lemma lower_free k f l n r x : kernel_at f l n r k -> pa_free (virt k) x -> lower x /\ 0x200000 <= x.
Proof.
  intros Hk Hx. pose proof (pa_inside _ x (ko_virt _ _ _ (ka_ok _ _ _ _ _ Hk)) Hx). unfold lower.
  change (2 ^ 47) with 140737488355328 in *. lia.
Qed.

(** Fresh virtual memory for [c] pages from the physical address [p] on. *)
Lemma allocate_range k f l n r p c flags :
  let size := 4096 * Z.of_nat c in
  (1 <= c)%nat -> 0 <= p -> p mod 4096 = 0 -> p + size <= 2 ^ phys_bits ->
  plain_flags flags -> contains HUGE_PAGE flags = false ->
  kernel_at f l (3 * c + n) (size + r) k -> 0 <= r ->
  exists va k1 k2,
    virtualmem (pa_allocate size) k = Done (Ok va, k1) /\
    paging_map root phys_bits supports_1gib_pages BasePageSize va p (size / SIZE BasePageSize) flags k1 = Done (tt, k2) /\
    kernel_at (fun x => f x /\ ~ va <= x < va + size) l n r k2 /\
    va mod 4096 = 0 /\ pa_low (A := V) <= va /\ va + size <= pa_high (A := V) /\
    (forall x, va <= x < va + size -> f x /\ ~ pa_free (virt k2) x /\ flat root (tables k2) BasePageSize x /\
       translate (tables k2) root x = Some (p + (x - va))) /\
    Forall (fun b => forall x, area b x -> ~ va <= x < va + size) l.
Proof.
  intros size Hc Hpp Hp0 Hfit Hfl Hhuge Hk Hr.
  pose proof Hk as [Hok Hlo Hsup Hroom Har Hdis Hfree].
  assert (Hsm : size mod 4096 = 0) by (unfold size; rewrite Z.mul_comm; by apply Z.mod_mul).
  assert (Hs : 0 < size) by lia.
  destruct (pa_room_allocate (virt k) size r (ko_virt _ _ _ Hok) Hs Hsm Hr Hroom) as (va & a' & E & Hr').
  destruct (pa_allocate_law (virt k) size (ko_virt _ _ _ Hok) Hs Hsm) as (x & a2 & E2 & Hx).
  rewrite E in E2. injection E2 as <- <-. destruct Hx as (Ha' & Hva & Ht1 & Ht2).
  assert (Hin : 0x200000 <= va /\ pa_low (A := V) <= va /\ va + size <= pa_high (A := V)).
  { pose proof (pa_inside _ va (ko_virt _ _ _ Hok) (Ht1 va ltac:(lia))).
    pose proof (pa_inside _ (va + size - 1) (ko_virt _ _ _ Hok) (Ht1 (va + size - 1) ltac:(lia))). lia. }
  assert (Hdiv : size / 4096 = Z.of_nat c) by (unfold size; rewrite Z.mul_comm; by apply Z.div_mul).
  destruct (map_spec root phys_bits supports_1gib_pages wide_enough BasePageSize va (Z.of_nat c)
    p flags (mmu k) n) as (s' & EM & HR & Hsup' & _); simpl SIZE;
    rewrite ?Hva, ?Z.sub_0_r, ?Nat2Z.id; try done; try lia.
  { apply ko_mmu, Hok. }
  { intros i Hi. apply (ko_flat _ _ _ Hok), Ht1. lia. }
  simpl SIZE in *. rewrite Hva, Z.sub_0_r in HR.
  assert (Htr : forall x, lower x -> translate (Paging.mem s') root x =
    if decide (va <= x < va + size) then Some (p + (x - va)) else translate (tables k) root x).
  { intros x Hx. rewrite (range_translate _ _ _ _ _ _ x HR); try done; [|lia].
    by replace (va + Z.of_nat c * 4096) with (va + size) by lia. }
  assert (Hused : forall x, ~ pa_free (virt k) x -> ~ va <= x < va + size) by (intros x H1' H2'; by apply H1', Ht1).
  exists va, (mkKernel (mmu k) a'), (mkKernel s' a'). split_and!; [|  | |done|lia|lia| |].
  - unfold virtualmem. by rewrite E.
  - unfold paging_map, on_mmu. simpl. rewrite Hdiv. by rewrite EM.
  - split; simpl; try done.
    + split; simpl; [apply HR|done|]. intros x [Hx _]%Ht2. pose proof (lower_free _ _ _ _ _ _ Hk Hx) as [Hl _].
      apply (rm_flat _ _ _ _ _ _ _ _ _ _ HR); [by apply lower_user|]. by apply (ko_flat _ _ _ Hok).
    + intros x Hx. destruct (Hlo x Hx) as [L1 L2]. assert (lower x) by (unfold lower; lia). split.
      * rewrite Htr by done. by rewrite decide_False by lia.
      * apply (rm_flat _ _ _ _ _ _ _ _ _ _ HR); [by apply lower_user|done].
    + eapply Forall_impl; [exact Har|]. intros b [A1 A2 A3 A4 A5 A6]. split; try done.
      * intros x Hx Hf. apply Ht2 in Hf as [Hf _]. by apply (A5 x).
      * intros x Hx. simpl. assert (lower x) by (unfold lower, area in *; change (2 ^ 47) with 140737488355328 in *; lia).
        destruct (A6 x Hx) as [W1 W2]. split.
        -- rewrite Htr by done. by rewrite decide_False by (by apply Hused, A5).
        -- apply (rm_flat _ _ _ _ _ _ _ _ _ _ HR); [by apply lower_user|done].
    + intros x. rewrite Hfree, Ht2. split; [tauto|]. intros [Hx|Hx]; [tauto|]. split; [by right|].
      apply Hused. intros Hf. apply Exists_exists in Hx as (b & Hb & Hx). rewrite Forall_forall in Har.
      by apply (ar_used _ _ (Har b Hb) x).
  - intros x Hx. pose proof (Ht1 x Hx) as Hf. pose proof (lower_free _ _ _ _ _ _ Hk Hf) as [Hl _]. split_and!.
    + apply Hfree. by left.
    + intros Hf'. apply Ht2 in Hf'. tauto.
    + apply (rm_flat _ _ _ _ _ _ _ _ _ _ HR); [by apply lower_user|]. by apply (ko_flat _ _ _ Hok).
    + simpl. by rewrite Htr, decide_True.
  - eapply Forall_impl; [exact Har|]. intros b Hb x Hx. apply Hused. by apply (ar_used _ _ Hb).
Qed.

Lemma allocate_map k f l n r pa c :
  let size := 4096 * Z.of_nat c in
  (2 <= c)%nat -> 0 <= pa -> pa - page_offset pa + size <= 2 ^ phys_bits ->
  kernel_at f l (3 * c + n) (size + r) k -> 0 <= r ->
  exists va k1 k2,
    virtualmem (pa_allocate size) k = Done (Ok va, k1) /\
    paging_map root phys_bits supports_1gib_pages BasePageSize va (pa - page_offset pa) (size / SIZE BasePageSize)
      table_flags k1 = Done (tt, k2) /\
    kernel_at f ((mkTable (va + page_offset pa) va size, pa) :: l) n r k2 /\ va + size <= 2 ^ 47 /\ 0 <= va.
Proof.
  intros size Hc Hpa Hfit Hk Hr. pose proof (page_offset_range pa) as Hoff.
  destruct (allocate_range k f l n r (pa - page_offset pa) c table_flags) as
    (va & k1 & k2 & E1 & E2 & K & Hva & Hlo' & Hhi & Hx & Hd); try done; try lia.
  { pose proof (Z.mod_le pa 4096). unfold page_offset. lia. }
  { apply (base_aligned BasePageSize). }
  { by apply plain_flags_test. }
  fold size in E1, E2, K, Hhi, Hx, Hd. destruct K as [K1 K2 K3 K4 K5 K6 K7].
  exists va, k1, k2. split_and!; [done|done| |lia|lia]. split; try done.
  - constructor; [|done].
    assert (Hsm : size mod 4096 = 0) by (unfold size; rewrite Z.mul_comm; by apply Z.mod_mul).
    split; simpl; [done|lia|done|lia| |]; unfold area; simpl; intros x Hin;
      destruct (Hx x Hin) as (X1 & X2 & X3 & X4); done.
  - split; [|done]. eapply Forall_impl; [exact Hd|]. intros b Hb x Hin Hin'. by apply (Hb x).
  - intros x. rewrite Exists_cons. unfold area at 1. cbn [fst allocated_virtual_address allocated_length].
    specialize (K7 x). specialize (Hx x). destruct (decide (va <= x < va + size)); tauto.
Qed.

(** [virtualmem::deallocate] of the area of a table. *)
Lemma drop_area k f l n r b :
  kernel_at f (b :: l) n r k ->
  exists k', AcpiTable_drop b.1 k = Done (tt, k') /\ kernel_at f l n r k'.
Proof.
  intros [Hok Hlo Hsup Hroom Har [Hd Hdis] Hfree]. inversion_clear Har as [|? ? Hb Har'].
  pose proof Hb as [[A1 A1'] A2 A3 A4 A5 A6]. destruct b as [t pa]. simpl in *.
  pose proof (pa_range (A := V)) as Hrange.
  destruct (pa_deallocate_law (virt k) (allocated_virtual_address t) (allocated_length t))
    as (a' & E & Ha' & Hg); try done; try lia; [apply Hok|].
  assert (Hroom' : pa_room a' r) by (eapply pa_room_deallocate; [apply Hok| | | |exact E|done]; lia).
  exists (mkKernel (mmu k) a'). split; [unfold AcpiTable_drop, virtualmem; by rewrite E|]. split; simpl; try done.
  - split; simpl; [apply Hok|done|]. intros x [Hx|Hx]%Hg; [by apply (ko_flat _ _ _ Hok)|].
    by apply (A6 x).
  - rewrite Forall_forall in Hd |- *. rewrite Forall_forall in Har'. intros b' Hb'. specialize (Hd b' Hb').
    destruct (Har' b' Hb') as [B1 B2 B3 B4 B5 B6]. split; try done.
    intros x Hx Hf. simpl in Hf. destruct (proj1 (Hg x) Hf) as [Hf'|Hf']; [by apply (B5 x)|]. by apply (Hd x).
  - intros x. rewrite Hfree, Exists_cons, (Hg x). unfold area at 1. simpl. tauto.
Qed.

(** Identity-mapping a page of low memory changes no translation. *)
Lemma identity_map_at k f l n r a :
  0 <= a < 0x200000 -> kernel_at f l (3 + n) r k ->
  exists k', on_mmu (identity_map root phys_bits supports_1gib_pages kernel_start_address a a) k = Done (tt, k') /\
    kernel_at f l n r k'.
Proof.
  intros Ha Hk. pose proof Hk as [Hok Hlo Hsup Hroom Har Hdis Hfree].
  set (p := a - a mod 4096). pose proof (Z.mod_pos_bound a 4096 ltac:(lia)) as Hm.
  assert (Hp : 0 <= p /\ p + 4096 <= 0x200000).
  { unfold p. pose proof (Z.div_mod a 4096 ltac:(lia)). pose proof (Z.div_lt_upper_bound a 4096 512). lia. }
  assert (Hpm : p mod 4096 = 0) by apply (base_aligned BasePageSize).
  pose proof (Z.pow_le_mono_r 2 21 phys_bits ltac:(lia) ltac:(lia)) as Hpb. change (2 ^ 21) with 0x200000 in Hpb.
  set (flags := pkey Paging.SAFE_MEM_REGION (execute_disable (read_only (normal 0)))).
  assert (Hf1 : plain_flags flags) by (by apply plain_flags_test).
  destruct (map_pages_spec root phys_bits wide_enough BasePageSize flags 1 1 p p n false (mmu k))
    as (s' & E & HR & Hsup' & _); simpl SIZE; try done; try lia.
  { apply ko_mmu, Hok. }
  { intros i Hi. apply Hlo. lia. }
  replace (p + (Z.of_nat 1 - 1) * SIZE BasePageSize) with p in E by lia.
  assert (Htr : forall x, lower x -> translate (Paging.mem s') root x = translate (tables k) root x).
  { intros x Hx. rewrite (range_translate _ _ _ _ _ _ x HR); try done; [|lia..].
    case_decide; [|done]. destruct (Hlo x ltac:(lia)) as [-> _]. f_equal. lia. }
  exists (mkKernel s' (virt k)). split.
  - unfold on_mmu, identity_map.
    rewrite !(bind_lift_done _ _ p) by (apply including_address_done; [unfold lower; lia|done]).
    rewrite !bind_massert; [|apply Z.leb_le; lia|apply Z.ltb_lt; lia]. cbv zeta.
    replace (range_fuel BasePageSize p p) with 1%nat by (unfold range_fuel; by rewrite Z.sub_diag).
    fold flags. by rewrite E.
  - split; simpl; try done.
    + split; simpl; [apply HR|apply Hok|]. intros x Hx. pose proof (lower_free _ _ _ _ _ _ Hk Hx) as [Hl _].
      apply (rm_flat _ _ _ _ _ _ _ _ _ _ HR); [by apply lower_user|]. by apply (ko_flat _ _ _ Hok).
    + intros x Hx. assert (lower x) by (unfold lower; lia). rewrite Htr by done. split; [by apply Hlo|].
      apply (rm_flat _ _ _ _ _ _ _ _ _ _ HR); [by apply lower_user|by apply Hlo].
    + eapply Forall_impl; [exact Har|]. intros b [A1 A2 A3 A4 A5 A6]. split; try done.
      intros x Hx. simpl. assert (lower x)
        by (unfold lower, area in *; change (2 ^ 47) with 140737488355328 in *; lia).
      rewrite Htr by done. split; [by apply A6|].
      apply (rm_flat _ _ _ _ _ _ _ _ _ _ HR); [by apply lower_user|by apply A6].
Qed.

(** The first 2 MiB as [init_pages_before_kernel] maps them. *)
Lemma map_low_memory k n :
  kernel_ok root phys_bits k -> (forall x, lower x -> flat root (tables k) BasePageSize x) ->
  supply (1536 + n) (Paging.frames (mmu k)) ->
  exists s', Paging.map root phys_bits supports_1gib_pages BasePageSize 0 0 512 low_flags (mmu k) = Done (tt, s') /\
    kernel_ok root phys_bits (mkKernel s' (virt k)) /\ low_memory (mkKernel s' (virt k)) /\ supply n (Paging.frames s').
Proof.
  intros [K1 K2 K3] Hf Hsup. pose proof (Z.pow_le_mono_r 2 21 phys_bits ltac:(lia) ltac:(lia)) as Hpb.
  change (2 ^ 21) with 0x200000 in Hpb. assert (Hfl : plain_flags low_flags) by (by apply plain_flags_test).
  assert (Hlower : forall x, 0 <= x < 0x200000 -> lower x)
    by (intros x Hx; unfold lower; change (2 ^ 47) with 140737488355328; lia).
  destruct (map_spec root phys_bits supports_1gib_pages wide_enough BasePageSize 0 512 0 low_flags (mmu k) n)
    as (s' & E & HR & Hs' & _); change (0 - 0 mod SIZE BasePageSize) with 0; simpl SIZE; try done; try lia.
  { intros i Hi. apply Hf, Hlower. lia. }
  change (0 - 0 mod SIZE BasePageSize) with 0 in HR. exists s'.
  split_and!; [exact E|split; simpl; [apply HR|done|]| |done].
  - intros x Hx. assert (Hl : lower x).
    { pose proof (pa_inside _ x K2 Hx). unfold lower. change (2 ^ 47) with 140737488355328 in *. lia. }
    apply (rm_flat _ _ _ _ _ _ _ _ _ _ HR); [by apply lower_user|by apply Hf].
  - intros x Hx. pose proof (Hlower x Hx) as Hl. split.
    + simpl. rewrite (range_translate _ _ _ _ _ _ x HR); try done. rewrite decide_True by lia. f_equal. lia.
    + apply (rm_flat _ _ _ _ _ _ _ _ _ _ HR); [by apply lower_user|by apply Hf].
Qed.

(** *** [AcpiTable::map] *)

Lemma length_phys_bytes a n : Datatypes.length (phys_bytes a n) = n.
Proof. revert a. induction n as [|n IH]; intros a; [done|]. simpl. by rewrite IH. Qed.

Lemma phys_field_range fields name a :
  0 <= phys_field rom fields name a < 256 ^ Z.of_nat (field fields name).2.
Proof.
  unfold phys_field. generalize (a + offset_of fields name), (field fields name).2. intros b n.
  pose proof (le_range (phys_bytes b n)) as HR. rewrite length_phys_bytes in HR. apply HR.
  clear HR. revert b. induction n as [|n IH]; intros b; simpl; constructor; [apply Hrom|apply IH].
Qed.

Lemma table_size_range pa : 0 <= table_size pa < 2 ^ 32.
Proof. exact (phys_field_range AcpiSdtHeader "length" pa). Qed.

Lemma load_at f l n0 r k b fields name a p :
  kernel_at f l n0 r k -> b ∈ l -> a = header b.1 + (p - b.2) -> 0 <= p + offset_of fields name - b.2 ->
  page_offset b.2 + (p - b.2) + offset_of fields name + Z.of_nat (field fields name).2 <= allocated_length b.1 ->
  load root rom fields name a k = Done (phys_field rom fields name p, k).
Proof.
  intros Hk Hb -> H1' H2'. unfold load, load_bytes, phys_field.
  rewrite (bind_done _ _ _ (phys_bytes (p + offset_of fields name) (field fields name).2) k); [done|].
  replace (header b.1 + (p - b.2) + offset_of fields name) with (header b.1 + (p + offset_of fields name - b.2)) by lia.
  replace (p + offset_of fields name) with (b.2 + (p + offset_of fields name - b.2)) at 2 by lia.
  eapply read_acpi_table; [done|done|lia|lia].
Qed.

Lemma mapped_length_spec pa :
  8192 <= mapped_length pa /\ mapped_length pa mod 4096 = 0 /\ page_offset pa + table_size pa <= mapped_length pa /\
  mapped_length pa <= 2 ^ 33.
Proof.
  pose proof (page_offset_range pa). pose proof (table_size_range pa). unfold Firmware.mapped_length.
  change (2 ^ 33) with 8589934592. change (2 ^ 32) with 4294967296 in *.
  destruct (Z.ltb_spec (8192 - page_offset pa) (table_size pa)); [|split_and!; try done; lia].
  pose proof (align_up_val_spec (table_size pa + page_offset pa) 4096 ltac:(lia)) as [B1 B2]. split_and!; try done; lia.
Qed.

Lemma mapped_pages pa : mapped_length pa = 4096 * Z.of_nat (Z.to_nat (mapped_length pa / 4096)).
Proof.
  pose proof (mapped_length_spec pa) as (B1 & B2 & _).
  pose proof (Z.div_mod (mapped_length pa) 4096 ltac:(lia)). lia.
Qed.

Lemma AcpiTable_map_spec k f l n r pa :
  fits rom phys_bits pa -> 0 <= r ->
  kernel_at f l (3 * Z.to_nat (table_pages pa) + n) (4096 * table_pages pa + r) k ->
  exists t k', AcpiTable_map root phys_bits supports_1gib_pages rom pa k = Done (t, k') /\
    kernel_at f ((t, pa) :: l) n r k' /\ covers (t, pa).
Proof.
  intros [Hpa Hfit] Hr. pose proof (page_offset_range pa) as Hoff. pose proof (mapped_length_spec pa) as (B1 & B2 & B3 & B4).
  pose proof (table_size_range pa) as Hts. pose proof (mapped_pages pa) as Hc.
  set (c := Z.to_nat (mapped_length pa / 4096)) in *.
  assert (Hcd : mapped_length pa / 4096 = Z.of_nat c) by (rewrite Hc, Z.mul_comm; by apply Z.div_mul).
  assert (HW : 2 ^ phys_bits < W64) by (apply Z.le_lt_trans with (2 ^ 52); [apply Z.pow_le_mono_r; lia|done]).
  change (2 ^ 33) with 8589934592 in *. change (2 ^ 32) with 4294967296 in *.
  set (m := if 8192 - page_offset pa <? table_size pa then c else 0%nat).
  assert (Hpages : table_pages pa = 2 + Z.of_nat m).
  { unfold Firmware.table_pages, m. rewrite Hcd. destruct (Z.ltb_spec (8192 - page_offset pa) (table_size pa)); [done|].
    unfold Firmware.mapped_length in Hc. rewrite (proj2 (Z.ltb_ge _ _)) in Hc by lia. lia. }
  rewrite Hpages. intros Hk.
  replace (3 * Z.to_nat (2 + Z.of_nat m) + n)%nat with (3 * 2 + (3 * m + n))%nat in Hk by lia.
  replace (4096 * (2 + Z.of_nat m) + r) with (4096 * Z.of_nat 2 + (4096 * Z.of_nat m + r)) in Hk by lia.
  destruct (allocate_map k f l _ _ pa 2 ltac:(lia) Hpa ltac:(lia) Hk ltac:(lia))
    as (va & k1 & k2 & E1 & E2 & Hk2 & Hva & Hva0). change (4096 * Z.of_nat 2) with 8192 in *.
  change (2 ^ 47) with 140737488355328 in *. assert (HW64 : 140737488355328 + 140737488355328 < W64) by done.
  unfold AcpiTable_map. simpl SIZE. change (2 * 4096) with 8192.
  rewrite (bind_lift_done _ _ (pa - page_offset pa)) by (apply align_down_done; [unfold in_u64; lia|by exists 12]).
  rewrite (bind_lift_done _ _ (page_offset pa)) by (rewrite sub64_done by lia; f_equal; lia).
  rewrite (bind_done _ _ _ _ _ E1), (bind_lift_done _ _ va) by done.
  rewrite (bind_done _ _ _ _ _ E2), (bind_lift_done _ _ (va + page_offset pa)) by (apply add64_done; lia).
  rewrite (bind_done _ _ _ (table_size pa) k2).
  2: { apply (load_at _ _ _ _ _ (mkTable (va + page_offset pa) va 8192, pa) _ _ _ _ Hk2); simpl;
       [by left|lia|change (offset_of AcpiSdtHeader "length") with 4; lia|].
       change (offset_of AcpiSdtHeader "length") with 4. change (field AcpiSdtHeader "length").2 with 4%nat. lia. }
  rewrite (bind_lift_done _ _ (8192 - page_offset pa)) by (apply sub64_done; lia). unfold m in *. clear m.
  destruct (Z.ltb_spec (8192 - page_offset pa) (table_size pa)) as [Hbig|Hsmall].
  - destruct (drop_area _ _ _ _ _ _ Hk2) as (k3 & E3 & Hk3). unfold AcpiTable_drop in E3. simpl in E3.
    destruct (allocate_map k3 f l n r pa c ltac:(lia) Hpa ltac:(lia) Hk3 Hr)
      as (va' & k4 & k5 & E4 & E5 & Hk5 & Hva' & Hva0').
    rewrite (bind_done _ _ _ _ _ E3), (bind_lift_done _ _ (table_size pa + page_offset pa)) by (apply add64_done; lia).
    assert (Hml : mapped_length pa = align_up_val (table_size pa + page_offset pa) 4096).
    { unfold Firmware.mapped_length. by rewrite (proj2 (Z.ltb_lt _ _)) by lia. }
    rewrite (bind_lift_done _ _ (mapped_length pa))
      by (rewrite Hml; apply align_up_done; [lia|by exists 12|change W64 with 18446744073709551616; lia]).
    rewrite <- Hc in *. rewrite (bind_done _ _ _ _ _ E4), (bind_lift_done _ _ va') by done.
    rewrite (bind_done _ _ _ _ _ E5), (bind_lift_done _ _ (va' + page_offset pa)) by (apply add64_done; lia).
    eexists _, k5. split_and!; [done|done|]. unfold covers. simpl. lia.
  - eexists _, k2. split_and!; [done| |unfold covers; simpl; lia].
    replace (4096 * Z.of_nat 0 + r) with r in Hk2 by lia. done.
Qed.

(** *** [detect_acpi] *)

Definition found_at (o : option Z) : result Z unit := match o with Some a => Ok a | None => Err tt end.

Lemma verify_done k a len p :
  read_bytes root rom a (Z.to_nat len) k = Done (phys_bytes p (Z.to_nat len), k) ->
  verify_checksum root rom a len k = Done (if phys_valid rom p len then Ok tt else Err tt, k).
Proof. intros E. unfold verify_checksum. by rewrite (bind_done _ _ _ _ _ E). Qed.

Lemma load_low k fields name a :
  low_memory k -> 0 <= a + offset_of fields name ->
  a + offset_of fields name + Z.of_nat (field fields name).2 <= 0x200000 ->
  load root rom fields name a k = Done (phys_field rom fields name a, k).
Proof.
  intros Hk Ha Hb. unfold load, load_bytes, phys_field.
  by rewrite (bind_done _ _ _ _ _ (read_low k _ _ Hk Ha Hb)).
Qed.

Lemma first_rsdp_cons a addresses :
  first_rsdp rom (a :: addresses) = if rsdp_at rom a then Some a else first_rsdp rom addresses.
Proof.
  unfold first_rsdp. cbn [list_find]. case_decide as D; destruct (rsdp_at rom a); try done.
  by destruct (list_find _ addresses) as [[i x]|].
Qed.

(** The checks of a candidate, in the order of the code. *)
Lemma candidate k a {A} (found missed : M (Kernel P V) A) :
  low_memory k -> 0 <= a -> a + 36 <= 0x200000 ->
  (let! signature := load_bytes root rom AcpiRsdp "signature" a in
   if negb (bool_decide (signature = text "RSD PTR ")) then missed
   else
     let! r := verify_checksum root rom a RSDP_CHECKSUM_LENGTH in
     if is_err r then missed
     else
       let! revision := load root rom AcpiRsdp "revision" a in
       let! bad :=
         if 2 <=? revision then
           let! r := verify_checksum root rom a RSDP_XCHECKSUM_LENGTH in ret (is_err r)
         else ret false in
       if bad : bool then missed else found) k = (if rsdp_at rom a then found else missed) k.
Proof.
  intros Hk Ha Hb. unfold rsdp_at, load_bytes.
  change (offset_of AcpiRsdp "signature") with 0. change (field AcpiRsdp "signature").2 with 8%nat.
  rewrite (bind_done _ _ _ (phys_bytes (a + 0) 8) k) by (apply read_low; [done|lia|lia]).
  rewrite Z.add_0_r. case_bool_decide as Es; [|done]. cbn [negb andb].
  rewrite (bind_done _ _ _ _ _ (verify_done k a RSDP_CHECKSUM_LENGTH a
    ltac:(apply read_low; [done|done|unfold RSDP_CHECKSUM_LENGTH; lia]))).
  destruct (phys_valid rom a RSDP_CHECKSUM_LENGTH); [|done]. cbn [is_err andb].
  rewrite (bind_done _ _ _ _ _ (load_low k AcpiRsdp "revision" a Hk
    ltac:(change (offset_of AcpiRsdp "revision") with 15; lia)
    ltac:(change (offset_of AcpiRsdp "revision") with 15; change (field AcpiRsdp "revision").2 with 1%nat; lia))).
  destruct (2 <=? _); cbn [negb orb]; [|done].
  pose proof (verify_done k a RSDP_XCHECKSUM_LENGTH a
    ltac:(apply read_low; [done|done|unfold RSDP_XCHECKSUM_LENGTH; lia])) as Ev.
  rewrite bind_assoc, (bind_done _ _ _ _ _ Ev), bind_ret. by destruct (phys_valid rom a _).
Qed.

Lemma detect_rsdp_in_spec f l r n addresses : forall page k,
  Forall (fun a => 0 <= a /\ a + 36 <= 0x200000) addresses ->
  kernel_at f l (3 * page_switches page addresses + n) r k ->
  exists k', detect_rsdp_in root phys_bits supports_1gib_pages kernel_start_address rom addresses page k
      = Done (found_at (first_rsdp rom addresses), k') /\ kernel_at f l n r k'.
Proof.
  induction addresses as [|a addresses IH]; intros page k Ha Hk; [by exists k|].
  inversion_clear Ha as [|? ? [Ha0 Ha1] Ha'].
  assert (exists page' k1,
    (if page <? a / SIZE BasePageSize then
       on_mmu (identity_map root phys_bits supports_1gib_pages kernel_start_address a a) ;;;
       ret (a / SIZE BasePageSize)
     else ret page) k = Done (page', k1) /\ kernel_at f l (3 * page_switches page' addresses + n) r k1)
    as (page' & k1 & E & Hk1).
  { change (SIZE BasePageSize) with 4096. simpl page_switches in Hk. destruct (page <? a / 4096).
    - destruct (identity_map_at k f l (3 * page_switches (a / 4096) addresses + n) r a) as (k1 & E & Hk1); [lia| |].
      { by replace (3 + (3 * page_switches (a / 4096) addresses + n))%nat
          with (3 * S (page_switches (a / 4096) addresses) + n)%nat by lia. }
      exists (a / 4096), k1. by rewrite (bind_done _ _ _ _ _ E).
    - by exists page, k. }
  cbn [detect_rsdp_in]. rewrite (bind_done _ _ _ _ _ E).
  rewrite (candidate k1 a) by (done || apply Hk1). rewrite first_rsdp_cons. destruct (rsdp_at rom a).
  - exists k1. split; [done|]. by apply kernel_at_less in Hk1.
  - by apply IH.
Qed.

Lemma ebda_range : 0 <= ebda rom < 2 ^ 20.
Proof.
  unfold ebda. pose proof (phys_field_range [("pointer"%string, 2)] "pointer" EBDA_PTR_LOCATION) as HR.
  unfold phys_field in HR. change (offset_of _ _) with 0 in HR. change (field _ _).2 with 2%nat in HR.
  rewrite Z.add_0_r in HR. rewrite Z.shiftl_mul_pow2 by lia. change (256 ^ Z.of_nat 2) with 65536 in HR.
  change (2 ^ 20) with 1048576. lia.
Qed.

Lemma detect_rsdp_spec f l r n k start end_ window m :
  step_by start end_ 16 = window -> page_switches 0 window = m -> 0 <= start -> end_ + 36 <= 0x200000 ->
  kernel_at f l (3 * m + n) r k ->
  exists k', detect_rsdp root phys_bits supports_1gib_pages kernel_start_address rom start end_ k
      = Done (found_at (first_rsdp rom window), k') /\ kernel_at f l n r k'.
Proof.
  intros <- <- Hs He Hk. apply (detect_rsdp_in_spec f l r n _ 0); [|exact Hk].
  apply Forall_forall. intros a Ha%elem_of_step_by; lia.
Qed.

Lemma detect_acpi_spec f l n r k n1 n2 :
  page_switches 0 (ebda_window rom) = n1 -> page_switches 0 bios_window = n2 ->
  kernel_at f l (3 * (1 + n1 + n2) + n) r k ->
  exists k', detect_acpi root phys_bits supports_1gib_pages kernel_start_address rom k
      = Done (found_at (rsdp rom), k') /\ kernel_at f l n r k'.
Proof.
  intros N1 N2 Hk. pose proof ebda_range as He. change (2 ^ 20) with 1048576 in He. unfold rsdp.
  destruct (identity_map_at k f l (3 * n1 + (3 * n2 + n)) r EBDA_PTR_LOCATION) as (k1 & E1 & Hk1); [by simpl|
    by replace (3 + (3 * n1 + (3 * n2 + n)))%nat with (3 * (1 + n1 + n2) + n)%nat by lia|].
  unfold detect_acpi. rewrite (bind_done _ _ _ _ _ E1).
  rewrite (bind_done _ _ _ (phys_bytes EBDA_PTR_LOCATION 2) k1) by (apply read_low; [apply Hk1|done|done]).
  cbv zeta. fold (ebda rom).
  assert (exists k2, (if EBDA_MINIMUM_ADDRESS <? ebda rom
      then detect_rsdp root phys_bits supports_1gib_pages kernel_start_address rom (ebda rom) (ebda rom + EBDA_WINDOW_SIZE)
      else ret (Err tt)) k1 = Done (found_at (first_rsdp rom (ebda_window rom)), k2) /\ kernel_at f l (3 * n2 + n) r k2)
    as (k2 & E2 & Hk2).
  { clear N2. unfold ebda_window in *. destruct (EBDA_MINIMUM_ADDRESS <? ebda rom).
    - apply (detect_rsdp_spec _ _ _ _ _ _ _ _ n1); [done|done|lia|unfold EBDA_WINDOW_SIZE; lia|exact Hk1].
    - exists k1. split; [done|]. rewrite <- N1 in Hk1. exact Hk1. }
  rewrite (bind_done _ _ _ _ _ E2). destruct (first_rsdp rom (ebda_window rom)) as [a|].
  - exists k2. split; [done|]. by apply kernel_at_less in Hk2.
  - apply (detect_rsdp_spec _ _ _ _ _ _ _ _ n2); [reflexivity|exact N2| | |exact Hk2].
    + unfold RSDP_SEARCH_ADDRESS_LOW. lia.
    + unfold RSDP_SEARCH_ADDRESS_HIGH. lia.
Qed.

(** *** Operations on mapped tables *)

Lemma header_range f l n r k b :
  kernel_at f l n r k -> b ∈ l -> 0 <= header b.1 /\ header b.1 <= 2 ^ 47.
Proof.
  intros Hk Hb. pose proof (ka_areas _ _ _ _ _ Hk) as HF. rewrite Forall_forall in HF.
  destruct (HF b Hb) as [_ A2 A3 A4 _ _]. pose proof (page_offset_range b.2). lia.
Qed.

Lemma area_length f l n r k b : kernel_at f l n r k -> b ∈ l -> 8192 <= allocated_length b.1.
Proof. intros Hk Hb. pose proof (ka_areas _ _ _ _ _ Hk) as HF. rewrite Forall_forall in HF. by apply HF. Qed.

(** The body of a table, of the header's size on. *)
Lemma table_start_done f l n r k t pa :
  kernel_at f l n r k -> (t, pa) ∈ l -> table_start_address t = Done (header t + 36).
Proof.
  intros Hk Hb. pose proof (header_range _ _ _ _ _ _ Hk Hb) as [Hh0 Hh1]. simpl in *.
  unfold table_start_address, header_start_address. change (size_of AcpiSdtHeader) with 36.
  assert (2 ^ 47 + 36 < W64) by done. apply add64_done. lia.
Qed.

Lemma table_length_done f l n r k t pa :
  kernel_at f l n r k -> (t, pa) ∈ l -> Acpi.table_length root rom t k = Done (table_size pa, k).
Proof.
  intros Hk Hb. pose proof (area_length _ _ _ _ _ _ Hk Hb) as Hl. pose proof (page_offset_range pa). simpl in *.
  apply (load_at _ _ _ _ _ (t, pa) _ _ _ pa Hk Hb); change (offset_of AcpiSdtHeader "length") with 4;
    change (field AcpiSdtHeader "length").2 with 4%nat; simpl; lia.
Qed.

Lemma table_end_done f l n r k t pa :
  kernel_at f l n r k -> (t, pa) ∈ l -> table_end_address root rom t k = Done (header t + table_size pa, k).
Proof.
  intros Hk Hb. pose proof (header_range _ _ _ _ _ _ Hk Hb) as [Hh0 Hh1]. simpl in *.
  pose proof (table_size_range pa). assert (2 ^ 47 + 2 ^ 32 < W64) by done.
  unfold table_end_address. rewrite (bind_done _ _ _ _ _ (table_length_done _ _ _ _ _ _ _ Hk Hb)).
  unfold lift, header_start_address. by rewrite add64_done by lia.
Qed.

Lemma signature_done f l n r k t pa :
  kernel_at f l n r k -> (t, pa) ∈ l -> signature root rom t k = Done (table_name rom pa, k).
Proof.
  intros Hk Hb. pose proof (area_length _ _ _ _ _ _ Hk Hb) as Hl. pose proof (page_offset_range pa). simpl in *.
  unfold signature, load_bytes, table_name. change (offset_of AcpiSdtHeader "signature") with 0.
  change (field AcpiSdtHeader "signature").2 with 4%nat.
  pose proof (read_acpi_table _ _ _ _ _ (t, pa) 0 4 Hk Hb) as E. cbn [fst snd] in E.
  rewrite !Z.add_0_r in *. apply E; lia.
Qed.

Lemma table_verify_done f l n r k t pa :
  kernel_at f l n r k -> (t, pa) ∈ l -> covers (t, pa) ->
  verify_checksum root rom (header_start_address t) (table_size pa) k
    = Done (if phys_valid rom pa (table_size pa) then Ok tt else Err tt, k).
Proof.
  intros Hk Hb Hc. unfold covers in Hc. simpl in Hc. pose proof (table_size_range pa). apply verify_done.
  pose proof (read_acpi_table _ _ _ _ _ (t, pa) 0 (Z.to_nat (table_size pa)) Hk Hb) as E. cbn [fst snd] in E.
  unfold header_start_address. rewrite !Z.add_0_r in E. apply E; lia.
Qed.

(** A field of the table's body. *)
Lemma body_load f l n r k t pa fields name o :
  kernel_at f l n r k -> (t, pa) ∈ l -> 0 <= o + offset_of fields name ->
  o + offset_of fields name + Z.of_nat (field fields name).2 <= 4000 ->
  load root rom fields name (header t + 36 + o) k = Done (phys_field rom fields name (table_body pa + o), k).
Proof.
  intros Hk Hb H1' H2'. pose proof (area_length _ _ _ _ _ _ Hk Hb) as Hl. pose proof (page_offset_range pa).
  unfold table_body. change (size_of AcpiSdtHeader) with 36. simpl in *.
  apply (load_at _ _ _ _ _ (t, pa) _ _ _ _ Hk Hb); simpl; lia.
Qed.

(** *** The state of the module *)

Definition madt_area (s : Acpi P V) (f : Found) : list (AcpiTable * Z) :=
  match MADT s, f_madt f with Some t, Some pa => [(t, pa)] | _, _ => [] end.

(** The state while the tables of [l] are mapped besides the MADT, after the
    tables [f] tells of have been parsed. *)
Record acpi_at (free0 : Z -> Prop) (l : list (AcpiTable * Z)) (n : nat) (r : Z) (f : Found) (s : Acpi P V) : Prop := {
  aa_kernel : kernel_at free0 (madt_area s f ++ l) n r (kern s);
  aa_madt : match MADT s, f_madt f with Some t, Some pa => covers (t, pa) | None, None => True | _, _ => False end;
  aa_pm1a : PM1A_CNT_BLK s = f_pm1a f;
  aa_typa : SLP_TYPA s = f_typa f
}.

(** A run that does what the tables in physical memory say. *)
Definition agrees (free0 : Z -> Prop) l n r (o : outcome Found) (run : outcome (unit * Acpi P V)) : Prop :=
  match o with
  | Done f => exists s, run = Done (tt, s) /\ acpi_at free0 l n r f s
  | Panic => run = Panic
  | OutOfFuel => run = OutOfFuel
  end.

Lemma on_kern_read {A} (m : M (Kernel P V) A) a s : m (kern s) = Done (a, kern s) -> on_kern m s = Done (a, s).
Proof. intros E. unfold on_kern. rewrite E. by destruct s. Qed.

Lemma on_kern_done {A} (m : M (Kernel P V) A) a s k :
  m (kern s) = Done (a, k) -> on_kern m s = Done (a, mkAcpi k (MADT s) (PM1A_CNT_BLK s) (SLP_TYPA s)).
Proof. intros E. unfold on_kern. by rewrite E. Qed.

Lemma acpi_at_perm free0 l l' n r f s : l ≡ₚ l' -> acpi_at free0 l n r f s -> acpi_at free0 l' n r f s.
Proof. intros E [K1 K2 K3 K4]. split; try done. by rewrite <- E. Qed.

Lemma drop_table free0 l n r f s t pa :
  acpi_at free0 ((t, pa) :: l) n r f s -> agrees free0 l n r (Done f) (on_kern (AcpiTable_drop t) s).
Proof.
  intros [K1 K2 K3 K4]. rewrite <- Permutation_middle in K1.
  destruct (drop_area _ _ _ _ _ _ K1) as (k' & E & Hk'). simpl in *.
  eexists. split; [by apply on_kern_done|]. by split.
Qed.

Lemma map_table free0 l n r f s pa {B} (k : AcpiTable -> M (Acpi P V) B) :
  fits rom phys_bits pa -> 0 <= r ->
  acpi_at free0 l (3 * Z.to_nat (table_pages pa) + n) (4096 * table_pages pa + r) f s ->
  exists t s', (let! t := on_kern (AcpiTable_map root phys_bits supports_1gib_pages rom pa) in k t) s = k t s' /\
    acpi_at free0 ((t, pa) :: l) n r f s' /\ covers (t, pa).
Proof.
  intros Hf Hr [K1 K2 K3 K4]. destruct (AcpiTable_map_spec _ _ _ _ _ _ Hf Hr K1) as (t & k' & E & Hk' & Hc).
  eexists t, _. split; [by rewrite (bind_done _ _ _ _ _ (on_kern_done _ _ _ _ E))|]. split; [|done].
  split; try done. by rewrite <- Permutation_middle.
Qed.

Lemma assert_checksum_spec free0 l n r f s t pa {B} (k : unit -> M (Acpi P V) B) :
  acpi_at free0 l n r f s -> (t, pa) ∈ l -> covers (t, pa) ->
  bind (assert_checksum root rom t) k s = if phys_valid rom pa (table_size pa) then k tt s else Panic.
Proof.
  intros [K1 _ _ _] Hb Hc. assert (Hb' : (t, pa) ∈ madt_area s f ++ l) by set_solver.
  unfold assert_checksum. rewrite bind_assoc.
  rewrite (bind_done _ _ _ _ _ (on_kern_read _ _ _ (table_length_done _ _ _ _ _ _ _ K1 Hb'))). rewrite bind_assoc.
  rewrite (bind_done _ _ _ _ _ (on_kern_read _ _ _ (table_verify_done _ _ _ _ _ _ _ K1 Hb' Hc))).
  by destruct (phys_valid rom pa (table_size pa)).
Qed.

(** *** Parsing *)

Lemma in_live free0 l n r f s b : acpi_at free0 l n r f s -> b ∈ l -> b ∈ madt_area s f ++ l.
Proof. set_solver. Qed.

Lemma search_s5_spec free0 l n r f s t pa :
  acpi_at free0 ((t, pa) :: l) n r f s -> covers (t, pa) ->
  agrees free0 l n r (s5_table rom f pa) (search_s5_in_table root rom t s).
Proof.
  intros Ha Hc. assert (Hb : (t, pa) ∈ madt_area s f ++ (t, pa) :: l) by set_solver.
  pose proof (aa_kernel _ _ _ _ _ _ Ha) as Hk. pose proof (table_size_range pa) as Hts.
  unfold covers in Hc. cbn [fst snd] in Hc. unfold search_s5_in_table, s5_table.
  rewrite (bind_lift_done _ _ _ _ (table_start_done _ _ _ _ _ _ _ Hk Hb)).
  rewrite (bind_done _ _ _ _ _ (on_kern_read _ _ _ (table_end_done _ _ _ _ _ _ _ Hk Hb))).
  change (size_of AcpiSdtHeader) with 36.
  replace (sub64 (header t + table_size pa) (header t + 36)) with (sub64 (table_size pa) 36)
    by (unfold sub64; f_equal; lia).
  destruct (sub64 (table_size pa) 36) as [m| |] eqn:Em; [|done..]. apply checked_inv in Em as [-> Hm].
  rewrite (bind_lift_done _ _ _ _ eq_refl). cbn [obind].
  assert (E : on_kern (read_bytes root rom (header t + 36) (Z.to_nat (table_size pa - 36))) s
    = Done (phys_bytes (table_body pa) (Z.to_nat (table_size pa - 36)), s)).
  { apply on_kern_read. apply (read_acpi_table _ _ _ _ _ (t, pa) 36 _ Hk Hb); cbn [fst snd]; unfold in_u64 in Hm; lia. }
  rewrite (bind_done _ _ _ _ _ E). destruct (search_s5 _) as [[v|]| |]; [| |done..]; cbn [obind];
    rewrite (bind_lift_done _ _ _ _ eq_refl).
  - unfold set_SLP_TYPA. rewrite bind_modify. apply (drop_table free0 l n r (mkFound _ _ _) _ t pa).
    destruct Ha as [K1 K2 K3 K4]. by split.
  - rewrite bind_ret. by apply (drop_table _ _ _ _ _ _ _ pa).
Qed.

(** Loading a field of a live table's body. *)
Lemma field_done free0 l n r f s t pa fields name a o :
  acpi_at free0 l n r f s -> (t, pa) ∈ l -> a = header t + 36 + o -> 0 <= o + offset_of fields name ->
  o + offset_of fields name + Z.of_nat (field fields name).2 <= 4000 ->
  on_kern (load root rom fields name a) s = Done (phys_field rom fields name (table_body pa + o), s).
Proof.
  intros Ha Hb -> H1' H2'. pose proof (in_live _ _ _ _ _ _ _ Ha Hb) as Hb'.
  apply on_kern_read. by apply (body_load _ _ _ _ _ _ _ _ _ _ (aa_kernel _ _ _ _ _ _ Ha) Hb').
Qed.

(** Which PM1A control block and which DSDT the FADT names. *)
Lemma fadt_fields free0 l n r f s t pa :
  acpi_at free0 l n r f s -> (t, pa) ∈ l ->
  let fadt := header t + 36 in
  let x := fadt + offset_of AcpiFadt "x_pm1a_cnt_blk" in
  let is_io := fadt_has rom pa "x_pm1a_cnt_blk" &&
    (phys_field rom AcpiGenericAddress "address_space" (table_body pa + offset_of AcpiFadt "x_pm1a_cnt_blk")
       =? GENERIC_ADDRESS_IO_SPACE) in
  let x_dsdt := if fadt_has rom pa "x_dsdt" then phys_field rom AcpiFadt "x_dsdt" (table_body pa) else 0 in
  (if x <? header t + table_size pa then
     let! space := on_kern (load root rom AcpiGenericAddress "address_space" x) in
     ret (space =? GENERIC_ADDRESS_IO_SPACE)
   else ret false) s = Done (is_io, s) /\
  (exists v, (if is_io then on_kern (load root rom AcpiGenericAddress "address" x)
     else on_kern (load root rom AcpiFadt "pm1a_cnt_blk" fadt)) s = Done (v, s) /\ v mod 2 ^ 16 = fadt_pm1a rom pa) /\
  (if fadt + offset_of AcpiFadt "x_dsdt" <? header t + table_size pa then
     on_kern (load root rom AcpiFadt "x_dsdt" fadt) else ret 0) s = Done (x_dsdt, s) /\
  (if 0 <? x_dsdt then ret x_dsdt else on_kern (load root rom AcpiFadt "dsdt" fadt)) s = Done (fadt_dsdt rom pa, s).
Proof.
  intros Ha Hb fadt x is_io x_dsdt.
  assert (Hhas : forall name, (fadt + offset_of AcpiFadt name <? header t + table_size pa) = fadt_has rom pa name).
  { intros name. unfold fadt_has, fadt, table_body. change (size_of AcpiSdtHeader) with 36.
    destruct (Z.ltb_spec (header t + 36 + offset_of AcpiFadt name) (header t + table_size pa)),
      (Z.ltb_spec (pa + 36 + offset_of AcpiFadt name) (pa + table_size pa)); try done; lia. }
  assert (Hf : forall fields name a o, a = fadt + o -> 0 <= o + offset_of fields name ->
    o + offset_of fields name + Z.of_nat (field fields name).2 <= 4000 ->
    on_kern (load root rom fields name a) s = Done (phys_field rom fields name (table_body pa + o), s)).
  { intros. by eapply field_done. }
  assert (Hf0 : forall name, 0 <= offset_of AcpiFadt name ->
    offset_of AcpiFadt name + Z.of_nat (field AcpiFadt name).2 <= 4000 ->
    on_kern (load root rom AcpiFadt name fadt) s = Done (phys_field rom AcpiFadt name (table_body pa), s)).
  { intros. by rewrite (Hf AcpiFadt name fadt 0), Z.add_0_r by lia. }
  unfold x. rewrite !Hhas. split_and!.
  - unfold is_io. destruct (fadt_has rom pa "x_pm1a_cnt_blk"); [|done]. 
    by rewrite (bind_done _ _ _ _ _ (Hf AcpiGenericAddress "address_space"%string _
      (offset_of AcpiFadt "x_pm1a_cnt_blk") eq_refl ltac:(done) ltac:(done))).
  - unfold fadt_pm1a. fold is_io. destruct is_io; (eexists; split; [|done]); [by apply Hf|by apply Hf0].
  - unfold x_dsdt. destruct (fadt_has rom pa "x_dsdt"); [by apply Hf0|done].
  - unfold x_dsdt, fadt_dsdt. destruct (fadt_has rom pa "x_dsdt"); cbn [andb]; [|by apply Hf0].
    destruct (0 <? phys_field rom AcpiFadt "x_dsdt" (table_body pa)); [done|by apply Hf0].
Qed.

Lemma parse_fadt_spec free0 l n r f s t pa :
  fits rom phys_bits (fadt_dsdt rom pa) -> 0 <= r ->
  acpi_at free0 ((t, pa) :: l) (3 * Z.to_nat (table_pages (fadt_dsdt rom pa)) + n)
    (4096 * table_pages (fadt_dsdt rom pa) + r) f s ->
  agrees free0 l n r (fadt_table rom f pa) (parse_fadt root phys_bits supports_1gib_pages rom t s).
Proof.
  intros Hfit Hr Ha. assert (Hb : (t, pa) ∈ (t, pa) :: l) by set_solver.
  pose proof (in_live _ _ _ _ _ _ _ Ha Hb) as Hb'. pose proof (aa_kernel _ _ _ _ _ _ Ha) as Hk.
  unfold parse_fadt, fadt_table.
  rewrite (bind_lift_done _ _ _ _ (table_start_done _ _ _ _ _ _ _ Hk Hb')). cbv zeta.
  rewrite (bind_done _ _ _ _ _ (on_kern_read _ _ _ (table_end_done _ _ _ _ _ _ _ Hk Hb'))).
  destruct (fadt_fields _ _ _ _ _ _ _ _ Ha Hb) as (E1 & (v & E2 & Ev) & _).
  rewrite (bind_done _ _ _ _ _ E1), (bind_done _ _ _ _ _ E2). rewrite Ev.
  unfold set_PM1A_CNT_BLK. rewrite bind_modify. set (s1 := mkAcpi _ _ _ _).
  set (f1 := mkFound (f_madt f) (Some (fadt_pm1a rom pa)) (f_typa f)).
  assert (Ha1 : acpi_at free0 ((t, pa) :: l) (3 * Z.to_nat (table_pages (fadt_dsdt rom pa)) + n)
    (4096 * table_pages (fadt_dsdt rom pa) + r) f1 s1) by (destruct Ha as [K1 K2 K3 K4]; by split).
  destruct (fadt_fields _ _ _ _ _ _ _ _ Ha1 Hb) as (_ & _ & E3 & E4).
  rewrite (bind_done _ _ _ _ _ (on_kern_read _ _ s1 (table_end_done _ _ _ _ _ _ _ Hk Hb'))).
  rewrite (bind_done _ _ _ _ _ E3), (bind_done _ _ _ _ _ E4).
  set (dsdt := fadt_dsdt rom pa) in *.
  match goal with |- context [bind (on_kern (AcpiTable_map _ _ _ _ _)) ?k s1] =>
    destruct (map_table _ _ _ _ _ _ dsdt k Hfit Hr Ha1) as (t2 & s2 & -> & Ha2 & Hc2) end. cbv beta.
  assert (Hb2 : (t2, dsdt) ∈ madt_area s2 f1 ++ (t2, dsdt) :: (t, pa) :: l) by set_solver.
  pose proof (aa_kernel _ _ _ _ _ _ Ha2) as Hk2.
  rewrite (bind_done _ _ _ _ _ (on_kern_read _ _ _ (signature_done _ _ _ _ _ _ _ Hk2 Hb2))).
  case_bool_decide; [|done]. cbn [andb]. rewrite bind_massert by done.
  rewrite (bind_done _ _ _ _ _ (on_kern_read _ _ _ (table_length_done _ _ _ _ _ _ _ Hk2 Hb2))).
  rewrite (bind_done _ _ _ _ _ (on_kern_read _ _ _ (table_verify_done _ _ _ _ _ _ _ Hk2 Hb2 Hc2))).
  destruct (phys_valid rom dsdt (table_size dsdt)); [|done]. rewrite bind_massert by done.
  pose proof (search_s5_spec _ _ _ _ _ _ _ _ Ha2 Hc2) as Hs. destruct (s5_table rom f1 dsdt) as [f2| |]; simpl in Hs.
  - destruct Hs as (s3 & E5 & Ha3). rewrite (bind_done _ _ _ _ _ E5). by apply (drop_table _ _ _ _ _ _ _ pa).
  - unfold bind. by rewrite Hs.
  - unfold bind. by rewrite Hs.
Qed.

Lemma parse_ssdt_spec free0 l n r f s t pa :
  acpi_at free0 ((t, pa) :: l) n r f s -> covers (t, pa) ->
  agrees free0 l n r (match f_typa f with Some _ => Done f | None => s5_table rom f pa end) (parse_ssdt root rom t s).
Proof.
  intros Ha Hc. unfold parse_ssdt. rewrite bind_gets, (aa_typa _ _ _ _ _ _ Ha).
  destruct (f_typa f); [by apply (drop_table _ _ _ _ _ _ _ pa)|by apply search_s5_spec].
Qed.

Lemma set_MADT_spec free0 l n r f s t pa :
  acpi_at free0 ((t, pa) :: l) n r f s -> covers (t, pa) ->
  agrees free0 l n r (Done (mkFound (Some pa) (f_pm1a f) (f_typa f))) (set_MADT t s).
Proof.
  intros [K1 K2 K3 K4] Hc. unfold set_MADT. rewrite bind_gets, bind_modify. unfold madt_area in K1.
  destruct (MADT s) as [t0|], (f_madt f) as [pa0|]; try done; simpl in K1.
  - destruct (drop_area _ _ _ _ _ _ K1) as (k' & E & Hk'). simpl in E.
    eexists. split; [by apply on_kern_done|]. by split.
  - eexists. split; [done|]. by split.
Qed.

(** *** [init] *)

Definition dsdt_pages (pa : Z) : Z :=
  if bool_decide (table_name rom pa = text "FACP") then table_pages (fadt_dsdt rom pa) else 0.

Lemma table_pages_pos pa : 2 <= table_pages pa.
Proof.
  pose proof (mapped_length_spec pa) as (B1 & B2 & _). unfold Firmware.table_pages.
  assert (2 <= mapped_length pa / 4096) by (apply Z.div_le_lower_bound; lia).
  destruct (_ <? _); lia.
Qed.

Lemma dsdt_pages_pos pa : 0 <= dsdt_pages pa.
Proof. unfold dsdt_pages. pose proof (table_pages_pos (fadt_dsdt rom pa)). case_bool_decide; lia. Qed.

Lemma pages_of_reached pa pas : pages_of rom (reached rom pa ++ pas) = table_pages pa + dsdt_pages pa + pages_of rom pas.
Proof. unfold reached, dsdt_pages. case_bool_decide; simpl; lia. Qed.

Lemma pages_of_pos pas : 0 <= pages_of rom pas.
Proof. induction pas as [|pa pas IH]; simpl; [lia|]. pose proof (table_pages_pos pa). lia. Qed.

Lemma init_table_spec free0 l n r f s t pa :
  Forall (fits rom phys_bits) (reached rom pa) -> 0 <= r ->
  acpi_at free0 ((t, pa) :: l) (3 * Z.to_nat (dsdt_pages pa) + n) (4096 * dsdt_pages pa + r) f s -> covers (t, pa) ->
  agrees free0 l n r (acpi_table rom f pa) (init_table root phys_bits supports_1gib_pages rom t s).
Proof.
  intros Hfit Hr Ha Hc. assert (Hb : (t, pa) ∈ (t, pa) :: l) by set_solver.
  pose proof (in_live _ _ _ _ _ _ _ Ha Hb) as Hb'. pose proof (aa_kernel _ _ _ _ _ _ Ha) as Hk.
  unfold init_table, acpi_table.
  rewrite (bind_done _ _ _ _ _ (on_kern_read _ _ _ (signature_done _ _ _ _ _ _ _ Hk Hb'))).
  unfold dsdt_pages, reached in *. destruct (decide (table_name rom pa = text "FACP")) as [C2|C2].
  - rewrite (bool_decide_true _ C2), (bool_decide_false (table_name rom pa = text "APIC")) by (by rewrite C2).
    rewrite (bool_decide_true _ C2) in Ha, Hfit. cbv iota in Ha, Hfit. rewrite (assert_checksum_spec _ _ _ _ _ _ _ _ _ Ha Hb Hc).
    destruct (phys_valid _ _ _); [|done].
    inversion_clear Hfit as [|? ? _ Hfit']. inversion_clear Hfit'. by apply parse_fadt_spec.
  - rewrite (bool_decide_false _ C2). rewrite (bool_decide_false _ C2) in Ha.
    replace (3 * Z.to_nat 0 + n)%nat with n in Ha by lia. replace (4096 * 0 + r) with r in Ha by lia.
    pose proof (fun B g => assert_checksum_spec _ _ _ _ _ _ _ _ (B := B) g Ha Hb Hc) as Hcheck. clear Hfit Hk.
    case_bool_decide; [|case_bool_decide; [|by apply (drop_table _ _ _ _ _ _ _ pa)]];
      rewrite Hcheck; (destruct (phys_valid _ _ _); [|done]); [by apply set_MADT_spec|by apply parse_ssdt_spec].
Qed.

(** One entry of the root table and the loop over the rest. *)
Lemma init_loop_spec free0 l n r rsdp rsdt rt size : 0 <= r ->
  0 <= rsdp -> rsdp + 36 <= 0x200000 -> entry_size rom rsdp = size -> covers (rsdt, rt) ->
  forall m o fuel s f,
  0 <= o -> table_size rt = o + Z.of_nat m * size -> (m <= fuel)%nat ->
  let pas := entries_from rom (rt + o) size m in
  Forall (fits rom phys_bits) (pas ≫= reached rom) ->
  acpi_at free0 ((rsdt, rt) :: l) (3 * Z.to_nat (pages_of rom (pas ≫= reached rom)) + n)
    (4096 * pages_of rom (pas ≫= reached rom) + r) f s ->
  agrees free0 ((rsdt, rt) :: l) n r (acpi_entries rom f pas)
    (init_loop root phys_bits supports_1gib_pages rom fuel rsdp rsdt (header rsdt + o) s).
Proof.
  intros Hr Hr0 Hr1 Hsize Hc. unfold covers in Hc. cbn [fst snd] in Hc.
  assert (Hsz : size = 4 \/ size = 8) by (unfold entry_size in Hsize; destruct (2 <=? _); lia).
  induction m as [|m IH]; intros o fuel s f Ho Hts Hfuel pas Hfit Ha;
    (assert (Hb : (rsdt, rt) ∈ (rsdt, rt) :: l) by (by left));
    pose proof (in_live _ _ _ _ _ _ _ Ha Hb) as Hb'; pose proof (aa_kernel _ _ _ _ _ _ Ha) as Hk;
    pose proof (on_kern_read _ _ _ (table_end_done _ _ _ _ _ _ _ Hk Hb')) as Eend.
  - assert (E : init_loop root phys_bits supports_1gib_pages rom fuel rsdp rsdt (header rsdt + o) s = Done (tt, s)).
    { destruct fuel; cbn [init_loop]; rewrite (bind_done _ _ _ _ _ Eend), (proj2 (Z.ltb_ge _ _)) by lia; done. }
    exists s. split; [done|]. by rewrite Z.mul_0_r in Ha.
  - destruct fuel as [|fuel]; [lia|]. cbn [init_loop]. rewrite (bind_done _ _ _ _ _ Eend).
    rewrite (proj2 (Z.ltb_lt _ _)) by lia.
    rewrite (bind_done _ _ _ _ _ (on_kern_read _ _ _ (load_low _ AcpiRsdp "revision" rsdp (ka_low _ _ _ _ _ Hk)
      ltac:(change (offset_of AcpiRsdp "revision") with 15; lia)
      ltac:(change (offset_of AcpiRsdp "revision") with 15; change (field AcpiRsdp "revision").2 with 1%nat; lia)))).
    cbv zeta. fold (entry_size rom rsdp). rewrite Hsize.
    assert (Er : on_kern (read_bytes root rom (header rsdt + o) (Z.to_nat size)) s
      = Done (phys_bytes (rt + o) (Z.to_nat size), s)).
    { apply on_kern_read, (read_acpi_table _ _ _ _ _ (rsdt, rt) o _ Hk Hb'); cbn [fst snd]; lia. }
    rewrite (bind_done _ _ _ _ _ Er).
    pose proof (header_range _ _ _ _ _ _ Hk Hb') as [Hh0 Hh1]. cbn [fst snd] in Hh0, Hh1.
    pose proof (table_size_range rt). assert (2 ^ 47 + 2 ^ 32 < W64) by done.
    rewrite (bind_lift_done _ _ (header rsdt + (o + size))) by (rewrite add64_done by nia; f_equal; lia).
    unfold pas in *. clear pas. cbn [entries_from acpi_entries] in *.
    set (pa := le (phys_bytes (rt + o) (Z.to_nat size))) in *.
    change ((pa :: entries_from rom (rt + o + size) size m) ≫= reached rom)
      with (reached rom pa ++ (entries_from rom (rt + o + size) size m ≫= reached rom)) in *.
    rewrite <- Z.add_assoc in *. set (pas := entries_from rom (rt + (o + size)) size m) in *.
    rewrite pages_of_reached in Ha. pose proof (pages_of_pos (pas ≫= reached rom)) as Hpp.
    pose proof (table_pages_pos pa). pose proof (dsdt_pages_pos pa). set (p := pages_of rom (pas ≫= reached rom)) in *.
    replace (3 * Z.to_nat (table_pages pa + dsdt_pages pa + p) + n)%nat
      with (3 * Z.to_nat (table_pages pa) + (3 * Z.to_nat (dsdt_pages pa) + (3 * Z.to_nat p + n)))%nat in Ha by lia.
    replace (4096 * (table_pages pa + dsdt_pages pa + p) + r)
      with (4096 * table_pages pa + (4096 * dsdt_pages pa + (4096 * p + r))) in Ha by lia.
    apply Forall_app in Hfit as [Hfit1 Hfit2].
    assert (Hr2 : 0 <= 4096 * p + r) by lia. assert (Hr3 : 0 <= 4096 * dsdt_pages pa + (4096 * p + r)) by lia.
    pose proof (proj1 (proj1 (Forall_cons _ _ _) Hfit1)) as Hfit0.
    match goal with |- context [bind (on_kern (AcpiTable_map _ _ _ _ _)) ?k s] =>
      destruct (map_table _ _ _ _ _ _ pa k Hfit0 Hr3 Ha)
        as (t & s2 & -> & Ha2 & Hc2) end. cbv beta.
    pose proof (init_table_spec _ _ _ _ _ _ _ _ Hfit1 Hr2 Ha2 Hc2) as Hs.
    destruct (acpi_table rom f pa) as [f2| |]; simpl in Hs; [|by unfold bind; rewrite Hs..].
    destruct Hs as (s3 & E3 & Ha3). rewrite (bind_done _ _ _ _ _ E3). cbn [obind].
    apply IH; [lia|lia|lia|done|done].
Qed.

(** The memory [init] asks for: the pages of the BIOS areas and of the tables. *)
Definition acpi_pages : Z :=
  match rsdp rom with Some r => pages_of rom (all_tables rom r) | None => 0 end.

Lemma first_rsdp_in addresses a : first_rsdp rom addresses = Some a -> a ∈ addresses.
Proof.
  unfold first_rsdp. destruct (list_find _ addresses) as [[i x]|] eqn:E; [|done]. intros [= <-].
  apply list_find_Some in E as (E & _). by eapply list_elem_of_lookup_2.
Qed.

Lemma rsdp_range r : rsdp rom = Some r -> 0 <= r /\ r + 36 <= 0x200000.
Proof.
  unfold rsdp, ebda_window. pose proof ebda_range as He. change (2 ^ 20) with 1048576 in He.
  assert (Hw : forall a, first_rsdp rom bios_window = Some a -> 0 <= a /\ a + 36 <= 0x200000).
  { intros a Ha%first_rsdp_in%elem_of_step_by; [|done].
    unfold RSDP_SEARCH_ADDRESS_LOW, RSDP_SEARCH_ADDRESS_HIGH in Ha. lia. }
  destruct (EBDA_MINIMUM_ADDRESS <? ebda rom); [|exact (Hw r)].
  destruct (first_rsdp rom (step_by (ebda rom) _ 16)) as [a|] eqn:E; [|exact (Hw r)]. intros [= <-].
  apply first_rsdp_in, elem_of_step_by in E; [|done]. unfold EBDA_WINDOW_SIZE in E. lia.
Qed.

Lemma search_s5_total aml : search_s5 aml <> OutOfFuel.
Proof.
  assert (Hi : forall i, is_Some (aml !! i) \/ at_index aml i = Panic)
    by (intros i; unfold at_index; destruct (aml !! i); [left|right]; by eauto).
  unfold search_s5, at_index in *. destruct (position_window s5_name aml) as [i|]; [|done].
  repeat first [progress cbn [obind unwrap]
    | match goal with |- context [unwrap (aml !! ?j)] => destruct (aml !! j) end
    | match goal with |- context [if ?b then _ else _] => destruct b end]; done.
Qed.

Lemma s5_table_total f pa : s5_table rom f pa <> OutOfFuel.
Proof.
  unfold s5_table, sub64, checked. destruct (_ && _); [|done]. cbn [obind].
  pose proof (search_s5_total (phys_bytes (table_body pa) (Z.to_nat (table_size pa - size_of AcpiSdtHeader)))) as Ht.
  by destruct (search_s5 _).
Qed.

Lemma acpi_table_total f pa : acpi_table rom f pa <> OutOfFuel.
Proof.
  unfold acpi_table, fadt_table.
  repeat case_bool_decide; cbn [andb]; try (destruct (phys_valid rom pa (table_size pa))); try done;
    try (destruct (phys_valid rom (fadt_dsdt rom pa) (table_size (fadt_dsdt rom pa)))); try done;
    try apply s5_table_total; (destruct (f_typa f); [done|apply s5_table_total]).
Qed.

Lemma acpi_entries_total pas : forall f, acpi_entries rom f pas <> OutOfFuel.
Proof.
  induction pas as [|pa pas IH]; intros f; [done|]. simpl. pose proof (acpi_table_total f pa) as Ht.
  destruct (acpi_table rom f pa); [apply IH|done|done].
Qed.

(** [init] after the RSDP has been found. *)
Lemma init_tables_spec free0 n r s :
  rsdp rom = Some r -> well_placed rom phys_bits r ->
  acpi_at free0 [] (3 * Z.to_nat acpi_pages + n) (4096 * acpi_pages) (mkFound None None None) s ->
  agrees free0 [] n 0 (acpi_tables rom)
    ((let! revision := on_kern (load root rom AcpiRsdp "revision" r) in
      let! rsdt_physical_address :=
        if 2 <=? revision then on_kern (load root rom AcpiRsdp "xsdt_physical_address" r)
        else on_kern (load root rom AcpiRsdp "rsdt_physical_address" r) in
      let! rsdt := on_kern (AcpiTable_map root phys_bits supports_1gib_pages rom rsdt_physical_address) in
      let! current_address := lift (table_start_address rsdt) in
      let! length := on_kern (Acpi.table_length root rom rsdt) in
      init_loop root phys_bits supports_1gib_pages rom (Z.to_nat (length / 4 + 1)) r rsdt current_address ;;;
      on_kern (AcpiTable_drop rsdt)) s).
Proof.
  intros Er [Hfit Hlen Hwhole] Ha. pose proof (rsdp_range r Er) as [Hr0 Hr1].
  unfold acpi_tables, acpi_pages in *. rewrite Er in *. set (rt := root_table rom r) in *.
  assert (Hread : forall name, offset_of AcpiRsdp name + Z.of_nat (field AcpiRsdp name).2 <= 36 -> 0 <= offset_of AcpiRsdp name ->
    on_kern (load root rom AcpiRsdp name r) s = Done (phys_field rom AcpiRsdp name r, s)).
  { intros name H1' H2'. apply on_kern_read, load_low; [apply (aa_kernel _ _ _ _ _ _ Ha)|lia|lia]. }
  rewrite (bind_done _ _ _ _ _ (Hread "revision"%string ltac:(by vm_compute) ltac:(by vm_compute))).
  assert (Ert : (if 2 <=? phys_field rom AcpiRsdp "revision" r then on_kern (load root rom AcpiRsdp "xsdt_physical_address" r)
    else on_kern (load root rom AcpiRsdp "rsdt_physical_address" r)) s = Done (rt, s)).
  { unfold rt, root_table. destruct (2 <=? _); apply Hread; by vm_compute. }
  rewrite (bind_done _ _ _ _ _ Ert). unfold all_tables in *. apply Forall_cons in Hfit as [Hfit0 Hfit].
  fold rt in Ha, Hfit, Hfit0, Hlen, Hwhole. set (pas := entries rom r) in *.
  change (pages_of rom (rt :: (pas ≫= reached rom))) with (table_pages rt + pages_of rom (pas ≫= reached rom)) in Ha.
  pose proof (pages_of_pos (pas ≫= reached rom)) as Hpp. pose proof (table_pages_pos rt).
  set (p := pages_of rom (pas ≫= reached rom)) in *.
  replace (3 * Z.to_nat (table_pages rt + p) + n)%nat
    with (3 * Z.to_nat (table_pages rt) + (3 * Z.to_nat p + n))%nat in Ha by lia.
  replace (4096 * (table_pages rt + p)) with (4096 * table_pages rt + (4096 * p + 0)) in Ha by lia.
  assert (Hp0 : 0 <= 4096 * p + 0) by lia.
  match goal with |- context [bind (on_kern (AcpiTable_map _ _ _ _ _)) ?k s] =>
    destruct (map_table _ _ _ _ _ _ rt k Hfit0 Hp0 Ha) as (t & s2 & -> & Ha2 & Hc2) end. cbv beta.
  assert (Hb : (t, rt) ∈ madt_area s2 (mkFound None None None) ++ [(t, rt)]) by (apply elem_of_app; right; by left).
  pose proof (aa_kernel _ _ _ _ _ _ Ha2) as Hk2.
  rewrite (bind_lift_done _ _ _ _ (table_start_done _ _ _ _ _ _ _ Hk2 Hb)).
  rewrite (bind_done _ _ _ _ _ (on_kern_read _ _ _ (table_length_done _ _ _ _ _ _ _ Hk2 Hb))).
  change (size_of AcpiSdtHeader) with 36 in *.
  assert (Hsz : entry_size rom r = 4 \/ entry_size rom r = 8) by (unfold entry_size; destruct (2 <=? _); lia).
  pose proof (Z.div_mod (table_size rt - 36) (entry_size rom r) ltac:(lia)) as Hd.
  assert (Hq : 0 <= (table_size rt - 36) / entry_size rom r <= table_size rt / 4).
  { split; [apply Z.div_pos; lia|]. apply Z.div_le_upper_bound; [lia|].
    pose proof (Z.div_mod (table_size rt) 4 ltac:(lia)). pose proof (Z.mod_pos_bound (table_size rt) 4 ltac:(lia)). nia. }
  pose proof (init_loop_spec free0 [] n 0 r t rt (entry_size rom r) ltac:(lia) Hr0 Hr1 eq_refl Hc2
    (Z.to_nat (entry_count rom r)) 36 (Z.to_nat (table_size rt / 4 + 1)) s2 (mkFound None None None)) as Hloop.
  unfold entry_count in Hloop. fold rt in Hloop. change (size_of AcpiSdtHeader) with 36 in Hloop.
  specialize (Hloop ltac:(lia) ltac:(lia) ltac:(lia)).
  change (entries_from rom (rt + 36) (entry_size rom r) (Z.to_nat ((table_size rt - 36) / entry_size rom r)))
    with pas in Hloop. specialize (Hloop Hfit Ha2).
  destruct (acpi_entries rom (mkFound None None None) pas) as [f| |]; simpl in Hloop; [|by unfold bind; rewrite Hloop..].
  destruct Hloop as (s3 & E3 & Ha3). rewrite (bind_done _ _ _ _ _ E3). by apply (drop_table _ _ _ _ _ _ _ rt).
Qed.

(** C8. [init] finds in the firmware's tables what [acpi_tables] reads in physical
    memory: it aborts exactly when that does, and otherwise PM1A control block,
    sleep type and MADT are the ones found; the MADT stays mapped as a whole
    and every other page of virtual memory that was mapped for a table is free
    again. *)
Theorem acpi_init_correct k :
  kernel_ok root phys_bits k -> low_memory k ->
  (forall r, rsdp rom = Some r -> well_placed rom phys_bits r) ->
  supply (3 * (1 + page_switches 0 (ebda_window rom) + page_switches 0 bios_window + Z.to_nat acpi_pages))
    (Paging.frames (mmu k)) ->
  pa_room (virt k) (4096 * acpi_pages) ->
  let run := Acpi.init root phys_bits supports_1gib_pages kernel_start_address rom (mkAcpi k None None None) in
  match acpi_tables rom with
  | Done f =>
      exists s, run = Done (tt, s) /\ PM1A_CNT_BLK s = f_pm1a f /\ SLP_TYPA s = f_typa f /\
        kernel_ok root phys_bits (kern s) /\
        match MADT s, f_madt f with
        | Some t, Some pa =>
            (forall i, 0 <= i < table_size pa -> translate (tables (kern s)) root (header t + i) = Some (pa + i)) /\
            (forall x, pa_free (virt k) x <-> pa_free (virt (kern s)) x \/ area (t, pa) x)
        | None, None => forall x, pa_free (virt k) x <-> pa_free (virt (kern s)) x
        | _, _ => False
        end
  | Panic => run = Panic
  | OutOfFuel => False
  end.
Proof.
  intros Hok Hlo Hwp Hsup Hroom run.
  assert (Hk : kernel_at (pa_free (virt k)) [] (3 * (1 + page_switches 0 (ebda_window rom) + page_switches 0 bios_window) +
    3 * Z.to_nat acpi_pages) (4096 * acpi_pages) k).
  { split; try done; [by rewrite <- Nat.mul_add_distr_l|]. intros x. rewrite Exists_nil. tauto. }
  destruct (detect_acpi_spec _ _ _ _ _ _ _ eq_refl eq_refl Hk) as (k1 & E1 & Hk1).
  unfold run, Acpi.init. rewrite (bind_done _ _ _ _ _ (on_kern_done _ _ (mkAcpi k None None None) _ E1)). simpl.
  destruct (rsdp rom) as [r|] eqn:Er; [|unfold acpi_tables; by rewrite Er].
  cbn [found_at unwrap_res]. rewrite (bind_lift_done _ _ r) by done.
  set (s1 := mkAcpi k1 None None None).
  assert (Ha : acpi_at (pa_free (virt k)) [] (3 * Z.to_nat acpi_pages + 0) (4096 * acpi_pages)
    (mkFound None None None) s1) by (split; try done; by rewrite Nat.add_0_r).
  pose proof (init_tables_spec _ _ r s1 Er (Hwp r eq_refl) Ha) as Hi.
  destruct (acpi_tables rom) as [f| |] eqn:Et; simpl in Hi; [|exact Hi|].
  2: { unfold acpi_tables in Et. rewrite Er in Et. by apply acpi_entries_total in Et. }
  destruct Hi as (s2 & E2 & Ha2). exists s2. destruct Ha2 as [K1 K2 K3 K4]. unfold madt_area in K1.
  split_and!; [exact E2|done|done|apply K1|].
  destruct (MADT s2) as [t|], (f_madt f) as [pa|]; try done; simpl in K1.
  - split.
    + intros i Hi. pose proof (ka_areas _ _ _ _ _ K1) as HF. inversion_clear HF as [|? ? Hb _].
      pose proof (page_offset_range pa). unfold covers in K2. cbn [fst snd] in K2.
      pose proof (ar_header _ _ Hb) as Eh. cbn [fst snd] in Eh.
      destruct (ar_walk _ _ Hb (header t + i)) as [-> _]; [unfold area; cbn [fst snd]; lia|].
      cbn [fst snd]. f_equal. lia.
    + intros x. rewrite (ka_free _ _ _ _ _ K1). rewrite Exists_cons, Exists_nil. tauto.
  - intros x. rewrite (ka_free _ _ _ _ _ K1), Exists_nil. tauto.
Qed.

End mapped.

(** ** An example *)

(** A table with a valid checksum. *)
Definition sdt (name : string) (body : list Z) : list Z :=
  let raw c := (text name ++ le_bytes 4 (36 + Z.of_nat (base.length body)) ++ [1; c] ++ text "HERMIT" ++
                text "SAMPLE00" ++ replicate 12 0 ++ body)%list in
  raw ((- sum_bytes (raw 0)) mod 256).

Definition sample_segments : list (Z * list Z) :=
  let rsdp c := (text "RSD PTR " ++ [c] ++ text "HERMIT" ++ [0] ++ le_bytes 4 0x300000)%list in
  [(0xE0010, rsdp ((- sum_bytes (rsdp 0)) mod 256));
   (0x300000, sdt "RSDT" (le_bytes 4 0x300100 ++ le_bytes 4 0x300FF0));
   (0x300100, sdt "FACP" (le_bytes 4 0 ++ le_bytes 4 0x300500 ++ replicate 20 0 ++ le_bytes 4 0x604 ++ replicate 48 0));
   (0x300500, sdt "DSDT" sample_aml);
   (0x300FF0, sdt "APIC" (le_bytes 4 0xFEE00000 ++ le_bytes 4 1))].

Definition rom_of (segments : list (Z * list Z)) (a : Z) : Z :=
  foldr (fun s rest => if (s.1 <=? a) && (a <? s.1 + Z.of_nat (base.length s.2))
                       then nth (Z.to_nat (a - s.1)) s.2 0 mod 256 else rest) 0 segments.

Lemma rom_of_byte segments a : is_byte (rom_of segments a).
Proof.
  unfold is_byte. induction segments as [|s segments IH]; simpl; [lia|].
  destruct (_ && _); [apply Z.mod_pos_bound; lia|done].
Qed.

Definition sample_rom : Z -> Z := rom_of sample_segments.

Lemma sample_tables : acpi_tables sample_rom = Done (mkFound (Some 0x300FF0) (Some 0x604) (Some 5)).
Proof. vm_compute. reflexivity. Qed.

Section sample.

#[local] Existing Instances Mm.sample_phys Mm.sample_virt Mm.sample_phys_laws Mm.sample_virt_laws.
#[local] Instance sample_virt_room : RoomLaws VirtMem := virt_room_laws sample_end _.

(** [sample_kernel] with the first 2 MiB mapped onto themselves. *)
Definition sample_low : Kernel PhysMem VirtMem :=
  mkKernel (run_state (Paging.map sample_root 39 false BasePageSize 0 0 512 low_flags) (mmu sample_kernel))
    (virt sample_kernel).

(** The frames and bytes the tables of the example take. *)
Definition sample_frames : nat := 3 * (1 + page_switches 0 (ebda_window sample_rom) + page_switches 0 bios_window +
  Z.to_nat (acpi_pages sample_rom)).

Lemma sample_low_ok n : supply (1536 + n) (Paging.frames (mmu sample_kernel)) ->
  kernel_ok sample_root 39 sample_low /\ low_memory sample_root sample_low /\
  supply n (Paging.frames (mmu sample_low)).
Proof.
  intros Hsup.
  destruct (map_low_memory (P := PhysMem) (V := VirtMem) sample_root 39 false ltac:(lia) sample_virt_high ltac:(by vm_compute)
    sample_kernel n sample_kernel_ok) as (s' & E & H1 & H2 & H3); [|exact Hsup|].
  - intros x Hx. change (Paging.mem (mmu sample_kernel)) with (empty_tree sample_root). by apply empty_flat, lower_user.
  - assert (Es : run_state (Paging.map sample_root 39 false BasePageSize 0 0 512 low_flags) (mmu sample_kernel) = s')
      by (unfold run_state; by rewrite E).
    unfold sample_low. rewrite Es. exact (conj H1 (conj H2 H3)).
Qed.

Lemma virt_mk {P V} (s : Mmu P) (v : V) : virt (mkKernel s v) = v.
Proof. reflexivity. Qed.

Lemma sample_room_ok n : n <= kernel_heap_end - sample_end -> pa_room (virt sample_low) n.
Proof.
  intros Hn. destruct (Collections.push_value_repr FreeList.FreeList_new [] (FreeList.mkEntry sample_end kernel_heap_end)
    Collections.list_repr_empty) as (L & E & HR).
  unfold sample_low. rewrite virt_mk. change (list_room (KERNEL_FREE_LIST (virt sample_kernel)) n).
  assert (KERNEL_FREE_LIST (virt sample_kernel) = L) as -> by (vm_compute in E; injection E as <-; by vm_compute).
  eexists. split; [exact HR|]. right. constructor. exact Hn.
Qed.

Lemma sample_well_placed r : rsdp sample_rom = Some r -> well_placed sample_rom 39 r.
Proof.
  assert (E : rsdp sample_rom = Some 0xE0010) by (vm_compute; reflexivity). rewrite E. intros [= <-].
  split; [|by vm_compute|by vm_compute].
  assert (Hall : forallb (fun pa => (0 <=? pa) && (pa - page_offset pa + mapped_length sample_rom pa <=? 2 ^ 39))
    (all_tables sample_rom 0xE0010) = true) by (vm_compute; reflexivity).
  apply Forall_forall. intros pa Hpa. rewrite forallb_forall in Hall.
  specialize (Hall pa (proj1 (list_elem_of_In _ _) Hpa)).
  apply andb_prop in Hall as [H1%Z.leb_le H2%Z.leb_le]. by split.
Qed.

Lemma acpi_init_correct_witness :
  exists s, Acpi.init sample_root 39 false 0x800000 sample_rom (mkAcpi sample_low None None None) = Done (tt, s) /\
    PM1A_CNT_BLK s = Some 0x604 /\ SLP_TYPA s = Some 5 /\
    exists t, MADT s = Some t /\ translate (Paging.mem (mmu (kern s))) sample_root (header t + 9) = Some 0x300FF9.
Proof.
  assert (Hsup : supply (1536 + sample_frames) (Paging.frames (mmu sample_kernel)))
    by (apply supply_test_ok; vm_compute; reflexivity).
  destruct (sample_low_ok sample_frames Hsup) as (H1 & H2 & H3).
  assert (Hroom : 4096 * acpi_pages sample_rom <= kernel_heap_end - sample_end) by (vm_compute; discriminate).
  pose proof (acpi_init_correct (P := PhysMem) (V := VirtMem) sample_root 39 false 0x800000 sample_rom ltac:(lia) sample_virt_high
    ltac:(by vm_compute) ltac:(lia) (rom_of_byte sample_segments) sample_low H1 H2 sample_well_placed H3
    (sample_room_ok _ Hroom)) as H.
  cbv zeta in H. rewrite sample_tables in H. destruct H as (s & E & Ep & Et & _ & Hm). exists s.
  split; [exact E|]. split; [exact Ep|]. split; [exact Et|].
  destruct (MADT s) as [t|]; [|destruct Hm]. exists t. split; [reflexivity|]. destruct Hm as [Hm _].
  apply (Hm 9). assert (Hts : table_size sample_rom 0x300FF0 = 44) by (vm_compute; reflexivity). rewrite Hts. lia.
Defined.

End sample.
