(* ===== verification/Irq.v ===== *)
(** * Interrupts: src/arch/x86_64/kernel/idt.rs, irq.rs, pic.rs and pit.rs

    The interrupt descriptor table and what [install] puts into it, what the handlers do,
    and the legacy interrupt controllers and timer, of which [hardware] gives the value of
    a port after the accesses so far. *)

From Stdlib Require Import ZArith Lia.
From stdpp Require Import base numbers list.
From S2P Require Import Prelude Bytes.

#[local] Open Scope Z_scope.

(** ** Gates: idt.rs *)

Record IdtEntry := mkEntry {
  base_lo : Z;
  selector : Z;
  ist_index : Z;
  flags : Z;
  base_hi : Z;
  reserved1 : Z
}.

Inductive GateType := InterruptGate | TrapGate.

Definition pack (ty : GateType) : Z := match ty with InterruptGate => 0xE | TrapGate => 0xF end.

Definition MISSING : IdtEntry := mkEntry 0 0 0 0 0 0.

Definition IdtEntry_new (handler gdt_code_selector dpl : Z) (ty : GateType) (ist : Z) : outcome IdtEntry :=
  let? _ := oassert (ist <? 8) in
  Done (mkEntry (Z.land handler 0xFFFF mod 2 ^ 16) gdt_code_selector ist
          (Z.lor (Z.lor dpl (pack ty)) (Z.shiftl 1 7)) (Z.shiftr handler 16) 0).

Definition IDT_ENTRIES : nat := 256.

(** The entry in memory: the struct is packed. *)
Definition entry_bytes (e : IdtEntry) : list Z :=
  le_bytes 2 (base_lo e) ++ le_bytes 2 (selector e) ++ le_bytes 1 (ist_index e) ++ le_bytes 1 (flags e) ++
  le_bytes 8 (base_hi e) ++ le_bytes 2 (reserved1 e).

(** How the processor reads the 16 bytes of a gate: the handler, the code segment and the
    entry of the interrupt stack table, if it is a present interrupt gate. *)
Definition gate (d : list Z) : option (Z * Z * Z) :=
  if Z.land (default 0 (d !! 5%nat)) 0x9F =? 0x8E then
    Some (le (take 2 d ++ take 2 (drop 6 d) ++ take 4 (drop 8 d)), le (take 2 (drop 2 d)), Z.land (default 0 (d !! 4%nat)) 7)
  else None.

(** ** The handlers of irq.rs, pic.rs, paging.rs and processor.rs *)

Inductive Handler :=
  | divide_error_exception | debug_exception | nmi_exception | breakpoint_exception | overflow_exception
  | bound_range_exceeded_exception | invalid_opcode_exception | device_not_available_exception
  | double_fault_exception | coprocessor_segment_overrun_exception | invalid_tss_exception
  | segment_not_present_exception | stack_segment_fault_exception | general_protection_exception
  | page_fault_handler | reserved_exception | floating_point_exception | alignment_check_exception
  | machine_check_exception | simd_floating_point_exception | virtualization_exception
  | unhandled_interrupt (irq_number : Z)
  | unknown_interrupt
  | spurious_interrupt_on_master
  | spurious_interrupt_on_slave
  | measure_frequency_timer_handler.

Inductive action :=
  | Clts          (* CR0.TS is cleared *)
  | FpuSwitch     (* core_scheduler().fpu_switch() *)
  | Abort         (* scheduler::abort() *)
  | ApicEoi       (* apic::eoi() *)
  | CountTick     (* MEASUREMENT_TIMER_TICKS += 1 *)
  | OutPort (port v : Z).

Definition PIC1_COMMAND_PORT : Z := 0x20.
Definition PIC1_DATA_PORT : Z := 0x21.
Definition PIC2_COMMAND_PORT : Z := 0xA0.
Definition PIC2_DATA_PORT : Z := 0xA1.
Definition PIC1_INTERRUPT_OFFSET : Z := 32.
Definition PIC2_INTERRUPT_OFFSET : Z := 40.
Definition SPURIOUS_IRQ_NUMBER : Z := 7.
Definition PIC_EOI_COMMAND : Z := 0x20.

(** [pic::eoi], the writes *)
Definition eoi_ports (int_no : Z) : list (Z * Z) :=
  (if 40 <=? int_no then [(PIC2_COMMAND_PORT, PIC_EOI_COMMAND)] else []) ++ [(PIC1_COMMAND_PORT, PIC_EOI_COMMAND)].

Definition PIT_INTERRUPT_NUMBER : Z := PIC1_INTERRUPT_OFFSET + 0.

(** What a handler does, messages apart. *)
Definition runs (h : Handler) : list action :=
  match h with
  | device_not_available_exception => [Clts; FpuSwitch]
  | unhandled_interrupt _ | unknown_interrupt => [ApicEoi]
  | spurious_interrupt_on_master => []
  | spurious_interrupt_on_slave => [OutPort PIC1_COMMAND_PORT PIC_EOI_COMMAND]
  | measure_frequency_timer_handler => CountTick :: ((fun p => OutPort p.1 p.2) <$> eoi_ports PIT_INTERRUPT_NUMBER)
  | _ => [Abort]
  end.

(** Whether the handler is declared with an error code. *)
Definition declares_error_code (h : Handler) : bool :=
  match h with
  | double_fault_exception | stack_segment_fault_exception | general_protection_exception | page_fault_handler => true
  | _ => false
  end.

(** ** The state *)

Inductive port_event := Out (port v : Z) | In (port : Z).

(** [IDTP] and [idtr] are whether they refer to [IDT]; [interrupts] is the flag IF. *)
Record Interrupts := mkInterrupts {
  IDT : list IdtEntry;
  IDT_INIT : bool;
  IDTP : bool;
  idtr : bool;
  interrupts : bool;
  port_events : list port_event
}.

Section irq.

(** Where the handlers are, and the devices behind the ports. *)
Context (handler_address : Handler -> Z) (hardware : list port_event -> Z -> Z).

Abbreviation Run := (M Interrupts).

Definition with_IDT (t : list IdtEntry) (s : Interrupts) : Interrupts :=
  mkInterrupts t (IDT_INIT s) (IDTP s) (idtr s) (interrupts s) (port_events s).
Definition with_interrupts (f : bool) (s : Interrupts) : Interrupts :=
  mkInterrupts (IDT s) (IDT_INIT s) (IDTP s) (idtr s) f (port_events s).
Definition with_ports (l : list port_event) (s : Interrupts) : Interrupts :=
  mkInterrupts (IDT s) (IDT_INIT s) (IDTP s) (idtr s) (interrupts s) l.

Definition outb (port v : Z) : Run unit := modify (fun s => with_ports (port_events s ++ [Out port v]) s).

Definition inb (port : Z) : Run Z :=
  let! h := gets port_events in
  modify (with_ports (h ++ [In port])) ;;;
  ret (hardware h port mod 256).

(** *** idt.rs *)

(** [SegmentSelector::new(gdt::GDT_KERNEL_CODE, Ring::Ring0)] *)
Definition kernel_code : Z := Z.lor (Z.shiftl 1 3) 0.

Definition idt_install : Run unit :=
  modify (fun s => mkInterrupts (IDT s) true (if IDT_INIT s then IDTP s else true)
                     (if IDT_INIT s then IDTP s else true) (interrupts s) (port_events s)).

(** [index] is a byte. *)
Definition set_gate (index handler ist : Z) : Run unit :=
  let! entry := lift (IdtEntry_new handler kernel_code 0 InterruptGate ist) in
  let! t := gets IDT in
  massert (bool_decide (Z.to_nat index < length t)%nat) ;;;
  modify (with_IDT (<[Z.to_nat index := entry]> t)).

(** *** irq.rs *)

Definition enable : Run unit := modify (with_interrupts true).
Definition disable : Run unit := modify (with_interrupts false).

Definition nested_disable : Run bool :=
  let! was_enabled := gets interrupts in
  disable ;;;
  ret was_enabled.

Definition nested_enable (was_enabled : bool) : Run unit :=
  if was_enabled then enable else ret tt.

(** The gates [install] sets one by one. *)
Definition installed_gates : list (Z * Handler * Z) :=
  [(0, divide_error_exception, 0); (1, debug_exception, 0); (2, nmi_exception, 1); (3, breakpoint_exception, 0);
   (4, overflow_exception, 0); (5, bound_range_exceeded_exception, 0); (6, invalid_opcode_exception, 0);
   (7, device_not_available_exception, 0); (8, double_fault_exception, 2);
   (9, coprocessor_segment_overrun_exception, 0); (10, invalid_tss_exception, 0);
   (11, segment_not_present_exception, 0); (12, stack_segment_fault_exception, 0); (13, general_protection_exception, 0);
   (14, page_fault_handler, 0); (15, reserved_exception, 0); (16, floating_point_exception, 0);
   (17, alignment_check_exception, 0); (18, machine_check_exception, 3); (19, simd_floating_point_exception, 0);
   (20, virtualization_exception, 0); (21, reserved_exception, 0); (22, reserved_exception, 0);
   (23, reserved_exception, 0); (24, reserved_exception, 0); (25, reserved_exception, 0); (26, reserved_exception, 0);
   (27, reserved_exception, 0); (28, reserved_exception, 0); (29, reserved_exception, 0); (30, reserved_exception, 0);
   (31, reserved_exception, 0);
   (32, unhandled_interrupt 0, 0); (33, unhandled_interrupt 1, 0); (34, unhandled_interrupt 2, 0);
   (35, unhandled_interrupt 3, 0); (36, unhandled_interrupt 4, 0); (37, unhandled_interrupt 5, 0);
   (38, unhandled_interrupt 6, 0); (39, unhandled_interrupt 7, 0); (40, unhandled_interrupt 8, 0);
   (41, unhandled_interrupt 9, 0); (42, unhandled_interrupt 10, 0); (43, unhandled_interrupt 11, 0);
   (44, unhandled_interrupt 12, 0); (45, unhandled_interrupt 13, 0); (46, unhandled_interrupt 14, 0);
   (47, unhandled_interrupt 15, 0); (48, unhandled_interrupt 16, 0); (49, unhandled_interrupt 17, 0);
   (50, unhandled_interrupt 18, 0); (51, unhandled_interrupt 19, 0); (52, unhandled_interrupt 20, 0);
   (53, unhandled_interrupt 21, 0); (54, unhandled_interrupt 22, 0); (55, unhandled_interrupt 23, 0);
   (56, unhandled_interrupt 24, 0); (57, unhandled_interrupt 25, 0); (58, unhandled_interrupt 26, 0);
   (59, unhandled_interrupt 27, 0); (60, unhandled_interrupt 28, 0); (61, unhandled_interrupt 29, 0);
   (62, unhandled_interrupt 30, 0); (63, unhandled_interrupt 31, 0)].

Fixpoint set_gates (l : list (Z * Handler * Z)) : Run unit :=
  match l with
  | [] => ret tt
  | (index, h, ist) :: l => set_gate index (handler_address h) ist ;;; set_gates l
  end.

(** [for i in 64..idt::IDT_ENTRIES] *)
Fixpoint set_unknown (i : Z) (n : nat) : Run unit :=
  match n with
  | O => ret tt
  | S n => set_gate (i mod 256) (handler_address unknown_interrupt) 0 ;;; set_unknown (i + 1) n
  end.

Definition install : Run unit :=
  set_gates installed_gates ;;;
  set_unknown 64 (IDT_ENTRIES - 64).

Definition irq_install_handler (irq_number handler : Z) : Run unit :=
  massert (32 + irq_number <? 2 ^ 32) ;;;
  set_gate ((32 + irq_number) mod 256) handler 0.

(** *** pic.rs *)

Fixpoint out_all (l : list (Z * Z)) : Run unit :=
  match l with
  | [] => ret tt
  | (port, v) :: l => outb port v ;;; out_all l
  end.

Definition pic_eoi (int_no : Z) : Run unit := out_all (eoi_ports int_no).

Definition pic_init : Run unit :=
  set_gate (PIC1_INTERRUPT_OFFSET + SPURIOUS_IRQ_NUMBER) (handler_address spurious_interrupt_on_master) 0 ;;;
  set_gate (PIC2_INTERRUPT_OFFSET + SPURIOUS_IRQ_NUMBER) (handler_address spurious_interrupt_on_slave) 0 ;;;
  out_all [(PIC1_COMMAND_PORT, 0x11); (PIC2_COMMAND_PORT, 0x11);
           (PIC1_DATA_PORT, PIC1_INTERRUPT_OFFSET); (PIC2_DATA_PORT, PIC2_INTERRUPT_OFFSET);
           (PIC1_DATA_PORT, 0x04); (PIC2_DATA_PORT, 0x02);
           (PIC1_DATA_PORT, 0x01); (PIC2_DATA_PORT, 0x01);
           (PIC1_DATA_PORT, 0xFF); (PIC2_DATA_PORT, 0xFF)].

(** The subtraction and the shift are on bytes and are checked. *)
Definition edit_mask (int_no : Z) (insert : bool) : Run unit :=
  let port := if 40 <=? int_no then PIC2_DATA_PORT else PIC1_DATA_PORT in
  let offset := if 40 <=? int_no then 40 else 32 in
  let! mask := inb port in
  massert (offset <=? int_no) ;;;
  massert (int_no - offset <? 8) ;;;
  let bit := Z.shiftl 1 (int_no - offset) in
  if insert then outb port (Z.lor mask bit) else outb port (Z.land mask (Z.lxor bit 0xFF)).

Definition mask (int_no : Z) : Run unit := edit_mask int_no true.
Definition unmask (int_no : Z) : Run unit := edit_mask int_no false.

(** *** pit.rs *)

Definition PIT_CLOCK : Z := 1193182.
Definition PIT_CHANNEL0_DATA_PORT : Z := 0x40.
Definition PIT_COMMAND_PORT : Z := 0x43.
Definition PIT_BINARY_OUTPUT : Z := 0x00.
Definition PIT_RATE_GENERATOR_MODE : Z := 0x04.
Definition PIT_LOBYTE_ACCESS : Z := 0x10.
Definition PIT_HIBYTE_ACCESS : Z := 0x20.
Definition PIT_CHANNEL0 : Z := 0x00.

Definition pit_count (frequency_in_hz : Z) : outcome Z :=
  let? sum := add64 PIT_CLOCK (frequency_in_hz / 2) in
  if frequency_in_hz =? 0 then Panic else Done (sum / frequency_in_hz).

Definition pit_init (frequency_in_hz : Z) : Run unit :=
  unmask PIT_INTERRUPT_NUMBER ;;;
  outb PIT_COMMAND_PORT (Z.lor (Z.lor (Z.lor (Z.lor PIT_BINARY_OUTPUT PIT_RATE_GENERATOR_MODE) PIT_LOBYTE_ACCESS)
    PIT_HIBYTE_ACCESS) PIT_CHANNEL0) ;;;
  let! count := lift (pit_count frequency_in_hz) in
  outb PIT_CHANNEL0_DATA_PORT (count mod 256) ;;;
  outb PIT_CHANNEL0_DATA_PORT (Z.shiftr count 8 mod 256).

Definition pit_deinit : Run unit := mask PIT_INTERRUPT_NUMBER.

End irq.

(** ** Correctness *)

(** *** Gates *)

Lemma le_bytes_split n k x : le_bytes (n + k) x = le_bytes n x ++ le_bytes k (x / 256 ^ Z.of_nat n).
Proof.
  revert x. induction n as [|n IH]; intros x; [by rewrite Z.div_1_r|]. cbn [Nat.add le_bytes app]. rewrite IH.
  do 2 f_equal. rewrite pow256_succ, Z.div_div by (try apply Z.pow_pos_nonneg; lia). done.
Qed.

(** The gate of [set_gate] is read by the processor as it was meant. *)
Lemma gate_new handler ist :
  in_u64 handler -> 0 <= ist < 8 ->
  exists e, IdtEntry_new handler kernel_code 0 InterruptGate ist = Done e /\ gate (entry_bytes e) = Some (handler, 8, ist).
Proof.
  intros Hh Hi. unfold IdtEntry_new. rewrite (proj2 (Z.ltb_lt ist 8)) by lia. cbn [oassert obind].
  eexists. split; [reflexivity|]. unfold gate, entry_bytes. cbn [base_lo selector ist_index flags base_hi reserved1].
  change (Z.lor (Z.lor 0 (pack InterruptGate)) (Z.shiftl 1 7)) with 0x8E. change kernel_code with 8.
  change (Z.land handler 0xFFFF) with (Z.land handler (Z.ones 16)). rewrite Z.land_ones, Z.mod_mod by lia.
  rewrite Z.shiftr_div_pow2 by lia.
  assert (E8 : le_bytes 8 handler = le_bytes 2 (handler mod 2 ^ 16) ++ take 6 (le_bytes 8 (handler / 2 ^ 16))).
  { rewrite (le_bytes_split 2 6). change (256 ^ Z.of_nat 2) with (2 ^ 16). f_equal.
    cbn [le_bytes]. change (2 ^ 16) with (256 * 256). f_equal; [|f_equal].
    - rewrite Z.rem_mul_r by lia. rewrite Z.mul_comm, Z.mod_add, Z.mod_mod by lia. done.
    - rewrite Z.rem_mul_r by lia. rewrite (Z.mul_comm 256 (handler / 256 mod 256)), Z.div_add by lia.
      rewrite (Z.div_small (handler mod 256)) by (apply Z.mod_pos_bound; lia). rewrite Z.add_0_l, Z.mod_mod by lia. done. }
  cbn [le_bytes app take drop lookup list_lookup default] in *.
  change (Z.land (0x8E mod 256) 0x9F =? 0x8E) with true. cbv iota. do 3 f_equal.
  - rewrite <- E8. change (le (le_bytes 8 handler) = handler). apply le_le_bytes. exact Hh.
  - rewrite Z.mod_small by lia. change 7 with (Z.ones 3). rewrite Z.land_ones by lia. by apply Z.mod_small.
Qed.

(** *** The table *)

(** An entry is empty or a gate into the kernel's code. *)
Definition entry_ok (e : IdtEntry) : Prop :=
  e = MISSING \/ exists h ist, in_u64 h /\ 0 <= ist < 8 /\ gate (entry_bytes e) = Some (h, 8, ist).

Definition table_ok (t : list IdtEntry) : Prop := length t = IDT_ENTRIES /\ Forall entry_ok t.

(** Which handler a vector has after [install], and on which entry of the interrupt stack table. *)
Definition handler_of (v : Z) : Handler :=
  if 64 <=? v then unknown_interrupt
  else if 32 <=? v then unhandled_interrupt (v - 32)
  else default reserved_exception
    ([divide_error_exception; debug_exception; nmi_exception; breakpoint_exception; overflow_exception;
      bound_range_exceeded_exception; invalid_opcode_exception; device_not_available_exception; double_fault_exception;
      coprocessor_segment_overrun_exception; invalid_tss_exception; segment_not_present_exception;
      stack_segment_fault_exception; general_protection_exception; page_fault_handler; reserved_exception;
      floating_point_exception; alignment_check_exception; machine_check_exception; simd_floating_point_exception;
      virtualization_exception] !! Z.to_nat v).

Definition ist_of (v : Z) : Z := if v =? 2 then 1 else if v =? 8 then 2 else if v =? 18 then 3 else 0.

Section table.

Context (handler_address : Handler -> Z) (hardware : list port_event -> Z -> Z).
Context (addresses : forall h, in_u64 (handler_address h)).

Implicit Types (s : Interrupts).

(** The entry of a gate. *)
Definition entry_is (h ist : Z) (o : option IdtEntry) : Prop :=
  exists e, o = Some e /\ gate (entry_bytes e) = Some (h, 8, ist).

Lemma set_gate_run s index h ist {A} (k : M Interrupts A) :
  table_ok (IDT s) -> 0 <= index < 256 -> in_u64 h -> 0 <= ist < 8 ->
  exists t, (set_gate index h ist ;;; k) s = k (with_IDT t s) /\ table_ok t /\ entry_is h ist (t !! Z.to_nat index) /\
    forall j, j <> Z.to_nat index -> t !! j = IDT s !! j.
Proof.
  intros [Hl Hf] Hi Hh Hist. destruct (gate_new h ist Hh Hist) as (e & Ee & Eg).
  assert (Hlt : (Z.to_nat index < length (IDT s))%nat) by (rewrite Hl; unfold IDT_ENTRIES; lia).
  exists (<[Z.to_nat index := e]> (IDT s)). split_and!.
  - unfold set_gate. rewrite bind_assoc, (bind_lift_done _ _ _ _ Ee), bind_assoc, bind_gets, bind_assoc.
    rewrite bind_massert by (by apply bool_decide_eq_true). done.
  - split; [by rewrite length_insert|]. apply Forall_insert; [done|]. right. by exists h, ist.
  - exists e. split; [by apply list_lookup_insert_eq|done].
  - intros j Hj. by apply list_lookup_insert_ne.
Qed.

(** The gates for [n] vectors from [start] on, set in order. *)
Definition gates_from (start n : nat) : list (Z * Handler * Z) :=
  (fun i => (Z.of_nat i, handler_of (Z.of_nat i), ist_of (Z.of_nat i))) <$> seq start n.

Lemma installed_gates_from : installed_gates = gates_from 0 64.
Proof. reflexivity. Qed.

Lemma ist_of_range v : 0 <= ist_of v < 8.
Proof. unfold ist_of. repeat destruct (_ =? _); lia. Qed.

(** What setting them does. *)
Definition installs (start n : nat) (o : M Interrupts unit) : Prop :=
  forall s, table_ok (IDT s) -> exists t, o s = Done (tt, with_IDT t s) /\ table_ok t /\
    forall j, if decide (start <= j < start + n)%nat
              then entry_is (handler_address (handler_of (Z.of_nat j))) (ist_of (Z.of_nat j)) (t !! j)
              else t !! j = IDT s !! j.

Lemma installs_none start : installs start 0 (ret tt).
Proof.
  intros s Ht. exists (IDT s). split_and!; [unfold ret; by destruct s|done|]. intros j.
  rewrite decide_False by lia. done.
Qed.

Lemma installs_step start n index h ist k :
  (start < 256)%nat -> index = Z.of_nat start -> h = handler_address (handler_of index) -> ist = ist_of index ->
  installs (S start) n k -> installs start (S n) (set_gate index h ist ;;; k).
Proof.
  intros Hs -> -> -> Hk s Ht.
  destruct (set_gate_run s (Z.of_nat start) (handler_address (handler_of (Z.of_nat start))) (ist_of (Z.of_nat start)) k Ht)
    as (t & E & Ht1 & He & Ho); [lia|apply addresses|apply ist_of_range|].
  destruct (Hk (with_IDT t s) Ht1) as (t2 & E2 & Ht2 & H2). exists t2. split_and!; [by rewrite E, E2|done|].
  rewrite Nat2Z.id in He, Ho. intros j. specialize (H2 j).
  destruct (decide (j = start)) as [->|Hne].
  - rewrite decide_False in H2 by lia. rewrite decide_True by lia. by rewrite H2.
  - destruct (decide (S start <= j < S start + n)%nat) as [Hj|Hj].
    + by rewrite decide_True by lia.
    + rewrite decide_False by lia. rewrite H2. by apply Ho.
Qed.

Lemma installs_gates start n : (start + n <= 256)%nat -> installs start n (set_gates handler_address (gates_from start n)).
Proof.
  revert start. induction n as [|n IH]; intros start Hn; [apply installs_none|]. unfold gates_from. cbn [seq fmap list_fmap set_gates].
  apply installs_step; [lia|done..|]. apply IH. lia.
Qed.

Lemma installs_unknown start n :
  (64 <= start)%nat -> (start + n <= 256)%nat -> installs start n (set_unknown handler_address (Z.of_nat start) n).
Proof.
  revert start. induction n as [|n IH]; intros start Hs Hn; [apply installs_none|]. cbn [set_unknown].
  assert (Em : Z.of_nat start mod 256 = Z.of_nat start) by (apply Z.mod_small; lia). rewrite Em.
  apply installs_step; [lia|done|..].
  - unfold handler_of. by rewrite (proj2 (Z.leb_le 64 (Z.of_nat start))) by lia.
  - unfold ist_of. rewrite (proj2 (Z.eqb_neq (Z.of_nat start) 2)), (proj2 (Z.eqb_neq (Z.of_nat start) 8)), (proj2 (Z.eqb_neq (Z.of_nat start) 18)) by lia. done.
  - replace (Z.of_nat start + 1) with (Z.of_nat (S start)) by lia. apply IH; lia.
Qed.

Lemma installs_bind start n k o1 o2 :
  installs start n o1 -> installs (start + n) k o2 -> installs start (n + k) (o1 ;;; o2).
Proof.
  intros H1 H2 s Ht. destruct (H1 s Ht) as (t1 & E1 & Ht1 & L1). destruct (H2 (with_IDT t1 s) Ht1) as (t2 & E2 & Ht2 & L2).
  exists t2. split_and!; [by rewrite (bind_done _ _ _ _ _ E1), E2|done|]. intros j. specialize (L1 j). specialize (L2 j).
  destruct (decide (start <= j < start + n)%nat) as [Hj|Hj]; [|destruct (decide (start + n <= j < start + n + k)%nat) as [Hj2|Hj2]].
  - rewrite decide_False in L2 by lia. rewrite decide_True by lia. by rewrite L2.
  - by rewrite decide_True by lia.
  - rewrite decide_False by lia. by rewrite L2.
Qed.

Lemma install_run : installs 0 256 (install handler_address).
Proof.
  unfold install. rewrite installed_gates_from. apply (installs_bind 0 64 192).
  - by apply installs_gates, le_S_n, Nat.leb_le.
  - apply (installs_unknown 64 192); by apply Nat.leb_le.
Qed.

(** The entry of the interrupt stack table that the comment on [install] gives each
    exception: all have IST1, the stack of the task, but for those that get a stack
    of their own, IST2 to IST4. *)
Definition documented_ist (v : Z) : Z := if v =? 2 then 2 else if v =? 8 then 3 else if v =? 18 then 4 else 1.

(** C33. After [install] each of the 256 vectors has a present interrupt gate into the
    kernel's code whose handler, as the processor puts it together from the parts of
    the entry, is the vector's. The stack is another than the comment on [install]
    says: the gate of every exception selects the entry of the interrupt stack table
    before the documented one. So the exceptions that were to run on IST1 stay on the
    interrupted stack - an entry of 0 switches no stack - and the non-maskable
    interrupt, the double fault and the machine check run on IST1, IST2 and IST3; the
    gates of the other vectors switch no stack. *)
Theorem install_correct s :
  table_ok (IDT s) -> exists s', install handler_address s = Done (tt, s') /\ port_events s' = port_events s /\
    forall v, 0 <= v < 256 -> exists e, IDT s' !! Z.to_nat v = Some e /\
      gate (entry_bytes e) = Some (handler_address (handler_of v), 8, if v <? 32 then documented_ist v - 1 else 0).
Proof.
  intros Ht. destruct (install_run s Ht) as (t & E & _ & L). eexists. split_and!; [exact E|done|]. intros v Hv.
  specialize (L (Z.to_nat v)). rewrite decide_True, Z2Nat.id in L by lia. destruct L as (e & El & Eg). exists e.
  split; [exact El|]. rewrite Eg. do 2 f_equal. unfold ist_of, documented_ist.
  destruct (Z.eqb_spec v 2) as [->|]; [done|]. destruct (Z.eqb_spec v 8) as [->|]; [done|].
  destruct (Z.eqb_spec v 18) as [->|]; [done|]. by destruct (v <? 32).
Qed.

(** *** The type of the table *)

(** What changes the table: [set_gate], which apic.rs, processor.rs and others call too,
    [irq_install_handler] of the drivers, [install] and [pic::init]. *)
Inductive IdtOp :=
  | SetGate (index handler ist : Z)
  | InstallHandler (irq_number handler : Z)
  | Install
  | PicInit.

Definition run_op (o : IdtOp) : M Interrupts unit :=
  match o with
  | SetGate index h ist => set_gate index h ist
  | InstallHandler n h => irq_install_handler n h
  | Install => install handler_address
  | PicInit => pic_init handler_address
  end.

(** The types of the arguments, and the assertion of [IdtEntry::new]. *)
Definition op_ok (o : IdtOp) : Prop :=
  match o with
  | SetGate index h ist => 0 <= index < 256 /\ in_u64 h /\ 0 <= ist < 8
  | InstallHandler n h => 0 <= n /\ 32 + n < 2 ^ 32 /\ in_u64 h
  | _ => True
  end.

Fixpoint run_ops (l : list IdtOp) : M Interrupts unit :=
  match l with
  | [] => ret tt
  | o :: l => run_op o ;;; run_ops l
  end.

Lemma out_all_run l s : out_all l s = Done (tt, with_ports (port_events s ++ ((fun p => Out p.1 p.2) <$> l)) s).
Proof.
  revert s. induction l as [|[port v] l IH]; intros s.
  - unfold ret, with_ports. cbn. rewrite app_nil_r. by destruct s.
  - cbn [out_all]. unfold outb. rewrite bind_modify, IH. unfold with_ports. cbn. by rewrite <- (assoc_L app).
Qed.

Lemma set_gate_done s index h ist :
  table_ok (IDT s) -> 0 <= index < 256 -> in_u64 h -> 0 <= ist < 8 ->
  exists s', set_gate index h ist s = Done (tt, s') /\ table_ok (IDT s').
Proof.
  intros Ht Hi Hh Hist. destruct (set_gate_run s index h ist (ret tt) Ht Hi Hh Hist) as (t & E & Ht' & _).
  exists (with_IDT t s). split; [|done]. etransitivity; [|exact E]. unfold bind, ret. by destruct (set_gate index h ist s) as [[[] ?]| |].
Qed.

Lemma run_op_ok o s : table_ok (IDT s) -> op_ok o -> exists s', run_op o s = Done (tt, s') /\ table_ok (IDT s').
Proof.
  intros Ht Ho. destruct o as [index h ist|n h| |]; cbn [run_op op_ok] in *.
  - destruct Ho as (H1 & H2 & H3). by apply set_gate_done.
  - destruct Ho as (H1 & H2 & H3). unfold irq_install_handler. rewrite bind_massert by (by apply Z.ltb_lt).
    apply set_gate_done; [done|by apply Z.mod_pos_bound|done|lia].
  - destruct (install_run s Ht) as (t & E & Ht' & _). by exists (with_IDT t s).
  - unfold pic_init.
    destruct (set_gate_run s (PIC1_INTERRUPT_OFFSET + SPURIOUS_IRQ_NUMBER) (handler_address spurious_interrupt_on_master) 0
      (set_gate (PIC2_INTERRUPT_OFFSET + SPURIOUS_IRQ_NUMBER) (handler_address spurious_interrupt_on_slave) 0 ;;;
       out_all [(PIC1_COMMAND_PORT, 0x11); (PIC2_COMMAND_PORT, 0x11);
           (PIC1_DATA_PORT, PIC1_INTERRUPT_OFFSET); (PIC2_DATA_PORT, PIC2_INTERRUPT_OFFSET);
           (PIC1_DATA_PORT, 0x04); (PIC2_DATA_PORT, 0x02);
           (PIC1_DATA_PORT, 0x01); (PIC2_DATA_PORT, 0x01);
           (PIC1_DATA_PORT, 0xFF); (PIC2_DATA_PORT, 0xFF)]) Ht) as (t & E & Ht1 & _); [by vm_compute|apply addresses|by vm_compute|].
    rewrite E. destruct (set_gate_done (with_IDT t s) (PIC2_INTERRUPT_OFFSET + SPURIOUS_IRQ_NUMBER)
      (handler_address spurious_interrupt_on_slave) 0 Ht1) as (s2 & E2 & Ht2); [by vm_compute|apply addresses|by vm_compute|].
    rewrite (bind_done _ _ _ _ _ E2), out_all_run. eexists. split; [reflexivity|exact Ht2].
Qed.

(** C34. The interrupt descriptor table is well typed: from the empty table on, whatever
    sequence of gates is set, handlers installed and tables initialised, nothing aborts, and
    each of the 256 entries is empty or is read by the processor as a present interrupt gate
    into the kernel's code with a 64-bit handler and an entry of the interrupt stack table
    below 8. *)
Theorem idt_well_typed ops s :
  IDT s = replicate IDT_ENTRIES MISSING -> Forall op_ok ops ->
  exists s', run_ops ops s = Done (tt, s') /\ length (IDT s') = IDT_ENTRIES /\
    Forall (fun e => e = MISSING \/ exists h ist, in_u64 h /\ 0 <= ist < 8 /\ gate (entry_bytes e) = Some (h, 8, ist)) (IDT s').
Proof.
  intros Hs Ho. assert (Ht : table_ok (IDT s)).
  { rewrite Hs. split; [done|]. apply Forall_replicate. by left. }
  clear Hs. revert s Ht. induction Ho as [|o ops Ho _ IH]; intros s Ht.
  - exists s. split; [done|]. exact Ht.
  - destruct (run_op_ok o s Ht Ho) as (s1 & E1 & Ht1). destruct (IH s1 Ht1) as (s2 & E2 & Ht2). exists s2.
    split; [|exact Ht2]. cbn [run_ops]. by rewrite (bind_done _ _ _ _ _ E1).
Qed.

(** The number of an interrupt is cut to a byte: a driver that installs a handler for the
    interrupts 224 to 255 replaces the one of an exception. *)
Lemma irq_install_handler_wraps s n h :
  table_ok (IDT s) -> 224 <= n < 256 -> in_u64 h ->
  exists s', irq_install_handler n h s = Done (tt, s') /\ entry_is h 0 (IDT s' !! Z.to_nat (n - 224)).
Proof.
  intros Ht Hn Hh. unfold irq_install_handler. rewrite bind_massert by (apply Z.ltb_lt; lia).
  replace (32 + n) with (n - 224 + 1 * 256) by lia. rewrite Z.mod_add, Z.mod_small by lia.
  destruct (set_gate_run s (n - 224) h 0 (ret tt) Ht ltac:(lia) Hh ltac:(lia)) as (t & E & _ & He & _).
  exists (with_IDT t s). split; [|exact He]. etransitivity; [|exact E]. unfold bind, ret. by destruct (set_gate _ h 0 s) as [[[] ?]| |].
Qed.

(** The exceptions for which the processor pushes an error code. *)
Definition pushes_error_code (v : Z) : bool := bool_decide (v ∈ [8; 10; 11; 12; 13; 14; 17]).

(** Three handlers lack it. *)
Lemma error_codes_missing v :
  0 <= v < 32 -> declares_error_code (handler_of v) = pushes_error_code v && negb (bool_decide (v ∈ [10; 11; 17])).
Proof.
  intros Hv. assert (Hin : v ∈ (Z.of_nat <$> seq 0 32)).
  { apply list_elem_of_fmap. exists (Z.to_nat v). split; [lia|]. apply elem_of_seq. lia. }
  clear Hv. revert v Hin. apply Forall_forall. repeat (constructor; [reflexivity|]). constructor.
Qed.

(** *** The legacy controllers and timer *)

(** [mask] and [unmask] write back what was read with exactly the bit of the interrupt changed. *)
Theorem edit_mask_correct int_no insert s :
  32 <= int_no < 48 ->
  exists v, edit_mask hardware int_no insert s =
      Done (tt, with_ports (port_events s ++ [In (if 40 <=? int_no then 0xA1 else 0x21); Out (if 40 <=? int_no then 0xA1 else 0x21) v]) s) /\
    0 <= v < 256 /\
    forall i, 0 <= i < 8 -> Z.testbit v i = if i =? (int_no - 32) mod 8 then insert
                                            else Z.testbit (hardware (port_events s) (if 40 <=? int_no then 0xA1 else 0x21)) i.
Proof.
  intros Hi. set (port := if 40 <=? int_no then 0xA1 else 0x21). set (off := if 40 <=? int_no then 40 else 32).
  set (m := hardware (port_events s) port mod 256).
  assert (Hoff : off <= int_no < off + 8 /\ (int_no - 32) mod 8 = int_no - off).
  { unfold off. destruct (Z.leb_spec 40 int_no); Z.div_mod_to_equations; lia. }
  destruct Hoff as [Hoff Em]. rewrite Em. set (b := int_no - off). assert (Hb : 0 <= b < 8) by lia.
  assert (Hm : forall i, 0 <= i < 8 -> Z.testbit m i = Z.testbit (hardware (port_events s) port) i).
  { intros i Hi'. unfold m. change 256 with (2 ^ 8). apply Z.mod_pow2_bits_low. lia. }
  assert (Hmr : 0 <= m < 2 ^ 8) by (unfold m; apply Z.mod_pos_bound; lia).
  assert (Hbits : forall i, 8 <= i -> Z.testbit m i = false).
  { intros i Hi'. rewrite <- (Z.mod_small m (2 ^ 8)) by done. apply Z.mod_pow2_bits_high. lia. }
  exists (if insert then Z.lor m (Z.shiftl 1 b) else Z.land m (Z.lxor (Z.shiftl 1 b) 0xFF)). split_and!.
  - unfold edit_mask. change (if 40 <=? int_no then PIC2_DATA_PORT else PIC1_DATA_PORT) with port. fold off.
    unfold inb. rewrite bind_assoc, bind_gets, bind_assoc, bind_modify, bind_ret. fold m.
    rewrite !bind_massert by ((apply Z.leb_le || apply Z.ltb_lt); lia).
    destruct insert; unfold outb, modify, with_ports; cbn; by rewrite <- (assoc_L app).
  - destruct insert; [apply Z.lor_nonneg; split; [lia|apply Z.shiftl_nonneg; lia]|apply Z.land_nonneg; left; lia].
  - change 256 with (2 ^ 8). destruct insert; apply testbit_bound; try lia.
    + apply Z.lor_nonneg. split; [lia|apply Z.shiftl_nonneg; lia].
    + intros n Hn. rewrite Z.lor_spec, Hbits by done. rewrite Z.shiftl_1_l, Z.pow2_bits_eqb by lia. cbn. apply Z.eqb_neq. lia.
    + apply Z.land_nonneg. left. lia.
    + intros n Hn. by rewrite Z.land_spec, Hbits.
  - intros i Hi'. rewrite <- Hm by done. rewrite Z.eqb_sym. destruct insert.
    + rewrite Z.lor_spec, Z.shiftl_1_l, Z.pow2_bits_eqb by lia. destruct (b =? i); [apply orb_true_r|apply orb_false_r].
    + rewrite Z.land_spec, Z.lxor_spec, Z.shiftl_1_l, Z.pow2_bits_eqb by lia. change 0xFF with (Z.ones 8).
      rewrite Z.testbit_ones_nonneg by lia. rewrite (proj2 (Z.ltb_lt i 8)) by lia. destruct (b =? i); [apply andb_false_r|apply andb_true_r].
Qed.

(** Other interrupts are not of the controllers: the byte arithmetic is checked. *)
Lemma edit_mask_panics int_no insert s : ~ 32 <= int_no < 48 -> edit_mask hardware int_no insert s = Panic.
Proof.
  intros Hi. unfold edit_mask, inb. rewrite bind_assoc, bind_gets, bind_assoc, bind_modify, bind_ret.
  destruct (Z.leb_spec 40 int_no).
  - rewrite bind_massert by (apply Z.leb_le; lia). unfold bind, massert, lift, oassert.
    by rewrite (proj2 (Z.ltb_ge (int_no - 40) 8)) by lia.
  - unfold bind at 1, massert, lift, oassert. by rewrite (proj2 (Z.leb_gt 32 int_no)) by lia.
Qed.

(** The reload value is the rounded quotient, and the two bytes sent are all of it, for
    frequencies from 19 Hz on; below, its upper bits are lost. *)
Theorem pit_count_correct f :
  19 <= f < 2 ^ 63 ->
  exists c, pit_count f = Done c /\ c mod 256 + 256 * (Z.shiftr c 8 mod 256) = c /\ - f <= 2 * (c * f - PIT_CLOCK) <= f.
Proof.
  intros Hf. unfold pit_count. assert (Hd : 0 <= f / 2 < 2 ^ 62) by (change (2 ^ 63) with (2 * 2 ^ 62) in Hf; Z.div_mod_to_equations; lia).
  rewrite add64_done by (unfold PIT_CLOCK, W64; lia). cbn [obind]. rewrite (proj2 (Z.eqb_neq f 0)) by lia.
  exists ((PIT_CLOCK + f / 2) / f). split; [done|].
  pose proof (Z.div_mod (PIT_CLOCK + f / 2) f ltac:(lia)) as E. pose proof (Z.mod_pos_bound (PIT_CLOCK + f / 2) f ltac:(lia)) as Hr.
  pose proof (Z.div_mod f 2 ltac:(lia)) as E2. pose proof (Z.mod_pos_bound f 2 ltac:(lia)) as Hr2.
  set (c := (PIT_CLOCK + f / 2) / f) in *.
  assert (Hc : 0 <= c < 65536).
  { split; [apply Z.div_pos; unfold PIT_CLOCK; lia|]. apply Z.div_lt_upper_bound; [lia|]. unfold PIT_CLOCK. lia. }
  split.
  - rewrite Z.shiftr_div_pow2 by lia. change (2 ^ 8) with 256. Z.div_mod_to_equations. lia.
  - lia.
Qed.

Lemma pit_count_truncates : exists c, pit_count 18 = Done c /\ c mod 256 + 256 * (Z.shiftr c 8 mod 256) <> c.
Proof. eexists. split; [reflexivity|]. vm_compute. done. Qed.

End table.

(** ** Examples *)

(** A handler every 16 bytes *)
Definition sample_address (h : Handler) : Z :=
  0x200000 + 16 * match h with unhandled_interrupt n => 32 + n mod 32 | double_fault_exception => 8 | unknown_interrupt => 64 | _ => 0 end.

Lemma sample_addresses h : in_u64 (sample_address h).
Proof. unfold sample_address, in_u64, W64. destruct h; try lia. Z.div_mod_to_equations. lia. Qed.

Definition sample_interrupts : Interrupts := mkInterrupts (replicate IDT_ENTRIES MISSING) false false false false [].

Lemma install_correct_witness :
  exists s' e, install sample_address sample_interrupts = Done (tt, s') /\ IDT s' !! 8%nat = Some e /\
    gate (entry_bytes e) = Some (0x200080, 8, 2).
Proof.
  destruct (install_correct sample_address sample_addresses sample_interrupts) as (s' & E & _ & H).
  - split; [reflexivity|]. apply Forall_replicate. by left.
  - destruct (H 8 ltac:(lia)) as (e & El & Eg). exists s', e. split; [exact E|]. split; [exact El|exact Eg].
Defined.

Lemma idt_well_typed_witness :
  exists s', run_ops sample_address [Install; PicInit; InstallHandler 11 0x300000; SetGate 112 0x300100 0] sample_interrupts = Done (tt, s') /\
    length (IDT s') = 256%nat.
Proof.
  destruct (idt_well_typed sample_address sample_addresses [Install; PicInit; InstallHandler 11 0x300000; SetGate 112 0x300100 0]
    sample_interrupts eq_refl) as (s' & E & Hl & _).
  - repeat constructor; by vm_compute.
  - exists s'. split; [exact E|exact Hl].
Defined.
