(* ===== verification/CopySafe.v ===== *)
(** * Copies of safe memory: src/arch/x86_64/kernel/copy_safe.rs

    Isolated code cannot read safe memory. What it needs of it is copied to the
    core's unsafe storage, one page of unsafe memory whose address is in
    IA32_KERNEL_GSBASE, and copied back after it was changed. Only addresses on a
    white list may be copied from and to. *)

From stdpp Require Import base numbers list gmap.
From Stdlib Require Import ZArith Lia.
From S2P Require Import Prelude Pte Mmu Paging Mm Mpk Cpu Isolation Bytes.

#[local] Open Scope Z_scope.

(** [.safe_data], the section of the variables declared with [safe_global_var!],
    begins here ([allocate_safe_data] of src/mm/mod.rs). *)
Definition safe_data_start : Z := 0x400000.

(** [SIZE] of copy_safe.rs *)
Definition SIZE : Z := 0x1000.

(** A core, the memory as bytes by virtual address, and the variables of the file. *)
Record Bay (F : Type) := mkBay {
  cpu : Machine F;
  bytes : gmap Z Z;
  LIST : list Z;
  IDX : Z;
  kernel_gsbase : Z
}.
Arguments mkBay {F} _ _ _ _ _.
Arguments cpu {F} _.
Arguments bytes {F} _.
Arguments LIST {F} _.
Arguments IDX {F} _.
Arguments kernel_gsbase {F} _.

Section copies.

Context {F : Type} `{FrameSource F}.
Context (root : Z).

Abbreviation Run := (M (Bay F)).

Definition with_cpu (m : Machine F) (b : Bay F) : Bay F := mkBay m (bytes b) (LIST b) (IDX b) (kernel_gsbase b).
Definition with_bytes (d : gmap Z Z) (b : Bay F) : Bay F := mkBay (cpu b) d (LIST b) (IDX b) (kernel_gsbase b).
Definition with_list (l : list Z) (n : Z) (b : Bay F) : Bay F := mkBay (cpu b) (bytes b) l n (kernel_gsbase b).
Definition with_gsbase (a : Z) (b : Bay F) : Bay F := mkBay (cpu b) (bytes b) (LIST b) (IDX b) a.

Definition on_cpu {A} (o : M (Machine F) A) : Run A := fun b =>
  let? (a, m) := o (cpu b) in Done (a, with_cpu m b).

(** ** Bytes of memory *)

Definition load8 (a : Z) : Run Z := fun b =>
  if permitted root (cpu b) a false then Done (default 0 (bytes b !! a), b) else Panic.

Definition store8 (a v : Z) : Run unit := fun b =>
  if permitted root (cpu b) a true then Done (tt, with_bytes (<[a := v]> (bytes b)) b) else Panic.

Fixpoint load_bytes (a : Z) (n : nat) : Run (list Z) :=
  match n with
  | O => ret []
  | S n =>
      let! v := load8 a in
      let! vs := load_bytes (a + 1) n in
      ret (v :: vs)
  end.

Fixpoint store_bytes (a : Z) (bs : list Z) : Run unit :=
  match bs with
  | [] => ret tt
  | v :: bs => store8 a v ;;; store_bytes (a + 1) bs
  end.

(** [copy_nonoverlapping] and [write_bytes] of [core::ptr], [n] counting bytes *)
Definition copy_nonoverlapping (src dst : Z) (n : nat) : Run unit :=
  let! bs := load_bytes src n in
  store_bytes dst bs.

Definition write_bytes (dst v : Z) (n : nat) : Run unit := store_bytes dst (replicate n v).

(** An access to a variable of [.safe_data]. *)
Definition safe_var (write : bool) : Run unit := fun b =>
  if permitted root (cpu b) safe_data_start write then Done (tt, b) else Panic.

(** ** The unsafe storage and the white list *)

Definition get_unsafe_storage : Run Z :=
  let! gs := gets kernel_gsbase in
  if gs =? 0 then ret 0 else ret gs.

Definition is_unsafe_storage_init : Run bool := gets (fun b => negb (kernel_gsbase b =? 0)).

Definition in_LIST (l : list Z) (addr : Z) : bool := existsb (Z.eqb addr) l.

Definition list_add (addr : Z) : Run unit :=
  safe_var false ;;;
  let! b := gets id in
  if in_LIST (LIST b) addr then ret tt
  else if 100 <=? IDX b then ret tt
  else
    safe_var true ;;;
    modify (with_list (<[Z.to_nat (IDX b) := addr]> (LIST b)) (IDX b + 1)).

(** [storage] is the block of [mm::unsafe_allocate(SIZE, true)], [gs] the GS register. *)
Definition unsafe_storage_init (storage gs : Z) : Run unit :=
  modify (with_gsbase storage) ;;;
  list_add gs.

Definition is_valid (addr : Z) : Run bool :=
  if addr =? 0 then ret false
  else
    safe_var false ;;;
    let! b := gets id in
    ret (in_LIST (LIST b) addr).

(** [copy_from_safe::<T>] and [copy_to_safe::<T>] for a [T] of [size_of_T] bytes;
    the error messages they print otherwise are left out. *)
Definition copy_from_safe (size_of_T src count : Z) : Run unit :=
  if src =? 0 then ret tt
  else if SIZE <? count then ret tt
  else
    let! valid := is_valid src in
    if valid : bool then
      let! storage := get_unsafe_storage in
      copy_nonoverlapping src storage (Z.to_nat (count * size_of_T))
    else ret tt.

Definition copy_to_safe (size_of_T dst count : Z) : Run unit :=
  if dst =? 0 then ret tt
  else if SIZE <? count then ret tt
  else
    let! valid := is_valid dst in
    if valid : bool then
      let! storage := get_unsafe_storage in
      copy_nonoverlapping storage dst (Z.to_nat (count * size_of_T))
    else ret tt.

Definition clear_unsafe_storage : Run unit :=
  let! storage := get_unsafe_storage in
  write_bytes storage 0 (Z.to_nat SIZE).

Definition clear_unsafe_storage2 (size_of_T : Z) : Run unit :=
  let! storage := get_unsafe_storage in
  write_bytes storage 0 (Z.to_nat size_of_T).

End copies.

(** ** Memory after loads and stores *)

Fixpoint bytes_at (d : gmap Z Z) (a : Z) (n : nat) : list Z :=
  match n with
  | O => []
  | S n => default 0 (d !! a) :: bytes_at d (a + 1) n
  end.

Fixpoint write_at (d : gmap Z Z) (a : Z) (bs : list Z) : gmap Z Z :=
  match bs with
  | [] => d
  | v :: bs => write_at (<[a := v]> d) (a + 1) bs
  end.

Lemma length_bytes_at d a n : length (bytes_at d a n) = n.
Proof. revert a. induction n as [|n IH]; intros a; [done|]. simpl. by rewrite IH. Qed.

Lemma bytes_at_ext d d' a n :
  (forall x, a <= x < a + Z.of_nat n -> d' !! x = d !! x) -> bytes_at d' a n = bytes_at d a n.
Proof.
  revert a. induction n as [|n IH]; intros a Hd; [done|]. cbn [bytes_at]. f_equal.
  - by rewrite Hd by lia.
  - apply IH. intros x Hx. apply Hd. lia.
Qed.

Lemma bytes_at_lookup d a n i : (i < n)%nat -> bytes_at d a n !! i = Some (default 0 (d !! (a + Z.of_nat i))).
Proof.
  revert a i. induction n as [|n IH]; intros a i Hi; [lia|]. cbn [bytes_at]. destruct i as [|i].
  - by rewrite Z.add_0_r.
  - cbn. rewrite IH by lia. do 3 f_equal. lia.
Qed.

Lemma write_at_out d a bs x : ~ a <= x < a + Z.of_nat (length bs) -> write_at d a bs !! x = d !! x.
Proof.
  revert d a. induction bs as [|v bs IH]; intros d a Hx; [done|]. cbn [write_at length] in *. rewrite IH by lia.
  apply lookup_insert_ne. lia.
Qed.

Lemma write_at_in d a bs i v : bs !! i = Some v -> write_at d a bs !! (a + Z.of_nat i) = Some v.
Proof.
  revert d a i. induction bs as [|w bs IH]; intros d a i; [done|]. destruct i as [|i]; cbn.
  - intros [= ->]. rewrite write_at_out by lia. rewrite Z.add_0_r. apply lookup_insert_eq.
  - intros E. replace (a + Z.of_nat (S i)) with (a + 1 + Z.of_nat i) by lia. by apply IH.
Qed.

(** Reading what was written. *)
Lemma bytes_at_write_at d a bs : bytes_at (write_at d a bs) a (length bs) = bs.
Proof.
  apply list_eq. intros i. destruct (decide (i < length bs)%nat) as [Hi|Hi].
  - rewrite bytes_at_lookup by done. destruct (lookup_lt_is_Some_2 bs i Hi) as [v Ev].
    by rewrite (write_at_in d a bs i v Ev), Ev.
  - by rewrite !lookup_ge_None_2 by (rewrite ?length_bytes_at; lia).
Qed.

Lemma write_at_app d a bs1 bs2 :
  write_at d a (bs1 ++ bs2) = write_at (write_at d a bs1) (a + Z.of_nat (length bs1)) bs2.
Proof.
  revert d a. induction bs1 as [|v bs1 IH]; intros d a.
  - simpl. by rewrite Z.add_0_r.
  - cbn [app write_at length]. rewrite IH. f_equal. lia.
Qed.

Lemma bytes_at_app d a n k : bytes_at d a (n + k) = bytes_at d a n ++ bytes_at d (a + Z.of_nat n) k.
Proof.
  revert a. induction n as [|n IH]; intros a.
  - simpl. by rewrite Z.add_0_r.
  - cbn [bytes_at Nat.add app]. rewrite IH. do 2 f_equal. f_equal. lia.
Qed.

(** ** Runs *)

Section runs.

Context {F : Type} `{FrameSource F}.
Context (root : Z).

Implicit Types (b : Bay F) (m : Machine F).

(** The [n] bytes from [a] on may be accessed. *)
Definition open m (a : Z) (n : nat) (write : bool) : Prop :=
  forall x, a <= x < a + Z.of_nat n -> permitted root m x write = true.

Lemma permitted_write_read m a : permitted root m a true = true -> permitted root m a false = true.
Proof.
  unfold permitted. destruct (walk _ _ _) as [[l e]|]; [|done]. intros [Hw _]%andb_prop. unfold can_write in Hw.
  by apply andb_prop in Hw as [? _].
Qed.

Lemma open_read m a n : open m a n true -> open m a n false.
Proof. intros Ho x Hx. apply permitted_write_read. by apply Ho. Qed.

Lemma open_sub m a n w c k : open m a n w -> a <= c -> c + Z.of_nat k <= a + Z.of_nat n -> open m c k w.
Proof. intros Ho H1 H2 x Hx. apply Ho. lia. Qed.

Lemma load_bytes_run b a n : open (cpu b) a n false -> load_bytes root a n b = Done (bytes_at (bytes b) a n, b).
Proof.
  revert a. induction n as [|n IH]; intros a Ho; [done|]. cbn [load_bytes bytes_at]. unfold bind at 1, load8.
  rewrite Ho by lia. cbn [obind fst snd]. rewrite (bind_done _ _ _ _ _ (IH (a + 1) ltac:(intros x Hx; apply Ho; lia))). done.
Qed.

Lemma store_bytes_run b a bs :
  open (cpu b) a (length bs) true -> store_bytes root a bs b = Done (tt, with_bytes (write_at (bytes b) a bs) b).
Proof.
  revert b a. induction bs as [|v bs IH]; intros b a Ho; cbn [store_bytes write_at length] in *; [by destruct b|].
  unfold bind, store8. rewrite Ho by lia. cbn [obind fst snd]. rewrite IH; [done|]. intros x Hx. apply Ho. lia.
Qed.

Lemma copy_run b src dst n :
  open (cpu b) src n false -> open (cpu b) dst n true ->
  copy_nonoverlapping root src dst n b = Done (tt, with_bytes (write_at (bytes b) dst (bytes_at (bytes b) src n)) b).
Proof.
  intros Hs Hd. unfold copy_nonoverlapping. rewrite (bind_done _ _ _ _ _ (load_bytes_run b src n Hs)).
  apply store_bytes_run. by rewrite length_bytes_at.
Qed.

Lemma safe_var_run b w : permitted root (cpu b) safe_data_start w = true -> safe_var root w b = Done (tt, b).
Proof. intros Hp. unfold safe_var. by rewrite Hp. Qed.

Lemma get_unsafe_storage_run b {A} (k : Z -> M (Bay F) A) : bind get_unsafe_storage k b = k (kernel_gsbase b) b.
Proof.
  unfold get_unsafe_storage. rewrite bind_assoc, bind_gets. destruct (Z.eqb_spec (kernel_gsbase b) 0) as [->|]; done.
Qed.

(** The addresses that may be copied. *)
Definition valid b (addr : Z) : bool := negb (addr =? 0) && in_LIST (LIST b) addr.

Lemma is_valid_run b addr {A} (k : bool -> M (Bay F) A) :
  permitted root (cpu b) safe_data_start false = true -> bind (is_valid root addr) k b = k (valid b addr) b.
Proof.
  intros Hp. unfold is_valid, valid. destruct (addr =? 0); [done|]. unfold bind. by rewrite safe_var_run.
Qed.

Lemma in_LIST_spec l a : in_LIST l a = true <-> a ∈ l.
Proof.
  unfold in_LIST. rewrite existsb_exists. split.
  - intros (x & Hx & ->%Z.eqb_eq). by apply list_elem_of_In.
  - intros Ha. exists a. split; [by apply list_elem_of_In|]. by apply Z.eqb_eq.
Qed.

(** *** Copies *)

Lemma copy_from_safe_run b size src count :
  permitted root (cpu b) safe_data_start false = true -> valid b src = true -> count <= SIZE ->
  open (cpu b) src (Z.to_nat (count * size)) false -> open (cpu b) (kernel_gsbase b) (Z.to_nat (count * size)) true ->
  copy_from_safe root size src count b =
    Done (tt, with_bytes (write_at (bytes b) (kernel_gsbase b) (bytes_at (bytes b) src (Z.to_nat (count * size)))) b).
Proof.
  intros Hp Hv Hc Hs Hd. unfold copy_from_safe. assert (Hn : src =? 0 = false).
  { unfold valid in Hv. by destruct (src =? 0). }
  rewrite Hn. destruct (Z.ltb_spec SIZE count); [lia|]. rewrite is_valid_run, Hv, get_unsafe_storage_run by done.
  by apply copy_run.
Qed.

Lemma copy_to_safe_run b size dst count :
  permitted root (cpu b) safe_data_start false = true -> valid b dst = true -> count <= SIZE ->
  open (cpu b) (kernel_gsbase b) (Z.to_nat (count * size)) false -> open (cpu b) dst (Z.to_nat (count * size)) true ->
  copy_to_safe root size dst count b =
    Done (tt, with_bytes (write_at (bytes b) dst (bytes_at (bytes b) (kernel_gsbase b) (Z.to_nat (count * size)))) b).
Proof.
  intros Hp Hv Hc Hs Hd. unfold copy_to_safe. assert (Hn : dst =? 0 = false).
  { unfold valid in Hv. by destruct (dst =? 0). }
  rewrite Hn. destruct (Z.ltb_spec SIZE count); [lia|]. rewrite is_valid_run, Hv, get_unsafe_storage_run by done.
  by apply copy_run.
Qed.

(** Without an entry in the white list nothing is copied. *)
Lemma copy_from_safe_refused b size src count :
  permitted root (cpu b) safe_data_start false = true -> valid b src = false ->
  copy_from_safe root size src count b = Done (tt, b).
Proof.
  intros Hp Hv. unfold copy_from_safe. destruct (src =? 0); [done|]. destruct (SIZE <? count); [done|].
  by rewrite is_valid_run, Hv.
Qed.

Lemma copy_to_safe_refused b size dst count :
  permitted root (cpu b) safe_data_start false = true -> valid b dst = false ->
  copy_to_safe root size dst count b = Done (tt, b).
Proof.
  intros Hp Hv. unfold copy_to_safe. destruct (dst =? 0); [done|]. destruct (SIZE <? count); [done|].
  by rewrite is_valid_run, Hv.
Qed.

Lemma clear_unsafe_storage_run b :
  open (cpu b) (kernel_gsbase b) (Z.to_nat SIZE) true ->
  exists zeros, Z.of_nat (length zeros) = SIZE /\ (forall i, 0 <= i < SIZE -> zeros !! Z.to_nat i = Some 0) /\
    clear_unsafe_storage root b = Done (tt, with_bytes (write_at (bytes b) (kernel_gsbase b) zeros) b).
Proof.
  intros Ho. exists (replicate (Z.to_nat SIZE) 0). split_and!.
  - rewrite length_replicate. apply Z2Nat.id. done.
  - intros i Hi. apply lookup_replicate_2. lia.
  - unfold clear_unsafe_storage. rewrite get_unsafe_storage_run. apply store_bytes_run. by rewrite length_replicate.
Qed.

End runs.

#[export] Hint Resolve open_read : core.

(** ** The white list *)

(** The elements of a list in the order of their first occurrences. *)
Definition nubs (l : list Z) : list Z :=
  fold_left (fun s a => if bool_decide (a ∈ s) then s else s ++ [a]) l [].

Lemma nubs_snoc l a : nubs (l ++ [a]) = if bool_decide (a ∈ nubs l) then nubs l else nubs l ++ [a].
Proof. unfold nubs. by rewrite fold_left_app. Qed.

Lemma nubs_nodup l : NoDup (nubs l).
Proof.
  induction l as [|a l IH] using rev_ind; [constructor|]. rewrite nubs_snoc. case_bool_decide; [done|].
  apply NoDup_app. split_and!; [done| |apply NoDup_singleton]. intros x Hx ->%list_elem_of_singleton. done.
Qed.

Lemma elem_of_nubs l a : a ∈ nubs l <-> a ∈ l.
Proof.
  induction l as [|b l IH] using rev_ind; [done|]. rewrite nubs_snoc, elem_of_app, list_elem_of_singleton.
  case_bool_decide as Hb; [|rewrite elem_of_app, list_elem_of_singleton; tauto].
  split; [tauto|]. intros [Ha| ->]; [by apply IH|done].
Qed.

(** The addresses on the list after adding those of [l]: the first hundred different ones. *)
Definition whitelist (l : list Z) : list Z := take 100 (nubs (filter (fun a => a <> 0) l)).

Section whitelist.

Context {F : Type} `{FrameSource F}.
Context (root : Z).

Implicit Types (b : Bay F).

Fixpoint add_all (l : list Z) : M (Bay F) unit :=
  match l with
  | [] => ret tt
  | a :: l => list_add root a ;;; add_all l
  end.

(** [LIST] and [IDX] hold the addresses [w]. *)
Record holds (w : list Z) b : Prop := {
  ho_list : LIST b = w ++ replicate (100 - length w) 0;
  ho_idx : IDX b = Z.of_nat (length w);
  ho_nonzero : 0 ∉ w;
  ho_length : (length w <= 100)%nat
}.

Lemma holds_in w b a : holds w b -> a <> 0 -> in_LIST (LIST b) a = true <-> a ∈ w.
Proof.
  intros [L _ _ _] Ha. rewrite in_LIST_spec, L, elem_of_app. split; [|tauto]. intros [?|Hr]; [done|].
  by apply elem_of_replicate in Hr as [-> _].
Qed.

Lemma holds_valid w b a : holds w b -> valid b a = bool_decide (a <> 0 /\ a ∈ w).
Proof.
  intros Hw. unfold valid. destruct (Z.eqb_spec a 0) as [->|Ha]; cbn [negb andb].
  - by rewrite bool_decide_false by tauto.
  - pose proof (holds_in w b a Hw Ha) as Hi. destruct (in_LIST (LIST b) a); symmetry.
    + apply bool_decide_eq_true. split; [done|]. by apply Hi.
    + apply bool_decide_eq_false. intros [_ ?%Hi]. done.
Qed.

Definition list_usable b : Prop :=
  permitted root (cpu b) safe_data_start true = true.

Lemma list_add_spec w b a :
  holds w b -> list_usable b ->
  exists b', list_add root a b = Done (tt, b') /\ cpu b' = cpu b /\ bytes b' = bytes b /\ kernel_gsbase b' = kernel_gsbase b /\
    holds (if bool_decide (a = 0 \/ a ∈ w \/ (100 <= length w)%nat) then w else w ++ [a]) b'.
Proof.
  intros Hw Hu. unfold list_add. rewrite (bind_done _ _ _ _ _ (safe_var_run root b false (permitted_write_read _ _ _ Hu))).
  rewrite bind_gets. cbn [id]. pose proof (ho_length _ _ Hw) as Hlen.
  destruct (in_LIST (LIST b) a) eqn:Ei.
  - exists b. split_and!; try done. rewrite bool_decide_true; [done|]. destruct (decide (a = 0)); [by left|].
    right. left. by apply (holds_in w b a).
  - destruct (Z.leb_spec 100 (IDX b)) as [Hi|Hi]; rewrite (ho_idx _ _ Hw) in Hi.
    + exists b. split_and!; try done. rewrite bool_decide_true; [done|]. right. right. lia.
    + rewrite (bind_done _ _ _ _ _ (safe_var_run root b true Hu)). eexists. split_and!; [reflexivity|done..|].
      assert (Hn : ~ (a = 0 \/ a ∈ w \/ (100 <= length w)%nat)).
      { assert (Hz : a ∉ LIST b) by (intros ?%in_LIST_spec; congruence). rewrite (ho_list _ _ Hw) in Hz.
        intros [-> |[Ha|Ha]]; [|apply Hz, elem_of_app; by left|lia].
        apply Hz, elem_of_app. right. apply elem_of_replicate. split; [done|lia]. }
      rewrite bool_decide_false by done. destruct Hw as [L I Z0 _]. split; rewrite ?length_app; cbn [LIST IDX length with_list].
      * rewrite I, L, Nat2Z.id, insert_app_r_alt, Nat.sub_diag by done.
        replace (100 - length w)%nat with (S (100 - (length w + 1))) by lia. cbn. by rewrite <- (assoc_L app).
      * lia.
      * intros [?|Ha%list_elem_of_singleton]%elem_of_app; [done|]. apply Hn. by left.
      * lia.
Qed.

Lemma whitelist_snoc l a :
  whitelist (l ++ [a]) = if bool_decide (a = 0 \/ a ∈ whitelist l \/ (100 <= length (whitelist l))%nat)
                         then whitelist l else whitelist l ++ [a].
Proof.
  unfold whitelist. rewrite filter_app. set (n := nubs (filter _ l)). destruct (decide (a = 0)) as [Ha|Ha].
  - rewrite filter_cons_False by tauto. rewrite filter_nil, app_nil_r. by rewrite bool_decide_true by tauto.
  - rewrite filter_cons_True by done. rewrite filter_nil, nubs_snoc. fold n.
    destruct (decide (100 <= length n)%nat) as [Hl|Hl].
    + rewrite (bool_decide_true (a = 0 \/ _)) by (right; right; rewrite length_take; lia).
      case_bool_decide; [done|]. by rewrite take_app_le by lia.
    + rewrite !(take_ge n) by lia. case_bool_decide as Hm.
      * rewrite bool_decide_true by tauto. by apply take_ge; lia.
      * rewrite bool_decide_false by (intros [?|[?|?]]; tauto || lia).
        apply take_ge. rewrite length_app. simpl. lia.
Qed.

(** The white list is a set of at most a hundred addresses that only grows:
    after any sequence of [list_add] exactly the first hundred different addresses
    other than 0 can be copied, whatever comes later is refused, and 0 is never accepted. *)
Theorem whitelist_refines l b a :
  LIST b = replicate 100 0 -> IDX b = 0 -> list_usable b ->
  exists b', add_all l b = Done (tt, b') /\
    is_valid root a b' = Done (bool_decide (a <> 0 /\ a ∈ whitelist l), b') /\
    cpu b' = cpu b /\ bytes b' = bytes b.
Proof.
  intros Hl Hi Hu.
  assert (Hr : exists b', add_all l b = Done (tt, b') /\ cpu b' = cpu b /\ bytes b' = bytes b /\ holds (whitelist l) b').
  { induction l as [|c l IH] using rev_ind.
    - exists b. split_and!; try done. split; [by rewrite Hl|by rewrite Hi| |by apply Nat.le_0_l]. by apply not_elem_of_nil.
    - destruct IH as (b1 & E1 & C1 & D1 & W1).
      destruct (list_add_spec (whitelist l) b1 c W1) as (b2 & E2 & C2 & D2 & _ & W2); [unfold list_usable; by rewrite C1|].
      exists b2. split_and!; [|congruence..|by rewrite whitelist_snoc].
      assert (Ea : forall l1 l2 s, add_all (l1 ++ l2) s = (add_all l1 ;;; add_all l2) s).
      { intros l1. induction l1 as [|x l1 IH1]; intros l2 s; [done|]. cbn [app add_all]. rewrite bind_assoc.
        apply bind_cong. intros u s'. apply IH1. }
      rewrite Ea, (bind_done _ _ _ _ _ E1). cbn [add_all]. by rewrite (bind_done _ _ _ _ _ E2). }
  destruct Hr as (b' & E & C & D & W). exists b'. split_and!; try done.
  assert (Hp : permitted root (cpu b') safe_data_start false = true)
    by (rewrite C; by apply permitted_write_read).
  rewrite <- (holds_valid _ _ a W). unfold is_valid, valid. destruct (a =? 0); [done|].
  by rewrite (bind_done _ _ _ _ _ (safe_var_run root b' false Hp)).
Qed.

End whitelist.

(** The size check counts elements: with elements of more than a byte a copy that is
    accepted reaches past the page of the storage. *)
Lemma copy_from_safe_overruns {F} `{FrameSource F} root (b : Bay F) size src count :
  permitted root (cpu b) safe_data_start false = true -> valid b src = true -> count <= SIZE ->
  open root (cpu b) src (Z.to_nat (count * size)) false -> open root (cpu b) (kernel_gsbase b) (Z.to_nat (count * size)) true ->
  SIZE < count * size ->
  exists b', copy_from_safe root size src count b = Done (tt, b') /\
    bytes b' !! (kernel_gsbase b + SIZE) = Some (default 0 (bytes b !! (src + SIZE))).
Proof.
  intros Hp Hv Hc Hs Hd Hn. eexists. split; [by apply copy_from_safe_run|]. cbn [bytes with_bytes].
  assert (Es : SIZE = 4096) by done. assert (Hi : (Z.to_nat SIZE < Z.to_nat (count * size))%nat) by lia.
  pose proof (bytes_at_lookup (bytes b) src _ _ Hi) as E. apply (write_at_in (bytes b) (kernel_gsbase b)) in E.
  by rewrite Z2Nat.id in E by done.
Qed.

(** ** Examples *)

Section sample.

#[local] Existing Instance Paging.bump_source.

Definition sample_space : Mmu Z :=
  run_state (map sample_root 39 false BasePageSize safe_data_start 0x800000 1 (pkey 1 (writable 0))) sample.

Definition sample_bay : Bay Z :=
  mkBay (mkMachine sample_regs 0x202 0 0 0 ∅ (mkCore 0 sample_space) sample_task) ∅ (replicate 100 0) 0 0x10001000.

Lemma whitelist_refines_witness :
  exists b', add_all sample_root [0x5000; 0; 0x6000; 0x5000] sample_bay = Done (tt, b') /\
    is_valid sample_root 0x6000 b' = Done (true, b') /\ is_valid sample_root 0x7000 b' = Done (false, b').
Proof.
  assert (Hu : list_usable sample_root sample_bay) by (vm_compute; reflexivity).
  destruct (whitelist_refines sample_root [0x5000; 0; 0x6000; 0x5000] sample_bay 0x6000 eq_refl eq_refl Hu)
    as (b1 & E1 & V1 & _).
  destruct (whitelist_refines sample_root [0x5000; 0; 0x6000; 0x5000] sample_bay 0x7000 eq_refl eq_refl Hu)
    as (b2 & E2 & V2 & _).
  rewrite E1 in E2. injection E2 as <-. exists b1. split_and!; [exact E1|exact V1|exact V2].
Defined.

End sample.
