(* ===== verification/Storage.v ===== *)
(** * Objects of safe memory and their copies in the unsafe storage

    What src/arch/x86_64/kernel/mod.rs, percore.rs and others do with an object of safe
    memory that isolated code needs: copy it to the storage, use the copy inside an
    isolated part, copy it back if it was changed, and clear the storage. *)

From Stdlib Require Import ZArith Lia.
From stdpp Require Import base numbers list gmap.
From S2P Require Import Prelude Pte Mmu Paging Mm Mpk Cpu Isolation Bytes CopySafe.

#[local] Open Scope Z_scope.

Section objects.

Context {F : Type} `{FrameSource F}.

(** The object of [size] bytes at [obj]. *)
Context {root obj size : Z}.

Implicit Types (b : Bay F) (m : Machine F).

(** Memory the isolated code may use: it is writable and not safe memory. *)
Definition unsafe_open m (a : Z) (n : nat) : Prop :=
  forall x, a <= x < a + Z.of_nat n -> permitted root m x true = true /\ page_key root m x <> Some Mm.SAFE_MEM_REGION.

(** The core runs kernel code with access to safe memory, it has an unsafe storage,
    and the object is on the white list, fits the storage and is apart from it. *)
Record object_ready b : Prop := {
  br_pkru : in_u32 (pkru_of (cpu b));
  br_safe : perm_of (pkru_of (cpu b)) Mm.SAFE_MEM_REGION = MpkRw;
  br_vars : permitted root (cpu b) safe_data_start false = true;
  br_storage : kernel_gsbase b <> 0 /\ unsafe_open (cpu b) (kernel_gsbase b) (Z.to_nat SIZE);
  br_valid : valid b obj = true;
  br_boot : open root (cpu b) obj (Z.to_nat size) true;
  br_apart : obj + size <= kernel_gsbase b \/ kernel_gsbase b + SIZE <= obj;
  br_size : 0 <= size <= SIZE
}.

Lemma unsafe_open_open m a n : unsafe_open m a n -> open root m a n true.
Proof. intros Ho x Hx. by apply Ho. Qed.

Lemma permitted_gated m m1 sp a w :
  gated m m1 sp (isolated_pkru (pkru_of m)) -> permitted root m a true = true ->
  page_key root m a <> Some Mm.SAFE_MEM_REGION -> permitted root m1 a w = true.
Proof.
  intros G. unfold permitted, page_key. rewrite (gt_mmu _ _ _ _ G), (gt_pkru _ _ _ _ G).
  destruct (walk _ _ _) as [[l e]|]; [|done]. intros [Hw Hb]%andb_prop Hk.
  rewrite can_write_perm in Hw. apply bool_decide_eq_true in Hw.
  assert (Hn : perm_of (isolated_pkru (pkru_of m)) (pkey_of e) = MpkRw).
  { rewrite isolated_perm by apply pkey_of_range. rewrite decide_False; [done|]. intros E. apply Hk. simpl. by rewrite E. }
  destruct w; [by rewrite can_write_perm, Hn, Hb|by rewrite can_read_perm, Hn].
Qed.

Lemma unsafe_open_gated m m1 sp a n w :
  gated m m1 sp (isolated_pkru (pkru_of m)) -> unsafe_open m a n -> open root m1 a n w.
Proof. intros G Ho x Hx. destruct (Ho x Hx). by eapply permitted_gated. Qed.

(** The gates on a core with its memory. *)
Lemma bay_start b :
  in_u32 (pkru_of (cpu b)) -> exists m1, on_cpu isolation_start b = Done (tt, with_cpu m1 b) /\
    gated (cpu b) m1 (regs (cpu b) RSP) (isolated_pkru (pkru_of (cpu b))).
Proof.
  intros Hp. destruct (isolation_start_spec (cpu b) Hp) as (m1 & E & G). exists m1. split; [|done].
  unfold on_cpu. by rewrite E.
Qed.

Lemma bay_end b m1 b1 :
  object_ready b -> gated (cpu b) m1 (regs (cpu b) RSP) (isolated_pkru (pkru_of (cpu b))) -> cpu b1 = m1 ->
  exists m2, on_cpu isolation_end b1 = Done (tt, with_cpu m2 b1) /\ gated (cpu b) m2 (regs (cpu b) RSP) (pkru_of (cpu b)).
Proof.
  intros R G <-. destruct (isolation_end_spec (cpu b1)) as (m2 & E & G2).
  { rewrite (gt_pkru _ _ _ _ G). apply isolated_pkru_u32, R. }
  exists m2. split; [unfold on_cpu; by rewrite E|].
  rewrite (gt_pkru _ _ _ _ G), restored_isolated in G2 by apply R. rewrite (gt_sp _ _ _ _ G) in G2.
  by eapply gated_trans.
Qed.

(** After the gates the core is as before. *)
Lemma permitted_same m m1 sp a w : gated m m1 sp (pkru_of m) -> permitted root m1 a w = permitted root m a w.
Proof. intros G. unfold permitted. by rewrite (gt_mmu _ _ _ _ G), (gt_pkru _ _ _ _ G). Qed.

Lemma open_same m m1 sp a n w : gated m m1 sp (pkru_of m) -> open root m a n w -> open root m1 a n w.
Proof. intros G Ho x Hx. rewrite (permitted_same _ _ _ _ _ G). by apply Ho. Qed.

(** *** Parts of a copy *)

Lemma bytes_at_sub d a (off n N : nat) :
  (off + n <= N)%nat -> bytes_at d (a + Z.of_nat off) n = take n (drop off (bytes_at d a N)).
Proof.
  intros Hn. replace N with (off + (n + (N - off - n)))%nat by lia. rewrite !bytes_at_app.
  rewrite drop_app_length', take_app_length' by (rewrite length_bytes_at; lia). done.
Qed.

Lemma bytes_at_copy d src dst (off n N : nat) :
  (off + n <= N)%nat ->
  bytes_at (write_at d dst (bytes_at d src N)) (dst + Z.of_nat off) n = bytes_at d (src + Z.of_nat off) n.
Proof.
  intros Hn. rewrite (bytes_at_sub _ dst off n N), (bytes_at_sub _ src off n N) by done. do 2 f_equal.
  rewrite <- (length_bytes_at d src N) at 2. apply bytes_at_write_at.
Qed.

(** What is in the storage of [b]: nothing. *)
Definition cleared b (d d' : gmap Z Z) : Prop :=
  (forall x, kernel_gsbase b <= x < kernel_gsbase b + SIZE -> d' !! x = Some 0) /\
  (forall x, ~ kernel_gsbase b <= x < kernel_gsbase b + SIZE -> d' !! x = d !! x).

Lemma clear_spec b m2 d2 d :
  object_ready b -> gated (cpu b) m2 (regs (cpu b) RSP) (pkru_of (cpu b)) ->
  (forall x, ~ kernel_gsbase b <= x < kernel_gsbase b + SIZE -> d2 !! x = d !! x) ->
  exists d', clear_unsafe_storage root (with_cpu m2 (with_bytes d2 b)) = Done (tt, with_cpu m2 (with_bytes d' b)) /\
    cleared b d d'.
Proof.
  intros R G Hd. destruct (br_storage _ R) as [Hnz Ho].
  destruct (clear_unsafe_storage_run root (with_cpu m2 (with_bytes d2 b))) as (zeros & Hl & Hz & E).
  { eapply open_same; [exact G|by apply unsafe_open_open]. }
  exists (write_at d2 (kernel_gsbase b) zeros). split; [exact E|]. split.
  - intros x Hx. replace x with (kernel_gsbase b + Z.of_nat (Z.to_nat (x - kernel_gsbase b))) by lia.
    apply write_at_in, Hz. lia.
  - intros x Hx. rewrite write_at_out by (rewrite Hl; lia). by apply Hd.
Qed.

(** The copy at the beginning of an isolated part. *)
Definition copied b : gmap Z Z :=
  write_at (bytes b) (kernel_gsbase b) (bytes_at (bytes b) obj (Z.to_nat size)).

Lemma copy_in_run b :
  object_ready b -> copy_from_safe root size obj 1 b = Done (tt, with_bytes (copied b) b).
Proof.
  intros [R1 R2 R3 [R4 R5] R6 R7 R8 R9]. assert (Es : SIZE = 4096) by done.
  assert (Hc : 1 * size = size) by lia. assert (H1 : 1 <= SIZE) by lia.
  unfold copied. rewrite <- Hc at 2. apply copy_from_safe_run; [done|done|done|rewrite Hc; by apply open_read|rewrite Hc].
  eapply open_sub; [by apply unsafe_open_open|lia|lia].
Qed.

Lemma copied_out b :
  object_ready b -> forall x, ~ kernel_gsbase b <= x < kernel_gsbase b + SIZE -> copied b !! x = bytes b !! x.
Proof. intros R x Hx. pose proof (br_size _ R). apply write_at_out. rewrite length_bytes_at. lia. Qed.

Lemma copied_bytes b (off n : nat) :
  Z.of_nat off + Z.of_nat n <= size ->
  bytes_at (copied b) (kernel_gsbase b + Z.of_nat off) n = bytes_at (bytes b) (obj + Z.of_nat off) n.
Proof. intros Hn. apply bytes_at_copy. lia. Qed.

Lemma storage_part b m1 off n w :
  object_ready b -> gated (cpu b) m1 (regs (cpu b) RSP) (isolated_pkru (pkru_of (cpu b))) ->
  0 <= off -> off + Z.of_nat n <= size -> open root m1 (kernel_gsbase b + off) n w.
Proof.
  intros R G H0 H1. destruct (br_storage _ R) as [_ Ho]. pose proof (br_size _ R).
  apply (open_sub root m1 (kernel_gsbase b) (Z.to_nat SIZE)); [by eapply unsafe_open_gated|lia|lia].
Qed.

Definition byte (d : gmap Z Z) (x : Z) : Z := default 0 (d !! x).

Lemma bytes_at_byte d d' a a' n :
  (forall i, 0 <= i < Z.of_nat n -> byte d' (a' + i) = byte d (a + i)) -> bytes_at d' a' n = bytes_at d a n.
Proof.
  revert a a'. induction n as [|n IH]; intros a a' Hd; [done|]. cbn [bytes_at]. f_equal.
  - specialize (Hd 0 ltac:(lia)). by rewrite !Z.add_0_r in Hd.
  - apply IH. intros i Hi. specialize (Hd (i + 1) ltac:(lia)).
    by replace (a' + (i + 1)) with (a' + 1 + i) in Hd by lia; replace (a + (i + 1)) with (a + 1 + i) in Hd by lia.
Qed.

Lemma byte_write_at d a d1 src n i :
  0 <= i < Z.of_nat n -> byte (write_at d a (bytes_at d1 src n)) (a + i) = byte d1 (src + i).
Proof.
  intros Hi. unfold byte. replace i with (Z.of_nat (Z.to_nat i)) by lia.
  by rewrite (write_at_in _ _ _ (Z.to_nat i) _ (bytes_at_lookup d1 src n (Z.to_nat i) ltac:(lia))).
Qed.

End objects.

Arguments object_ready {F} root obj size b.
Arguments unsafe_open {F} root m a n.
Arguments copied {F} obj size b.
Arguments permitted_same {F} root m m1 sp a w.
Arguments open_same {F} root m m1 sp a n w.
Arguments unsafe_open_gated {F} root m m1 sp a n w.
Arguments permitted_gated {F} root m m1 sp a w.
#[export] Hint Resolve unsafe_open_open : core.

(** Going through the gates and changing bytes leaves the object ready. *)
Lemma object_ready_after {F} (root obj size : Z) (b : Bay F) m d :
  object_ready root obj size b -> gated (cpu b) m (regs (cpu b) RSP) (pkru_of (cpu b)) ->
  object_ready root obj size (with_cpu m (with_bytes d b)).
Proof.
  intros [R1 R2 R3 [R4 R5] R6 R7 R8 R9] G. split; cbn [cpu with_cpu with_bytes kernel_gsbase]; rewrite ?(gt_pkru _ _ _ _ G); try done.
  - by rewrite (permitted_same root _ _ _ _ _ G).
  - split; [done|]. intros x Hx. rewrite (permitted_same root _ _ _ _ _ G). unfold page_key.
    rewrite (gt_mmu _ _ _ _ G). by apply R5.
  - by eapply open_same.
Qed.

Lemma object_ready_smaller {F} (root obj size size' : Z) (b : Bay F) :
  object_ready root obj size b -> 0 <= size' <= size -> object_ready root obj size' b.
Proof.
  intros [R1 R2 R3 R4 R5 R6 R7 R8] Hs. split; try done; [|lia|lia].
  apply (open_sub root _ obj (Z.to_nat size)); [done|lia|lia].
Qed.
