(* ===== verification/BootInfo.v ===== *)
(** * The boot information: [struct BootInfo] of src/arch/x86_64/kernel/mod.rs

    The loader leaves it in memory; the kernel reads and updates it through the
    copy in the unsafe storage. *)

From Stdlib Require Import ZArith Lia String.
From stdpp Require Import base numbers list gmap.
From S2P Require Import Prelude Pte Mmu Paging Mm Mpk Cpu Isolation Bytes CopySafe Storage.

#[local] Open Scope Z_scope.

Definition BootInfo : layout :=
  [("magic_number", 4); ("version", 4); ("base", 8); ("limit", 8); ("image_size", 8); ("tls_start", 8);
   ("tls_filesz", 8); ("tls_memsz", 8); ("current_stack_address", 8); ("current_percore_address", 8);
   ("host_logical_addr", 8); ("boot_gtod", 8); ("mb_info", 8); ("cmdline", 8); ("cmdsize", 8); ("cpu_freq", 4);
   ("boot_processor", 4); ("cpu_online", 4); ("possible_cpus", 4); ("current_boot_id", 4); ("uartport", 2);
   ("single_kernel", 1); ("uhyve", 1); ("hcip", 4); ("hcgateway", 4); ("hcmask", 4)]%string.

(** The alignment of the struct is 8. *)
Definition size_of_BootInfo : Z := align_up_val (size_of BootInfo) 8.

Section boot_info.

Context {F : Type} `{FrameSource F}.
Context (root : Z).

(** The pointer in the variable [BOOT_INFO]. *)
Context (BOOT_INFO : Z).

Abbreviation Run := (M (Bay F)).

(** [volatile_load(&( *(base as *const BootInfo)).f)] and the store *)
Definition load_field (base : Z) (f : string) : Run Z :=
  let! bs := load_bytes root (base + offset_of BootInfo f) (field BootInfo f).2 in
  ret (le bs).

Definition store_field (base : Z) (f : string) (v : Z) : Run unit :=
  store_bytes root (base + offset_of BootInfo f) (le_bytes (field BootInfo f).2 v).

Definition the_boot_info : Run Z :=
  safe_var root false ;;;
  ret BOOT_INFO.

(** The body of the functions that read a field through the unsafe storage, and of
    those that also run before there is one. *)
Definition read_copied (f : string) (unsafe_storage : Z) : Run Z :=
  let! boot_info := the_boot_info in
  copy_from_safe root size_of_BootInfo boot_info 1 ;;;
  on_cpu isolation_start ;;;
  let! v := load_field unsafe_storage f in
  on_cpu isolation_end ;;;
  clear_unsafe_storage root ;;;
  ret v.

Definition read_field (f : string) : Run Z :=
  let! unsafe_storage := get_unsafe_storage in
  if unsafe_storage =? 0 then
    let! boot_info := the_boot_info in
    load_field boot_info f
  else read_copied f unsafe_storage.

Definition get_base_address : Run Z := read_field "base".
Definition get_limit : Run Z := read_field "limit".
Definition get_tls_start : Run Z := read_field "tls_start".
Definition get_tls_filesz : Run Z := read_field "tls_filesz".
Definition get_tls_memsz : Run Z := read_field "tls_memsz".
Definition get_mbinfo : Run Z := read_field "mb_info".
Definition get_processor_count : Run Z := read_field "cpu_online".
Definition get_cmdsize : Run Z := read_field "cmdsize".
Definition get_cmdline : Run Z := read_field "cmdline".

Definition is_uhyve : Run bool :=
  let! uhyve := read_field "uhyve" in
  ret (negb (uhyve =? 0)).

Definition is_single_kernel : Run bool :=
  let! single_kernel := read_field "single_kernel" in
  ret (negb (single_kernel =? 0)).

(** The port [message_output_init] gives to [COM1]. *)
Definition uartport : Run Z := read_field "uartport".

(** The copy is made inside the isolated part. *)
Definition get_image_size : Run Z :=
  let! unsafe_storage := get_unsafe_storage in
  if unsafe_storage =? 0 then
    let! boot_info := the_boot_info in
    load_field boot_info "image_size"
  else
    on_cpu isolation_start ;;;
    let! boot_info := the_boot_info in
    copy_from_safe root size_of_BootInfo boot_info 1 ;;;
    let! image_size := load_field unsafe_storage "image_size" in
    on_cpu isolation_end ;;;
    clear_unsafe_storage root ;;;
    ret image_size.

(** An array of four bytes, read one by one. *)
Definition read_address (f : string) : Run (list Z) :=
  let! unsafe_storage := get_unsafe_storage in
  let! boot_info := the_boot_info in
  copy_from_safe root size_of_BootInfo boot_info 1 ;;;
  on_cpu isolation_start ;;;
  let! ip := load_bytes root (unsafe_storage + offset_of BootInfo f) 4 in
  on_cpu isolation_end ;;;
  clear_unsafe_storage root ;;;
  ret ip.

Definition get_ip : Run (list Z) := read_address "hcip".
Definition get_gateway : Run (list Z) := read_address "hcgateway".

(** systemtime.rs and processor.rs *)
Definition get_boot_time : Run Z :=
  let! unsafe_storage := get_unsafe_storage in
  read_copied "boot_gtod" unsafe_storage.

Definition detect_from_hypervisor : Run (option Z) :=
  let! unsafe_storage := get_unsafe_storage in
  let! cpu_freq := read_copied "cpu_freq" unsafe_storage in
  if 0 <? cpu_freq then ret (Some (cpu_freq mod 2 ^ 16)) else ret None.

(** Changing fields: the copy is changed and copied back. *)
Definition update (change : Z -> Run unit) : Run unit :=
  let! unsafe_storage := get_unsafe_storage in
  let! boot_info := the_boot_info in
  copy_from_safe root size_of_BootInfo boot_info 1 ;;;
  on_cpu isolation_start ;;;
  change unsafe_storage ;;;
  on_cpu isolation_end ;;;
  let! boot_info := the_boot_info in
  copy_to_safe root size_of_BootInfo boot_info 1 ;;;
  clear_unsafe_storage root.

(** The end of [finish_processor_init]: [atomic_xadd] of [cpu_online] *)
Definition count_processor : Run unit :=
  update (fun storage =>
    let! n := load_field storage "cpu_online" in
    store_field storage "cpu_online" ((n + 1) mod 2 ^ 32)).

(** The update in [systemtime::init] *)
Definition set_boot_time (microseconds_offset : Z) : Run unit :=
  update (fun storage => store_field storage "boot_gtod" microseconds_offset).

(** [init_next_processor_variables] of apic.rs, with the two blocks it allocates
    and the variables it builds on the stack. *)
Definition init_next_processor_variables (stack alloc_percore percore_ptr size_of_percore : Z) : Run unit :=
  list_add root alloc_percore ;;;
  list_add root percore_ptr ;;;
  copy_from_safe root size_of_percore percore_ptr 1 ;;;
  copy_to_safe root size_of_percore alloc_percore 1 ;;;
  clear_unsafe_storage root ;;;
  update (fun storage =>
    store_field storage "current_stack_address" stack ;;;
    store_field storage "current_percore_address" alloc_percore).

End boot_info.

(** ** Correctness *)

(** The boot information as an object of safe memory. *)
Abbreviation boot_ready root BOOT_INFO b := (object_ready root BOOT_INFO size_of_BootInfo b).

Section correct.

Context {F : Type} `{FrameSource F}.
Context (root BOOT_INFO : Z).

Implicit Types (b : Bay F) (m : Machine F).

Lemma boot_info_sizes : size_of_BootInfo = 152 /\ SIZE = 4096.
Proof. done. Qed.

(** A field lies in the struct. *)
Definition is_field (f : string) : Prop :=
  0 <= offset_of BootInfo f /\ offset_of BootInfo f + Z.of_nat (field BootInfo f).2 <= size_of_BootInfo.

Lemma boot_info_run b {A} (k : Z -> M (Bay F) A) :
  permitted root (cpu b) safe_data_start false = true -> bind (the_boot_info root BOOT_INFO) k b = k BOOT_INFO b.
Proof. intros Hp. unfold the_boot_info. rewrite bind_assoc, (bind_done _ _ _ _ _ (safe_var_run root b false Hp)). done. Qed.

(** The value of a field. *)
Definition field_value (d : gmap Z Z) (f : string) : Z :=
  le (bytes_at d (BOOT_INFO + offset_of BootInfo f) (field BootInfo f).2).

(** *** Reading *)

(** Reading bytes of the copy, from whatever place of the struct. *)
Lemma read_copied_bytes b off n {A} (k : list Z -> A) :
  boot_ready root BOOT_INFO b -> 0 <= off -> off + Z.of_nat n <= size_of_BootInfo ->
  exists m' d',
    (let! boot_info := the_boot_info root BOOT_INFO in
     copy_from_safe root size_of_BootInfo boot_info 1 ;;;
     on_cpu isolation_start ;;;
     let! bs := load_bytes root (kernel_gsbase b + off) n in
     on_cpu isolation_end ;;;
     clear_unsafe_storage root ;;;
     ret (k bs)) b = Done (k (bytes_at (bytes b) (BOOT_INFO + off) n), with_cpu m' (with_bytes d' b)) /\
    gated (cpu b) m' (regs (cpu b) RSP) (pkru_of (cpu b)) /\ cleared b (bytes b) d'.
Proof.
  intros R H0 H1. rewrite boot_info_run by apply R. rewrite (bind_done _ _ _ _ _ (copy_in_run b R)).
  destruct (bay_start (with_bytes (copied BOOT_INFO size_of_BootInfo b) b)) as (m1 & E1 & G1); [apply R|].
  rewrite (bind_done _ _ _ _ _ E1).
  rewrite (bind_done _ _ _ _ _ (load_bytes_run root (with_cpu m1 (with_bytes (copied BOOT_INFO size_of_BootInfo b) b)) (kernel_gsbase b + off) n
    (storage_part b m1 off n false R G1 H0 H1))).
  destruct (bay_end b m1 (with_cpu m1 (with_bytes (copied BOOT_INFO size_of_BootInfo b) b)) R G1 eq_refl) as (m2 & E2 & G2).
  rewrite (bind_done _ _ _ _ _ E2).
  destruct (clear_spec b m2 (copied BOOT_INFO size_of_BootInfo b) (bytes b) R G2 (copied_out b R)) as (d' & E3 & C).
  change (with_cpu m2 (with_cpu m1 (with_bytes (copied BOOT_INFO size_of_BootInfo b) b))) with (with_cpu m2 (with_bytes (copied BOOT_INFO size_of_BootInfo b) b)).
  rewrite (bind_done _ _ _ _ _ E3). exists m2, d'. split_and!; [|done|done].
  unfold ret. do 3 f_equal. cbn [bytes with_cpu with_bytes].
  replace off with (Z.of_nat (Z.to_nat off)) by lia. apply copied_bytes. lia.
Qed.

Lemma read_copied_spec b f :
  boot_ready root BOOT_INFO b -> is_field f ->
  exists m' d', read_copied root BOOT_INFO f (kernel_gsbase b) b =
      Done (field_value (bytes b) f, with_cpu m' (with_bytes d' b)) /\
    gated (cpu b) m' (regs (cpu b) RSP) (pkru_of (cpu b)) /\ cleared b (bytes b) d'.
Proof.
  intros R [H0 H1]. destruct (read_copied_bytes b (offset_of BootInfo f) (field BootInfo f).2 le R H0 H1)
    as (m' & d' & E & G & C). exists m', d'. split_and!; [|done|done].
  unfold field_value. rewrite <- E. unfold read_copied, load_field.
  repeat (rewrite ?bind_assoc; apply bind_cong; intros ? ?). done.
Qed.

Lemma is_field_offset f :
  is_field f -> exists off : nat, offset_of BootInfo f = Z.of_nat off /\
    Z.of_nat off + Z.of_nat (field BootInfo f).2 <= size_of_BootInfo.
Proof. intros [H0 H1]. exists (Z.to_nat (offset_of BootInfo f)). lia. Qed.

(** A test that [f] is a field. *)
Definition is_field_test (f : string) : bool :=
  (0 <=? offset_of BootInfo f) && (offset_of BootInfo f + Z.of_nat (field BootInfo f).2 <=? size_of_BootInfo).

Lemma is_field_test_ok f : is_field_test f = true -> is_field f.
Proof. unfold is_field_test, is_field. rewrite andb_true_iff, !Z.leb_le. done. Qed.

(** The functions that return a number of the boot information, with their fields. *)
Definition getters : list (string * M (Bay F) Z) :=
  [("base", get_base_address root BOOT_INFO); ("limit", get_limit root BOOT_INFO);
   ("tls_start", get_tls_start root BOOT_INFO); ("tls_filesz", get_tls_filesz root BOOT_INFO);
   ("tls_memsz", get_tls_memsz root BOOT_INFO); ("mb_info", get_mbinfo root BOOT_INFO);
   ("cpu_online", get_processor_count root BOOT_INFO); ("cmdsize", get_cmdsize root BOOT_INFO);
   ("cmdline", get_cmdline root BOOT_INFO); ("uhyve", read_field root BOOT_INFO "uhyve");
   ("single_kernel", read_field root BOOT_INFO "single_kernel"); ("uartport", uartport root BOOT_INFO);
   ("boot_gtod", get_boot_time root BOOT_INFO)]%string.

Lemma getters_spec f g :
  (f, g) ∈ getters -> is_field f /\ forall b, kernel_gsbase b <> 0 -> g b = read_copied root BOOT_INFO f (kernel_gsbase b) b.
Proof.
  assert (Hr : forall h b, kernel_gsbase b <> 0 -> read_field root BOOT_INFO h b = read_copied root BOOT_INFO h (kernel_gsbase b) b).
  { intros h b Hb. unfold read_field. rewrite get_unsafe_storage_run. by destruct (Z.eqb_spec (kernel_gsbase b) 0). }
  unfold getters. rewrite !elem_of_cons, elem_of_nil. intros Hg.
  repeat destruct Hg as [Hg|Hg]; try done; injection Hg as -> ->; (split; [by apply is_field_test_ok|]);
    intros b Hb; try (by apply Hr). unfold get_boot_time. by rewrite get_unsafe_storage_run.
Qed.

(** The functions that return a field of the boot information, which is in safe
    memory, read it through a copy in the core's unsafe storage: they give the
    field's value, leave nothing of the copy behind, change no other memory, and
    the core has its registers and rights back. *)
Theorem boot_info_getters_correct b f g :
  boot_ready root BOOT_INFO b -> (f, g) ∈ getters ->
  exists m' d', g b = Done (field_value (bytes b) f, mkBay m' d' (LIST b) (IDX b) (kernel_gsbase b)) /\
    gated (cpu b) m' (regs (cpu b) RSP) (pkru_of (cpu b)) /\
    (forall x, kernel_gsbase b <= x < kernel_gsbase b + SIZE -> d' !! x = Some 0) /\
    (forall x, ~ kernel_gsbase b <= x < kernel_gsbase b + SIZE -> d' !! x = bytes b !! x).
Proof.
  intros R Hg. destruct (getters_spec f g Hg) as [Hf E]. rewrite E by apply R.
  destruct (read_copied_spec b f R Hf) as (m' & d' & E' & G & C1 & C2). by exists m', d'.
Qed.

(** [get_image_size] makes the copy inside the isolated part, where the variables of
    the kernel cannot be read: once there is an unsafe storage it faults. *)
Theorem get_image_size_faults b :
  boot_ready root BOOT_INFO b -> page_key root (cpu b) safe_data_start = Some Mm.SAFE_MEM_REGION ->
  get_image_size root BOOT_INFO b = Panic.
Proof.
  intros R Hk. unfold get_image_size. rewrite get_unsafe_storage_run. destruct (br_storage _ R) as [Hnz _].
  destruct (Z.eqb_spec (kernel_gsbase b) 0); [done|]. destruct (bay_start b) as (m1 & E1 & G1); [apply R|].
  rewrite (bind_done _ _ _ _ _ E1). assert (Hp : permitted root m1 safe_data_start false = false).
  { destruct (permitted root m1 safe_data_start false) eqn:Ep; [|done]. exfalso.
    apply permitted_key in Ep as (k & Hk' & Hn). unfold page_key in *. rewrite (gt_mmu _ _ _ _ G1), Hk in Hk'.
    injection Hk' as <-. apply Hn. by rewrite (gt_pkru _ _ _ _ G1), isolated_perm, decide_True by (by vm_compute). }
  unfold the_boot_info. rewrite bind_assoc. unfold bind, safe_var. cbn [cpu with_cpu]. by rewrite Hp.
Qed.

(** *** Updates *)

(** What [update] does, [d2] being the memory after the isolated part. *)
Lemma update_spec b change d2 :
  boot_ready root BOOT_INFO b ->
  (forall m1, gated (cpu b) m1 (regs (cpu b) RSP) (isolated_pkru (pkru_of (cpu b))) ->
     change (kernel_gsbase b) (with_cpu m1 (with_bytes (copied BOOT_INFO size_of_BootInfo b) b)) = Done (tt, with_cpu m1 (with_bytes d2 b))) ->
  (forall x, ~ kernel_gsbase b <= x < kernel_gsbase b + SIZE -> d2 !! x = bytes b !! x) ->
  exists m' d', update root BOOT_INFO change b = Done (tt, with_cpu m' (with_bytes d' b)) /\
    gated (cpu b) m' (regs (cpu b) RSP) (pkru_of (cpu b)) /\
    (forall x, kernel_gsbase b <= x < kernel_gsbase b + SIZE -> d' !! x = Some 0) /\
    (forall i, 0 <= i < size_of_BootInfo -> byte d' (BOOT_INFO + i) = byte d2 (kernel_gsbase b + i)) /\
    (forall x, ~ kernel_gsbase b <= x < kernel_gsbase b + SIZE -> ~ BOOT_INFO <= x < BOOT_INFO + size_of_BootInfo ->
       d' !! x = bytes b !! x).
Proof.
  intros R Hc Hd2. destruct boot_info_sizes as [Eb Es]. unfold update.
  rewrite get_unsafe_storage_run, boot_info_run by apply R. rewrite (bind_done _ _ _ _ _ (copy_in_run b R)).
  destruct (bay_start (with_bytes (copied BOOT_INFO size_of_BootInfo b) b)) as (m1 & E1 & G1); [apply R|].
  rewrite (bind_done _ _ _ _ _ E1), (bind_done _ _ _ _ _ (Hc m1 G1)).
  destruct (bay_end b m1 (with_cpu m1 (with_bytes d2 b)) R G1 eq_refl) as (m2 & E2 & G2).
  rewrite (bind_done _ _ _ _ _ E2). set (b2 := with_cpu m2 (with_cpu m1 (with_bytes d2 b))).
  assert (Hv : permitted root (cpu b2) safe_data_start false = true)
    by (unfold b2; cbn [cpu with_cpu]; rewrite (permitted_same root _ _ _ _ _ G2); apply R).
  rewrite boot_info_run by done. assert (Hm : 1 * size_of_BootInfo = size_of_BootInfo) by lia.
  set (d3 := write_at d2 BOOT_INFO (bytes_at d2 (kernel_gsbase b) (Z.to_nat size_of_BootInfo))).
  assert (E3 : copy_to_safe root size_of_BootInfo BOOT_INFO 1 b2 = Done (tt, with_cpu m2 (with_bytes d3 b))).
  { rewrite copy_to_safe_run; [by rewrite Hm|done|exact (br_valid _ R)|lia| |]; rewrite Hm.
    - eapply open_same; [exact G2|]. apply open_read, (open_sub root _ (kernel_gsbase b) (Z.to_nat SIZE)); [|cbn; lia|cbn; lia].
      apply unsafe_open_open, R.
    - eapply open_same; [exact G2|apply R]. }
  rewrite (bind_done _ _ _ _ _ E3).
  assert (Hz : exists zeros, Z.of_nat (length zeros) = SIZE /\ (forall i, 0 <= i < SIZE -> zeros !! Z.to_nat i = Some 0) /\
    clear_unsafe_storage root (with_cpu m2 (with_bytes d3 b)) = Done (tt, with_cpu m2 (with_bytes (write_at d3 (kernel_gsbase b) zeros) b))).
  { apply (clear_unsafe_storage_run root (with_cpu m2 (with_bytes d3 b))).
    eapply open_same; [exact G2|apply unsafe_open_open, R]. }
  destruct Hz as (zeros & Hl & Hz & E4). exists m2, (write_at d3 (kernel_gsbase b) zeros).
  pose proof (br_apart _ R) as Hap.
  split_and!; [exact E4|exact G2| | |].
  - intros x Hx. replace x with (kernel_gsbase b + Z.of_nat (Z.to_nat (x - kernel_gsbase b))) by lia. apply write_at_in, Hz. lia.
  - intros i Hi. unfold byte at 1. rewrite write_at_out by (rewrite Hl; lia). apply byte_write_at. lia.
  - intros x Hx Hx'. rewrite write_at_out by (rewrite Hl; lia). unfold d3. rewrite write_at_out by (rewrite length_bytes_at; lia).
    by apply Hd2.
Qed.

(** Storing a field of the copy. *)
Lemma store_field_run b m1 d f v :
  boot_ready root BOOT_INFO b -> gated (cpu b) m1 (regs (cpu b) RSP) (isolated_pkru (pkru_of (cpu b))) -> is_field f ->
  store_field root (kernel_gsbase b) f v (with_cpu m1 (with_bytes d b)) =
    Done (tt, with_cpu m1 (with_bytes (write_at d (kernel_gsbase b + offset_of BootInfo f) (le_bytes (field BootInfo f).2 v)) b)).
Proof.
  intros R G [H0 H1]. unfold store_field. rewrite store_bytes_run; [done|]. rewrite length_le_bytes.
  by eapply storage_part.
Qed.

Lemma load_field_run b m1 d f {A} (k : Z -> M (Bay F) A) :
  boot_ready root BOOT_INFO b -> gated (cpu b) m1 (regs (cpu b) RSP) (isolated_pkru (pkru_of (cpu b))) -> is_field f ->
  bind (load_field root (kernel_gsbase b) f) k (with_cpu m1 (with_bytes d b)) =
    k (le (bytes_at d (kernel_gsbase b + offset_of BootInfo f) (field BootInfo f).2)) (with_cpu m1 (with_bytes d b)).
Proof.
  intros R G [H0 H1]. unfold load_field. rewrite bind_assoc.
  by rewrite (bind_done _ _ _ _ _ (load_bytes_run root (with_cpu m1 (with_bytes d b)) _ _
    (storage_part b m1 (offset_of BootInfo f) (field BootInfo f).2 false R G H0 H1))).
Qed.

(** An update that stores one field. *)
Lemma update_field b f v change :
  boot_ready root BOOT_INFO b -> is_field f -> 0 <= v < 256 ^ Z.of_nat (field BootInfo f).2 ->
  (forall m1, gated (cpu b) m1 (regs (cpu b) RSP) (isolated_pkru (pkru_of (cpu b))) ->
     change (kernel_gsbase b) (with_cpu m1 (with_bytes (copied BOOT_INFO size_of_BootInfo b) b)) =
     store_field root (kernel_gsbase b) f v (with_cpu m1 (with_bytes (copied BOOT_INFO size_of_BootInfo b) b))) ->
  exists m' d', update root BOOT_INFO change b = Done (tt, mkBay m' d' (LIST b) (IDX b) (kernel_gsbase b)) /\
    gated (cpu b) m' (regs (cpu b) RSP) (pkru_of (cpu b)) /\
    field_value d' f = v /\
    (forall x, kernel_gsbase b <= x < kernel_gsbase b + SIZE -> d' !! x = Some 0) /\
    (forall x, ~ kernel_gsbase b <= x < kernel_gsbase b + SIZE ->
       ~ BOOT_INFO + offset_of BootInfo f <= x < BOOT_INFO + offset_of BootInfo f + Z.of_nat (field BootInfo f).2 ->
       byte d' x = byte (bytes b) x).
Proof.
  intros R Hf Hv Hc. destruct boot_info_sizes as [Eb Es]. pose proof Hf as [H0 H1].
  set (o := offset_of BootInfo f) in *. set (n := (field BootInfo f).2) in *.
  set (d2 := write_at (copied BOOT_INFO size_of_BootInfo b) (kernel_gsbase b + o) (le_bytes n v)).
  destruct (update_spec b change d2 R) as (m' & d' & E & G & Hz & Hin & Hout).
  - intros m1 G1. rewrite Hc by done. rewrite store_field_run by done. done.
  - intros x Hx. unfold d2. rewrite write_at_out by (rewrite length_le_bytes; lia). by eapply copied_out.
  - exists m', d'. split_and!; [exact E|exact G| |exact Hz|].
    + unfold field_value. fold o n. rewrite (bytes_at_byte d2 d' (kernel_gsbase b + o) (BOOT_INFO + o)).
      * unfold d2. rewrite <- (length_le_bytes n v) at 2. by rewrite bytes_at_write_at, le_le_bytes.
      * intros i Hi. specialize (Hin (o + i) ltac:(lia)). by rewrite !Z.add_assoc in Hin.
    + intros x Hx Hx'. destruct (decide (BOOT_INFO <= x < BOOT_INFO + size_of_BootInfo)) as [Hb|Hb].
      * specialize (Hin (x - BOOT_INFO) ltac:(lia)). replace (BOOT_INFO + (x - BOOT_INFO)) with x in Hin by lia.
        rewrite Hin. unfold byte at 1, d2. rewrite write_at_out by (rewrite length_le_bytes; lia).
        transitivity (byte (bytes b) (BOOT_INFO + (x - BOOT_INFO))); [|f_equal; lia].
        apply byte_write_at. lia.
      * unfold byte. by rewrite Hout.
Qed.

(** A processor that has finished its initialisation counts itself: [cpu_online]
    goes up by one, modulo 2^32, and nothing else of the boot information or of
    other memory changes; the copy in the unsafe storage is gone. *)
Theorem count_processor_correct b :
  boot_ready root BOOT_INFO b ->
  exists m' d', count_processor root BOOT_INFO b = Done (tt, mkBay m' d' (LIST b) (IDX b) (kernel_gsbase b)) /\
    gated (cpu b) m' (regs (cpu b) RSP) (pkru_of (cpu b)) /\
    field_value d' "cpu_online" = (field_value (bytes b) "cpu_online" + 1) mod 2 ^ 32 /\
    (forall x, kernel_gsbase b <= x < kernel_gsbase b + SIZE -> d' !! x = Some 0) /\
    (forall x, ~ kernel_gsbase b <= x < kernel_gsbase b + SIZE -> ~ BOOT_INFO + 120 <= x < BOOT_INFO + 124 ->
       byte d' x = byte (bytes b) x).
Proof.
  intros R. assert (Hf : is_field "cpu_online") by by apply is_field_test_ok.
  destruct (update_field b "cpu_online" ((field_value (bytes b) "cpu_online" + 1) mod 2 ^ 32) (fun storage =>
    let! n := load_field root storage "cpu_online" in
    store_field root storage "cpu_online" ((n + 1) mod 2 ^ 32)) R Hf) as (m' & d' & E & G & Hv & Hz & Ho).
  - by apply Z.mod_pos_bound.
  - intros m1 G. rewrite load_field_run by done. unfold field_value.
    destruct (is_field_offset _ Hf) as (off & -> & Ho). by rewrite copied_bytes.
  - exists m', d'. split_and!; try done. intros x Hx Hn. apply Ho; [done|].
    change (offset_of BootInfo "cpu_online") with 120. change (Z.of_nat (field BootInfo "cpu_online").2) with 4. lia.
Qed.

(** [systemtime::init] stores the time of the boot. *)
Theorem set_boot_time_correct b microseconds :
  boot_ready root BOOT_INFO b -> in_u64 microseconds ->
  exists m' d', set_boot_time root BOOT_INFO microseconds b =
      Done (tt, mkBay m' d' (LIST b) (IDX b) (kernel_gsbase b)) /\
    gated (cpu b) m' (regs (cpu b) RSP) (pkru_of (cpu b)) /\
    field_value d' "boot_gtod" = microseconds /\
    (forall x, kernel_gsbase b <= x < kernel_gsbase b + SIZE -> d' !! x = Some 0) /\
    (forall x, ~ kernel_gsbase b <= x < kernel_gsbase b + SIZE -> ~ BOOT_INFO + 80 <= x < BOOT_INFO + 88 ->
       byte d' x = byte (bytes b) x).
Proof.
  intros R Hu. destruct (update_field b "boot_gtod" microseconds (fun storage => store_field root storage "boot_gtod" microseconds) R
    ltac:(by apply is_field_test_ok)) as (m' & d' & E & G & Hv & Hz & Ho); [exact Hu|done|].
  exists m', d'. split_and!; try done. intros x Hx Hn. apply Ho; [done|].
  change (offset_of BootInfo "boot_gtod") with 80. change (Z.of_nat (field BootInfo "boot_gtod").2) with 8. lia.
Qed.

End correct.

(** ** Examples *)

(** Checks of ranges that compute. *)
Definition open_test {F} (root : Z) (m : Machine F) (a : Z) (n : nat) (w : bool) : bool :=
  forallb (fun i => permitted root m (a + Z.of_nat i) w) (seq 0 n).

Lemma open_test_ok {F} (root : Z) (m : Machine F) a n w : open_test root m a n w = true -> open root m a n w.
Proof.
  unfold open_test. rewrite forallb_forall. intros Ht x Hx. specialize (Ht (Z.to_nat (x - a))).
  replace (a + Z.of_nat (Z.to_nat (x - a))) with x in Ht by lia. apply Ht, in_seq. lia.
Qed.

Definition unsafe_test {F} (root : Z) (m : Machine F) (a : Z) (n : nat) : bool :=
  forallb (fun i => permitted root m (a + Z.of_nat i) true &&
    bool_decide (page_key root m (a + Z.of_nat i) <> Some Mm.SAFE_MEM_REGION)) (seq 0 n).

Lemma unsafe_test_ok {F} (root : Z) (m : Machine F) a n : unsafe_test root m a n = true -> unsafe_open root m a n.
Proof.
  unfold unsafe_test. rewrite forallb_forall. intros Ht x Hx. specialize (Ht (Z.to_nat (x - a))). cbv beta in Ht.
  replace (a + Z.of_nat (Z.to_nat (x - a))) with x in Ht by lia.
  rewrite andb_true_iff, bool_decide_eq_true in Ht. apply Ht, in_seq. lia.
Qed.

Section sample.

#[local] Existing Instance Paging.bump_source.

(** [.safe_data], the boot information and the unsafe storage in a page each. *)
Definition sample_space : Mmu Z :=
  run_state (map sample_root 39 false BasePageSize 0x400000 0x800000 1 (pkey 1 (writable 0)) ;;;
             map sample_root 39 false BasePageSize 0x10000000 0x801000 1 (pkey 1 (writable 0)) ;;;
             map sample_root 39 false BasePageSize 0x10001000 0x802000 1 (pkey 2 (writable 0))) sample.

Definition sample_info : Z := 0x10000100.

(** Two processors are online, the image begins at 0x800000. *)
Definition sample_bay : Bay Z :=
  mkBay (mkMachine sample_regs 0x202 0 0 0 ∅ (mkCore 0 sample_space) sample_task)
    {[sample_info + 10 := 0x80; sample_info + 120 := 2]} (<[0%nat := sample_info]> (replicate 100 0)) 1 0x10001000.

Lemma sample_ready : boot_ready sample_root sample_info sample_bay.
Proof.
  split.
  - done.
  - reflexivity.
  - vm_compute. reflexivity.
  - split; [done|]. apply unsafe_test_ok. vm_compute. reflexivity.
  - vm_compute. reflexivity.
  - apply open_test_ok. vm_compute. reflexivity.
  - left. by vm_compute.
  - split; by vm_compute.
Qed.

Lemma boot_info_getters_correct_witness :
  exists b', get_base_address sample_root sample_info sample_bay = Done (0x800000, b') /\
    bytes b' !! (0x10001000 + 10) = Some 0.
Proof.
  destruct (boot_info_getters_correct sample_root sample_info sample_bay "base" (get_base_address sample_root sample_info)
    sample_ready) as (m' & d' & E & _ & Hz & _); [apply elem_of_cons; by left|].
  assert (Ev : field_value sample_info (bytes sample_bay) "base" = 0x800000) by (vm_compute; reflexivity).
  rewrite Ev in E. eexists. split; [exact E|]. apply Hz. change (kernel_gsbase sample_bay) with 0x10001000.
  change SIZE with 4096. lia.
Defined.

Lemma get_image_size_faults_witness : get_image_size sample_root sample_info sample_bay = Panic.
Proof. apply (get_image_size_faults sample_root sample_info sample_bay sample_ready). vm_compute. reflexivity. Defined.

Lemma count_processor_correct_witness :
  exists b', count_processor sample_root sample_info sample_bay = Done (tt, b') /\
    field_value sample_info (bytes b') "cpu_online" = 3.
Proof.
  destruct (count_processor_correct sample_root sample_info sample_bay sample_ready) as (m' & d' & E & _ & Hv & _).
  assert (Ev : (field_value sample_info (bytes sample_bay) "cpu_online" + 1) mod 2 ^ 32 = 3) by (vm_compute; reflexivity).
  rewrite Ev in Hv. eexists. split; [exact E|exact Hv].
Defined.

End sample.
