(* ===== verification/Processor.v ===== *)
(** * The processor: src/arch/x86_64/kernel/processor.rs

    Detection of features and of the frequency, the control registers, SpeedStep, time
    stamps and delays. What the instruction CPUID answers, as the crate x86 presents it,
    the model specific registers and the time stamp counter are parameters. *)

From Stdlib Require Import ZArith Lia String.
From stdpp Require Import base numbers list gmap.
From S2P Require Import Prelude Pte Mmu Paging Mm Mpk Cpu Isolation Bytes Irq CopySafe Storage BootInfo.

#[local] Open Scope Z_scope.

(** ** What CPUID answers *)

Record FeatureInfo := mkFeatureInfo {
  has_avx : bool; has_rdrand : bool; has_tsc_deadline : bool; has_x2apic : bool; has_xsave : bool; has_eist : bool
}.
Record ExtendedFeatures := mkExtendedFeatures { has_pku : bool; has_fsgsbase : bool }.
Record ExtendedFunctionInfo := mkExtendedFunctionInfo {
  physical_address_bits : option Z; linear_address_bits : option Z; has_1gib_pages : bool; has_rdtscp : bool;
  processor_brand_string : option (list Z)
}.
Record CpuId := mkCpuId {
  get_feature_info : option FeatureInfo;
  get_extended_feature_info : option ExtendedFeatures;
  get_extended_function_info : option ExtendedFunctionInfo;
  get_processor_frequency_info : option Z;
  get_tsc_info : option Z;
  get_thermal_power_info : option bool
}.

(** ** The variables of the file *)

Inductive CpuFrequencySources :=
  | Invalid | CommandLine | CpuIdBrandString | Measurement | Hypervisor | CpuIdBase | CpuIdTscInfo.

Record CpuFrequency := mkFrequency { mhz : Z; source : CpuFrequencySources }.
Definition CpuFrequency_new : CpuFrequency := mkFrequency 0 Invalid.

Record CpuSpeedStep := mkSpeedStep {
  eist_available : bool; eist_enabled : bool; eist_locked : bool; energy_bias_preference : bool;
  max_pstate : Z; is_turbo_pstate : bool
}.
Definition CpuSpeedStep_new : CpuSpeedStep := mkSpeedStep false false false false 0 false.

Record Supports := mkSupports {
  PHYSICAL_ADDRESS_BITS : Z; LINEAR_ADDRESS_BITS : Z; SUPPORTS_1GIB_PAGES : bool; SUPPORTS_AVX : bool;
  SUPPORTS_RDRAND : bool; SUPPORTS_TSC_DEADLINE : bool; SUPPORTS_X2APIC : bool; SUPPORTS_XSAVE : bool;
  SUPPORTS_PKU : bool; SUPPORTS_OSPKE : bool; SUPPORTS_FSGS : bool; uses_rdtscp : bool
}.

(** The core with its memory, the interrupt tables, the variables, the control registers,
    the writes to model specific registers, and the readings of the time stamp so far. *)
Record Processor (F : Type) := mkProcessor {
  bay : Bay F;
  irq : Interrupts;
  CPU_FREQUENCY : CpuFrequency;
  CPU_SPEEDSTEP : CpuSpeedStep;
  supports : Supports;
  cr4 : Z;
  xcr0 : Z;
  msrs : list (Z * Z);
  readings : nat
}.
Arguments mkProcessor {F} _ _ _ _ _ _ _ _ _.
Arguments bay {F} _.
Arguments irq {F} _.
Arguments CPU_FREQUENCY {F} _.
Arguments CPU_SPEEDSTEP {F} _.
Arguments supports {F} _.
Arguments cr4 {F} _.
Arguments xcr0 {F} _.
Arguments msrs {F} _.
Arguments readings {F} _.

(** ** Constants *)

Definition IA32_MISC_ENABLE_ENHANCED_SPEEDSTEP : Z := Z.shiftl 1 16.
Definition IA32_MISC_ENABLE_SPEEDSTEP_LOCK : Z := Z.shiftl 1 20.
Definition IA32_MISC_ENABLE_TURBO_DISABLE : Z := Z.shiftl 1 38.
Definition EFER_SCE : Z := Z.shiftl 1 0.
Definition EFER_LMA : Z := Z.shiftl 1 10.
Definition EFER_NXE : Z := Z.shiftl 1 11.

(** Numbers of registers and bits of the crate x86 *)
Definition IA32_EFER : Z := 0xC0000080.
Definition IA32_MISC_ENABLE : Z := 0x1A0.
Definition MSR_PLATFORM_INFO : Z := 0xCE.
Definition MSR_TURBO_RATIO_LIMIT : Z := 0x1AD.
Definition IA32_ENERGY_PERF_BIAS : Z := 0x1B0.
Definition IA32_PERF_CTL : Z := 0x199.
Definition CR0_MONITOR_COPROCESSOR : Z := Z.shiftl 1 1.
Definition CR0_EMULATE_COPROCESSOR : Z := Z.shiftl 1 2.
Definition CR0_TASK_SWITCHED : Z := Z.shiftl 1 3.
Definition CR0_NUMERIC_ERROR : Z := Z.shiftl 1 5.
Definition CR0_WRITE_PROTECT : Z := Z.shiftl 1 16.
Definition CR0_NOT_WRITE_THROUGH : Z := Z.shiftl 1 29.
Definition CR0_CACHE_DISABLE : Z := Z.shiftl 1 30.
Definition CR4_ENABLE_MACHINE_CHECK : Z := Z.shiftl 1 6.
Definition CR4_ENABLE_SSE : Z := Z.shiftl 1 9.
Definition CR4_UNMASKED_SSE : Z := Z.shiftl 1 10.
Definition CR4_ENABLE_FSGSBASE : Z := Z.shiftl 1 16.
Definition CR4_ENABLE_OS_XSAVE : Z := Z.shiftl 1 18.
Definition CR4_ENABLE_PROTECTION_KEY : Z := Z.shiftl 1 22.
Definition XCR0_FPU_MMX_STATE : Z := Z.shiftl 1 0.
Definition XCR0_SSE_STATE : Z := Z.shiftl 1 1.
Definition XCR0_AVX_STATE : Z := Z.shiftl 1 2.
Definition XCR0_PKRU_STATE : Z := Z.shiftl 1 9.

(** [insert] and [remove] of bit flags *)
Definition insert_bits (v bits : Z) : Z := Z.lor v bits.
Definition remove_bits (v bits : Z) : Z := Z.ldiff v bits.

(** [char::to_digit(10)] *)
Definition to_digit (c : Z) : option Z := if (48 <=? c) && (c <=? 57) then Some (c - 48) else None.

Definition GHz : list Z := text "GHz".

(** [detect_from_cpuid_brand_string], from the brand string on; its characters are ASCII. *)
Definition frequency_of_brand (brand_string : list Z) : outcome (option Z) :=
  match position_window GHz brand_string with
  | None => Done None
  | Some ghz_find =>
      let? index := sub64 (Z.of_nat ghz_find) 4 in
      let i := Z.to_nat index in
      let? thousand_char := at_index brand_string i in
      let? decimal_char := at_index brand_string (i + 1) in
      let? hundred_char := at_index brand_string (i + 2) in
      let? ten_char := at_index brand_string (i + 3) in
      match to_digit thousand_char, decimal_char =? 46, to_digit hundred_char, to_digit ten_char with
      | Some thousand, true, Some hundred, Some ten =>
          Done (Some ((thousand * 1000 + hundred * 100 + ten * 10) mod 2 ^ 16))
      | _, _, _, _ => Done None
      end
  end.

Section processor.

Context {F : Type} `{FrameSource F}.
Context (root BOOT_INFO : Z).

(** CPUID, the model specific registers, the time stamp of each reading, and the ports *)
Context (cpuid : CpuId) (rdmsr : Z -> Z) (tsc : nat -> Z) (ports : list port_event -> Z -> Z).

(** Before which turns of a loop the timer interrupts *)
Context (arrives : nat -> bool).

(** The addresses of the handlers, and of the variables [CPU_FREQUENCY] and
    [MEASUREMENT_TIMER_TICKS] *)
Context (handler_address : Handler -> Z) (CPU_FREQUENCY_address MEASUREMENT_TIMER_TICKS : Z).

Abbreviation Run := (M (Processor F)).

Definition with_bay (b : Bay F) (s : Processor F) : Processor F :=
  mkProcessor b (irq s) (CPU_FREQUENCY s) (CPU_SPEEDSTEP s) (supports s) (cr4 s) (xcr0 s) (msrs s) (readings s).
Definition with_irq (i : Interrupts) (s : Processor F) : Processor F :=
  mkProcessor (bay s) i (CPU_FREQUENCY s) (CPU_SPEEDSTEP s) (supports s) (cr4 s) (xcr0 s) (msrs s) (readings s).
Definition with_frequency (f : CpuFrequency) (s : Processor F) : Processor F :=
  mkProcessor (bay s) (irq s) f (CPU_SPEEDSTEP s) (supports s) (cr4 s) (xcr0 s) (msrs s) (readings s).
Definition with_speedstep (f : CpuSpeedStep) (s : Processor F) : Processor F :=
  mkProcessor (bay s) (irq s) (CPU_FREQUENCY s) f (supports s) (cr4 s) (xcr0 s) (msrs s) (readings s).
Definition with_supports (f : Supports) (s : Processor F) : Processor F :=
  mkProcessor (bay s) (irq s) (CPU_FREQUENCY s) (CPU_SPEEDSTEP s) f (cr4 s) (xcr0 s) (msrs s) (readings s).
Definition with_cr4 (v : Z) (s : Processor F) : Processor F :=
  mkProcessor (bay s) (irq s) (CPU_FREQUENCY s) (CPU_SPEEDSTEP s) (supports s) v (xcr0 s) (msrs s) (readings s).
Definition with_xcr0 (v : Z) (s : Processor F) : Processor F :=
  mkProcessor (bay s) (irq s) (CPU_FREQUENCY s) (CPU_SPEEDSTEP s) (supports s) (cr4 s) v (msrs s) (readings s).
Definition with_msrs (l : list (Z * Z)) (s : Processor F) : Processor F :=
  mkProcessor (bay s) (irq s) (CPU_FREQUENCY s) (CPU_SPEEDSTEP s) (supports s) (cr4 s) (xcr0 s) l (readings s).
Definition with_readings (n : nat) (s : Processor F) : Processor F :=
  mkProcessor (bay s) (irq s) (CPU_FREQUENCY s) (CPU_SPEEDSTEP s) (supports s) (cr4 s) (xcr0 s) (msrs s) n.

Definition on_bay {A} (o : M (Bay F) A) : Run A := fun s =>
  let? (a, b) := o (bay s) in Done (a, with_bay b s).
Definition on_irq {A} (o : M Interrupts A) : Run A := fun s =>
  let? (a, i) := o (irq s) in Done (a, with_irq i s).

Definition wrmsr (n v : Z) : Run unit := modify (fun s => with_msrs (msrs s ++ [(n, v)]) s).

(** [rdpkru] and [wrpkru] need CR4.PKE. *)
Definition pke : Run unit := fun s =>
  if Z.testbit (cr4 s) 22 then Done (tt, s) else Panic.

(** Access to the variables of the file, which are in safe memory *)
Definition global (write : bool) : Run unit := on_bay (safe_var root write).

Definition start_isolation : Run unit := pke ;;; on_bay (on_cpu isolation_start).
Definition end_isolation : Run unit := pke ;;; on_bay (on_cpu isolation_end).

Definition get_timestamp : Run Z :=
  global false ;;;
  let! n := gets readings in
  modify (with_readings (S n)) ;;;
  ret (tsc n mod W64).

(** [writefs]; [wrfsbase] needs CR4.FSGSBASE. *)
Definition writefs (fs : Z) : Run unit :=
  start_isolation ;;;
  (fun s => if Z.testbit (cr4 s) 16
            then Done (tt, with_bay (with_cpu (with_fsbase fs (cpu (bay s))) (bay s)) s) else Panic) ;;;
  end_isolation.

(** ** Features *)

Definition speedstep_detect_features : Run unit :=
  let! feature_info := lift (unwrap (get_feature_info cpuid)) in
  global true ;;;
  let! c := gets CPU_SPEEDSTEP in
  let available := has_eist feature_info in
  if negb available then
    modify (with_speedstep (mkSpeedStep available (eist_enabled c) (eist_locked c) (energy_bias_preference c) (max_pstate c) (is_turbo_pstate c)))
  else
    let misc := rdmsr IA32_MISC_ENABLE in
    let enabled := 0 <? Z.land misc IA32_MISC_ENABLE_ENHANCED_SPEEDSTEP in
    let locked := 0 <? Z.land misc IA32_MISC_ENABLE_SPEEDSTEP_LOCK in
    if negb enabled || locked then
      modify (with_speedstep (mkSpeedStep available enabled locked (energy_bias_preference c) (max_pstate c) (is_turbo_pstate c)))
    else
      let base := Z.shiftr (rdmsr MSR_PLATFORM_INFO) 8 mod 256 in
      let turbo_pstate := rdmsr MSR_TURBO_RATIO_LIMIT mod 256 in
      let turbo := (Z.land misc IA32_MISC_ENABLE_TURBO_DISABLE =? 0) && (base <? turbo_pstate) in
      modify (with_speedstep (mkSpeedStep available enabled locked
        (default (energy_bias_preference c) (get_thermal_power_info cpuid))
        (if turbo then turbo_pstate else base) (if turbo then true else is_turbo_pstate c))).

Definition speedstep_configure : Run unit :=
  global false ;;;
  let! c := gets CPU_SPEEDSTEP in
  if negb (eist_available c) || negb (eist_enabled c) || eist_locked c then ret tt
  else
    (if energy_bias_preference c then wrmsr IA32_ENERGY_PERF_BIAS 0 else ret tt) ;;;
    let perf_ctl_mask := Z.shiftl (max_pstate c) 8 in
    wrmsr IA32_PERF_CTL (if is_turbo_pstate c then Z.lor perf_ctl_mask (Z.shiftl 1 32) else perf_ctl_mask).

Definition detect_features : Run unit :=
  let! feature_info := lift (unwrap (get_feature_info cpuid)) in
  let! extended_feature_info := lift (unwrap (get_extended_feature_info cpuid)) in
  let! extended_function_info := lift (unwrap (get_extended_function_info cpuid)) in
  let! physical := lift (unwrap (physical_address_bits extended_function_info)) in
  let! linear := lift (unwrap (linear_address_bits extended_function_info)) in
  global true ;;;
  modify (fun s => with_supports (mkSupports physical linear (has_1gib_pages extended_function_info) (has_avx feature_info)
    (has_rdrand feature_info) (has_tsc_deadline feature_info) (has_x2apic feature_info) (has_xsave feature_info)
    (has_pku extended_feature_info) (SUPPORTS_OSPKE (supports s)) (has_fsgsbase extended_feature_info)
    (if has_rdtscp extended_function_info then true else uses_rdtscp (supports s))) s) ;;;
  speedstep_detect_features.

Definition set_ospke (s : Processor F) : Processor F :=
  let c := supports s in
  with_supports (mkSupports (PHYSICAL_ADDRESS_BITS c) (LINEAR_ADDRESS_BITS c) (SUPPORTS_1GIB_PAGES c) (SUPPORTS_AVX c)
    (SUPPORTS_RDRAND c) (SUPPORTS_TSC_DEADLINE c) (SUPPORTS_X2APIC c) (SUPPORTS_XSAVE c) (SUPPORTS_PKU c) true
    (SUPPORTS_FSGS c) (uses_rdtscp c)) s.

(** The values [configure] gives to the control registers. *)
Definition new_cr0 (v : Z) : Z :=
  let v := insert_bits v (Z.lor CR0_MONITOR_COPROCESSOR CR0_NUMERIC_ERROR) in
  let v := remove_bits v CR0_EMULATE_COPROCESSOR in
  let v := insert_bits v CR0_TASK_SWITCHED in
  let v := insert_bits v CR0_WRITE_PROTECT in
  remove_bits v (Z.lor CR0_CACHE_DISABLE CR0_NOT_WRITE_THROUGH).

Definition new_cr4 (xsave pku : bool) (v : Z) : Z :=
  let v := insert_bits v CR4_ENABLE_MACHINE_CHECK in
  let v := insert_bits v (Z.lor CR4_ENABLE_SSE CR4_UNMASKED_SSE) in
  let v := if xsave then insert_bits v CR4_ENABLE_OS_XSAVE else v in
  let v := if pku then insert_bits v CR4_ENABLE_PROTECTION_KEY else v in
  insert_bits v CR4_ENABLE_FSGSBASE.

Definition new_xcr0 (avx : bool) (v : Z) : Z :=
  let v := insert_bits v (Z.lor XCR0_FPU_MMX_STATE XCR0_SSE_STATE) in
  let v := if avx then insert_bits v XCR0_AVX_STATE else v in
  remove_bits v XCR0_PKRU_STATE.

(** Without FSGSBASE the processor spins for ever. *)
Definition configure : Run unit :=
  wrmsr IA32_EFER (Z.lor (Z.lor (Z.lor (rdmsr IA32_EFER) EFER_LMA) EFER_SCE) EFER_NXE) ;;;
  global false ;;;
  let! c := gets supports in
  modify (fun s => with_bay (with_cpu (with_cr0 (new_cr0 (cr0 (cpu (bay s)))) (cpu (bay s))) (bay s)) s) ;;;
  (if SUPPORTS_PKU c then global true ;;; modify set_ospke else ret tt) ;;;
  if SUPPORTS_FSGS c then
    modify (fun s => with_cr4 (new_cr4 (SUPPORTS_XSAVE c) (SUPPORTS_PKU c) (cr4 s)) s) ;;;
    (if SUPPORTS_XSAVE c then modify (fun s => with_xcr0 (new_xcr0 (SUPPORTS_AVX c) (xcr0 s)) s) else ret tt) ;;;
    writefs 0 ;;;
    speedstep_configure ;;;
    on_bay (list_add root CPU_FREQUENCY_address)
  else out_of_fuel.

(** ** The frequency *)

Definition set_frequency (f : Z) (src : CpuFrequencySources) : Run (result unit unit) :=
  global true ;;;
  modify (with_frequency (mkFrequency f src)) ;;;
  ret (Ok tt).

Definition detect_from_cpuid : Run (result unit unit) :=
  match get_processor_frequency_info cpuid with
  | Some f => set_frequency f CpuIdBase
  | None => ret (Err tt)
  end.

Definition detect_from_cpid_tsc_info : Run (result unit unit) :=
  match get_tsc_info cpuid with
  | Some f => set_frequency (f / 1000000 mod 2 ^ 16) CpuIdTscInfo
  | None => ret (Err tt)
  end.

Definition detect_from_hypervisor : Run (result unit unit) :=
  let! f := on_bay (BootInfo.detect_from_hypervisor root BOOT_INFO) in
  match f with
  | Some f => set_frequency f Hypervisor
  | None => ret (Err tt)
  end.

Definition detect_from_cpuid_brand_string : Run (result unit unit) :=
  let! extended_function_info := lift (unwrap (get_extended_function_info cpuid)) in
  let! brand_string := lift (unwrap (processor_brand_string extended_function_info)) in
  let! f := lift (frequency_of_brand brand_string) in
  match f with
  | Some f => set_frequency f CpuIdBrandString
  | None => ret (Err tt)
  end.

(** The handler of the timer's interrupt, which may arrive before any turn of the loops
    below: [arrives] tells before which. *)
Definition timer_handler : Run unit :=
  let! bs := on_bay (load_bytes root MEASUREMENT_TIMER_TICKS 8) in
  let! n := lift (add64 (le bs) 1) in
  on_bay (store_bytes root MEASUREMENT_TIMER_TICKS (le_bytes 8 n)) ;;;
  on_irq (pic_eoi PIT_INTERRUPT_NUMBER).

Definition interrupt (turn : nat) : Run unit := if arrives turn then timer_handler else ret tt.

(** The load is of the pointer to the storage, not of what it points to. *)
Definition read_ticks (unsafe_storage : Z) : Run Z :=
  on_bay (copy_from_safe root 8 MEASUREMENT_TIMER_TICKS 1) ;;;
  start_isolation ;;;
  end_isolation ;;;
  on_bay (clear_unsafe_storage root) ;;;
  ret unsafe_storage.

Fixpoint wait_tick (fuel : nat) (unsafe_storage first_tick : Z) : Run Z :=
  match fuel with
  | O => out_of_fuel
  | S fuel =>
      interrupt fuel ;;;
      let! tick := read_ticks unsafe_storage in
      if negb (tick =? first_tick) then ret tick else wait_tick fuel unsafe_storage first_tick
  end.

Fixpoint count_ticks (fuel : nat) (unsafe_storage start_tick tick_count : Z) : Run unit :=
  match fuel with
  | O => out_of_fuel
  | S fuel =>
      interrupt fuel ;;;
      let! tick := read_ticks unsafe_storage in
      let! d := lift (sub64 tick start_tick) in
      if tick_count <=? d then ret tt else count_ticks fuel unsafe_storage start_tick tick_count
  end.

Definition measure_frequency (fuel : nat) : Run (result unit unit) :=
  let! uhyve := on_bay (is_uhyve root BOOT_INFO) in
  if uhyve : bool then ret (Err tt)
  else
    let tick_count := 3 in
    let frequency := 100 in
    on_irq (set_gate PIT_INTERRUPT_NUMBER (handler_address measure_frequency_timer_handler) 0) ;;;
    on_irq (pit_init ports frequency) ;;;
    let! unsafe_storage := on_bay get_unsafe_storage in
    let! first_tick := read_ticks unsafe_storage in
    let! start_tick := wait_tick fuel unsafe_storage first_tick in
    let! start := get_timestamp in
    count_ticks fuel unsafe_storage start_tick tick_count ;;;
    let! end_ := get_timestamp in
    on_irq (pit_deinit ports) ;;;
    let! cycle_count := lift (sub64 end_ start) in
    let! p := lift (mul64 frequency cycle_count) in
    set_frequency (p / (1000000 * tick_count) mod 2 ^ 16) Measurement.

Definition or_else (a b : Run (result unit unit)) : Run (result unit unit) :=
  let! r := a in
  match r with Ok _ => ret r | Err _ => b end.

Definition detect (fuel : nat) : Run unit :=
  let! r := or_else (or_else (or_else (or_else detect_from_cpuid detect_from_cpid_tsc_info) detect_from_hypervisor)
              detect_from_cpuid_brand_string) (measure_frequency fuel) in
  lift (unwrap_res r).

Definition detect_frequency (fuel : nat) : Run unit := detect fuel.

(** ** Time *)

Definition get_frequency : Run Z :=
  global false ;;;
  gets (fun s => mhz (CPU_FREQUENCY s)).

Definition get_timer_ticks : Run Z :=
  let! t := get_timestamp in
  let! f := get_frequency in
  if f =? 0 then panic else ret (t / f).

Fixpoint delay_until (fuel : nat) (end_ : Z) : Run unit :=
  match fuel with
  | O => out_of_fuel
  | S fuel =>
      let! t := get_timestamp in
      if t <? end_ then delay_until fuel end_ else ret tt
  end.

Definition udelay (fuel : nat) (usecs : Z) : Run unit :=
  let! t := get_timestamp in
  let! f := get_frequency in
  let! d := lift (mul64 f usecs) in
  let! end_ := lift (add64 t d) in
  delay_until fuel end_.

(** [rdrand] gives [random]. *)
Definition generate_random_number (random : Z) : Run (option Z) :=
  global false ;;;
  let! c := gets supports in
  if SUPPORTS_RDRAND c then
    start_isolation ;;;
    end_isolation ;;;
    ret (Some random)
  else ret None.

End processor.

(** ** Correctness *)

Arguments with_bay {F} _ _.
Arguments with_supports {F} _ _.
Arguments with_frequency {F} _ _.
Arguments with_readings {F} _ _.

Section correct.

Context {F : Type} `{FrameSource F}.
Context (root BOOT_INFO : Z).
Context (cpuid : CpuId) (rdmsr : Z -> Z) (tsc : nat -> Z) (ports : list port_event -> Z -> Z) (arrives : nat -> bool).
Context (handler_address : Handler -> Z) (CPU_FREQUENCY_address MEASUREMENT_TIMER_TICKS : Z).

Implicit Types (s : Processor F).

(** The kernel runs with access to its variables. *)
Record kernel_runs s : Prop := {
  kr_pkru : in_u32 (pkru_of (cpu (bay s)));
  kr_safe : perm_of (pkru_of (cpu (bay s))) Mm.SAFE_MEM_REGION = MpkRw;
  kr_vars : permitted root (cpu (bay s)) safe_data_start true = true
}.

Lemma global_run s w : kernel_runs s -> global root w s = Done (tt, s).
Proof.
  intros R. unfold global, on_bay. rewrite safe_var_run; [by destruct s|].
  destruct w; [apply R|]. by eapply permitted_write_read, R.
Qed.

Lemma bind_global s w {A} (k : unit -> M (Processor F) A) : kernel_runs s -> bind (global root w) k s = k tt s.
Proof. intros R. by rewrite (bind_done _ _ _ _ _ (global_run s w R)). Qed.

(** *** The control registers *)

Lemma gate_keeps (m m1 : Machine F) :
  (isolation_start m = Done (tt, m1) \/ isolation_end m = Done (tt, m1)) -> cr0 m1 = cr0 m /\ fsbase m1 = fsbase m.
Proof. intros [E|E]; by injection E as <-. Qed.

Lemma start_isolation_run s m1 :
  Z.testbit (cr4 s) 22 = true -> isolation_start (cpu (bay s)) = Done (tt, m1) ->
  start_isolation s = Done (tt, with_bay (with_cpu m1 (bay s)) s).
Proof. intros H22 E1. unfold start_isolation, pke, bind, on_bay, on_cpu. rewrite H22. cbn [obind fst snd]. by rewrite E1. Qed.

Lemma end_isolation_run s m1 :
  Z.testbit (cr4 s) 22 = true -> isolation_end (cpu (bay s)) = Done (tt, m1) ->
  end_isolation s = Done (tt, with_bay (with_cpu m1 (bay s)) s).
Proof. intros H22 E1. unfold end_isolation, pke, bind, on_bay, on_cpu. rewrite H22. cbn [obind fst snd]. by rewrite E1. Qed.

(** Going through the gates and changing bytes keeps the kernel running. *)
Lemma kernel_runs_gated s m d :
  kernel_runs s -> gated (cpu (bay s)) m (regs (cpu (bay s)) RSP) (pkru_of (cpu (bay s))) ->
  kernel_runs (with_bay (with_cpu m (with_bytes d (bay s))) s).
Proof.
  intros [K1 K2 K3] G. split; cbn [bay with_bay cpu with_cpu with_bytes]; rewrite ?(gt_pkru _ _ _ _ G); try done.
  by rewrite (permitted_same root _ _ _ _ _ G).
Qed.

(** An isolated part in which nothing happens. *)
Lemma gates_run s {A} (k : unit -> M (Processor F) A) :
  kernel_runs s -> Z.testbit (cr4 s) 22 = true ->
  exists m, gated (cpu (bay s)) m (regs (cpu (bay s)) RSP) (pkru_of (cpu (bay s))) /\
    (start_isolation ;;; bind end_isolation k) s = k tt (with_bay (with_cpu m (bay s)) s).
Proof.
  intros [K1 K2 _] H22. destruct (isolation_start_spec (cpu (bay s)) K1) as (m1 & E1 & G1).
  destruct (isolation_end_spec m1) as (m2 & E2 & G2).
  { rewrite (gt_pkru _ _ _ _ G1). by apply isolated_pkru_u32. }
  exists m2. split.
  - rewrite (gt_pkru _ _ _ _ G1), restored_isolated in G2 by done. rewrite (gt_sp _ _ _ _ G1) in G2. by eapply gated_trans.
  - rewrite (bind_done _ _ _ _ _ (start_isolation_run s m1 H22 E1)).
    set (s1 := with_bay (with_cpu m1 (bay s)) s). by rewrite (bind_done _ _ _ _ _ (end_isolation_run s1 m2 H22 E2)).
Qed.
Lemma writefs_spec s fs :
  kernel_runs s -> Z.testbit (cr4 s) 22 = true -> Z.testbit (cr4 s) 16 = true ->
  exists m, writefs fs s = Done (tt, with_bay (with_cpu m (bay s)) s) /\
    gated (cpu (bay s)) m (regs (cpu (bay s)) RSP) (pkru_of (cpu (bay s))) /\
    cr0 m = cr0 (cpu (bay s)) /\ fsbase m = fs.
Proof.
  intros [K1 K2 _] H22 H16. destruct (isolation_start_spec (cpu (bay s)) K1) as (m1 & E1 & G1).
  destruct (gate_keeps _ _ (or_introl E1)) as [C1 _].
  set (m2 := with_fsbase fs m1).
  assert (G2 : gated (cpu (bay s)) m2 (regs (cpu (bay s)) RSP) (isolated_pkru (pkru_of (cpu (bay s))))) by (by destruct G1; split).
  destruct (isolation_end_spec m2) as (m3 & E3 & G3).
  { rewrite (gt_pkru _ _ _ _ G2). by apply isolated_pkru_u32. }
  destruct (gate_keeps _ _ (or_intror E3)) as [C3 F3].
  exists m3. split_and!; [| |by rewrite C3|done].
  - unfold writefs. rewrite (bind_done _ _ _ _ _ (start_isolation_run s m1 H22 E1)).
    set (s1 := with_bay (with_cpu m1 (bay s)) s). set (s2 := with_bay (with_cpu m2 (bay s)) s).
    assert (Ew : (if Z.testbit (cr4 s1) 16 then Done (tt, with_bay (with_cpu (with_fsbase fs (cpu (bay s1))) (bay s1)) s1)
                  else Panic) = Done (tt, s2)) by (by change (cr4 s1) with (cr4 s); rewrite H16).
    rewrite (bind_done _ _ s1 tt s2) by exact Ew. exact (end_isolation_run s2 m3 H22 E3).
  - rewrite (gt_pkru _ _ _ _ G2), restored_isolated in G3 by done. rewrite (gt_sp _ _ _ _ G2) in G3.
    by eapply gated_trans.
Qed.

Lemma testbit_insert v bits i : Z.testbit (insert_bits v bits) i = Z.testbit v i || Z.testbit bits i.
Proof. apply Z.lor_spec. Qed.
Lemma testbit_remove v bits i : Z.testbit (remove_bits v bits) i = Z.testbit v i && negb (Z.testbit bits i).
Proof. apply Z.ldiff_spec. Qed.

(** A flag is a single bit. *)
Lemma testbit_flag n i : 0 <= n -> Z.testbit (Z.shiftl 1 n) i = bool_decide (i = n).
Proof.
  intros Hn. rewrite Z.shiftl_1_l. case_bool_decide as E; [subst; by apply Z.pow2_bits_true|].
  by apply Z.pow2_bits_false.
Qed.

Lemma new_cr0_bits v i :
  Z.testbit (new_cr0 v) i =
  if bool_decide (i ∈ [1; 3; 5; 16]) then true else if bool_decide (i ∈ [2; 29; 30]) then false else Z.testbit v i.
Proof.
  unfold new_cr0, CR0_MONITOR_COPROCESSOR, CR0_NUMERIC_ERROR, CR0_EMULATE_COPROCESSOR, CR0_TASK_SWITCHED, CR0_WRITE_PROTECT,
    CR0_CACHE_DISABLE, CR0_NOT_WRITE_THROUGH.
  repeat rewrite ?testbit_insert, ?testbit_remove, ?Z.lor_spec. rewrite !testbit_flag by done.
  repeat case_bool_decide; subst; try done; try (by rewrite ?orb_true_r, ?andb_true_r, ?andb_false_r, ?orb_false_r);
    exfalso; set_solver.
Qed.

Lemma new_cr4_bits xsave pku v i :
  Z.testbit (new_cr4 xsave pku v) i =
  Z.testbit v i || bool_decide (i ∈ [6; 9; 10; 16]) || (xsave && bool_decide (i = 18)) || (pku && bool_decide (i = 22)).
Proof.
  unfold new_cr4, CR4_ENABLE_MACHINE_CHECK, CR4_ENABLE_SSE, CR4_UNMASKED_SSE, CR4_ENABLE_OS_XSAVE, CR4_ENABLE_PROTECTION_KEY,
    CR4_ENABLE_FSGSBASE.
  destruct xsave, pku; repeat rewrite ?testbit_insert, ?Z.lor_spec; rewrite !testbit_flag by done; cbn [andb];
  repeat case_bool_decide; subst; try done; try (by rewrite ?orb_true_r, ?orb_false_r);
    exfalso; set_solver.
Qed.

Lemma new_xcr0_bits avx v i :
  Z.testbit (new_xcr0 avx v) i =
  if bool_decide (i ∈ [0; 1]) then true else if bool_decide (i = 9) then false
  else Z.testbit v i || (avx && bool_decide (i = 2)).
Proof.
  unfold new_xcr0, XCR0_FPU_MMX_STATE, XCR0_SSE_STATE, XCR0_AVX_STATE, XCR0_PKRU_STATE.
  destruct avx; repeat rewrite ?testbit_insert, ?testbit_remove, ?Z.lor_spec; rewrite !testbit_flag by done; cbn [andb];
  repeat case_bool_decide; subst; try done; try (by rewrite ?orb_true_r, ?andb_true_r, ?andb_false_r, ?orb_false_r);
    exfalso; set_solver.
Qed.

(** The writes of [speedstep_configure] to model specific registers. *)
Definition speedstep_writes (c : CpuSpeedStep) : list (Z * Z) :=
  if eist_available c && eist_enabled c && negb (eist_locked c)
  then (if energy_bias_preference c then [(IA32_ENERGY_PERF_BIAS, 0)] else []) ++
       [(IA32_PERF_CTL, max_pstate c * 256 + if is_turbo_pstate c then 2 ^ 32 else 0)]
  else [].

Lemma perf_ctl p turbo : 0 <= p < 256 ->
  (if turbo : bool then Z.lor (Z.shiftl p 8) (Z.shiftl 1 32) else Z.shiftl p 8) = p * 256 + if turbo then 2 ^ 32 else 0.
Proof.
  intros Hp. rewrite Z.shiftl_mul_pow2 by done. destruct turbo; [|change (2 ^ 8) with 256; lia].
  rewrite Z.shiftl_1_l. change (2 ^ 8) with 256. rewrite Z.add_nocarry_lxor, Z.lxor_lor; [done| |].
  all: apply Z.bits_inj'; intros i Hi; rewrite Z.land_spec, Z.bits_0; change 256 with (2 ^ 8).
  all: destruct (decide (i = 32)) as [->|Hn]; [|by rewrite (Z.pow2_bits_false 32 i), andb_false_r].
  all: rewrite Z.mul_pow2_bits by done; rewrite (Z.bits_above_log2 p); [done|lia|].
  all: destruct (decide (p = 0)) as [->|]; [done|]; apply Z.log2_lt_pow2; [lia|]; change (2 ^ (32 - 8)) with 16777216; lia.
Qed.

Lemma speedstep_configure_run s :
  kernel_runs s -> 0 <= max_pstate (CPU_SPEEDSTEP s) < 256 ->
  speedstep_configure root s = Done (tt, with_msrs (msrs s ++ speedstep_writes (CPU_SPEEDSTEP s)) s).
Proof.
  intros R Hp. unfold speedstep_configure, speedstep_writes. rewrite (bind_global s) by done. rewrite bind_gets.
  destruct (CPU_SPEEDSTEP s) as [a e l b p t]. cbn [eist_available eist_enabled eist_locked energy_bias_preference max_pstate is_turbo_pstate] in *.
  rewrite perf_ctl by done. unfold wrmsr.
  destruct a, e, l; cbn [negb orb andb]; try (unfold ret; rewrite app_nil_r; by destruct s).
  destruct b; [rewrite bind_modify|rewrite bind_ret; done].
  unfold modify, with_msrs. cbn [bay irq CPU_FREQUENCY CPU_SPEEDSTEP supports cr4 xcr0 msrs readings]. by rewrite <- (assoc_L app).
Qed.

(** What a configured processor promises. *)
Record configured s (s' : Processor F) : Prop := {
  cf_cr0 : forall i, Z.testbit (cr0 (cpu (bay s'))) i =
    if bool_decide (i ∈ [1; 3; 5; 16]) then true
    else if bool_decide (i ∈ [2; 29; 30]) then false else Z.testbit (cr0 (cpu (bay s))) i;
  cf_cr4 : forall i, Z.testbit (cr4 s') i =
    Z.testbit (cr4 s) i || bool_decide (i ∈ [6; 9; 10; 16; 22]) || (SUPPORTS_XSAVE (supports s) && bool_decide (i = 18));
  cf_xcr0 : forall i, Z.testbit (xcr0 s') i =
    if SUPPORTS_XSAVE (supports s) then
      if bool_decide (i ∈ [0; 1]) then true else if bool_decide (i = 9) then false
      else Z.testbit (xcr0 s) i || (SUPPORTS_AVX (supports s) && bool_decide (i = 2))
    else Z.testbit (xcr0 s) i;
  cf_fs : fsbase (cpu (bay s')) = 0;
  cf_ospke : SUPPORTS_OSPKE (supports s') = true;
  cf_msrs : msrs s' = msrs s ++
    [(IA32_EFER, Z.lor (Z.lor (Z.lor (rdmsr IA32_EFER) EFER_LMA) EFER_SCE) EFER_NXE)] ++ speedstep_writes (CPU_SPEEDSTEP s);
  cf_rights : gated (cpu (bay s)) (cpu (bay s')) (regs (cpu (bay s)) RSP) (pkru_of (cpu (bay s)));
  cf_memory : bytes (bay s') = bytes (bay s)
}.

(** The state of [configure] before [writefs]. *)
Definition registers_set s : Processor F :=
  let c := supports s in
  let s1 := with_msrs (msrs s ++ [(IA32_EFER, Z.lor (Z.lor (Z.lor (rdmsr IA32_EFER) EFER_LMA) EFER_SCE) EFER_NXE)]) s in
  let s2 := with_bay (with_cpu (with_cr0 (new_cr0 (cr0 (cpu (bay s)))) (cpu (bay s))) (bay s)) s1 in
  let s3 := if SUPPORTS_PKU c then set_ospke s2 else s2 in
  let s4 := with_cr4 (new_cr4 (SUPPORTS_XSAVE c) (SUPPORTS_PKU c) (cr4 s)) s3 in
  if SUPPORTS_XSAVE c then with_xcr0 (new_xcr0 (SUPPORTS_AVX c) (xcr0 s)) s4 else s4.

(** The variables may be used whatever CR0 is. *)
Lemma registers_set_runs s : kernel_runs s -> kernel_runs (registers_set s).
Proof.
  intros [R1 R2 R3]. unfold registers_set. destruct (SUPPORTS_PKU _), (SUPPORTS_XSAVE _); by split.
Qed.

Lemma configure_begins s :
  kernel_runs s -> SUPPORTS_FSGS (supports s) = true ->
  configure root rdmsr CPU_FREQUENCY_address s =
  (writefs 0 ;;; speedstep_configure root ;;; on_bay (list_add root CPU_FREQUENCY_address)) (registers_set s).
Proof.
  intros R Hf. unfold configure, wrmsr. rewrite bind_modify.
  set (s1 := with_msrs _ s). assert (R1 : kernel_runs s1) by (by destruct R; split).
  rewrite (bind_global s1), bind_gets by done. rewrite bind_modify.
  change (supports s1) with (supports s). rewrite Hf. set (s2 := with_bay _ s1).
  assert (R2 : kernel_runs s2) by (by destruct R; split).
  unfold registers_set. change (with_bay _ (with_msrs _ s)) with s2.
  destruct (SUPPORTS_PKU (supports s)).
  - rewrite bind_assoc, (bind_global s2) by done. rewrite !bind_modify. by destruct (SUPPORTS_XSAVE (supports s)).
  - rewrite bind_ret, bind_modify. by destruct (SUPPORTS_XSAVE (supports s)).
Qed.

(** C35. [configure] on a processor with protection keys and FSGSBASE: the FPU is on
    but its first use traps, ring 0 cannot write read-only pages, caching is on;
    protection keys, SSE and, where there is one, the extended context are enabled;
    XRSTOR cannot change PKRU; the FS base is 0; SpeedStep is told the highest
    P-state; [CPU_FREQUENCY] is on the white list unless that is full; no other
    memory and none of the rights of the core change. *)
Theorem configure_correct s w :
  kernel_runs s -> holds w (bay s) -> SUPPORTS_PKU (supports s) = true -> SUPPORTS_FSGS (supports s) = true ->
  0 <= max_pstate (CPU_SPEEDSTEP s) < 256 ->
  exists s', configure root rdmsr CPU_FREQUENCY_address s = Done (tt, s') /\ configured s s' /\
    holds (if bool_decide (CPU_FREQUENCY_address = 0 \/ CPU_FREQUENCY_address ∈ w \/ (100 <= length w)%nat)
           then w else w ++ [CPU_FREQUENCY_address]) (bay s').
Proof.
  intros R Hw Hk Hf Hp. rewrite configure_begins by done.
  pose proof (registers_set_runs s R) as R1. set (s1 := registers_set s) in *.
  assert (Hc4 : cr4 s1 = new_cr4 (SUPPORTS_XSAVE (supports s)) true (cr4 s))
    by (unfold s1, registers_set; rewrite Hk; by destruct (SUPPORTS_XSAVE _)).
  assert (Hb1 : bay s1 = with_cpu (with_cr0 (new_cr0 (cr0 (cpu (bay s)))) (cpu (bay s))) (bay s))
    by (unfold s1, registers_set; by destruct (SUPPORTS_PKU _), (SUPPORTS_XSAVE _)).
  destruct (writefs_spec s1 0 R1) as (m & E1 & G & C0 & Fs).
  { rewrite Hc4, new_cr4_bits. cbn. by rewrite orb_true_r. }
  { rewrite Hc4, new_cr4_bits, (bool_decide_true (16 ∈ _)) by set_solver. by rewrite orb_true_r. }
  rewrite (bind_done _ _ _ _ _ E1). set (s2 := with_bay (with_cpu m (bay s1)) s1).
  assert (R2 : kernel_runs s2).
  { unfold s2. replace (with_cpu m (bay s1)) with (with_cpu m (with_bytes (bytes (bay s1)) (bay s1))) by (by destruct (bay s1)).
    by apply kernel_runs_gated. }
  assert (Hs2 : CPU_SPEEDSTEP s2 = CPU_SPEEDSTEP s)
    by (cbn; unfold s1, registers_set; by destruct (SUPPORTS_PKU _), (SUPPORTS_XSAVE _)).
  rewrite (bind_done _ _ _ _ _ (speedstep_configure_run s2 R2 ltac:(by rewrite Hs2))), Hs2.
  set (s3 := with_msrs _ s2).
  destruct (list_add_spec root w (bay s3) CPU_FREQUENCY_address) as (b4 & E4 & Ec & Ed & _ & W).
  { cbn. rewrite Hb1. destruct Hw. by split. }
  { exact (kr_vars _ R2). }
  exists (with_bay b4 s3). split_and!; [unfold on_bay; by rewrite E4| |exact W].
  assert (Hm : cpu b4 = m) by (by rewrite Ec).
  split; cbn [bay with_bay].
  - intros i. by rewrite Hm, C0, Hb1, <- new_cr0_bits.
  - intros i. change (cr4 (with_bay b4 s3)) with (cr4 s1). rewrite Hc4, new_cr4_bits. cbn [andb].
    destruct (decide (i = 22)) as [->|Hn].
    + change (bool_decide (22 = 22)) with true. change (bool_decide (22 ∈ [6; 9; 10; 16; 22])) with true. by rewrite !orb_true_r.
    + rewrite (bool_decide_false (i = 22)), orb_false_r by done. do 2 f_equal. apply bool_decide_ext. set_solver.
  - intros i. change (xcr0 (with_bay b4 s3)) with (xcr0 s1). rewrite <- new_xcr0_bits. unfold s1, registers_set.
    by destruct (SUPPORTS_PKU _), (SUPPORTS_XSAVE _).
  - by rewrite Hm.
  - change (supports (with_bay b4 s3)) with (supports s1). unfold s1, registers_set. rewrite Hk. by destruct (SUPPORTS_XSAVE _).
  - change (msrs (with_bay b4 s3)) with (msrs s1 ++ speedstep_writes (CPU_SPEEDSTEP s)).
    unfold s1, registers_set. rewrite (assoc_L app). f_equal. by destruct (SUPPORTS_PKU _), (SUPPORTS_XSAVE _).
  - rewrite Hm. rewrite Hb1 in G. by destruct G; split.
  - rewrite Ed. cbn. by rewrite Hb1.
Qed.

(** Without protection keys [configure] faults at [writefs], whose gates execute RDPKRU. *)
Theorem configure_needs_pku s :
  kernel_runs s -> SUPPORTS_PKU (supports s) = false -> Z.testbit (cr4 s) 22 = false ->
  SUPPORTS_FSGS (supports s) = true ->
  configure root rdmsr CPU_FREQUENCY_address s = Panic.
Proof.
  intros R Hk H4 Hf. rewrite configure_begins by done. set (s1 := registers_set s).
  assert (Hp : Z.testbit (cr4 s1) 22 = false).
  { assert (cr4 s1 = new_cr4 (SUPPORTS_XSAVE (supports s)) false (cr4 s)) as -> by (unfold s1, registers_set; rewrite Hk; by destruct (SUPPORTS_XSAVE _)).
    rewrite new_cr4_bits, H4. by rewrite andb_false_r. }
  unfold writefs, start_isolation, pke, bind. by rewrite Hp.
Qed.

(** *** Time *)

Lemma get_timestamp_run s {A} (k : Z -> M (Processor F) A) :
  kernel_runs s -> bind (get_timestamp root tsc) k s = k (tsc (readings s) mod W64) (with_readings (S (readings s)) s).
Proof. intros R. unfold get_timestamp. rewrite bind_assoc, (bind_global s) by done. by rewrite bind_assoc, bind_gets, bind_assoc, bind_modify. Qed.

Lemma get_frequency_run s {A} (k : Z -> M (Processor F) A) :
  kernel_runs s -> bind (get_frequency root) k s = k (mhz (CPU_FREQUENCY s)) s.
Proof. intros R. unfold get_frequency. by rewrite bind_assoc, (bind_global s), bind_gets by done. Qed.

Lemma delay_until_run fuel end_ n s :
  kernel_runs s -> (readings s <= n < readings s + fuel)%nat ->
  (forall i, (readings s <= i < n)%nat -> tsc i mod W64 < end_) -> end_ <= tsc n mod W64 ->
  delay_until root tsc fuel end_ s = Done (tt, with_readings (S n) s).
Proof.
  revert s. induction fuel as [|fuel IH]; intros s R Hn Hb He; [lia|]. cbn [delay_until].
  rewrite get_timestamp_run by done. destruct (decide (readings s = n)) as [E|E].
  - rewrite E. destruct (Z.ltb_spec (tsc n mod W64) end_); [lia|done].
  - specialize (Hb (readings s) ltac:(lia)) as Hlt. destruct (Z.ltb_spec (tsc (readings s) mod W64) end_); [|lia].
    rewrite IH; [done|by destruct R; split|cbn; lia| |done]. intros i Hi. apply Hb. cbn in Hi. lia.
Qed.

(** [udelay] ends with the first reading of the time stamp counter that is
    [usecs] microseconds' worth of cycles after its first reading, when the counter gets
    there: it waits at least that long and reads no more often than that needs. *)
Theorem udelay_ends fuel usecs n s :
  let end_ := tsc (readings s) mod W64 + mhz (CPU_FREQUENCY s) * usecs in
  kernel_runs s -> 0 <= mhz (CPU_FREQUENCY s) -> 0 <= usecs -> end_ < W64 ->
  (readings s < n <= readings s + fuel)%nat ->
  (forall i, (readings s < i < n)%nat -> tsc i mod W64 < end_) -> end_ <= tsc n mod W64 ->
  udelay root tsc fuel usecs s = Done (tt, with_readings (S n) s).
Proof.
  intros end_ R Hf Hu He Hn Hb Hr. unfold udelay. rewrite get_timestamp_run by done.
  set (s1 := with_readings _ s). assert (R1 : kernel_runs s1) by (by destruct R; split).
  rewrite get_frequency_run by done. change (CPU_FREQUENCY s1) with (CPU_FREQUENCY s).
  pose proof (Z.mod_pos_bound (tsc (readings s)) W64 eq_refl) as Hm. fold end_ in He.
  assert (Hp : 0 <= mhz (CPU_FREQUENCY s) * usecs) by (by apply Z.mul_nonneg_nonneg).
  rewrite (bind_lift_done _ _ _ _ (mul64_done (mhz (CPU_FREQUENCY s)) usecs ltac:(unfold end_ in *; lia))).
  rewrite (bind_lift_done _ _ _ _ (add64_done (tsc (readings s) mod W64) (mhz (CPU_FREQUENCY s) * usecs) ltac:(unfold end_ in *; lia))). fold end_.
  assert (Er : readings s1 = S (readings s)) by done.
  rewrite (delay_until_run fuel end_ n s1); [done|done|rewrite Er; lia| |done]. intros i Hi. apply Hb. rewrite Er in Hi. lia.
Qed.

(** A delay that ends beyond the counter's range panics. *)
Lemma udelay_overflows fuel usecs s :
  kernel_runs s -> 0 <= mhz (CPU_FREQUENCY s) -> 0 <= usecs ->
  W64 <= tsc (readings s) mod W64 + mhz (CPU_FREQUENCY s) * usecs -> udelay root tsc fuel usecs s = Panic.
Proof.
  intros R Hf Hu He. unfold udelay. rewrite get_timestamp_run by done.
  set (s1 := with_readings _ s). assert (R1 : kernel_runs s1) by (by destruct R; split).
  rewrite get_frequency_run by done. change (CPU_FREQUENCY s1) with (CPU_FREQUENCY s).
  unfold bind, lift, mul64. destruct (decide (in_u64 (mhz (CPU_FREQUENCY s) * usecs))) as [Hi|Hi].
  - rewrite (checked_done _ Hi). cbn [obind fst snd]. unfold add64. rewrite checked_panic; [done|]. unfold in_u64. lia.
  - by rewrite checked_panic.
Qed.

(** The microseconds since the counter was 0; an unknown frequency is a division by zero. *)
Theorem get_timer_ticks_correct s :
  kernel_runs s ->
  get_timer_ticks root tsc s =
    if mhz (CPU_FREQUENCY s) =? 0 then Panic
    else Done (tsc (readings s) mod W64 / mhz (CPU_FREQUENCY s), with_readings (S (readings s)) s).
Proof.
  intros R. unfold get_timer_ticks. rewrite get_timestamp_run by done. rewrite get_frequency_run by (by destruct R; split).
  change (CPU_FREQUENCY (with_readings _ s)) with (CPU_FREQUENCY s). by destruct (mhz (CPU_FREQUENCY s) =? 0).
Qed.

(** *** The measurement *)

Lemma bind_inv {S A B} (o : M S A) (k : A -> M S B) x r : bind o k x = Done r -> exists a x1, o x = Done (a, x1) /\ k a x1 = Done r.
Proof. unfold bind. destruct (o x) as [[a x1]| |]; cbn; [|done..]. intros E. by exists a, x1. Qed.

Lemma read_ticks_value u s a s' : read_ticks root MEASUREMENT_TIMER_TICKS u s = Done (a, s') -> a = u.
Proof.
  unfold read_ticks. intros (? & s1 & _ & (? & s2 & _ & (? & s3 & _ & (? & s4 & _ & E)%bind_inv)%bind_inv)%bind_inv)%bind_inv.
  by injection E.
Qed.

Lemma wait_tick_ends_never fuel u s r :
  wait_tick root arrives MEASUREMENT_TIMER_TICKS fuel u u s <> Done r.
Proof.
  revert s. induction fuel as [|fuel IH]; intros s; [done|]. cbn [wait_tick].
  intros (? & s1 & _ & (a & s2 & E%read_ticks_value & E2)%bind_inv)%bind_inv. rewrite E, Z.eqb_refl in E2. by apply IH in E2.
Qed.

(** The loops look at the pointer to the copy of the count of ticks instead of at the
    copy, and the pointer does not change: unless the kernel runs under uhyve, where
    nothing is measured, the measurement does not end, whatever interrupts arrive. *)
Theorem measurement_never_ends fuel s r s' :
  measure_frequency root BOOT_INFO tsc ports arrives handler_address MEASUREMENT_TIMER_TICKS fuel s = Done (r, s') -> r = Err tt.
Proof.
  unfold measure_frequency. intros (u & s1 & _ & E)%bind_inv. destruct u; [by injection E|].
  apply bind_inv in E as (? & s2 & _ & (? & s3 & _ & (p & s4 & _ & (first & s5 & E5%read_ticks_value & (tick & s6 & E6 & _)%bind_inv)%bind_inv)%bind_inv)%bind_inv).
  rewrite E5 in E6. by apply wait_tick_ends_never in E6.
Qed.

(** *** The sources of the frequency *)

Lemma to_digit_char v : 0 <= v < 10 -> to_digit (48 + v) = Some v.
Proof. intros Hv. unfold to_digit. destruct (Z.leb_spec 48 (48 + v)), (Z.leb_spec (48 + v) 57); cbn; [f_equal|..]; lia. Qed.

(** A brand string that says "d.htGHz" gives 1000 d + 100 h + 10 t MHz. *)
Lemma frequency_of_brand_correct pre d h t post :
  0 <= d < 10 -> 0 <= h < 10 -> 0 <= t < 10 -> Z.of_nat (length pre) < W64 ->
  (forall j, (j < length pre + 4)%nat -> ~ occurs_at GHz (pre ++ [48 + d; 46; 48 + h; 48 + t] ++ GHz ++ post) j) ->
  frequency_of_brand (pre ++ [48 + d; 46; 48 + h; 48 + t] ++ GHz ++ post) = Done (Some (1000 * d + 100 * h + 10 * t)).
Proof.
  intros Hd Hh Ht Hlen Hfirst. set (num := [48 + d; 46; 48 + h; 48 + t]) in *. set (brand := pre ++ num ++ GHz ++ post) in *.
  assert (Hpos : position_window GHz brand = Some (length pre + 4)%nat).
  { apply position_window_spec; [done|]. split; [|done]. unfold occurs_at, brand.
    by rewrite drop_app_add, (drop_app_length' num), take_app_length. }
  assert (Hat : forall j, at_index brand (length pre + j) = at_index (num ++ GHz ++ post) j) by (intros j; apply at_index_app).
  unfold frequency_of_brand. rewrite Hpos. unfold sub64.
  replace (Z.of_nat (length pre + 4) - 4) with (Z.of_nat (length pre)) by lia.
  rewrite checked_done by (unfold in_u64; lia). cbn [obind]. rewrite Nat2Z.id.
  rewrite <- (Nat.add_0_r (length pre)) at 1. rewrite !Hat. unfold at_index. cbn [num app lookup list_lookup unwrap obind].
  rewrite !to_digit_char by done. change (46 =? 46) with true. do 2 f_equal.
  rewrite Z.mod_small; [lia|]. change (2 ^ 16) with 65536. lia.
Qed.

(** "GHz" in the first four characters is an underflow. *)
Lemma frequency_of_brand_panics brand i :
  (i < 4)%nat -> position_window GHz brand = Some i -> frequency_of_brand brand = Panic.
Proof.
  intros Hi E. unfold frequency_of_brand. rewrite E. unfold sub64. rewrite checked_panic; [done|]. unfold in_u64. lia.
Qed.

Lemma set_frequency_run s f src :
  kernel_runs s -> set_frequency root f src s = Done (Ok tt, with_frequency (mkFrequency f src) s).
Proof. intros R. unfold set_frequency. by rewrite (bind_global s), bind_modify. Qed.

(** What the sources before the measurement say of the frequency, in their order; [cpu_freq]
    is the field of the boot information. *)
Definition known_frequency (cpu_freq : Z) : option CpuFrequency :=
  match get_processor_frequency_info cpuid with
  | Some f => Some (mkFrequency f CpuIdBase)
  | None =>
      match get_tsc_info cpuid with
      | Some f => Some (mkFrequency (f / 1000000 mod 2 ^ 16) CpuIdTscInfo)
      | None =>
          if 0 <? cpu_freq then Some (mkFrequency (cpu_freq mod 2 ^ 16) Hypervisor)
          else match processor_brand_string <$> get_extended_function_info cpuid with
               | Some (Some brand) =>
                   match frequency_of_brand brand with
                   | Done (Some f) => Some (mkFrequency f CpuIdBrandString)
                   | _ => None
                   end
               | _ => None
               end
      end
  end.

Lemma or_else_ok a b s x s' : a s = Done (Ok x, s') -> or_else (F := F) a b s = Done (Ok x, s').
Proof. intros E. unfold or_else. by rewrite (bind_done _ _ _ _ _ E). Qed.
Lemma or_else_err a b s x s' : a s = Done (Err x, s') -> or_else (F := F) a b s = b s'.
Proof. intros E. unfold or_else. by rewrite (bind_done _ _ _ _ _ E). Qed.

(** Only the storage was used. *)
Definition only_storage s s' : Prop :=
  exists m d, s' = with_bay (with_cpu m (with_bytes d (bay s))) s /\
    gated (cpu (bay s)) m (regs (cpu (bay s)) RSP) (pkru_of (cpu (bay s))) /\ cleared (bay s) (bytes (bay s)) d.

Lemma hypervisor_run s :
  kernel_runs s -> boot_ready root BOOT_INFO (bay s) ->
  let cpu_freq := field_value BOOT_INFO (bytes (bay s)) "cpu_freq"%string in
  exists s', only_storage s s' /\ kernel_runs s' /\
    detect_from_hypervisor root BOOT_INFO s =
      (if 0 <? cpu_freq then Done (Ok tt, with_frequency (mkFrequency (cpu_freq mod 2 ^ 16) Hypervisor) s') else Done (Err tt, s')).
Proof.
  intros R Rb cpu_freq. destruct (read_copied_spec root BOOT_INFO (bay s) "cpu_freq"%string Rb) as (m & d & E & G & C); [by apply is_field_test_ok|].
  fold cpu_freq in E. set (s' := with_bay (with_cpu m (with_bytes d (bay s))) s).
  assert (R' : kernel_runs s') by (by apply kernel_runs_gated).
  assert (Eh : BootInfo.detect_from_hypervisor root BOOT_INFO (bay s) =
    Done (if 0 <? cpu_freq then Some (cpu_freq mod 2 ^ 16) else None, bay s')).
  { unfold BootInfo.detect_from_hypervisor. rewrite get_unsafe_storage_run, (bind_done _ _ _ _ _ E). by destruct (0 <? cpu_freq). }
  exists s'. split_and!; [by exists m, d|done|]. unfold detect_from_hypervisor.
  rewrite (bind_done (on_bay (BootInfo.detect_from_hypervisor root BOOT_INFO)) _ s (if 0 <? cpu_freq then Some (cpu_freq mod 2 ^ 16) else None) s')
    by (unfold on_bay; by rewrite Eh).
  destruct (0 <? cpu_freq); [by apply set_frequency_run|done].
Qed.

(** [detect] takes the frequency from the first source that knows one: the base frequency
    or the frequency of the counter of CPUID, the boot information, the brand string. It
    measures nothing then, and changes nothing but the frequency and what was in the unsafe
    storage. *)
Theorem detect_correct fuel s f :
  kernel_runs s -> boot_ready root BOOT_INFO (bay s) ->
  known_frequency (field_value BOOT_INFO (bytes (bay s)) "cpu_freq"%string) = Some f ->
  exists s', detect root BOOT_INFO cpuid tsc ports arrives handler_address MEASUREMENT_TIMER_TICKS fuel s =
      Done (tt, with_frequency f s') /\ (s' = s \/ only_storage s s').
Proof.
  intros R Rb. unfold known_frequency.
  assert (Hok : forall o, (forall s', or_else o (measure_frequency root BOOT_INFO tsc ports arrives handler_address MEASUREMENT_TIMER_TICKS fuel) s =
      Done (Ok tt, with_frequency f s') -> bind (or_else o (measure_frequency root BOOT_INFO tsc ports arrives handler_address MEASUREMENT_TIMER_TICKS fuel))
      (fun r => lift (unwrap_res r)) s = Done (tt, with_frequency f s')))
    by (intros o s' E; by rewrite (bind_done _ _ _ _ _ E)).
  unfold detect. unfold detect_from_cpuid at 1. destruct (get_processor_frequency_info cpuid) as [f1|] eqn:E1.
  { intros [= <-]. exists s. split; [|by left]. apply Hok. do 4 apply or_else_ok. by apply set_frequency_run. }
  destruct (get_tsc_info cpuid) as [f2|] eqn:E2.
  { intros [= <-]. exists s. split; [|by left]. apply Hok. do 3 apply or_else_ok. rewrite (or_else_err _ _ s tt s) by done.
    unfold detect_from_cpid_tsc_info. rewrite E2. by apply set_frequency_run. }
  destruct (hypervisor_run s R Rb) as (s' & U & R' & Eh). intros Hf. exists s'. split; [|by right]. apply Hok.
  assert (E3 : or_else (or_else (ret (Err tt)) (detect_from_cpid_tsc_info root cpuid)) (detect_from_hypervisor root BOOT_INFO) s =
    detect_from_hypervisor root BOOT_INFO s).
  { rewrite (or_else_err _ _ s tt s); [done|]. rewrite (or_else_err _ _ s tt s) by done.
    unfold detect_from_cpid_tsc_info. by rewrite E2. }
  destruct (0 <? field_value BOOT_INFO (bytes (bay s)) "cpu_freq"%string).
  { injection Hf as <-. do 2 apply or_else_ok. by rewrite E3. }
  apply or_else_ok. rewrite (or_else_err _ _ s tt s') by (by rewrite E3). unfold detect_from_cpuid_brand_string.
  destruct (get_extended_function_info cpuid) as [info|]; [|done]. cbn [fmap option_fmap option_map] in Hf.
  destruct (processor_brand_string info) as [brand|] eqn:Eb; [|done].
  destruct (frequency_of_brand brand) as [[fb|]| |] eqn:Ef; try done. injection Hf as <-.
  rewrite (bind_lift_done _ _ info) by done. rewrite (bind_lift_done _ _ brand) by (by rewrite Eb).
  rewrite (bind_lift_done _ _ _ _ Ef). by apply set_frequency_run.
Qed.

End correct.

(** ** Examples *)

Section sample.

#[local] Existing Instance Paging.bump_source.

(** A processor with protection keys, FSGSBASE, AVX and XSAVE that knows its frequency
    from the brand string only. *)
Definition sample_cpuid : CpuId :=
  mkCpuId (Some (mkFeatureInfo true true false false true false)) (Some (mkExtendedFeatures true true))
    (Some (mkExtendedFunctionInfo (Some 39) (Some 48) true true (Some (text "Xeon(R) Gold 6142 CPU @ 2.60GHz"%string)))) None None None.

Definition sample_supports : Supports := mkSupports 39 48 true true true false false true true false true true.

Definition sample_interrupts : Interrupts := mkInterrupts (replicate 256 MISSING) true true true true [].

Definition sample_processor (f : CpuFrequency) : Processor Z :=
  mkProcessor sample_bay sample_interrupts f CpuSpeedStep_new sample_supports (Z.shiftl 1 22) 0x200 [] 0.

Lemma sample_runs f : kernel_runs sample_root (sample_processor f).
Proof. split; by vm_compute. Qed.

Lemma sample_holds : holds [sample_info] sample_bay.
Proof. split; [by vm_compute|by vm_compute| |cbn; lia]. rewrite list_elem_of_singleton. done. Qed.

(** CR0 with caching off, XCR0 with the state of PKRU *)
Lemma configure_correct_witness :
  exists s', configure sample_root (fun _ => 0) 0x400100 (sample_processor CpuFrequency_new) = Done (tt, s') /\
    configured (fun _ => 0) (sample_processor CpuFrequency_new) s' /\
    holds [sample_info; 0x400100] (bay s').
Proof.
  apply (configure_correct sample_root (fun _ => 0) 0x400100 (sample_processor CpuFrequency_new) [sample_info]).
  - apply sample_runs.
  - exact sample_holds.
  - reflexivity.
  - reflexivity.
  - split; reflexivity || (intro E; discriminate E).
Defined.

Lemma detect_correct_witness :
  exists s', detect sample_root sample_info sample_cpuid (fun _ => 0) (fun _ _ => 0) (fun _ => true) (fun _ => 0) 0x400200 0
    (sample_processor CpuFrequency_new) = Done (tt, with_frequency (mkFrequency 2600 CpuIdBrandString) s') /\
    (s' = sample_processor CpuFrequency_new \/ only_storage (sample_processor CpuFrequency_new) s').
Proof.
  apply (detect_correct sample_root sample_info sample_cpuid (fun _ => 0) (fun _ _ => 0) (fun _ => true) (fun _ => 0) 0x400200 0
    (sample_processor CpuFrequency_new) (mkFrequency 2600 CpuIdBrandString)).
  - apply sample_runs.
  - exact sample_ready.
  - vm_compute. reflexivity.
Defined.

(** A microsecond is over at the fourth reading of a counter that gains 1000 between readings. *)
Lemma udelay_ends_witness :
  udelay sample_root (fun i => 1000 * Z.of_nat i) 3 1 (sample_processor (mkFrequency 2600 CpuIdBase)) =
    Done (tt, with_readings 4 (sample_processor (mkFrequency 2600 CpuIdBase))).
Proof.
  apply (udelay_ends sample_root (fun i => 1000 * Z.of_nat i) 3 1 3 (sample_processor (mkFrequency 2600 CpuIdBase))).
  - apply sample_runs.
  - by vm_compute.
  - done.
  - by vm_compute.
  - cbn. lia.
  - intros i Hi. cbn in Hi. assert (i = 1%nat \/ i = 2%nat) as [-> | ->] by lia; by vm_compute.
  - by vm_compute.
Defined.

Definition is_out_of_fuel {A} (o : outcome A) : bool := match o with OutOfFuel => true | _ => false end.

(** The measurement goes on although the timer ticks. *)
Example measurement_goes_on :
  is_out_of_fuel (measure_frequency sample_root sample_info (fun i => 1000 * Z.of_nat i) (fun _ _ => 0) (fun _ => true) (fun _ => 0)
    0x400200 5 (sample_processor CpuFrequency_new)) = true.
Proof. vm_compute. reflexivity. Qed.

End sample.
