(* ===== verification/Timer.v ===== *)
(** * Time for applications: src/syscalls/timer.rs, the sleeping calls of
    src/syscalls/tasks.rs and src/syscalls/random.rs

    The functions behind the system calls, which run with the kernel's rights between
    [kernel_enter!] and [kernel_exit!] ([Isolation.kernel_function]); the pointers come
    from the application. *)

From Stdlib Require Import ZArith Lia String.
From stdpp Require Import base numbers list gmap.
From S2P Require Import Prelude Pte Mmu Paging Mm Mpk Cpu Isolation Bytes Irq CopySafe Storage BootInfo Processor.

#[local] Open Scope Z_scope.

(** ** Data *)

Definition timespec : layout := [("tv_sec", 8); ("tv_nsec", 8)]%string.
Definition timeval : layout := [("tv_sec", 8); ("tv_usec", 8)]%string.

Definition CLOCK_REALTIME : Z := 1.
Definition CLOCK_PROCESS_CPUTIME_ID : Z := 2.
Definition CLOCK_THREAD_CPUTIME_ID : Z := 3.
Definition CLOCK_MONOTONIC : Z := 4.
Definition TIMER_ABSTIME : Z := 4.

(** errno.rs *)
Definition EINVAL : Z := 22.

(** [i64] in memory *)
Definition signed64 (v : Z) : Z := if v <? 2 ^ 63 then v else v - W64.

Section timer.

Context {F : Type} `{FrameSource F}.
Context (root BOOT_INFO : Z) (tsc : nat -> Z).

Abbreviation Run := (M (Processor F)).

Definition store_i64 (a v : Z) : Run unit := on_bay (store_bytes root a (le_bytes 8 v)).
Definition load_i64 (a : Z) : Run Z := on_bay (let! bs := load_bytes root a 8 in ret (signed64 (le bs))).

(** ** timer.rs *)

Definition microseconds_to_timespec (microseconds result : Z) : Run unit :=
  store_i64 (result + offset_of timespec "tv_sec") (microseconds / 1000000) ;;;
  store_i64 (result + offset_of timespec "tv_nsec") (microseconds mod 1000000 * 1000).

Definition microseconds_to_timeval (microseconds result : Z) : Run unit :=
  store_i64 (result + offset_of timeval "tv_sec") (microseconds / 1000000) ;;;
  store_i64 (result + offset_of timeval "tv_usec") (microseconds mod 1000000).

(** [&mut *p] between the gates: the pointer is not followed there. *)
Definition reference (p : Z) : Run Z :=
  start_isolation ;;;
  end_isolation ;;;
  ret p.

Definition sys_clock_getres (clock_id res : Z) : Run Z :=
  massert (negb (res =? 0)) ;;;
  let! result := reference res in
  if bool_decide (clock_id ∈ [CLOCK_REALTIME; CLOCK_PROCESS_CPUTIME_ID; CLOCK_THREAD_CPUTIME_ID; CLOCK_MONOTONIC]) then
    microseconds_to_timespec 1 result ;;;
    ret 0
  else ret (- EINVAL).

Definition sys_clock_gettime (clock_id tp : Z) : Run Z :=
  massert (negb (tp =? 0)) ;;;
  let! result := reference tp in
  if bool_decide (clock_id ∈ [CLOCK_REALTIME; CLOCK_MONOTONIC]) then
    let! microseconds := get_timer_ticks root tsc in
    let! microseconds :=
      if clock_id =? CLOCK_REALTIME then
        let! boot_time := on_bay (get_boot_time root BOOT_INFO) in
        lift (add64 microseconds boot_time)
      else ret microseconds in
    microseconds_to_timespec microseconds result ;;;
    ret 0
  else ret (- EINVAL).

Definition invalid_time (tv_sec tv_nsec : Z) : bool := (tv_sec <? 0) || (tv_nsec <? 0) || (999999999 <? tv_nsec).

Definition to_microseconds (tv_sec tv_nsec : Z) : outcome Z :=
  let? a := mul64 tv_sec 1000000 in
  add64 a (tv_nsec / 1000).

(** The result and, if it comes to that, the microseconds for [sys_usleep], which is called
    after [kernel_exit!]. *)
Definition sys_clock_nanosleep (clock_id flags rqtp : Z) : Run (Z * option Z) :=
  massert (negb (rqtp =? 0)) ;;;
  let! requested_time := reference rqtp in
  let! tv_sec := load_i64 (requested_time + offset_of timespec "tv_sec") in
  let! tv_nsec := load_i64 (requested_time + offset_of timespec "tv_nsec") in
  if invalid_time tv_sec tv_nsec then ret (- EINVAL, None)
  else if bool_decide (clock_id ∈ [CLOCK_REALTIME; CLOCK_MONOTONIC]) then
    let! microseconds := lift (to_microseconds tv_sec tv_nsec) in
    let! microseconds :=
      if 0 <? Z.land flags TIMER_ABSTIME then
        let! ticks := get_timer_ticks root tsc in
        let! microseconds := lift (sub64 microseconds ticks) in
        if clock_id =? CLOCK_REALTIME then
          let! boot_time := on_bay (get_boot_time root BOOT_INFO) in
          lift (sub64 microseconds boot_time)
        else ret microseconds
      else ret microseconds in
    ret (0, Some microseconds)
  else ret (- EINVAL, None).

Definition sys_clock_settime : Run Z := ret (- EINVAL).
Definition sys_setitimer : Run Z := ret 0.

(** [tp.as_mut()] runs on the isolated stack. *)
Definition sys_gettimeofday (tp tz : Z) : Run Z :=
  pke ;;;
  let! p := on_bay (on_cpu (isolate_function_strong root (ret tp))) in
  (if negb (p =? 0) then
     let! boot_time := on_bay (get_boot_time root BOOT_INFO) in
     let! ticks := get_timer_ticks root tsc in
     let! microseconds := lift (add64 boot_time ticks) in
     microseconds_to_timeval microseconds p
   else ret tt) ;;;
  if 0 <? tz then ret (- EINVAL) else ret 0.

(** ** tasks.rs: the calls that end in [sys_usleep] *)

Definition sys_msleep (ms : Z) : outcome Z := mul64 ms 1000.

(** Runs outside the kernel functions, with the application's rights. *)
Definition sys_nanosleep (rqtp : Z) : Run (Z * option Z) :=
  massert (negb (rqtp =? 0)) ;;;
  let! requested_time := reference rqtp in
  let! tv_sec := load_i64 (requested_time + offset_of timespec "tv_sec") in
  let! tv_nsec := load_i64 (requested_time + offset_of timespec "tv_nsec") in
  if invalid_time tv_sec tv_nsec then ret (- EINVAL, None)
  else
    let! microseconds := lift (to_microseconds tv_sec tv_nsec) in
    ret (0, Some microseconds).

(** ** random.rs *)

(** On the content of [PARK_MILLER_LEHMER_SEED] *)
Definition generate_park_miller_lehmer_random_number (seed : Z) : Z * Z :=
  let random := seed * 48271 mod 2147483647 mod 2 ^ 32 in
  (random, random).

(** [random] is what the instruction gives. *)
Definition sys_rand (random seed : Z) : Run (Z * Z) :=
  let! r := generate_random_number root random in
  match r with
  | Some value => ret (value, seed)
  | None => ret (generate_park_miller_lehmer_random_number seed)
  end.

Definition random_init : Run Z :=
  let! t := get_timestamp root tsc in
  ret (t mod 2 ^ 32).

End timer.

(** ** Correctness *)

Section correct.

Context {F : Type} `{FrameSource F}.
Context (root BOOT_INFO : Z) (tsc : nat -> Z).

Implicit Types (s : Processor F).

Lemma store_i64_run s a v {A} (k : unit -> M (Processor F) A) :
  open root (cpu (bay s)) a 8 true ->
  bind (store_i64 root a v) k s = k tt (with_bay (with_bytes (write_at (bytes (bay s)) a (le_bytes 8 v)) (bay s)) s).
Proof. intros Ho. unfold store_i64, on_bay, bind. rewrite store_bytes_run; [done|]. by rewrite length_le_bytes. Qed.

(** The two numbers of a time in memory *)
Definition time_at (d : gmap Z Z) (a : Z) : Z * Z := (le (bytes_at d a 8), le (bytes_at d (a + 8) 8)).

Definition times (d : gmap Z Z) (a sec sub : Z) : gmap Z Z := write_at (write_at d a (le_bytes 8 sec)) (a + 8) (le_bytes 8 sub).

Lemma time_at_times d a sec sub : in_u64 sec -> in_u64 sub -> time_at (times d a sec sub) a = (sec, sub).
Proof.
  intros Hs Hn. unfold time_at, times. f_equal.
  - rewrite (bytes_at_ext (write_at d a (le_bytes 8 sec))).
    + rewrite <- (length_le_bytes 8 sec) at 2. rewrite bytes_at_write_at. apply le_le_bytes. exact Hs.
    + intros x Hx. apply write_at_out. rewrite length_le_bytes. lia.
  - rewrite <- (length_le_bytes 8 sub) at 2. rewrite bytes_at_write_at. apply le_le_bytes. exact Hn.
Qed.

Lemma times_out d a sec sub x : ~ a <= x < a + 16 -> times d a sec sub !! x = d !! x.
Proof. intros Hx. unfold times. by rewrite !write_at_out by (rewrite length_le_bytes; lia). Qed.

Lemma microseconds_to_timespec_run s us result {A} (k : unit -> M (Processor F) A) :
  open root (cpu (bay s)) result 16 true ->
  bind (microseconds_to_timespec root us result) k s =
    k tt (with_bay (with_bytes (times (bytes (bay s)) result (us / 1000000) (us mod 1000000 * 1000)) (bay s)) s).
Proof.
  intros Ho. unfold microseconds_to_timespec. rewrite bind_assoc.
  change (offset_of timespec "tv_sec") with 0. change (offset_of timespec "tv_nsec") with 8. rewrite Z.add_0_r.
  rewrite store_i64_run by (eapply open_sub; [exact Ho|lia|lia]).
  by rewrite store_i64_run by (eapply open_sub; [exact Ho|lia|cbn; lia]).
Qed.

Lemma reference_run s p {A} (k : Z -> M (Processor F) A) :
  kernel_runs root s -> Z.testbit (cr4 s) 22 = true ->
  exists m, gated (cpu (bay s)) m (regs (cpu (bay s)) RSP) (pkru_of (cpu (bay s))) /\
    bind (reference p) k s = k p (with_bay (with_cpu m (bay s)) s).
Proof.
  intros R H22. destruct (gates_run root s (fun _ => k p) R H22) as (m & G & E). exists m. split; [done|].
  rewrite <- E. unfold reference. rewrite bind_assoc. apply bind_cong. intros [] s1. by rewrite bind_assoc.
Qed.

Lemma get_timer_ticks_run s {A} (k : Z -> M (Processor F) A) :
  kernel_runs root s -> mhz (CPU_FREQUENCY s) <> 0 ->
  bind (get_timer_ticks root tsc) k s = k (tsc (readings s) mod W64 / mhz (CPU_FREQUENCY s)) (with_readings (S (readings s)) s).
Proof.
  intros R Hf. pose proof (get_timer_ticks_correct root tsc s R) as E. destruct (Z.eqb_spec (mhz (CPU_FREQUENCY s)) 0); [done|].
  by rewrite (bind_done _ _ _ _ _ E).
Qed.

(** The time of the boot, as the boot information has it. *)
Definition boot_gtod s : Z := field_value BOOT_INFO (bytes (bay s)) "boot_gtod".

Lemma boot_time_run s {A} (k : Z -> M (Processor F) A) :
  boot_ready root BOOT_INFO (bay s) ->
  exists m d, gated (cpu (bay s)) m (regs (cpu (bay s)) RSP) (pkru_of (cpu (bay s))) /\ cleared (bay s) (bytes (bay s)) d /\
    bind (on_bay (get_boot_time root BOOT_INFO)) k s = k (boot_gtod s) (with_bay (with_cpu m (with_bytes d (bay s))) s).
Proof.
  intros R. destruct (read_copied_spec root BOOT_INFO (bay s) "boot_gtod" R) as (m & d & E & G & C); [by apply is_field_test_ok|].
  exists m, d. split_and!; [done|done|]. unfold bind, on_bay, get_boot_time. by rewrite get_unsafe_storage_run, E.
Qed.

(** The microseconds of a clock *)
Definition clock_value s (clock_id : Z) : Z :=
  tsc (readings s) mod W64 / mhz (CPU_FREQUENCY s) + if clock_id =? CLOCK_REALTIME then boot_gtod s else 0.

(** What a call may change: registers the gates use, the storage, and the bytes at [p]. *)
Record only_wrote s (s' : Processor F) (p n : Z) : Prop := {
  ow_rights : gated (cpu (bay s)) (cpu (bay s')) (regs (cpu (bay s)) RSP) (pkru_of (cpu (bay s)));
  ow_bytes : forall x, ~ p <= x < p + n -> ~ kernel_gsbase (bay s) <= x < kernel_gsbase (bay s) + SIZE ->
    bytes (bay s') !! x = bytes (bay s) !! x
}.

(** The time of the clock after the gates, with what reading it does. *)
Lemma clock_run s clock_id {A} (k : Z -> M (Processor F) A) :
  kernel_runs root s -> boot_ready root BOOT_INFO (bay s) -> mhz (CPU_FREQUENCY s) <> 0 -> in_u64 (clock_value s clock_id) ->
  exists s', bind (get_timer_ticks root tsc) (fun microseconds =>
      let! microseconds :=
        if clock_id =? CLOCK_REALTIME then
          let! boot_time := on_bay (get_boot_time root BOOT_INFO) in
          lift (add64 microseconds boot_time)
        else ret microseconds in
      k microseconds) s = k (clock_value s clock_id) s' /\ only_wrote s s' 0 0 /\ kernel_gsbase (bay s') = kernel_gsbase (bay s).
Proof.
  intros R Rb Hf Hu. rewrite get_timer_ticks_run by done. set (t := tsc (readings s) mod W64 / _).
  set (s1 := with_readings _ s). unfold clock_value in *. fold t in Hu |- *.
  destruct (clock_id =? CLOCK_REALTIME).
  - destruct (boot_time_run s1 (fun boot_time => bind (lift (add64 t boot_time)) k) Rb) as (m & d & G & C & E).
    exists (with_bay (with_cpu m (with_bytes d (bay s1))) s1). split_and!.
    + rewrite bind_assoc. etransitivity; [exact E|]. change (boot_gtod s1) with (boot_gtod s).
      by rewrite (bind_lift_done _ _ _ _ (add64_done t (boot_gtod s) Hu)).
    + split; [exact G|]. intros x _ Hx. destruct C as [_ C]. by apply C.
    + done.
  - exists s1. rewrite bind_ret, Z.add_0_r. split_and!; [done|split|done]; [|done].
    by split.
Qed.

(** [sys_clock_gettime] stores the seconds and nanoseconds of the clock, since the boot or,
    for the real time, since 1970, where the pointer says; it changes no other memory but
    the storage, and no right. *)
Theorem clock_gettime_correct s clock_id tp :
  kernel_runs root s -> Z.testbit (cr4 s) 22 = true -> boot_ready root BOOT_INFO (bay s) -> mhz (CPU_FREQUENCY s) <> 0 ->
  clock_id = CLOCK_REALTIME \/ clock_id = CLOCK_MONOTONIC -> in_u64 (clock_value s clock_id) ->
  tp <> 0 -> open root (cpu (bay s)) tp 16 true ->
  exists s', sys_clock_gettime root BOOT_INFO tsc clock_id tp s = Done (0, s') /\ only_wrote s s' tp 16 /\
    time_at (bytes (bay s')) tp = (clock_value s clock_id / 1000000, clock_value s clock_id mod 1000000 * 1000).
Proof.
  intros R H22 Rb Hf Hid Hu Htp Ho. unfold sys_clock_gettime.
  rewrite bind_massert by (by apply negb_true_iff, Z.eqb_neq).
  destruct (reference_run s tp (fun result =>
    if bool_decide (clock_id ∈ [CLOCK_REALTIME; CLOCK_MONOTONIC]) then
      let! microseconds := get_timer_ticks root tsc in
      let! microseconds :=
        if clock_id =? CLOCK_REALTIME then
          let! boot_time := on_bay (get_boot_time root BOOT_INFO) in
          lift (add64 microseconds boot_time)
        else ret microseconds in
      microseconds_to_timespec root microseconds result ;;;
      ret 0
    else ret (- EINVAL)) R H22) as (m1 & G1 & ->).
  rewrite bool_decide_true by (destruct Hid as [-> | ->]; set_solver).
  set (s1 := with_bay (with_cpu m1 (bay s)) s).
  assert (Eb : bay s1 = with_cpu m1 (with_bytes (bytes (bay s)) (bay s))) by (by destruct s as [[]]).
  assert (R1 : kernel_runs root s1).
  { replace s1 with (with_bay (with_cpu m1 (with_bytes (bytes (bay s)) (bay s))) s) by (by rewrite <- Eb). by apply kernel_runs_gated. }
  assert (Rb1 : boot_ready root BOOT_INFO (bay s1)) by (rewrite Eb; by apply object_ready_after).
  destruct (clock_run s1 clock_id (fun microseconds => microseconds_to_timespec root microseconds tp ;;; ret 0) R1 Rb1 Hf Hu)
    as (s2 & -> & [G2 B2] & Eg). change (clock_value s1 clock_id) with (clock_value s clock_id).
  assert (G : gated (cpu (bay s)) (cpu (bay s2)) (regs (cpu (bay s)) RSP) (pkru_of (cpu (bay s)))).
  { change (cpu (bay s1)) with m1 in G2. rewrite (gt_sp _ _ _ _ G1), (gt_pkru _ _ _ _ G1) in G2. by eapply gated_trans. }
  rewrite microseconds_to_timespec_run by (by eapply open_same).
  set (us := clock_value s clock_id) in *. eexists. split_and!; [reflexivity| |].
  - split; [exact G|]. intros x Hx Hs. cbn [bay with_bay bytes with_bytes]. rewrite times_out by done. by apply B2; [lia|].
  - cbn [bay with_bay bytes with_bytes]. unfold in_u64 in Hu. apply time_at_times; unfold in_u64.
    + split; [apply Z.div_pos; lia|]. apply Z.div_lt_upper_bound; lia.
    + pose proof (Z.mod_pos_bound us 1000000 eq_refl). unfold W64. lia.
Qed.

(** *** Pointers of applications *)

(** The gates of [sys_clock_getres] protect the taking of a reference, which accesses nothing;
    the result is stored with the kernel's rights. So an application can have it stored in
    safe memory, which its own rights do not let it write. *)
Theorem clock_getres_writes_safe_memory s clock_id res :
  kernel_runs root s -> Z.testbit (cr4 s) 22 = true ->
  clock_id ∈ [CLOCK_REALTIME; CLOCK_PROCESS_CPUTIME_ID; CLOCK_THREAD_CPUTIME_ID; CLOCK_MONOTONIC] ->
  res <> 0 -> open root (cpu (bay s)) res 16 true -> page_key root (cpu (bay s)) res = Some Mm.SAFE_MEM_REGION ->
  perm_of 0xFC Mm.SAFE_MEM_REGION = MpkNone /\
  exists s', sys_clock_getres root clock_id res s = Done (0, s') /\ only_wrote s s' res 16 /\
    time_at (bytes (bay s')) res = (0, 1000).
Proof.
  intros R H22 Hid Hn Ho Hk. split; [by vm_compute|]. unfold sys_clock_getres.
  rewrite bind_massert by (by apply negb_true_iff, Z.eqb_neq).
  destruct (reference_run s res (fun result =>
    if bool_decide (clock_id ∈ [CLOCK_REALTIME; CLOCK_PROCESS_CPUTIME_ID; CLOCK_THREAD_CPUTIME_ID; CLOCK_MONOTONIC]) then
      microseconds_to_timespec root 1 result ;;; ret 0
    else ret (- EINVAL)) R H22) as (m1 & G1 & ->).
  rewrite bool_decide_true by done. rewrite microseconds_to_timespec_run by (by eapply open_same).
  eexists. split_and!; [reflexivity| |].
  - split; [exact G1|]. intros x Hx _. cbn [bay with_bay bytes with_bytes with_cpu]. by apply times_out.
  - apply time_at_times; by vm_compute.
Qed.

(** An unsupported clock *)
Lemma clock_getres_unsupported s clock_id res :
  kernel_runs root s -> Z.testbit (cr4 s) 22 = true -> res <> 0 -> ~ 1 <= clock_id <= 4 ->
  exists m, sys_clock_getres root clock_id res s = Done (- EINVAL, with_bay (with_cpu m (bay s)) s) /\
    gated (cpu (bay s)) m (regs (cpu (bay s)) RSP) (pkru_of (cpu (bay s))).
Proof.
  intros R H22 Hn Hid. unfold sys_clock_getres. rewrite bind_massert by (by apply negb_true_iff, Z.eqb_neq).
  destruct (reference_run s res (fun result =>
    if bool_decide (clock_id ∈ [CLOCK_REALTIME; CLOCK_PROCESS_CPUTIME_ID; CLOCK_THREAD_CPUTIME_ID; CLOCK_MONOTONIC]) then
      microseconds_to_timespec root 1 result ;;; ret 0
    else ret (- EINVAL)) R H22) as (m1 & G1 & ->).
  exists m1. split; [|done]. rewrite bool_decide_false; [done|].
  unfold CLOCK_REALTIME, CLOCK_PROCESS_CPUTIME_ID, CLOCK_THREAD_CPUTIME_ID, CLOCK_MONOTONIC. rewrite !elem_of_cons, elem_of_nil. lia.
Qed.

Lemma massert_null {A} (k : unit -> M (Processor F) A) s : bind (massert (negb (0 =? 0))) k s = Panic.
Proof. done. Qed.

(** *** Sleeping *)

Lemma to_microseconds_done tv_sec tv_nsec :
  0 <= tv_sec -> 0 <= tv_nsec < 1000000000 -> tv_sec * 1000000 + tv_nsec / 1000 < W64 ->
  to_microseconds tv_sec tv_nsec = Done (tv_sec * 1000000 + tv_nsec / 1000).
Proof.
  intros Hs Hn Hm. unfold to_microseconds. assert (0 <= tv_nsec / 1000) by (apply Z.div_pos; lia).
  rewrite mul64_done by lia. cbn [obind]. by rewrite add64_done by lia.
Qed.

(** A time too long for the counter of microseconds panics: [tv_sec] is not bounded. *)
Lemma to_microseconds_panics tv_sec tv_nsec : W64 <= tv_sec * 1000000 -> to_microseconds tv_sec tv_nsec = Panic.
Proof. intros Hs. unfold to_microseconds, mul64. rewrite checked_panic; [done|]. unfold in_u64. lia. Qed.

(** *** The generator of random numbers *)

Lemma park_miller_range seed :
  0 <= seed -> let (v, seed') := generate_park_miller_lehmer_random_number seed in
  v = seed' /\ 0 <= v < 2147483647 /\ (v = 0 <-> seed mod 2147483647 = 0).
Proof.
  intros Hs. unfold generate_park_miller_lehmer_random_number. pose proof (Z.mod_pos_bound (seed * 48271) 2147483647 eq_refl) as Hb.
  rewrite (Z.mod_small _ (2 ^ 32)) by lia. split_and!; [done|lia|lia|].
  split; intros E.
  - apply Z.mod_divide in E; [|done]. apply Z.mod_divide; [done|].
    apply (Z.gauss 2147483647 48271 seed); [by rewrite Z.mul_comm|by vm_compute].
  - rewrite <- Z.mul_mod_idemp_l by done. by rewrite E.
Qed.

Fixpoint numbers (n : nat) (seed : Z) : list Z :=
  match n with
  | O => []
  | S n => let (v, seed') := generate_park_miller_lehmer_random_number seed in v :: numbers n seed'
  end.

(** The generator never gives 0, or it gives nothing else: a seed that [random_init] takes
    from the counter may be a multiple of 2^31 - 1. *)
Theorem park_miller_zero n seed :
  0 <= seed -> Forall (fun v => v = 0 <-> seed mod 2147483647 = 0) (numbers n seed).
Proof.
  revert seed. induction n as [|n IH]; intros seed Hs; cbn [numbers]; [constructor|].
  pose proof (park_miller_range seed Hs) as Hr. destruct (generate_park_miller_lehmer_random_number seed) as [v seed'].
  destruct Hr as (<- & Hv & E). constructor; [done|]. specialize (IH v ltac:(lia)).
  eapply Forall_impl; [exact IH|]. cbv beta. intros w Hw. rewrite Hw, Z.mod_small by lia. exact E.
Qed.

(** *** Sleeping with the application's rights *)

(** The rights of an application, and what is left of them after the gates. *)
Definition user_pkru : Z := 0xFC.
Definition unlocked_pkru : Z := 0xF0.

Lemma unlocked_perm k : 0 <= k <= 15 ->
  perm_of unlocked_pkru k = if decide (k = Mm.SAFE_MEM_REGION) then MpkRw else perm_of user_pkru k.
Proof.
  intros Hk. change unlocked_pkru with (restored_pkru (isolated_pkru user_pkru)). rewrite restored_perm, isolated_perm by done.
  by case_decide.
Qed.

(** The application may do what it could, and use safe memory. *)
Lemma permitted_unlocked (m m1 : Machine F) a w :
  core_mmu (core m1) = core_mmu (core m) -> pkru_of m = user_pkru -> pkru_of m1 = unlocked_pkru ->
  permitted root m a w = true \/ (page_key root m a = Some Mm.SAFE_MEM_REGION /\ w = false) -> permitted root m1 a w = true.
Proof.
  intros Em Ep Ep1. unfold permitted, page_key. rewrite Em, Ep, Ep1. destruct (walk _ _ _) as [[l e]|]; [|by intros [?|[? _]]].
  rewrite !can_write_perm, !can_read_perm, (unlocked_perm (pkey_of e)) by apply pkey_of_range. cbn [fmap option_fmap option_map snd].
  destruct (decide (pkey_of e = Mm.SAFE_MEM_REGION)) as [E|E].
  - rewrite E. change (perm_of user_pkru Mm.SAFE_MEM_REGION) with MpkNone. destruct w; [|done]. by intros [?|[_ ?]].
  - intros [Hp|[[= Hk] _]]; done.
Qed.

Lemma user_locked (m : Machine F) a w :
  pkru_of m = user_pkru -> page_key root m a = Some Mm.SAFE_MEM_REGION -> permitted root m a w = false.
Proof.
  intros Ep Hk. destruct (permitted root m a w) eqn:E; [|done]. exfalso. apply permitted_key in E as (k & Hk' & Hn).
  rewrite Hk in Hk'. injection Hk' as <-. apply Hn. by rewrite Ep.
Qed.

Lemma load_i64_run s a {A} (k : Z -> M (Processor F) A) :
  open root (cpu (bay s)) a 8 false -> bind (load_i64 root a) k s = k (signed64 (le (bytes_at (bytes (bay s)) a 8))) s.
Proof.
  intros Ho. unfold load_i64, on_bay, bind. rewrite load_bytes_run by done. cbn [obind fst snd ret]. f_equal. by destruct s as [[]].
Qed.

(** The request at [rqtp] *)
Definition request s (rqtp : Z) : Z * Z :=
  (signed64 (le (bytes_at (bytes (bay s)) rqtp 8)), signed64 (le (bytes_at (bytes (bay s)) (rqtp + 8) 8))).

(** C36. [sys_nanosleep] runs with the rights of the application, outside [kernel_enter!], and
    its gates end with access to safe memory. With an invalid request it returns -EINVAL like
    that: all memory that was the kernel's alone can be read by the application from then on.
    A valid request ends in [sys_usleep], whose own gate takes the rights away again. *)
Theorem nanosleep_unlocks_safe_memory s rqtp :
  pkru_of (cpu (bay s)) = user_pkru -> Z.testbit (cr4 s) 22 = true ->
  rqtp <> 0 -> open root (cpu (bay s)) rqtp 16 false ->
  invalid_time (request s rqtp).1 (request s rqtp).2 = true ->
  exists s', sys_nanosleep root rqtp s = Done ((- EINVAL, None), s') /\ pkru_of (cpu (bay s')) = unlocked_pkru /\
    forall a, page_key root (cpu (bay s)) a = Some Mm.SAFE_MEM_REGION ->
      permitted root (cpu (bay s)) a false = false /\ permitted root (cpu (bay s')) a false = true.
Proof.
  intros Hp H22 Hn Ho Hi. destruct (isolation_start_spec (cpu (bay s))) as (m1 & E1 & G1); [rewrite Hp; by vm_compute|].
  destruct (isolation_end_spec m1) as (m2 & E2 & G2).
  { rewrite (gt_pkru _ _ _ _ G1). apply isolated_pkru_u32. rewrite Hp. by vm_compute. }
  assert (P2 : pkru_of m2 = unlocked_pkru) by (rewrite (gt_pkru _ _ _ _ G2), (gt_pkru _ _ _ _ G1), Hp; by vm_compute).
  assert (M2 : core_mmu (core m2) = core_mmu (core (cpu (bay s)))) by (by rewrite (gt_mmu _ _ _ _ G2), (gt_mmu _ _ _ _ G1)).
  set (s1 := with_bay (with_cpu m1 (bay s)) s). set (s2 := with_bay (with_cpu m2 (bay s)) s).
  assert (Ho2 : open root m2 rqtp 16 false).
  { intros x Hx. eapply permitted_unlocked; [exact M2|exact Hp|exact P2|]. left. by apply Ho. }
  exists s2. split_and!; [|exact P2|].
  - unfold sys_nanosleep. rewrite bind_massert by (by apply negb_true_iff, Z.eqb_neq). unfold reference.
    rewrite !bind_assoc, (bind_done _ _ _ _ _ (start_isolation_run s m1 H22 E1)). fold s1.
    rewrite bind_assoc, (bind_done _ _ _ _ _ (end_isolation_run s1 m2 H22 E2)). fold s2.
    change (with_bay (with_cpu m2 (bay s1)) s1) with s2. rewrite bind_ret.
    change (offset_of timespec "tv_sec") with 0. change (offset_of timespec "tv_nsec") with 8. rewrite Z.add_0_r.
    rewrite load_i64_run by (apply (open_sub root _ rqtp 16); [exact Ho2|lia|lia]).
    rewrite load_i64_run by (apply (open_sub root _ rqtp 16); [exact Ho2|lia|cbn; lia]).
    change (bytes (bay s2)) with (bytes (bay s)). unfold request in Hi. cbn [fst snd] in Hi. by rewrite Hi.
  - intros a Hk. split; [by apply user_locked|]. eapply permitted_unlocked; [exact M2|exact Hp|exact P2|]. by right.
Qed.

End correct.

(** ** Examples *)

Section sample.

#[local] Existing Instance Paging.bump_source.

(** The boot information lies in safe memory, its page may be written. *)
Lemma clock_getres_writes_safe_memory_witness :
  exists s', sys_clock_getres sample_root CLOCK_MONOTONIC sample_info (sample_processor CpuFrequency_new) = Done (0, s') /\
    time_at (bytes (bay s')) sample_info = (0, 1000).
Proof.
  destruct (clock_getres_writes_safe_memory sample_root (sample_processor CpuFrequency_new) CLOCK_MONOTONIC sample_info) as (_ & s' & E & _ & T).
  - apply sample_runs.
  - reflexivity.
  - unfold CLOCK_MONOTONIC. set_solver.
  - by vm_compute.
  - apply open_test_ok. vm_compute. reflexivity.
  - vm_compute. reflexivity.
  - exists s'. split; [exact E|exact T].
Defined.

(** 1500 ticks of a 1000 MHz counter after the boot, whose time is 0 here: 1.5 microseconds *)
Lemma clock_gettime_correct_witness :
  exists s', sys_clock_gettime sample_root sample_info (fun _ => 1500000000) CLOCK_REALTIME 0x10000800 (sample_processor (mkFrequency 1000 CpuIdBase)) = Done (0, s') /\
    time_at (bytes (bay s')) 0x10000800 = (1, 500000000).
Proof.
  destruct (clock_gettime_correct sample_root sample_info (fun _ => 1500000000) (sample_processor (mkFrequency 1000 CpuIdBase))
    CLOCK_REALTIME 0x10000800) as (s' & E & _ & T).
  - apply sample_runs.
  - reflexivity.
  - exact sample_ready.
  - by vm_compute.
  - by left.
  - split; by vm_compute.
  - done.
  - apply open_test_ok. vm_compute. reflexivity.
  - exists s'. split; [exact E|]. rewrite T. by vm_compute.
Defined.

(** An application with its stack in a page without a key, which asks for more than a
    second's worth of nanoseconds *)
Definition user_space : Mmu Z :=
  run_state (map sample_root 39 false BasePageSize 0x10002000 0x803000 1 (writable 0)) sample_space.

Definition sample_user : Processor Z :=
  mkProcessor (mkBay (mkMachine sample_regs 0x202 0 0 0 ∅ (mkCore 0xFC user_space) sample_task)
      {[0x10002008 + 7 := 0x10]} [] 0 0x10001000)
    sample_interrupts CpuFrequency_new CpuSpeedStep_new sample_supports (Z.shiftl 1 22) 0 [] 0.

Lemma nanosleep_unlocks_safe_memory_witness :
  permitted sample_root (cpu (bay sample_user)) sample_info false = false /\
  exists s', sys_nanosleep sample_root 0x10002000 sample_user = Done ((- EINVAL, None), s') /\
    permitted sample_root (cpu (bay s')) sample_info false = true.
Proof.
  destruct (nanosleep_unlocks_safe_memory sample_root sample_user 0x10002000) as (s' & E & _ & Ha).
  - vm_compute. reflexivity.
  - reflexivity.
  - done.
  - apply open_test_ok. vm_compute. reflexivity.
  - vm_compute. reflexivity.
  - destruct (Ha sample_info) as [H0 H1]; [vm_compute; reflexivity|]. split; [exact H0|]. exists s'. split; [exact E|exact H1].
Defined.

End sample.
