(* ===== verification/Pci.v ===== *)
(** * The PCI bus: src/arch/x86_64/kernel/pci.rs

    Accesses to the configuration space go through an address port and a data port. What a
    device answers depends on what was sent before; [hardware] gives the answer to a read
    after a history of accesses. *)

From Stdlib Require Import ZArith Lia.
From stdpp Require Import base numbers list gmap.
From S2P Require Import Prelude.

#[local] Open Scope Z_scope.

Definition PCI_MAX_BUS_NUMBER : nat := 32.
Definition PCI_MAX_DEVICE_NUMBER : nat := 32.
Definition PCI_CONFIG_ADDRESS_PORT : Z := 0xCF8.
Definition PCI_CONFIG_ADDRESS_ENABLE : Z := Z.shiftl 1 31.
Definition PCI_CONFIG_DATA_PORT : Z := 0xCFC.
Definition PCI_COMMAND_BUSMASTER : Z := Z.shiftl 1 2.
Definition PCI_ID_REGISTER : Z := 0x00.
Definition PCI_COMMAND_REGISTER : Z := 0x04.
Definition PCI_CLASS_REGISTER : Z := 0x08.
Definition PCI_BAR0_REGISTER : Z := 0x10.
Definition PCI_INTERRUPT_REGISTER : Z := 0x3C.
Definition PCI_BASE_ADDRESS_MASK : Z := 0xFFFFFFF0.
Definition u32_MAX : Z := 0xFFFFFFFF.

Record PciAdapter := mkAdapter {
  bus : Z;
  device : Z;
  vendor_id : Z;
  device_id : Z;
  class_id : Z;
  subclass_id : Z;
  programming_interface_id : Z;
  base_addresses : list Z;
  base_sizes : list Z;
  irq : Z
}.

(** [outl] and [inl] *)
Inductive access := Outl (port v : Z) | Inl (port : Z).

(** The accesses so far, and [PCI_ADAPTERS] *)
Record Pci := mkPci { history : list access; PCI_ADAPTERS : list PciAdapter }.

Section pci.

Context (hardware : list access -> Z -> Z).

Abbreviation Run := (M Pci).

Definition outl (port v : Z) : Run unit := modify (fun s => mkPci (history s ++ [Outl port v]) (PCI_ADAPTERS s)).

Definition inl (port : Z) : Run Z :=
  let! h := gets history in
  modify (fun s => mkPci (h ++ [Inl port]) (PCI_ADAPTERS s)) ;;;
  ret (hardware h port).

Definition config_address (bus device register : Z) : Z :=
  Z.lor (Z.lor (Z.lor PCI_CONFIG_ADDRESS_ENABLE (Z.shiftl bus 16)) (Z.shiftl device 11)) register.

Definition read_config (bus device register : Z) : Run Z :=
  let address := config_address bus device register in
  outl PCI_CONFIG_ADDRESS_PORT address ;;;
  inl PCI_CONFIG_DATA_PORT.

Definition write_config (bus device register data : Z) : Run unit :=
  let address := config_address bus device register in
  outl PCI_CONFIG_ADDRESS_PORT address ;;;
  outl PCI_CONFIG_DATA_PORT data.

(** [!x] and [+] on [u32] *)
Definition not32 (x : Z) : Z := Z.ldiff (Z.ones 32) x.
Definition add32 (a b : Z) : outcome Z := if a + b <? 2 ^ 32 then Done (a + b) else Panic.

(** The body of the loop over the base address registers *)
Definition probe_bar (bus device : Z) (i : nat) : Run (Z * Z) :=
  let register := PCI_BAR0_REGISTER + Z.shiftl (Z.of_nat i) 2 in
  let! v := read_config bus device register in
  let base_address := Z.land v 0xFFFFFFFC in
  if 0 <? base_address then
    write_config bus device register u32_MAX ;;;
    let! w := read_config bus device register in
    let! base_size := lift (add32 (not32 (Z.land w PCI_BASE_ADDRESS_MASK)) 1) in
    write_config bus device register base_address ;;;
    ret (base_address, base_size)
  else ret (base_address, 0).

(** [for i in 0..6] *)
Fixpoint probe_bars (bus device : Z) (i n : nat) : Run (list (Z * Z)) :=
  match n with
  | O => ret []
  | S n =>
      let! b := probe_bar bus device i in
      let! bs := probe_bars bus device (S i) n in
      ret (b :: bs)
  end.

Definition PciAdapter_new (bus device vendor_id device_id : Z) : Run PciAdapter :=
  let! class_ids := read_config bus device PCI_CLASS_REGISTER in
  let! bars := probe_bars bus device 0 6 in
  let! interrupt_info := read_config bus device PCI_INTERRUPT_REGISTER in
  ret (mkAdapter bus device vendor_id device_id (Z.shiftr class_ids 24 mod 256) (Z.shiftr class_ids 16 mod 256)
         (Z.shiftr class_ids 8 mod 256) (fst <$> bars) (snd <$> bars) (interrupt_info mod 256)).

Definition make_bus_master (a : PciAdapter) : Run unit :=
  let! command := read_config (bus a) (device a) PCI_COMMAND_REGISTER in
  write_config (bus a) (device a) PCI_COMMAND_REGISTER (Z.lor command PCI_COMMAND_BUSMASTER).

Definition get_adapter (vendor device : Z) : Run (option PciAdapter) :=
  let! adapters := gets PCI_ADAPTERS in
  ret (List.find (fun a => (vendor_id a =? vendor) && (device_id a =? device)) adapters).

(** The body of the loops of [init] *)
Definition scan_device (bus device : Z) : Run unit :=
  let! device_vendor_id := read_config bus device PCI_ID_REGISTER in
  if negb (device_vendor_id =? u32_MAX) then
    let device_id := Z.shiftr device_vendor_id 16 mod 2 ^ 16 in
    let vendor_id := device_vendor_id mod 2 ^ 16 in
    let! a := PciAdapter_new bus device vendor_id device_id in
    modify (fun s => mkPci (history s) (PCI_ADAPTERS s ++ [a]))
  else ret tt.

Fixpoint scan_devices (l : list (Z * Z)) : Run unit :=
  match l with
  | [] => ret tt
  | (bus, device) :: l => scan_device bus device ;;; scan_devices l
  end.

(** [for bus in 0..PCI_MAX_BUS_NUMBER] and [for device in 0..PCI_MAX_DEVICE_NUMBER] *)
Definition slots : list (Z * Z) :=
  b ← seq 0 PCI_MAX_BUS_NUMBER; d ← seq 0 PCI_MAX_DEVICE_NUMBER; [(Z.of_nat b, Z.of_nat d)].

Definition init : Run unit := scan_devices slots.

End pci.

(** ** A bus with devices

    The configuration space as the PCI specification has it: the address port selects a
    register of a slot; a register that a device implements is a word of which some bits can
    be written; other registers of a device are 0 and an empty slot reads as all ones. *)

Record Register := mkRegister { value : Z; writable_bits : Z }.

(** A device's registers, by offset *)
Abbreviation Device := (gmap Z Register).

(** The slots with devices, and the word in the address port *)
Record Bus := mkBus { devices : gmap (Z * Z) Device; latch : Z }.

(** The fields of the word in the address port: a bus of 8 bits, a device of 5, a function
    of 3, which is 0 here, and a register. *)
Definition latched (w : Z) : option (Z * Z * Z) :=
  if Z.testbit w 31 && (Z.shiftr w 8 mod 8 =? 0)
  then Some (Z.shiftr w 16 mod 256, Z.shiftr w 11 mod 32, w mod 256) else None.

Definition register_value (d : Device) (r : Z) : Z := default 0 (value <$> d !! r).

(** Writing [v]: the bits that cannot be written stay. *)
Definition written (v : Z) (r : Register) : Register :=
  mkRegister (Z.lor (Z.land v (writable_bits r)) (Z.ldiff (value r) (writable_bits r))) (writable_bits r).

Definition bus_step (b : Bus) (a : access) : Bus :=
  match a with
  | Outl port v =>
      if port =? PCI_CONFIG_ADDRESS_PORT then mkBus (devices b) v
      else if port =? PCI_CONFIG_DATA_PORT then
        match latched (latch b) with
        | Some (bus, device, r) => mkBus (alter (alter (written v) r) (bus, device) (devices b)) (latch b)
        | None => b
        end
      else b
  | Inl _ => b
  end.

Definition bus_read (b : Bus) (port : Z) : Z :=
  if port =? PCI_CONFIG_DATA_PORT then
    match latched (latch b) with
    | Some (bus, device, r) =>
        match devices b !! (bus, device) with Some d => register_value d r | None => u32_MAX end
    | None => u32_MAX
    end
  else u32_MAX.

(** The answers of a bus that was [b] at first *)
Definition bus_hardware (b : Bus) (h : list access) (port : Z) : Z := bus_read (foldl bus_step b h) port.

(** ** Correctness *)

(** *** Addresses in the configuration space *)

Lemma lor_shifted a k n : 0 <= k -> 0 <= n < 2 ^ k -> Z.lor (a * 2 ^ k) n = a * 2 ^ k + n.
Proof. intros Hk Hn. apply (lor_add_low _ _ k); [done|by apply Z.mod_mul, Z.pow_nonzero|done]. Qed.

Definition slot_ok (bus device : Z) : Prop := 0 <= bus < 256 /\ 0 <= device < 32.

Lemma config_address_sum bus device register :
  slot_ok bus device -> 0 <= register < 256 ->
  config_address bus device register = 2 ^ 31 + bus * 2 ^ 16 + device * 2 ^ 11 + register.
Proof.
  intros [Hb Hd] Hr. unfold config_address, PCI_CONFIG_ADDRESS_ENABLE. rewrite Z.shiftl_1_l, !Z.shiftl_mul_pow2 by done.
  replace (2 ^ 31) with (2 ^ 15 * 2 ^ 16) by done.
  rewrite <- Z.lor_assoc. rewrite (lor_shifted device 11 register) by lia.
  rewrite <- Z.lor_assoc. rewrite (lor_shifted bus 16 (device * 2 ^ 11 + register)) by lia.
  change (2 ^ 15 * 2 ^ 16) with (1 * 2 ^ 31) at 1. rewrite (lor_shifted 1 31) by lia. lia.
Qed.

(** The word [read_config] and [write_config] send selects the register they mean. *)
Lemma latched_config bus device register :
  slot_ok bus device -> 0 <= register < 256 -> latched (config_address bus device register) = Some (bus, device, register).
Proof.
  intros Hs Hr. rewrite config_address_sum by done. destruct Hs as [Hb Hd]. set (w := _ + register).
  assert (H31 : Z.testbit w 31 = true).
  { rewrite Z.testbit_true by done. replace (w / 2 ^ 31) with 1; [done|].
    apply (Z.div_unique _ _ _ (bus * 2 ^ 16 + device * 2 ^ 11 + register)); unfold w; lia. }
  assert (Hw8 : w / 2 ^ 8 = 2 ^ 23 + bus * 2 ^ 8 + device * 2 ^ 3).
  { symmetry. apply (Z.div_unique _ _ _ register); unfold w; lia. }
  assert (Hw11 : w / 2 ^ 11 = 2 ^ 20 + bus * 2 ^ 5 + device).
  { symmetry. apply (Z.div_unique _ _ _ register); unfold w; lia. }
  assert (Hw16 : w / 2 ^ 16 = 2 ^ 15 + bus).
  { symmetry. apply (Z.div_unique _ _ _ (device * 2 ^ 11 + register)); unfold w; lia. }
  unfold latched. rewrite H31, !Z.shiftr_div_pow2, Hw8, Hw11, Hw16 by done.
  replace ((2 ^ 23 + bus * 2 ^ 8 + device * 2 ^ 3) mod 8) with 0.
  2: { apply (Z.mod_unique _ _ (2 ^ 20 + bus * 2 ^ 5 + device)); lia. }
  cbn [andb Z.eqb]. do 2 f_equal; [f_equal|].
  - symmetry. apply (Z.mod_unique _ _ (2 ^ 7)); lia.
  - symmetry. apply (Z.mod_unique _ _ (2 ^ 15 + bus)); lia.
  - symmetry. apply (Z.mod_unique _ _ (2 ^ 23 + bus * 2 ^ 8 + device * 2 ^ 3)); unfold w; lia.
Qed.

Section bus.

(** The bus before the first access *)
Context (b : Bus).

Abbreviation hw := (bus_hardware b).

(** The bus after the accesses of [s] *)
Definition now (s : Pci) : Bus := foldl bus_step b (history s).

(** Two states with the same devices and adapters *)
Definition like (s s' : Pci) : Prop := devices (now s') = devices (now s) /\ PCI_ADAPTERS s' = PCI_ADAPTERS s.

Lemma like_trans s s1 s2 : like s s1 -> like s1 s2 -> like s s2.
Proof. intros [A1 A2] [B1 B2]. split; congruence. Qed.

Definition config_word (m : gmap (Z * Z) Device) (bus device register : Z) : Z :=
  match m !! (bus, device) with Some d => register_value d register | None => u32_MAX end.

Lemma read_config_run s bus device register {A} (k : Z -> M Pci A) :
  slot_ok bus device -> 0 <= register < 256 ->
  exists s', like s s' /\
    bind (read_config hw bus device register) k s = k (config_word (devices (now s)) bus device register) s'.
Proof.
  intros Hs Hr. unfold read_config, outl, inl. rewrite bind_assoc, bind_modify. rewrite bind_assoc, bind_gets, bind_assoc, bind_modify.
  cbn [history PCI_ADAPTERS]. eexists. split; [|unfold ret, bind; cbn [obind fst snd]; f_equal].
  - unfold like, now. cbn [history PCI_ADAPTERS]. by rewrite !foldl_app.
  - unfold bus_hardware, bus_read. rewrite foldl_app. cbn. by rewrite latched_config.
Qed.

Lemma write_config_run s bus device register v {A} (k : unit -> M Pci A) :
  slot_ok bus device -> 0 <= register < 256 ->
  exists s', devices (now s') = alter (alter (written v) register) (bus, device) (devices (now s)) /\
    PCI_ADAPTERS s' = PCI_ADAPTERS s /\ bind (write_config bus device register v) k s = k tt s'.
Proof.
  intros Hs Hr. unfold write_config, outl. rewrite bind_assoc, !bind_modify. eexists. split_and!; [| |reflexivity]; [|done].
  unfold now. cbn [history]. rewrite !foldl_app. cbn. by rewrite latched_config.
Qed.

(** *** Base address registers *)

(** In a register that holds an address, the low two bits are fixed and some of the bits from
    4 on are decoded. *)
Record bar_ok (r : Register) : Prop := {
  bar_value : 0 <= value r < 2 ^ 32;
  bar_writable : 0 <= writable_bits r < 2 ^ 32;
  bar_fixed : 0 < Z.land (value r) 0xFFFFFFFC -> Z.land (writable_bits r) 3 = 0;
  bar_decodes : 0 < Z.land (value r) 0xFFFFFFFC -> Z.land (value (written u32_MAX r)) PCI_BASE_ADDRESS_MASK <> 0
}.

(** What the loop computes from a register: what the register says is [region_found] below. *)
Definition bar_of (r : Register) : Z * Z :=
  let base := Z.land (value r) 0xFFFFFFFC in
  (base, if 0 <? base then 2 ^ 32 - Z.land (value (written u32_MAX r)) PCI_BASE_ADDRESS_MASK else 0).

Lemma bit_below n x i : 0 <= x < 2 ^ n -> n <= i -> Z.testbit x i = false.
Proof.
  intros Hx Hi. destruct (decide (x = 0)) as [->|]; [apply Z.bits_0|]. apply Z.bits_above_log2; [lia|].
  apply Z.log2_lt_pow2; [lia|]. pose proof (Z.pow_le_mono_r 2 n i). lia.
Qed.

Lemma fixed_bits w i : Z.land w 3 = 0 -> i = 0 \/ i = 1 -> Z.testbit w i = false.
Proof.
  intros Hw Hi. assert (Hb : Z.testbit (Z.land w 3) i = false) by (by rewrite Hw, Z.bits_0). rewrite Z.land_spec in Hb.
  destruct Hi as [-> | ->]; by rewrite andb_true_r in Hb.
Qed.

Lemma testbit_FFFFFFFC i : 0 <= i -> Z.testbit 0xFFFFFFFC i = (2 <=? i) && (i <? 32).
Proof.
  intros Hi. change 0xFFFFFFFC with (Z.shiftl (Z.ones 30) 2). by rewrite testbit_field.
Qed.

(** Writing the address back restores the register. *)
Lemma written_back r : bar_ok r -> 0 < Z.land (value r) 0xFFFFFFFC -> written (Z.land (value r) 0xFFFFFFFC) (written u32_MAX r) = r.
Proof.
  intros [Hv Hw Hf _] Hb. specialize (Hf Hb). destruct r as [v w]. cbn [value writable_bits] in *. unfold written. cbn [value writable_bits]. f_equal.
  apply Z.bits_inj'. intros i Hi. rewrite !Z.lor_spec, !Z.ldiff_spec, !Z.lor_spec, !Z.ldiff_spec, !Z.land_spec, testbit_FFFFFFFC by done.
  destruct (Z.testbit w i) eqn:E; rewrite ?andb_false_r, ?andb_true_r, ?orb_false_r, ?orb_false_l; cbn [negb]; [|done].
  destruct (Z.leb_spec 2 i) as [H2|H2]; [|rewrite (fixed_bits w i) in E by (done || lia); done].
  destruct (Z.ltb_spec i 32) as [H3|H3]; [by rewrite !andb_true_r|by rewrite (bit_below 32 w i) in E by lia].
Qed.

Lemma mask_range x : 0 <= Z.land x PCI_BASE_ADDRESS_MASK < 2 ^ 32.
Proof.
  split; [apply Z.land_nonneg; by right|]. change PCI_BASE_ADDRESS_MASK with (Z.land (Z.ones 32) PCI_BASE_ADDRESS_MASK).
  rewrite Z.land_comm, <- Z.land_assoc, Z.land_comm, Z.land_ones by done. by apply Z.mod_pos_bound.
Qed.

Lemma not32_sub x : 0 <= x < 2 ^ 32 -> not32 x = 2 ^ 32 - 1 - x.
Proof.
  intros Hx. unfold not32. change (2 ^ 32 - 1) with (Z.ones 32). rewrite Z.sub_nocarry_ldiff; [done|]. apply Z.bits_inj'. intros i Hi.
  rewrite Z.ldiff_spec, Z.testbit_ones_nonneg, Z.bits_0 by lia. destruct (Z.ltb_spec i 32); [by rewrite andb_false_r|].
  by rewrite (bit_below 32 x i).
Qed.

(** A step over an access at the head of the goal's program *)
Ltac run_read s r s' L E :=
  match goal with |- context [bind (bind (read_config _ ?bus ?device _) ?K) ?k s] =>
    match goal with Hs : slot_ok bus device |- _ =>
      destruct (read_config_run s bus device r (fun v => bind (K v) k) Hs ltac:(solve [assumption | done])) as (s' & L & E) end end.

Ltac run_write s r w s' D A E :=
  match goal with |- context [bind (bind (write_config ?bus ?device _ _) ?K) ?k s] =>
    match goal with Hs : slot_ok bus device |- _ =>
      destruct (write_config_run s bus device r w (fun v => bind (K v) k) Hs ltac:(solve [assumption | done])) as (s' & D & A & E) end end.

(** Registers of the devices *)
Definition register_at (m : gmap (Z * Z) Device) (bus device r : Z) : Register :=
  default (mkRegister 0 0) (m !! (bus, device) ≫= (.!! r)).

Lemma config_word_register m bus device r :
  is_Some (m !! (bus, device)) -> config_word m bus device r = value (register_at m bus device r).
Proof. unfold config_word, register_at, register_value. intros [d ->]. cbn. by destruct (d !! r). Qed.

Definition bar_register (i : nat) : Z := PCI_BAR0_REGISTER + Z.shiftl (Z.of_nat i) 2.

Lemma bar_register_range i : (i < 6)%nat -> 0 <= bar_register i < 256.
Proof. intros Hi. unfold bar_register, PCI_BAR0_REGISTER. rewrite Z.shiftl_mul_pow2 by done. lia. Qed.

Lemma alter_twice {K A} `{Countable K} (f g : A -> A) k (m : gmap K A) :
  (forall x, m !! k = Some x -> f (g x) = x) -> alter f k (alter g k m) = m.
Proof.
  intros Hf. apply map_eq. intros j. destruct (decide (k = j)) as [<-|Hj].
  - rewrite !lookup_alter_eq. destruct (m !! k) as [x|] eqn:E; cbn; [|done]. by rewrite (Hf x).
  - by rewrite !lookup_alter_ne.
Qed.

Lemma restored (m : gmap (Z * Z) Device) slot r (f g : Register -> Register) :
  (forall d x, m !! slot = Some d -> d !! r = Some x -> f (g x) = x) ->
  alter (alter f r) slot (alter (alter g r) slot m) = m.
Proof.
  intros Hf. apply alter_twice. intros d Hd. apply alter_twice. intros x Hx. by apply (Hf d).
Qed.

Lemma register_exists (m : gmap (Z * Z) Device) bus device d r :
  m !! (bus, device) = Some d -> 0 < Z.land (value (register_at m bus device r)) 0xFFFFFFFC ->
  d !! r = Some (register_at m bus device r).
Proof. unfold register_at. intros ->. cbn [mbind option_bind]. by destruct (d !! r). Qed.

Lemma config_word_written (m : gmap (Z * Z) Device) bus device d r x v :
  m !! (bus, device) = Some d -> d !! r = Some x ->
  config_word (alter (alter (written v) r) (bus, device) m) bus device r = value (written v x).
Proof.
  intros Hd Hx. unfold config_word, register_value. rewrite lookup_alter_eq, Hd. cbn [fmap option_fmap option_map].
  by rewrite lookup_alter_eq, Hx.
Qed.

(** Probing a register leaves it as it was. *)
Lemma probe_bar_run s bus device i {A} (k : Z * Z -> M Pci A) :
  slot_ok bus device -> (i < 6)%nat -> is_Some (devices (now s) !! (bus, device)) ->
  let r := register_at (devices (now s)) bus device (bar_register i) in
  bar_ok r -> exists s', like s s' /\ bind (probe_bar hw bus device i) k s = k (bar_of r) s'.
Proof.
  intros Hs Hi Hd r Hr. pose proof (bar_register_range i Hi) as Hrange. unfold probe_bar. fold (bar_register i).
  run_read s (bar_register i) s1 L1 E1; rewrite bind_assoc, E1, (config_word_register _ _ _ _ Hd).
  fold r. unfold bar_of. set (base := Z.land (value r) 0xFFFFFFFC) in *.
  destruct (Z.ltb_spec 0 base) as [Hb|Hb]; [|by exists s1].
  destruct Hd as [d Hd]. pose proof (register_exists _ _ _ _ _ Hd Hb) as Hreg. fold r in Hreg. cbv beta zeta.
  run_write s1 (bar_register i) u32_MAX s2 D2 A2 E2; rewrite bind_assoc, E2. rewrite (proj1 L1) in D2.
  run_read s2 (bar_register i) s3 L3 E3; rewrite bind_assoc, E3, D2, (config_word_written _ _ _ _ _ _ _ Hd Hreg).
  set (x := Z.land (value (written u32_MAX r)) PCI_BASE_ADDRESS_MASK).
  pose proof (mask_range (value (written u32_MAX r))) as Hx. pose proof (bar_decodes _ Hr Hb) as Hnz. fold x in Hx, Hnz.
  assert (Ea : add32 (not32 x) 1 = Done (2 ^ 32 - x)).
  { rewrite not32_sub by done. unfold add32. destruct (Z.ltb_spec (2 ^ 32 - 1 - x + 1) (2 ^ 32)); [f_equal|]; lia. }
  rewrite bind_assoc, (bind_lift_done _ _ _ _ Ea).
  run_write s3 (bar_register i) base s4 D4 A4 E4; rewrite bind_assoc, E4. exists s4. split; [|done]. split.
  - rewrite D4, (proj1 L3), D2. apply restored. intros d' y Hd' Hy. rewrite Hd in Hd'. injection Hd' as <-.
    rewrite Hreg in Hy. injection Hy as <-. by apply written_back.
  - rewrite A4, (proj2 L3), A2. apply L1.
Qed.

Definition bars_from (m : gmap (Z * Z) Device) (bus device : Z) (i n : nat) : list (Z * Z) :=
  (fun j => bar_of (register_at m bus device (bar_register j))) <$> seq i n.

Lemma probe_bars_run s bus device i n {A} (k : list (Z * Z) -> M Pci A) :
  slot_ok bus device -> (i + n <= 6)%nat -> is_Some (devices (now s) !! (bus, device)) ->
  (forall j, (j < 6)%nat -> bar_ok (register_at (devices (now s)) bus device (bar_register j))) ->
  exists s', like s s' /\ bind (probe_bars hw bus device i n) k s = k (bars_from (devices (now s)) bus device i n) s'.
Proof.
  revert s i k. induction n as [|n IH]; intros s i k Hs Hi Hd Hr; [by exists s|]. cbn [probe_bars].
  match goal with |- context [bind (bind (probe_bar _ _ _ _) ?K) k s] =>
    destruct (probe_bar_run s bus device i (fun v => bind (K v) k) Hs ltac:(lia) Hd (Hr i ltac:(lia))) as (s1 & L1 & E1) end.
  rewrite bind_assoc, E1. set (x := bar_of _).
  destruct (IH s1 (S i) (fun bs => k (x :: bs)) Hs ltac:(lia)) as (s2 & L2 & E2); [by rewrite (proj1 L1)|by rewrite (proj1 L1)|].
  exists s2. split; [by eapply like_trans|]. rewrite bind_assoc. etransitivity; [exact E2|]. by rewrite (proj1 L1).
Qed.

(** *** Adapters *)

(** What [init] makes of a device *)
Definition adapter_of (m : gmap (Z * Z) Device) (bus device : Z) : PciAdapter :=
  let word r := value (register_at m bus device r) in
  let bars := bars_from m bus device 0 6 in
  mkAdapter bus device (word PCI_ID_REGISTER mod 2 ^ 16) (Z.shiftr (word PCI_ID_REGISTER) 16 mod 2 ^ 16)
    (Z.shiftr (word PCI_CLASS_REGISTER) 24 mod 256) (Z.shiftr (word PCI_CLASS_REGISTER) 16 mod 256)
    (Z.shiftr (word PCI_CLASS_REGISTER) 8 mod 256) (fst <$> bars) (snd <$> bars)
    (word PCI_INTERRUPT_REGISTER mod 256).

(** A device that can be seen, with registers as the specification has them *)
Record device_ok (m : gmap (Z * Z) Device) (bus device : Z) : Prop := {
  dv_id : value (register_at m bus device PCI_ID_REGISTER) <> u32_MAX;
  dv_bars : forall j, (j < 6)%nat -> bar_ok (register_at m bus device (bar_register j))
}.

Lemma PciAdapter_new_run s bus device {A} (k : PciAdapter -> M Pci A) :
  slot_ok bus device -> is_Some (devices (now s) !! (bus, device)) -> device_ok (devices (now s)) bus device ->
  let id := value (register_at (devices (now s)) bus device PCI_ID_REGISTER) in
  exists s', like s s' /\
    bind (PciAdapter_new hw bus device (id mod 2 ^ 16) (Z.shiftr id 16 mod 2 ^ 16)) k s = k (adapter_of (devices (now s)) bus device) s'.
Proof.
  intros Hs Hd [_ Hb] id. unfold PciAdapter_new.
  run_read s PCI_CLASS_REGISTER s1 L1 E1; rewrite bind_assoc, E1, (config_word_register _ _ _ _ Hd).
  match goal with |- context [bind (bind (probe_bars _ _ _ _ _) ?K) k s1] =>
    destruct (probe_bars_run s1 bus device 0 6 (fun v => bind (K v) k) Hs ltac:(lia)) as (s2 & L2 & E2); [by rewrite (proj1 L1)..|] end.
  rewrite bind_assoc, E2.
  run_read s2 PCI_INTERRUPT_REGISTER s3 L3 E3; rewrite bind_assoc, E3. exists s3.
  split; [eapply like_trans; [exact L1|by eapply like_trans]|].
  rewrite bind_ret. rewrite config_word_register by (by rewrite (proj1 L2), (proj1 L1)). by rewrite (proj1 L2), (proj1 L1).
Qed.

Lemma scan_device_run s bus device {A} (k : unit -> M Pci A) :
  slot_ok bus device -> (is_Some (devices (now s) !! (bus, device)) -> device_ok (devices (now s)) bus device) ->
  exists s', devices (now s') = devices (now s) /\
    PCI_ADAPTERS s' = PCI_ADAPTERS s ++
      match devices (now s) !! (bus, device) with Some _ => [adapter_of (devices (now s)) bus device] | None => [] end /\
    bind (scan_device hw bus device) k s = k tt s'.
Proof.
  intros Hs Hok. unfold scan_device.
  run_read s PCI_ID_REGISTER s1 L1 E1; rewrite bind_assoc, E1. destruct (devices (now s) !! (bus, device)) as [d|] eqn:Ed.
  - specialize (Hok ltac:(done)). rewrite config_word_register by (by rewrite Ed).
    destruct (Z.eqb_spec (value (register_at (devices (now s)) bus device PCI_ID_REGISTER)) u32_MAX) as [E|_]; [by destruct (dv_id _ _ _ Hok)|].
    cbn [negb]. match goal with |- context [bind (bind (PciAdapter_new _ _ _ _ _) ?K) k s1] =>
      destruct (PciAdapter_new_run s1 bus device (fun a => bind (K a) k) Hs) as (s2 & L2 & E2); [by rewrite (proj1 L1), Ed|by rewrite (proj1 L1)|] end.
    rewrite (proj1 L1) in E2. rewrite bind_assoc, E2, bind_modify. eexists. split_and!; [| |reflexivity].
    + change (devices (now s2) = devices (now s)). rewrite (proj1 L2). apply L1.
    + cbn [PCI_ADAPTERS]. rewrite (proj2 L2), (proj2 L1). done.
  - unfold config_word. rewrite Ed. exists s1. split_and!; [apply L1|by rewrite app_nil_r, (proj2 L1)|done].
Qed.

Definition found (m : gmap (Z * Z) Device) (l : list (Z * Z)) : list PciAdapter :=
  omap (fun slot => (fun _ => adapter_of m slot.1 slot.2) <$> m !! slot) l.

Lemma scan_devices_run l s :
  Forall (fun slot => slot_ok slot.1 slot.2) l ->
  (forall slot, slot ∈ l -> is_Some (devices (now s) !! slot) -> device_ok (devices (now s)) slot.1 slot.2) ->
  exists s', scan_devices hw l s = Done (tt, s') /\ devices (now s') = devices (now s) /\
    PCI_ADAPTERS s' = PCI_ADAPTERS s ++ found (devices (now s)) l.
Proof.
  revert s. induction l as [|[bus device] l IH]; intros s Hl Hok.
  - exists s. split_and!; [done|done|]. by rewrite app_nil_r.
  - apply Forall_cons in Hl as [Hs Hl]. cbn [scan_devices].
    destruct (scan_device_run s bus device (fun _ => scan_devices hw l) Hs) as (s1 & D1 & A1 & E1).
    { apply (Hok (bus, device)). apply elem_of_cons. by left. }
    destruct (IH s1 Hl) as (s2 & E2 & D2 & A2).
    { rewrite D1. intros slot Hin. apply Hok. apply elem_of_cons. by right. }
    exists s2. split_and!; [by rewrite E1|by rewrite D2|]. rewrite A2, A1, D1, <- (assoc_L app). f_equal.
    unfold found. cbn [omap list_omap]. by destruct (devices (now s) !! (bus, device)).
Qed.

(** A register with an address that cannot be written makes the negation overflow. *)
Lemma fixed_bar_panics s bus device i {A} (k : Z * Z -> M Pci A) :
  slot_ok bus device -> (i < 6)%nat -> is_Some (devices (now s) !! (bus, device)) ->
  let r := register_at (devices (now s)) bus device (bar_register i) in
  0 < Z.land (value r) 0xFFFFFFFC -> Z.land (value (written u32_MAX r)) PCI_BASE_ADDRESS_MASK = 0 ->
  bind (probe_bar hw bus device i) k s = Panic.
Proof.
  intros Hs Hi Hd r Hb Hz. pose proof (bar_register_range i Hi) as Hrange. unfold probe_bar. fold (bar_register i).
  run_read s (bar_register i) s1 L1 E1; rewrite bind_assoc, E1, (config_word_register _ _ _ _ Hd). fold r. cbv beta zeta.
  destruct (Z.ltb_spec 0 (Z.land (value r) 0xFFFFFFFC)); [|lia].
  destruct Hd as [d Hd]. pose proof (register_exists _ _ _ _ _ Hd Hb) as Hreg. fold r in Hreg.
  run_write s1 (bar_register i) u32_MAX s2 D2 A2 E2; rewrite bind_assoc, E2. rewrite (proj1 L1) in D2.
  run_read s2 (bar_register i) s3 L3 E3; rewrite bind_assoc, E3, D2, (config_word_written _ _ _ _ _ _ _ Hd Hreg), Hz. reflexivity.
Qed.

(** [make_bus_master] sets a bit of the command register and changes nothing else. *)
Lemma make_bus_master_correct s a :
  slot_ok (bus a) (device a) -> is_Some (devices (now s) !! (bus a, device a)) ->
  let command := value (register_at (devices (now s)) (bus a) (device a) PCI_COMMAND_REGISTER) in
  exists s', make_bus_master hw a s = Done (tt, s') /\ PCI_ADAPTERS s' = PCI_ADAPTERS s /\
    devices (now s') = alter (alter (written (Z.lor command PCI_COMMAND_BUSMASTER)) PCI_COMMAND_REGISTER)
      (bus a, device a) (devices (now s)).
Proof.
  intros Hs Hd command. unfold make_bus_master.
  match goal with |- context [bind (read_config _ _ _ _) ?K s] =>
    destruct (read_config_run s (bus a) (device a) PCI_COMMAND_REGISTER K Hs ltac:(done)) as (s1 & L1 & E1) end.
  rewrite E1, (config_word_register _ _ _ _ Hd). fold command.
  destruct (write_config_run s1 (bus a) (device a) PCI_COMMAND_REGISTER (Z.lor command PCI_COMMAND_BUSMASTER) (fun _ => ret tt) Hs ltac:(done))
    as (s2 & D2 & A2 & E2).
  exists s2. split_and!; [|by rewrite A2, (proj2 L1)|by rewrite D2, (proj1 L1)].
  unfold write_config, outl in *. rewrite bind_assoc, !bind_modify in E2. rewrite bind_modify. unfold modify. by injection E2 as <-.
Qed.

End bus.

Lemma slots_ok : Forall (fun slot => slot_ok slot.1 slot.2) slots.
Proof.
  assert (Ht : forallb (fun slot => (0 <=? slot.1) && (slot.1 <? 256) && (0 <=? slot.2) && (slot.2 <? 32)) slots = true) by by vm_compute.
  apply Forall_forall. intros slot Hin. rewrite forallb_forall in Ht. specialize (Ht slot). apply list_elem_of_In in Hin.
  specialize (Ht Hin). unfold slot_ok. rewrite !andb_true_iff, !Z.leb_le, !Z.ltb_lt in Ht. lia.
Qed.

(** ** Devices by what they say

    A device has the identifiers of its maker, the class, the number of its interrupt, and up
    to six base address registers, which describe its regions. The encoding is the one of
    the PCI specification: the low bits of a register say what the region is; of the others
    those that select the region can be written. *)

(** A region of [2 ^ k] bytes or ports with the address the firmware gave it. *)
Inductive Region :=
| Unused
| Memory (address k : Z) (prefetchable : bool)
| Memory64 (address k : Z) (prefetchable : bool)
| Ports (address k : Z).

(** The registers of a region; one of 64 bits that is below 4 GiB has a second one, which is 0. *)
Definition region_registers (r : Region) : list Register :=
  match r with
  | Unused => [mkRegister 0 0]
  | Memory a k p => [mkRegister (a + if p then 8 else 0) (2 ^ 32 - 2 ^ k)]
  | Memory64 a k p => [mkRegister (a + if p then 12 else 4) (2 ^ 32 - 2 ^ k); mkRegister 0 u32_MAX]
  | Ports a k => [mkRegister (a + 1) (2 ^ 32 - 2 ^ k)]
  end.

(** Sizes are powers of two, of 16 bytes or 4 ports at least and below 4 GiB; addresses are
    multiples of the size, and not 0. *)
Definition region_placed (a k : Z) : Prop := 0 < a /\ a mod 2 ^ k = 0 /\ a + 2 ^ k <= 2 ^ 32.

Definition region_ok (r : Region) : Prop :=
  match r with
  | Unused => True
  | Memory a k _ | Memory64 a k _ => 4 <= k < 32 /\ region_placed a k
  | Ports a k => 2 <= k < 32 /\ region_placed a k
  end.

(** What an adapter has for a region: the size and the address; the address of memory has the
    bits 2 and 3 of the type with it, and fewer than 16 ports count as 16. *)
Definition region_found (r : Region) : list (Z * Z) :=
  match r with
  | Unused => [(0, 0)]
  | Memory a k p => [(a + if p then 8 else 0, 2 ^ k)]
  | Memory64 a k p => [(a + if p then 12 else 4, 2 ^ k); (0, 0)]
  | Ports a k => [(a, Z.max 16 (2 ^ k))]
  end.

Record Description := mkDescription {
  d_vendor : Z; d_device : Z;
  d_class : Z; d_subclass : Z; d_interface : Z; d_revision : Z;
  d_regions : list Region;
  d_irq : Z
}.

Record description_ok (x : Description) : Prop := {
  d_vendor_ok : 0 <= d_vendor x < 0xFFFF;
  d_device_ok : 0 <= d_device x < 2 ^ 16;
  d_class_ok : 0 <= d_class x < 256;
  d_subclass_ok : 0 <= d_subclass x < 256;
  d_interface_ok : 0 <= d_interface x < 256;
  d_revision_ok : 0 <= d_revision x < 256;
  d_irq_ok : 0 <= d_irq x < 256;
  d_regions_ok : Forall region_ok (d_regions x)
}.

(** The register at an offset of a device; one it does not have is 0. *)
Definition register (d : Device) (r : Z) : Register := default (mkRegister 0 0) (d !! r).

(** The registers of the device say what the description says. *)
Record describes (d : Device) (x : Description) : Prop := {
  ds_ok : description_ok x;
  ds_id : value (register d PCI_ID_REGISTER) = d_device x * 2 ^ 16 + d_vendor x;
  ds_class : value (register d PCI_CLASS_REGISTER) = ((d_class x * 256 + d_subclass x) * 256 + d_interface x) * 256 + d_revision x;
  ds_regions : (fun j => register d (bar_register j)) <$> seq 0 6 = d_regions x ≫= region_registers;
  ds_irq : value (register d PCI_INTERRUPT_REGISTER) mod 256 = d_irq x
}.

(** The adapter of a device *)
Definition adapter (slot : Z * Z) (x : Description) : PciAdapter :=
  mkAdapter slot.1 slot.2 (d_vendor x) (d_device x) (d_class x) (d_subclass x) (d_interface x)
    (fst <$> (d_regions x ≫= region_found)) (snd <$> (d_regions x ≫= region_found)) (d_irq x).

(** *** The regions *)

Lemma land_address v : 0 <= v < 2 ^ 32 -> Z.land v 0xFFFFFFFC = v / 4 * 4.
Proof.
  intros Hv. change 4 with (2 ^ 2). rewrite <- Z.shiftr_div_pow2, <- Z.shiftl_mul_pow2 by done.
  apply Z.bits_inj'. intros i Hi. rewrite Z.land_spec, testbit_FFFFFFFC, Z.shiftl_spec by done.
  destruct (Z.leb_spec 2 i); [|by rewrite andb_false_r, Z.testbit_neg_r by lia].
  rewrite Z.shiftr_spec by lia. replace (i - 2 + 2) with i by lia.
  destruct (Z.ltb_spec i 32); cbn [andb]; [apply andb_true_r|]. by rewrite (bit_below 32 v i), andb_false_r.
Qed.

Lemma decoded_bits k : 0 <= k < 32 -> 2 ^ 32 - 2 ^ k = Z.shiftl (Z.ones (32 - k)) k.
Proof.
  intros Hk. rewrite Z.shiftl_mul_pow2, Z.ones_equiv, <- Z.sub_1_r, Z.mul_sub_distr_r, <- Z.pow_add_r by lia.
  replace (32 - k + k) with 32 by lia. lia.
Qed.

(** All ones written to a register: the bits that select the region, and the low bits of before *)
Lemma written_ones k a low :
  0 <= k < 32 -> 0 <= low < 2 ^ k -> 0 <= a * 2 ^ k + low < 2 ^ 32 ->
  value (written u32_MAX (mkRegister (a * 2 ^ k + low) (2 ^ 32 - 2 ^ k))) = 2 ^ 32 - 2 ^ k + low.
Proof.
  intros Hk Hl Hv. cbn [written value writable_bits].
  assert (Hsum : 2 ^ 32 - 2 ^ k + low = Z.lor (2 ^ 32 - 2 ^ k) low).
  { replace (2 ^ 32 - 2 ^ k) with ((2 ^ (32 - k) - 1) * 2 ^ k).
    - by rewrite lor_shifted by lia.
    - rewrite Z.mul_sub_distr_r, <- Z.pow_add_r by lia. replace (32 - k + k) with 32 by lia. lia. }
  rewrite Hsum, decoded_bits by done. rewrite <- lor_shifted in Hv |- * by lia. change u32_MAX with (Z.ones 32).
  apply Z.bits_inj'. intros i Hi.
  rewrite !Z.lor_spec, Z.land_spec, Z.ldiff_spec, Z.lor_spec, Z.testbit_ones_nonneg, !testbit_field by lia.
  replace (k + (32 - k)) with 32 by lia.
  destruct (Z.leb_spec k i), (Z.ltb_spec i 32); cbn [andb orb negb]; try lia; rewrite ?andb_false_r, ?andb_true_r, ?orb_false_l; try done.
  - rewrite <- Z.lor_spec. rewrite (bit_below 32 _ i), (bit_below k low i) by lia. done.
  - by rewrite Z.mul_pow2_bits_low by done.
Qed.

(** A register of a region: the bits 0 to 3 below the address are [low]. *)
Lemma bar_of_region k a low :
  2 <= k < 32 -> 0 <= low < 16 -> (4 <= k \/ low < 4) -> 0 < a -> a mod 2 ^ k = 0 -> a + 2 ^ k <= 2 ^ 32 ->
  let r := mkRegister (a + low) (2 ^ 32 - 2 ^ k) in
  bar_ok r /\ bar_of r = (a + low / 4 * 4, Z.max 16 (2 ^ k)).
Proof.
  intros Hk Hl Hlk Ha Hmod Hend. set (r := mkRegister _ _).
  assert (H4 : 2 ^ k = 4 * 2 ^ (k - 2)) by (change 4 with (2 ^ 2); rewrite <- Z.pow_add_r by lia; f_equal; lia).
  assert (Hlow : low < 2 ^ k) by (destruct Hlk; [pose proof (Z.pow_le_mono_r 2 4 k)|]; lia).
  pose proof (Z.div_mod a (2 ^ k) ltac:(lia)) as Hdiv. rewrite Hmod, Z.add_0_r, Z.mul_comm in Hdiv. set (q := a / 2 ^ k) in *.
  assert (Hbase : Z.land (value r) 0xFFFFFFFC = a + low / 4 * 4).
  { cbn [r value]. rewrite land_address by lia. rewrite Hdiv, H4.
    replace (q * (4 * 2 ^ (k - 2)) + low) with (q * 2 ^ (k - 2) * 4 + low) by lia. rewrite Z.div_add_l by done. lia. }
  assert (Hones : value (written u32_MAX r) = 2 ^ 32 - 2 ^ k + low).
  { unfold r. rewrite Hdiv at 1. apply written_ones; lia. }
  assert (Hmask : Z.land (value (written u32_MAX r)) PCI_BASE_ADDRESS_MASK = 2 ^ 32 - Z.max 16 (2 ^ k)).
  { rewrite Hones. replace (Z.land _ PCI_BASE_ADDRESS_MASK) with ((2 ^ 32 - 2 ^ k + low) / 16 * 16).
    - destruct (decide (k = 2)) as [->|]; [|destruct (decide (k = 3)) as [->|]].
      + change (2 ^ 32 - 2 ^ 2 + low) with (4294967292 + low). change (2 ^ 32 - Z.max 16 (2 ^ 2)) with 4294967280.
        assert (low < 4) by lia. rewrite <- (Z.div_unique (4294967292 + low) 16 268435455 (12 + low)); lia.
      + change (2 ^ 32 - 2 ^ 3 + low) with (4294967288 + low). change (2 ^ 32 - Z.max 16 (2 ^ 3)) with 4294967280.
        assert (low < 4) by lia. rewrite <- (Z.div_unique (4294967288 + low) 16 268435455 (8 + low)); lia.
      + assert (H16 : 2 ^ k = 16 * 2 ^ (k - 4)) by (change 16 with (2 ^ 4); rewrite <- Z.pow_add_r by lia; f_equal; lia).
        assert (0 < 2 ^ (k - 4)) by (apply Z.pow_pos_nonneg; lia). rewrite Z.max_r by lia. rewrite H16.
        rewrite <- (Z.div_unique (2 ^ 32 - 16 * 2 ^ (k - 4) + low) 16 (2 ^ 28 - 2 ^ (k - 4)) low); lia.
    - symmetry. rewrite Z.land_comm. change PCI_BASE_ADDRESS_MASK with (Z.shiftl (Z.ones 28) 4).
      change 16 with (2 ^ 4). rewrite <- Z.shiftr_div_pow2, <- Z.shiftl_mul_pow2 by done.
      apply Z.bits_inj'. intros i Hi. rewrite Z.land_spec, testbit_field, Z.shiftl_spec by done. change (4 + 28) with 32.
      destruct (Z.leb_spec 4 i); cbn [andb]; [|by rewrite Z.testbit_neg_r by lia].
      rewrite Z.shiftr_spec by lia. replace (i - 4 + 4) with i by lia.
      destruct (Z.ltb_spec i 32); cbn [andb]; [done|]. symmetry. apply (bit_below 32); lia. }
  split; [|].
  - split; cbn [r value writable_bits].
    + lia.
    + pose proof (Z.pow_lt_mono_r 2 k 32). lia.
    + intros _. rewrite H4. replace (2 ^ 32 - 4 * 2 ^ (k - 2)) with ((2 ^ 30 - 2 ^ (k - 2)) * 4) by lia.
      change 3 with (Z.ones 2). rewrite Z.land_ones by done. by apply Z.mod_mul.
    + intros _. fold r. rewrite Hmask. pose proof (Z.pow_lt_mono_r 2 k 32). lia.
  - unfold bar_of. rewrite Hbase, Hmask. destruct (Z.ltb_spec 0 (a + low / 4 * 4)); [f_equal; lia|].
    pose proof (Z.div_pos low 4). lia.
Qed.

(** The registers of a region can be probed, and probing finds the region. *)
Lemma region_correct r :
  region_ok r -> Forall bar_ok (region_registers r) /\ bar_of <$> region_registers r = region_found r.
Proof.
  assert (H0 : forall w, 0 <= w < 2 ^ 32 -> bar_ok (mkRegister 0 w)) by (intros w Hw; by split).
  destruct r as [|a k p|a k p|a k]; cbn [region_ok region_registers region_found].
  - intros _. split; [|done]. apply Forall_singleton. by apply H0.
  - intros (Hk & Ha & Hmod & Hend). pose proof (Z.pow_le_mono_r 2 4 k).
    destruct (bar_of_region k a (if p then 8 else 0)) as [Hok Hbar]; [lia|by destruct p|lia|done..|].
    split; [by apply Forall_singleton|]. cbn [fmap list_fmap]. rewrite Hbar, Z.max_r by lia. by destruct p.
  - intros (Hk & Ha & Hmod & Hend). pose proof (Z.pow_le_mono_r 2 4 k).
    destruct (bar_of_region k a (if p then 12 else 4)) as [Hok Hbar]; [lia|by destruct p|lia|done..|].
    split; [apply Forall_cons; split; [done|apply Forall_singleton; by apply H0]|]. cbn [fmap list_fmap]. rewrite Hbar, Z.max_r by lia. by destruct p.
  - intros (Hk & Ha & Hmod & Hend). destruct (bar_of_region k a 1) as [Hok Hbar]; [lia..|].
    split; [by apply Forall_singleton|]. cbn [fmap list_fmap]. rewrite Hbar. do 2 f_equal. change (1 / 4 * 4) with 0. lia.
Qed.

Lemma regions_correct l :
  Forall region_ok l -> Forall bar_ok (l ≫= region_registers) /\ bar_of <$> (l ≫= region_registers) = l ≫= region_found.
Proof.
  induction 1 as [|r l Hr _ [IH1 IH2]]; [split; constructor|]. destruct (region_correct r Hr) as [H1 H2].
  rewrite !bind_cons, fmap_app, H2, IH2. by split; [apply Forall_app|].
Qed.

(** *** The devices *)

Lemma register_at_device m bus device d r : m !! (bus, device) = Some d -> register_at m bus device r = register d r.
Proof. intros E. unfold register_at, register. by rewrite E. Qed.

Lemma described_bars (m : gmap (Z * Z) Device) bus device d x :
  m !! (bus, device) = Some d -> describes d x -> bars_from m bus device 0 6 = d_regions x ≫= region_found.
Proof.
  intros E Hx. unfold bars_from. rewrite <- (proj2 (regions_correct _ (d_regions_ok _ (ds_ok _ _ Hx)))), <- (ds_regions _ _ Hx).
  rewrite <- list_fmap_compose. apply list_fmap_ext. intros j y _. cbn. by rewrite (register_at_device _ _ _ _ _ E).
Qed.

Lemma described_device_ok (m : gmap (Z * Z) Device) bus device d x :
  m !! (bus, device) = Some d -> describes d x -> device_ok m bus device.
Proof.
  intros E Hx. destruct (ds_ok _ _ Hx) as [Hv Hd _ _ _ _ _ Hr]. split.
  - rewrite (register_at_device _ _ _ _ _ E), (ds_id _ _ Hx). unfold u32_MAX. lia.
  - intros j Hj. rewrite (register_at_device _ _ _ _ _ E). destruct (regions_correct _ Hr) as [Hb _]. rewrite <- (ds_regions _ _ Hx) in Hb.
    rewrite Forall_fmap, Forall_forall in Hb. apply Hb. apply elem_of_seq. lia.
Qed.

Lemma described_adapter (m : gmap (Z * Z) Device) bus device d x :
  m !! (bus, device) = Some d -> describes d x -> adapter_of m bus device = adapter (bus, device) x.
Proof.
  intros E Hx. unfold adapter_of, adapter. rewrite (described_bars _ _ _ _ _ E Hx), !(register_at_device _ _ _ _ _ E).
  destruct (ds_ok _ _ Hx) as [Hv Hd Hc Hs Hi Hr _ _]. rewrite (ds_id _ _ Hx), (ds_class _ _ Hx), (ds_irq _ _ Hx).
  rewrite !Z.shiftr_div_pow2 by done. f_equal.
  - symmetry. apply (Z.mod_unique _ _ (d_device x)); lia.
  - rewrite <- (Z.div_unique _ (2 ^ 16) (d_device x) (d_vendor x)) by lia. apply Z.mod_small. lia.
  - rewrite <- (Z.div_unique _ (2 ^ 24) (d_class x) ((d_subclass x * 256 + d_interface x) * 256 + d_revision x)) by lia. apply Z.mod_small. lia.
  - rewrite <- (Z.div_unique _ (2 ^ 16) (d_class x * 256 + d_subclass x) (d_interface x * 256 + d_revision x)) by lia.
    symmetry. apply (Z.mod_unique _ _ (d_class x)); lia.
  - rewrite <- (Z.div_unique _ (2 ^ 8) ((d_class x * 256 + d_subclass x) * 256 + d_interface x) (d_revision x)) by lia.
    symmetry. apply (Z.mod_unique _ _ (d_class x * 256 + d_subclass x)); lia.
Qed.

Definition slot_described (b : Bus) (ds : gmap (Z * Z) Description) (slot : Z * Z) : Prop :=
  match devices b !! slot, ds !! slot with
  | Some d, Some x => describes d x
  | None, None => True
  | _, _ => False
  end.

(** C37. On a bus with the devices of [ds], [init] finds exactly those on the first 32 buses, in
    the order of buses and device numbers. The adapter of each has the identifiers, the class
    and the interrupt of the device, and for each base address register what [region_found]
    says: for memory the size, and the address with the bits 2 and 3 of its type; for ports
    the address, and the size, which is 16 if it is less. Afterwards every register of every
    device is as it was before. Not covered are regions without an address, of 64 bits above
    4 GiB, of ports that decode 16 bits (see [io_bar_sizes]), and registers with an address
    that cannot be changed (see [fixed_bar_panics]). *)
Theorem pci_init_correct b ds :
  (forall slot, slot ∈ slots -> slot_described b ds slot) ->
  exists h, init (bus_hardware b) (mkPci [] []) = Done (tt, mkPci h (omap (fun slot => adapter slot <$> ds !! slot) slots)) /\
    devices (foldl bus_step b h) = devices b.
Proof.
  intros Hds.
  assert (Hfound : found (devices b) slots = omap (fun slot => adapter slot <$> ds !! slot) slots).
  { unfold found. apply list_omap_ext, Forall_Forall2_diag, Forall_forall. intros [bus device] Hin.
    specialize (Hds _ Hin). unfold slot_described in Hds. cbn [fst snd].
    destruct (devices b !! (bus, device)) as [d|] eqn:E, (ds !! (bus, device)) as [x|]; cbn; [|done..].
    f_equal. by apply (described_adapter _ _ _ d). }
  destruct (scan_devices_run b slots (mkPci [] []) slots_ok) as (s' & E & D & A).
  { intros [bus device] Hin [d Hd]. specialize (Hds _ Hin). unfold slot_described in Hds.
    change (devices b !! (bus, device) = Some d) in Hd. rewrite Hd in Hds.
    destruct (ds !! (bus, device)) as [x|]; [|done]. by apply (described_device_ok _ _ _ d x). }
  exists (history s'). split; [|exact D]. unfold init. rewrite E. destruct s' as [h l]. change (l = found (devices b) slots) in A.
  rewrite A, Hfound. reflexivity.
Qed.

(** *** What probing gets wrong *)

(** The mask for memory registers is used for I/O registers, too: a register for 8 ports is
    found to have 16, and one that decodes 16 bits of the address has a size of almost 2^32. *)
Lemma io_bar_sizes :
  bar_of (mkRegister 0xC001 0xFFFFFFF8) = (0xC000, 16) /\ bar_of (mkRegister 0xC001 0xFF00) = (0xC000, 0xFFFF0100).
Proof. split; reflexivity. Qed.

(** The address of a memory register keeps the bits that say whether it is of 64 bits and
    whether it is prefetchable. *)
Lemma bar_address_keeps_type r : Z.land (bar_of r).1 0xC = Z.land (value r) 0xC.
Proof. cbn [bar_of fst]. by rewrite <- Z.land_assoc. Qed.


(** *** Drivers *)

(** [get_adapter] finds the first adapter with the two numbers. *)
Lemma get_adapter_correct v d s :
  exists r, get_adapter v d s = Done (r, s) /\
    match r with
    | Some a => exists l1 l2, PCI_ADAPTERS s = l1 ++ a :: l2 /\ vendor_id a = v /\ device_id a = d /\
        Forall (fun a => ~ (vendor_id a = v /\ device_id a = d)) l1
    | None => Forall (fun a => ~ (vendor_id a = v /\ device_id a = d)) (PCI_ADAPTERS s)
    end.
Proof.
  unfold get_adapter. rewrite bind_gets. eexists. split; [reflexivity|].
  induction (PCI_ADAPTERS s) as [|a l IH]; [constructor|]. cbn [List.find].
  destruct (Z.eqb_spec (vendor_id a) v), (Z.eqb_spec (device_id a) d); cbn [andb]; [by exists [], l| | |];
    (destruct (List.find _ l) as [a'|]; [|constructor; [tauto|done]]);
    (destruct IH as (l1 & l2 & -> & Hv & Hd & Hl1); exists (a :: l1), l2; split_and!; [done..|constructor; [tauto|done]]).
Qed.


(** *** An example: a network card *)

Definition card_description : Description :=
  mkDescription 0x10EC 0x8139 2 0 0 0x20 [Ports 0xC000 8; Memory 0xFEBF1000 12 false; Memory64 0xFE000000 14 true; Unused; Unused] 11.

Definition card : Device :=
  list_to_map [(0x00, mkRegister 0x813910EC 0); (0x04, mkRegister 0x02800003 0xFFFF);
    (0x08, mkRegister 0x02000020 0); (0x10, mkRegister 0xC001 0xFFFFFF00);
    (0x14, mkRegister 0xFEBF1000 0xFFFFF000); (0x18, mkRegister 0xFE00000C 0xFFFFC000);
    (0x1C, mkRegister 0 0xFFFFFFFF); (0x3C, mkRegister 0x10B 0xFF)].

Definition sample_bus : Bus := mkBus {[ (0, 3) := card ]} 0.

Definition card_adapter : PciAdapter :=
  mkAdapter 0 3 0x10EC 0x8139 2 0 0 [0xC000; 0xFEBF1000; 0xFE00000C; 0; 0; 0] [0x100; 0x1000; 0x4000; 0; 0; 0] 11.

Lemma card_described : describes card card_description.
Proof.
  split; [|by vm_compute..]. split; [by vm_compute..|].
  cbn [d_regions card_description].
  repeat (apply Forall_cons; split); [..|by apply Forall_nil]; cbn [region_ok];
    first [exact I | unfold region_placed; split_and!; by vm_compute].
Qed.

Lemma pci_init_correct_witness :
  exists h, init (bus_hardware sample_bus) (mkPci [] []) = Done (tt, mkPci h [card_adapter]) /\
    devices (foldl bus_step sample_bus h) = devices sample_bus.
Proof.
  assert (E : omap (fun slot => adapter slot <$> ({[ (0, 3) := card_description ]} : gmap (Z * Z) Description) !! slot) slots = [card_adapter])
    by (vm_compute; reflexivity).
  rewrite <- E. apply pci_init_correct. intros slot _. unfold slot_described, sample_bus. cbn [devices].
  destruct (decide (slot = (0, 3))) as [->|H].
  - rewrite !lookup_singleton_eq. exact card_described.
  - by rewrite !lookup_singleton_ne by congruence.
Defined.
