(* ===== verification/Serial.v ===== *)
(** * Messages: src/arch/x86_64/kernel/serial.rs, src/console.rs and the functions for
    messages of src/arch/x86_64/kernel/mod.rs

    A message is sent byte by byte through a serial port. What a device answers depends on
    the accesses before; [hardware] gives the answer to a read after a history of accesses.
    [fuel] bounds the loop that waits for the device. *)

From Stdlib Require Import ZArith Lia String.
From stdpp Require Import base numbers list gmap.
From S2P Require Import Prelude Pte Mmu Paging Mm Mpk Cpu Isolation Bytes CopySafe Storage BootInfo.

#[local] Open Scope Z_scope.

Definition UART_TX : Z := 0.
Definition UART_IER : Z := 1.
Definition UART_DLL : Z := 0.
Definition UART_DLM : Z := 1.
Definition UART_FCR : Z := 2.
Definition UART_FCR_ENABLE_FIFO : Z := 0x01.
Definition UART_FCR_CLEAR_RECEIVER_FIFO : Z := 0x02.
Definition UART_FCR_CLEAR_TRANSMITTER_FIFO : Z := 0x04.
Definition UART_LCR : Z := 3.
Definition UART_LCR_WORD_LENGTH_8BITS : Z := 0x03.
Definition UART_LCR_DIVISOR_LATCH_ACCESS : Z := 0x80.
Definition UART_LSR : Z := 5.
Definition UART_LSR_EMPTY_TRANSMITTER_HOLDING_REGISTER : Z := 0x20.
Definition SERIAL_PORT_BAUDRATE : Z := 115200.

(** [b'\n'] and [b'\r'] *)
Definition LF : Z := 10.
Definition CR : Z := 13.

(** [outb] and [inb] *)
Inductive access := Outb (port v : Z) | Inb (port : Z).

(** The core and its memory, the accesses to ports so far, and [COM1] *)
Record Serial (F : Type) := mkSerial { bay : Bay F; history : list access; port_address : Z }.
Arguments mkSerial {F} _ _ _.
Arguments bay {F} _.
Arguments history {F} _.
Arguments port_address {F} _.

Section serial.

Context {F : Type} `{FrameSource F}.
Context (root BOOT_INFO : Z) (hardware : list access -> Z -> Z) (fuel : nat).

Abbreviation Run := (M (Serial F)).

Definition with_bay (b : Bay F) (s : Serial F) : Serial F := mkSerial b (history s) (port_address s).

Definition on_bay {A} (o : M (Bay F) A) : Run A := fun s =>
  let? (a, b) := o (bay s) in Done (a, with_bay b s).

Definition event (a : access) (s : Serial F) : Serial F := mkSerial (bay s) (history s ++ [a]) (port_address s).

Definition outb (port v : Z) : Run unit := modify (event (Outb port v)).

Definition inb (port : Z) : Run Z :=
  let! h := gets history in
  modify (event (Inb port)) ;;;
  ret (hardware h port).

(** [+] on [u16] *)
Definition add16 (a b : Z) : outcome Z := if a + b <? 2 ^ 16 then Done (a + b) else Panic.

(** [self.port_address] of [COM1] *)
Definition self_port : Run Z :=
  on_bay (safe_var root false) ;;;
  gets port_address.

Definition read_from_register (register : Z) : Run Z :=
  let! a := self_port in
  let! port := lift (add16 a register) in
  inb port.

Definition is_transmitting : Run bool :=
  let! uhyve := on_bay (is_uhyve root BOOT_INFO) in
  if uhyve : bool then ret false
  else
    let! v := read_from_register UART_LSR in
    ret (Z.land v UART_LSR_EMPTY_TRANSMITTER_HOLDING_REGISTER =? 0).

(** [while self.is_transmitting() { spin_loop_hint(); }] *)
Fixpoint wait_transmitting (n : nat) : Run unit :=
  match n with
  | O => out_of_fuel
  | S n =>
      let! t := is_transmitting in
      if t : bool then wait_transmitting n else ret tt
  end.

Definition write_to_register (register byte : Z) : Run unit :=
  wait_transmitting fuel ;;;
  let! a := self_port in
  let! port := lift (add16 a register) in
  outb port byte.

Definition write_byte (byte : Z) : Run unit :=
  let! a := self_port in
  if a =? 0 then ret tt
  else
    (if byte =? LF then write_to_register UART_TX CR else ret tt) ;;;
    write_to_register UART_TX byte.

Definition init (baudrate : Z) : Run unit :=
  let! uhyve := on_bay (is_uhyve root BOOT_INFO) in
  if uhyve : bool then ret tt
  else
  let! a := self_port in
  if a =? 0 then ret tt
  else
    write_to_register UART_IER 0 ;;;
    write_to_register UART_LCR UART_LCR_WORD_LENGTH_8BITS ;;;
    let! divisor := if baudrate =? 0 then panic else ret (115200 / baudrate mod 2 ^ 16) in
    let! lcr := read_from_register UART_LCR in
    write_to_register UART_LCR (Z.lor lcr UART_LCR_DIVISOR_LATCH_ACCESS) ;;;
    write_to_register UART_DLL (divisor mod 256) ;;;
    write_to_register UART_DLM (Z.shiftr divisor 8 mod 256) ;;;
    write_to_register UART_LCR lcr ;;;
    write_to_register UART_FCR
      (Z.lor (Z.lor UART_FCR_ENABLE_FIFO UART_FCR_CLEAR_RECEIVER_FIFO) UART_FCR_CLEAR_TRANSMITTER_FIFO).

(** mod.rs: [message_output_init] after the initialisation of the per-core variables *)
Definition message_output_init : Run unit :=
  let! p := on_bay (uartport root BOOT_INFO) in
  on_bay (safe_var root true) ;;;
  modify (fun s => mkSerial (bay s) (history s) p) ;;;
  let! single := on_bay (is_single_kernel root BOOT_INFO) in
  if single : bool then init SERIAL_PORT_BAUDRATE else ret tt.

(** mod.rs: the arm of [output_message_byte] for a kernel that runs alone, without the
    feature "vga". [kmsg_write_byte] is the other arm. *)
Definition output_message_byte (kmsg_write_byte : Z -> Run unit) (byte : Z) : Run unit :=
  let! single := on_bay (is_single_kernel root BOOT_INFO) in
  if single : bool then write_byte byte else kmsg_write_byte byte.

(** console.rs; a character is given by its number. *)
Definition write_char (kmsg_write_byte : Z -> Run unit) (c : Z) : Run unit :=
  output_message_byte kmsg_write_byte (c mod 256).

Fixpoint write_str (kmsg_write_byte : Z -> Run unit) (l : list Z) : Run unit :=
  match l with
  | [] => ret tt
  | c :: l => write_char kmsg_write_byte c ;;; write_str kmsg_write_byte l
  end.

End serial.

(** ** The device

    A UART as its data sheet has it: the first two registers are the transmitter and the
    interrupt enables or, if bit 7 of the line control register is set, the divisor. After a
    byte was sent the transmitter is not empty for some polls of the status; a byte that
    is written before is lost. *)

Record Uart := mkUart {
  sent : list Z;
  busy : nat;
  ier : Z;
  dll : Z;
  dlm : Z;
  fcr : Z;
  lcr : Z
}.

Definition divisor_latch (u : Uart) : bool := Z.testbit (lcr u) 7.

Section device.

(** The first port, and the number of polls until the byte is sent, after so many others *)
Context (base : Z) (latency : nat -> nat).

Definition uart_write (u : Uart) (register v : Z) : Uart :=
  if register =? 0 then
    if divisor_latch u then mkUart (sent u) (busy u) (ier u) v (dlm u) (fcr u) (lcr u)
    else if (busy u =? 0)%nat
      then mkUart (sent u ++ [v]) (latency (length (sent u))) (ier u) (dll u) (dlm u) (fcr u) (lcr u)
      else u
  else if register =? 1 then
    if divisor_latch u then mkUart (sent u) (busy u) (ier u) (dll u) v (fcr u) (lcr u)
    else mkUart (sent u) (busy u) v (dll u) (dlm u) (fcr u) (lcr u)
  else if register =? 2 then mkUart (sent u) (busy u) (ier u) (dll u) (dlm u) v (lcr u)
  else if register =? 3 then mkUart (sent u) (busy u) (ier u) (dll u) (dlm u) (fcr u) v
  else u.

Definition uart_step (u : Uart) (a : access) : Uart :=
  match a with
  | Outb port v => uart_write u (port - base) v
  | Inb port =>
      if port =? base + 5 then mkUart (sent u) (pred (busy u)) (ier u) (dll u) (dlm u) (fcr u) (lcr u) else u
  end.

Definition uart_read (u : Uart) (port : Z) : Z :=
  if port =? base + 5 then (if (busy u =? 0)%nat then 0x60 else 0)
  else if port =? base + 3 then lcr u
  else 0.

(** The answers of a device that was [u] at first *)
Definition uart_hardware (u : Uart) (h : list access) (port : Z) : Z := uart_read (foldl uart_step u h) port.

End device.

(** What is to be sent for a text *)
Definition crlf (l : list Z) : list Z := b ← l; if b =? LF then [CR; LF] else [b].

(** ** Correctness *)

Section correct.

Context {F : Type} `{FrameSource F}.
Context (root BOOT_INFO base : Z) (latency : nat -> nat) (u0 : Uart) (fuel : nat).

Abbreviation hw := (uart_hardware base latency u0).

Implicit Types (s : Serial F).

(** The device after the accesses of [s] *)
Definition now s : Uart := foldl (uart_step base latency) u0 (history s).

(** Fields of the boot information, as numbers *)
Definition info s (f : string) : Z := field_value BOOT_INFO (bytes (bay s)) f.

(** Kernel code that reads the boot information may run. *)
Definition ready s : Prop := boot_ready root BOOT_INFO (bay s) /\ port_address s = base.

(** Kernel code ran between the states: the rights are the same, and other memory than the
    storage, with it the boot information. *)
Record kept s s' : Prop := {
  kp_rights : gated (cpu (bay s)) (cpu (bay s')) (regs (cpu (bay s)) RSP) (pkru_of (cpu (bay s)));
  kp_bytes : forall x, ~ kernel_gsbase (bay s) <= x < kernel_gsbase (bay s) + SIZE -> bytes (bay s') !! x = bytes (bay s) !! x;
  kp_storage : kernel_gsbase (bay s') = kernel_gsbase (bay s);
  kp_list : LIST (bay s') = LIST (bay s) /\ IDX (bay s') = IDX (bay s);
  kp_port : port_address s' = port_address s
}.

Lemma kept_refl s : kept s s.
Proof. by split. Qed.

Lemma kept_trans s1 s2 s3 : kept s1 s2 -> kept s2 s3 -> kept s1 s3.
Proof.
  intros [A1 A2 A3 [A4 A4'] A5] [B1 B2 B3 [B4 B4'] B5]. split; [| |congruence|split; congruence|congruence].
  - rewrite (gt_sp _ _ _ _ A1), (gt_pkru _ _ _ _ A1) in B1. by eapply gated_trans.
  - intros x Hx. rewrite B2 by (by rewrite A3). by apply A2.
Qed.

Lemma ready_kept s s' : ready s -> kept s s' -> ready s'.
Proof.
  intros [R P] [A1 A2 A3 [A4 A5] A6]. split; [|congruence].
  replace (bay s') with (with_cpu (cpu (bay s')) (with_bytes (bytes (bay s')) (bay s))).
  - by apply object_ready_after.
  - destruct (bay s') as [], (bay s) as []. cbn in *. by subst.
Qed.

Lemma info_kept s s' f : ready s -> is_field f -> kept s s' -> info s' f = info s f.
Proof.
  intros [R _] [H0 H1] K. unfold info, field_value. f_equal. apply bytes_at_ext. intros x Hx. apply (kp_bytes _ _ K).
  pose proof (br_apart _ R). lia.
Qed.

(** *** Reading the boot information *)

Lemma on_bay_run {A B} (o : M (Bay F) A) s (k : A -> M (Serial F) B) a b :
  o (bay s) = Done (a, b) -> bind (on_bay o) k s = k a (with_bay b s).
Proof. intros E. unfold bind, on_bay. by rewrite E. Qed.

Lemma read_field_run s f : boot_ready root BOOT_INFO (bay s) -> is_field f ->
  exists b, read_field root BOOT_INFO f (bay s) = Done (info s f, b) /\ kept s (with_bay b s).
Proof.
  intros R Hf. destruct (read_copied_spec root BOOT_INFO (bay s) f R Hf) as (m & d & E & G & C1 & C2).
  exists (with_cpu m (with_bytes d (bay s))). split.
  - unfold read_field. rewrite get_unsafe_storage_run. destruct (Z.eqb_spec (kernel_gsbase (bay s)) 0); [|exact E].
    by destruct (br_storage _ R).
  - by split.
Qed.

Definition uhyve s : bool := negb (info s "uhyve" =? 0).

Lemma uhyve_kept s s' : ready s -> kept s s' -> uhyve s' = uhyve s.
Proof. intros R K. unfold uhyve. rewrite (info_kept s s') by (done || by apply is_field_test_ok). done. Qed.

Lemma is_uhyve_run s {A} (k : bool -> M (Serial F) A) :
  ready s -> exists s', kept s s' /\ history s' = history s /\ bind (on_bay (is_uhyve root BOOT_INFO)) k s = k (uhyve s) s'.
Proof.
  intros [R _]. destruct (read_field_run s "uhyve" R) as (b & E & K); [by apply is_field_test_ok|].
  exists (with_bay b s). split_and!; [done|done|]. apply on_bay_run. unfold is_uhyve. by rewrite (bind_done _ _ _ _ _ E).
Qed.

Lemma is_single_kernel_run s {A} (k : bool -> M (Serial F) A) :
  ready s -> exists s', kept s s' /\ history s' = history s /\
    bind (on_bay (is_single_kernel root BOOT_INFO)) k s = k (negb (info s "single_kernel" =? 0)) s'.
Proof.
  intros [R _]. destruct (read_field_run s "single_kernel" R) as (b & E & K); [by apply is_field_test_ok|].
  exists (with_bay b s). split_and!; [done|done|]. apply on_bay_run. unfold is_single_kernel. by rewrite (bind_done _ _ _ _ _ E).
Qed.

Lemma self_port_run s {A} (k : Z -> M (Serial F) A) : ready s -> bind (self_port root) k s = k base s.
Proof.
  intros [R P]. unfold self_port. rewrite bind_assoc, (on_bay_run _ _ _ _ _ (safe_var_run root (bay s) false (br_vars _ R))).
  rewrite bind_gets. replace (with_bay (bay s) s) with s by (by destruct s). by rewrite P.
Qed.

(** *** Accesses to the device *)

Definition port_ok : Prop := 0 < base /\ base + 8 <= 2 ^ 16.

Lemma event_run s a :
  kept s (event a s) /\ now (event a s) = uart_step base latency (now s) a.
Proof. split; [by split|]. unfold now, event. cbn [history]. by rewrite foldl_app. Qed.

Lemma read_register_run s register {A} (k : Z -> M (Serial F) A) :
  ready s -> port_ok -> 0 <= register < 8 ->
  exists s', kept s s' /\ now s' = uart_step base latency (now s) (Inb (base + register)) /\
    bind (read_from_register root hw register) k s = k (uart_read base (now s) (base + register)) s'.
Proof.
  intros R [_ P] Hr. exists (event (Inb (base + register)) s). split_and!; [apply event_run|apply event_run|].
  unfold read_from_register. rewrite bind_assoc, self_port_run by done. unfold add16.
  destruct (Z.ltb_spec (base + register) (2 ^ 16)); [|lia]. rewrite bind_assoc, (bind_lift_done _ _ _ _ eq_refl).
  unfold inb. rewrite bind_assoc, bind_gets, bind_assoc, bind_modify, bind_ret. reflexivity.
Qed.

(** The device is not busy for long and, as the virtual one, never. *)
Definition soon s (n : nat) : Prop := (n < fuel)%nat /\ (uhyve s = true -> n = O).

(** The device when its transmitter is empty *)
Definition idle (u : Uart) : Uart := mkUart (sent u) 0 (ier u) (dll u) (dlm u) (fcr u) (lcr u).

Lemma wait_run n s {A} (k : unit -> M (Serial F) A) :
  ready s -> port_ok -> (busy (now s) < n)%nat -> (uhyve s = true -> busy (now s) = O) ->
  exists s', kept s s' /\ now s' = idle (now s) /\ bind (wait_transmitting root BOOT_INFO hw n) k s = k tt s'.
Proof.
  revert s. induction n as [|n IH]; intros s R P Hb Hu; [lia|]. cbn [wait_transmitting]. unfold is_transmitting. rewrite bind_assoc, bind_assoc.
  match goal with |- context [bind (on_bay _) ?K s] => destruct (is_uhyve_run s K R) as (s1 & K1 & H1 & ->) end.
  assert (Hn : now s1 = now s) by (unfold now; by rewrite H1).
  destruct (uhyve s) eqn:Eu.
  - exists s1. split_and!; [done| |by rewrite bind_ret]. rewrite Hn. specialize (Hu eq_refl). destruct (now s). cbn in *. by subst.
  - rewrite bind_assoc.
    match goal with |- context [bind (read_from_register _ _ _) ?K s1] =>
      destruct (read_register_run s1 UART_LSR K (ready_kept _ _ R K1) P ltac:(by vm_compute)) as (s2 & K2 & N2 & ->) end.
    rewrite bind_ret. unfold uart_read. change UART_LSR with 5 in *. rewrite Z.eqb_refl. cbn [uart_step] in N2. rewrite Z.eqb_refl in N2.
    rewrite Hn in *. assert (K02 : kept s s2) by (by eapply kept_trans).
    destruct (busy (now s)) as [|b'] eqn:Eb.
    + exists s2. split_and!; [done| |done]. by rewrite N2.
    + destruct (IH s2) as (s3 & K3 & N3 & E3); [by eapply ready_kept|done|rewrite N2; cbn; lia|by rewrite (uhyve_kept s s2), Eu|].
      exists s3. split_and!; [by eapply kept_trans|by rewrite N3, N2|exact E3].
Qed.

Lemma write_register_run s register v {A} (k : unit -> M (Serial F) A) :
  ready s -> port_ok -> soon s (busy (now s)) -> 0 <= register < 8 ->
  exists s', kept s s' /\ now s' = uart_write latency (idle (now s)) register v /\
    bind (write_to_register root BOOT_INFO hw fuel register v) k s = k tt s'.
Proof.
  intros R P [Hb Hu] Hr. unfold write_to_register. rewrite bind_assoc.
  match goal with |- context [bind (wait_transmitting _ _ _ _) ?K s] =>
    destruct (wait_run fuel s K R P Hb Hu) as (s1 & K1 & N1 & ->) end.
  rewrite bind_assoc, self_port_run by (by eapply ready_kept). destruct P as [_ P]. unfold add16.
  destruct (Z.ltb_spec (base + register) (2 ^ 16)); [|lia]. rewrite bind_assoc, (bind_lift_done _ _ _ _ eq_refl).
  exists (event (Outb (base + register) v) s1). split_and!; [eapply kept_trans; [done|apply event_run]| |reflexivity].
  rewrite (proj2 (event_run s1 _)), N1. cbn [uart_step]. by replace (base + register - base) with register by lia.
Qed.

(** *** Messages *)

(** The device is set up, and bytes take it less than [fuel] polls. *)
Record device_ready s : Prop := {
  dr_latch : divisor_latch (now s) = false;
  dr_busy : soon s (busy (now s));
  dr_latency : forall n, soon s (latency n)
}.

Lemma soon_kept s s' n : ready s -> kept s s' -> soon s n -> soon s' n.
Proof. intros R K [H1 H2]. split; [done|]. by rewrite (uhyve_kept s s'). Qed.

Lemma send_run s v {A} (k : unit -> M (Serial F) A) :
  ready s -> port_ok -> device_ready s ->
  exists s', kept s s' /\ device_ready s' /\ sent (now s') = sent (now s) ++ [v] /\
    bind (write_to_register root BOOT_INFO hw fuel UART_TX v) k s = k tt s'.
Proof.
  intros R P [D1 D2 D3]. destruct (write_register_run s UART_TX v k R P D2 ltac:(by vm_compute)) as (s' & K & N & E).
  assert (N' : now s' = mkUart (sent (now s) ++ [v]) (latency (length (sent (now s)))) (ier (now s)) (dll (now s)) (dlm (now s))
    (fcr (now s)) (lcr (now s))).
  { rewrite N. unfold uart_write, divisor_latch in *. cbn [lcr idle]. by rewrite D1. }
  exists s'. split_and!; [done| |by rewrite N'|done].
  split; rewrite ?N'; [exact D1|by apply (soon_kept s), D3|intros n; by apply (soon_kept s)].
Qed.

Lemma write_byte_run s v {A} (k : unit -> M (Serial F) A) :
  ready s -> port_ok -> device_ready s ->
  exists s', kept s s' /\ device_ready s' /\ sent (now s') = sent (now s) ++ crlf [v] /\
    bind (write_byte root BOOT_INFO hw fuel v) k s = k tt s'.
Proof.
  intros R P D. unfold write_byte. rewrite bind_assoc, self_port_run by done.
  destruct (Z.eqb_spec base 0); [by destruct P; lia|]. rewrite bind_assoc. unfold crlf. cbn [mbind list_bind].
  destruct (v =? LF) eqn:Ev.
  - destruct (send_run s CR (fun _ => bind (write_to_register root BOOT_INFO hw fuel UART_TX v) k) R P D) as (s1 & K1 & D1 & N1 & ->).
    destruct (send_run s1 v k) as (s2 & K2 & D2 & N2 & E2); [by eapply ready_kept|done|done|].
    exists s2. split_and!; [by eapply kept_trans|done| |done]. rewrite N2, N1, <- (assoc_L app). apply Z.eqb_eq in Ev. by subst v.
  - rewrite bind_ret. destruct (send_run s v k R P D) as (s1 & K1 & D1 & N1 & E1). by exists s1.
Qed.

Lemma crlf_cons c l : crlf (c :: l) = crlf [c] ++ crlf l.
Proof. unfold crlf. cbn [mbind list_bind]. by rewrite app_nil_r. Qed.

(** A text that is printed, in a kernel that runs alone, is what the serial device sends:
    each character as a byte, in order and none of them lost, however long the device takes
    for each, and with a carriage return before each line feed. Other memory and the
    rights of the core are as before. *)
Theorem write_str_sends kmsg_write_byte s l :
  ready s -> port_ok -> device_ready s -> info s "single_kernel" <> 0 ->
  exists s', write_str root BOOT_INFO hw fuel kmsg_write_byte l s = Done (tt, s') /\ kept s s' /\ device_ready s' /\
    sent (now s') = sent (now s) ++ crlf ((fun c => c mod 256) <$> l).
Proof.
  revert s. induction l as [|c l IH]; intros s R P D Hs.
  { exists s. split_and!; [done|apply kept_refl|done|by rewrite app_nil_r]. }
  cbn [write_str]. unfold write_char, output_message_byte. rewrite bind_assoc.
  match goal with |- context [bind (on_bay _) ?K s] => destruct (is_single_kernel_run s K R) as (s1 & K1 & H1 & ->) end.
  destruct (Z.eqb_spec (info s "single_kernel") 0); [done|]. cbn [negb].
  assert (N1 : now s1 = now s) by (unfold now; by rewrite H1).
  assert (D1 : device_ready s1).
  { destruct D as [E1 E2 E3]. split; rewrite ?N1; [done|by apply (soon_kept s)|intros m; by apply (soon_kept s)]. }
  assert (R1 : ready s1) by (by eapply ready_kept).
  match goal with |- context [bind (write_byte _ _ _ _ _) ?K s1] =>
    destruct (write_byte_run s1 (c mod 256) K R1 P D1) as (s2 & K2 & D2 & N2 & ->) end.
  assert (K02 : kept s s2) by (by eapply kept_trans).
  destruct (IH s2) as (s3 & E3 & K3 & D3 & N3); [by eapply ready_kept|done|done| |].
  { rewrite (info_kept s s2); [done|done|by apply is_field_test_ok|done]. }
  exists s3. split_and!; [done|by eapply kept_trans|done|].
  by rewrite N3, N2, N1, fmap_cons, (crlf_cons _ ((fun c => c mod 256) <$> l)), <- (assoc_L app).
Qed.

(** *** Initialisation *)

(** Not virtual and not busy for long, since [s0] *)
Definition online s0 s : Prop := kept s0 s /\ uhyve s = false /\ (busy (now s) < fuel)%nat.

(** Writing a register that sends nothing *)
Lemma set_register_run s0 s register v {A} (k : unit -> M (Serial F) A) :
  ready s0 -> port_ok -> online s0 s -> 1 <= register < 8 \/ divisor_latch (now s) = true /\ register = 0 ->
  exists s', online s0 s' /\ now s' = uart_write latency (idle (now s)) register v /\
    bind (write_to_register root BOOT_INFO hw fuel register v) k s = k tt s'.
Proof.
  intros R P (K0 & U & Hb) Hr. assert (R1 : ready s) by (by eapply ready_kept).
  destruct (write_register_run s register v k R1 P) as (s' & K & N & E); [split; [done|by rewrite U]|lia|].
  exists s'. split_and!; [|done|done]. split_and!; [by eapply kept_trans|by rewrite (uhyve_kept s s')|]. rewrite N. unfold uart_write.
  assert (Hf : (0 < fuel)%nat) by lia. unfold divisor_latch in *. cbn [lcr idle].
  destruct (Z.eqb_spec register 0) as [H0|]; [destruct Hr as [|[-> _]]; [lia|done]|].
  destruct (register =? 1); [by destruct (Z.testbit _ _)|]. by destruct (register =? 2), (register =? 3).
Qed.

Lemma bind_ret_r {S A} (m : M S A) (x : S) : bind m ret x = m x.
Proof. unfold bind. by destruct (m x) as [[a x']| |]. Qed.

Ltac set_register s0 s s' O N :=
  cbv beta; match goal with O0 : online s0 s |- context [bind (write_to_register _ _ _ _ ?r ?v) ?K s] =>
    assert (Hc : 1 <= r < 8 \/ divisor_latch (now s) = true /\ r = 0);
    [|destruct (set_register_run s0 s r v K ltac:(assumption) ltac:(assumption) O0 Hc) as (s' & O & N & ->); clear Hc] end.

(** [init] sets the device up for the baud rate with 8 bits, no parity and one stop bit,
    with empty queues and without interrupts. A rate above 115200 gives a divisor of 0. *)
Theorem serial_init_correct s baudrate :
  ready s -> port_ok -> uhyve s = false -> (busy (now s) < fuel)%nat -> divisor_latch (now s) = false -> 0 < baudrate ->
  exists s', init root BOOT_INFO hw fuel baudrate s = Done (tt, s') /\ kept s s' /\
    ier (now s') = 0 /\ lcr (now s') = 3 /\ fcr (now s') = 7 /\ dll (now s') + 256 * dlm (now s') = 115200 / baudrate mod 2 ^ 16 /\
    sent (now s') = sent (now s).
Proof.
  intros R P U Hb Hl Hr. unfold init. unfold divisor_latch in Hl.
  match goal with |- context [bind (on_bay _) ?K s] => destruct (is_uhyve_run s K R) as (s1 & K1 & H1 & ->) end.
  assert (N1 : now s1 = now s) by (unfold now; by rewrite H1). assert (R1 := ready_kept _ _ R K1).
  rewrite U, self_port_run by done. destruct (Z.eqb_spec base 0) as [|_]; [by destruct P; lia|].
  assert (O1 : online s s1) by (split_and!; [done|by rewrite (uhyve_kept s s1)|by rewrite N1]).
  set_register s s1 s2 O2 N2; [left; by vm_compute|].
  set_register s s2 s3 O3 N3; [left; by vm_compute|].
  destruct (Z.eqb_spec baudrate 0) as [|_]; [lia|]. rewrite bind_ret.
  match goal with |- context [bind (read_from_register _ _ _) ?K s3] =>
    destruct (read_register_run s3 UART_LCR K (ready_kept _ _ R (proj1 O3)) P ltac:(by vm_compute)) as (s4 & K4 & N4 & ->) end.
  assert (E4 : now s4 = now s3).
  { rewrite N4. cbn [uart_step]. by destruct (Z.eqb_spec (base + UART_LCR) (base + 5)) as [E|]; [unfold UART_LCR in E; lia|]. }
  assert (O4 : online s s4).
  { destruct O3 as (A1 & A2 & A3). split_and!; [by eapply kept_trans|rewrite (uhyve_kept s3 s4); [done|exact (ready_kept _ _ R A1)|done]|by rewrite E4]. }
  assert (Er : uart_read base (now s3) (base + UART_LCR) = 3).
  { unfold uart_read, UART_LCR. destruct (Z.eqb_spec (base + 3) (base + 5)); [lia|]. rewrite Z.eqb_refl, N3. reflexivity. }
  rewrite Er.
  set_register s s4 s5 O5 N5; [left; by vm_compute|].
  set_register s s5 s6 O6 N6; [right; by rewrite N5|].
  set_register s s6 s7 O7 N7; [left; by vm_compute|].
  set_register s s7 s8 O8 N8; [left; by vm_compute|].
  destruct (set_register_run s s8 UART_FCR 7 ret R P O8) as (s9 & O9 & N9 & E9); [left; by vm_compute|].
  rewrite bind_ret_r in E9.
  assert (Ed : 0 <= 115200 / baudrate mod 2 ^ 16 < 65536) by (by apply Z.mod_pos_bound). set (d := 115200 / baudrate mod 2 ^ 16) in *.
  assert (N : now s9 = mkUart (sent (now s)) 0 0 (d mod 256) (Z.shiftr d 8 mod 256) 7 3).
  { destruct (now s) as [t n e d0 d1 f c]. cbn [lcr sent] in *.
    assert (M2 : now s2 = mkUart t 0 0 d0 d1 f c).
    { rewrite N2, N1. unfold uart_write, divisor_latch. cbn [idle lcr sent busy ier dll dlm fcr]. rewrite Hl. reflexivity. }
    assert (M3 : now s3 = mkUart t 0 0 d0 d1 f 3) by (rewrite N3, M2; reflexivity).
    assert (M5 : now s5 = mkUart t 0 0 d0 d1 f 0x83) by (rewrite N5, E4, M3; reflexivity).
    assert (M6 : now s6 = mkUart t 0 0 (d mod 256) d1 f 0x83) by (rewrite N6, M5; reflexivity).
    assert (M7 : now s7 = mkUart t 0 0 (d mod 256) (Z.shiftr d 8 mod 256) f 0x83) by (rewrite N7, M6; reflexivity).
    assert (M8 : now s8 = mkUart t 0 0 (d mod 256) (Z.shiftr d 8 mod 256) f 3) by (rewrite N8, M7; reflexivity).
    rewrite N9, M8. reflexivity. }
  exists s9. rewrite N. split_and!; [exact E9|apply O9|done..| |done]. cbn [dll dlm].
  rewrite Z.shiftr_div_pow2 by done. change (2 ^ 8) with 256. clear -Ed. clearbody d.
  rewrite (Z.mod_small (d / 256)) by (split; [apply Z.div_pos|apply Z.div_lt_upper_bound]; lia).
  pose proof (Z.div_mod d 256). lia.
Qed.

(** [message_output_init] takes the port from the boot information and sets the device up for
    115200 baud. *)
Theorem message_output_init_correct s :
  boot_ready root BOOT_INFO (bay s) -> permitted root (cpu (bay s)) safe_data_start true = true ->
  info s "uartport" = base -> port_ok -> info s "single_kernel" <> 0 -> uhyve s = false ->
  (busy (now s) < fuel)%nat -> divisor_latch (now s) = false ->
  exists s', message_output_init root BOOT_INFO hw fuel s = Done (tt, s') /\ ready s' /\
    ier (now s') = 0 /\ lcr (now s') = 3 /\ fcr (now s') = 7 /\ dll (now s') + 256 * dlm (now s') = 1.
Proof.
  intros R W Hp P Hs U Hb Hl. unfold message_output_init.
  destruct (read_field_run s "uartport" R) as (b & E & K); [by apply is_field_test_ok|].
  rewrite (on_bay_run _ _ _ _ _ E), Hp. set (s1 := with_bay b s) in *.
  assert (W1 : permitted root (cpu (bay s1)) safe_data_start true = true)
    by (rewrite (permitted_same root _ _ _ _ _ (kp_rights _ _ K)); exact W).
  rewrite (on_bay_run _ _ _ _ _ (safe_var_run root (bay s1) true W1)), bind_modify. set (s2 := mkSerial _ _ _).
  assert (R2 : ready s2).
  { split; [|done]. destruct (ready_kept (mkSerial (bay s) [] base) (mkSerial b [] base)) as [R2 _]; [by split|..|exact R2].
    by destruct K. }
  assert (Hi : forall f, is_field f -> info s2 f = info s f).
  { intros f Hf. apply (info_kept (mkSerial (bay s) [] base) (mkSerial b [] base)); [by split|done|by destruct K]. }
  match goal with |- context [bind (on_bay _) ?k s2] => destruct (is_single_kernel_run s2 k R2) as (s3 & K3 & H3 & ->) end.
  rewrite Hi by (by apply is_field_test_ok). destruct (Z.eqb_spec (info s "single_kernel") 0); [done|]. cbn [negb].
  assert (N3 : now s3 = now s) by (unfold now; rewrite H3; done).
  destruct (serial_init_correct s3 SERIAL_PORT_BAUDRATE) as (s' & E' & K' & A1 & A2 & A3 & A4 & A5).
  - by eapply ready_kept.
  - done.
  - rewrite (uhyve_kept s2 s3) by done. unfold uhyve. rewrite Hi by (by apply is_field_test_ok). exact U.
  - by rewrite N3.
  - by rewrite N3.
  - by vm_compute.
  - exists s'. assert (R' : ready s') by (by eapply ready_kept, K'; eapply ready_kept). split_and!; done.
Qed.

End correct.

(** *** An example *)

Section sample.

#[local] Existing Instance Paging.bump_source.

(** [sample_bay] of a kernel that runs alone *)
Definition sample_serial : Serial Z :=
  mkSerial (with_cpu (cpu sample_bay)
    (with_bytes (<[sample_info + offset_of BootInfo "single_kernel" := 1]> (bytes sample_bay)) sample_bay)) [] 0x3F8.

Definition sample_uart : Uart := mkUart [] 2 0 1 0 7 3.

(** A byte takes up to four polls. *)
Definition sample_latency (n : nat) : nat := (n `mod` 5)%nat.

Lemma sample_serial_ready : ready sample_root sample_info 0x3F8 sample_serial.
Proof.
  split; [|reflexivity]. unfold sample_serial. cbn [bay].
  apply object_ready_after; [apply sample_ready|by split].
Qed.

(** "Hi" and a line feed *)
Lemma write_str_sends_witness :
  exists s', write_str sample_root sample_info (uart_hardware 0x3F8 sample_latency sample_uart) 5 (fun _ => panic) [72; 105; 10]
      sample_serial = Done (tt, s') /\
    sent (now 0x3F8 sample_latency sample_uart s') = [72; 105; 13; 10].
Proof.
  assert (Hs : info sample_info sample_serial "single_kernel" = 1) by (vm_compute; reflexivity).
  assert (Hu : uhyve sample_info sample_serial = false) by (vm_compute; reflexivity).
  destruct (write_str_sends sample_root sample_info 0x3F8 sample_latency sample_uart 5 (fun _ => panic) sample_serial [72; 105; 10])
    as (s' & E & _ & _ & N).
  - exact sample_serial_ready.
  - by split; vm_compute.
  - split; [reflexivity|..]; unfold soon; rewrite Hu.
    + split; [cbn; lia|done].
    + intros n. split; [|done]. unfold sample_latency. apply Nat.mod_upper_bound. lia.
  - by rewrite Hs.
  - exists s'. split; [exact E|]. rewrite N. reflexivity.
Defined.

End sample.

