(* ===== verification/Environment.v ===== *)
(** * The command line: src/environment.rs

    The options the kernel finds in its command line, given by its bytes; the fields of the
    boot information it reads ([BootInfo.get_cmdline], [is_uhyve], [is_single_kernel]) are
    arguments. *)

From Stdlib Require Import ZArith Lia String.
From stdpp Require Import base numbers list.
From S2P Require Import Prelude Bytes.

#[local] Open Scope Z_scope.

Record Environment := mkEnvironment { COMMAND_LINE_CPU_FREQUENCY : Z; IS_PROXY : bool }.

(** [str::split(' ').next()]: what comes before the first space *)
Fixpoint until_space (l : list Z) : list Z :=
  match l with
  | [] => []
  | c :: l => if c =? 32 then [] else c :: until_space l
  end.

(** [str::parse::<u16>]: digits, perhaps behind a plus sign *)
Definition digit (c : Z) : option Z := if (48 <=? c) && (c <=? 57) then Some (c - 48) else None.

Fixpoint parse_digits (l : list Z) (acc : Z) : option Z :=
  match l with
  | [] => Some acc
  | c :: l => d ← digit c; if acc * 10 + d <? 2 ^ 16 then parse_digits l (acc * 10 + d) else None
  end.

Definition parse_u16 (l : list Z) : option Z :=
  match l with
  | [] => None
  | c :: l' => if c =? 43 then (match l' with [] => None | _ => parse_digits l' 0 end) else parse_digits l 0
  end.

Definition parse_command_line (cmdline : list Z) : M Environment unit :=
  match cmdline with
  | [] => ret tt
  | _ =>
      (match position_window (text "-freq") cmdline with
       | Some freq_index =>
           let cmdline_freq_str := drop (freq_index + length (text "-freq")) cmdline in
           let! mhz := lift (unwrap (parse_u16 (until_space cmdline_freq_str))) in
           modify (fun s => mkEnvironment mhz (IS_PROXY s))
       | None => ret tt
       end) ;;;
      modify (fun s => mkEnvironment (COMMAND_LINE_CPU_FREQUENCY s) (bool_decide (is_Some (position_window (text "-proxy") cmdline))))
  end.

Definition init (cmdline : list Z) (is_uhyve is_single_kernel : bool) : M Environment unit :=
  parse_command_line cmdline ;;;
  if is_uhyve || is_single_kernel then modify (fun s => mkEnvironment (COMMAND_LINE_CPU_FREQUENCY s) false)
  else modify (fun s => mkEnvironment (COMMAND_LINE_CPU_FREQUENCY s) true).

Definition get_command_line_cpu_frequency : M Environment Z := gets COMMAND_LINE_CPU_FREQUENCY.
Definition is_proxy : M Environment bool := gets IS_PROXY.

(** ** Correctness *)

(** The digits of a number, in decimal *)
Fixpoint value_of (l : list Z) (acc : Z) : Z :=
  match l with
  | [] => acc
  | d :: l => value_of l (acc * 10 + d)
  end.

Definition digits_text (l : list Z) : list Z := (fun d => 48 + d) <$> l.

Lemma value_of_mono l acc : Forall (fun d => 0 <= d) l -> 0 <= acc -> acc <= value_of l acc.
Proof.
  intros Hl. revert acc. induction Hl as [|d l Hd Hl IH]; intros acc Ha; [done|]. cbn. specialize (IH (acc * 10 + d)). lia.
Qed.

Lemma parse_digits_spec l acc :
  Forall (fun d => 0 <= d < 10) l -> 0 <= acc < 2 ^ 16 ->
  parse_digits (digits_text l) acc = if value_of l acc <? 2 ^ 16 then Some (value_of l acc) else None.
Proof.
  intros Hl. revert acc. induction Hl as [|d l Hd Hl IH]; intros acc Ha.
  { cbn. by destruct (Z.ltb_spec acc (2 ^ 16)); [|lia]. }
  cbn [digits_text fmap list_fmap parse_digits value_of]. unfold digit. destruct (Z.leb_spec 48 (48 + d)); [|lia].
  destruct (Z.leb_spec (48 + d) 57); [|lia]. cbn [andb mbind option_bind]. replace (48 + d - 48) with d by lia.
  destruct (Z.ltb_spec (acc * 10 + d) (2 ^ 16)); [apply IH; lia|].
  assert (Hm : acc * 10 + d <= value_of l (acc * 10 + d)).
  { apply value_of_mono; [|lia]. eapply Forall_impl; [exact Hl|]. cbn. lia. }
  by destruct (Z.ltb_spec (value_of l (acc * 10 + d)) (2 ^ 16)); [lia|].
Qed.

Lemma until_space_digits l rest :
  Forall (fun d => 0 <= d < 10) l -> rest = [] \/ head rest = Some 32 -> until_space (digits_text l ++ rest) = digits_text l.
Proof.
  intros Hl Hr. induction Hl as [|d l Hd Hl IH].
  - cbn. destruct Hr as [-> | Hr]; [done|]. destruct rest as [|c rest]; [done|]. injection Hr as ->. done.
  - cbn [digits_text fmap list_fmap app until_space]. destruct (Z.eqb_spec (48 + d) 32); [lia|]. f_equal. apply IH.
Qed.

(** The option "-freq" followed at once by a number: the number is the frequency, and a number
    that does not fit 16 bits is a panic. *)
Theorem parse_freq cmdline i l rest s :
  position_window (text "-freq") cmdline = Some i ->
  drop (i + 5) cmdline = digits_text l ++ rest -> l <> [] -> Forall (fun d => 0 <= d < 10) l -> rest = [] \/ head rest = Some 32 ->
  parse_command_line cmdline s =
    if value_of l 0 <? 2 ^ 16
    then Done (tt, mkEnvironment (value_of l 0) (bool_decide (is_Some (position_window (text "-proxy") cmdline)))) else Panic.
Proof.
  intros Hi Hd Hn Hl Hr. unfold parse_command_line. destruct cmdline as [|c cmdline']; [by destruct i|]. set (cmdline := c :: cmdline') in *.
  rewrite Hi. change (length (text "-freq")) with 5%nat. cbv zeta. rewrite Hd, until_space_digits by done.
  assert (Ep : parse_u16 (digits_text l) = if value_of l 0 <? 2 ^ 16 then Some (value_of l 0) else None).
  { rewrite <- parse_digits_spec by (done || lia). destruct l as [|d l]; [done|]. apply Forall_cons in Hl as [Hd' _].
    cbn [digits_text fmap list_fmap parse_u16]. by destruct (Z.eqb_spec (48 + d) 43); [lia|]. }
  rewrite Ep. by destruct (value_of l 0 <? 2 ^ 16).
Qed.

(** A space between the option and its number is a panic. *)
Theorem parse_freq_space cmdline i rest s :
  position_window (text "-freq") cmdline = Some i -> drop (i + 5) cmdline = 32 :: rest -> parse_command_line cmdline s = Panic.
Proof.
  intros Hi Hd. unfold parse_command_line. destruct cmdline as [|c cmdline']; [by destruct i|]. set (cmdline := c :: cmdline') in *.
  rewrite Hi. change (length (text "-freq")) with 5%nat. cbv zeta. by rewrite Hd.
Qed.

(** [init] decides about the proxy without the option. *)
Theorem init_proxy cmdline u k s s' :
  init cmdline u k s = Done (tt, s') -> IS_PROXY s' = negb (u || k).
Proof.
  unfold init, bind. destruct (parse_command_line cmdline s) as [[[] s1]| |]; [|done..]. cbn. destruct (u || k); intros E; by injection E as <-.
Qed.

(** "-proxy -freq2600 x" and "-freq 2600" *)
Example sample_freq :
  parse_command_line (text "-proxy -freq2600 x") (mkEnvironment 0 false) = Done (tt, mkEnvironment 2600 true) /\
  parse_command_line (text "-freq 2600") (mkEnvironment 0 false) = Panic.
Proof. split; vm_compute; reflexivity. Qed.
