(* ===== verification/Loader.v ===== *)
(** * The loader's checks: src/loader/src/lib.rs, elf.rs and physicalmem.rs

    The loader finds an ELF executable in memory, checks that it is one for this kernel, and
    reads from its program headers what has to be moved where. *)

From Stdlib Require Import ZArith Lia String.
From stdpp Require Import base numbers list gmap sorting.
From S2P Require Import Prelude Pte Bytes.
From S2P Require BootInfo.

#[local] Open Scope Z_scope.

Definition ELF_MAGIC : Z := 0x464C457F.
Definition ELF_CLASS_64 : Z := 0x02.
Definition ELF_DATA_2LSB : Z := 0x01.
Definition ELF_PAD_HERMIT : Z := 0xFF.
Definition ELF_ET_EXEC : Z := 0x0002.
Definition ELF_EM_X86_64 : Z := 0x003E.
Definition ELF_PT_LOAD : Z := 1.
Definition ELF_PT_TLS : Z := 7.

(** [struct ElfHeader] after its [ElfIdentification], of whose array [pad] the first byte is
    a field of its own *)
Definition ElfHeader : layout :=
  [("magic", 4); ("_class", 1); ("data", 1); ("ident_version", 1); ("pad[0]", 1); ("pad[1..]", 7); ("nident", 1);
   ("ty", 2); ("machine", 2); ("version", 4); ("entry", 8); ("ph_offset", 8); ("sh_offset", 8); ("flags", 4);
   ("header_size", 2); ("ph_entry_size", 2); ("ph_entry_count", 2); ("sh_entry_size", 2); ("sh_entry_count", 2);
   ("sh_str_table_index", 2)]%string.

Definition ElfProgramHeader : layout :=
  [("ty", 4); ("flags", 4); ("offset", 8); ("virt_addr", 8); ("phys_addr", 8); ("file_size", 8); ("mem_size", 8);
   ("alignment", 8)]%string.

(** arch/x86_64/bootinfo.rs *)
Definition BootInfo : layout :=
  [("magic_number", 4); ("version", 4); ("base", 8); ("limit", 8); ("image_size", 8); ("tls_start", 8);
   ("tls_filesz", 8); ("tls_memsz", 8); ("current_stack_address", 8); ("current_percore_address", 8);
   ("host_logical_addr", 8); ("boot_gtod", 8); ("mb_info", 8); ("cmdline", 8); ("cmdsize", 8); ("cpu_freq", 4);
   ("boot_processor", 4); ("cpu_online", 4); ("possible_cpus", 4); ("current_boot_id", 4); ("uartport", 2);
   ("single_kernel", 1); ("uhyve", 1); ("hcip", 4); ("hcgateway", 4); ("hcmask", 4)]%string.

Definition SERIAL_PORT_ADDRESS : Z := 0x3F8.

(** [BootInfo::new]: the fields that are not 0; the addresses are arrays, here as the numbers of
    their bytes in memory. *)
Definition BootInfo_new : list (string * Z) :=
  [("magic_number", 0xC0DECAFE); ("version", 1); ("boot_processor", 2 ^ 32 - 1); ("uartport", SERIAL_PORT_ADDRESS);
   ("single_kernel", 1); ("hcip", 0xFFFFFFFF); ("hcgateway", 0xFFFFFFFF); ("hcmask", 0x00FFFFFF)]%string.

(** The bytes the loader has mapped, the fields of [BOOT_INFO] it sets here, and the variable of
    physicalmem.rs *)
Record Loader := mkLoader {
  memory : gmap Z Z;
  tls_start : Z;
  tls_filesz : Z;
  tls_memsz : Z;
  CURRENT_ADDRESS : Z
}.

Abbreviation Run := (M Loader).

Fixpoint read_bytes (m : gmap Z Z) (a : Z) (n : nat) : option (list Z) :=
  match n with
  | O => Some []
  | S n => b ← m !! a; bs ← read_bytes m (a + 1) n; Some (b :: bs)
  end.

(** The field of the struct at [a]; a page that is not mapped is a fault. *)
Definition field_in (m : gmap Z Z) (fields : layout) (a : Z) (name : string) : option Z :=
  le <$> read_bytes m (a + offset_of fields name) (field fields name).2.

Definition load (fields : layout) (a : Z) (name : string) : Run Z :=
  let! m := gets memory in
  lift (unwrap (field_in m fields a name)).

(** [*] on [u16] *)
Definition mul16 (a b : Z) : outcome Z := if a * b <? 2 ^ 16 then Done (a * b) else Panic.

(** The variables of the loop over the program headers *)
Record Image := mkImage { physical_address : Z; virtual_address : Z; file_size : Z; mem_size : Z }.

Definition program_header (start_address ph_offset ph_entry_size i : Z) (im : Image) : Run Image :=
  let! base := lift (add64 start_address ph_offset) in
  let! off := lift (mul16 i ph_entry_size) in
  let! header := lift (add64 base off) in
  let field := load ElfProgramHeader header in
  let! ty := field "ty"%string in
  if ty =? ELF_PT_LOAD then
    let! physical_address :=
      if physical_address im =? 0 then let! offset := field "offset"%string in lift (add64 start_address offset)
      else ret (physical_address im) in
    let! virt_addr := field "virt_addr"%string in
    let virtual_address := if virtual_address im =? 0 then virt_addr else virtual_address im in
    let! file := field "file_size"%string in
    let! file_end := lift (add64 virt_addr file) in
    let! file_size := lift (sub64 file_end virtual_address) in
    let! mem := field "mem_size"%string in
    let! mem_end := lift (add64 virt_addr mem) in
    let! mem_size := lift (sub64 mem_end virtual_address) in
    ret (mkImage physical_address virtual_address file_size mem_size)
  else if ty =? ELF_PT_TLS then
    let! virt_addr := field "virt_addr"%string in
    let! file := field "file_size"%string in
    let! mem := field "mem_size"%string in
    modify (fun s => mkLoader (memory s) virt_addr file mem (CURRENT_ADDRESS s)) ;;;
    ret im
  else ret im.

(** [for i in 0..header.ph_entry_count] *)
Fixpoint program_headers (start_address ph_offset ph_entry_size i : Z) (n : nat) (im : Image) : Run Image :=
  match n with
  | O => ret im
  | S n =>
      let! im := program_header start_address ph_offset ph_entry_size i im in
      program_headers start_address ph_offset ph_entry_size (i + 1) n im
  end.

Definition check_kernel_elf_file (start_address : Z) : Run (Image * Z) :=
  let field := load ElfHeader start_address in
  let! magic := field "magic"%string in
  massert (magic =? ELF_MAGIC) ;;;
  let! class := field "_class"%string in
  massert (class =? ELF_CLASS_64) ;;;
  let! data := field "data"%string in
  massert (data =? ELF_DATA_2LSB) ;;;
  let! pad := field "pad[0]"%string in
  massert (pad =? ELF_PAD_HERMIT) ;;;
  let! ty := field "ty"%string in
  massert (ty =? ELF_ET_EXEC) ;;;
  let! machine := field "machine"%string in
  massert (machine =? ELF_EM_X86_64) ;;;
  let! count := field "ph_entry_count"%string in
  let! ph_offset := field "ph_offset"%string in
  let! ph_entry_size := field "ph_entry_size"%string in
  let! im := program_headers start_address ph_offset ph_entry_size 0 (Z.to_nat count) (mkImage 0 0 0 0) in
  massert (physical_address im mod SIZE BasePageSize =? 0) ;;;
  massert (virtual_address im mod SIZE LargePageSize =? 0) ;;;
  massert (0 <? file_size im) ;;;
  massert (0 <? mem_size im) ;;;
  let! entry := field "entry"%string in
  ret (im, entry).

(** physicalmem.rs *)
Definition physicalmem_init (address : Z) : Run unit :=
  modify (fun s => mkLoader (memory s) (tls_start s) (tls_filesz s) (tls_memsz s) address).

Definition physicalmem_allocate (size : Z) : Run Z :=
  massert (0 <? size) ;;;
  massert (size mod SIZE BasePageSize =? 0) ;;;
  let! address := gets CURRENT_ADDRESS in
  massert (0 <? address) ;;;
  let! next := lift (add64 address size) in
  modify (fun s => mkLoader (memory s) (tls_start s) (tls_filesz s) (tls_memsz s) next) ;;;
  ret address.

(** ** Correctness *)

(** A program header *)
Record segment := mkSegment { p_type : Z; p_offset : Z; p_virt : Z; p_file : Z; p_mem : Z }.

Definition segment_at (m : gmap Z Z) (a : Z) (g : segment) : Prop :=
  field_in m ElfProgramHeader a "ty" = Some (p_type g) /\ field_in m ElfProgramHeader a "offset" = Some (p_offset g) /\
  field_in m ElfProgramHeader a "virt_addr" = Some (p_virt g) /\ field_in m ElfProgramHeader a "file_size" = Some (p_file g) /\
  field_in m ElfProgramHeader a "mem_size" = Some (p_mem g).

Definition is_load (g : segment) : bool := p_type g =? ELF_PT_LOAD.
Definition loads (l : list segment) : list segment := List.filter is_load l.

(** The image that segments to load make up: from the first to the end of the last *)
Definition image_of (start : Z) (l : list segment) : Image :=
  match l, last l with
  | f :: _, Some g => mkImage (start + p_offset f) (p_virt f) (p_virt g + p_file g - p_virt f) (p_virt g + p_mem g - p_virt f)
  | _, _ => mkImage 0 0 0 0
  end.

(** What the last segment for thread-local storage says *)
Definition tls_of (s : Loader) (l : list segment) : Loader :=
  fold_left (fun s g => if is_load g then s else if p_type g =? ELF_PT_TLS
    then mkLoader (memory s) (p_virt g) (p_file g) (p_mem g) (CURRENT_ADDRESS s) else s) l s.

(** The segments to load lie behind the address [v] of the first one, with ends that are
    addresses. *)
Definition segment_ok (start v : Z) (g : segment) : Prop :=
  0 <= p_offset g /\ start + p_offset g < W64 /\ 0 < v <= p_virt g /\
  0 <= p_file g /\ p_virt g + p_file g < W64 /\ 0 <= p_mem g /\ p_virt g + p_mem g < W64.

Definition first_virt (l : list segment) : Z := match l with f :: _ => p_virt f | [] => 0 end.

Lemma memory_tls_of s l : memory (tls_of s l) = memory s.
Proof. revert s. induction l as [|g l IH]; intros s; [done|].
  unfold tls_of in *. cbn [fold_left]. rewrite IH. by destruct (is_load g), (p_type g =? ELF_PT_TLS). Qed.

Lemma load_run s fields a name v {A} (k : Z -> M Loader A) :
  field_in (memory s) fields a name = Some v -> bind (load fields a name) k s = k v s.
Proof. intros E. unfold load. rewrite bind_assoc, bind_gets, E. reflexivity. Qed.

(** One more segment *)
Lemma image_snoc start l g :
  0 < start -> Forall (segment_ok start (first_virt (l ++ [g]))) (l ++ [g]) ->
  let im := image_of start l in
  let v := if virtual_address im =? 0 then p_virt g else virtual_address im in
  image_of start (l ++ [g]) =
    mkImage (if physical_address im =? 0 then start + p_offset g else physical_address im) v (p_virt g + p_file g - v) (p_virt g + p_mem g - v)
  /\ 0 < v <= p_virt g.
Proof.
  intros Hs Hl. assert (Hg : segment_ok start (first_virt (l ++ [g])) g) by (rewrite Forall_app, Forall_singleton in Hl; apply Hl).
  destruct l as [|f l]; [split; [reflexivity|apply Hg]|]. cbn [app] in *. apply Forall_cons in Hl as [Hf _].
  destruct Hf as (F1 & F2 & F3 & _). destruct Hg as (G1 & G2 & G3 & _). cbn [first_virt] in *.
  unfold image_of. change (f :: l ++ [g]) with ((f :: l) ++ [g]). rewrite last_snoc.
  destruct (last (f :: l)) as [h|] eqn:El; [|by apply last_None in El]. cbn [app virtual_address physical_address].
  destruct (Z.eqb_spec (p_virt f) 0); [lia|]. destruct (Z.eqb_spec (start + p_offset f) 0); [lia|]. done.
Qed.

Lemma loads_snoc l g : loads (l ++ [g]) = if is_load g then loads l ++ [g] else loads l.
Proof. unfold loads. rewrite List.filter_app. cbn [List.filter]. destruct (is_load g); [done|]. by rewrite app_nil_r. Qed.

(** A round of the loop adds a segment to the image. *)
Lemma program_header_run start off size i s pre g {A} (k : Image -> M Loader A) :
  0 < start -> 0 <= off -> 0 <= i -> 0 <= size -> i * size < 2 ^ 16 -> start + off + i * size < W64 ->
  segment_at (memory s) (start + off + i * size) g ->
  Forall (segment_ok start (first_virt (loads (pre ++ [g])))) (loads (pre ++ [g])) ->
  bind (program_header start off size i (image_of start (loads pre))) k s = k (image_of start (loads (pre ++ [g]))) (tls_of s [g]).
Proof.
  intros Hs Ho Hi Hz Hm Ha (E1 & E2 & E3 & E4 & E5) Hl. unfold program_header.
  rewrite bind_assoc, (bind_lift_done _ _ _ _ (add64_done start off ltac:(nia))).
  rewrite bind_assoc, (bind_lift_done _ _ (i * size)) by (unfold mul16; by destruct (Z.ltb_spec (i * size) (2 ^ 16)); [|lia]).
  rewrite bind_assoc, (bind_lift_done _ _ _ _ (add64_done (start + off) (i * size) ltac:(nia))). cbv zeta.
  rewrite bind_assoc, (load_run _ _ _ _ _ _ E1). unfold tls_of. cbn [fold_left]. rewrite loads_snoc in *. unfold is_load in *.
  destruct (Z.eqb_spec (p_type g) ELF_PT_LOAD) as [Et|Et].
  - destruct (image_snoc start (loads pre) g Hs Hl) as [-> Hv]. set (im := image_of start (loads pre)) in *.
    assert (Hg : segment_ok start (first_virt (loads pre ++ [g])) g) by (rewrite Forall_app, Forall_singleton in Hl; apply Hl).
    destruct Hg as (G1 & G2 & G3 & G4 & G5 & G6 & G7).
    set (v := if virtual_address im =? 0 then p_virt g else virtual_address im) in *.
    set (p := if physical_address im =? 0 then start + p_offset g else physical_address im) in *.
    assert (Ep : forall (k' : Z -> M Loader A), bind (if physical_address im =? 0
        then let! offset := load ElfProgramHeader (start + off + i * size) "offset" in lift (add64 start offset)
        else ret (physical_address im)) k' s = k' p s).
    { intros k'. unfold p. destruct (physical_address im =? 0); [|done].
      by rewrite bind_assoc, (load_run _ _ _ _ _ _ E2), (bind_lift_done _ _ _ _ (add64_done start (p_offset g) ltac:(lia))). }
    rewrite bind_assoc, Ep.
    rewrite bind_assoc, (load_run _ _ _ _ _ _ E3), bind_assoc, (load_run _ _ _ _ _ _ E4).
    rewrite bind_assoc, (bind_lift_done _ _ _ _ (add64_done (p_virt g) (p_file g) ltac:(lia))). cbv beta. fold v.
    rewrite bind_assoc, (bind_lift_done _ _ _ _ (sub64_done (p_virt g + p_file g) v ltac:(lia))).
    rewrite bind_assoc, (load_run _ _ _ _ _ _ E5), bind_assoc, (bind_lift_done _ _ _ _ (add64_done (p_virt g) (p_mem g) ltac:(lia))).
    by rewrite bind_assoc, (bind_lift_done _ _ _ _ (sub64_done (p_virt g + p_mem g) v ltac:(lia))).
  - destruct (p_type g =? ELF_PT_TLS); [|done].
    rewrite bind_assoc, (load_run _ _ _ _ _ _ E3), bind_assoc, (load_run _ _ _ _ _ _ E4), bind_assoc, (load_run _ _ _ _ _ _ E5).
    by rewrite bind_assoc, bind_modify.
Qed.

(** The table of the program headers *)
Definition table_at (m : gmap Z Z) (a size : Z) (i : Z) (l : list segment) : Prop :=
  forall (j : nat) g, l !! j = Some g -> segment_at m (a + (i + Z.of_nat j) * size) g.

Lemma tls_of_app s l1 l2 : tls_of s (l1 ++ l2) = tls_of (tls_of s l1) l2.
Proof. apply fold_left_app. Qed.

Lemma Forall_loads_prefix start v pre l : Forall (segment_ok start v) (loads (pre ++ l)) -> Forall (segment_ok start v) (loads pre).
Proof. unfold loads. rewrite List.filter_app, Forall_app. tauto. Qed.

Lemma first_virt_app pre l : loads pre <> [] -> first_virt (loads (pre ++ l)) = first_virt (loads pre).
Proof. unfold loads. rewrite List.filter_app. by destruct (List.filter is_load pre). Qed.

Lemma loads_prefix_ok start pre l :
  Forall (segment_ok start (first_virt (loads (pre ++ l)))) (loads (pre ++ l)) ->
  Forall (segment_ok start (first_virt (loads pre))) (loads pre).
Proof.
  intros Hl. destruct (decide (loads pre = [])) as [E|E]; [rewrite E; constructor|].
  rewrite first_virt_app in Hl by done. by eapply Forall_loads_prefix.
Qed.

Lemma program_headers_run start off size l : forall i s pre,
  0 < start -> 0 <= off -> 0 <= i -> 0 <= size -> (i + Z.of_nat (length l)) * size < 2 ^ 16 ->
  start + off + (i + Z.of_nat (length l)) * size < W64 -> table_at (memory s) (start + off) size i l ->
  Forall (segment_ok start (first_virt (loads (pre ++ l)))) (loads (pre ++ l)) ->
  program_headers start off size i (length l) (image_of start (loads pre)) s = Done (image_of start (loads (pre ++ l)), tls_of s l).
Proof.
  induction l as [|g l IH]; intros i s pre Hs Ho Hi Hz Hm Ha Ht Hl; [by rewrite app_nil_r|].
  cbn [length program_headers] in *. replace (pre ++ g :: l) with ((pre ++ [g]) ++ l) in * by (by rewrite <- app_assoc).
  rewrite (program_header_run start off size i s pre g).
  - rewrite IH; [done|done|done|lia|done|nia|nia| |done].
    intros j h Hj. rewrite memory_tls_of. replace (i + 1 + Z.of_nat j) with (i + Z.of_nat (S j)) by lia. by apply Ht.
  - done.
  - done.
  - done.
  - done.
  - nia.
  - nia.
  - replace i with (i + Z.of_nat 0) by lia. by apply Ht.
  - by eapply loads_prefix_ok.
Qed.

(** The header of an executable for this kernel *)
Record header_at (m : gmap Z Z) (a off size count entry : Z) : Prop := {
  h_magic : field_in m ElfHeader a "magic" = Some ELF_MAGIC;
  h_class : field_in m ElfHeader a "_class" = Some ELF_CLASS_64;
  h_data : field_in m ElfHeader a "data" = Some ELF_DATA_2LSB;
  h_pad : field_in m ElfHeader a "pad[0]" = Some ELF_PAD_HERMIT;
  h_ty : field_in m ElfHeader a "ty" = Some ELF_ET_EXEC;
  h_machine : field_in m ElfHeader a "machine" = Some ELF_EM_X86_64;
  h_count : field_in m ElfHeader a "ph_entry_count" = Some count;
  h_offset : field_in m ElfHeader a "ph_offset" = Some off;
  h_size : field_in m ElfHeader a "ph_entry_size" = Some size;
  h_entry : field_in m ElfHeader a "entry" = Some entry
}.

(** For an executable with the segments [l] the loader finds what is to be moved: from the
    start of the first segment to load to the end of the last one, in the file and in memory,
    and the thread-local storage. If the segments come in the order of their ends, that is all of them. *)
Theorem check_kernel_elf_file_correct start off size entry l s :
  0 < start -> 0 <= off -> 0 <= size -> Z.of_nat (length l) * size < 2 ^ 16 -> start + off + Z.of_nat (length l) * size < W64 ->
  header_at (memory s) start off size (Z.of_nat (length l)) entry -> table_at (memory s) (start + off) size 0 l ->
  Forall (segment_ok start (first_virt (loads l))) (loads l) ->
  let im := image_of start (loads l) in
  check_kernel_elf_file start s =
    if (physical_address im mod 4096 =? 0) && (virtual_address im mod 0x200000 =? 0) && (0 <? file_size im) && (0 <? mem_size im)
    then Done (im, entry, tls_of s l) else Panic.
Proof.
  intros Hs Ho Hz Hm Ha [H1 H2 H3 H4 H5 H6 H7 H8 H9 H10] Ht Hl im. unfold check_kernel_elf_file.
  rewrite (load_run _ _ _ _ _ _ H1), bind_massert, (load_run _ _ _ _ _ _ H2), bind_massert, (load_run _ _ _ _ _ _ H3), bind_massert,
    (load_run _ _ _ _ _ _ H4), bind_massert, (load_run _ _ _ _ _ _ H5), bind_massert, (load_run _ _ _ _ _ _ H6), bind_massert by done.
  rewrite (load_run _ _ _ _ _ _ H7), (load_run _ _ _ _ _ _ H8), (load_run _ _ _ _ _ _ H9), Nat2Z.id.
  pose proof (program_headers_run start off size l 0 s [] Hs Ho ltac:(lia) Hz ltac:(lia) ltac:(lia) Ht Hl) as E.
  rewrite (bind_done _ _ _ _ _ E). cbn [app]. fold im. change (SIZE BasePageSize) with 4096. change (SIZE LargePageSize) with 0x200000.
  unfold massert. destruct (_ =? 0); [|done]. cbn [andb oassert]. rewrite (bind_lift_done _ _ _ _ eq_refl).
  destruct (_ =? 0); [|done]. cbn [andb oassert]. rewrite (bind_lift_done _ _ _ _ eq_refl).
  destruct (0 <? _); [|done]. cbn [andb oassert]. rewrite (bind_lift_done _ _ _ _ eq_refl).
  destruct (0 <? _); [|done]. cbn [andb oassert]. rewrite (bind_lift_done _ _ _ _ eq_refl).
  rewrite (load_run _ _ _ _ entry); [done|]. by rewrite memory_tls_of.
Qed.

(** The image covers every segment, if the ends of the segments grow. *)
Lemma image_covers start l g :
  Forall (segment_ok start (first_virt l)) l -> StronglySorted (fun a b => p_virt a + p_mem a <= p_virt b + p_mem b) l -> g ∈ l ->
  let im := image_of start l in
  virtual_address im <= p_virt g /\ p_virt g + p_mem g <= virtual_address im + mem_size im.
Proof.
  intros Hl Hs Hg im. destruct (last l) as [h|] eqn:El; [|apply last_None in El; subst l; by apply elem_of_nil in Hg].
  destruct l as [|f l]; [by apply elem_of_nil in Hg|]. unfold im, image_of. rewrite El. cbn [virtual_address mem_size first_virt] in *.
  rewrite Forall_forall in Hl. destruct (Hl g Hg) as (_ & _ & Hv & _). split; [lia|].
  apply last_Some in El as [pre E]. rewrite E in Hs, Hg. apply elem_of_app in Hg as [Hg|Hg].
  - pose proof (StronglySorted_app_1_elem_of _ pre [h] g h Hs Hg ltac:(by apply list_elem_of_singleton)). cbv beta in *. lia.
  - apply list_elem_of_singleton in Hg as ->. lia.
Qed.

(** [allocate] hands out the memory behind what it gave before. *)
Lemma physicalmem_allocate_correct s size :
  0 < size -> size mod 4096 = 0 -> 0 < CURRENT_ADDRESS s -> CURRENT_ADDRESS s + size < W64 ->
  physicalmem_allocate size s = Done (CURRENT_ADDRESS s,
    mkLoader (memory s) (tls_start s) (tls_filesz s) (tls_memsz s) (CURRENT_ADDRESS s + size)).
Proof.
  intros H1 H2 H3 H4. unfold physicalmem_allocate. rewrite bind_massert by (by apply Z.ltb_lt). rewrite bind_massert by (by apply Z.eqb_eq).
  rewrite bind_gets, bind_massert by (by apply Z.ltb_lt). by rewrite (bind_lift_done _ _ _ _ (add64_done (CURRENT_ADDRESS s) size ltac:(lia))).
Qed.

(** The kernel reads the fields where the loader has written them. *)
Lemma boot_info_layouts_agree : BootInfo = BootInfo.BootInfo.
Proof. reflexivity. Qed.

(** The values of the fields fit them. *)
Lemma boot_info_values_fit :
  forallb (fun f => (0 <=? f.2) && (f.2 <? 2 ^ (8 * Z.of_nat (field BootInfo f.1).2))) BootInfo_new = true.
Proof. reflexivity. Qed.

(** *** An example *)

(** Bytes at an address *)
Fixpoint place (a : Z) (bs : list Z) (m : gmap Z Z) : gmap Z Z :=
  match bs with
  | [] => m
  | b :: bs => <[a := b]> (place (a + 1) bs m)
  end.

Definition encode_header (off size count entry : Z) : list Z :=
  le_bytes 4 ELF_MAGIC ++ [ELF_CLASS_64; ELF_DATA_2LSB; 1; ELF_PAD_HERMIT] ++ replicate 8 0 ++ le_bytes 2 ELF_ET_EXEC
  ++ le_bytes 2 ELF_EM_X86_64 ++ le_bytes 4 1 ++ le_bytes 8 entry ++ le_bytes 8 off ++ le_bytes 8 0 ++ le_bytes 4 0
  ++ le_bytes 2 64 ++ le_bytes 2 size ++ le_bytes 2 count ++ replicate 6 0.

Definition encode_segment (g : segment) : list Z :=
  le_bytes 4 (p_type g) ++ le_bytes 4 0 ++ le_bytes 8 (p_offset g) ++ le_bytes 8 (p_virt g) ++ le_bytes 8 (p_virt g)
  ++ le_bytes 8 (p_file g) ++ le_bytes 8 (p_mem g) ++ le_bytes 8 4096.

(** Two segments to load, and thread-local storage *)
Definition sample_segments : list segment :=
  [mkSegment ELF_PT_LOAD 0x1000 0x200000 0x5000 0x5000; mkSegment ELF_PT_LOAD 0x6000 0x205000 0x800 0x3000;
   mkSegment ELF_PT_TLS 0x6000 0x205000 0x100 0x180].

Definition sample_loader : Loader :=
  mkLoader (place 0x100000 (encode_header 64 56 3 0x200040 ++ (g ← sample_segments; encode_segment g)) ∅) 0 0 0 0x800000.

Lemma check_kernel_elf_file_correct_witness :
  check_kernel_elf_file 0x100000 sample_loader =
    Done (mkImage 0x101000 0x200000 0x5800 0x8000, 0x200040, mkLoader (memory sample_loader) 0x205000 0x100 0x180 0x800000).
Proof.
  assert (Hh : header_at (memory sample_loader) 0x100000 64 56 3 0x200040) by (split; vm_compute; reflexivity).
  assert (Ht : table_at (memory sample_loader) (0x100000 + 64) 56 0 sample_segments).
  { intros j g Hj. destruct j as [|[|[|j]]]; [| | |done]; injection Hj as <-; (split_and!; vm_compute; reflexivity). }
  assert (Hl : Forall (segment_ok 0x100000 (first_virt (loads sample_segments))) (loads sample_segments)).
  { change (loads sample_segments) with (take 2 sample_segments). repeat constructor; by vm_compute. }
  change 3 with (Z.of_nat (length sample_segments)) in Hh.
  rewrite (check_kernel_elf_file_correct 0x100000 64 56 0x200040 sample_segments sample_loader) by (exact Hh || exact Ht || exact Hl || done).
  assert (Ei : image_of 0x100000 (loads sample_segments) = mkImage 0x101000 0x200000 0x5800 0x8000) by reflexivity.
  rewrite Ei. reflexivity.
Defined.

