(* ===== verification/Hypercall.v ===== *)
(** * Requests to the hypervisor: src/syscalls/interfaces/uhyve.rs

    The kernel builds a packed struct on its stack, writes the struct's physical address to
    a port, and finds the answer in the struct. The hypervisor sees physical memory: [ram] has
    the bytes it shares with the kernel by physical address, and the kernel reaches them
    through its page tables. What the hypervisor does when a guest writes to a port is
    no code of this repository: [vmexit] is a parameter. *)

From Stdlib Require Import ZArith Lia String.
From stdpp Require Import base numbers list gmap.
From S2P Require Import Prelude Pte Mmu Paging Mm Mpk Cpu Isolation Bytes CopySafe Storage.

#[local] Open Scope Z_scope.

(** A core with the kernel's memory, the memory shared with the hypervisor, and what
    is the hypervisor's. *)
Record Guest (F X : Type) := mkGuest {
  bay : Bay F;
  ram : gmap Z Z;
  host : X
}.
Arguments mkGuest {F X} _ _ _.
Arguments bay {F X} _.
Arguments ram {F X} _.
Arguments host {F X} _.

(** ** Numbers and structs *)

(** An integer of [n] bytes that is signed, by its image *)
Definition signed (n : nat) (v : Z) : Z :=
  if 2 * v <? 256 ^ Z.of_nat n then v else v - 256 ^ Z.of_nat n.

(** The bytes of a packed struct with these fields *)
Fixpoint struct_bytes (fields : layout) (vals : list Z) : list Z :=
  match fields, vals with
  | (_, size) :: fields, v :: vals => le_bytes (Z.to_nat size) v ++ struct_bytes fields vals
  | _, _ => []
  end.

(** The fields of a struct, as the hypervisor reads them *)
Fixpoint struct_fields (fields : layout) (bs : list Z) : list Z :=
  match fields with
  | [] => []
  | (_, size) :: fields => le (take (Z.to_nat size) bs) :: struct_fields fields (drop (Z.to_nat size) bs)
  end.

Definition SysExit : layout := [("arg", 4)]%string.
Definition SysUnlink : layout := [("name", 8); ("ret", 4)]%string.
Definition SysOpen : layout := [("name", 8); ("flags", 4); ("mode", 4); ("ret", 4)]%string.
Definition SysClose : layout := [("fd", 4); ("ret", 4)]%string.
Definition SysRead : layout := [("fd", 4); ("buf", 8); ("len", 8); ("ret", 8)]%string.
Definition SysWrite : layout := [("fd", 4); ("buf", 8); ("len", 8)]%string.
Definition SysLseek : layout := [("fd", 4); ("offset", 8); ("whence", 4)]%string.

Definition UHYVE_PORT_WRITE : Z := 0x400.
Definition UHYVE_PORT_OPEN : Z := 0x440.
Definition UHYVE_PORT_CLOSE : Z := 0x480.
Definition UHYVE_PORT_READ : Z := 0x500.
Definition UHYVE_PORT_EXIT : Z := 0x540.
Definition UHYVE_PORT_LSEEK : Z := 0x580.
Definition UHYVE_PORT_UNLINK : Z := 0x840.

Section guest.

Context {F : Type} `{FrameSource F} {X : Type}.
Context (root : Z).

(** The memory and the hypervisor after a guest wrote a value to a port *)
Context (vmexit : Z -> Z -> gmap Z Z * X -> gmap Z Z * X).

Abbreviation Run := (M (Guest F X)).

Definition with_ram (d : gmap Z Z) (g : Guest F X) : Guest F X := mkGuest (bay g) d (host g).

Definition tables (g : Guest F X) : words := mem (core_mmu (core (cpu (bay g)))).

(** The physical address of an access that is permitted *)
Definition physical (g : Guest F X) (a : Z) (write : bool) : option Z :=
  if permitted root (cpu (bay g)) a write then translate (tables g) root a else None.

Definition load8 (a : Z) : Run Z := fun g =>
  match physical g a false with
  | Some p => Done (default 0 (ram g !! p), g)
  | None => Panic
  end.

Definition store8 (a v : Z) : Run unit := fun g =>
  match physical g a true with
  | Some p => Done (tt, with_ram (<[p := v]> (ram g)) g)
  | None => Panic
  end.

Fixpoint load_bytes (a : Z) (n : nat) : Run (list Z) :=
  match n with
  | O => ret []
  | S n =>
      let! v := load8 a in
      let! vs := load_bytes (a + 1) n in
      ret (v :: vs)
  end.

Fixpoint store_bytes (a : Z) (bs : list Z) : Run unit :=
  match bs with
  | [] => ret tt
  | v :: bs => store8 a v ;;; store_bytes (a + 1) bs
  end.

(** The struct at [a] gets these values; one of its fields is read. *)
Definition store_struct (fields : layout) (a : Z) (vals : list Z) : Run unit :=
  store_bytes a (struct_bytes fields vals).

Definition load_field (fields : layout) (a : Z) (f : string) : Run Z :=
  let! bs := load_bytes (a + offset_of fields f) (field fields f).2 in
  ret (le bs).

Definition load_signed (fields : layout) (a : Z) (f : string) : Run Z :=
  let! v := load_field fields a f in
  ret (signed (field fields f).2 v).

Definition outl (port v : Z) : Run unit := fun g =>
  let (d, x) := vmexit port v (ram g, host g) in
  Done (tt, mkGuest (bay g) d x).

Definition on_mmu {A} (o : M (Mmu F) A) : Run A := fun g =>
  let? (a, m) := on_machine_mmu o (cpu (bay g)) in
  Done (a, mkGuest (with_cpu m (bay g)) (ram g) (host g)).

Definition virt_to_phys (a : Z) : Run Z := on_mmu (virtual_to_physical root a).

(** [physical_address as u32] *)
Definition uhyve_send (port data : Z) : Run unit :=
  let! physical_address := virt_to_phys data in
  outl port (physical_address mod 2 ^ 32).

(** ** The interface; [frame] is where the function has its struct *)

Definition uhyve_open (frame name flags mode : Z) : Run Z :=
  let! name := virt_to_phys name in
  store_struct SysOpen frame [name; flags; mode; -1] ;;;
  uhyve_send UHYVE_PORT_OPEN frame ;;;
  load_signed SysOpen frame "ret".

Definition uhyve_unlink (frame name : Z) : Run Z :=
  let! name := virt_to_phys name in
  store_struct SysUnlink frame [name; -1] ;;;
  uhyve_send UHYVE_PORT_UNLINK frame ;;;
  load_signed SysUnlink frame "ret".

Definition uhyve_close (frame fd : Z) : Run Z :=
  store_struct SysClose frame [fd; -1] ;;;
  uhyve_send UHYVE_PORT_CLOSE frame ;;;
  load_signed SysClose frame "ret".

Definition uhyve_read (frame fd buf len : Z) : Run Z :=
  store_struct SysRead frame [fd; buf; len; -1] ;;;
  uhyve_send UHYVE_PORT_READ frame ;;;
  load_signed SysRead frame "ret".

(** [syswrite.len as isize] *)
Definition uhyve_write (frame fd buf len : Z) : Run Z :=
  store_struct SysWrite frame [fd; buf; len] ;;;
  uhyve_send UHYVE_PORT_WRITE frame ;;;
  load_signed SysWrite frame "len".

Definition uhyve_lseek (frame fd offset whence : Z) : Run Z :=
  store_struct SysLseek frame [fd; offset; whence] ;;;
  uhyve_send UHYVE_PORT_LSEEK frame ;;;
  load_signed SysLseek frame "offset".

(** Before the loop that halts the processor *)
Definition uhyve_shutdown (frame arg : Z) : Run unit :=
  store_struct SysExit frame [arg] ;;;
  uhyve_send UHYVE_PORT_EXIT frame.

End guest.

(** ** Requests *)

Lemma le_le_bytes_mod n x : le (le_bytes n x) = x mod 256 ^ Z.of_nat n.
Proof.
  revert x. induction n as [|n IH]; intros x; [by rewrite Z.mod_1_r|].
  cbn [le_bytes le]. rewrite IH, pow256_succ, Z.rem_mul_r by lia. done.
Qed.

(** What is written can be read back, at the width of the fields. *)
Lemma struct_fields_bytes fields vals :
  length fields = length vals ->
  struct_fields fields (struct_bytes fields vals) = zip_with (fun f v => v mod 256 ^ Z.of_nat (Z.to_nat f.2)) fields vals.
Proof.
  revert vals. induction fields as [|[f size] fields IH]; intros [|v vals] Hl; try done.
  cbn [struct_bytes struct_fields zip_with snd]. injection Hl as Hl.
  rewrite take_app_length', drop_app_length' by (by rewrite length_le_bytes). by rewrite le_le_bytes_mod, IH.
Qed.

Lemma length_struct_bytes fields vals :
  length fields = length vals -> Forall (fun f => 0 <= f.2) fields ->
  Z.of_nat (length (struct_bytes fields vals)) = size_of fields.
Proof.
  revert vals. induction fields as [|[f size] fields IH]; intros [|v vals] Hl Hf; try done.
  inversion_clear Hf as [|? ? Hs Hf']. cbn [snd] in Hs. injection Hl as Hl.
  cbn [struct_bytes size_of foldr snd]. rewrite length_app, length_le_bytes. unfold size_of in IH. specialize (IH vals Hl Hf'). lia.
Qed.

Lemma signed_mod n v :
  - 256 ^ Z.of_nat n <= 2 * v < 256 ^ Z.of_nat n -> signed n (v mod 256 ^ Z.of_nat n) = v.
Proof.
  intros Hv. assert (Hp : 0 < 256 ^ Z.of_nat n) by (apply Z.pow_pos_nonneg; lia). unfold signed.
  destruct (Z.le_gt_cases 0 v) as [H0|H0].
  - rewrite Z.mod_small by lia. destruct (Z.ltb_spec (2 * v) (256 ^ Z.of_nat n)); lia.
  - rewrite <- (Z.mod_add v 1) by lia. rewrite Z.mod_small by lia.
    destruct (Z.ltb_spec (2 * (v + 1 * 256 ^ Z.of_nat n)) (256 ^ Z.of_nat n)); lia.
Qed.

Section runs.

Context {F : Type} `{FrameSource F} {X : Type}.
Context (root : Z) (vmexit : Z -> Z -> gmap Z Z * X -> gmap Z Z * X).

Implicit Types (g : Guest F X).

(** The kernel may use the [n] bytes at [a], and they are at [p] in physical memory. *)
Definition mapped g (a : Z) (n : nat) (p : Z) : Prop :=
  forall i, 0 <= i < Z.of_nat n ->
    permitted root (cpu (bay g)) (a + i) true = true /\ translate (tables g) root (a + i) = Some (p + i).

(** [virtual_to_physical] finds the physical address [p] of [a]. *)
Record located g (a p : Z) : Prop := {
  lc_tables : window_ok (tables g) root;
  lc_lower : lower a;
  lc_leaf : exists l e, walk (tables g) root a = Some (l, e) /\ clean l e;
  lc_address : translate (tables g) root a = Some p
}.

Lemma mapped_sub g a n p off k :
  mapped g a n p -> 0 <= off -> off + Z.of_nat k <= Z.of_nat n -> mapped g (a + off) k (p + off).
Proof. intros Hm H0 H1 i Hi. rewrite <- !Z.add_assoc. apply Hm. lia. Qed.

Lemma physical_run g a n p i w : mapped g a n p -> 0 <= i < Z.of_nat n -> physical root g (a + i) w = Some (p + i).
Proof.
  intros Hm Hi. destruct (Hm i Hi) as [Hp Ht]. unfold physical. rewrite Ht.
  destruct w; [by rewrite Hp|]. by rewrite permitted_write_read.
Qed.

Lemma mapped_cons g a n p : mapped g a (S n) p -> mapped g (a + 1) n (p + 1).
Proof. intros Hm. apply (mapped_sub g a (S n) p 1 n Hm); lia. Qed.

Lemma guest_load_bytes_run g a n p : mapped g a n p -> load_bytes root a n g = Done (bytes_at (ram g) p n, g).
Proof.
  revert a p. induction n as [|n IH]; intros a p Hm; [done|]. cbn [load_bytes bytes_at].
  pose proof (physical_run g a (S n) p 0 false Hm ltac:(lia)) as E. rewrite !Z.add_0_r in E.
  unfold bind at 1, load8. rewrite E. cbn [obind fst snd].
  rewrite (bind_done _ _ _ _ _ (IH _ _ (mapped_cons _ _ _ _ Hm))). done.
Qed.

Lemma guest_store_bytes_run g a bs p :
  mapped g a (length bs) p -> store_bytes root a bs g = Done (tt, with_ram (write_at (ram g) p bs) g).
Proof.
  revert g a p. induction bs as [|v bs IH]; intros g a p Hm; [by destruct g|]. cbn [store_bytes write_at length] in *.
  pose proof (physical_run g a (S (length bs)) p 0 true Hm ltac:(lia)) as E. rewrite !Z.add_0_r in E.
  unfold bind, store8. rewrite E. cbn [obind fst snd].
  rewrite (IH (with_ram (<[p := v]> (ram g)) g) _ (p + 1)); [done|]. exact (mapped_cons _ _ _ _ Hm).
Qed.

Lemma virt_to_phys_run g a p {A} (k : Z -> M (Guest F X) A) :
  located g a p -> bind (virt_to_phys root a) k g = k p g.
Proof.
  intros [Hw Hl (l & e & Hk & Hc) Ht]. destruct (virtual_to_physical_correct root _ a l e Hw Hl Hk Hc) as (q & E & Eq).
  unfold tables in Ht. rewrite Ht in Eq. injection Eq as <-.
  unfold bind, virt_to_phys, on_mmu, on_machine_mmu. rewrite E. cbn [obind fst snd].
  destruct g as [[[] ? ? ? ?] ? ?]. cbn. unfold with_core, with_cpu, pkru_of. cbn. by destruct core.
Qed.

(** Both are about the tables only. *)
Lemma mapped_same g g' a n p : bay g' = bay g -> mapped g a n p -> mapped g' a n p.
Proof. intros E Hm i Hi. unfold tables. rewrite E. by apply Hm. Qed.

Lemma located_same g g' a p : bay g' = bay g -> located g a p -> located g' a p.
Proof. intros E [L1 L2 L3 L4]. constructor; unfold tables in *; by rewrite ?E. Qed.

Lemma store_struct_run g fields vals frame p :
  mapped g frame (length (struct_bytes fields vals)) p ->
  store_struct root fields frame vals g = Done (tt, with_ram (write_at (ram g) p (struct_bytes fields vals)) g).
Proof. apply guest_store_bytes_run. Qed.

Lemma uhyve_send_run g port frame p :
  located g frame p ->
  uhyve_send root vmexit port frame g =
    let R := vmexit port (p mod 2 ^ 32) (ram g, host g) in Done (tt, mkGuest (bay g) R.1 R.2).
Proof.
  intros Hl. unfold uhyve_send. rewrite (virt_to_phys_run g frame p) by done. unfold outl. by destruct (vmexit _ _ _).
Qed.

Lemma guest_load_field_run g fields frame p n f :
  mapped g frame n p -> 0 <= offset_of fields f -> offset_of fields f + Z.of_nat (field fields f).2 <= Z.of_nat n ->
  load_field root fields frame f g = Done (le (bytes_at (ram g) (p + offset_of fields f) (field fields f).2), g).
Proof.
  intros Hm H0 H1. unfold load_field.
  by rewrite (bind_done _ _ _ _ _ (guest_load_bytes_run g (frame + offset_of fields f) _ (p + offset_of fields f) (mapped_sub _ frame n p _ _ Hm H0 H1))).
Qed.

(** What a request does: the hypervisor acts on memory that has the struct, and the
    answer is in the memory it leaves. *)
Lemma request_run g port fields vals frame p f :
  mapped g frame (length (struct_bytes fields vals)) p -> located g frame p ->
  0 <= offset_of fields f -> offset_of fields f + Z.of_nat (field fields f).2 <= Z.of_nat (length (struct_bytes fields vals)) ->
  (store_struct root fields frame vals ;;;
   uhyve_send root vmexit port frame ;;;
   load_signed root fields frame f) g =
    let R := vmexit port (p mod 2 ^ 32) (write_at (ram g) p (struct_bytes fields vals), host g) in
    Done (signed (field fields f).2 (le (bytes_at R.1 (p + offset_of fields f) (field fields f).2)), mkGuest (bay g) R.1 R.2).
Proof.
  intros Hm Hl H0 H1. rewrite (bind_done _ _ _ _ _ (store_struct_run g _ _ frame p Hm)).
  set (g1 := with_ram _ g). assert (Hl1 : located g1 frame p) by (by apply (located_same g)).
  rewrite (bind_done _ _ _ _ _ (uhyve_send_run g1 port frame p Hl1)). unfold load_signed.
  erewrite bind_done; [reflexivity|]. eapply guest_load_field_run; [by apply (mapped_same g)|done|done].
Qed.

End runs.

(** ** The requests of the interface *)

Inductive request :=
  | Open (name flags mode : Z)
  | Unlink (name : Z)
  | Close (fd : Z)
  | Read (fd buf len : Z)
  | Write (fd buf len : Z)
  | Lseek (fd offset whence : Z).

(** Its port, its struct, and the field that has the answer *)
Definition port_of (r : request) : Z :=
  match r with
  | Open _ _ _ => UHYVE_PORT_OPEN | Unlink _ => UHYVE_PORT_UNLINK | Close _ => UHYVE_PORT_CLOSE
  | Read _ _ _ => UHYVE_PORT_READ | Write _ _ _ => UHYVE_PORT_WRITE | Lseek _ _ _ => UHYVE_PORT_LSEEK
  end.

Definition struct_of (r : request) : layout :=
  match r with
  | Open _ _ _ => SysOpen | Unlink _ => SysUnlink | Close _ => SysClose
  | Read _ _ _ => SysRead | Write _ _ _ => SysWrite | Lseek _ _ _ => SysLseek
  end.

Definition answer_of (r : request) : string :=
  match r with Write _ _ _ => "len" | Lseek _ _ _ => "offset" | _ => "ret" end.

(** The path of a request, and its fields with [name] for the path *)
Definition name_of (r : request) : option Z :=
  match r with Open name _ _ | Unlink name => Some name | _ => None end.

Definition fields_of (name : Z) (r : request) : list Z :=
  match r with
  | Open _ flags mode => [name; flags; mode; -1]
  | Unlink _ => [name; -1]
  | Close fd => [fd; -1]
  | Read fd buf len => [fd; buf; len; -1]
  | Write fd buf len => [fd; buf; len]
  | Lseek fd offset whence => [fd; offset; whence]
  end.

(** The fields at their widths *)
Definition wire (r : request) (vals : list Z) : list Z :=
  zip_with (fun f v => v mod 256 ^ Z.of_nat (Z.to_nat f.2)) (struct_of r) vals.

Definition answer_width (r : request) : nat := (field (struct_of r) (answer_of r)).2.

Lemma request_shape name r :
  length (struct_of r) = length (fields_of name r) /\ Forall (fun f => 0 <= f.2) (struct_of r) /\
  0 <= offset_of (struct_of r) (answer_of r) /\
  offset_of (struct_of r) (answer_of r) + Z.of_nat (answer_width r) <= size_of (struct_of r).
Proof. destruct r; (split_and!; [done|repeat constructor; cbn; lia|done|done]). Qed.

Section requests.

Context {F : Type} `{FrameSource F} {X : Type}.
Context (root : Z) (vmexit : Z -> Z -> gmap Z Z * X -> gmap Z Z * X) (frame : Z).

Implicit Types (g : Guest F X).

Definition run_request (r : request) : M (Guest F X) Z :=
  match r with
  | Open name flags mode => uhyve_open root vmexit frame name flags mode
  | Unlink name => uhyve_unlink root vmexit frame name
  | Close fd => uhyve_close root vmexit frame fd
  | Read fd buf len => uhyve_read root vmexit frame fd buf len
  | Write fd buf len => uhyve_write root vmexit frame fd buf len
  | Lseek fd offset whence => uhyve_lseek root vmexit frame fd offset whence
  end.

(** What the kernel needs for a request: a mapped frame, at [p], and a path that is mapped, at [name] *)
Definition request_ready g (r : request) (p name : Z) : Prop :=
  mapped root g frame (Z.to_nat (size_of (struct_of r))) p /\ located root g frame p /\
  match name_of r with Some a => located root g a name | None => True end.

(** The memory and the hypervisor after a request *)
Definition exit_of g (r : request) (p name : Z) : gmap Z Z * X :=
  vmexit (port_of r) (p mod 2 ^ 32) (write_at (ram g) p (struct_bytes (struct_of r) (fields_of name r)), host g).

Lemma run_request_run g r p name :
  request_ready g r p name ->
  run_request r g =
    let R := exit_of g r p name in
    Done (signed (answer_width r) (le (bytes_at R.1 (p + offset_of (struct_of r) (answer_of r)) (answer_width r))),
          mkGuest (bay g) R.1 R.2).
Proof.
  intros (Hm & Hl & Hn). destruct (request_shape name r) as (S1 & S2 & S3 & S4).
  pose proof (length_struct_bytes _ _ S1 S2) as Hs.
  assert (Hm' : mapped root g frame (length (struct_bytes (struct_of r) (fields_of name r))) p).
  { by replace (length (struct_bytes (struct_of r) (fields_of name r))) with (Z.to_nat (size_of (struct_of r))) by lia. }
  rewrite <- Hs in S4. pose proof (request_run root vmexit g (port_of r) _ _ frame p (answer_of r) Hm' Hl S3 S4) as E.
  destruct r; cbn [run_request]; cbn [name_of] in Hn; try exact E;
    unfold uhyve_open, uhyve_unlink; rewrite (virt_to_phys_run root g _ name) by exact Hn; exact E.
Qed.

(** The hypervisor serves the requests of the kind of [r]: it reads the struct at the address
    it gets, does what [serve] says, and leaves the answer in the struct. *)
Definition serves (serve : list Z -> X -> Z * X) (r : request) : Prop := forall p d x,
  let R := vmexit (port_of r) p (d, x) in
  let A := serve (struct_fields (struct_of r) (bytes_at d p (Z.to_nat (size_of (struct_of r))))) x in
  R.2 = A.2 /\ le (bytes_at R.1 (p + offset_of (struct_of r) (answer_of r)) (answer_width r)) = A.1 mod 256 ^ Z.of_nat (answer_width r).

(** C38. A request of the interface of uhyve, whose struct is below 4 GiB of physical memory,
    reaches the hypervisor with the arguments of the call, each at its width, a path as its
    physical address; it returns the answer as a signed number, and the hypervisor is as it
    is after it served the request. *)
Theorem uhyve_request_correct g r p name serve :
  request_ready g r p name -> 0 <= p < 2 ^ 32 -> serves serve r ->
  let A := serve (wire r (fields_of name r)) (host g) in
  - 256 ^ Z.of_nat (answer_width r) <= 2 * A.1 < 256 ^ Z.of_nat (answer_width r) ->
  exists d, run_request r g = Done (A.1, mkGuest (bay g) d A.2).
Proof.
  intros Hr Hp Hs A HA. destruct (request_shape name r) as (S1 & S2 & _).
  rewrite (run_request_run g r p name Hr). unfold exit_of. rewrite (Z.mod_small p) by done.
  specialize (Hs p (write_at (ram g) p (struct_bytes (struct_of r) (fields_of name r))) (host g)).
  pose proof (length_struct_bytes _ _ S1 S2) as Hl.
  replace (Z.to_nat (size_of (struct_of r))) with (length (struct_bytes (struct_of r) (fields_of name r))) in Hs by lia.
  rewrite bytes_at_write_at, (struct_fields_bytes _ _ S1) in Hs. destruct Hs as [E1 E2].
  cbv zeta. eexists. rewrite E2, signed_mod by exact HA. rewrite E1. done.
Qed.

(** A struct above 4 GiB is not found: the address is cut to 32 bits. If the hypervisor changes
    nothing but the memory the address names, the call returns what the kernel put into the
    struct, which is not an answer, and the memory at the other address is overwritten. *)
Theorem uhyve_request_lost g r p name :
  request_ready g r p name -> 2 ^ 32 <= p -> let n := size_of (struct_of r) in
  (forall port q d x a, ~ q <= a < q + n -> (vmexit port q (d, x)).1 !! a = d !! a) ->
  p mod 2 ^ 32 + n <= p ->
  exists d x, run_request r g =
    Done (match r with Write _ _ len => signed 8 (len mod W64) | Lseek _ offset _ => signed 8 (offset mod W64) | _ => -1 end,
          mkGuest (bay g) d x).
Proof.
  intros Hr Hp n Hv Hd. destruct (request_shape name r) as (S1 & S2 & S3 & S4).
  pose proof (length_struct_bytes _ _ S1 S2) as Hl. rewrite (run_request_run g r p name Hr). cbv zeta.
  do 2 eexists. f_equal. f_equal. unfold exit_of.
  rewrite (bytes_at_ext (write_at (ram g) p (struct_bytes (struct_of r) (fields_of name r)))).
  2: { intros a Ha. apply Hv. subst n. lia. }
  replace (offset_of (struct_of r) (answer_of r)) with (Z.of_nat (Z.to_nat (offset_of (struct_of r) (answer_of r)))) by lia.
  rewrite (bytes_at_sub _ p _ _ (length (struct_bytes (struct_of r) (fields_of name r)))) by lia.
  rewrite bytes_at_write_at. destruct r; try reflexivity; change W64 with (256 ^ Z.of_nat 8); rewrite <- (le_le_bytes_mod 8); reflexivity.
Qed.

End requests.

(** ** Examples *)

Section sample.

(** A hypervisor that answers the requests of one kind *)
Definition obliging {X} (serve : list Z -> X -> Z * X) (r : request) (port q : Z) (s : gmap Z Z * X) : gmap Z Z * X :=
  let A := serve (struct_fields (struct_of r) (bytes_at s.1 q (Z.to_nat (size_of (struct_of r))))) s.2 in
  (write_at s.1 (q + offset_of (struct_of r) (answer_of r)) (le_bytes (answer_width r) A.1), A.2).

Lemma obliging_serves {X} (serve : list Z -> X -> Z * X) r : serves (obliging serve r) serve r.
Proof.
  intros p d x. cbv zeta. split; [done|]. unfold obliging. cbn [fst snd].
  rewrite <- (le_le_bytes_mod (answer_width r)). f_equal.
  set (bs := le_bytes _ _). rewrite <- (length_le_bytes (answer_width r) (serve (struct_fields (struct_of r)
    (bytes_at d p (Z.to_nat (size_of (struct_of r))))) x).1) at 1. apply bytes_at_write_at.
Qed.

Definition bay_with (s : Mmu Z) : Bay Z :=
  mkBay (mkMachine sample_regs 0x202 0 0 0 ∅ (mkCore 0 s) sample_task) ∅ [] 0 0x10001000.
Definition guest_with {X} (x : X) (s : Mmu Z) : Guest Z X := mkGuest (bay_with s) ∅ x.

Definition sample_guest : Guest Z (list Z) := guest_with [] sample2.

(** The files by the addresses of their paths; a new one gets the next number *)
Definition sample_serve (args : list Z) (files : list Z) : Z * list Z :=
  (3 + Z.of_nat (length files), files ++ take 1 args).

Lemma located_with {X} (x : X) s a l e p :
  window_ok (mem s) sample_root -> lower a -> walk (mem s) sample_root a = Some (l, e) -> clean l e ->
  translate (mem s) sample_root a = Some p -> located sample_root (guest_with x s) a p.
Proof. intros Hs Hl Hw Hc Ht. constructor; [exact Hs|exact Hl|by exists l, e|exact Ht]. Qed.

Definition mapped_test (s : Mmu Z) (a p : Z) (n : nat) : bool :=
  forallb (fun i => permitted sample_root (cpu (bay_with s)) (a + i) true &&
                    bool_decide (translate (mem s) sample_root (a + i) = Some (p + i))) (seqZ 0 (Z.of_nat n)).

Lemma mapped_with {X} (x : X) s a p n : mapped_test s a p n = true -> mapped sample_root (guest_with x s) a n p.
Proof.
  unfold mapped_test. rewrite forallb_forall. intros Ht i Hi. specialize (Ht i).
  rewrite <- list_elem_of_In, elem_of_seqZ in Ht. specialize (Ht ltac:(lia)).
  apply andb_prop in Ht as [H1 H2]. apply bool_decide_eq_true in H2. split; [exact H1|exact H2].
Qed.

(** A struct and a path in the address space of the examples *)
Lemma sample_frame {X} (x : X) : mapped sample_root (guest_with x sample2) 0x40012345 20 0x40012345 /\
  located sample_root (guest_with x sample2) 0x40012345 0x40012345.
Proof.
  split; [apply mapped_with; vm_compute; reflexivity|].
  eapply (located_with x sample2 _ 1%nat 0x8000000400000e7); [exact sample2_window|unfold lower; lia|vm_compute; reflexivity| |vm_compute; reflexivity].
  apply clean_test; [lia|by vm_compute|by vm_compute|by vm_compute].
Qed.

Lemma sample_path {X} (x : X) : located sample_root (guest_with x sample2) 0x10001234 0x801234.
Proof.
  eapply (located_with x sample2 _ 0%nat 0x1000000000801067); [exact sample2_window|unfold lower; lia|vm_compute; reflexivity| |vm_compute; reflexivity].
  apply clean_test; [lia|by vm_compute|by vm_compute|by vm_compute].
Qed.

Lemma sample_ready_open :
  request_ready sample_root 0x40012345 sample_guest (Open 0x10001234 0 0) 0x40012345 0x801234.
Proof. destruct (sample_frame (@nil Z)) as [Hm Hl]. split_and!; [exact Hm|exact Hl|exact (sample_path (@nil Z))]. Qed.

Lemma uhyve_request_correct_witness :
  exists d, uhyve_open sample_root (obliging sample_serve (Open 0x10001234 0 0)) 0x40012345 0x10001234 0 0 sample_guest =
    Done (3, mkGuest (bay sample_guest) d [0x801234]).
Proof.
  apply (uhyve_request_correct sample_root (obliging sample_serve (Open 0x10001234 0 0)) 0x40012345 sample_guest
    (Open 0x10001234 0 0) 0x40012345 0x801234 sample_serve sample_ready_open ltac:(lia) (obliging_serves _ _)).
  split; [by vm_compute|vm_compute; reflexivity].
Defined.

End sample.
