(* ===== verification/Interfaces.v ===== *)
(** * System calls on files: src/syscalls/mod.rs, src/syscalls/interfaces/mod.rs and generic.rs

    The calls go, through the gate of Gate.v, to one of two implementations of the trait
    [SyscallInterface]: [Generic], whose functions are the trait's own, and [Uhyve], which
    asks the hypervisor (Hypercall.v). The object behind [SYS] is an instance of the class. *)

From Stdlib Require Import ZArith Lia String.
From stdpp Require Import base numbers list gmap.
From S2P Require Import Prelude Pte Mmu Paging Mm Mpk Cpu Isolation Gate Bytes CopySafe Storage BootInfo Calls Serial Hypercall.

#[local] Open Scope Z_scope.

(** What every implementation has; the state is its own. *)
Class SyscallInterface (St : Type) := {
  unlink : Z -> M St Z;
  open : Z -> Z -> Z -> M St Z;
  close : Z -> M St Z;
  read : Z -> Z -> Z -> M St Z;
  write : Z -> Z -> Z -> M St Z;
  lseek : Z -> Z -> Z -> M St Z;
  stat : Z -> Z -> M St Z
}.

Inductive Interface := Generic | Uhyve.

(** The interface [init] chooses *)
Definition init_interface (is_proxy is_uhyve : bool) : outcome Interface :=
  if is_proxy then Panic else if is_uhyve then Done Uhyve else Done Generic.

(** ** Characters

    [str::from_utf8_unchecked(slice).chars()] of Rust's core library: the length of a
    character is in its first byte, and missing bytes count as zero. *)

Definition acc_cont_byte (ch byte : Z) : Z := Z.lor (Z.shiftl ch 6) (Z.land byte 0x3F).

Definition pop (bs : list Z) : Z * list Z := match bs with [] => (0, []) | b :: bs => (b, bs) end.

(** The first character and the bytes after it *)
Definition next_code_point (x : Z) (bs : list Z) : Z * list Z :=
  if x <? 128 then (x, bs)
  else
    let init := Z.land x 0x1F in
    let (y, bs) := pop bs in
    if x <? 0xE0 then (acc_cont_byte init y, bs)
    else
      let (z, bs) := pop bs in
      let y_z := acc_cont_byte (Z.land y 0x3F) z in
      if x <? 0xF0 then (Z.lor (Z.shiftl init 12) y_z, bs)
      else
        let (w, bs) := pop bs in
        (Z.lor (Z.shiftl (Z.land init 7) 18) (acc_cont_byte y_z w), bs).

Fixpoint chars_fuel (n : nat) (bs : list Z) : list Z :=
  match n, bs with
  | S n, x :: bs => let (c, bs) := next_code_point x bs in c :: chars_fuel n bs
  | _, _ => []
  end.

Definition chars (bs : list Z) : list Z := chars_fuel (length bs) bs.

(** ** The core of a system call *)

#[export, refine] Instance SerialCore {F} : OnCore F (Serial F) := {
  the_core s := cpu (Serial.bay s);
  set_core m s := Serial.with_bay (with_cpu m (Serial.bay s)) s
}.
Proof. all: by destruct s. Defined.

#[export, refine] Instance GuestCore {F X} : OnCore F (Guest F X) := {
  the_core s := cpu (Hypercall.bay s);
  set_core m s := mkGuest (with_cpu m (Hypercall.bay s)) (ram s) (host s)
}.
Proof. all: by destruct s. Defined.

(** ** The functions of the trait *)

Section generic.

Context {F : Type} `{FrameSource F}.
Context (root : Z) (supports_1gib_pages : bool) (BOOT_INFO : Z) (hardware : list access -> Z -> Z) (fuel : nat).
Context (kmsg_write_byte : Z -> M (Serial F) unit).

Abbreviation Run := (M (Serial F)).

(** [isolate_function_weak!(from_raw_parts(buf, len))]: no memory is accessed *)
Definition isolated_from_raw_parts : Run unit :=
  on_bay (on_cpu (isolate_function_weak root supports_1gib_pages (ret tt))).

(** The text of a slice on the console *)
Definition print_slice (buf len : Z) : Run unit :=
  let! slice := on_bay (CopySafe.load_bytes root buf (Z.to_nat len)) in
  write_str root BOOT_INFO hardware fuel kmsg_write_byte (chars slice).

Definition __write (fd buf len : Z) : Run Z :=
  if 2 <? fd then ret (- EINVAL)
  else
    massert (len <=? 2 ^ 63 - 1) ;;;
    isolated_from_raw_parts ;;;
    print_slice buf len ;;;
    ret len.

(** A gate of its own, although [sys_write] has one *)
Definition generic_write (fd buf len : Z) : Run Z := kernel_function (__write fd buf len).

Definition generic_close (fd : Z) : Run Z := if fd <? 3 then ret 0 else ret (- EINVAL).

Definition unimplemented : Run Z := ret (- ENOSYS).

#[export] Instance GenericInterface : SyscallInterface (Serial F) := {
  unlink _ := unimplemented;
  open _ _ _ := unimplemented;
  close := generic_close;
  read _ _ _ := unimplemented;
  write := generic_write;
  lseek _ _ _ := unimplemented;
  stat _ _ := unimplemented
}.

End generic.

(** [Uhyve] has no [stat] of its own. *)
Section uhyve.

Context {F : Type} `{FrameSource F} {X : Type}.
Context (root : Z) (vmexit : Z -> Z -> gmap Z Z * X -> gmap Z Z * X) (frame : Z).

#[export] Instance UhyveInterface : SyscallInterface (Guest F X) := {
  unlink := uhyve_unlink root vmexit frame;
  open := uhyve_open root vmexit frame;
  close := uhyve_close root vmexit frame;
  read := uhyve_read root vmexit frame;
  write := uhyve_write root vmexit frame;
  lseek := uhyve_lseek root vmexit frame;
  stat _ _ := ret (- ENOSYS)
}.

End uhyve.

(** ** The system calls *)

Section calls.

Context {F St : Type} `{FrameSource F, OnCore F St, SYS : SyscallInterface St}.

Definition sys_unlink (name : Z) : M St Z := kernel_function (unlink name).
Definition sys_open (name flags mode : Z) : M St Z := kernel_function (open name flags mode).
Definition sys_close (fd : Z) : M St Z := kernel_function (close fd).
Definition sys_read (fd buf len : Z) : M St Z := kernel_function (read fd buf len).
Definition sys_write (fd buf len : Z) : M St Z := kernel_function (write fd buf len).
Definition sys_lseek (fd offset whence : Z) : M St Z := kernel_function (lseek fd offset whence).
Definition sys_stan (file st : Z) : M St Z := kernel_function (stat file st).

End calls.

(** ** Correctness *)

Definition ascii (b : Z) : Prop := 0 <= b < 128.

Lemma chars_fuel_ascii n bs : Forall ascii bs -> (length bs <= n)%nat -> chars_fuel n bs = bs.
Proof.
  intros Hb. revert n. induction Hb as [|b bs Hb _ IH]; intros n Hn; [by destruct n|]. destruct n as [|n]; [simpl in Hn; lia|].
  cbn [chars_fuel]. unfold next_code_point. destruct (Z.ltb_spec b 128) as [_|]; [|destruct Hb; lia].
  rewrite IH; [done|]. simpl in Hn. lia.
Qed.

Lemma ascii_bytes bs : Forall ascii bs -> (fun c => c mod 256) <$> chars bs = bs.
Proof.
  intros Hb. unfold chars. rewrite chars_fuel_ascii by done. induction Hb as [|b bs [H1 H2] _ IH]; [done|].
  rewrite fmap_cons, IH, Z.mod_small by lia. done.
Qed.


(** The characters U+0080 to U+00FF have two bytes and a number of one byte. *)
Definition latin1_test : bool :=
  forallb (fun a => forallb (fun b => acc_cont_byte (Z.land a 0x1F) b =? 64 * (a - 0xC2) + b) (seqZ 0x80 64)) [0xC2; 0xC3].

Lemma latin1_next a b rest :
  0xC2 <= a <= 0xC3 -> 0x80 <= b < 0xC0 -> next_code_point a (b :: rest) = (64 * (a - 0xC2) + b, rest).
Proof.
  intros Ha Hb. assert (Ht : latin1_test = true) by (vm_compute; reflexivity).
  unfold latin1_test in Ht. rewrite forallb_forall in Ht. specialize (Ht a). rewrite forallb_forall in Ht.
  assert (Hin : In a [0xC2; 0xC3]) by (assert (a = 0xC2 \/ a = 0xC3) as [-> | ->] by lia; simpl; tauto).
  specialize (Ht Hin b). rewrite <- list_elem_of_In, elem_of_seqZ, Z.eqb_eq in Ht. specialize (Ht ltac:(lia)).
  unfold next_code_point. destruct (Z.ltb_spec a 128); [lia|]. cbn [pop]. destruct (Z.ltb_spec a 0xE0); [|lia]. by rewrite Ht.
Qed.

Section correct.

Context {F : Type} `{FrameSource F}.
Context (root : Z) (supports_1gib_pages : bool) (BOOT_INFO base : Z) (latency : nat -> nat) (u0 : Uart) (fuel : nat).
Context (kmsg_write_byte : Z -> M (Serial F) unit).

Abbreviation hw := (uart_hardware base latency u0).

#[local] Existing Instance GenericInterface.

Implicit Types (s : Serial F).

(** The bytes of a buffer *)
Definition buffer s (buf len : Z) : list Z := bytes_at (bytes (Serial.bay s)) buf (Z.to_nat len).

Lemma print_slice_correct s buf len :
  ready root BOOT_INFO base s -> port_ok base -> device_ready BOOT_INFO base latency u0 fuel s -> info BOOT_INFO s "single_kernel" <> 0 ->
  CopySafe.open root (cpu (Serial.bay s)) buf (Z.to_nat len) false ->
  exists s', print_slice root BOOT_INFO hw fuel kmsg_write_byte buf len s = Done (tt, s') /\ kept s s' /\
    sent (now base latency u0 s') = sent (now base latency u0 s) ++ crlf ((fun c => c mod 256) <$> chars (buffer s buf len)).
Proof.
  intros R P D Hs Ho. unfold print_slice.
  rewrite (on_bay_run _ _ _ _ _ (CopySafe.load_bytes_run root (Serial.bay s) buf _ Ho)).
  replace (with_bay (Serial.bay s) s) with s by (by destruct s).
  destruct (write_str_sends root BOOT_INFO base latency u0 fuel kmsg_write_byte s (chars (buffer s buf len)) R P D Hs)
    as (s' & E & K & _ & N). by exists s'.
Qed.

(** [__write] to the standard descriptors, for the kernel that has no hypervisor to ask:
    what the serial device sends are the characters of the text, each cut to a byte, and the
    call returns the length of the text. [s1] is the state after the isolated call, which
    accesses no memory. *)
Theorem kernel_write_correct s s1 fd buf len :
  fd <= 2 -> 0 <= len < 2 ^ 63 -> isolated_from_raw_parts root supports_1gib_pages s = Done (tt, s1) ->
  ready root BOOT_INFO base s1 -> port_ok base -> device_ready BOOT_INFO base latency u0 fuel s1 ->
  info BOOT_INFO s1 "single_kernel" <> 0 -> CopySafe.open root (cpu (Serial.bay s1)) buf (Z.to_nat len) false ->
  exists s', __write root supports_1gib_pages BOOT_INFO hw fuel kmsg_write_byte fd buf len s = Done (len, s') /\ kept s1 s' /\
    sent (now base latency u0 s') = sent (now base latency u0 s1) ++ crlf ((fun c => c mod 256) <$> chars (buffer s1 buf len)).
Proof.
  intros Hf Hl E R P D Hs Ho. destruct (print_slice_correct s1 buf len R P D Hs Ho) as (s' & E' & K & N).
  exists s'. split_and!; [|done|done]. unfold __write. destruct (Z.ltb_spec 2 fd); [lia|].
  rewrite bind_massert by (apply Z.leb_le; lia). rewrite (bind_done _ _ _ _ _ E), (bind_done _ _ _ _ _ E'). done.
Qed.

(** An ASCII text is sent as it is, but for the line feeds. *)
Corollary kernel_write_ascii s s1 fd buf len :
  fd <= 2 -> 0 <= len < 2 ^ 63 -> isolated_from_raw_parts root supports_1gib_pages s = Done (tt, s1) ->
  ready root BOOT_INFO base s1 -> port_ok base -> device_ready BOOT_INFO base latency u0 fuel s1 ->
  info BOOT_INFO s1 "single_kernel" <> 0 -> CopySafe.open root (cpu (Serial.bay s1)) buf (Z.to_nat len) false ->
  Forall ascii (buffer s1 buf len) ->
  exists s', __write root supports_1gib_pages BOOT_INFO hw fuel kmsg_write_byte fd buf len s = Done (len, s') /\
    sent (now base latency u0 s') = sent (now base latency u0 s1) ++ crlf (buffer s1 buf len).
Proof.
  intros Hf Hl E R P D Hs Ho Ha. destruct (kernel_write_correct s s1 fd buf len Hf Hl E R P D Hs Ho) as (s' & E' & _ & N).
  exists s'. split; [done|]. by rewrite N, ascii_bytes.
Qed.

(** Other text is not: of a character of two bytes one is sent, the number of the
    character, while the call returns 2. *)
Corollary kernel_write_latin1 s s1 fd buf a b :
  fd <= 2 -> isolated_from_raw_parts root supports_1gib_pages s = Done (tt, s1) ->
  ready root BOOT_INFO base s1 -> port_ok base -> device_ready BOOT_INFO base latency u0 fuel s1 ->
  info BOOT_INFO s1 "single_kernel" <> 0 -> CopySafe.open root (cpu (Serial.bay s1)) buf 2 false ->
  buffer s1 buf 2 = [a; b] -> 0xC2 <= a <= 0xC3 -> 0x80 <= b < 0xC0 ->
  exists s', __write root supports_1gib_pages BOOT_INFO hw fuel kmsg_write_byte fd buf 2 s = Done (2, s') /\
    sent (now base latency u0 s') = sent (now base latency u0 s1) ++ [64 * (a - 0xC2) + b].
Proof.
  intros Hf E R P D Hs Ho Hb Ha Hb2. destruct (kernel_write_correct s s1 fd buf 2 Hf ltac:(lia) E R P D Hs Ho) as (s' & E' & _ & N).
  exists s'. split; [done|]. rewrite N, Hb. unfold chars. cbn [length chars_fuel]. rewrite latin1_next by done.
  cbn [fmap list_fmap crlf mbind list_bind app]. rewrite Z.mod_small by lia.
  destruct (Z.eqb_spec (64 * (a - 0xC2) + b) LF) as [El|]; [unfold LF in El; lia|done].
Qed.

End correct.

(** A system call whose function returns [v] and changes nothing: the call does, but for
    the registers of the core. *)
Lemma gated_return {F St} `{FrameSource F, OnCore F St} (f : M St Z) v (s : St) :
  (forall s, f s = Done (v, s)) ->
  exists m, kernel_function f s = Done (v, set_core m s) /\ gated (the_core s) m (regs (the_core s) RSP) 0xFC.
Proof.
  intros Hf. destruct (kernel_function_run f s) as (m1 & G1 & Hk). rewrite Hf in Hk. destruct Hk as (m2 & E & G2).
  rewrite the_core_set in G2. exists m2. rewrite set_core_twice in E. split; [done|by eapply gated_trans].
Qed.

(** Other descriptors are refused, and what is not implemented says so; nothing is changed but
    what the gates change. *)
Lemma generic_errors {F} `{FrameSource F} root g BOOT_INFO hardware fuel kmsg (s : Serial F) :
  let SYS := GenericInterface root g BOOT_INFO hardware fuel kmsg in
  let returns call v := exists m, call s = Done (v, set_core m s) /\ gated (the_core s) m (regs (the_core s) RSP) 0xFC in
  (forall fd buf len, 2 < fd -> returns (sys_write (SYS := SYS) fd buf len) (- EINVAL)) /\
  (forall fd, returns (sys_close (SYS := SYS) fd) (if fd <? 3 then 0 else - EINVAL)) /\
  (forall fd buf len, returns (sys_read (SYS := SYS) fd buf len) (- ENOSYS)) /\
  (forall name flags mode, returns (sys_open (SYS := SYS) name flags mode) (- ENOSYS)).
Proof.
  cbv zeta. split_and!; try (intros; by apply gated_return).
  - intros fd buf len Hf. unfold sys_write. cbn [write GenericInterface]. unfold generic_write.
    assert (Hw : forall s, __write root g BOOT_INFO hardware fuel kmsg fd buf len s = Done (- EINVAL, s))
      by (intros s'; unfold __write; by destruct (Z.ltb_spec 2 fd); [|lia]).
    destruct (kernel_function_run (kernel_function (__write root g BOOT_INFO hardware fuel kmsg fd buf len)) s) as (m1 & G1 & Hk).
    destruct (gated_return _ _ (set_core m1 s) Hw) as (m2 & E2 & G2). rewrite E2 in Hk. destruct Hk as (m3 & E3 & G3).
    rewrite the_core_set in G2, G3. rewrite !set_core_twice in E3. exists m3. split; [exact E3|].
    eapply gated_trans; [exact G1|]. by eapply gated_trans.
  - intros fd. apply gated_return. intros s'. cbn. unfold generic_close. by destruct (fd <? 3).
Qed.

(** The trait's [write] has a gate although it is called behind the gate of [sys_write]: when
    it returns into the kernel, the stack pointer is that of the kernel and the rights are
    those of an application. *)
Lemma write_locks_kernel {F} `{FrameSource F} root g BOOT_INFO hardware fuel kmsg fd buf len (s : Serial F) r s' :
  generic_write root g BOOT_INFO hardware fuel kmsg fd buf len s = Done (r, s') ->
  regs (cpu (Serial.bay s')) RSP = regs (cpu (Serial.bay s)) RSP /\
  forall a k w, page_key root (cpu (Serial.bay s')) a = Some k -> 1 <= k <= 3 -> permitted root (cpu (Serial.bay s')) a w = false.
Proof. exact (nested_gate_locks root (__write root g BOOT_INFO hardware fuel kmsg fd buf len) s r s'). Qed.
