(* ===== verification/Percore.v ===== *)
(** * Per-core variables: src/arch/x86_64/kernel/percore.rs

    A core's variables lie in safe memory at the address in its GS register. Isolated
    code reads and writes the copy in the unsafe storage, which the exchange of GS with
    IA32_KERNEL_GSBASE brings under GS. *)

From Stdlib Require Import ZArith Lia String.
From stdpp Require Import base numbers list gmap.
From S2P Require Import Prelude Pte Mmu Paging Mm Mpk Cpu Isolation Bytes CopySafe Storage BootInfo.

#[local] Open Scope Z_scope.

(** The struct, its fields in the order of declaration; all are of 64 bits. *)
Definition PerCoreVariables : layout := [("core_id", 8); ("scheduler", 8); ("tss", 8)]%string.

Definition size_of_PerCoreVariables : Z := size_of PerCoreVariables.

(** A core with its memory, and its GS register. *)
Record PerCore (F : Type) := mkPerCore { bay : Bay F; gsbase : Z }.
Arguments mkPerCore {F} _ _.
Arguments bay {F} _.
Arguments gsbase {F} _.

Section percore.

Context {F : Type} `{FrameSource F}.

(** [PERCORE] is the address of the variable, [BOOT_INFO] the pointer in the other. *)
Context (root PERCORE BOOT_INFO : Z).

Abbreviation Run := (M (PerCore F)).

Definition with_bay (b : Bay F) (s : PerCore F) : PerCore F := mkPerCore b (gsbase s).
Definition with_gs (a : Z) (s : PerCore F) : PerCore F := mkPerCore (bay s) a.

Definition on_bay {A} (o : M (Bay F) A) : Run A := fun s =>
  let? (a, b) := o (bay s) in Done (a, with_bay b s).

(** ** Instructions *)

Definition swapgs : Run unit :=
  modify (fun s => mkPerCore (with_gsbase (gsbase s) (bay s)) (kernel_gsbase (bay s))).

Definition start_isolation : Run unit := on_bay (on_cpu isolation_start).
Definition end_isolation : Run unit := on_bay (on_cpu isolation_end).

(** [movq %gs:(offset), r] and [movq r, %gs:(offset)] *)
Definition gs_load (offset : Z) : Run Z :=
  let! gs := gets gsbase in
  on_bay (let! bs := load_bytes root (gs + offset) 8 in ret (le bs)).

Definition gs_store (offset v : Z) : Run unit :=
  let! gs := gets gsbase in
  on_bay (store_bytes root (gs + offset) (le_bytes 8 v)).

(** [readgs] of processor.rs *)
Definition readgs : Run Z :=
  start_isolation ;;;
  let! val := gets gsbase in
  end_isolation ;;;
  ret val.

(** ** The methods of a variable, which is the field [f] of [PERCORE] *)

Definition offset (f : string) : outcome Z :=
  let base := PERCORE in
  let field := PERCORE + offset_of PerCoreVariables f in
  sub64 field base.

Definition get (f : string) : Run Z :=
  let! o := lift (offset f) in
  gs_load o.

Definition set (f : string) (value : Z) : Run unit :=
  let! o := lift (offset f) in
  gs_store o value.

Definition safe_get (f : string) : Run Z :=
  let! gs := readgs in
  on_bay (copy_from_safe root size_of_PerCoreVariables gs 1) ;;;
  let! offset := lift (offset f) in
  start_isolation ;;;
  swapgs ;;;
  let! value := gs_load offset in
  swapgs ;;;
  end_isolation ;;;
  ret value.

Definition safe_set (f : string) (value : Z) : Run unit :=
  let! gs := readgs in
  on_bay (copy_from_safe root size_of_PerCoreVariables gs 1) ;;;
  let! offset := lift (offset f) in
  start_isolation ;;;
  swapgs ;;;
  gs_store offset value ;;;
  swapgs ;;;
  end_isolation ;;;
  on_bay (copy_to_safe root size_of_PerCoreVariables gs 1) ;;;
  on_bay (clear_unsafe_storage2 root size_of_PerCoreVariables).

(** ** The functions of the file *)

Definition core_id : Run Z :=
  let! i := on_bay is_unsafe_storage_init in
  if i : bool then safe_get "core_id" else get "core_id".

Definition safe_core_id : Run Z := safe_get "core_id".

(** A pointer to the core's scheduler *)
Definition core_scheduler : Run Z :=
  let! i := on_bay is_unsafe_storage_init in
  if i : bool then safe_get "scheduler" else get "scheduler".

Definition safe_core_scheduler : Run Z := safe_get "scheduler".

Definition set_core_scheduler (scheduler : Z) : Run unit :=
  let! i := on_bay is_unsafe_storage_init in
  if i : bool then safe_set "scheduler" scheduler else set "scheduler" scheduler.

Definition safe_set_core_scheduler (scheduler : Z) : Run unit := safe_set "scheduler" scheduler.

Definition init : Run unit :=
  let! i := on_bay is_unsafe_storage_init in
  let! address :=
    if i : bool then
      on_bay (let! unsafe_storage := get_unsafe_storage in
              read_copied root BOOT_INFO "current_percore_address" unsafe_storage)
    else
      on_bay (let! boot_info := the_boot_info root BOOT_INFO in
              load_field root boot_info "current_percore_address") in
  if address =? 0 then modify (with_gs PERCORE) else modify (with_gs address).

End percore.

(** ** Correctness *)

Section correct.

Context {F : Type} `{FrameSource F}.
Context (root PERCORE BOOT_INFO : Z).

Implicit Types (s : PerCore F).

Abbreviation percore_ready s := (object_ready root (gsbase s) size_of_PerCoreVariables (bay s)).

(** The value of a variable. *)
Definition variable s (f : string) : Z := le (bytes_at (bytes (bay s)) (gsbase s + offset_of PerCoreVariables f) 8).

(** The names of the variables. *)
Definition is_variable (f : string) : Prop := f = "core_id"%string \/ f = "scheduler"%string \/ f = "tss"%string.

Lemma variable_offset f :
  is_variable f -> exists k, 0 <= k < 3 /\ offset_of PerCoreVariables f = 8 * k /\ offset PERCORE f = Done (8 * k).
Proof.
  assert (Hoff : forall k, 0 <= k < 3 -> offset_of PerCoreVariables f = 8 * k -> offset PERCORE f = Done (8 * k)).
  { intros k Hk E. unfold offset. rewrite E, sub64_done by (unfold W64; lia). f_equal. lia. }
  intros [->|[->| ->]]; [exists 0|exists 1|exists 2];
    (split; [lia|]; split; [reflexivity|]; apply Hoff; [lia|reflexivity]).
Qed.

(** Different variables do not overlap. *)
Lemma variables_apart f g :
  is_variable f -> is_variable g -> f <> g ->
  offset_of PerCoreVariables f + 8 <= offset_of PerCoreVariables g \/ offset_of PerCoreVariables g + 8 <= offset_of PerCoreVariables f.
Proof.
  intros [->|[->| ->]] [->|[->| ->]] Hn; try congruence; (left; by vm_compute) || (right; by vm_compute).
Qed.

(** An isolated part whose [body] returns [r] and leaves the memory [d]. *)
Lemma isolated_run s {A B} (body : M (PerCore F) A) r d (k : A -> M (PerCore F) B) :
  percore_ready s ->
  (forall m1, gated (cpu (bay s)) m1 (regs (cpu (bay s)) RSP) (isolated_pkru (pkru_of (cpu (bay s)))) ->
     body (with_bay (with_cpu m1 (bay s)) s) = Done (r, with_bay (with_cpu m1 (with_bytes d (bay s))) s)) ->
  exists m2, gated (cpu (bay s)) m2 (regs (cpu (bay s)) RSP) (pkru_of (cpu (bay s))) /\
    (start_isolation ;;; let! a := body in end_isolation ;;; k a) s = k r (with_bay (with_cpu m2 (with_bytes d (bay s))) s).
Proof.
  intros R Hb. destruct (bay_start (bay s) (br_pkru _ R)) as (m1 & E1 & G1).
  destruct (bay_end (bay s) m1 (with_cpu m1 (with_bytes d (bay s))) R G1 eq_refl) as (m2 & E2 & G2).
  exists m2. split; [done|]. unfold start_isolation, end_isolation.
  rewrite (bind_done _ _ s tt (with_bay (with_cpu m1 (bay s)) s)) by (unfold on_bay; by rewrite E1).
  rewrite (bind_done _ _ _ _ _ (Hb m1 G1)).
  by rewrite (bind_done _ _ _ tt (with_bay (with_cpu m2 (with_bytes d (bay s))) s)) by (unfold on_bay; cbn [bay with_bay]; by rewrite E2).
Qed.

Lemma percore_ready_after s m d :
  percore_ready s -> gated (cpu (bay s)) m (regs (cpu (bay s)) RSP) (pkru_of (cpu (bay s))) ->
  percore_ready (with_bay (with_cpu m (with_bytes d (bay s))) s).
Proof. apply object_ready_after. Qed.

Lemma readgs_run s {A} (k : Z -> M (PerCore F) A) :
  percore_ready s -> exists m, gated (cpu (bay s)) m (regs (cpu (bay s)) RSP) (pkru_of (cpu (bay s))) /\
  bind readgs k s = k (gsbase s) (with_bay (with_cpu m (with_bytes (bytes (bay s)) (bay s))) s).
Proof.
  intros R. destruct (isolated_run s (gets gsbase) (gsbase s) (bytes (bay s)) k R) as (m & G & E).
  { intros m1 _. unfold gets, with_bay. by destruct (bay s). }
  exists m. split; [done|]. rewrite <- E. unfold readgs. rewrite bind_assoc. apply bind_cong. intros [] s1.
  rewrite bind_assoc. apply bind_cong. intros v s2. by rewrite bind_assoc.
Qed.

Lemma on_bay_done s {A B} (o : M (Bay F) A) a b (k : A -> M (PerCore F) B) :
  o (bay s) = Done (a, b) -> bind (on_bay o) k s = k a (with_bay b s).
Proof. intros E. unfold bind, on_bay. by rewrite E. Qed.

(** A GS-relative access inside an isolated part, between two [swapgs], to the storage. *)
Lemma swapped_run s m1 d {A} (o : Z -> M (Bay F) A) v d' :
  o (kernel_gsbase (bay s)) (with_gsbase (gsbase s) (with_cpu m1 (with_bytes d (bay s)))) =
    Done (v, with_gsbase (gsbase s) (with_cpu m1 (with_bytes d' (bay s)))) ->
  (swapgs ;;; let! r := (let! gs := gets gsbase in on_bay (o gs)) in swapgs ;;; ret r)
    (with_bay (with_cpu m1 (with_bytes d (bay s))) s) = Done (v, with_bay (with_cpu m1 (with_bytes d' (bay s))) s).
Proof.
  intros E. unfold swapgs. rewrite bind_modify, bind_assoc, bind_gets. cbn [gsbase with_bay kernel_gsbase bay with_cpu with_bytes].
  rewrite (on_bay_done _ (o _) v (with_gsbase (gsbase s) (with_cpu m1 (with_bytes d' (bay s))))); [|exact E].
  rewrite bind_modify. unfold ret. cbn. unfold with_bay, with_cpu, with_bytes, with_gsbase. by destruct s as [[] ?].
Qed.

(** The beginning of [safe_get] and [safe_set]: the copy is made. *)
Lemma copied_in s f {A} (k : Z -> Z -> M (PerCore F) A) :
  percore_ready s -> is_variable f ->
  exists m, gated (cpu (bay s)) m (regs (cpu (bay s)) RSP) (pkru_of (cpu (bay s))) /\
    (let! gs := readgs in
     on_bay (copy_from_safe root size_of_PerCoreVariables gs 1) ;;;
     let! o := lift (offset PERCORE f) in
     k gs o) s =
    k (gsbase s) (offset_of PerCoreVariables f)
      (with_bay (with_cpu m (with_bytes (copied (gsbase s) size_of_PerCoreVariables (bay s)) (bay s))) s).
Proof.
  intros R Hf. destruct (variable_offset f Hf) as (n & Hn & -> & En).
  destruct (readgs_run s (fun gs => on_bay (copy_from_safe root size_of_PerCoreVariables gs 1) ;;;
    let! o := lift (offset PERCORE f) in k gs o) R) as (m & G & ->).
  exists m. split; [done|]. set (s1 := with_bay _ s).
  assert (R1 : percore_ready s1) by (by apply percore_ready_after).
  by rewrite (on_bay_done s1 _ _ _ _ (copy_in_run (bay s1) R1)), (bind_lift_done _ _ _ _ En).
Qed.

(** The field of a copy of the variables may be accessed in an isolated part. *)
Lemma copy_open s m1 f w :
  percore_ready s -> is_variable f -> gated (cpu (bay s)) m1 (regs (cpu (bay s)) RSP) (isolated_pkru (pkru_of (cpu (bay s)))) ->
  open root m1 (kernel_gsbase (bay s) + offset_of PerCoreVariables f) 8 w.
Proof.
  intros R Hf G. destruct (variable_offset f Hf) as (n & Hn & -> & _).
  apply (storage_part (bay s) m1 (8 * n) 8 w R G); change size_of_PerCoreVariables with 24; lia.
Qed.

Lemma gated_after s m m2 :
  gated (cpu (bay s)) m (regs (cpu (bay s)) RSP) (pkru_of (cpu (bay s))) -> gated m m2 (regs m RSP) (pkru_of m) ->
  gated (cpu (bay s)) m2 (regs (cpu (bay s)) RSP) (pkru_of (cpu (bay s))).
Proof. intros G G2. rewrite (gt_sp _ _ _ _ G), (gt_pkru _ _ _ _ G) in G2. by eapply gated_trans. Qed.

(** *** Reading *)

(** [safe_get] gives the variable's value; the copy of the variables it was read from
    stays in the unsafe storage. *)
Lemma safe_get_spec s f :
  percore_ready s -> is_variable f ->
  exists m, gated (cpu (bay s)) m (regs (cpu (bay s)) RSP) (pkru_of (cpu (bay s))) /\
    safe_get root PERCORE f s =
      Done (variable s f, with_bay (with_cpu m (with_bytes (copied (gsbase s) size_of_PerCoreVariables (bay s)) (bay s))) s).
Proof.
  intros R Hf. set (d := copied (gsbase s) size_of_PerCoreVariables (bay s)).
  destruct (copied_in s f (fun _ offset => start_isolation ;;; swapgs ;;;
    let! value := gs_load root offset in swapgs ;;; end_isolation ;;; ret value) R Hf) as (m & G & E).
  fold d in E. set (s2 := with_bay _ s) in E. assert (R2 : percore_ready s2) by (by apply percore_ready_after).
  destruct (isolated_run s2 (swapgs ;;; let! v := gs_load root (offset_of PerCoreVariables f) in swapgs ;;; ret v)
    (variable s f) d ret R2) as (m2 & G2 & E2).
  - intros m1 G1. apply (swapped_run s2 m1 d (fun gs => let! bs := load_bytes root (gs + offset_of PerCoreVariables f) 8 in ret (le bs))).
    set (b1 := with_gsbase _ _). rewrite (bind_done _ _ _ _ _ (load_bytes_run root b1 _ 8 (copy_open s2 m1 f false R2 Hf G1))).
    unfold ret. do 2 f_equal. unfold variable. destruct (variable_offset f Hf) as (n & Hn & -> & _).
    replace (8 * n) with (Z.of_nat (Z.to_nat (8 * n))) by lia.
    apply (f_equal le), (copied_bytes (bay s)). change size_of_PerCoreVariables with 24. lia.
  - exists m2. split; [exact (gated_after s m m2 G G2)|]. unfold safe_get. rewrite E. etransitivity; [|exact E2].
    repeat (rewrite ?bind_assoc; apply bind_cong; intros ? ?). done.
Qed.

(** *** Writing *)

Definition stored s (f : string) (v : Z) : gmap Z Z :=
  write_at (copied (gsbase s) size_of_PerCoreVariables (bay s)) (kernel_gsbase (bay s) + offset_of PerCoreVariables f) (le_bytes 8 v).

Lemma clear2_spec s m d :
  percore_ready s -> gated (cpu (bay s)) m (regs (cpu (bay s)) RSP) (pkru_of (cpu (bay s))) ->
  exists zeros, length zeros = 24%nat /\ Forall (eq 0) zeros /\
    on_bay (clear_unsafe_storage2 root size_of_PerCoreVariables) (with_bay (with_cpu m (with_bytes d (bay s))) s) =
      Done (tt, with_bay (with_cpu m (with_bytes (write_at d (kernel_gsbase (bay s)) zeros) (bay s))) s).
Proof.
  intros R G. exists (replicate 24 0). split_and!; [done|by repeat constructor|].
  unfold on_bay, clear_unsafe_storage2. rewrite get_unsafe_storage_run. unfold write_bytes.
  rewrite store_bytes_run; [done|]. eapply open_same; [exact G|]. rewrite length_replicate.
  apply (open_sub root _ (kernel_gsbase (bay s)) (Z.to_nat SIZE)); [apply unsafe_open_open, (br_storage _ R)|cbn; lia|].
  cbn. change size_of_PerCoreVariables with 24. change SIZE with 4096. lia.
Qed.

Lemma safe_set_spec s f v :
  percore_ready s -> is_variable f ->
  exists m zeros, gated (cpu (bay s)) m (regs (cpu (bay s)) RSP) (pkru_of (cpu (bay s))) /\
    length zeros = 24%nat /\ Forall (eq 0) zeros /\
    safe_set root PERCORE f v s = Done (tt, with_bay (with_cpu m (with_bytes
      (write_at (write_at (stored s f v) (gsbase s) (bytes_at (stored s f v) (kernel_gsbase (bay s)) 24))
        (kernel_gsbase (bay s)) zeros) (bay s))) s).
Proof.
  intros R Hf. set (d := copied (gsbase s) size_of_PerCoreVariables (bay s)).
  destruct (copied_in s f (fun gs offset => start_isolation ;;; swapgs ;;; gs_store root offset v ;;; swapgs ;;; end_isolation ;;;
    on_bay (copy_to_safe root size_of_PerCoreVariables gs 1) ;;; on_bay (clear_unsafe_storage2 root size_of_PerCoreVariables)) R Hf)
    as (m & G & E).
  fold d in E. set (s2 := with_bay _ s) in E. assert (R2 : percore_ready s2) by (by apply percore_ready_after).
  destruct (isolated_run s2 (swapgs ;;; gs_store root (offset_of PerCoreVariables f) v ;;; swapgs ;;; ret tt) tt (stored s f v)
    (fun _ => on_bay (copy_to_safe root size_of_PerCoreVariables (gsbase s) 1) ;;; on_bay (clear_unsafe_storage2 root size_of_PerCoreVariables)) R2)
    as (m2 & G2 & E2).
  - intros m1 G1. etransitivity; [|apply (swapped_run s2 m1 d (fun gs =>
      store_bytes root (gs + offset_of PerCoreVariables f) (le_bytes 8 v)) tt (stored s f v))].
    + apply bind_cong. intros [] s3. apply bind_cong. intros [] s4. done.
    + set (b1 := with_gsbase _ _). rewrite (store_bytes_run root b1); [done|]. rewrite length_le_bytes.
      exact (copy_open s2 m1 f true R2 Hf G1).
  - pose proof (gated_after s m m2 G G2) as G3.
    set (d4 := write_at (stored s f v) (gsbase s) (bytes_at (stored s f v) (kernel_gsbase (bay s)) 24)).
    destruct (clear2_spec s m2 d4 R G3) as (zeros & Hl & Hz & Ez). exists m2, zeros. split_and!; [done..|].
    unfold safe_set. rewrite E.
    assert (Et : copy_to_safe root size_of_PerCoreVariables (gsbase s) 1 (with_cpu m2 (with_bytes (stored s f v) (bay s))) =
      Done (tt, with_cpu m2 (with_bytes d4 (bay s)))).
    { rewrite copy_to_safe_run; [done|..].
      - cbn [cpu with_cpu]. rewrite (permitted_same root _ _ _ _ _ G3). apply R.
      - exact (br_valid _ R).
      - by vm_compute.
      - cbn [cpu with_cpu kernel_gsbase with_bytes]. eapply open_same; [exact G3|].
        apply open_read, (open_sub root _ (kernel_gsbase (bay s)) (Z.to_nat SIZE)); [apply unsafe_open_open, (br_storage _ R)|lia|].
        change size_of_PerCoreVariables with 24. change SIZE with 4096. lia.
      - cbn [cpu with_cpu]. eapply open_same; [exact G3|]. exact (br_boot _ R). }
    transitivity ((on_bay (copy_to_safe root size_of_PerCoreVariables (gsbase s) 1) ;;;
      on_bay (clear_unsafe_storage2 root size_of_PerCoreVariables)) (with_bay (with_cpu m2 (with_bytes (stored s f v) (bay s))) s)).
    + etransitivity; [|exact E2]. repeat (rewrite ?bind_assoc; apply bind_cong; intros ? ?). done.
    + rewrite (on_bay_done (with_bay (with_cpu m2 (with_bytes (stored s f v) (bay s))) s) _ _ _ _ Et). exact Ez.
Qed.

(** The variable [g] after [safe_set] of [f]. *)
Lemma variable_stored s f g v m zeros :
  percore_ready s -> is_variable f -> is_variable g -> in_u64 v -> length zeros = 24%nat ->
  variable (with_bay (with_cpu m (with_bytes
    (write_at (write_at (stored s f v) (gsbase s) (bytes_at (stored s f v) (kernel_gsbase (bay s)) 24))
      (kernel_gsbase (bay s)) zeros) (bay s))) s) g = if bool_decide (f = g) then v else variable s g.
Proof.
  intros R Hf Hg Hv Hz. unfold variable. cbn [bay with_bay bytes with_cpu with_bytes gsbase].
  destruct (variable_offset g Hg) as (n & Hn & Eg & _). pose proof (br_apart _ R) as Ha.
  change size_of_PerCoreVariables with 24 in Ha. change SIZE with 4096 in Ha.
  rewrite (bytes_at_ext (write_at (stored s f v) (gsbase s) (bytes_at (stored s f v) (kernel_gsbase (bay s)) 24)))
    by (intros x Hx; apply write_at_out; lia).
  assert (Eo : offset_of PerCoreVariables g = Z.of_nat (Z.to_nat (8 * n))) by lia.
  rewrite Eo, bytes_at_copy by lia. rewrite <- Eo. unfold stored. case_bool_decide as Hfg.
  - subst g. rewrite <- (length_le_bytes 8 v) at 2. by rewrite bytes_at_write_at, le_le_bytes.
  - pose proof (variables_apart f g Hf Hg Hfg) as Hap.
    rewrite (bytes_at_ext (copied (gsbase s) size_of_PerCoreVariables (bay s)))
      by (intros x Hx; apply write_at_out; rewrite length_le_bytes; lia).
    rewrite Eo, copied_bytes; [done|]. change size_of_PerCoreVariables with 24. lia.
Qed.

(** Memory outside the variables and the storage. *)
Lemma stored_elsewhere s f v zeros x :
  percore_ready s -> is_variable f -> length zeros = 24%nat ->
  ~ gsbase s <= x < gsbase s + 24 -> ~ kernel_gsbase (bay s) <= x < kernel_gsbase (bay s) + SIZE ->
  write_at (write_at (stored s f v) (gsbase s) (bytes_at (stored s f v) (kernel_gsbase (bay s)) 24))
    (kernel_gsbase (bay s)) zeros !! x = bytes (bay s) !! x.
Proof.
  intros R Hf Hz Hx Hs. destruct (variable_offset f Hf) as (n & Hn & Ef & _). change SIZE with 4096 in Hs.
  rewrite write_at_out by lia. rewrite write_at_out by (rewrite length_bytes_at; lia).
  unfold stored. rewrite write_at_out by (rewrite length_le_bytes, Ef; lia). apply (copied_out (bay s) R). exact Hs.
Qed.

(** C30. Per-core variables behave as variables: after [safe_set] of one, [safe_get] gives the
    value set, and of the others the value they had; both go through the unsafe storage
    and an exchange of the GS registers, which are as before, and no memory but the
    variables and the storage changes. *)
Theorem percore_set_get s f g v :
  percore_ready s -> is_variable f -> is_variable g -> in_u64 v ->
  exists s1 s2, safe_set root PERCORE f v s = Done (tt, s1) /\
    safe_get root PERCORE g s1 = Done (if bool_decide (f = g) then v else variable s g, s2) /\
    percore_ready s2 /\ gsbase s2 = gsbase s /\ kernel_gsbase (bay s2) = kernel_gsbase (bay s) /\
    (forall x, ~ gsbase s <= x < gsbase s + 24 -> ~ kernel_gsbase (bay s) <= x < kernel_gsbase (bay s) + SIZE ->
       bytes (bay s2) !! x = bytes (bay s) !! x).
Proof.
  intros R Hf Hg Hv. destruct (safe_set_spec s f v R Hf) as (m & zeros & G & Hl & Hz & E).
  set (s1 := with_bay _ s) in E. assert (R1 : percore_ready s1) by (by apply percore_ready_after).
  destruct (safe_get_spec s1 g R1 Hg) as (m2 & G2 & E2). exists s1. eexists. split_and!.
  - exact E.
  - rewrite E2. do 2 f_equal. by apply variable_stored.
  - by apply (percore_ready_after s1).
  - done.
  - done.
  - intros x Hx Hs. cbn [bay with_bay bytes with_cpu with_bytes]. rewrite (copied_out (bay s1) R1) by exact Hs.
    by apply stored_elsewhere.
Qed.

(** What is read is left behind: after [safe_get] the unsafe storage holds all variables. *)
Theorem safe_get_leaves_copy s f :
  percore_ready s -> is_variable f ->
  exists s', safe_get root PERCORE f s = Done (variable s f, s') /\
    bytes_at (bytes (bay s')) (kernel_gsbase (bay s')) 24 = bytes_at (bytes (bay s)) (gsbase s) 24.
Proof.
  intros R Hf. destruct (safe_get_spec s f R Hf) as (m & _ & E). eexists. split; [exact E|].
  cbn [bay with_bay bytes with_cpu with_bytes kernel_gsbase].
  pose proof (copied_bytes (obj := gsbase s) (size := size_of_PerCoreVariables) (bay s) 0 24 ltac:(by vm_compute)) as Hc.
  by rewrite !Z.add_0_r in Hc.
Qed.

(** [init] points GS to the variables prepared for this core, and on the boot processor,
    for which there are none, to [PERCORE]. *)
Theorem percore_init_spec s :
  object_ready root BOOT_INFO size_of_BootInfo (bay s) ->
  exists b', init root PERCORE BOOT_INFO s = Done (tt, mkPerCore b'
    (let a := field_value BOOT_INFO (bytes (bay s)) "current_percore_address" in if a =? 0 then PERCORE else a)).
Proof.
  intros R. pose proof (br_storage _ R) as [Hnz _].
  destruct (read_copied_spec root BOOT_INFO (bay s) "current_percore_address" R ltac:(by apply is_field_test_ok)) as (m & d & E & _).
  exists (with_cpu m (with_bytes d (bay s))). unfold init, is_unsafe_storage_init.
  rewrite (on_bay_done s _ (negb (kernel_gsbase (bay s) =? 0)) (bay s)) by done.
  destruct (Z.eqb_spec (kernel_gsbase (bay s)) 0); [done|]. cbn [negb].
  rewrite (on_bay_done _ _ (field_value BOOT_INFO (bytes (bay s)) "current_percore_address") (with_cpu m (with_bytes d (bay s))))
    by (rewrite get_unsafe_storage_run; exact E).
  cbv zeta. by destruct (_ =? 0).
Qed.

End correct.

(** ** Examples *)

Section sample.

#[local] Existing Instance Paging.bump_source.

(** The variables are where the boot information of its example is. *)
Definition sample_percore : PerCore Z := mkPerCore BootInfo.sample_bay BootInfo.sample_info.

Lemma sample_percore_ready : object_ready sample_root BootInfo.sample_info size_of_PerCoreVariables BootInfo.sample_bay.
Proof. apply (object_ready_smaller _ _ _ _ _ BootInfo.sample_ready). by vm_compute. Qed.

Lemma percore_set_get_witness :
  exists s1 s2, safe_set sample_root 0x500000 "scheduler" 0x123456 sample_percore = Done (tt, s1) /\
    safe_get sample_root 0x500000 "scheduler" s1 = Done (0x123456, s2).
Proof.
  destruct (percore_set_get sample_root 0x500000 sample_percore "scheduler" "scheduler" 0x123456 sample_percore_ready)
    as (s1 & s2 & E1 & E2 & _).
  - right. by left.
  - right. by left.
  - by vm_compute.
  - exists s1, s2. split; [exact E1|]. exact E2.
Defined.

End sample.
