(* ===== verification/Gdt.v ===== *)
(** * Segments and task state: src/arch/x86_64/kernel/gdt.rs

    The global descriptor table, the task state segment (TSS) of each core, from which
    the processor takes the stacks of its interrupt stack table (IST), and the stacks of
    the current task in it. *)

From Stdlib Require Import ZArith Lia String.
From stdpp Require Import base numbers list gmap.
From S2P Require Import Prelude Collections Pte Mmu Paging Mm Mpk Cpu Isolation TaskQueue Tasks Bytes CopySafe Storage BootInfo Percore.

#[local] Open Scope Z_scope.

Definition GDT_NULL : Z := 0.
Definition GDT_KERNEL_CODE : Z := 1.
Definition GDT_KERNEL_DATA : Z := 2.
Definition GDT_FIRST_TSS : Z := 3.
Definition GDT_ENTRIES : Z := 8192.
Definition IST_ENTRIES : nat := 4.

(** The task state segment as the processor reads it. *)
Definition TaskStateSegment : layout :=
  [("reserved", 4); ("rsp0", 8); ("rsp1", 8); ("rsp2", 8); ("reserved2", 8); ("ist0", 8); ("ist1", 8); ("ist2", 8);
   ("ist3", 8); ("ist4", 8); ("ist5", 8); ("ist6", 8); ("reserved3", 8); ("reserved4", 2); ("iomap_base", 2)]%string.

Definition size_of_TSS : Z := size_of TaskStateSegment.

(** The base address in the 16 bytes of a TSS descriptor, and whether they are the
    descriptor of a present TSS that is available. *)
Definition descriptor_base (d : list Z) : Z :=
  le (take 3 (drop 2 d) ++ take 5 (drop 7 d)).
Definition available_tss (d : list Z) : bool := Z.land (default 0 (d !! 5%nat)) 0x9F =? 0x89.

(** A core: its variables, the registers for segments, and the variable [GDTR]. *)
Record Segments (F : Type) := mkSegments {
  percore : PerCore F;
  GDTR : Z;
  gdtr : Z;
  cs : Z;
  ds : Z;
  es : Z;
  ss : Z;
  tr : Z;
  tr_base : Z
}.
Arguments mkSegments {F} _ _ _ _ _ _ _ _ _.
Arguments percore {F} _.
Arguments GDTR {F} _.
Arguments gdtr {F} _.
Arguments cs {F} _.
Arguments ds {F} _.
Arguments es {F} _.
Arguments ss {F} _.
Arguments tr {F} _.
Arguments tr_base {F} _.

Section gdt.

Context {F : Type} `{FrameSource F}.
Context (root PERCORE BOOT_INFO : Z).

(** The block of [mm::allocate] to which [GDT] points *)
Context (GDT : Z).

(** Descriptors are built by the crate x86. *)
Context (code_descriptor data_descriptor : Z) (tss_descriptor : Z -> Z -> list Z).

Abbreviation Run := (M (Segments F)).

Definition with_percore (p : PerCore F) (s : Segments F) : Segments F :=
  mkSegments p (GDTR s) (gdtr s) (cs s) (ds s) (es s) (ss s) (tr s) (tr_base s).

Definition on_percore {A} (o : M (PerCore F) A) : Run A := fun s =>
  let? (a, p) := o (percore s) in Done (a, with_percore p s).

Definition on_memory {A} (o : M (Bay F) A) : Run A := on_percore (Percore.on_bay o).

(** ** Instructions *)

Definition lgdt (table : Z) : Run unit :=
  modify (fun s => mkSegments (percore s) (GDTR s) table (cs s) (ds s) (es s) (ss s) (tr s) (tr_base s)).

(** [SegmentSelector::new(index, Ring0)] *)
Definition selector (index : Z) : Z := Z.shiftl index 3 mod 2 ^ 16.

Definition load_segments (code data : Z) : Run unit :=
  modify (fun s => mkSegments (percore s) (GDTR s) (gdtr s) code data data data (tr s) (tr_base s)).

(** The processor takes the base of the segment from the table, whatever PKRU says. *)
Definition load_tr (index : Z) : Run unit := fun s =>
  let d := bytes_at (bytes (Percore.bay (percore s))) (gdtr s + 8 * index) 16 in
  if available_tss d then
    Done (tt, mkSegments (percore s) (GDTR s) (gdtr s) (cs s) (ds s) (es s) (ss s) (selector index) (descriptor_base d))
  else Panic.

Definition store64 (a v : Z) : Run unit := on_memory (store_bytes root a (le_bytes 8 v)).

Definition start_isolation : Run unit := on_percore Percore.start_isolation.
Definition end_isolation : Run unit := on_percore Percore.end_isolation.

(** [entries[index]] *)
Definition set_entry (index descriptor : Z) : Run unit :=
  massert ((0 <=? index) && (index <? GDT_ENTRIES)) ;;;
  store64 (GDT + 8 * index) descriptor.

(** ** The functions of the file *)

Definition init : Run unit :=
  start_isolation ;;;
  end_isolation ;;;
  set_entry GDT_NULL 0 ;;;
  set_entry GDT_KERNEL_CODE code_descriptor ;;;
  set_entry GDT_KERNEL_DATA data_descriptor ;;;
  on_memory (safe_var root true) ;;;
  modify (fun s => mkSegments (percore s) GDT (gdtr s) (cs s) (ds s) (es s) (ss s) (tr s) (tr_base s)).

(** [for i in 0..IST_ENTRIES], on the blocks that [mm::user_allocate] gives *)
Fixpoint fill_ists (boxed_tss : Z) (i : nat) (ists : list Z) : Run unit :=
  match ists with
  | [] => ret tt
  | ist :: ists =>
      let! a := lift (add64 ist KERNEL_STACK_SIZE) in
      let! top := lift (sub64 a 0x10) in
      store64 (boxed_tss + offset_of TaskStateSegment "ist0" + 8 * Z.of_nat i) top ;;;
      fill_ists boxed_tss (S i) ists
  end.

Definition load_boot_stack : Run Z :=
  let! unsafe_storage := on_memory get_unsafe_storage in
  let! boot_info := on_memory (the_boot_info root BOOT_INFO) in
  on_memory (copy_from_safe root size_of_BootInfo boot_info 1) ;;;
  start_isolation ;;;
  let! stack := on_memory (load_field root unsafe_storage "current_stack_address") in
  let! a := lift (add64 stack KERNEL_STACK_SIZE) in
  let! temp_rsp := lift (sub64 a 0x10) in
  end_isolation ;;;
  ret temp_rsp.

(** The descriptor is built in the variable [tss_desc] on the stack and goes through the
    unsafe storage to the table. *)
Definition install_descriptor (idx tss tss_desc : Z) : Run unit :=
  let base := tss in
  let! e := lift (add64 base size_of_TSS) in
  let! limit := lift (sub64 e 1) in
  on_memory (store_bytes root tss_desc (tss_descriptor base limit)) ;;;
  on_memory (list_add root tss_desc) ;;;
  let! unsafe_storage := on_memory get_unsafe_storage in
  on_memory (copy_from_safe root 16 tss_desc 1) ;;;
  start_isolation ;;;
  end_isolation ;;;
  massert (idx + 2 <=? GDT_ENTRIES) ;;;
  let! d := on_memory (load_bytes root unsafe_storage 16) in
  on_memory (store_bytes root (GDT + 8 * idx) d) ;;;
  on_memory (clear_unsafe_storage root).

(** [boxed_tss] is the address of the variable on the boot stack, [tss_new] its bytes at
    first, [ists] and [alloc_tss] the blocks of [mm::user_allocate]. *)
Definition add_current_core (boxed_tss tss_desc alloc_tss : Z) (tss_new ists : list Z) : Run unit :=
  on_memory (safe_var root false) ;;;
  let! table := gets GDTR in
  lgdt table ;;;
  load_segments (selector GDT_KERNEL_CODE) (selector GDT_KERNEL_DATA) ;;;
  on_memory (store_bytes root boxed_tss tss_new) ;;;
  let! temp_rsp := load_boot_stack in
  store64 (boxed_tss + offset_of TaskStateSegment "rsp0") temp_rsp ;;;
  on_memory (clear_unsafe_storage root) ;;;
  fill_ists boxed_tss 0 ists ;;;
  let! core_id := on_percore (core_id root PERCORE) in
  let! c := lift (mul64 core_id 2) in
  let! idx := lift (add64 GDT_FIRST_TSS c) in
  let tss := boxed_tss in
  install_descriptor idx tss tss_desc ;;;
  load_tr idx ;;;
  on_memory (list_add root alloc_tss) ;;;
  on_memory (list_add root tss) ;;;
  on_memory (copy_from_safe root size_of_TSS tss 1) ;;;
  on_memory (copy_to_safe root size_of_TSS alloc_tss 1) ;;;
  on_memory (clear_unsafe_storage root) ;;;
  on_percore (safe_set root PERCORE "tss" alloc_tss).

(** [current] is the current task of the core's scheduler. *)
Definition set_current_kernel_stack (current : Task) : Run unit :=
  let! _ := on_percore (core_scheduler root PERCORE) in
  let! tss := on_percore (safe_get root PERCORE "tss") in
  let! (rsp0, ist0) := lift (Tasks.set_current_kernel_stack current) in
  store64 (tss + offset_of TaskStateSegment "rsp0") rsp0 ;;;
  store64 (tss + offset_of TaskStateSegment "ist0") ist0.

End gdt.

(** ** Correctness *)

Section correct.

Context {F : Type} `{FrameSource F}.
Context (root PERCORE BOOT_INFO : Z).

Implicit Types (s : Segments F).

Abbreviation memory s := (bytes (Percore.bay (percore s))).
Abbreviation core_of s := (cpu (Percore.bay (percore s))).
Abbreviation storage_of s := (kernel_gsbase (Percore.bay (percore s))).

(** A field of the TSS at [a]. *)
Definition tss_field (d : gmap Z Z) (a : Z) (f : string) : Z :=
  le (bytes_at d (a + offset_of TaskStateSegment f) (field TaskStateSegment f).2).

Lemma on_percore_done s {A B} (o : M (PerCore F) A) a p (k : A -> M (Segments F) B) :
  o (percore s) = Done (a, p) -> bind (on_percore o) k s = k a (with_percore p s).
Proof. intros E. unfold bind, on_percore. by rewrite E. Qed.

Lemma store64_run s a v :
  open root (core_of s) a 8 true ->
  store64 root a v s = Done (tt, with_percore (with_bay (with_bytes (write_at (memory s) a (le_bytes 8 v)) (Percore.bay (percore s)))
    (percore s)) s).
Proof.
  intros Ho. unfold store64, on_memory, on_percore, Percore.on_bay. rewrite store_bytes_run; [done|]. by rewrite length_le_bytes.
Qed.

(** [get] of a core whose unsafe storage is initialised. *)
Lemma core_scheduler_run p {A} (k : Z -> M (PerCore F) A) :
  kernel_gsbase (Percore.bay p) <> 0 -> bind (core_scheduler root PERCORE) k p = bind (safe_get root PERCORE "scheduler") k p.
Proof.
  intros Hnz. unfold core_scheduler. rewrite bind_assoc. unfold is_unsafe_storage_init.
  rewrite (on_bay_done p _ (negb (kernel_gsbase (Percore.bay p) =? 0)) (Percore.bay p)) by done.
  destruct (Z.eqb_spec (kernel_gsbase (Percore.bay p)) 0); [done|]. by destruct p.
Qed.

(** A task's stacks lie in memory of 64 bits and above the first page. *)
Definition stacks_ok (current : Task) : Prop :=
  0 <= stack (stacks current) /\ stack (stacks current) + DEFAULT_STACK_SIZE < W64 /\
  0 <= TaskQueue.ist0 (stacks current) /\ TaskQueue.ist0 (stacks current) + KERNEL_STACK_SIZE < W64.

Lemma stacks_done current :
  stacks_ok current -> exists rsp0 ist0, Tasks.set_current_kernel_stack current = Done (rsp0, ist0) /\ in_u64 rsp0 /\ in_u64 ist0 /\
    rsp0 = stack (stacks current) + (if bool_decide (status current = TaskIdle) then KERNEL_STACK_SIZE else DEFAULT_STACK_SIZE) - 0x10 /\
    ist0 = TaskQueue.ist0 (stacks current) + KERNEL_STACK_SIZE - 0x10.
Proof.
  intros (H1 & H2 & H3 & H4). unfold Tasks.set_current_kernel_stack. change KERNEL_STACK_SIZE with 32768 in *.
  change DEFAULT_STACK_SIZE with 262144 in *.
  assert (Hs : exists n, (if bool_decide (status current = TaskIdle) then 32768 else 262144) = n /\ 32768 <= n <= 262144)
    by (case_bool_decide; eexists; (split; [reflexivity|lia])).
  destruct Hs as (n & -> & Hn). unfold in_u64, W64 in *. do 2 eexists.
  rewrite add64_done by (unfold W64; lia). cbn [obind]. rewrite sub64_done by (unfold W64; lia). cbn [obind].
  rewrite add64_done by (unfold W64; lia). cbn [obind]. rewrite sub64_done by (unfold W64; lia). cbn [obind].
  split_and!; try reflexivity; lia.
Qed.

(** C31. [set_current_kernel_stack] writes the stacks of the current task, the top of the
    stack for interrupts of less privileged code by the kind of the task, to the fields [rsp0]
    and [ist0] of the segment to which the core's variable [tss] points. It changes no other
    byte of memory but those of the unsafe storage, through which it reads the variables, and
    no register for segments: whether the processor sees the new stacks depends on where
    [tss] points, which is not the segment that [add_current_core] loads
    ([loaded_tss_keeps_stacks]). *)
Theorem set_current_kernel_stack_correct s current tss :
  object_ready root (gsbase (percore s)) size_of_PerCoreVariables (Percore.bay (percore s)) -> stacks_ok current ->
  variable (percore s) "tss" = tss -> open root (core_of s) tss 104 true ->
  exists p, let s' := with_percore p s in
    set_current_kernel_stack root PERCORE current s = Done (tt, s') /\
    tss_field (memory s') tss "rsp0" = stack (stacks current) +
      (if bool_decide (status current = TaskIdle) then KERNEL_STACK_SIZE else DEFAULT_STACK_SIZE) - 0x10 /\
    tss_field (memory s') tss "ist0" = TaskQueue.ist0 (stacks current) + KERNEL_STACK_SIZE - 0x10 /\
    forall x, ~ storage_of s <= x < storage_of s + SIZE -> ~ tss + 4 <= x < tss + 12 -> ~ tss + 36 <= x < tss + 44 ->
      memory s' !! x = memory s !! x.
Proof.
  intros R Hst Ht Ho. pose proof (br_storage _ R) as [Hnz _].
  destruct (safe_get_spec root PERCORE (percore s) "scheduler" R) as (m1 & G1 & E1); [right; by left|].
  set (p1 := with_bay _ (percore s)) in E1.
  assert (R1 : object_ready root (gsbase p1) size_of_PerCoreVariables (Percore.bay p1)) by (by apply percore_ready_after).
  destruct (safe_get_spec root PERCORE p1 "tss" R1) as (m2 & G2 & E2); [right; by right|].
  pose proof (gated_after (percore s) m1 m2 G1 G2) as G3.
  set (p2 := with_bay _ p1) in E2.
  assert (Hin : forall x, ~ storage_of s <= x < storage_of s + SIZE -> bytes (Percore.bay p2) !! x = memory s !! x).
  { intros x Hx. etransitivity; [apply (copied_out (Percore.bay p1) R1), Hx|]. by apply (copied_out (Percore.bay (percore s)) R). }
  assert (Ht1 : variable p1 "tss" = tss).
  { rewrite <- Ht. unfold variable. apply (f_equal le), bytes_at_ext. intros x Hx. apply (copied_out (Percore.bay (percore s)) R).
    pose proof (br_apart _ R) as Hap. change (offset_of PerCoreVariables "tss") with 16 in Hx.
    change (gsbase p1) with (gsbase (percore s)) in Hx. change size_of_PerCoreVariables with 24 in Hap. lia. }
  rewrite Ht1 in E2. destruct (stacks_done current Hst) as (rsp0 & ist0 & Es & Hr & Hi & Er & Ei).
  set (s2 := with_percore p2 s).
  assert (Ho2 : open root (core_of s2) tss 104 true) by (cbn; by eapply open_same).
  assert (Eo : offset_of TaskStateSegment "rsp0" = 4 /\ offset_of TaskStateSegment "ist0" = 36) by done. destruct Eo as [Eo1 Eo2].
  pose proof (store64_run s2 (tss + 4) rsp0 ltac:(eapply open_sub; [exact Ho2|lia|lia])) as E3. set (s3 := with_percore _ s2) in E3.
  pose proof (store64_run s3 (tss + 36) ist0 ltac:(eapply open_sub; [exact Ho2|lia|lia])) as E4. set (s4 := with_percore _ s3) in E4.
  exists (percore s4). split_and!.
  - change (with_percore (percore s4) s) with s4. unfold set_current_kernel_stack. rewrite (on_percore_done s _ (variable (percore s) "scheduler") p1).
    2: { transitivity (bind (core_scheduler root PERCORE) ret (percore s)); [unfold bind, ret; by destruct (core_scheduler _ _ _) as [[]| |]|].
         rewrite core_scheduler_run by done. by rewrite (bind_done _ _ _ _ _ E1). }
    rewrite (on_percore_done (with_percore p1 s) _ tss p2) by exact E2.
    change (with_percore p2 (with_percore p1 s)) with s2. rewrite (bind_lift_done _ _ _ _ Es). rewrite Eo1, Eo2.
    by rewrite (bind_done _ _ _ _ _ E3).
  - rewrite <- Er. unfold tss_field. rewrite Eo1. change (field TaskStateSegment "rsp0").2 with 8%nat.
    unfold s4. cbn [percore with_percore Percore.bay with_bay bytes with_bytes].
    rewrite (bytes_at_ext (memory s3)) by (intros x Hx; apply write_at_out; rewrite length_le_bytes; lia).
    unfold s3. cbn [percore with_percore Percore.bay with_bay bytes with_bytes].
    rewrite <- (length_le_bytes 8 rsp0) at 2. by rewrite bytes_at_write_at, le_le_bytes.
  - rewrite <- Ei. unfold tss_field. rewrite Eo2. change (field TaskStateSegment "ist0").2 with 8%nat.
    unfold s4. cbn [percore with_percore Percore.bay with_bay bytes with_bytes].
    rewrite <- (length_le_bytes 8 ist0) at 2. by rewrite bytes_at_write_at, le_le_bytes.
  - intros x Hx Hx1 Hx2. unfold s4, s3. cbn [percore with_percore Percore.bay with_bay bytes with_bytes].
    rewrite !write_at_out by (rewrite length_le_bytes; lia). by apply Hin.
Qed.

End correct.

(** ** Examples *)

(** A test for objects that computes *)
Definition object_test {F} (root obj size : Z) (b : Bay F) : bool :=
  (0 <=? pkru_of (cpu b)) && (pkru_of (cpu b) <? W32) && bool_decide (perm_of (pkru_of (cpu b)) Mm.SAFE_MEM_REGION = MpkRw) &&
  permitted root (cpu b) safe_data_start false && negb (kernel_gsbase b =? 0) &&
  unsafe_test root (cpu b) (kernel_gsbase b) (Z.to_nat SIZE) && valid b obj &&
  open_test root (cpu b) obj (Z.to_nat size) true && ((obj + size <=? kernel_gsbase b) || (kernel_gsbase b + SIZE <=? obj)) &&
  (0 <=? size) && (size <=? SIZE).

Lemma object_test_ok {F} root obj size (b : Bay F) : object_test root obj size b = true -> object_ready root obj size b.
Proof.
  unfold object_test. intros Ht. repeat (apply andb_prop in Ht as [Ht ?]). split.
  - split; lia.
  - by eapply bool_decide_eq_true_1.
  - done.
  - split; [by apply Z.eqb_neq, negb_true_iff|]. by apply unsafe_test_ok.
  - done.
  - by apply open_test_ok.
  - match goal with Hb : _ || _ = true |- _ => apply orb_prop in Hb as [?%Z.leb_le|?%Z.leb_le] end; [by left|by right].
  - split; lia.
Qed.

Section sample.

#[local] Existing Instance Paging.bump_source.

(** The descriptor of an available 64-bit TSS as the crate x86 encodes it. *)
Definition sample_descriptor (base limit : Z) : list Z :=
  le_bytes 2 limit ++ le_bytes 3 base ++ [0x89; Z.land (Z.shiftr limit 16) 0xF] ++ le_bytes 5 (Z.shiftr base 24) ++ [0; 0; 0; 0].

(** Pages for [.safe_data], the boot stack with the boot information and the core's
    variables, the unsafe storage, the GDT and a TSS. *)
Definition sample_space : Mmu Z :=
  run_state (map sample_root 39 false BasePageSize 0x400000 0x800000 1 (pkey 1 (writable 0)) ;;;
             map sample_root 39 false BasePageSize 0x10000000 0x801000 1 (pkey 1 (writable 0)) ;;;
             map sample_root 39 false BasePageSize 0x10001000 0x802000 1 (pkey 2 (writable 0)) ;;;
             map sample_root 39 false BasePageSize 0x10002000 0x803000 1 (pkey 1 (writable 0)) ;;;
             map sample_root 39 false BasePageSize 0x10003000 0x804000 1 (writable 0)) sample.

(** The boot stack is the page at 0x10000000; the core's variables are at 0x10000200. *)
Definition sample_core : Segments Z :=
  mkSegments (mkPerCore (mkBay (mkMachine sample_regs 0x202 0 0 0 ∅ (mkCore 0 sample_space) Isolation.sample_task)
    {[0x10000100 + 58 := 0x10]} (<[1%nat := 0x10000200]> (<[0%nat := 0x10000100]> (replicate 100 0))) 2 0x10001000) 0x10000200)
    0x10002000 0 0 0 0 0 0 0.

Definition sample_started : outcome (unit * Segments Z) :=
  add_current_core sample_root 0x10000200 0x10000100 0x10002000 sample_descriptor
    0x10000300 0x10000400 0x10003000 (replicate 104 0) [0x20000000; 0x20010000; 0x20020000; 0x20030000] sample_core.

(** The core after [add_current_core] *)
Definition sample_after : Segments Z := match sample_started with Done (_, s) => s | _ => sample_core end.

Definition sample_current : Task :=
  mkTask 1 TaskRunning 2 0 0 0 [] 0 (mkStacks false 0x30000000 0x30100000 0 0) None None Collections.DoublyLinkedList_new None Custom.

(** The core has come through, and what the theorem asks for holds of it. *)
Definition sample_test : bool :=
  match sample_started with
  | Done _ =>
      object_test sample_root (gsbase (percore sample_after)) 24 (Percore.bay (percore sample_after)) &&
      (variable (percore sample_after) "tss" =? 0x10003000) &&
      open_test sample_root (cpu (Percore.bay (percore sample_after))) 0x10003000 104 true &&
      (tr_base sample_after =? 0x10000300) && (kernel_gsbase (Percore.bay (percore sample_after)) =? 0x10001000) &&
      (tss_field (bytes (Percore.bay (percore sample_after))) 0x10000300 "rsp0" =? 0x107ff0) &&
      (tss_field (bytes (Percore.bay (percore sample_after))) 0x10000300 "ist0" =? 0x20007ff0)
  | _ => false
  end.

Lemma sample_tested : sample_test = true.
Proof. vm_compute. reflexivity. Qed.

Lemma set_current_kernel_stack_correct_witness :
  exists s, sample_started = Done (tt, s) /\ tr_base s = 0x10000300 /\
    exists s', set_current_kernel_stack sample_root 0x10000200 sample_current s = Done (tt, s') /\
      bytes_at (bytes (Percore.bay (percore s'))) 0x10000300 104 = bytes_at (bytes (Percore.bay (percore s))) 0x10000300 104 /\
      tss_field (bytes (Percore.bay (percore s'))) 0x10003000 "rsp0" = 0x30000000 + DEFAULT_STACK_SIZE - 0x10.
Proof.
  pose proof sample_tested as Ht. unfold sample_test, sample_after in Ht. destruct sample_started as [[[] s]| |]; [|done|done].
  rewrite !andb_true_iff, !Z.eqb_eq in Ht. destruct Ht as [[[[[[R Hv] Ho] Htr] Hk] _] _].
  apply object_test_ok in R. apply open_test_ok in Ho. exists s. split_and!; [done|exact Htr|].
  destruct (set_current_kernel_stack_correct sample_root 0x10000200 s sample_current 0x10003000 R) as (p & E & Hr & _ & Hb).
  - repeat split; by vm_compute.
  - exact Hv.
  - exact Ho.
  - exists (with_percore p s). split_and!; [exact E| |exact Hr].
    apply bytes_at_ext. intros x Hx. rewrite Hk in Hb. apply Hb; change SIZE with 4096; lia.
Defined.

(** The stacks of a task do not reach the processor: after [add_current_core] the task
    register refers to the variable [boxed_tss] on the boot stack, at 0x10000300 here, and
    [tss] to the copy at 0x10003000. So [set_current_kernel_stack] changes the copy, and the
    segment that the processor reads keeps the stacks it had. *)
Definition loaded_tss_test : bool :=
  match sample_started with
  | Done (_, s) =>
      match set_current_kernel_stack sample_root 0x10000200 sample_current s with
      | Done (_, s') =>
          (tr_base s' =? 0x10000300) && (variable (percore s') "tss" =? 0x10003000) &&
          (tss_field (bytes (Percore.bay (percore s'))) (tr_base s') "rsp0" =? 0x107ff0) &&
          (tss_field (bytes (Percore.bay (percore s'))) (tr_base s') "ist0" =? 0x20007ff0) &&
          (tss_field (bytes (Percore.bay (percore s'))) 0x10003000 "rsp0" =? 0x3003fff0)
      | _ => false
      end
  | _ => false
  end.

Example loaded_tss_keeps_stacks : loaded_tss_test = true.
Proof. vm_compute. reflexivity. Qed.

End sample.
