(* ===== verification/Vga.v ===== *)
(** * The text screen: src/arch/x86_64/kernel/vga.rs

    The VGA text buffer of 25 rows of 80 characters, the cursor and scrolling. The
    buffer is device memory; the pointer to it is a variable of [.safe_data] that is
    read inside isolated parts. *)

From Stdlib Require Import ZArith Lia.
From stdpp Require Import base numbers list gmap.
From S2P Require Import Prelude Pte Mmu Paging Mm Mpk Cpu Isolation Bytes CopySafe Storage BootInfo.

#[local] Open Scope Z_scope.

Definition CRT_CONTROLLER_ADDRESS_PORT : Z := 0x3D4.
Definition CRT_CONTROLLER_DATA_PORT : Z := 0x3D5.
Definition CURSOR_START_REGISTER : Z := 0x0A.
Definition CURSOR_DISABLE : Z := 0x20.
Definition ATTRIBUTE_BLACK : Z := 0x00.
Definition ATTRIBUTE_LIGHTGREY : Z := 0x07.
Definition COLS : nat := 80.
Definition ROWS : nat := 25.
Definition VGA_BUFFER_ADDRESS : Z := 0xB8000.

(** [b'\n'] *)
Definition newline : Z := 10.

Record VgaCharacter := mkChar { character : Z; attribute : Z }.

(** The core and its memory, the bytes sent to ports, the text buffer, and the
    variables of [VGA_SCREEN]. *)
Record Vga (F : Type) := mkVga {
  bay : Bay F;
  ports : list (Z * Z);
  buffer : list (list VgaCharacter);
  current_col : nat;
  current_row : nat;
  is_initialized : bool
}.
Arguments mkVga {F} _ _ _ _ _ _.
Arguments bay {F} _.
Arguments ports {F} _.
Arguments buffer {F} _.
Arguments current_col {F} _.
Arguments current_row {F} _.
Arguments is_initialized {F} _.

Section vga.

Context {F : Type} `{FrameSource F}.
Context (root : Z) (maxphyaddr : Z) (supports_1gib_pages : bool).

Abbreviation Run := (M (Vga F)).

Definition with_bay (b : Bay F) (s : Vga F) : Vga F :=
  mkVga b (ports s) (buffer s) (current_col s) (current_row s) (is_initialized s).
Definition with_ports (l : list (Z * Z)) (s : Vga F) : Vga F :=
  mkVga (bay s) l (buffer s) (current_col s) (current_row s) (is_initialized s).
Definition with_buffer (t : list (list VgaCharacter)) (s : Vga F) : Vga F :=
  mkVga (bay s) (ports s) t (current_col s) (current_row s) (is_initialized s).
Definition with_cursor (col row : nat) (s : Vga F) : Vga F :=
  mkVga (bay s) (ports s) (buffer s) col row (is_initialized s).
Definition initialized (s : Vga F) : Vga F :=
  mkVga (bay s) (ports s) (buffer s) (current_col s) (current_row s) true.

Definition on_bay {A} (o : M (Bay F) A) : Run A := fun s =>
  let? (a, b) := o (bay s) in Done (a, with_bay b s).

Definition outb (port v : Z) : Run unit := modify (fun s => with_ports (ports s ++ [(port, v)]) s).

(** ** Characters of the buffer, two bytes each; the array bounds are checked. *)

Definition cell_address (r c : nat) : Z := VGA_BUFFER_ADDRESS + 2 * (Z.of_nat r * Z.of_nat COLS + Z.of_nat c).

Definition cell_access (r c : nat) (write : bool) : Run unit := fun s =>
  if (r <? ROWS)%nat && (c <? COLS)%nat && permitted root (cpu (bay s)) (cell_address r c) write
  then Done (tt, s) else Panic.

Definition get_cell (r c : nat) : Run VgaCharacter :=
  cell_access r c false ;;;
  let! t := gets buffer in
  lift (unwrap (t !! r ≫= (.!! c))).

Definition set_cell (r c : nat) (ch : VgaCharacter) : Run unit :=
  cell_access r c true ;;;
  modify (fun s => with_buffer (alter (fun l => <[c := ch]> l) r (buffer s)) s).

(** [for x in start..start + n] *)
Fixpoint for_range (start n : nat) (body : nat -> Run unit) : Run unit :=
  match n with
  | O => ret tt
  | S n => body start ;;; for_range (S start) n body
  end.

(** ** The methods of [VgaScreen] *)

(** [&mut *(self.buffer)] inside an isolated part *)
Definition buffer_ref : Run unit :=
  on_bay (on_cpu isolation_start) ;;;
  on_bay (safe_var root false) ;;;
  on_bay (on_cpu isolation_end).

Definition clear_row (row : nat) : Run unit :=
  buffer_ref ;;;
  for_range 0 COLS (fun c => set_cell row c (mkChar 0 ATTRIBUTE_BLACK)).

Definition screen_init : Run unit :=
  let flags := execute_disable (writable (device 0)) in
  on_bay (on_cpu (on_machine_mmu
    (map root maxphyaddr supports_1gib_pages BasePageSize VGA_BUFFER_ADDRESS VGA_BUFFER_ADDRESS 1 flags))) ;;;
  outb CRT_CONTROLLER_ADDRESS_PORT CURSOR_START_REGISTER ;;;
  outb CRT_CONTROLLER_DATA_PORT CURSOR_DISABLE ;;;
  for_range 0 ROWS clear_row ;;;
  on_bay (safe_var root true) ;;;
  modify initialized.

(** The variables of [VGA_SCREEN] outside isolated parts *)
Definition self_var {A} (f : Vga F -> A) : Run A :=
  on_bay (safe_var root false) ;;;
  gets f.

Definition set_cursor (col row : nat) : Run unit :=
  on_bay (safe_var root true) ;;;
  modify (with_cursor col row).

Definition scroll : Run unit :=
  buffer_ref ;;;
  for_range 1 (ROWS - 1) (fun r =>
    for_range 0 COLS (fun c =>
      on_bay (safe_var root false) ;;;
      let! ch := get_cell r c in
      set_cell (r - 1) c ch)) ;;;
  clear_row (ROWS - 1).

Definition screen_write_byte (byte : Z) : Run unit :=
  let! i := self_var is_initialized in
  if i : bool then
    let! col := self_var current_col in
    let! row := self_var current_row in
    (if (byte =? newline) || (col =? COLS)%nat then set_cursor 0 (row + 1) else ret tt) ;;;
    let! row := self_var current_row in
    (if (row =? ROWS)%nat then
       scroll ;;;
       let! col := gets current_col in
       set_cursor col (ROWS - 1)
     else ret tt) ;;;
    if negb (byte =? newline) then
      buffer_ref ;;;
      let! row := self_var current_row in
      let! col := self_var current_col in
      set_cell row col (mkChar byte ATTRIBUTE_LIGHTGREY) ;;;
      set_cursor (col + 1) row
    else ret tt
  else ret tt.

Definition init : Run unit := screen_init.
Definition write_byte (byte : Z) : Run unit := screen_write_byte byte.

Fixpoint write_bytes (bs : list Z) : Run unit :=
  match bs with
  | [] => ret tt
  | b :: bs => write_byte b ;;; write_bytes bs
  end.

End vga.

(** ** The terminal: what the screen is to show

    The text as lines of at most 80 characters; the screen shows the last 25 lines. *)

Definition push_char (text : list (list Z)) (b : Z) : list (list Z) :=
  match rev text with
  | [] => []
  | line :: before =>
      if b =? newline then text ++ [[]]
      else if (length line =? COLS)%nat then text ++ [[b]]
      else rev before ++ [line ++ [b]]
  end.

Definition typed (bs : list Z) : list (list Z) := fold_left push_char bs [[]].

Definition blank : VgaCharacter := mkChar 0 ATTRIBUTE_BLACK.
Definition shown (line : list Z) : list VgaCharacter :=
  ((fun b => mkChar b ATTRIBUTE_LIGHTGREY) <$> line) ++ replicate (COLS - length line) blank.
Definition visible (text : list (list Z)) : list (list Z) := drop (length text - ROWS) text.
Definition display (text : list (list Z)) : list (list VgaCharacter) :=
  (shown <$> visible text) ++ replicate (ROWS - length text) (replicate COLS blank).

(** ** Steps of the screen *)

Section correct.

Context {F : Type} `{FrameSource F}.
Context (root : Z) (maxphyaddr : Z) (supports_1gib_pages : bool).

Implicit Types (s : Vga F).

(** The buffer may be written, and the variables of the kernel can be used in isolated
    parts too: their pages have no key yet, as before [mm::init]. *)
Record usable s : Prop := {
  us_pkru : in_u32 (pkru_of (cpu (bay s)));
  us_safe : perm_of (pkru_of (cpu (bay s))) Mm.SAFE_MEM_REGION = MpkRw;
  us_vars : unsafe_open root (cpu (bay s)) safe_data_start 1;
  us_cells : open root (cpu (bay s)) VGA_BUFFER_ADDRESS 4000 true
}.

(** [s'] is on the same core as [s], some gates later. *)
Definition same_core s s' : Prop :=
  ports s' = ports s /\ exists m, bay s' = with_cpu m (bay s) /\
    gated (cpu (bay s)) m (regs (cpu (bay s)) RSP) (pkru_of (cpu (bay s))).

Lemma same_core_refl s : same_core s s.
Proof. split; [done|]. exists (cpu (bay s)). split; [by destruct (bay s)|]. by split. Qed.

Lemma same_core_trans s s1 s2 : same_core s s1 -> same_core s1 s2 -> same_core s s2.
Proof.
  intros (P1 & m1 & B1 & G1) (P2 & m2 & B2 & G2). split; [by rewrite P2|]. exists m2. rewrite B1 in *. cbn in *. split; [done|].
  rewrite (gt_sp _ _ _ _ G1), (gt_pkru _ _ _ _ G1) in G2. by eapply gated_trans.
Qed.

Lemma usable_same s s' : same_core s s' -> usable s -> usable s'.
Proof.
  intros (_ & m & B & G) [U1 U2 U3 U4]. split; rewrite B; cbn [cpu with_cpu]; rewrite ?(gt_pkru _ _ _ _ G); try done.
  - intros x Hx. destruct (U3 x Hx) as [P K]. split; [by rewrite (permitted_same root _ _ _ _ _ G)|].
    unfold page_key in *. by rewrite (gt_mmu _ _ _ _ G).
  - by eapply open_same.
Qed.

(** What the screen holds: buffer, column, row, and whether it is initialised. *)
Definition screen_of s := (buffer s, current_col s, current_row s, is_initialized s).

(** [o] returns [v] and turns the screen [P] into [Q]. *)
Definition turns {A} (o : M (Vga F) A) (v : A) (P Q : list (list VgaCharacter) * nat * nat * bool) : Prop :=
  forall s, usable s -> screen_of s = P ->
  exists s', o s = Done (v, s') /\ same_core s s' /\ screen_of s' = Q.

Lemma turns_bind {A B} (o : M (Vga F) A) (k : A -> M (Vga F) B) v w P Q R :
  turns o v P Q -> turns (k v) w Q R -> turns (bind o k) w P R.
Proof.
  intros Ho Hk s U E. destruct (Ho s U E) as (s1 & E1 & C1 & Q1).
  destruct (Hk s1 (usable_same _ _ C1 U) Q1) as (s2 & E2 & C2 & Q2). exists s2.
  split_and!; [by rewrite (bind_done _ _ _ _ _ E1)|by eapply same_core_trans|done].
Qed.

Lemma turns_ret {A} (v : A) P : turns (ret v) v P P.
Proof. intros s U E. exists s. split_and!; [done|apply same_core_refl|done]. Qed.

Lemma turns_gets {A} (f : Vga F -> A) v P : (forall s, screen_of s = P -> f s = v) -> turns (gets f) v P P.
Proof. intros Hf s U E. exists s. split_and!; [by unfold gets; rewrite (Hf s E)|apply same_core_refl|done]. Qed.

Lemma turns_safe_var w P : turns (on_bay (safe_var root w)) tt P P.
Proof.
  intros s U E. exists s. split_and!; [|apply same_core_refl|done]. unfold on_bay. rewrite safe_var_run; [by destruct s|].
  destruct (us_vars _ U safe_data_start) as [Hp _]; [lia|]. destruct w; [done|by apply permitted_write_read].
Qed.

Lemma turns_self_var {A} (f : Vga F -> A) v P : (forall s, screen_of s = P -> f s = v) -> turns (self_var root f) v P P.
Proof. intros Hf. eapply turns_bind; [apply turns_safe_var|by apply turns_gets]. Qed.

Lemma turns_set_cursor t c r i c' r' : turns (set_cursor root c' r') tt (t, c, r, i) (t, c', r', i).
Proof.
  eapply turns_bind; [apply turns_safe_var|]. intros s U [= <- <- <- <-]. exists (with_cursor c' r' s).
  split_and!; [done|apply (same_core_refl s)|done].
Qed.

Lemma turns_buffer_ref P : turns (buffer_ref root) tt P P.
Proof.
  intros s U E. destruct (bay_start (bay s) (us_pkru _ U)) as (m1 & E1 & G1).
  assert (Hv : permitted root m1 safe_data_start false = true)
    by (apply (unsafe_open_gated root _ _ _ _ 1 false G1 (us_vars _ U)); lia).
  destruct (isolation_end_spec m1) as (m2 & E2 & G2).
  { rewrite (gt_pkru _ _ _ _ G1). apply isolated_pkru_u32, U. }
  exists (with_bay (with_cpu m2 (bay s)) s). split_and!; [|split; [done|]|exact E].
  - unfold buffer_ref. rewrite (bind_done _ _ _ tt (with_bay (with_cpu m1 (bay s)) s)) by (unfold on_bay; by rewrite E1).
    rewrite (bind_done _ _ _ tt (with_bay (with_cpu m1 (bay s)) s)) by (unfold on_bay; by rewrite safe_var_run).
    unfold on_bay, on_cpu. cbn [bay with_bay cpu with_cpu]. by rewrite E2.
  - exists m2. split; [done|]. rewrite (gt_pkru _ _ _ _ G1), restored_isolated in G2 by apply U.
    rewrite (gt_sp _ _ _ _ G1) in G2. by eapply gated_trans.
Qed.

Lemma cell_access_run s r c w : usable s -> (r < ROWS)%nat -> (c < COLS)%nat -> cell_access root r c w s = Done (tt, s).
Proof.
  intros U Hr Hc. unfold cell_access. rewrite (proj2 (Nat.ltb_lt _ _) Hr), (proj2 (Nat.ltb_lt _ _) Hc). cbn [andb].
  assert (Hp : permitted root (cpu (bay s)) (cell_address r c) true = true).
  { apply (us_cells _ U). unfold cell_address. unfold ROWS, COLS in *. lia. }
  destruct w; [by rewrite Hp|]. by rewrite permitted_write_read.
Qed.

(** A buffer of 25 rows of 80 characters *)
Definition grid (t : list (list VgaCharacter)) : Prop := length t = ROWS /\ Forall (fun l => length l = COLS) t.

Lemma turns_set_cell r c ch t col row i :
  (r < ROWS)%nat -> (c < COLS)%nat ->
  turns (set_cell root r c ch) tt (t, col, row, i) (alter (fun l => <[c := ch]> l) r t, col, row, i).
Proof.
  intros Hr Hc s U [= <- <- <- <-]. exists (with_buffer (alter (fun l => <[c := ch]> l) r (buffer s)) s).
  split_and!; [|apply (same_core_refl s)|done]. unfold set_cell. by rewrite (bind_done _ _ _ _ _ (cell_access_run s r c true U Hr Hc)).
Qed.

Lemma turns_get_cell r c ch t col row i :
  (r < ROWS)%nat -> (c < COLS)%nat -> t !! r ≫= (.!! c) = Some ch ->
  turns (get_cell root r c) ch (t, col, row, i) (t, col, row, i).
Proof.
  intros Hr Hc E s U [= <- <- <- <-]. exists s. split_and!; [|apply same_core_refl|reflexivity].
  unfold get_cell. rewrite (bind_done _ _ _ _ _ (cell_access_run s r c false U Hr Hc)), bind_gets. by rewrite E.
Qed.

(** Loops: [P n] is the screen after [n] rounds. *)
Lemma turns_for_range start n body (P : nat -> list (list VgaCharacter) * nat * nat * bool) :
  (forall k, (k < n)%nat -> turns (body (start + k)%nat) tt (P k) (P (S k))) ->
  turns (for_range start n body) tt (P 0%nat) (P n).
Proof.
  revert start P. induction n as [|n IH]; intros start P Hb; [apply turns_ret|].
  eapply turns_bind; [specialize (Hb 0%nat); rewrite Nat.add_0_r in Hb; apply Hb; lia|].
  apply (IH (S start) (fun k => P (S k))). intros k Hk. specialize (Hb (S k)).
  rewrite <- Nat.add_succ_comm in Hb. apply Hb. lia.
Qed.

(** *** Clearing and scrolling *)

Lemma alter_row f g (t : list (list VgaCharacter)) r :
  grid t -> (forall l, length l = COLS -> f l = g l) -> alter f r t = alter g r t.
Proof.
  intros [_ Hl] E. apply list_alter_ext; [|done]. intros l El. apply E. by apply (Forall_lookup_1 _ _ _ _ Hl El).
Qed.

Lemma overwrite_step (src l : list VgaCharacter) n x :
  src !! n = Some x -> (n < length l)%nat -> <[n := x]> (take n src ++ drop n l) = take (S n) src ++ drop (S n) l.
Proof.
  intros Ex Hn. assert (Hs : length (take n src) = n) by (rewrite length_take; apply lookup_lt_Some in Ex; lia).
  destruct (lookup_lt_is_Some_2 l n Hn) as [y Ey]. rewrite (drop_S l y n Ey), insert_app_r_alt by lia.
  rewrite Hs, Nat.sub_diag. cbn. by rewrite (take_S_r _ _ _ Ex), <- (assoc_L app).
Qed.

(** Writing the row [src] over row [r], character by character. *)
Lemma turns_overwrite r src (body : nat -> M (Vga F) unit) t col row i :
  grid t -> length src = COLS ->
  (forall c x t', (c < COLS)%nat -> src !! c = Some x -> (forall j, j <> r -> t' !! j = t !! j) ->
     turns (body c) tt (t', col, row, i) (alter (fun l => <[c := x]> l) r t', col, row, i)) ->
  turns (for_range 0 COLS body) tt (t, col, row, i) (alter (fun _ => src) r t, col, row, i).
Proof.
  intros G Hs Hb. pose (P c := alter (fun l => take c src ++ drop c l) r t).
  assert (E0 : t = P 0%nat) by (unfold P; rewrite (alter_row _ id) by (done || by intros); by rewrite list_alter_id).
  assert (En : alter (fun _ => src) r t = P COLS).
  { unfold P. apply alter_row; [done|]. intros l Hl. by rewrite take_ge, drop_ge, app_nil_r by lia. }
  rewrite En. rewrite E0 at 1. apply (turns_for_range 0 COLS body (fun c => (P c, col, row, i))). intros c Hc.
  destruct (lookup_lt_is_Some_2 src c) as [x Ex]; [lia|].
  assert (ES : P (S c) = alter (fun l => <[c := x]> l) r (P c)).
  { unfold P. rewrite list_alter_alter_eq. apply alter_row; [done|]. intros l Hl. cbn.
    rewrite overwrite_step by (done || lia). done. }
  rewrite ES. apply Hb; [done|done|]. intros j Hj. unfold P. by apply list_lookup_alter_ne.
Qed.

Definition blank_row : list VgaCharacter := replicate COLS blank.

Lemma turns_clear_row r t col row i :
  grid t -> (r < ROWS)%nat -> turns (clear_row root r) tt (t, col, row, i) (alter (fun _ => blank_row) r t, col, row, i).
Proof.
  intros G Hr. eapply turns_bind; [apply turns_buffer_ref|]. apply turns_overwrite; [done|apply length_replicate|].
  intros c x t' Hc [-> _]%lookup_replicate_1 _. by apply turns_set_cell.
Qed.

(** The first [k] rows moved up by one *)
Definition shifted (k : nat) (t : list (list VgaCharacter)) : list (list VgaCharacter) := take k (drop 1 t) ++ drop k t.

Lemma shifted_grid k t : grid t -> (k < ROWS)%nat -> grid (shifted k t).
Proof.
  intros [Hl Hf] Hk. split.
  - unfold shifted. rewrite length_app, length_take, !length_drop. lia.
  - apply Forall_app. split; [by apply Forall_take, Forall_drop|by apply Forall_drop].
Qed.

Lemma shifted_lookup k t : grid t -> (S k < ROWS)%nat -> shifted k t !! S k = t !! S k.
Proof.
  intros [Hl Hf] Hk. unfold shifted. rewrite lookup_app_r; rewrite length_take, length_drop; [|lia].
  rewrite lookup_drop. f_equal. lia.
Qed.

Lemma shifted_step k t src :
  grid t -> (S k < ROWS)%nat -> t !! S k = Some src -> alter (fun _ => src) k (shifted k t) = shifted (S k) t.
Proof.
  intros [Hl Hf] Hk Es. unfold shifted. assert (Hn : length (take k (drop 1 t)) = k) by (rewrite length_take, length_drop; lia).
  rewrite <- (Nat.add_0_r k) at 1. rewrite <- Hn at 1. rewrite alter_app_r.
  destruct (lookup_lt_is_Some_2 t k) as [y Ey]; [lia|]. rewrite (drop_S t y k Ey). cbn [alter list_alter].
  rewrite (take_S_r _ _ src), <- (assoc_L app); [done|]. by rewrite lookup_drop.
Qed.

Lemma turns_scroll t col row i :
  grid t -> turns (scroll root) tt (t, col, row, i) (drop 1 t ++ [blank_row], col, row, i).
Proof.
  intros G. eapply turns_bind; [apply turns_buffer_ref|]. apply (turns_bind _ _ tt _ _ (shifted (ROWS - 1) t, col, row, i)).
  - assert (E0 : shifted 0 t = t) by done. rewrite <- E0 at 1.
    apply (turns_for_range 1 (ROWS - 1) _ (fun k => (shifted k t, col, row, i))). intros k Hk.
    destruct (lookup_lt_is_Some_2 t (S k)) as [src Es]; [destruct G; unfold ROWS in *; lia|].
    assert (Hs : length src = COLS) by (destruct G as [_ Hf]; by apply (Forall_lookup_1 _ _ _ _ Hf Es)).
    rewrite <- (shifted_step k t src) by (done || unfold ROWS in *; lia).
    apply turns_overwrite; [apply shifted_grid; [done|unfold ROWS in *; lia]|done|]. intros c x t' Hc Ex Ht.
    eapply turns_bind; [apply turns_safe_var|]. eapply turns_bind.
    + apply (turns_get_cell _ c x); [unfold ROWS in *; lia|done|].
      rewrite Ht, Nat.add_1_l, shifted_lookup, Es by (done || unfold ROWS in *; lia). done.
    + replace (1 + k - 1)%nat with k by lia. apply turns_set_cell; [unfold ROWS in *; lia|done].
  - assert (Hl : exists y, drop (ROWS - 1) t = [y]).
    { destruct G as [Hl _]. assert (Hd : length (drop (ROWS - 1) t) = 1%nat) by (by rewrite length_drop, Hl).
      destruct (drop (ROWS - 1) t) as [|y [|]]; try done. by exists y. }
    assert (E : alter (fun _ => blank_row) (ROWS - 1)%nat (shifted (ROWS - 1) t) = drop 1 t ++ [blank_row]).
    { destruct Hl as [y Ey]. unfold shifted. rewrite Ey. destruct G as [Hl _].
      assert (Hd : length (drop 1 t) = (ROWS - 1)%nat) by (by rewrite length_drop, Hl).
      rewrite take_ge by lia. rewrite <- Hd, <- (Nat.add_0_r (length (drop 1 t))). by rewrite alter_app_r. }
    rewrite <- E. apply turns_clear_row; [apply shifted_grid; [done|]|]; unfold ROWS; lia.
Qed.

(** *** Typing a character *)

(** Lines of at most 80 characters, at least one of them *)
Definition lines_ok (text : list (list Z)) : Prop := text <> [] /\ Forall (fun l => (length l <= COLS)%nat) text.

Lemma push_char_snoc before line b :
  push_char (before ++ [line]) b =
    if b =? newline then (before ++ [line]) ++ [[]]
    else if (length line =? COLS)%nat then (before ++ [line]) ++ [[b]]
    else before ++ [line ++ [b]].
Proof. unfold push_char. rewrite rev_app_distr. cbn. by rewrite rev_involutive. Qed.

Lemma push_char_ok text b : lines_ok text -> lines_ok (push_char text b).
Proof.
  intros [Hn Hf]. destruct text as [|line before _] using rev_ind; [done|]. rewrite push_char_snoc.
  apply Forall_app in Hf as [Hf Hl]. rewrite Forall_singleton in Hl.
  assert (Hs : forall x, (length x <= COLS)%nat -> forall t, Forall (fun l => (length l <= COLS)%nat) t -> lines_ok (t ++ [x])).
  { intros x Hx t Ht. split; [by destruct t|]. apply Forall_app. split; [done|by apply Forall_singleton]. }
  destruct (b =? newline); [|destruct (Nat.eqb_spec (length line) COLS)].
  - apply Hs; [simpl; lia|]. apply Forall_app. split; [done|]. by constructor.
  - apply Hs; [simpl; unfold COLS; lia|]. apply Forall_app. split; [done|]. by constructor.
  - apply Hs; [rewrite length_app; simpl; lia|done].
Qed.

Lemma typed_snoc bs b : typed (bs ++ [b]) = push_char (typed bs) b.
Proof. unfold typed. by rewrite fold_left_app. Qed.

Lemma typed_ok bs : lines_ok (typed bs).
Proof.
  induction bs as [|b bs IH] using rev_ind; [|rewrite typed_snoc; by apply push_char_ok].
  split; [done|]. apply Forall_singleton. simpl. lia.
Qed.

Lemma display_grid text : lines_ok text -> grid (display text).
Proof.
  intros [_ Hf]. unfold display, visible. split.
  - rewrite length_app, length_fmap, length_drop, length_replicate. lia.
  - apply Forall_app. split; [|by apply Forall_replicate, length_replicate].
    apply Forall_fmap, Forall_drop, (Forall_impl _ _ _ Hf). intros l Hl. cbn. unfold shown.
    rewrite length_app, length_fmap, length_replicate. lia.
Qed.

Lemma shown_nil : shown [] = blank_row.
Proof. unfold shown, blank_row. by rewrite Nat.sub_0_r. Qed.

(** A new line, with room on the screen and without. *)
Lemma display_room text : (length text < ROWS)%nat -> display (text ++ [[]]) = display text.
Proof.
  intros Hl. unfold display, visible. rewrite length_app. cbn [length].
  replace (length text + 1 - ROWS)%nat with 0%nat by lia. replace (length text - ROWS)%nat with 0%nat by lia.
  rewrite !drop_0, fmap_app, <- (assoc_L app). f_equal. cbn [fmap list_fmap app]. rewrite shown_nil.
  by replace (ROWS - length text)%nat with (S (ROWS - (length text + 1))) by lia.
Qed.

Lemma display_scrolled text :
  (ROWS <= length text)%nat -> display (text ++ [[]]) = drop 1 (display text) ++ [blank_row].
Proof.
  intros Hl. assert (HR : ROWS = 25%nat) by done. unfold display, visible. rewrite length_app. cbn [length].
  replace (ROWS - (length text + 1))%nat with 0%nat by lia. replace (ROWS - length text)%nat with 0%nat by lia.
  cbn [replicate]. rewrite !app_nil_r. rewrite drop_app_le by lia. rewrite fmap_app. cbn [fmap list_fmap].
  rewrite shown_nil. f_equal. rewrite <- fmap_drop, drop_drop. do 2 f_equal. lia.
Qed.

(** A character at the end of the last line. *)
Lemma shown_snoc line b :
  (length line < COLS)%nat -> <[length line := mkChar b ATTRIBUTE_LIGHTGREY]> (shown line) = shown (line ++ [b]).
Proof.
  intros Hl. unfold shown. rewrite length_app, fmap_app. cbn [length].
  replace (COLS - length line)%nat with (S (COLS - (length line + 1))) by lia.
  rewrite insert_app_r_alt by (rewrite length_fmap; lia). rewrite length_fmap, Nat.sub_diag. cbn.
  by rewrite <- (assoc_L app).
Qed.

Lemma display_snoc before line b :
  (length line < COLS)%nat ->
  alter (fun l => <[length line := mkChar b ATTRIBUTE_LIGHTGREY]> l) (Nat.min (length before) (ROWS - 1)) (display (before ++ [line])) =
    display (before ++ [line ++ [b]]).
Proof.
  intros Hl. assert (HR : ROWS = 25%nat) by done. unfold display, visible. rewrite !length_app. cbn [length]. rewrite !drop_app_le by lia.
  rewrite !fmap_app, <- !(assoc_L app). set (p := shown <$> _).
  assert (Hp : length p = Nat.min (length before) (ROWS - 1)).
  { unfold p. rewrite length_fmap, length_drop. unfold ROWS. lia. }
  rewrite <- Hp, <- (Nat.add_0_r (length p)), alter_app_r. f_equal. cbn [fmap list_fmap app alter list_alter]. f_equal.
  by apply shown_snoc.
Qed.

(** Where the cursor is: behind the last line, on the last row in use. *)
Definition cursor_col (text : list (list Z)) : nat := length (default [] (last text)).
Definition cursor_row (text : list (list Z)) : nat := Nat.min (length text) ROWS - 1.

Definition showing (text : list (list Z)) : list (list VgaCharacter) * nat * nat * bool :=
  (display text, cursor_col text, cursor_row text, true).

Lemma cursor_snoc before line :
  cursor_col (before ++ [line]) = length line /\ cursor_row (before ++ [line]) = Nat.min (length before) (ROWS - 1).
Proof. unfold cursor_col, cursor_row. rewrite last_snoc, length_app. split; [done|]. cbn. unfold ROWS. lia. Qed.

(** The line break before a character, if there is one. *)
Definition broken (text : list (list Z)) (b : Z) : list (list Z) :=
  if (b =? newline) || (cursor_col text =? COLS)%nat then text ++ [[]] else text.

Lemma turns_break text b {A} (k : M (Vga F) A) v Q :
  lines_ok text -> turns k v (showing (broken text b)) Q ->
  turns (
    let! col := self_var root current_col in
    let! row := self_var root current_row in
    (if (b =? newline) || (col =? COLS)%nat then set_cursor root 0 (row + 1) else ret tt) ;;;
    let! row := self_var root current_row in
    (if (row =? ROWS)%nat then
       scroll root ;;;
       let! col := gets current_col in
       set_cursor root col (ROWS - 1)
     else ret tt) ;;; k) v (showing text) Q.
Proof.
  intros Ht Hk. eapply turns_bind; [by apply turns_self_var; intros s [= _ ->]|].
  eapply turns_bind; [by apply turns_self_var; intros s [= _ _ ->]|].
  assert (HR : ROWS = 25%nat) by done. assert (Hr : (cursor_row text < ROWS)%nat) by (unfold cursor_row; lia).
  unfold broken in Hk. destruct (_ || _).
  - eapply turns_bind; [apply turns_set_cursor|]. eapply turns_bind; [by apply turns_self_var; intros s [= _ _ ->]|].
    destruct (cursor_snoc text []) as [Ec Er]. unfold showing in Hk. rewrite Ec, Er in Hk. cbn [length] in Hk.
    assert (Hn : (0 < length text)%nat) by (destruct Ht as [Hn _]; destruct text; [done|simpl; lia]).
    destruct (Nat.eqb_spec (cursor_row text + 1) ROWS) as [E|E]; unfold cursor_row in *.
    + eapply turns_bind; [|exact Hk]. eapply turns_bind; [by apply turns_scroll, display_grid|].
      rewrite <- display_scrolled by lia.
      eapply turns_bind; [by apply (turns_gets _ 0%nat); intros s [= _ ->]|]. rewrite (Nat.min_r (length text) (ROWS - 1)) by lia. apply turns_set_cursor.
    + eapply turns_bind; [apply turns_ret|]. rewrite display_room in Hk by lia.
      replace (Nat.min (length text) ROWS - 1 + 1)%nat with (Nat.min (length text) (ROWS - 1)) by lia. exact Hk.
  - eapply turns_bind; [apply turns_ret|]. eapply turns_bind; [by apply turns_self_var; intros s [= _ _ ->]|].
    destruct (Nat.eqb_spec (cursor_row text) ROWS); [lia|]. eapply turns_bind; [apply turns_ret|exact Hk].
Qed.

Lemma turns_type_char before line b :
  (length line < COLS)%nat ->
  turns (buffer_ref root ;;;
    let! row := self_var root current_row in
    let! col := self_var root current_col in
    set_cell root row col (mkChar b ATTRIBUTE_LIGHTGREY) ;;;
    set_cursor root (col + 1) row) tt (showing (before ++ [line])) (showing (before ++ [line ++ [b]])).
Proof.
  intros Hl. unfold showing. destruct (cursor_snoc before line) as [-> ->], (cursor_snoc before (line ++ [b])) as [-> ->].
  eapply turns_bind; [apply turns_buffer_ref|]. eapply turns_bind; [by apply turns_self_var; intros s [= _ _ ->]|].
  eapply turns_bind; [by apply turns_self_var; intros s [= _ ->]|].
  eapply turns_bind; [apply turns_set_cell; unfold ROWS in *; lia|]. rewrite display_snoc by done.
  rewrite length_app. apply turns_set_cursor.
Qed.

Lemma turns_write_byte text b :
  lines_ok text -> turns (write_byte root b) tt (showing text) (showing (push_char text b)).
Proof.
  intros Ht. unfold write_byte, screen_write_byte. eapply turns_bind; [by apply turns_self_var; intros s [= _ _ _ ->]|].
  cbv iota. apply turns_break; [done|]. pose proof Ht as [Hn Hf].
  destruct text as [|line before _] using rev_ind; [done|]. rewrite push_char_snoc. unfold broken.
  destruct (cursor_snoc before line) as [-> _]. rewrite Forall_app, Forall_singleton in Hf. destruct Hf as [_ Hl].
  destruct (b =? newline); [apply turns_ret|]. destruct (Nat.eqb_spec (length line) COLS).
  - apply (turns_type_char (before ++ [line]) []). unfold COLS. simpl. lia.
  - apply turns_type_char. lia.
Qed.

Lemma turns_write_bytes bs text :
  lines_ok text -> turns (write_bytes root bs) tt (showing text) (showing (fold_left push_char bs text)).
Proof.
  revert text. induction bs as [|b bs IH]; intros text Ht; [apply turns_ret|].
  eapply turns_bind; [by apply turns_write_byte|]. by apply IH, push_char_ok.
Qed.

Lemma turns_clear t col row i :
  grid t -> turns (for_range 0 ROWS (clear_row root)) tt (t, col, row, i) (replicate ROWS blank_row, col, row, i).
Proof.
  intros G. pose proof G as [Hl _]. pose (P k := replicate k blank_row ++ drop k t).
  assert (En : replicate ROWS blank_row = P ROWS) by (unfold P; by rewrite drop_ge, app_nil_r by lia).
  rewrite En. apply (turns_for_range 0 ROWS _ (fun k => (P k, col, row, i))). intros k Hk.
  destruct (lookup_lt_is_Some_2 t k) as [y Ey]; [lia|].
  assert (ES : P (S k) = alter (fun _ => blank_row) k (P k)).
  { unfold P. rewrite (drop_S t y k Ey), alter_app_r_alt, length_replicate, Nat.sub_diag by (rewrite length_replicate; lia).
    cbn [alter list_alter]. rewrite replicate_S_end, <- (assoc_L app). done. }
  rewrite ES. apply turns_clear_row; [|done]. destruct G as [_ Hf]. split.
  - unfold P. rewrite length_app, length_replicate, length_drop. lia.
  - apply Forall_app. split; [apply Forall_replicate, length_replicate|by apply Forall_drop].
Qed.

(** The state after the buffer is mapped. *)
Definition mapped s (m : Machine F) : Vga F := with_bay (with_cpu m (bay s)) s.

(** Once the pages of [.safe_data] have their key, the pointer to the buffer cannot be read
    inside an isolated part: the next character faults. *)
Theorem vga_faults_when_keyed b s :
  in_u32 (pkru_of (cpu (bay s))) -> permitted root (cpu (bay s)) safe_data_start true = true ->
  page_key root (cpu (bay s)) safe_data_start = Some Mm.SAFE_MEM_REGION ->
  is_initialized s = true -> (current_col s < COLS)%nat -> (current_row s < ROWS)%nat -> b <> newline ->
  write_byte root b s = Panic.
Proof.
  intros Hp Hw Hk Hi Hc Hr Hb. pose proof (permitted_write_read _ _ _ Hw) as Hrd.
  assert (Hv : forall {A} (f : Vga F -> A) B (k : A -> M (Vga F) B), bind (self_var root f) k s = k (f s) s).
  { intros A f B k. unfold self_var. rewrite bind_assoc. rewrite (bind_done _ _ s tt s); [done|].
    unfold on_bay. rewrite safe_var_run by done. by destruct s. }
  unfold write_byte, screen_write_byte. rewrite Hv, Hi, !Hv. rewrite (proj2 (Z.eqb_neq _ _) Hb).
  rewrite (proj2 (Nat.eqb_neq (current_col s) COLS)) by lia. cbn [orb negb]. rewrite bind_ret, Hv.
  rewrite (proj2 (Nat.eqb_neq (current_row s) ROWS)) by lia. rewrite bind_ret.
  destruct (bay_start (bay s) Hp) as (m1 & E1 & G1). unfold buffer_ref. rewrite bind_assoc.
  rewrite (bind_done _ _ s tt (with_bay (with_cpu m1 (bay s)) s)) by (unfold on_bay; by rewrite E1).
  rewrite bind_assoc. unfold bind at 1, on_bay, safe_var. cbn [bay with_bay cpu with_cpu].
  assert (Hf : permitted root m1 safe_data_start false = false).
  { destruct (permitted root m1 safe_data_start false) eqn:Ep; [|done]. exfalso.
    apply permitted_key in Ep as (k & Hk' & Hn). unfold page_key in *. rewrite (gt_mmu _ _ _ _ G1), Hk in Hk'.
    injection Hk' as <-. apply Hn. by rewrite (gt_pkru _ _ _ _ G1), isolated_perm, decide_True by (by vm_compute). }
  by rewrite Hf.
Qed.

(** C32. The screen is a terminal until [mm::init] gives [.safe_data] its key, and
    then it is lost. While the variables of the module and the buffer can be accessed
    in isolated parts ([usable]), after [init] and any bytes written, the buffer shows
    the last 25 lines of the text, which breaks at newlines and after 80 characters,
    with the rest of the screen blank, and the cursor is behind the last character: no
    access is out of the bounds of the buffer, however long the text. In every state in
    which the key is set and the cursor is within a line, the next character that is
    not a newline faults. *)
Theorem vga_refines_terminal bs s m :
  on_machine_mmu (map root maxphyaddr supports_1gib_pages BasePageSize VGA_BUFFER_ADDRESS VGA_BUFFER_ADDRESS 1
    (execute_disable (writable (device 0)))) (cpu (bay s)) = Done (tt, m) ->
  usable (mapped s m) -> grid (buffer s) -> current_col s = 0%nat -> current_row s = 0%nat ->
  exists s', (init root maxphyaddr supports_1gib_pages ;;; write_bytes root bs) s = Done (tt, s') /\
    buffer s' = display (typed bs) /\ current_col s' = cursor_col (typed bs) /\ current_row s' = cursor_row (typed bs) /\
    ports s' = ports s ++ [(0x3D4, 0x0A); (0x3D5, 0x20)] /\
    forall b s2, is_initialized s2 = true -> in_u32 (pkru_of (cpu (bay s2))) -> permitted root (cpu (bay s2)) safe_data_start true = true ->
      page_key root (cpu (bay s2)) safe_data_start = Some Mm.SAFE_MEM_REGION ->
      (current_col s2 < COLS)%nat -> (current_row s2 < ROWS)%nat -> b <> newline -> write_byte root b s2 = Panic.
Proof.
  intros Em U G E1 E2.
  set (s1 := with_ports (ports s ++ [(0x3D4, 0x0A); (0x3D5, 0x20)]) (mapped s m)).
  assert (U1 : usable s1) by (destruct U; by split).
  destruct (turns_clear (buffer s) 0 0 (is_initialized s) G s1 U1) as (s2 & Er & C2 & Es2).
  { unfold screen_of, s1. cbn. by rewrite E1, E2. }
  pose proof (usable_same _ _ C2 U1) as U2.
  assert (Es3 : screen_of (initialized s2) = showing (typed [])) by (injection Es2 as Eb Ec Erow _; unfold screen_of; cbn; by rewrite Eb, Ec, Erow).
  assert (U3 : usable (initialized s2)) by (destruct U2; by split).
  destruct (turns_write_bytes bs (typed []) (typed_ok []) (initialized s2) U3 Es3) as (s4 & E4 & [P4 _] & Es4).
  exists s4. injection Es4 as Eb Ec Erow _. split_and!; [|done..|by rewrite P4; destruct C2 as [P2 _]|intros b s5 ? ? ? ? ? ? ?; by apply vga_faults_when_keyed].
  assert (E3 : on_bay (safe_var root true) s2 = Done (tt, s2)).
  { unfold on_bay. rewrite safe_var_run; [by destruct s2|]. destruct (us_vars _ U2 safe_data_start) as [Hp _]; [lia|done]. }
  unfold init, screen_init, outb. rewrite !bind_assoc. rewrite (bind_done _ _ s tt (mapped s m)).
  2: { unfold on_bay, on_cpu. by rewrite Em. }
  rewrite !bind_assoc, bind_modify, bind_assoc, bind_modify, bind_assoc.
  assert (Ep : with_ports (ports (with_ports (ports (mapped s m) ++ [(CRT_CONTROLLER_ADDRESS_PORT, CURSOR_START_REGISTER)]) (mapped s m)) ++
    [(CRT_CONTROLLER_DATA_PORT, CURSOR_DISABLE)]) (with_ports (ports (mapped s m) ++ [(CRT_CONTROLLER_ADDRESS_PORT, CURSOR_START_REGISTER)]) (mapped s m)) = s1).
  { unfold s1, with_ports, mapped, with_bay. cbn. by rewrite <- (assoc_L app). }
  rewrite Ep, (bind_done _ _ _ _ _ Er), bind_assoc, (bind_done _ _ _ _ _ E3), bind_modify. exact E4.
Qed.

End correct.

(** ** Examples *)

Section sample.

#[local] Existing Instance Paging.bump_source.

(** [.safe_data] is mapped without a key, as before [mm::init]. *)
Definition sample_space : Mmu Z :=
  run_state (map sample_root 39 false BasePageSize safe_data_start 0x800000 1 (writable 0)) sample.

Definition sample_machine : Machine Z := mkMachine sample_regs 0x202 0 0 0 ∅ (mkCore 0 sample_space) sample_task.

Definition sample_vga : Vga Z :=
  mkVga (mkBay sample_machine ∅ (replicate 100 0) 0 0) [] (replicate 25 (replicate 80 (mkChar 65 7))) 0 0 false.

Definition sample_mapped : Machine Z :=
  run_state (on_machine_mmu (map sample_root 39 false BasePageSize VGA_BUFFER_ADDRESS VGA_BUFFER_ADDRESS 1
    (execute_disable (writable (device 0))))) sample_machine.

Lemma vga_refines_terminal_witness :
  exists s', (init sample_root 39 false ;;; write_bytes sample_root [72; 105; newline; 33]) sample_vga = Done (tt, s') /\
    take 2 <$> take 2 (buffer s') = [[mkChar 72 7; mkChar 105 7]; [mkChar 33 7; blank]] /\
    current_col s' = 1%nat /\ current_row s' = 1%nat.
Proof.
  destruct (vga_refines_terminal sample_root 39 false [72; 105; newline; 33] sample_vga sample_mapped) as (s' & E & Eb & Ec & Er & _).
  - vm_compute. reflexivity.
  - split.
    + by vm_compute.
    + by vm_compute.
    + apply unsafe_test_ok. vm_compute. reflexivity.
    + apply open_test_ok. vm_compute. reflexivity.
  - split; [done|]. apply Forall_replicate. reflexivity.
  - done.
  - done.
  - exists s'. split; [exact E|]. rewrite Eb, Ec, Er. split_and!; vm_compute; reflexivity.
Defined.

Lemma vga_faults_when_keyed_witness :
  write_byte sample_root 65
    (initialized (with_bay CopySafe.sample_bay sample_vga)) = Panic.
Proof.
  apply (vga_faults_when_keyed sample_root); try (vm_compute; reflexivity).
  - by vm_compute.
  - simpl. unfold COLS. lia.
  - simpl. unfold ROWS. lia.
  - done.
Defined.

End sample.
