(* ===== verification/Apic.v ===== *)
(** * The interrupt controllers: src/arch/x86_64/kernel/apic.rs

    Registers of the local APIC, through MSRs (x2APIC) or a page of device memory
    (xAPIC), the one-shot timer, interrupts to other processors and the I/O APIC.

    What the hardware does is not code: [events] records what was sent to it, and
    [hardware] gives the value of a register after such a history. *)

From Stdlib Require Import ZArith Lia String.
From stdpp Require Import base numbers list gmap.
From S2P Require Import Prelude Pte Mmu Paging Mm Mpk Cpu Isolation Bytes CopySafe Storage BootInfo.

#[local] Open Scope Z_scope.

(** ** Constants of the file and of the x86 crate *)

Definition APIC_ICR2 : Z := 0x0310.
Definition APIC_DIV_CONF_DIVIDE_BY_8 : Z := 2.
Definition APIC_EOI_ACK : Z := 0.
Definition APIC_ICR_DELIVERY_MODE_FIXED : Z := 0x000.
Definition APIC_ICR_DELIVERY_STATUS_PENDING : Z := Z.shiftl 1 12.
Definition APIC_ICR_LEVEL_ASSERT : Z := Z.shiftl 1 14.
Definition APIC_LVT_MASK : Z := Z.shiftl 1 16.
Definition APIC_LVT_TIMER_TSC_DEADLINE : Z := Z.shiftl 1 18.
Definition APIC_SIVR_ENABLED : Z := Z.shiftl 1 8.
Definition IOAPIC_REG_VER : Z := 1.
Definition IOAPIC_REG_TABLE : Z := 0x10.
Definition TLB_FLUSH_INTERRUPT_NUMBER : Z := 112.
Definition WAKEUP_INTERRUPT_NUMBER : Z := 121.
Definition TIMER_INTERRUPT_NUMBER : Z := 123.
Definition ERROR_INTERRUPT_NUMBER : Z := 126.
Definition SPURIOUS_INTERRUPT_NUMBER : Z := 127.
Definition X2APIC_ENABLE : Z := Z.shiftl 1 10.

Definition IA32_APIC_BASE : Z := 0x1B.
Definition IA32_TSC_DEADLINE : Z := 0x6E0.
Definition IA32_X2APIC_TPR : Z := 0x808.
Definition IA32_X2APIC_EOI : Z := 0x80B.
Definition IA32_X2APIC_SIVR : Z := 0x80F.
Definition IA32_X2APIC_ICR : Z := 0x830.
Definition IA32_X2APIC_LVT_TIMER : Z := 0x832.
Definition IA32_X2APIC_LVT_THERMAL : Z := 0x833.
Definition IA32_X2APIC_LVT_PMI : Z := 0x834.
Definition IA32_X2APIC_LVT_LINT0 : Z := 0x835.
Definition IA32_X2APIC_LVT_LINT1 : Z := 0x836.
Definition IA32_X2APIC_LVT_ERROR : Z := 0x837.
Definition IA32_X2APIC_INIT_COUNT : Z := 0x838.
Definition IA32_X2APIC_CUR_COUNT : Z := 0x839.
Definition IA32_X2APIC_DIV_CONF : Z := 0x83E.

Definition U32_MAX : Z := 2 ^ 32 - 1.

(** ** The state *)

Inductive place := Msr (n : Z) | Mmio (a : Z).
Inductive event := Wr (p : place) (v : Z) | Rd (p : place) | Delay (microseconds : Z).

Record Apic (F : Type) := mkApic {
  bay : Bay F;
  events : list event;
  CPU_LOCAL_APIC_IDS : list Z;
  LOCAL_APIC_IDX : Z;
  LOCAL_APIC_ADDRESS : Z;
  IOAPIC_ADDRESS : Z;
  CALIBRATED_COUNTER_VALUE : Z
}.
Arguments mkApic {F} _ _ _ _ _ _ _.
Arguments bay {F} _.
Arguments events {F} _.
Arguments CPU_LOCAL_APIC_IDS {F} _.
Arguments LOCAL_APIC_IDX {F} _.
Arguments LOCAL_APIC_ADDRESS {F} _.
Arguments IOAPIC_ADDRESS {F} _.
Arguments CALIBRATED_COUNTER_VALUE {F} _.

(** [add_local_apic_id], on the array and the number of its used entries *)
Definition add_id (ids : list Z) (idx id : Z) : list Z * Z :=
  if 100 <=? idx then (ids, idx) else (<[Z.to_nat idx := id]> ids, idx + 1).

Section apic.

Context {F : Type} `{FrameSource F}.
Context (root BOOT_INFO : Z).
Context (hardware : list event -> place -> Z).
Context (supports_x2apic supports_tsc_deadline : bool) (frequency core_id : Z).

Abbreviation Run := (M (Apic F)).

Definition with_bay (b : Bay F) (s : Apic F) : Apic F :=
  mkApic b (events s) (CPU_LOCAL_APIC_IDS s) (LOCAL_APIC_IDX s) (LOCAL_APIC_ADDRESS s) (IOAPIC_ADDRESS s) (CALIBRATED_COUNTER_VALUE s).
Definition with_events (l : list event) (s : Apic F) : Apic F :=
  mkApic (bay s) l (CPU_LOCAL_APIC_IDS s) (LOCAL_APIC_IDX s) (LOCAL_APIC_ADDRESS s) (IOAPIC_ADDRESS s) (CALIBRATED_COUNTER_VALUE s).
Definition with_ids (ids : list Z) (n : Z) (s : Apic F) : Apic F :=
  mkApic (bay s) (events s) ids n (LOCAL_APIC_ADDRESS s) (IOAPIC_ADDRESS s) (CALIBRATED_COUNTER_VALUE s).
Definition with_calibration (v : Z) (s : Apic F) : Apic F :=
  mkApic (bay s) (events s) (CPU_LOCAL_APIC_IDS s) (LOCAL_APIC_IDX s) (LOCAL_APIC_ADDRESS s) (IOAPIC_ADDRESS s) v.

Definition on_bay {A} (o : M (Bay F) A) : Run A := fun s =>
  let? (a, b) := o (bay s) in Done (a, with_bay b s).

(** ** The hardware *)

Definition happen (e : event) : Run unit := modify (fun s => with_events (events s ++ [e]) s).

Definition wrmsr (n v : Z) : Run unit := happen (Wr (Msr n) v).

Definition rdmsr (n : Z) : Run Z :=
  let! h := gets events in
  happen (Rd (Msr n)) ;;;
  ret (hardware h (Msr n) mod W64).

(** Loads and stores of device memory, checked as all others. *)
Definition device_access (a : Z) (write : bool) : Run unit := fun s =>
  if permitted root (cpu (bay s)) a write then Done (tt, s) else Panic.

Definition mmio_write (a v : Z) : Run unit :=
  device_access a true ;;;
  happen (Wr (Mmio a) v).

Definition mmio_read (a : Z) : Run Z :=
  device_access a false ;;;
  let! h := gets events in
  happen (Rd (Mmio a)) ;;;
  ret (hardware h (Mmio a) mod W32).

Definition udelay (microseconds : Z) : Run unit := happen (Delay microseconds).

Definition safe_global (write : bool) : Run unit := on_bay (safe_var root write).
Definition start_isolation : Run unit := on_bay (on_cpu isolation_start).
Definition end_isolation : Run unit := on_bay (on_cpu isolation_end).

(** ** Registers of the local APIC *)

Definition translate_x2apic_msr_to_xapic_address (x2apic_msr : Z) : Run Z :=
  safe_global false ;;;
  let! a := gets LOCAL_APIC_ADDRESS in
  lift (add64 a (Z.shiftl (Z.land x2apic_msr 0xFF) 4)).

Definition local_apic_read (x2apic_msr : Z) : Run Z :=
  if supports_x2apic then
    let! v := rdmsr x2apic_msr in
    ret (v mod W32)
  else
    start_isolation ;;;
    let! a := translate_x2apic_msr_to_xapic_address x2apic_msr in
    let! temp := mmio_read a in
    end_isolation ;;;
    ret temp.

(** Waiting until the Delivery Status bit is clear; each round is an isolated load. *)
Fixpoint wait_delivered (fuel : nat) (a : Z) : Run unit :=
  match fuel with
  | O => out_of_fuel
  | S fuel =>
      start_isolation ;;;
      let! v := mmio_read a in
      end_isolation ;;;
      if 0 <? Z.land v APIC_ICR_DELIVERY_STATUS_PENDING then wait_delivered fuel a else ret tt
  end.

(** The reference [icr2] points into the storage, which is cleared before the store. *)
Definition write_icr2 (value : Z) : Run unit :=
  let destination := Z.land (Z.shiftr value 8) 0xFF000000 mod W32 in
  let! unsafe_storage := on_bay get_unsafe_storage in
  safe_global false ;;;
  let! a := gets LOCAL_APIC_ADDRESS in
  let! a := lift (add64 a APIC_ICR2) in
  on_bay (copy_from_safe root 4 a 1) ;;;
  start_isolation ;;;
  end_isolation ;;;
  on_bay (clear_unsafe_storage root) ;;;
  on_bay (store_bytes root unsafe_storage (le_bytes 4 destination)).

Definition local_apic_write (fuel : nat) (x2apic_msr value : Z) : Run unit :=
  if supports_x2apic then wrmsr x2apic_msr value
  else
    (if x2apic_msr =? IA32_X2APIC_ICR then write_icr2 value else ret tt) ;;;
    start_isolation ;;;
    let! a := translate_x2apic_msr_to_xapic_address x2apic_msr in
    end_isolation ;;;
    mmio_write a (value mod W32) ;;;
    if x2apic_msr =? IA32_X2APIC_ICR then wait_delivered fuel a else ret tt.

Definition eoi (fuel : nat) : Run unit := local_apic_write fuel IA32_X2APIC_EOI APIC_EOI_ACK.

Definition add_local_apic_id (id : Z) : Run unit :=
  modify (fun s => let (ids, n) := add_id (CPU_LOCAL_APIC_IDS s) (LOCAL_APIC_IDX s) id in with_ids ids n s).

Definition init_x2apic : Run unit :=
  if supports_x2apic then
    let! apic_base := rdmsr IA32_APIC_BASE in
    wrmsr IA32_APIC_BASE (Z.lor apic_base X2APIC_ENABLE)
  else ret tt.

Definition init_local_apic (fuel : nat) : Run unit :=
  local_apic_write fuel IA32_X2APIC_LVT_TIMER APIC_LVT_MASK ;;;
  local_apic_write fuel IA32_X2APIC_LVT_THERMAL APIC_LVT_MASK ;;;
  local_apic_write fuel IA32_X2APIC_LVT_PMI APIC_LVT_MASK ;;;
  local_apic_write fuel IA32_X2APIC_LVT_LINT0 APIC_LVT_MASK ;;;
  local_apic_write fuel IA32_X2APIC_LVT_LINT1 APIC_LVT_MASK ;;;
  local_apic_write fuel IA32_X2APIC_LVT_ERROR ERROR_INTERRUPT_NUMBER ;;;
  local_apic_write fuel IA32_X2APIC_TPR 0 ;;;
  local_apic_write fuel IA32_X2APIC_SIVR (Z.lor APIC_SIVR_ENABLED SPURIOUS_INTERRUPT_NUMBER).

(** ** The timer *)

Definition calibrate_timer (fuel : nat) : Run unit :=
  let microseconds := 30000 in
  local_apic_write fuel IA32_X2APIC_DIV_CONF APIC_DIV_CONF_DIVIDE_BY_8 ;;;
  local_apic_write fuel IA32_X2APIC_INIT_COUNT U32_MAX ;;;
  udelay microseconds ;;;
  let! count := local_apic_read IA32_X2APIC_CUR_COUNT in
  modify (with_calibration ((U32_MAX - count) / microseconds)).

(** [current_time] is [processor::get_timer_ticks()]. *)
Definition set_oneshot_timer (fuel : nat) (current_time : Z) (wakeup_time : option Z) : Run unit :=
  match wakeup_time with
  | Some wt =>
      if supports_tsc_deadline then
        let! tsc_deadline := lift (mul64 wt frequency) in
        local_apic_write fuel IA32_X2APIC_LVT_TIMER (Z.lor APIC_LVT_TIMER_TSC_DEADLINE TIMER_INTERRUPT_NUMBER) ;;;
        wrmsr IA32_TSC_DEADLINE tsc_deadline
      else
        let! ticks := if current_time <? wt then lift (sub64 wt current_time) else ret 1 in
        let! c := gets CALIBRATED_COUNTER_VALUE in
        let! count := lift (mul64 c ticks) in
        let init_count := Z.min count U32_MAX in
        local_apic_write fuel IA32_X2APIC_LVT_TIMER TIMER_INTERRUPT_NUMBER ;;;
        local_apic_write fuel IA32_X2APIC_INIT_COUNT init_count
  | None => local_apic_write fuel IA32_X2APIC_LVT_TIMER APIC_LVT_MASK
  end.

(** ** Interrupts to other processors *)

Definition icr_value (apic_id number : Z) : Z :=
  Z.lor (Z.lor (Z.lor (Z.shiftl apic_id 32) APIC_ICR_LEVEL_ASSERT) APIC_ICR_DELIVERY_MODE_FIXED) number.

(** [for core_id_to_interrupt in 0..apic_ids.len()], from [i] on *)
Fixpoint flush_others (fuel : nat) (i : Z) (apic_ids : list Z) : Run unit :=
  match apic_ids with
  | [] => ret tt
  | local_apic_id :: rest =>
      (if negb (i =? core_id) && negb (i =? 255)
       then local_apic_write fuel IA32_X2APIC_ICR (icr_value local_apic_id TLB_FLUSH_INTERRUPT_NUMBER)
       else ret tt) ;;;
      flush_others fuel (i + 1) rest
  end.

Definition ipi_tlb_flush (fuel : nat) : Run unit :=
  let! count := on_bay (get_processor_count root BOOT_INFO) in
  if 1 <? count then
    let! apic_ids := gets CPU_LOCAL_APIC_IDS in
    flush_others fuel 0 apic_ids
  else ret tt.

Definition wakeup_core (fuel : nat) (core_id_to_wakeup : Z) : Run unit :=
  if negb (core_id_to_wakeup =? core_id) then
    let! apic_ids := gets CPU_LOCAL_APIC_IDS in
    let! local_apic_id := lift (unwrap (apic_ids !! Z.to_nat core_id_to_wakeup)) in
    local_apic_write fuel IA32_X2APIC_ICR (icr_value local_apic_id WAKEUP_INTERRUPT_NUMBER)
  else ret tt.

(** ** The I/O APIC *)

Definition ioapic_write (reg value : Z) : Run unit :=
  let! unsafe_storage := on_bay get_unsafe_storage in
  safe_global false ;;;
  let! a := gets IOAPIC_ADDRESS in
  on_bay (copy_from_safe root 1 a 4096) ;;;
  start_isolation ;;;
  on_bay (store_bytes root unsafe_storage (le_bytes 4 reg)) ;;;
  on_bay (store_bytes root (unsafe_storage + 16) (le_bytes 4 value)) ;;;
  end_isolation ;;;
  safe_global false ;;;
  on_bay (copy_to_safe root 1 a 4096) ;;;
  on_bay (clear_unsafe_storage root).

Definition ioapic_read (reg : Z) : Run Z :=
  let! unsafe_storage := on_bay get_unsafe_storage in
  safe_global false ;;;
  let! a := gets IOAPIC_ADDRESS in
  on_bay (copy_from_safe root 1 a 4096) ;;;
  start_isolation ;;;
  on_bay (store_bytes root unsafe_storage (le_bytes 4 reg)) ;;;
  let! bs := on_bay (load_bytes root (unsafe_storage + 16) 4) in
  end_isolation ;;;
  safe_global false ;;;
  on_bay (copy_to_safe root 1 a 4096) ;;;
  on_bay (clear_unsafe_storage root) ;;;
  ret (le bs).

Definition ioapic_version : Run Z :=
  let! v := ioapic_read IOAPIC_REG_VER in ret (Z.land v 0xFF).

Definition ioapic_max_redirection_entry : Run Z :=
  let! v := ioapic_read IOAPIC_REG_VER in ret (Z.land (Z.shiftr v 16) 0xFF mod 256).

(** [irq * 2] and [0x20 + irq] are numbers of 8 bits, but no interrupt above 24 gets there. *)
Definition ioapic_inton (irq apicid : Z) : Run (result unit unit) :=
  if 24 <? irq then ret (Err tt)
  else
    let off := irq * 2 in
    let ioredirect_upper := Z.shiftl apicid 24 in
    let ioredirect_lower := 0x20 + irq in
    ioapic_write (IOAPIC_REG_TABLE + off) ioredirect_lower ;;;
    ioapic_write (IOAPIC_REG_TABLE + 1 + off) ioredirect_upper ;;;
    ret (Ok tt).

Definition ioapic_intoff (irq apicid : Z) : Run (result unit unit) :=
  if 24 <? irq then ret (Err tt)
  else
    let off := irq * 2 in
    let ioredirect_upper := Z.shiftl apicid 24 in
    let ioredirect_lower := Z.lor (0x20 + irq) (Z.shiftl 1 16) in
    ioapic_write (IOAPIC_REG_TABLE + off) ioredirect_lower ;;;
    ioapic_write (IOAPIC_REG_TABLE + 1 + off) ioredirect_upper ;;;
    ret (Ok tt).

(** [for i in i..i + n] *)
Fixpoint init_entries (i : Z) (n : nat) : Run unit :=
  match n with
  | O => ret tt
  | S n =>
      let! r := if negb (i =? 2) then ioapic_inton i 0 else ioapic_intoff 2 0 in
      lift (unwrap_res r) ;;;
      init_entries (i + 1) n
  end.

Definition init_ioapic : Run unit :=
  let! max := ioapic_max_redirection_entry in
  massert (max + 1 <? 256) ;;;
  let! _ := ioapic_version in
  init_entries 0 (Z.to_nat (max + 1)).

End apic.

(** ** The timer and the interrupts *)

Section registers.

Context {F : Type} `{FrameSource F}.
Context (root BOOT_INFO : Z).
Context (hardware : list event -> place -> Z).

Implicit Types (s : Apic F).

(** [s'] is [s] after the events [l]. *)
Definition after_events (l : list event) s : Apic F := with_events (events s ++ l) s.

Lemma after_events_app l1 l2 s : after_events l2 (after_events l1 s) = after_events (l1 ++ l2) s.
Proof. unfold after_events, with_events. cbn. by rewrite <- (assoc_L app). Qed.

Lemma after_events_nil s : after_events [] s = s.
Proof. unfold after_events. rewrite app_nil_r. by destruct s. Qed.

Lemma x2apic_write fuel n v s :
  local_apic_write root hardware true fuel n v s = Done (tt, after_events [Wr (Msr n) v] s).
Proof. reflexivity. Qed.

(** The counter value for a wakeup time. *)
Definition init_count (calibrated current_time wt : Z) : Z :=
  Z.min (calibrated * (if current_time <? wt then wt - current_time else 1)) U32_MAX.

(** *** xAPIC *)

(** Without x2APIC no register can be accessed: the address of the page of the local APIC
    is read, and its registers are, inside isolated parts, where safe memory cannot be. *)
Theorem xapic_faults fuel n v s :
  in_u32 (pkru_of (cpu (bay s))) -> page_key root (cpu (bay s)) safe_data_start = Some Mm.SAFE_MEM_REGION ->
  local_apic_read root hardware false n s = Panic /\
  (n <> IA32_X2APIC_ICR -> local_apic_write root hardware false fuel n v s = Panic).
Proof.
  intros Hp Hk. destruct (bay_start (bay s) Hp) as (m1 & E1 & G1).
  assert (Es : start_isolation s = Done (tt, with_bay (with_cpu m1 (bay s)) s)) by (unfold start_isolation, on_bay; by rewrite E1).
  assert (Hf : permitted root m1 safe_data_start false = false).
  { destruct (permitted root m1 safe_data_start false) eqn:Ep; [|done]. exfalso.
    apply permitted_key in Ep as (k & Hk' & Hn). unfold page_key in *. rewrite (gt_mmu _ _ _ _ G1), Hk in Hk'.
    injection Hk' as <-. apply Hn. by rewrite (gt_pkru _ _ _ _ G1), isolated_perm, decide_True by (by vm_compute). }
  assert (Ht : forall {A} (k : Z -> M (Apic F) A),
    bind (translate_x2apic_msr_to_xapic_address root n) k (with_bay (with_cpu m1 (bay s)) s) = Panic).
  { intros A k. unfold translate_x2apic_msr_to_xapic_address. rewrite bind_assoc. unfold bind at 1, safe_global, on_bay, safe_var.
    cbn [bay with_bay cpu with_cpu]. by rewrite Hf. }
  split.
  - unfold local_apic_read. by rewrite (bind_done _ _ _ _ _ Es), Ht.
  - intros Hn. unfold local_apic_write. destruct (Z.eqb_spec n IA32_X2APIC_ICR); [done|].
    by rewrite bind_ret, (bind_done _ _ _ _ _ Es), Ht.
Qed.

Lemma set_oneshot_timer_xapic supports_tsc_deadline frequency fuel now wakeup s :
  in_u32 (pkru_of (cpu (bay s))) -> page_key root (cpu (bay s)) safe_data_start = Some Mm.SAFE_MEM_REGION ->
  in_u64 now -> (forall wt, wakeup = Some wt -> in_u64 wt) ->
  set_oneshot_timer root hardware false supports_tsc_deadline frequency fuel now wakeup s = Panic.
Proof.
  intros Hp Hk Hn Hw. assert (Hf : forall v, local_apic_write root hardware false fuel IA32_X2APIC_LVT_TIMER v s = Panic)
    by (intros v; by apply (xapic_faults fuel _ v s Hp Hk)).
  assert (Hb : forall v {A} (k : unit -> M (Apic F) A), bind (local_apic_write root hardware false fuel IA32_X2APIC_LVT_TIMER v) k s = Panic)
    by (intros v A k; unfold bind; by rewrite Hf).
  assert (Hl : forall x (k : Z -> M (Apic F) unit), (forall v, k v s = Panic) -> bind (lift (checked x)) k s = Panic).
  { intros x k Hk'. unfold bind, lift, checked. destruct ((0 <=? x) && (x <? W64)); [apply Hk'|done]. }
  unfold set_oneshot_timer. destruct wakeup as [wt|]; [|by apply Hf]. specialize (Hw wt eq_refl). unfold in_u64 in *.
  destruct supports_tsc_deadline; [apply Hl; intros v; apply Hb|].
  set (ticks := if now <? wt then wt - now else 1).
  rewrite (bind_done _ _ _ ticks s) by (unfold ticks; destruct (Z.ltb_spec now wt); [unfold lift; by rewrite sub64_done by lia|done]).
  rewrite bind_gets. apply Hl. intros v. apply Hb.
Qed.

(** C27. [set_oneshot_timer]. With x2APIC, the registers it writes, in order, on each
    branch. Without the deadline mode the counter fits its 32 bits, is never zero once the
    timer is calibrated, so that the timer fires, and does not let it fire later than asked for
    when that is in the future; the only failure is a product of more than 64 bits. Without
    x2APIC, on a processor whose safe data has its key, every call faults, whatever the time
    asked for: the address of the local APIC is safe data and read in an isolated part. *)
Theorem set_oneshot_timer_correct supports_tsc_deadline frequency fuel now wakeup s :
  in_u64 now -> (forall wt, wakeup = Some wt -> in_u64 wt) -> in_u64 (CALIBRATED_COUNTER_VALUE s) -> in_u64 frequency ->
  let run := set_oneshot_timer root hardware true supports_tsc_deadline frequency fuel now wakeup s in
  (in_u32 (pkru_of (cpu (bay s))) -> page_key root (cpu (bay s)) safe_data_start = Some Mm.SAFE_MEM_REGION ->
     set_oneshot_timer root hardware false supports_tsc_deadline frequency fuel now wakeup s = Panic) /\
  match wakeup with
  | None => run = Done (tt, after_events [Wr (Msr IA32_X2APIC_LVT_TIMER) (2 ^ 16)] s)
  | Some wt =>
      if supports_tsc_deadline then
        run = if decide (wt * frequency < W64)
              then Done (tt, after_events [Wr (Msr IA32_X2APIC_LVT_TIMER) (2 ^ 18 + 123);
                                           Wr (Msr IA32_TSC_DEADLINE) (wt * frequency)] s)
              else Panic
      else
        let c := CALIBRATED_COUNTER_VALUE s in
        let n := init_count c now wt in
        0 <= n <= U32_MAX /\ (1 <= c -> 1 <= n) /\ (now < wt -> n <= c * (wt - now)) /\
        run = if decide (c * Z.max 1 (wt - now) < W64)
              then Done (tt, after_events [Wr (Msr IA32_X2APIC_LVT_TIMER) 123; Wr (Msr IA32_X2APIC_INIT_COUNT) n] s)
              else Panic
  end.
Proof.
  intros Hn Hw Hc Hf run. split; [intros Hp Hk; by apply set_oneshot_timer_xapic|].
  destruct wakeup as [wt|]; [|done]. specialize (Hw wt eq_refl). unfold in_u64 in *.
  destruct supports_tsc_deadline.
  - unfold run, set_oneshot_timer. case_decide as Hd.
    + rewrite (bind_lift_done _ _ (wt * frequency)) by (apply mul64_done; nia).
      rewrite (bind_done _ _ _ _ _ (x2apic_write _ _ _ _)). unfold wrmsr, happen, modify. do 2 f_equal.
      apply (after_events_app [_] [_]).
    + unfold bind, lift, mul64. rewrite checked_panic; [done|]. unfold in_u64. nia.
  - cbv zeta. set (c := CALIBRATED_COUNTER_VALUE s) in *.
    assert (Hmax : 0 <= U32_MAX < W64) by done.
    split; [|split; [|split]].
    + unfold init_count. destruct (Z.ltb_spec now wt); nia.
    + unfold init_count. destruct (Z.ltb_spec now wt); assert (1 <= U32_MAX) by done; nia.
    + unfold init_count. intros Hlt. destruct (Z.ltb_spec now wt); [|lia]. apply Z.le_min_l.
    + set (ticks := if now <? wt then wt - now else 1).
      assert (Et : Z.max 1 (wt - now) = ticks) by (unfold ticks; destruct (Z.ltb_spec now wt); lia).
      rewrite Et. unfold run, set_oneshot_timer.
      rewrite (bind_done _ _ _ ticks s) by (unfold ticks; destruct (Z.ltb_spec now wt);
        [unfold lift; by rewrite sub64_done by lia|done]).
      rewrite bind_gets. fold c. case_decide as Hd.
      * rewrite (bind_lift_done _ _ (c * ticks)) by (apply mul64_done; unfold ticks in *; destruct (now <? wt); nia).
        rewrite (bind_done _ _ _ _ _ (x2apic_write _ _ _ _)), x2apic_write, after_events_app. done.
      * unfold bind, lift, mul64. rewrite checked_panic; [done|]. unfold in_u64. nia.
Qed.

(** *** Interrupts to other processors *)

(** The parts of an interrupt command. *)
Lemma icr_value_fields apic_id number :
  0 <= apic_id < 2 ^ 32 -> 0 <= number < 256 ->
  Z.shiftr (icr_value apic_id number) 32 = apic_id /\ icr_value apic_id number mod 2 ^ 8 = number /\
  Z.testbit (icr_value apic_id number) 14 = true /\ Z.land (Z.shiftr (icr_value apic_id number) 8) 7 = 0.
Proof.
  intros Ha Hn. assert (Hb : forall n, 8 <= n -> Z.testbit number n = false) by (intros n Hb; apply (testbit_small number 8); lia).
  assert (H14 : APIC_ICR_LEVEL_ASSERT = 2 ^ 14) by done.
  assert (Hv : forall n, 0 <= n -> Z.testbit (icr_value apic_id number) n =
    Z.testbit apic_id (n - 32) || (n =? 14) || Z.testbit number n).
  { intros n H0. unfold icr_value. change APIC_ICR_DELIVERY_MODE_FIXED with 0. rewrite Z.lor_0_r, H14.
    rewrite !Z.lor_spec, Z.shiftl_spec by done. do 2 f_equal.
    destruct (Z.eqb_spec n 14) as [->|]; [by apply Z.pow2_bits_true|]. apply Z.pow2_bits_false. lia. }
  split_and!.
  - apply Z.bits_inj'. intros n H0. rewrite Z.shiftr_spec, Hv by lia. replace (n + 32 - 32) with n by lia.
    rewrite Hb by lia. destruct (Z.eqb_spec (n + 32) 14); [lia|]. by rewrite !orb_false_r.
  - apply Z.bits_inj'. intros n H0. rewrite testbit_mod_pow2 by lia. rewrite Hv by done.
    destruct (Z.ltb_spec n 8).
    + destruct (Z.eqb_spec n 14); [lia|]. rewrite (Z.testbit_neg_r apic_id) by lia. by rewrite orb_false_r, orb_false_l.
    + cbn. symmetry. by apply Hb.
  - rewrite Hv by done. cbn. by rewrite orb_true_r.
  - apply Z.bits_inj'. intros n H0. rewrite Z.bits_0, Z.land_spec, Z.shiftr_spec, Hv by lia.
    change 7 with (Z.ones 3). destruct (Z.ltb_spec n 3).
    + rewrite (Z.testbit_neg_r apic_id) by lia. destruct (Z.eqb_spec (n + 8) 14); [lia|]. by rewrite Hb by lia.
    + rewrite Z.ones_spec_high by lia. apply andb_false_r.
Qed.

(** The interrupt commands to all entries of [apic_ids] but that of [core_id]. *)
Definition flush_events (core_id : Z) (apic_ids : list Z) : list event :=
  (fun p => Wr (Msr IA32_X2APIC_ICR) (icr_value p.2 TLB_FLUSH_INTERRUPT_NUMBER)) <$>
    filter (fun p => Z.of_nat p.1 <> core_id) (imap pair apic_ids).

Lemma flush_others_run core_id fuel apic_ids s :
  (length apic_ids <= 255)%nat ->
  flush_others root hardware true core_id fuel 0 apic_ids s = Done (tt, after_events (flush_events core_id apic_ids) s).
Proof.
  assert (Hg : forall (k : nat) s, (k + length apic_ids <= 255)%nat ->
    flush_others root hardware true core_id fuel (Z.of_nat k) apic_ids s =
    Done (tt, after_events ((fun p => Wr (Msr IA32_X2APIC_ICR) (icr_value p.2 TLB_FLUSH_INTERRUPT_NUMBER)) <$>
      filter (fun p => Z.of_nat p.1 <> core_id) (imap (fun i => pair (k + i)%nat) apic_ids)) s)).
  { induction apic_ids as [|a l IH]; intros k s0 Hk; cbn [flush_others imap length] in *; [by rewrite after_events_nil|].
    rewrite Nat.add_0_r. assert (E255 : Z.of_nat k =? 255 = false) by (apply Z.eqb_neq; lia). rewrite E255, andb_true_r.
    assert (Ei : imap ((fun i => pair (k + i)%nat) ∘ S) l = imap (fun i => pair (S k + i)%nat) l)
      by (apply imap_ext; intros i x _; cbn; f_equal; lia).
    rewrite Ei. replace (Z.of_nat k + 1) with (Z.of_nat (S k)) by lia. destruct (Z.eqb_spec (Z.of_nat k) core_id) as [E|E]; cbn [negb].
    - rewrite bind_ret, IH by lia. by rewrite filter_cons_False by (cbn; tauto).
    - rewrite (bind_done _ _ _ _ _ (x2apic_write _ _ _ _)), IH, after_events_app by lia.
      by rewrite filter_cons_True by done. }
  intros Hl. exact (Hg 0%nat s Hl).
Qed.

(** [ipi_tlb_flush] with x2APIC and more than one processor online: one TLB
    flush interrupt for every entry of [CPU_LOCAL_APIC_IDS] but that of the calling
    core, to the APIC with the entry's identifier, and nothing else happens. In
    particular no registered processor is left out; but the entries that
    no processor registered, 255, get one as well. *)
Theorem ipi_tlb_flush_correct core_id fuel s :
  boot_ready root BOOT_INFO (bay s) -> length (CPU_LOCAL_APIC_IDS s) = 100%nat ->
  1 < field_value BOOT_INFO (bytes (bay s)) "cpu_online" ->
  exists b', ipi_tlb_flush root BOOT_INFO hardware true core_id fuel s =
      Done (tt, with_bay b' (after_events (flush_events core_id (CPU_LOCAL_APIC_IDS s)) s)) /\
    (forall i id, CPU_LOCAL_APIC_IDS s !! i = Some id -> Z.of_nat i <> core_id ->
       Wr (Msr IA32_X2APIC_ICR) (icr_value id TLB_FLUSH_INTERRUPT_NUMBER) ∈ flush_events core_id (CPU_LOCAL_APIC_IDS s)) /\
    (forall e, e ∈ flush_events core_id (CPU_LOCAL_APIC_IDS s) -> exists i id,
       e = Wr (Msr IA32_X2APIC_ICR) (icr_value id TLB_FLUSH_INTERRUPT_NUMBER) /\
       CPU_LOCAL_APIC_IDS s !! i = Some id /\ Z.of_nat i <> core_id).
Proof.
  intros R Hl Hc. pose proof (br_storage _ R) as [Hnz _].
  destruct (read_copied_spec root BOOT_INFO (bay s) "cpu_online" R ltac:(by apply is_field_test_ok)) as (m' & d' & E & _).
  exists (with_cpu m' (with_bytes d' (bay s))). split_and!.
  - unfold ipi_tlb_flush. rewrite (bind_done _ _ _ (field_value BOOT_INFO (bytes (bay s)) "cpu_online")
      (with_bay (with_cpu m' (with_bytes d' (bay s))) s)).
    2: { unfold on_bay, get_processor_count, read_field. rewrite get_unsafe_storage_run.
         destruct (Z.eqb_spec (kernel_gsbase (bay s)) 0); [done|]. by rewrite E. }
    destruct (Z.ltb_spec 1 (field_value BOOT_INFO (bytes (bay s)) "cpu_online")); [|lia].
    rewrite bind_gets. cbn [CPU_LOCAL_APIC_IDS with_bay]. by rewrite flush_others_run by lia.
  - intros i id Hi Hn. unfold flush_events. apply list_elem_of_fmap. exists (i, id). split; [done|].
    apply list_elem_of_filter. split; [done|]. apply list_elem_of_lookup. exists i. by rewrite list_lookup_imap, Hi.
  - intros e He. unfold flush_events in He. apply list_elem_of_fmap in He as ([i id] & -> & Hp).
    apply list_elem_of_filter in Hp as [Hn Hp]. apply list_elem_of_lookup in Hp as [j Hj].
    rewrite list_lookup_imap in Hj. destruct (CPU_LOCAL_APIC_IDS s !! j) as [x|] eqn:Ej; [|done].
    injection Hj as <- <-. by exists j, x.
Qed.

End registers.

(** ** The I/O APIC *)

Lemma bind_ret_tt {S} (o : M S unit) x : bind o (fun _ => ret tt) x = o x.
Proof. unfold bind, ret. by destruct (o x) as [[[] ?]| |]. Qed.

Section ioapic.

Context {F : Type} `{FrameSource F}.
Context (root BOOT_INFO : Z).

Implicit Types (s : Apic F) (b : Bay F).

(** [s'] is [s] but for what was in the storage, which is empty. *)
Definition untouched s s' : Prop :=
  exists m d, s' = with_bay (with_cpu m (with_bytes d (bay s))) s /\
    gated (cpu (bay s)) m (regs (cpu (bay s)) RSP) (pkru_of (cpu (bay s))) /\ cleared (bay s) (bytes (bay s)) d.

Lemma cleared_trans b m d1 d2 :
  cleared b (bytes b) d1 -> cleared (with_cpu m (with_bytes d1 b)) d1 d2 -> cleared b (bytes b) d2.
Proof. intros [A1 A2] [B1 B2]. split; [exact B1|]. intros x Hx. rewrite B2 by done. by apply A2. Qed.

Lemma untouched_trans s s1 s2 : untouched s s1 -> untouched s1 s2 -> untouched s s2.
Proof.
  intros (m1 & d1 & -> & G1 & C1) (m2 & d2 & -> & G2 & C2). exists m2, d2. cbn [bay with_bay cpu with_cpu bytes with_bytes] in *.
  split_and!; [by destruct s|..].
  - rewrite (gt_sp _ _ _ _ G1), (gt_pkru _ _ _ _ G1) in G2. by eapply gated_trans.
  - by eapply cleared_trans.
Qed.

Lemma untouched_ready s s' :
  untouched s s' -> boot_ready root BOOT_INFO (bay s) -> valid (bay s) (IOAPIC_ADDRESS s) = false ->
  boot_ready root BOOT_INFO (bay s') /\ valid (bay s') (IOAPIC_ADDRESS s') = false.
Proof. intros (m & d & -> & G & _) R Hv. split; [by apply object_ready_after|done]. Qed.

(** The common part of the accesses: with the device not on the white list only the
    storage is used, [body] being what happens on it. *)
Lemma ioapic_part s (body : Z -> M (Apic F) (list Z)) bs d2 {A} (k : list Z -> M (Apic F) A) :
  boot_ready root BOOT_INFO (bay s) -> valid (bay s) (IOAPIC_ADDRESS s) = false ->
  (forall m1, gated (cpu (bay s)) m1 (regs (cpu (bay s)) RSP) (isolated_pkru (pkru_of (cpu (bay s)))) ->
     body (kernel_gsbase (bay s)) (with_bay (with_cpu m1 (bay s)) s) =
     Done (bs, with_bay (with_cpu m1 (with_bytes d2 (bay s))) s)) ->
  (forall x, ~ kernel_gsbase (bay s) <= x < kernel_gsbase (bay s) + SIZE -> d2 !! x = bytes (bay s) !! x) ->
  exists s', untouched s s' /\
    (let! unsafe_storage := on_bay get_unsafe_storage in
     safe_global root false ;;;
     let! a := gets IOAPIC_ADDRESS in
     on_bay (copy_from_safe root 1 a 4096) ;;;
     start_isolation ;;;
     let! bs := body unsafe_storage in
     end_isolation ;;;
     safe_global root false ;;;
     on_bay (copy_to_safe root 1 a 4096) ;;;
     on_bay (clear_unsafe_storage root) ;;;
     k bs) s = k bs s'.
Proof.
  intros R Hv Hb Hd. pose proof (br_vars _ R) as Hp. pose proof (br_pkru _ R) as Hu.
  rewrite (bind_done _ _ s (kernel_gsbase (bay s)) s).
  2: { unfold on_bay. assert (Er : get_unsafe_storage (bay s) = Done (kernel_gsbase (bay s), bay s)).
       { unfold get_unsafe_storage. rewrite bind_gets. by destruct (Z.eqb_spec (kernel_gsbase (bay s)) 0) as [->|]. }
       rewrite Er. by destruct s. }
  assert (Ev : forall s0, permitted root (cpu (bay s0)) safe_data_start false = true -> safe_global root false s0 = Done (tt, s0)).
  { intros s0 Hs0. unfold safe_global, on_bay. rewrite safe_var_run by done. by destruct s0. }
  rewrite (bind_done _ _ _ _ _ (Ev s Hp)), bind_gets.
  assert (Ec : forall b0, cpu b0 = cpu (bay s) -> LIST b0 = LIST (bay s) -> copy_from_safe root 1 (IOAPIC_ADDRESS s) 4096 b0 = Done (tt, b0)).
  { intros b0 C0 L0. apply copy_from_safe_refused; [by rewrite C0|]. unfold valid. rewrite L0. exact Hv. }
  rewrite (bind_done _ _ _ tt s) by (unfold on_bay; rewrite Ec by done; by destruct s).
  destruct (bay_start (bay s) Hu) as (m1 & E1 & G1).
  rewrite (bind_done _ _ _ tt (with_bay (with_cpu m1 (bay s)) s)) by (unfold start_isolation, on_bay; by rewrite E1).
  rewrite (bind_done _ _ _ _ _ (Hb m1 G1)).
  destruct (bay_end (bay s) m1 (with_cpu m1 (with_bytes d2 (bay s))) R G1 eq_refl) as (m2 & E2 & G2).
  set (s2 := with_bay (with_cpu m2 (with_bytes d2 (bay s))) s).
  rewrite (bind_done _ _ _ tt s2) by (unfold end_isolation, on_bay; cbn [bay with_bay]; by rewrite E2).
  assert (Hp2 : permitted root (cpu (bay s2)) safe_data_start false = true)
    by (cbn; by rewrite (permitted_same root _ _ _ _ _ G2)).
  rewrite (bind_done _ _ _ _ _ (Ev s2 Hp2)).
  rewrite (bind_done _ _ _ tt s2).
  2: { unfold on_bay. rewrite copy_to_safe_refused; [done|done|]. exact Hv. }
  destruct (clear_spec (bay s) m2 d2 (bytes (bay s)) R G2 Hd) as (d' & E3 & C).
  exists (with_bay (with_cpu m2 (with_bytes d' (bay s))) s). split; [by exists m2, d'|].
  rewrite (bind_done _ _ _ tt (with_bay (with_cpu m2 (with_bytes d' (bay s))) s)); [done|].
  unfold on_bay, s2. cbn [bay with_bay]. by rewrite E3.
Qed.

Lemma storage_store s m1 d off v :
  boot_ready root BOOT_INFO (bay s) -> gated (cpu (bay s)) m1 (regs (cpu (bay s)) RSP) (isolated_pkru (pkru_of (cpu (bay s)))) ->
  0 <= off <= 16 ->
  on_bay (store_bytes root (kernel_gsbase (bay s) + off) (le_bytes 4 v)) (with_bay (with_cpu m1 (with_bytes d (bay s))) s) =
    Done (tt, with_bay (with_cpu m1 (with_bytes (write_at d (kernel_gsbase (bay s) + off) (le_bytes 4 v)) (bay s))) s).
Proof.
  intros R G Ho. unfold on_bay. rewrite store_bytes_run; [done|]. rewrite length_le_bytes.
  eapply (storage_part (bay s)); [done|done|lia|]. change size_of_BootInfo with 152. lia.
Qed.

Lemma with_same_bytes (m1 : Machine F) s : with_bay (with_cpu m1 (bay s)) s = with_bay (with_cpu m1 (with_bytes (bytes (bay s)) (bay s))) s.
Proof. by destruct (bay s). Qed.

Lemma storage_write_out (st x off v : Z) d : 0 <= off <= 16 -> ~ st <= x < st + SIZE -> write_at d (st + off) (le_bytes 4 v) !! x = d !! x.
Proof. intros Ho Hx. apply write_at_out. rewrite length_le_bytes. change SIZE with 4096 in Hx. lia. Qed.

Lemma ioapic_write_refused reg value s :
  boot_ready root BOOT_INFO (bay s) -> valid (bay s) (IOAPIC_ADDRESS s) = false ->
  exists s', untouched s s' /\ ioapic_write root reg value s = Done (tt, s').
Proof.
  intros R Hv. set (st := kernel_gsbase (bay s)).
  destruct (ioapic_part s (fun st =>
      on_bay (store_bytes root st (le_bytes 4 reg)) ;;; on_bay (store_bytes root (st + 16) (le_bytes 4 value)) ;;; ret [])
    [] (write_at (write_at (bytes (bay s)) (st + 0) (le_bytes 4 reg)) (st + 16) (le_bytes 4 value)) (fun _ => ret tt) R Hv)
    as (s' & U & E).
  - intros m1 G1. rewrite with_same_bytes. fold st. rewrite <- (Z.add_0_r st) at 1.
    rewrite (bind_done _ _ _ _ _ (storage_store s m1 _ 0 reg R G1 ltac:(lia))).
    by rewrite (bind_done _ _ _ _ _ (storage_store s m1 _ 16 value R G1 ltac:(lia))).
  - intros x Hx. rewrite !storage_write_out by (done || lia). done.
  - exists s'. split; [done|]. etransitivity; [|exact E]. unfold ioapic_write.
    do 7 (rewrite ?bind_assoc; apply bind_cong; intros ? ?). rewrite ?bind_assoc, bind_ret.
    do 3 (apply bind_cong; intros ? ?). symmetry. apply bind_ret_tt.
Qed.

Lemma ioapic_read_refused reg s :
  boot_ready root BOOT_INFO (bay s) -> valid (bay s) (IOAPIC_ADDRESS s) = false ->
  exists s', untouched s s' /\
    ioapic_read root reg s = Done (le (bytes_at (bytes (bay s)) (kernel_gsbase (bay s) + 16) 4), s').
Proof.
  intros R Hv. set (st := kernel_gsbase (bay s)). set (d2 := write_at (bytes (bay s)) (st + 0) (le_bytes 4 reg)).
  destruct (ioapic_part s (fun st =>
      on_bay (store_bytes root st (le_bytes 4 reg)) ;;; on_bay (load_bytes root (st + 16) 4))
    (bytes_at (bytes (bay s)) (st + 16) 4) d2 (fun bs => ret (le bs)) R Hv)
    as (s' & U & E).
  - intros m1 G1. rewrite with_same_bytes. fold st. rewrite <- (Z.add_0_r st) at 1.
    rewrite (bind_done _ _ _ _ _ (storage_store s m1 _ 0 reg R G1 ltac:(lia))). fold st d2. unfold on_bay.
    rewrite load_bytes_run.
    + cbn [obind bay with_bay cpu with_cpu bytes with_bytes]. do 2 f_equal. apply bytes_at_ext. intros x Hx.
      apply write_at_out. rewrite length_le_bytes. lia.
    + eapply (storage_part (bay s)); [done|done|lia|]. change size_of_BootInfo with 152. lia.
  - intros x Hx. unfold d2. by rewrite storage_write_out by (done || lia).
  - exists s'. split; [done|]. etransitivity; [|exact E]. unfold ioapic_read.
    repeat (rewrite ?bind_assoc; apply bind_cong; intros ? ?). done.
Qed.

(** C28. The I/O APIC is never programmed. Its address is not on the white list, so the
    copies from and to its registers are refused: [init_ioapic] reads a zero out of the
    empty storage, takes it for the number of the last entry, and ends as if it had
    succeeded, without a single byte of memory outside the storage, device memory
    included, having changed. *)
Theorem ioapic_never_programmed s :
  boot_ready root BOOT_INFO (bay s) -> valid (bay s) (IOAPIC_ADDRESS s) = false ->
  (forall x, kernel_gsbase (bay s) <= x < kernel_gsbase (bay s) + SIZE -> byte (bytes (bay s)) x = 0) ->
  exists s', init_ioapic root s = Done (tt, s') /\ events s' = events s /\
    (forall x, ~ kernel_gsbase (bay s) <= x < kernel_gsbase (bay s) + SIZE -> bytes (bay s') !! x = bytes (bay s) !! x).
Proof.
  intros R Hv Hz. pose (good s0 := boot_ready root BOOT_INFO (bay s0) /\ valid (bay s0) (IOAPIC_ADDRESS s0) = false /\
    forall x, kernel_gsbase (bay s0) <= x < kernel_gsbase (bay s0) + SIZE -> byte (bytes (bay s0)) x = 0).
  assert (Hg : forall s0 s1, good s0 -> untouched s0 s1 -> good s1).
  { intros s0 s1 (R0 & V0 & _) U. destruct (untouched_ready s0 s1 U R0 V0) as [R1 V1]. split_and!; [done|done|].
    destruct U as (m & d & -> & _ & [C1 _]). intros x Hx. unfold byte. cbn in *. by rewrite C1. }
  assert (Hread : forall s0 reg, good s0 -> exists s1, untouched s0 s1 /\ ioapic_read root reg s0 = Done (0, s1)).
  { intros s0 reg (R0 & V0 & Z0). destruct (ioapic_read_refused reg s0 R0 V0) as (s1 & U1 & E1). exists s1.
    split; [done|]. rewrite E1. do 2 f_equal. cbn [bytes_at]. unfold byte in Z0. change SIZE with 4096 in Z0.
    by rewrite !Z0 by lia. }
  assert (Hs : good s) by done.
  destruct (Hread s IOAPIC_REG_VER Hs) as (s1 & U1 & E1). pose proof (Hg _ _ Hs U1) as G1.
  destruct (Hread s1 IOAPIC_REG_VER G1) as (s2 & U2 & E2). pose proof (Hg _ _ G1 U2) as G2.
  destruct G2 as (R2 & V2 & Z2).
  destruct (ioapic_write_refused (IOAPIC_REG_TABLE + 0) 0x20 s2 R2 V2) as (s3 & U3 & E3).
  destruct (untouched_ready s2 s3 U3 R2 V2) as [R3 V3].
  destruct (ioapic_write_refused (IOAPIC_REG_TABLE + 1 + 0) 0 s3 R3 V3) as (s4 & U4 & E4).
  assert (U : untouched s s4) by (do 3 (eapply untouched_trans; [|eassumption]); exact U1).
  exists s4. split.
  - unfold init_ioapic, ioapic_max_redirection_entry, ioapic_version. rewrite !bind_assoc.
    rewrite (bind_done _ _ _ _ _ E1), bind_ret. change (Z.land (Z.shiftr 0 16) 0xFF mod 256) with 0.
    rewrite bind_massert by done. rewrite bind_assoc, (bind_done _ _ _ _ _ E2), bind_ret.
    change (Z.to_nat (0 + 1)) with 1%nat. cbn [init_entries]. change (negb (0 =? 2)) with true. cbv iota.
    unfold ioapic_inton. change (24 <? 0) with false. cbv zeta iota. rewrite !bind_assoc.
    change (Z.shiftl 0 24) with 0. change (0 * 2) with 0. change (0x20 + 0) with 0x20.
    rewrite (bind_done _ _ _ _ _ E3), bind_assoc, (bind_done _ _ _ _ _ E4). reflexivity.
  - destruct U as (m & d & -> & _ & [_ C2]). split; [done|]. exact C2.
Qed.

End ioapic.

(** ** Examples *)

Section sample.

#[local] Existing Instance Paging.bump_source.

(** Two processors have registered; the I/O APIC is mapped at 0x10002000. *)
Definition sample_apic : Apic Z :=
  mkApic BootInfo.sample_bay [] (<[1%nat := 4]> (<[0%nat := 0]> (replicate 100 255))) 2 0 0x10002000 125.

Definition sample_hardware : list event -> place -> Z := fun _ _ => 0.

Lemma set_oneshot_timer_correct_witness :
  set_oneshot_timer sample_root sample_hardware true false 2000 0 1000 (Some 1016) sample_apic =
    Done (tt, after_events [Wr (Msr IA32_X2APIC_LVT_TIMER) 123; Wr (Msr IA32_X2APIC_INIT_COUNT) 2000] sample_apic).
Proof.
  assert (Hw : forall wt, Some 1016 = Some wt -> in_u64 wt) by (intros wt [= <-]; by vm_compute).
  destruct (set_oneshot_timer_correct sample_root sample_hardware false 2000 0 1000 (Some 1016) sample_apic
    ltac:(by vm_compute) Hw ltac:(by vm_compute) ltac:(by vm_compute)) as (_ & _ & _ & _ & E).
  rewrite E. reflexivity.
Defined.

Lemma ipi_tlb_flush_correct_witness :
  exists s', ipi_tlb_flush sample_root BootInfo.sample_info sample_hardware true 0 0 sample_apic = Done (tt, s') /\
    Wr (Msr IA32_X2APIC_ICR) (icr_value 4 TLB_FLUSH_INTERRUPT_NUMBER) ∈ events s' /\
    Wr (Msr IA32_X2APIC_ICR) (icr_value 255 TLB_FLUSH_INTERRUPT_NUMBER) ∈ events s'.
Proof.
  destruct (ipi_tlb_flush_correct sample_root BootInfo.sample_info sample_hardware 0 0 sample_apic BootInfo.sample_ready
    eq_refl ltac:(vm_compute; reflexivity)) as (b' & E & Hin & _).
  eexists. split; [exact E|]. split; apply elem_of_app; right.
  - apply (Hin 1%nat); [reflexivity|done].
  - apply (Hin 2%nat); [reflexivity|done].
Defined.

Lemma xapic_faults_witness :
  local_apic_read sample_root sample_hardware false IA32_X2APIC_CUR_COUNT sample_apic = Panic.
Proof.
  apply (xapic_faults sample_root sample_hardware 0 IA32_X2APIC_CUR_COUNT 0 sample_apic); [done|].
  vm_compute. reflexivity.
Defined.

Lemma ioapic_never_programmed_witness :
  exists s', init_ioapic sample_root sample_apic = Done (tt, s') /\ events s' = [].
Proof.
  destruct (ioapic_never_programmed sample_root BootInfo.sample_info sample_apic BootInfo.sample_ready) as (s' & E & Ev & _).
  - vm_compute. reflexivity.
  - intros x Hx. change (0x10001000 <= x < 0x10001000 + 4096) in Hx.
    change (bytes (bay sample_apic)) with ({[0x1000010a := 0x80; 0x10000178 := 2]} : gmap Z Z). unfold byte.
    by rewrite lookup_insert_ne, lookup_singleton_ne by lia.
  - exists s'. split; [exact E|exact Ev].
Defined.

End sample.
