(* ===== verification/Madt.v ===== *)
(** * The processors and the I/O APIC: [detect_from_acpi] of
    src/arch/x86_64/kernel/apic.rs

    The MADT, found by [Acpi.init], is a list of records of various types: every
    enabled processor is registered with the identifier of its local APIC, and
    the registers of the I/O APIC are mapped. *)

From Stdlib Require Import ZArith Lia String.
From stdpp Require Import base numbers list gmap.
From S2P Require Import Prelude Pte Mmu PageAlloc Paging Mm Bytes Room Acpi Firmware Apic.

#[local] Open Scope Z_scope.

(** ** The structs *)

Definition AcpiMadtHeader : layout := [("local_apic_address", 4); ("flags", 4)]%string.
Definition AcpiMadtRecordHeader : layout := [("entry_type", 1); ("length", 1)]%string.
Definition ProcessorLocalApicRecord : layout := [("acpi_processor_id", 1); ("apic_id", 1); ("flags", 4)]%string.
Definition IoApicRecord : layout :=
  [("id", 1); ("reserved", 1); ("address", 4); ("global_system_interrupt_base", 4)]%string.

Definition CPU_FLAG_ENABLED : Z := 1.

(** The state of acpi.rs and the variables of apic.rs that are set here. *)
Record Detect (P V : Type) := mkDetect {
  acpi : Acpi P V;
  apic_ids : list Z;
  apic_idx : Z;
  ioapic : Z
}.
Arguments mkDetect {P V}.
Arguments acpi {P V}.
Arguments apic_ids {P V}.
Arguments apic_idx {P V}.
Arguments ioapic {P V}.

Section detect.

Context {P V : Type} `{PageAllocator P, PageAllocator V}.
Context (root phys_bits : Z) (supports_1gib_pages : bool).
Context (rom : Z -> Z).

Abbreviation Run := (M (Detect P V)).

Definition on_acpi {A} (o : M (Acpi P V) A) : Run A := fun s =>
  let? (a, x) := o (acpi s) in Done (a, mkDetect x (apic_ids s) (apic_idx s) (ioapic s)).

Definition field_at (fields : layout) (name : string) (a : Z) : Run Z := on_acpi (on_kern (load root rom fields name a)).

Definition register (id : Z) : Run unit :=
  modify (fun s => let (ids, n) := add_id (apic_ids s) (apic_idx s) id in mkDetect (acpi s) ids n (ioapic s)).

Definition ioapic_flags : Z := pkey Mm.SAFE_MEM_REGION (execute_disable (writable (device 0))).

Definition map_ioapic (address : Z) : Run unit :=
  let! r := on_acpi (on_kern (virtualmem (pa_allocate (SIZE BasePageSize)))) in
  let! va := lift (unwrap_res r) in
  modify (fun s => mkDetect (acpi s) (apic_ids s) (apic_idx s) va) ;;;
  on_acpi (on_kern (paging_map root phys_bits supports_1gib_pages BasePageSize va address 1 ioapic_flags)).

(** The body of the loop; the result is the address of the next record. *)
Definition detect_record (record : Z) : Run Z :=
  let! current_address := lift (add64 record (size_of AcpiMadtRecordHeader)) in
  let! entry_type := field_at AcpiMadtRecordHeader "entry_type" record in
  (if entry_type =? 0 then
     let! flags := field_at ProcessorLocalApicRecord "flags" current_address in
     if 0 <? Z.land flags CPU_FLAG_ENABLED then
       let! apic_id := field_at ProcessorLocalApicRecord "apic_id" current_address in
       register apic_id
     else ret tt
   else if entry_type =? 1 then
     let! address := field_at IoApicRecord "address" current_address in
     map_ioapic address
   else ret tt) ;;;
  let! length := field_at AcpiMadtRecordHeader "length" record in
  let! step := lift (sub64 length (size_of AcpiMadtRecordHeader)) in
  lift (add64 current_address step).

Fixpoint detect_records (fuel : nat) (madt : AcpiTable) (current_address : Z) : Run unit :=
  let! end_ := on_acpi (on_kern (table_end_address root rom madt)) in
  if current_address <? end_ then
    match fuel with
    | O => out_of_fuel
    | S fuel =>
        let! next := detect_record current_address in
        detect_records fuel madt next
    end
  else ret tt.

(** The result is the physical address of the local APIC. *)
Definition detect_from_acpi (fuel : nat) : Run Z :=
  let! o := on_acpi get_madt in
  let! madt := lift (unwrap o) in
  let! madt_header := lift (table_start_address madt) in
  let! current_address := lift (add64 madt_header (size_of AcpiMadtHeader)) in
  detect_records fuel madt current_address ;;;
  field_at AcpiMadtHeader "local_apic_address" madt_header.

(** [detect_from_uhyve().or_else(|_e| detect_from_acpi()).expect(..)] of [init] *)
Definition detect (is_uhyve : bool) (fuel : nat) : Run Z :=
  if is_uhyve then ret 0xFEE00000 else detect_from_acpi fuel.

End detect.

(** ** The records *)

Inductive madt_record :=
  | LocalApic (acpi_processor_id apic_id flags : Z)
  | IoApic (id reserved address global_system_interrupt_base : Z)
  | OtherRecord (entry_type : Z) (body : list Z).

(** The bytes of a record. *)
Definition encode (r : madt_record) : list Z :=
  match r with
  | LocalApic acpi_processor_id apic_id flags => [0; 8; acpi_processor_id; apic_id] ++ le_bytes 4 flags
  | IoApic id reserved address gsi => [1; 12; id; reserved] ++ le_bytes 4 address ++ le_bytes 4 gsi
  | OtherRecord entry_type body => entry_type :: 2 + Z.of_nat (base.length body) :: body
  end.

Definition record_ok (phys_bits : Z) (r : madt_record) : Prop :=
  match r with
  | LocalApic _ _ flags => 0 <= flags < 2 ^ 32
  | IoApic _ _ address _ => 0 <= address < 2 ^ 32 /\ address mod 4096 = 0 /\ address + 4096 <= 2 ^ phys_bits
  | OtherRecord entry_type body => entry_type <> 0 /\ entry_type <> 1 /\ (base.length body <= 253)%nat
  end.

(** The identifiers of the enabled processors, and the I/O APICs, in their order. *)
Definition enabled_ids (rs : list madt_record) : list Z :=
  omap (fun r => match r with LocalApic _ id flags => if Z.odd flags then Some id else None | _ => None end) rs.
Definition io_apics (rs : list madt_record) : list Z :=
  omap (fun r => match r with IoApic _ _ address _ => Some address | _ => None end) rs.

Definition register_all (l : list Z) (ids : list Z * Z) : list Z * Z :=
  fold_left (fun p id => add_id p.1 p.2 id) l ids.

(** Registering fills the array from the front until it is full. *)
Lemma register_all_spec l ids n :
  base.length ids = 100%nat -> (n <= 100)%nat ->
  register_all l (ids, Z.of_nat n) =
    (take n ids ++ take (100 - n) l ++ drop (n + base.length l) ids, Z.of_nat (Nat.min 100 (n + base.length l))).
Proof.
  revert ids n. induction l as [|id l IH]; intros ids n Hl Hn.
  - unfold register_all. cbn [fold_left base.length]. rewrite take_nil, Nat.add_0_r. cbn [app]. rewrite take_drop.
    f_equal. lia.
  - unfold register_all. cbn [fold_left fst snd]. fold (register_all l). unfold add_id.
    destruct (Z.leb_spec 100 (Z.of_nat n)).
    + assert (n = 100%nat) as -> by lia. change (Z.of_nat 100) with (Z.of_nat 100). rewrite IH by done.
      rewrite Nat.sub_diag. cbn [take app]. rewrite !drop_ge by (cbn [base.length]; lia). f_equal; cbn [base.length]; lia.
    + rewrite Nat2Z.id. replace (Z.of_nat n + 1) with (Z.of_nat (S n)) by lia.
      rewrite IH by (rewrite ?length_insert; lia). f_equal.
      * replace (100 - n)%nat with (S (100 - S n)) by lia. cbn [take].
        rewrite (take_S_r _ n id) by (apply list_lookup_insert_eq; lia).
        rewrite take_insert_ge by lia. rewrite <- (assoc_L app). cbn [app]. do 3 f_equal.
        rewrite drop_insert_lt by lia. f_equal. cbn [base.length]. lia.
      * f_equal. cbn [base.length]. lia.
Qed.

(** ** Detection *)

Section correct.

Context {P V : Type} `{PageAllocatorLaws P, HV : PageAllocatorLaws V, !RoomLaws V}.
Context (root phys_bits : Z) (supports_1gib_pages : bool).
Context (rom : Z -> Z).
Hypothesis Hbits : 21 <= phys_bits <= 52.
Hypothesis Hvirt : pa_high (A := V) <= 2 ^ 47.
Hypothesis Hlow : 0x200000 <= pa_low (A := V).
Hypothesis Hrom : forall a, is_byte (rom a).

Implicit Types (s : Detect P V).

Abbreviation phys_bytes := (phys_bytes rom).
Abbreviation kernel_at := (kernel_at (P := P) (V := V) root phys_bits).

Lemma phys_bytes_app a n k : phys_bytes a (n + k) = phys_bytes a n ++ phys_bytes (a + Z.of_nat n) k.
Proof.
  revert a. induction n as [|n IH]; intros a.
  - simpl. by rewrite Z.add_0_r.
  - cbn [Firmware.phys_bytes Nat.add app]. rewrite IH. do 2 f_equal. f_equal. lia.
Qed.

Lemma phys_bytes_sub a bs off n :
  phys_bytes a (base.length bs) = bs -> (off + n <= base.length bs)%nat ->
  phys_bytes (a + Z.of_nat off) n = take n (drop off bs).
Proof.
  intros E Hn. rewrite <- E. replace (base.length bs) with (off + (n + (base.length bs - off - n)))%nat by lia.
  rewrite !phys_bytes_app. rewrite drop_app_length', take_app_length' by (rewrite length_phys_bytes; lia). done.
Qed.

(** A field in a run of known bytes. *)
Lemma phys_field_sub a bs (d : nat) fields name :
  phys_bytes a (base.length bs) = bs -> 0 <= offset_of fields name ->
  Z.of_nat d + offset_of fields name + Z.of_nat (field fields name).2 <= Z.of_nat (base.length bs) ->
  phys_field rom fields name (a + Z.of_nat d) =
    le (take (field fields name).2 (drop (d + Z.to_nat (offset_of fields name)) bs)).
Proof.
  intros E H0' Hn. unfold phys_field. f_equal. rewrite <- (phys_bytes_sub a) by (done || lia). f_equal. lia.
Qed.

(** The kernel of [s] with the MADT [t], at physical address [pa], mapped. *)
Definition madt_at (t : AcpiTable) (pa : Z) (f : Z -> Prop) (n : nat) (r : Z) s : Prop :=
  kernel_at f [(t, pa)] n r (kern (acpi s)).

Lemma field_at_run s t pa f n r name fields pos {A} (k : Z -> M (Detect P V) A) :
  madt_at t pa f n r s -> covers rom (t, pa) -> 0 <= pos -> 0 <= offset_of fields name ->
  pos + offset_of fields name + Z.of_nat (field fields name).2 <= table_size rom pa ->
  bind (field_at root rom fields name (header t + pos)) k s = k (phys_field rom fields name (pa + pos)) s.
Proof.
  intros Hk Hc H1' H2' H3'. unfold field_at, covers in *. cbn [fst snd] in Hc.
  rewrite (bind_done _ _ _ (phys_field rom fields name (pa + pos)) s); [done|]. unfold on_acpi, on_kern.
  rewrite (load_at root phys_bits rom f [(t, pa)] n r (kern (acpi s)) (t, pa) fields name (header t + pos) (pa + pos) Hk);
    cbn [fst snd]; [|by left|lia|lia|lia].
  destruct s as [[]]. done.
Qed.

Lemma table_end_run s t pa f n r {A} (k : Z -> M (Detect P V) A) :
  madt_at t pa f n r s -> covers rom (t, pa) -> 36 <= table_size rom pa ->
  bind (on_acpi (on_kern (table_end_address root rom t))) k s = k (header t + table_size rom pa) s.
Proof.
  intros Hk Hc Hs. pose proof (ka_areas _ _ _ _ _ _ _ Hk) as HF. inversion_clear HF as [|? ? Hb _].
  pose proof (ar_header _ _ _ Hb) as Eh. pose proof (ar_range _ _ _ Hb) as Hr. pose proof (page_offset_range pa).
  pose proof (pa_range (A := V)). pose proof (ar_length _ _ _ Hb). unfold covers in Hc. cbn [fst snd] in *.
  assert (HW : 2 ^ 47 < W64) by done.
  rewrite (bind_done _ _ _ (header t + table_size rom pa) s); [done|]. unfold on_acpi, on_kern, table_end_address, table_length.
  rewrite (bind_done _ _ _ (table_size rom pa) (kern (acpi s))).
  2: { apply (load_at root phys_bits rom f [(t, pa)] n r _ (t, pa) _ _ _ pa Hk); cbn [fst snd]; [by left|lia|..];
       change (offset_of AcpiSdtHeader "length") with 4; change (field AcpiSdtHeader "length").2 with 4%nat; lia. }
  unfold lift, header_start_address. rewrite add64_done by lia. cbn. by destruct s as [[]].
Qed.

(** *** One record *)

(** Mapping the registers of an I/O APIC. *)
Lemma map_ioapic_run s t pa f n r address :
  madt_at t pa f (3 + n) (4096 + r) s -> 0 <= r ->
  0 <= address < 2 ^ 32 -> address mod 4096 = 0 -> address + 4096 <= 2 ^ phys_bits ->
  exists s' f', map_ioapic root phys_bits supports_1gib_pages address s = Done (tt, s') /\
    madt_at t pa f' n r s' /\ apic_ids s' = apic_ids s /\ apic_idx s' = apic_idx s /\
    MADT (acpi s') = MADT (acpi s) /\
    (forall i, 0 <= i < 4096 -> translate (Paging.mem (mmu (kern (acpi s')))) root (ioapic s' + i) = Some (address + i)).
Proof.
  intros Hk Hr Ha Ham Hb.
  destruct (allocate_range root phys_bits supports_1gib_pages Hbits Hvirt Hlow (kern (acpi s)) f [(t, pa)] n r address 1
    ioapic_flags) as (va & k1 & k2 & E1 & E2 & K & Hva & _ & _ & Hx & _); try done; try lia; [by apply plain_flags_test|].
  change (4096 * Z.of_nat 1) with 4096 in *.
  exists (mkDetect (mkAcpi k2 (MADT (acpi s)) (PM1A_CNT_BLK (acpi s)) (SLP_TYPA (acpi s))) (apic_ids s) (apic_idx s) va).
  exists (fun x => f x /\ ~ va <= x < va + 4096). split_and!; try done.
  - unfold map_ioapic. change (SIZE BasePageSize) with 4096.
    rewrite (bind_done _ _ _ (Ok va) (mkDetect (mkAcpi k1 (MADT (acpi s)) (PM1A_CNT_BLK (acpi s)) (SLP_TYPA (acpi s)))
      (apic_ids s) (apic_idx s) (ioapic s))) by (unfold on_acpi, on_kern; by rewrite E1).
    rewrite (bind_lift_done _ _ va) by done. rewrite bind_modify. unfold on_acpi, on_kern. cbn [acpi kern].
    change (4096 / SIZE BasePageSize) with 1 in E2. by rewrite E2.
  - intros i Hi. cbn [acpi kern ioapic]. destruct (Hx (va + i) ltac:(lia)) as (_ & _ & _ & ->). f_equal. lia.
Qed.

(** What the records found so far have changed. *)
Definition io_mapped s (l : list Z) s' : Prop :=
  match last l with
  | Some a => forall i, 0 <= i < 4096 -> translate (Paging.mem (mmu (kern (acpi s')))) root (ioapic s' + i) = Some (a + i)
  | None => acpi s' = acpi s /\ ioapic s' = ioapic s
  end.

Record after_records s (rs : list madt_record) s' : Prop := {
  af_ids : (apic_ids s', apic_idx s') = register_all (enabled_ids rs) (apic_ids s, apic_idx s);
  af_madt : MADT (acpi s') = MADT (acpi s);
  af_io : io_mapped s (io_apics rs) s'
}.

Lemma encode_head r : record_ok phys_bits r ->
  exists ty rest, encode r = ty :: Z.of_nat (base.length (encode r)) :: rest /\
    Z.of_nat (base.length (encode r)) = 2 + Z.of_nat (base.length rest).
Proof.
  destruct r as [a i fl|i re ad g|ty body]; intros Hr.
  - exists 0, ([a; i] ++ le_bytes 4 fl). done.
  - exists 1, ([i; re] ++ le_bytes 4 ad ++ le_bytes 4 g). done.
  - exists ty, body. split; [|cbn [encode base.length]; lia]. cbn [encode base.length]. do 2 f_equal. lia.
Qed.

Lemma header_bound s t pa f n r :
  madt_at t pa f n r s -> covers rom (t, pa) -> 0 <= header t /\ header t + table_size rom pa <= 2 ^ 47.
Proof.
  intros Hk Hc. pose proof (ka_areas _ _ _ _ _ _ _ Hk) as HF. inversion_clear HF as [|? ? Hb _].
  pose proof (ar_header _ _ _ Hb) as Eh. pose proof (ar_range _ _ _ Hb) as Hr. pose proof (page_offset_range pa).
  unfold covers in Hc. cbn [fst snd] in *. lia.
Qed.

(** What a record does, between the loads of its type and of its length. *)
Definition record_effect (current entry_type : Z) : M (Detect P V) unit :=
  if entry_type =? 0 then
    let! flags := field_at root rom ProcessorLocalApicRecord "flags" current in
    if 0 <? Z.land flags CPU_FLAG_ENABLED then
      let! apic_id := field_at root rom ProcessorLocalApicRecord "apic_id" current in
      register apic_id
    else ret tt
  else if entry_type =? 1 then
    let! address := field_at root rom IoApicRecord "address" current in
    map_ioapic root phys_bits supports_1gib_pages address
  else ret tt.

Lemma take_le_bytes n x tl : take n (le_bytes n x ++ tl) = le_bytes n x.
Proof. apply take_app_length'. by rewrite length_le_bytes. Qed.

Lemma record_effect_spec s t pa f n r pos rec ty rest :
  madt_at t pa f (3 * base.length (io_apics [rec]) + n) (4096 * Z.of_nat (base.length (io_apics [rec])) + r) s ->
  covers rom (t, pa) -> 0 <= r -> 0 <= pos -> pos + Z.of_nat (base.length (encode rec)) <= table_size rom pa ->
  phys_bytes (pa + pos) (base.length (encode rec)) = encode rec -> record_ok phys_bits rec ->
  encode rec = ty :: rest ->
  exists s' f', record_effect (header t + (pos + 2)) ty s = Done (tt, s') /\ madt_at t pa f' n r s' /\
    after_records s [rec] s'.
Proof.
  intros Hk Hc Hr Hpos Hend Hb Hok Ety.
  destruct rec as [a i fl|i re ad g|ty' body]; injection Ety as <- <-; cbn [io_apics omap list_omap base.length] in Hk.
  - assert (Ef : phys_field rom ProcessorLocalApicRecord "flags" (pa + (pos + 2)) = fl).
    { rewrite Z.add_assoc, (phys_field_sub (pa + pos) _ 2 _ _ Hb) by done. change (drop _ _) with (le_bytes 4 fl).
      rewrite <- (app_nil_r (le_bytes 4 fl)). rewrite (take_le_bytes 4). by apply le_le_bytes. }
    assert (Ei : phys_field rom ProcessorLocalApicRecord "apic_id" (pa + (pos + 2)) = i).
    { rewrite Z.add_assoc, (phys_field_sub (pa + pos) _ 2 _ _ Hb) by done.
      change (take _ _) with [i]. cbn [le]. lia. }
    assert (Hl : base.length (encode (LocalApic a i fl)) = 8%nat) by done. rewrite Hl in Hend.
    unfold record_effect. change (0 =? 0) with true. cbv iota.
    rewrite (field_at_run s t pa f _ _ "flags" ProcessorLocalApicRecord (pos + 2) _ Hk Hc ltac:(lia) ltac:(done))
      by (change (offset_of ProcessorLocalApicRecord "flags") with 2; change (field ProcessorLocalApicRecord "flags").2 with 4%nat; lia).
    rewrite Ef. unfold CPU_FLAG_ENABLED. change 1 with (Z.ones 1). rewrite Z.land_ones by lia. change (2 ^ 1) with 2.
    rewrite Zmod_odd. cbn [enabled_ids omap list_omap]. destruct (Z.odd fl) eqn:Eo.
    + change (0 <? 1) with true. cbv iota.
      rewrite (field_at_run s t pa f _ _ "apic_id" ProcessorLocalApicRecord (pos + 2) _ Hk Hc ltac:(lia) ltac:(done))
        by (change (offset_of ProcessorLocalApicRecord "apic_id") with 1; change (field ProcessorLocalApicRecord "apic_id").2 with 1%nat; lia).
      rewrite Ei. unfold register, modify. destruct (add_id (apic_ids s) (apic_idx s) i) as [ids' n'] eqn:Ea.
      eexists _, f. split; [reflexivity|]. split; [exact Hk|]. split; [|done|done].
      cbn [enabled_ids omap list_omap apic_ids apic_idx]. rewrite Eo. unfold register_all. cbn [fold_left fst snd]. by rewrite Ea.
    + exists s, f. split; [done|]. split; [exact Hk|]. split; [|done|done]. cbn [enabled_ids omap list_omap]. by rewrite Eo.
  - destruct Hok as (Ha & Ham & Hab).
    assert (Ea : phys_field rom IoApicRecord "address" (pa + (pos + 2)) = ad).
    { rewrite Z.add_assoc, (phys_field_sub (pa + pos) _ 2 _ _ Hb) by done.
      change (drop _ _) with (le_bytes 4 ad ++ le_bytes 4 g). rewrite (take_le_bytes 4). by apply le_le_bytes. }
    assert (Hl : base.length (encode (IoApic i re ad g)) = 12%nat) by done. rewrite Hl in Hend.
    change (3 * 1 + n)%nat with (3 + n)%nat in Hk. change (4096 * Z.of_nat 1) with 4096 in Hk.
    unfold record_effect. change (1 =? 0) with false. change (1 =? 1) with true. cbv iota.
    rewrite (field_at_run s t pa f _ _ "address" IoApicRecord (pos + 2) _ Hk Hc ltac:(lia) ltac:(done))
      by (change (offset_of IoApicRecord "address") with 2; change (field IoApicRecord "address").2 with 4%nat; lia).
    rewrite Ea. destruct (map_ioapic_run s t pa f n r ad Hk Hr Ha Ham Hab) as (s' & f' & E & Hk' & E1 & E2 & E3 & Ht).
    exists s', f'. split; [done|]. split; [done|]. split; [|done|exact Ht]. cbn. by rewrite E1, E2.
  - destruct Hok as (N0 & N1 & _). exists s, f. split.
    + unfold record_effect. destruct (Z.eqb_spec ty' 0); [done|]. by destruct (Z.eqb_spec ty' 1).
    + split; [exact Hk|]. by split.
Qed.

Lemma detect_record_spec s t pa f n r pos rec :
  madt_at t pa f (3 * base.length (io_apics [rec]) + n) (4096 * Z.of_nat (base.length (io_apics [rec])) + r) s ->
  covers rom (t, pa) -> 0 <= r -> 0 <= pos -> pos + Z.of_nat (base.length (encode rec)) <= table_size rom pa ->
  phys_bytes (pa + pos) (base.length (encode rec)) = encode rec -> record_ok phys_bits rec ->
  exists s' f', detect_record root phys_bits supports_1gib_pages rom (header t + pos) s =
      Done (header t + (pos + Z.of_nat (base.length (encode rec))), s') /\
    madt_at t pa f' n r s' /\ after_records s [rec] s'.
Proof.
  intros Hk Hc Hr Hpos Hend Hb Hok. destruct (encode_head rec Hok) as (ty & rest & Ee & El).
  destruct (header_bound _ _ _ _ _ _ Hk Hc) as [Hh0 Hh1]. assert (HW : 2 ^ 47 < W64) by done.
  set (len := base.length (encode rec)) in *.
  destruct (record_effect_spec s t pa f n r pos rec ty _ Hk Hc Hr Hpos Hend Hb Hok Ee) as (s' & f' & E & Hk' & Ha).
  assert (Ety : phys_field rom AcpiMadtRecordHeader "entry_type" (pa + pos) = ty).
  { replace (pa + pos) with (pa + pos + Z.of_nat 0) by lia. rewrite (phys_field_sub (pa + pos) (encode rec) 0) by
      (done || change (offset_of AcpiMadtRecordHeader "entry_type") with 0;
       change (field AcpiMadtRecordHeader "entry_type").2 with 1%nat; fold len; lia).
    rewrite Ee. change (take _ _) with [ty]. cbn [le]. lia. }
  assert (Elen : phys_field rom AcpiMadtRecordHeader "length" (pa + pos) = Z.of_nat len).
  { replace (pa + pos) with (pa + pos + Z.of_nat 0) by lia. rewrite (phys_field_sub (pa + pos) (encode rec) 0) by
      (done || change (offset_of AcpiMadtRecordHeader "length") with 1;
       change (field AcpiMadtRecordHeader "length").2 with 1%nat; fold len; lia).
    rewrite Ee. change (take _ _) with [Z.of_nat len]. cbn [le]. lia. }
  exists s', f'. split; [|done]. unfold detect_record.
  rewrite (bind_lift_done _ _ (header t + (pos + 2))).
  2: { change (size_of AcpiMadtRecordHeader) with 2. rewrite add64_done by lia. f_equal. lia. }
  rewrite (field_at_run s t pa f _ _ "entry_type" AcpiMadtRecordHeader pos _ Hk Hc ltac:(lia) ltac:(done))
    by (change (offset_of AcpiMadtRecordHeader "entry_type") with 0; change (field AcpiMadtRecordHeader "entry_type").2 with 1%nat; lia).
  rewrite Ety. fold (record_effect (header t + (pos + 2)) ty). rewrite (bind_done _ _ _ _ _ E).
  rewrite (field_at_run s' t pa f' n r "length" AcpiMadtRecordHeader pos _ Hk' Hc ltac:(lia) ltac:(done))
    by (change (offset_of AcpiMadtRecordHeader "length") with 1; change (field AcpiMadtRecordHeader "length").2 with 1%nat; lia).
  rewrite Elen. change (size_of AcpiMadtRecordHeader) with 2.
  rewrite (bind_lift_done _ _ (Z.of_nat len - 2)) by (apply sub64_done; lia).
  unfold lift. rewrite add64_done by lia. cbn [obind]. do 2 f_equal. lia.
Qed.

(** The records of a list, one after the other. *)
Lemma after_records_cons s s1 s' rec recs :
  after_records s [rec] s1 -> after_records s1 recs s' -> after_records s (rec :: recs) s'.
Proof.
  intros [A1 A2 A3] [B1 B2 B3]. split.
  - change (rec :: recs) with ([rec] ++ recs). unfold enabled_ids. rewrite omap_app. unfold register_all. rewrite fold_left_app.
    unfold register_all, enabled_ids in A1. rewrite <- A1. exact B1.
  - congruence.
  - change (rec :: recs) with ([rec] ++ recs). unfold io_apics. rewrite omap_app. unfold io_mapped in *.
    fold (io_apics [rec]). fold (io_apics recs). rewrite last_app. destruct (last (io_apics recs)); [done|].
    destruct B3 as [-> ->]. exact A3.
Qed.

Lemma detect_records_spec t pa n r recs : forall fuel s f pos,
  (base.length recs <= fuel)%nat -> covers rom (t, pa) -> 0 <= r -> 36 <= pos ->
  madt_at t pa f (3 * base.length (io_apics recs) + n) (4096 * Z.of_nat (base.length (io_apics recs)) + r) s ->
  pos + Z.of_nat (base.length (concat (encode <$> recs))) = table_size rom pa ->
  phys_bytes (pa + pos) (base.length (concat (encode <$> recs))) = concat (encode <$> recs) ->
  Forall (record_ok phys_bits) recs ->
  exists s' f', detect_records root phys_bits supports_1gib_pages rom fuel t (header t + pos) s = Done (tt, s') /\
    madt_at t pa f' n r s' /\ after_records s recs s'.
Proof.
  induction recs as [|rec recs IH]; intros fuel s f pos Hf Hc Hr Hpos Hk Hend Hb Hok.
  - exists s, f. cbn [fmap list_fmap concat base.length] in Hend.
    assert (E : forall fuel, detect_records root phys_bits supports_1gib_pages rom fuel t (header t + pos) s = Done (tt, s)).
    { intros fl. destruct fl; cbn [detect_records]; rewrite (table_end_run s t pa f _ _ _ Hk Hc) by lia;
        (destruct (Z.ltb_spec (header t + pos) (header t + table_size rom pa)); [lia|done]). }
    split; [apply E|]. split; [exact Hk|]. by split.
  - cbn [fmap list_fmap concat] in *. rewrite length_app in *. apply Forall_cons in Hok as [Hok Hoks].
    destruct (encode_head rec Hok) as (ty & rest & Ee & El).
    destruct fuel as [|fuel]; [cbn [base.length] in Hf; lia|]. cbn [base.length] in Hf.
    assert (Hio : base.length (io_apics (rec :: recs)) = (base.length (io_apics [rec]) + base.length (io_apics recs))%nat)
      by (change (rec :: recs) with ([rec] ++ recs); unfold io_apics; by rewrite omap_app, length_app).
    rewrite Hio in Hk.
    destruct (detect_record_spec s t pa f (3 * base.length (io_apics recs) + n) (4096 * Z.of_nat (base.length (io_apics recs)) + r)
      pos rec) as (s1 & f1 & E1 & Hk1 & A1); [|done|lia|lia|lia| |done|].
    { unfold madt_at in *. replace (3 * base.length (io_apics [rec]) + (3 * base.length (io_apics recs) + n))%nat
        with (3 * (base.length (io_apics [rec]) + base.length (io_apics recs)) + n)%nat by lia.
      replace (4096 * Z.of_nat (base.length (io_apics [rec])) + (4096 * Z.of_nat (base.length (io_apics recs)) + r))
        with (4096 * Z.of_nat (base.length (io_apics [rec]) + base.length (io_apics recs)) + r) by lia. exact Hk. }
    { rewrite phys_bytes_app in Hb. by apply app_inj_1 in Hb as [Hb _]; [|by rewrite length_phys_bytes]. }
    destruct (IH fuel s1 f1 (pos + Z.of_nat (base.length (encode rec)))) as (s' & f' & E' & Hk' & A'); try done; try lia.
    { rewrite phys_bytes_app in Hb. apply app_inj_1 in Hb as [_ Hb]; [|by rewrite length_phys_bytes].
      by rewrite Z.add_assoc. }
    exists s', f'. split_and!; [|done|by eapply after_records_cons].
    cbn [detect_records]. rewrite (table_end_run s t pa f _ _ _ Hk Hc) by lia.
    destruct (Z.ltb_spec (header t + pos) (header t + table_size rom pa)); [|lia].
    by rewrite (bind_done _ _ _ _ _ E1).
Qed.

(** C29. On a MADT that holds the records [recs], [detect_from_acpi] ends without a
    fault and gives the address of the local APIC; the identifiers of the enabled
    processors are registered in their order, as far as the array has
    room, and the registers of the last I/O APIC listed are mapped where
    [IOAPIC_ADDRESS] says. *)
Theorem detect_from_acpi_correct s t pa f n recs fuel :
  MADT (acpi s) = Some t ->
  madt_at t pa f (3 * base.length (io_apics recs) + n) (4096 * Z.of_nat (base.length (io_apics recs))) s ->
  covers rom (t, pa) ->
  table_size rom pa = 44 + Z.of_nat (base.length (concat (encode <$> recs))) ->
  phys_bytes (pa + 44) (base.length (concat (encode <$> recs))) = concat (encode <$> recs) ->
  Forall (record_ok phys_bits) recs -> (base.length recs <= fuel)%nat ->
  exists s', detect_from_acpi root phys_bits supports_1gib_pages rom fuel s =
      Done (phys_field rom AcpiMadtHeader "local_apic_address" (pa + 36), s') /\
    (apic_ids s', apic_idx s') = register_all (enabled_ids recs) (apic_ids s, apic_idx s) /\
    match last (io_apics recs) with
    | Some a => forall i, 0 <= i < 4096 ->
        translate (Paging.mem (mmu (kern (acpi s')))) root (ioapic s' + i) = Some (a + i)
    | None => ioapic s' = ioapic s
    end.
Proof.
  intros Hm Hk Hc Hsz Hb Hok Hf. destruct (header_bound _ _ _ _ _ _ Hk Hc) as [Hh0 Hh1]. assert (HW : 2 ^ 47 < W64) by done.
  destruct (detect_records_spec t pa n 0 recs fuel s f 44 Hf Hc) as (s' & f' & E & Hk' & [A1 A2 A3]); try done; try lia.
  { by rewrite Z.add_0_r. }
  exists s'. split_and!; [|done|].
  - unfold detect_from_acpi. rewrite (bind_done _ _ _ (Some t) s).
    2: { unfold on_acpi, get_madt, gets. rewrite Hm. by destruct s. }
    rewrite (bind_lift_done _ _ t) by done. rewrite (bind_lift_done _ _ (header t + 36)).
    2: { unfold table_start_address, header_start_address. change (size_of AcpiSdtHeader) with 36. apply add64_done. lia. }
    rewrite (bind_lift_done _ _ (header t + 44)).
    2: { change (size_of AcpiMadtHeader) with 8. rewrite add64_done by lia. f_equal. lia. }
    rewrite (bind_done _ _ _ _ _ E). pose proof (field_at_run s' t pa f' n 0 "local_apic_address" AcpiMadtHeader 36 ret Hk' Hc
      ltac:(lia) ltac:(done)) as Er.
    assert (Hbr : forall {A} (o : M (Detect P V) A), bind o ret s' = o s').
    { intros A o. unfold bind, ret. by destruct (o s') as [[? ?]| |]. }
    rewrite Hbr in Er. apply Er. change (offset_of AcpiMadtHeader "local_apic_address") with 0.
    change (field AcpiMadtHeader "local_apic_address").2 with 4%nat. lia.
  - unfold io_mapped in A3. destruct (last (io_apics recs)); [done|]. by destruct A3.
Qed.

End correct.

(** ** An example *)

Definition sample_records : list madt_record :=
  [LocalApic 0 0 1; LocalApic 1 6 0; OtherRecord 2 [0; 0; 2; 0; 0; 0; 0; 0]; LocalApic 2 4 1; IoApic 2 0 0xFEC00000 0].

Definition sample_madt : Z := 0x300FF0.

Definition sample_madt_rom : Z -> Z :=
  rom_of [(sample_madt, sdt "APIC" (le_bytes 4 0xFEE00000 ++ le_bytes 4 1 ++ concat (encode <$> sample_records)))].

Section sample.

#[local] Existing Instances Mm.sample_phys Mm.sample_virt Mm.sample_phys_laws Mm.sample_virt_laws.
#[local] Instance sample_madt_room : RoomLaws VirtMem := virt_room_laws sample_end _.

Lemma sample_madt_mapped :
  exists t k f, Firmware.kernel_at (P := PhysMem) (V := VirtMem) sample_root 39 f [(t, sample_madt)] 3 4096 k /\
    covers sample_madt_rom (t, sample_madt).
Proof.
  assert (Hsup : supply (1536 + 9) (Paging.frames (mmu sample_kernel))) by (apply supply_test_ok; vm_compute; reflexivity).
  destruct (sample_low_ok 9 Hsup) as (H1 & H2 & H3).
  assert (Hroom : 4096 * 3 <= kernel_heap_end - sample_end) by (vm_compute; discriminate).
  assert (Hpages : table_pages sample_madt_rom sample_madt = 2) by (vm_compute; reflexivity).
  destruct (AcpiTable_map_spec (P := PhysMem) (V := VirtMem) sample_root 39 false sample_madt_rom ltac:(lia) sample_virt_high
    ltac:(by vm_compute) (rom_of_byte _) sample_low (pa_free (virt sample_low)) [] 3 4096 sample_madt) as (t & k' & _ & K & C).
  - split; [by vm_compute|]. vm_compute. discriminate.
  - lia.
  - rewrite Hpages. split; [exact H1|exact H2|exact H3|exact (sample_room_ok _ Hroom)|constructor|done|].
    intros x. rewrite Exists_nil. tauto.
  - by exists t, k', (pa_free (virt sample_low)).
Qed.

Lemma detect_from_acpi_correct_witness :
  exists s s', detect_from_acpi (P := PhysMem) (V := VirtMem) sample_root 39 false sample_madt_rom 5 s = Done (0xFEE00000, s') /\
    apic_ids s' = [0; 4] ++ replicate 98 255 /\ apic_idx s' = 2 /\
    translate (Paging.mem (mmu (kern (acpi s')))) sample_root (ioapic s' + 0x10) = Some 0xFEC00010.
Proof.
  destruct sample_madt_mapped as (t & k & f & K & C).
  set (s := mkDetect (mkAcpi k (Some t) None None) (replicate 100 255) 0 0). exists s.
  destruct (detect_from_acpi_correct (P := PhysMem) (V := VirtMem) sample_root 39 false sample_madt_rom ltac:(lia) sample_virt_high
    ltac:(by vm_compute) s t sample_madt f 0 sample_records 5) as (s' & E & Ei & Hio).
  - reflexivity.
  - exact K.
  - exact C.
  - vm_compute. reflexivity.
  - vm_compute. reflexivity.
  - repeat constructor; by vm_compute.
  - by vm_compute.
  - exists s'. assert (Ep : phys_field sample_madt_rom AcpiMadtHeader "local_apic_address" (sample_madt + 36) = 0xFEE00000)
      by (vm_compute; reflexivity).
    rewrite Ep in E. assert (Er : register_all (enabled_ids sample_records) (replicate 100 255, 0) = ([0; 4] ++ replicate 98 255, 2))
      by (vm_compute; reflexivity).
    change (apic_ids s) with (replicate 100 255) in Ei. change (apic_idx s) with 0 in Ei. rewrite Er in Ei. injection Ei as E1 E2.
    split; [exact E|]. split; [exact E1|]. split; [exact E2|]. apply (Hio 0x10). lia.
Defined.

End sample.
