(* ===== verification/Net.v ===== *)
(** * The network of uhyve: src/drivers/net/mod.rs and uhyve.rs

    Packets are in the hypervisor until the kernel asks for them, one by one. An interrupt says
    that there are some; the driver then is in polling mode, until a request finds none. The
    requests are structs as those of Hypercall.v, at [frame] on the stack. The lock of
    [NIC] turns interrupts off, and what a function does under it is one step here, apart from
    packets that arrive meanwhile. *)

From Stdlib Require Import ZArith Lia String.
From stdpp Require Import base numbers list gmap.
From S2P Require Import Prelude Pte Mmu Paging Mm Mpk Cpu Isolation Gate Bytes CopySafe Storage BootInfo Tasks Scheduler Synch Calls Hypercall.
From S2P Require Irq Apic Percore.

#[local] Open Scope Z_scope.

Definition UHYVE_IRQ_NET : Z := 11.
Definition UHYVE_PORT_NETINFO : Z := 0x600.
Definition UHYVE_PORT_NETWRITE : Z := 0x640.
Definition UHYVE_PORT_NETREAD : Z := 0x680.

(** [#[repr(C)]]; the fields of [UhyveRead] and [UhyveWrite] have no padding between them. *)
Definition UhyveNetinfo : layout := [("mac", 18)]%string.
Definition UhyveRead : layout := [("data", 8); ("len", 8); ("ret", 4)]%string.
Definition UhyveWrite : layout := [("data", 8); ("len", 8); ("ret", 4)]%string.

Record UhyveNetwork := mkUhyveNetwork { sem : Z; mac : list Z; polling : bool }.

Definition UhyveNetwork_new (mac : list Z) : UhyveNetwork := mkUhyveNetwork 0 mac false.

(** A core with its APIC and the register of its per-core variables, the memory shared with the
    hypervisor and what is the hypervisor's, the machine of tasks, interrupts, and [NIC]. *)
Record Net (F X K : Type) := mkNet {
  apic : Apic.Apic F;
  gsbase : Z;
  ram : gmap Z Z;
  host : X;
  calls : Calls K;
  ints : Irq.Interrupts;
  NIC : option UhyveNetwork
}.
Arguments mkNet {F X K} _ _ _ _ _ _ _.
Arguments apic {F X K} _.
Arguments gsbase {F X K} _.
Arguments ram {F X K} _.
Arguments host {F X K} _.
Arguments calls {F X K} _.
Arguments ints {F X K} _.
Arguments NIC {F X K} _.

Section net.

Context {F : Type} `{FrameSource F} {X : Type} {K : Type} `{KernelMemory K}.
Context (root BOOT_INFO : Z) (vmexit : Z -> Z -> gmap Z Z * X -> gmap Z Z * X).
Context (supports_x2apic : bool) (apic_hardware : list Apic.event -> Apic.place -> Z) (fuel : nat).
Context (PERCORE me : Z) (irqhandler frame : Z).

Abbreviation Run := (M (Net F X K)).
Abbreviation State := (Net F X K).

(** ** Operations of the parts *)

Definition with_NIC (n : option UhyveNetwork) (s : State) : State :=
  mkNet (apic s) (gsbase s) (ram s) (host s) (calls s) (ints s) n.
Definition with_apic (a : Apic.Apic F) (s : State) : State :=
  mkNet a (gsbase s) (ram s) (host s) (calls s) (ints s) (NIC s).
Definition with_calls (c : Calls K) (s : State) : State :=
  mkNet (apic s) (gsbase s) (ram s) (host s) c (ints s) (NIC s).
Definition with_ints (i : Irq.Interrupts) (s : State) : State :=
  mkNet (apic s) (gsbase s) (ram s) (host s) (calls s) i (NIC s).

Definition bay_of (s : State) : Bay F := Apic.bay (apic s).
Definition with_bay (b : Bay F) (s : State) : State := with_apic (Apic.with_bay b (apic s)) s.

Definition guest_of (s : State) : Guest F X := mkGuest (bay_of s) (ram s) (host s).
Definition with_guest (g : Guest F X) (s : State) : State :=
  mkNet (Apic.with_bay (Hypercall.bay g) (apic s)) (gsbase s) (Hypercall.ram g) (Hypercall.host g) (calls s) (ints s) (NIC s).

Definition on_apic {A} (o : M (Apic.Apic F) A) : Run A := fun s =>
  let? (a, x) := o (apic s) in Done (a, with_apic x s).
Definition on_bay {A} (o : M (Bay F) A) : Run A := fun s =>
  let? (a, x) := o (bay_of s) in Done (a, with_bay x s).
Definition on_guest {A} (o : M (Guest F X) A) : Run A := fun s =>
  let? (a, x) := o (guest_of s) in Done (a, with_guest x s).
Definition on_calls {A} (o : M (Calls K) A) : Run A := fun s =>
  let? (a, x) := o (calls s) in Done (a, with_calls x s).
Definition on_ints {A} (o : M Irq.Interrupts A) : Run A := fun s =>
  let? (a, x) := o (ints s) in Done (a, with_ints x s).
Definition on_percore {A} (o : M (Percore.PerCore F) A) : Run A := fun s =>
  let? (a, x) := o (Percore.mkPerCore (bay_of s) (gsbase s)) in
  Done (a, mkNet (Apic.with_bay (Percore.bay x) (apic s)) (Percore.gsbase x) (ram s) (host s) (calls s) (ints s) (NIC s)).

(** The core, for [kernel_function!] *)
#[export, refine] Instance NetCore : OnCore F (Net F X K) := {
  the_core s := cpu (bay_of s);
  set_core m s := with_bay (with_cpu m (bay_of s)) s
}.
Proof. all: done. Defined.

(** ** uhyve.rs *)

Definition is_polling (nic : UhyveNetwork) : bool := polling nic.

(** [sys_sem_post] is the system call, with its gates. *)
Definition set_polling (mode : bool) (nic : UhyveNetwork) : Run unit :=
  let nic := mkUhyveNetwork (sem nic) (mac nic) mode in
  modify (with_NIC (Some nic)) ;;;
  if mode && negb (sem nic =? 0) then kernel_function (on_calls (sys_sem_post me (sem nic))) ;;; ret tt else ret tt.

(** [ip], [gateway] and [mac] are results; a MAC address that is not text panics. *)
Definition network_init (utf8 : list Z -> bool) (sem : Z) (nic : UhyveNetwork) : Run (Z * list Z * list Z * list Z) :=
  massert (utf8 (mac nic)) ;;;
  let! myip := on_bay (get_ip root BOOT_INFO) in
  let! mygw := on_bay (get_gateway root BOOT_INFO) in
  modify (with_NIC (Some (mkUhyveNetwork sem (mac nic) (polling nic)))) ;;;
  ret (0, myip, mygw, mac nic).

Definition network_write (buf len : Z) : Run Z :=
  let! data := on_guest (virt_to_phys root buf) in
  on_guest (store_struct root UhyveWrite frame [data; len; 0]) ;;;
  let! irq := on_ints Irq.nested_disable in
  on_guest (uhyve_send root vmexit UHYVE_PORT_NETWRITE frame) ;;;
  on_ints (Irq.nested_enable irq) ;;;
  on_guest (load_field root UhyveWrite frame "len").

(** The part of [read] up to the request, and the rest of it *)
Definition read_request (buf len : Z) : Run bool :=
  let! data := on_guest (virt_to_phys root buf) in
  on_guest (store_struct root UhyveRead frame [data; len; 0]) ;;;
  let! irq := on_ints Irq.nested_disable in
  on_guest (uhyve_send root vmexit UHYVE_PORT_NETREAD frame) ;;;
  ret irq.

Definition read_finish (nic : UhyveNetwork) (irq : bool) : Run Z :=
  let! r := on_guest (load_signed root UhyveRead frame "ret") in
  if r =? 0 then
    on_ints (Irq.nested_enable irq) ;;;
    on_guest (load_field root UhyveRead frame "len")
  else
    set_polling false nic ;;;
    on_ints (Irq.nested_enable irq) ;;;
    ret 0.

Definition network_read (buf len : Z) (nic : UhyveNetwork) : Run Z :=
  let! irq := read_request buf len in
  read_finish nic irq.

(** [init] of uhyve.rs; interrupts are on afterwards. *)
Definition uhyve_init : Run (option UhyveNetwork) :=
  let! ip := on_bay (get_ip root BOOT_INFO) in
  if bool_decide (ip = [0xff; 0xff; 0xff; 0xff]) then ret None
  else
    on_ints Irq.disable ;;;
    on_guest (store_struct root UhyveNetinfo frame [0]) ;;;
    on_guest (uhyve_send root vmexit UHYVE_PORT_NETINFO frame) ;;;
    let! mac := on_guest (load_bytes root frame 18) in
    on_ints (Irq.irq_install_handler UHYVE_IRQ_NET irqhandler) ;;;
    on_ints Irq.enable ;;;
    ret (Some (UhyveNetwork_new mac)).

(** ** mod.rs *)

(** A function of the interface, and what is returned without one *)
Definition with_nic {A} (f : UhyveNetwork -> Run A) (none : A) : Run A :=
  let! n := gets NIC in
  match n with Some nic => f nic | None => ret none end.

Definition init : Run bool :=
  let! nic := uhyve_init in
  match nic with
  | Some nic => modify (with_NIC (Some nic)) ;;; ret true
  | None => ret false
  end.

Definition sys_network_init (utf8 : list Z -> bool) (sem : Z) : Run (Z * option (list Z * list Z * list Z)) :=
  with_nic (fun nic => let! r := network_init utf8 sem nic in ret (r.1.1.1, Some (r.1.1.2, r.1.2, r.2))) (-1, None).
Definition sys_is_polling : Run bool := with_nic (fun nic => ret (is_polling nic)) false.
Definition sys_set_polling (mode : bool) : Run unit := with_nic (set_polling mode) tt.
Definition sys_netread (buf len : Z) : Run Z := with_nic (network_read buf len) 0.
Definition sys_netwrite (buf len : Z) : Run Z := with_nic (fun _ => network_write buf len) 0.

(** The interrupt handler *)
Definition uhyve_irqhandler : Run unit :=
  sys_set_polling true ;;;
  on_apic (Apic.eoi root apic_hardware supports_x2apic fuel) ;;;
  on_percore (Percore.core_scheduler root PERCORE) ;;;
  on_calls (reschedule me).

End net.

(** ** Correctness *)

(** *** The interrupt handler *)

Section handler.

Context {F : Type} `{FrameSource F}.
Context (root PERCORE : Z).

Implicit Types (m : Machine F) (b : Bay F).

(** The core cannot use unsafe memory of the kernel, where its storage is. *)
Record storage_locked b : Prop := {
  sl_pkru : in_u32 (pkru_of (cpu b));
  sl_rights : perm_of (pkru_of (cpu b)) Mm.UNSAFE_MEM_REGION = MpkNone;
  sl_storage : kernel_gsbase b <> 0;
  sl_key : forall a, kernel_gsbase b <= a < kernel_gsbase b + size_of Percore.PerCoreVariables ->
             page_key root (cpu b) a = Some Mm.UNSAFE_MEM_REGION
}.

Lemma key_denied m a k w : page_key root m a = Some k -> perm_of (pkru_of m) k = MpkNone -> permitted root m a w = false.
Proof.
  intros Hk Hp. destruct (permitted root m a w) eqn:E; [|done]. exfalso.
  apply permitted_key in E as (k' & Hk' & Hn). rewrite Hk in Hk'. by injection Hk' as <-.
Qed.

Lemma storage_denied b a w :
  storage_locked b -> kernel_gsbase b <= a < kernel_gsbase b + size_of Percore.PerCoreVariables ->
  permitted root (cpu b) a w = false.
Proof. intros L Ha. eapply key_denied; [by apply L|by apply L]. Qed.

(** The gates of an isolated call do not change this. *)
Lemma locked_gated b m sp p :
  storage_locked b -> gated (cpu b) m sp p -> in_u32 p -> perm_of p Mm.UNSAFE_MEM_REGION = MpkNone ->
  storage_locked (with_cpu m b).
Proof.
  intros [L1 L2 L3 L4] G Hu Hp. split; cbn [cpu with_cpu kernel_gsbase]; [by rewrite (gt_pkru _ _ _ _ G)|by rewrite (gt_pkru _ _ _ _ G)|done|].
  intros a Ha. unfold page_key. rewrite (gt_mmu _ _ _ _ G). by apply L4.
Qed.

Lemma locked_start b :
  storage_locked b -> exists m, on_cpu isolation_start b = Done (tt, with_cpu m b) /\ storage_locked (with_cpu m b).
Proof.
  intros L. destruct (bay_start b (sl_pkru _ L)) as (m & E & G). exists m. split; [exact E|].
  eapply locked_gated; [done|exact G|apply isolated_pkru_u32, L|].
  rewrite isolated_perm, decide_False by (by vm_compute). apply L.
Qed.

Lemma locked_end b :
  storage_locked b -> exists m, on_cpu isolation_end b = Done (tt, with_cpu m b) /\ storage_locked (with_cpu m b).
Proof.
  intros L. destruct (isolation_end_spec (cpu b) (sl_pkru _ L)) as (m & E & G). exists m. split; [unfold on_cpu; by rewrite E|].
  eapply locked_gated; [done|exact G|apply restored_pkru_u32, L|].
  rewrite restored_perm, decide_False by (by vm_compute). apply L.
Qed.

Lemma load_bytes_cases b a n :
  CopySafe.load_bytes root a n b = Panic \/ exists bs, CopySafe.load_bytes root a n b = Done (bs, b) /\ length bs = n.
Proof.
  revert a. induction n as [|n IH]; intros a; [right; by exists []|]. cbn [CopySafe.load_bytes]. unfold bind at 1 3, CopySafe.load8.
  destruct (permitted root (cpu b) a false); [|by left]. cbn [obind fst snd].
  destruct (IH (a + 1)) as [E|(bs & E & Hl)].
  - left. unfold bind. by rewrite E.
  - right. exists (default 0 (bytes b !! a) :: bs). split; [|simpl; by rewrite Hl]. rewrite (bind_done _ _ _ _ _ E). done.
Qed.

(** A copy to the storage faults or is refused. *)
Lemma locked_copy b src :
  storage_locked b ->
  copy_from_safe root (size_of Percore.PerCoreVariables) src 1 b = Panic \/
  copy_from_safe root (size_of Percore.PerCoreVariables) src 1 b = Done (tt, b).
Proof.
  intros L. unfold copy_from_safe. destruct (src =? 0) eqn:E0; [by right|]. change (SIZE <? 1) with false. cbv iota.
  destruct (permitted root (cpu b) safe_data_start false) eqn:Ep.
  2: { left. unfold is_valid. rewrite E0, bind_assoc. unfold bind at 1, safe_var. by rewrite Ep. }
  rewrite is_valid_run by done. destruct (valid b src); [|by right]. left.
  rewrite get_unsafe_storage_run. change (Z.to_nat (1 * size_of Percore.PerCoreVariables)) with 24%nat. unfold copy_nonoverlapping.
  destruct (load_bytes_cases b src 24) as [E|(bs & E & Hl)]; [unfold bind; by rewrite E|].
  rewrite (bind_done _ _ _ _ _ E). destruct bs as [|v bs]; [done|]. cbn [CopySafe.store_bytes]. unfold bind at 1, CopySafe.store8.
  rewrite (storage_denied b _ true L) by (change (size_of Percore.PerCoreVariables) with 24; lia). done.
Qed.

(** Steps of operations on the per-core variables *)
Lemma percore_run {A B} (o : M (Bay F) A) b gs (k : A -> M (Percore.PerCore F) B) r b' :
  o b = Done (r, b') -> bind (Percore.on_bay o) k (Percore.mkPerCore b gs) = k r (Percore.mkPerCore b' gs).
Proof. intros E. unfold bind, Percore.on_bay. cbn. by rewrite E. Qed.

Lemma percore_panic {A B} (o : M (Bay F) A) b gs (k : A -> M (Percore.PerCore F) B) :
  o b = Panic -> bind (Percore.on_bay o) k (Percore.mkPerCore b gs) = Panic.
Proof. intros E. unfold bind, Percore.on_bay. cbn. by rewrite E. Qed.

Lemma locked_readgs b gs {B} (k : Z -> M (Percore.PerCore F) B) :
  storage_locked b -> exists m, storage_locked (with_cpu m b) /\
    bind Percore.readgs k (Percore.mkPerCore b gs) = k gs (Percore.mkPerCore (with_cpu m b) gs).
Proof.
  intros L. destruct (locked_start b L) as (m1 & E1 & L1). destruct (locked_end _ L1) as (m2 & E2 & L2).
  exists m2. split; [exact L2|]. unfold Percore.readgs, Percore.start_isolation, Percore.end_isolation.
  by rewrite bind_assoc, (percore_run _ _ _ _ _ _ E1), bind_assoc, bind_gets, bind_assoc, (percore_run _ _ _ _ _ _ E2), bind_ret.
Qed.

(** The load of a variable from the storage faults. *)
Lemma locked_gs_load b gs o {B} (k : Z -> M (Percore.PerCore F) B) :
  storage_locked b -> 0 <= o < 24 -> bind (Percore.gs_load root o) k (Percore.mkPerCore (with_gsbase gs b) (kernel_gsbase b)) = Panic.
Proof.
  intros L Ho. unfold Percore.gs_load. rewrite bind_assoc, bind_gets. apply percore_panic.
  cbn [CopySafe.load_bytes Percore.gsbase]. rewrite bind_assoc. unfold bind at 1, CopySafe.load8. cbn [cpu with_gsbase].
  rewrite (storage_denied b _ false L) by (change (size_of Percore.PerCoreVariables) with 24; lia). done.
Qed.

(** So the scheduler of the core cannot be found. *)
Lemma core_scheduler_faults (s : Percore.PerCore F) :
  storage_locked (Percore.bay s) -> Percore.core_scheduler root PERCORE s = Panic.
Proof.
  intros L. destruct s as [b gs]. cbn [Percore.bay] in L. unfold Percore.core_scheduler.
  assert (Ei : is_unsafe_storage_init b = Done (true, b)).
  { unfold is_unsafe_storage_init, gets. destruct (Z.eqb_spec (kernel_gsbase b) 0) as [E|]; [by destruct (sl_storage _ L)|done]. }
  rewrite (percore_run _ _ _ _ _ _ Ei). unfold Percore.safe_get.
  match goal with |- bind _ ?k _ = _ => destruct (locked_readgs b gs k L) as (m & L2 & ->) end.
  destruct (locked_copy _ gs L2) as [E3|E3]; [by apply percore_panic|]. rewrite (percore_run _ _ _ _ _ _ E3).
  assert (Eo : Percore.offset PERCORE "scheduler" = Done 8).
  { unfold Percore.offset. rewrite sub64_done by (change (offset_of Percore.PerCoreVariables "scheduler") with 8; unfold W64; lia).
    change (offset_of Percore.PerCoreVariables "scheduler") with 8. f_equal. lia. }
  rewrite (bind_lift_done _ _ _ _ Eo).
  destruct (locked_start _ L2) as (m3 & E4 & L3).
  unfold Percore.start_isolation. rewrite (percore_run _ _ _ _ _ _ E4).
  unfold Percore.swapgs. rewrite bind_modify. apply (locked_gs_load (with_cpu m3 (with_cpu m b))); [exact L3|lia].
Qed.

End handler.

Section net_handler.

Context {F : Type} `{FrameSource F} {X : Type} {K : Type} `{KernelMemory K}.
Context (root PERCORE me : Z) (supports_x2apic : bool) (apic_hardware : list Apic.event -> Apic.place -> Z) (fuel : nat).

Implicit Types (s : Net F X K).

Lemma on_bay_step {A B} (o : M (Bay F) A) s (k : A -> M (Net F X K) B) r b' :
  o (bay_of s) = Done (r, b') -> bind (on_bay o) k s = k r (with_bay b' s).
Proof. intros E. unfold bind, on_bay. by rewrite E. Qed.

Lemma on_cpu_step {A B} (o : M (Machine F) A) s (k : A -> M (Net F X K) B) r m' :
  o (cpu (bay_of s)) = Done (r, m') -> bind (on_bay (on_cpu o)) k s = k r (with_bay (with_cpu m' (bay_of s)) s).
Proof. intros E. apply on_bay_step. unfold on_cpu. by rewrite E. Qed.

(** A system call in the kernel, on the machine of tasks: afterwards the core has the rights
    of an application. *)
Lemma kernel_function_locks {A} (o : M (Calls K) A) s r c :
  o (calls s) = Done (r, c) ->
  exists m, kernel_function (on_calls o) s = Done (r, with_calls c (with_bay (with_cpu m (bay_of s)) s)) /\
    gated (cpu (bay_of s)) m (regs (cpu (bay_of s)) RSP) 0xFC.
Proof.
  intros Eo. destruct (kernel_function_run (on_calls o) s) as (m1 & G1 & Hk).
  unfold on_calls at 1 in Hk. cbn [calls set_core NetCore with_bay with_apic] in Hk. rewrite Eo in Hk.
  destruct Hk as (m2 & E & G2). exists m2. split; [exact E|]. by eapply gated_trans.
Qed.

(** C40. The interrupt handler of the network never ends well once an application has given the
    driver its semaphore: to wake the application's thread the handler makes the system call
    [sys_sem_post], whose gate leaves the core with the rights of an application. So the
    handler can neither acknowledge the interrupt nor find the scheduler, and faults. *)
Theorem uhyve_irqhandler_faults s nic r c :
  NIC s = Some nic -> sem nic <> 0 -> sys_sem_post me (sem nic) (calls s) = Done (r, c) ->
  page_key root (cpu (bay_of s)) safe_data_start = Some Mm.SAFE_MEM_REGION ->
  kernel_gsbase (bay_of s) <> 0 ->
  (forall a, kernel_gsbase (bay_of s) <= a < kernel_gsbase (bay_of s) + size_of Percore.PerCoreVariables ->
     page_key root (cpu (bay_of s)) a = Some Mm.UNSAFE_MEM_REGION) ->
  uhyve_irqhandler root supports_x2apic apic_hardware fuel PERCORE me s = Panic.
Proof.
  intros Hn Hs Hp Hd Hg Hk. unfold uhyve_irqhandler.
  destruct (kernel_function_locks (sys_sem_post me (sem nic)) (with_NIC (Some (mkUhyveNetwork (sem nic) (mac nic) true)) s) r c Hp)
    as (m & E & G).
  set (s1 := with_calls c _) in E.
  assert (E1 : sys_set_polling me true s = Done (tt, s1)).
  { unfold sys_set_polling, with_nic. rewrite bind_gets, Hn. unfold set_polling. rewrite bind_modify. cbn [sem].
    destruct (Z.eqb_spec (sem nic) 0); [done|]. cbn [andb negb]. by rewrite (bind_done _ _ _ _ _ E). }
  rewrite (bind_done _ _ _ _ _ E1). change (gated (cpu (bay_of s)) m (regs (cpu (bay_of s)) RSP) 0xFC) in G.
  assert (L : storage_locked root (bay_of s1)).
  { assert (Em : cpu (bay_of s1) = m) by reflexivity.
    split; [by rewrite Em, (gt_pkru _ _ _ _ G)|by rewrite Em, (gt_pkru _ _ _ _ G), user_perm|done|].
    intros a Ha. unfold page_key. rewrite Em, (gt_mmu _ _ _ _ G). by apply Hk. }
  destruct supports_x2apic.
  - unfold Apic.eoi. unfold bind at 1, on_apic. rewrite Apic.x2apic_write. cbn [obind fst snd].
    unfold bind, on_percore. rewrite core_scheduler_faults; [done|exact L].
  - unfold bind at 1, on_apic. destruct (Apic.xapic_faults root apic_hardware fuel Apic.IA32_X2APIC_EOI Apic.APIC_EOI_ACK (apic s1)) as [_ Hw].
    + apply L.
    + unfold page_key. cbn. rewrite (gt_mmu _ _ _ _ G). exact Hd.
    + unfold Apic.eoi. by rewrite Hw.
Qed.

End net_handler.

(** *** Packets and the polling mode

    What the driver relies on: the hypervisor keeps the packets that arrive, an interrupt is
    pending from the arrival of a packet until it is delivered, and a request gives the first
    packet, or says that there is none with an answer that is not zero. *)

Class NetHost (X : Type) := {
  packets : X -> list (list Z);
  pending : X -> bool;
  arrive : list Z -> X -> X;
  deliver : X -> X
}.

(** Where the hypervisor finds the field [ret] of a request at [q] *)
Definition ret_at (d : gmap Z Z) (q : Z) : Z :=
  signed 4 (le (bytes_at d (q + offset_of UhyveRead "ret") 4)).

Record net_host_laws {X} `{NetHost X} (vmexit : Z -> Z -> gmap Z Z * X -> gmap Z Z * X) : Prop := {
  nl_arrive : forall p x, packets (arrive p x) = packets x ++ [p] /\ pending (arrive p x) = true;
  nl_deliver : forall x, packets (deliver x) = packets x;
  nl_read : forall q d x, let R := vmexit UHYVE_PORT_NETREAD q (d, x) in
    packets R.2 = tail (packets x) /\ pending R.2 = pending x /\ (ret_at R.1 q = 0 <-> packets x <> []);
  nl_write : forall q d x, let R := vmexit UHYVE_PORT_NETWRITE q (d, x) in
    packets R.2 = packets x /\ pending R.2 = pending x
}.

Section polling.

Context {F : Type} `{FrameSource F} {X : Type} {K : Type} `{KernelMemory K} `{NetHost X}.
Context (root me : Z) (vmexit : Z -> Z -> gmap Z Z * X -> gmap Z Z * X).
Hypothesis laws : net_host_laws vmexit.

Implicit Types (s : Net F X K).

Definition with_host (x : X) s : Net F X K := mkNet (apic s) (gsbase s) (ram s) x (calls s) (ints s) (NIC s).

Definition arrivals (ps : list (list Z)) s : Net F X K := with_host (foldl (fun x p => arrive p x) (host s) ps) s.

(** A call with its struct at [frame], that is mapped at [p], and its buffer at [data] *)
Definition request_mapped s (frame p buf data : Z) : Prop :=
  mapped root (guest_of s) frame 20 p /\ located root (guest_of s) frame p /\ located root (guest_of s) buf data /\ 0 <= p < 2 ^ 32.

(** What happens: a packet arrives; an interrupt is delivered, whose handler turns polling on;
    a packet is read, while others arrive; one is written; anything else happens, but to
    the driver and the packets. *)
Inductive net_step s : Net F X K -> Prop :=
  | step_arrive p : net_step s (with_host (arrive p (host s)) s)
  | step_interrupt s' :
      pending (host s) = true -> Irq.interrupts (ints s) = true -> NIC s <> None ->
      sys_set_polling me true (with_host (deliver (host s)) s) = Done (tt, s') -> net_step s s'
  | step_read frame p buf data len nic irq s1 ps v s2 :
      request_mapped s frame p buf data -> NIC s = Some nic ->
      read_request root vmexit frame buf len s = Done (irq, s1) ->
      read_finish root me frame nic irq (arrivals ps s1) = Done (v, s2) -> net_step s s2
  | step_write frame p buf data len v s' :
      request_mapped s frame p buf data ->
      sys_netwrite root vmexit frame buf len s = Done (v, s') -> net_step s s'
  | step_other a gs r c i : net_step s (mkNet a gs r (host s) c i (NIC s)).

(** A packet that is there is announced by an interrupt that is pending, or the driver is in
    polling mode, so that the application asks for it. *)
Definition announced s : Prop :=
  packets (host s) = [] \/ pending (host s) = true \/ exists nic, NIC s = Some nic /\ polling nic = true.

Lemma arrivals_host ps (x : X) :
  let x' := foldl (fun x p => arrive p x) x ps in
  packets x' = packets x ++ ps /\ (ps <> [] -> pending x' = true) /\ (pending x = true -> pending x' = true).
Proof.
  revert x. induction ps as [|p ps IH]; intros x; cbn [foldl]; [by rewrite app_nil_r|].
  destruct (nl_arrive _ laws p x) as [E1 E2]. destruct (IH (arrive p x)) as (I1 & I2 & I3). split_and!; [|by intros _; apply I3|by intros _; apply I3].
  by rewrite I1, E1, <- app_assoc.
Qed.

Lemma on_guest_step {A B} (o : M (Guest F X) A) s (k : A -> M (Net F X K) B) r g :
  o (guest_of s) = Done (r, g) -> bind (on_guest o) k s = k r (with_guest g s).
Proof. intros E. unfold bind, on_guest. by rewrite E. Qed.

(** The state after a request on port [port] with [data] and [len] in its struct at [p] *)
Definition asked (port : Z) (fields : layout) s (p data len : Z) (i : Irq.Interrupts) : Net F X K :=
  let R := vmexit port p (write_at (ram s) p (struct_bytes fields [data; len; 0]), host s) in
  mkNet (apic s) (gsbase s) R.1 R.2 (calls s) i (NIC s).

Lemma guest_eta s : with_guest (guest_of s) s = s.
Proof. destruct s as [[] ? ? ? ? ? ?]. reflexivity. Qed.

Lemma request_steps s frame p buf data len port fields :
  length (struct_bytes fields [data; len; 0]) = 20%nat -> request_mapped s frame p buf data ->
  forall A (k2 : bool -> M (Net F X K) A),
  (let! data := on_guest (virt_to_phys root buf) in
   on_guest (store_struct root fields frame [data; len; 0]) ;;;
   let! irq := on_ints Irq.nested_disable in
   on_guest (uhyve_send root vmexit port frame) ;;;
   k2 irq) s = k2 (Irq.interrupts (ints s)) (asked port fields s p data len (Irq.with_interrupts false (ints s))).
Proof.
  intros Hlen (Hm & Hf & Hb & Hp) A k2.
  assert (E1 : virt_to_phys root buf (guest_of s) = Done (data, guest_of s)).
  { pose proof (virt_to_phys_run root (guest_of s) buf data (fun a => ret a) Hb) as E. unfold bind in E.
    destruct (virt_to_phys root buf (guest_of s)) as [[a g]| |]; [|done|done]. exact E. }
  rewrite (on_guest_step _ _ _ _ _ E1), guest_eta.
  rewrite <- Hlen in Hm. rewrite (on_guest_step _ _ _ _ _ (store_struct_run root (guest_of s) fields _ frame p Hm)).
  set (s1 := with_guest _ s). assert (E2 : on_ints Irq.nested_disable s1 =
    Done (Irq.interrupts (ints s), with_ints (Irq.with_interrupts false (ints s)) s1)) by reflexivity.
  rewrite (bind_done _ _ _ _ _ E2). set (s2 := with_ints _ s1).
  assert (Hf2 : located root (guest_of s2) frame p) by (by apply (located_same root (guest_of s))).
  rewrite (on_guest_step _ _ _ _ _ (uhyve_send_run root vmexit (guest_of s2) port frame p Hf2)).
  rewrite Z.mod_small by done. f_equal. unfold s2, s1, asked. destruct s as [[] ? ? ? ? ? ?]. reflexivity.
Qed.

(** The hypervisor's answer, on the stack when the request is done *)
Lemma load_answer s frame p n fields f :
  mapped root (guest_of s) frame n p -> 0 <= offset_of fields f -> offset_of fields f + Z.of_nat (field fields f).2 <= Z.of_nat n ->
  load_field root fields frame f (guest_of s) = Done (le (bytes_at (ram s) (p + offset_of fields f) (field fields f).2), guest_of s).
Proof. intros Hm H1' H2'. by rewrite (guest_load_field_run root (guest_of s) fields frame p n f Hm H1' H2'). Qed.

(** The second part of a read: if there was no packet, polling ends. *)
Definition enabled_if (irq : bool) s : Net F X K :=
  if irq then with_ints (Irq.with_interrupts true (ints s)) s else s.

Lemma nested_enable_run irq s : on_ints (Irq.nested_enable irq) s = Done (tt, enabled_if irq s).
Proof. destruct irq; [done|by destruct s]. Qed.

Lemma enabled_guest irq s : guest_of (enabled_if irq s) = guest_of s.
Proof. by destruct irq. Qed.

Lemma read_finish_run s frame p nic irq :
  mapped root (guest_of s) frame 20 p ->
  exists v, read_finish root me frame nic irq s =
    Done (v, enabled_if irq (if ret_at (ram s) p =? 0 then s else with_NIC (Some (mkUhyveNetwork (sem nic) (mac nic) false)) s)).
Proof.
  intros Hm. assert (Er : load_signed root UhyveRead frame "ret" (guest_of s) = Done (ret_at (ram s) p, guest_of s)).
  { unfold load_signed. by rewrite (bind_done _ _ _ _ _ (load_answer s frame p 20 UhyveRead "ret" Hm ltac:(done) ltac:(done))). }
  unfold read_finish. rewrite (on_guest_step _ _ _ _ _ Er), guest_eta. destruct (ret_at (ram s) p =? 0).
  - rewrite (bind_done _ _ _ _ _ (nested_enable_run irq s)). eexists. unfold on_guest.
    rewrite (load_answer (enabled_if irq s) frame p 20 UhyveRead "len") by (rewrite ?enabled_guest; done).
    cbn [obind]. by rewrite guest_eta.
  - exists 0. set (s1 := with_NIC _ s). assert (Ep : set_polling me false nic s = Done (tt, s1)) by reflexivity.
    by rewrite (bind_done _ _ _ _ _ Ep), (bind_done _ _ _ _ _ (nested_enable_run irq s1)).
Qed.

Lemma announced_same s s' : host s' = host s -> NIC s' = NIC s -> announced s -> announced s'.
Proof. unfold announced. by intros -> ->. Qed.

(** A read, with the packets [ps] that arrive before its second part *)
Lemma read_announced s frame p buf data len nic irq s1 ps v s2 :
  request_mapped s frame p buf data -> NIC s = Some nic ->
  read_request root vmexit frame buf len s = Done (irq, s1) ->
  read_finish root me frame nic irq (arrivals ps s1) = Done (v, s2) -> announced s -> announced s2.
Proof.
  intros Hr Hn E1 E2 Ha. unfold read_request in E1.
  rewrite (request_steps s frame p buf data len _ UhyveRead eq_refl Hr _ ret) in E1. injection E1 as <- <-.
  set (s1 := asked _ _ _ _ _ _ _) in *. assert (Hm : mapped root (guest_of (arrivals ps s1)) frame 20 p).
  { apply (mapped_same root (guest_of s)); [|apply Hr]. done. }
  destruct (read_finish_run (arrivals ps s1) frame p nic (Irq.interrupts (ints s)) Hm) as (v' & E).
  rewrite E in E2. injection E2 as <- <-.
  destruct (nl_read _ laws p (write_at (ram s) p (struct_bytes UhyveRead [data; len; 0])) (host s)) as (L1 & L2 & L3).
  destruct (arrivals_host ps (host s1)) as (A1 & A2 & A3). change (host s1) with
    (vmexit UHYVE_PORT_NETREAD p (write_at (ram s) p (struct_bytes UhyveRead [data; len; 0]), host s)).2 in A1, A2, A3.
  apply (announced_same (if ret_at (ram (arrivals ps s1)) p =? 0 then arrivals ps s1
    else with_NIC (Some (mkUhyveNetwork (sem nic) (mac nic) false)) (arrivals ps s1))).
  { by destruct (Irq.interrupts (ints s)). } { by destruct (Irq.interrupts (ints s)). }
  change (ram (arrivals ps s1)) with
    (vmexit UHYVE_PORT_NETREAD p (write_at (ram s) p (struct_bytes UhyveRead [data; len; 0]), host s)).1.
  destruct (Z.eqb_spec (ret_at (vmexit UHYVE_PORT_NETREAD p
    (write_at (ram s) p (struct_bytes UhyveRead [data; len; 0]), host s)).1 p) 0) as [Er|Er].
  - destruct Ha as [Ha|[Ha|Ha]]; [by apply L3 in Er|right; left; apply A3; by rewrite L2|by right; right].
  - assert (Hp : packets (host s) = []) by (destruct (packets (host s)); [done|exfalso; by apply Er, L3]).
    rewrite Hp in L1. rewrite L1 in A1. destruct ps as [|p0 ps]; [by left|right; left; by apply A2].
Qed.

(** What is done to the other parts leaves the driver as it is. *)
Definition keeps_NIC {A} (o : M (Net F X K) A) : Prop := forall s a s', o s = Done (a, s') -> NIC s' = NIC s.

Lemma keeps_bind {A B} (o : M (Net F X K) A) (k : A -> M (Net F X K) B) :
  keeps_NIC o -> (forall a, keeps_NIC (k a)) -> keeps_NIC (bind o k).
Proof.
  intros Ho Hk s b s' E. unfold bind in E. destruct (o s) as [[a s1]| |] eqn:Eo; [|done|done].
  rewrite <- (Ho _ _ _ Eo). by eapply Hk.
Qed.

Lemma keeps_on_core {A} (o : M (Machine F) A) : keeps_NIC (on_core o).
Proof. intros s a s' E. unfold on_core in E. destruct (o (the_core s)) as [[? ?]| |]; [|done|done]. by injection E as <- <-. Qed.

Lemma keeps_on_calls {A} (o : M (Calls K) A) : keeps_NIC (on_calls o).
Proof. intros s a s' E. unfold on_calls in E. destruct (o (calls s)) as [[? ?]| |]; [|done|done]. by injection E as <- <-. Qed.

Lemma set_polling_on s nic s' :
  set_polling me true nic s = Done (tt, s') -> exists nic', NIC s' = Some nic' /\ polling nic' = true.
Proof.
  unfold set_polling. rewrite bind_modify. cbn [andb sem mac]. intros E.
  exists (mkUhyveNetwork (sem nic) (mac nic) true). split; [|done].
  destruct (negb (sem nic =? 0)); [|by injection E as <-].
  assert (Hk : keeps_NIC (kernel_function (on_calls (sys_sem_post me (sem nic))) ;;; ret tt)).
  { apply keeps_bind; [|by intros ? ? ? ? [= <- <-]]. unfold kernel_function.
    repeat (apply keeps_bind; [apply keeps_on_core || apply keeps_on_calls|intros ?]). by intros ? ? ? [= <- <-]. }
  by rewrite (Hk _ _ _ E).
Qed.

(** A write *)
Lemma write_announced s frame p buf data len v s' :
  request_mapped s frame p buf data -> sys_netwrite root vmexit frame buf len s = Done (v, s') -> announced s -> announced s'.
Proof.
  intros Hr E Ha. unfold sys_netwrite, with_nic in E. rewrite bind_gets in E. destruct (NIC s) as [nic|] eqn:En; [|by injection E as <- <-].
  unfold network_write in E.
  rewrite (request_steps s frame p buf data len UHYVE_PORT_NETWRITE UhyveWrite eq_refl Hr _
    (fun irq => on_ints (Irq.nested_enable irq) ;;; on_guest (load_field root UhyveWrite frame "len"))) in E.
  rewrite (bind_done _ _ _ _ _ (nested_enable_run _ _)) in E. unfold on_guest in E.
  rewrite (load_answer _ frame p 20 UhyveWrite "len") in E;
    [|apply (mapped_same root (guest_of s)); [by destruct (Irq.interrupts (ints s))|apply Hr]|done|done].
  cbn [obind] in E. rewrite guest_eta in E. injection E as <- <-.
  destruct (nl_write _ laws p (write_at (ram s) p (struct_bytes UhyveWrite [data; len; 0])) (host s)) as (L1 & L2).
  set (s1 := asked _ _ _ _ _ _ _). apply (announced_same s1); [by destruct (Irq.interrupts _)|by destruct (Irq.interrupts _)|].
  unfold announced. cbn [s1 asked host NIC]. unfold s1, asked. cbn [host NIC]. by rewrite L1, L2.
Qed.

(** No packet is forgotten: whatever happens, in any order, when there is a packet its
    interrupt is still to come or the driver is in polling mode. In particular the packet that
    arrives after a read has found none, and before the read has ended polling, is announced. *)
Theorem packets_announced s s' : rtc net_step s s' -> announced s -> announced s'.
Proof.
  induction 1 as [s|s s1 s2 Hst _ IH]; [done|]. intros Ha. apply IH. clear IH. destruct Hst as [p|s' Hp Hi Hn E|frame p buf data len nic irq s1 ps v s2' Hr Hn E1 E2|frame p buf data len v s' Hr E|].
  - right. left. apply (nl_arrive _ laws).
  - right. right. unfold sys_set_polling, with_nic in E. rewrite bind_gets in E. cbn [NIC with_host] in E.
    destruct (NIC s) as [nic|] eqn:En; [|done]. clear Hn. eapply set_polling_on. exact E.
  - by eapply read_announced.
  - eapply write_announced; done.
  - done.
Qed.

End polling.

(** An interrupt that comes after [uhyve_init] turned interrupts on and before [init] has set
    [NIC] is ignored: its packet is not announced. *)
Lemma early_interrupt_lost {F} `{FrameSource F} {X K} `{KernelMemory K} `{NetHost X} me (s : Net F X K) mac :
  NIC s = None -> packets (deliver (host s)) <> [] -> pending (deliver (host s)) = false ->
  exists s', sys_set_polling me true (with_host (deliver (host s)) s) = Done (tt, s') /\
    ~ announced (with_NIC (Some (UhyveNetwork_new mac)) s').
Proof.
  intros Hn Hp Hq. exists (with_host (deliver (host s)) s). split.
  - unfold sys_set_polling, with_nic. rewrite bind_gets. cbn [NIC with_host]. by rewrite Hn.
  - intros [Ha|[Ha|(nic & Ha & Hb)]]; cbn in *; [done|congruence|]. injection Ha as <-. done.
Qed.

(** Without a network interface nothing is sent and nothing received. *)
Lemma no_network {F} `{FrameSource F} {X K} `{KernelMemory K} root BOOT_INFO vmexit me frame utf8 sem buf len (s : Net F X K) :
  NIC s = None ->
  sys_network_init root BOOT_INFO utf8 sem s = Done ((-1, None), s) /\ sys_is_polling s = Done (false, s) /\
  sys_netread root vmexit me frame buf len s = Done (0, s) /\ sys_netwrite root vmexit frame buf len s = Done (0, s).
Proof.
  intros Hn. unfold sys_network_init, sys_is_polling, sys_netread, sys_netwrite, with_nic. rewrite !bind_gets, Hn. done.
Qed.

(** ** Examples *)

Section sample.

#[local] Existing Instance sample_memory.

(** A hypervisor with packets and the state of its interrupt *)
Record SampleHost := mkSampleHost { inbox : list (list Z); raised : bool }.

#[local] Instance sample_host : NetHost SampleHost := {
  packets := inbox;
  pending := raised;
  arrive p x := mkSampleHost (inbox x ++ [p]) true;
  deliver x := mkSampleHost (inbox x) false
}.

Definition sample_exit (port q : Z) (s : gmap Z Z * SampleHost) : gmap Z Z * SampleHost :=
  if port =? UHYVE_PORT_NETREAD then
    (write_at s.1 (q + offset_of UhyveRead "ret") (le_bytes 4 (match inbox s.2 with [] => -1 | _ => 0 end)),
     mkSampleHost (tail (inbox s.2)) (raised s.2))
  else s.

Lemma sample_laws : net_host_laws sample_exit.
Proof.
  split; try done. intros q d [l b]. cbv zeta. split_and!; [done|done|].
  unfold sample_exit, ret_at. cbn [Z.eqb UHYVE_PORT_NETREAD Pos.eqb fst snd inbox raised].
  rewrite (bytes_at_write_at d (q + offset_of UhyveRead "ret") (le_bytes 4 _)). by destruct l.
Qed.

Definition sample_net (b : Bay Z) (nic : UhyveNetwork) (c : Calls Z) : Net Z SampleHost Z :=
  mkNet (Apic.mkApic b [] [] 0 0 0 0) BootInfo.sample_info ∅ (mkSampleHost [] false) c Irq.sample_interrupts (Some nic).

(** A packet arrives after another one was read. *)
Lemma packets_announced_witness :
  let s := with_host (arrive [1] (mkSampleHost [] false)) (sample_net (bay_with sample2) (mkUhyveNetwork 0 [] false) sample_calls) in
  exists irq s1 v s2, read_request sample_root sample_exit 0x40012345 0x10001234 1500 s = Done (irq, s1) /\
    read_finish sample_root 0 0x40012345 (mkUhyveNetwork 0 [] false) irq (arrivals [[2]] s1) = Done (v, s2) /\ announced s2.
Proof.
  generalize sample_calls. intros c s.
  assert (Hr : request_mapped sample_root s 0x40012345 0x40012345 0x10001234 0x801234).
  { destruct (sample_frame (host s)) as [Hm Hl]. pose proof (sample_path (host s)) as Hp.
    split_and!; [apply (mapped_same sample_root (guest_with (host s) sample2)); [reflexivity|exact Hm]
      |apply (located_same sample_root (guest_with (host s) sample2)); [reflexivity|exact Hl]
      |apply (located_same sample_root (guest_with (host s) sample2)); [reflexivity|exact Hp]|lia|lia]. }
  pose proof (request_steps sample_root sample_exit s 0x40012345 0x40012345 0x10001234 0x801234 1500 UHYVE_PORT_NETREAD UhyveRead eq_refl Hr _ ret) as E1.
  destruct (read_finish_run sample_root 0 (arrivals [[2]] (asked sample_exit UHYVE_PORT_NETREAD UhyveRead s 0x40012345 0x801234 1500
    (Irq.with_interrupts false (ints s)))) 0x40012345 0x40012345 (mkUhyveNetwork 0 [] false) (Irq.interrupts (ints s))) as (v & E2).
  { apply (mapped_same sample_root (guest_of s)); [reflexivity|apply Hr]. }
  do 4 eexists. split; [exact E1|]. split; [exact E2|].
  apply (packets_announced sample_root 0 sample_exit sample_laws s).
  - eapply rtc_l; [|apply rtc_refl]. eapply (step_read sample_root 0 sample_exit); [exact Hr|reflexivity|exact E1|exact E2].
  - right. left. reflexivity.
Defined.

Lemma page_key_range (m : Machine Z) a n k :
  forallb (fun i => bool_decide (page_key sample_root m (a + i) = Some k)) (seqZ 0 n) = true ->
  forall x, a <= x < a + n -> page_key sample_root m x = Some k.
Proof.
  rewrite forallb_forall. intros Ht x Hx. specialize (Ht (x - a)). rewrite <- list_elem_of_In, elem_of_seqZ in Ht.
  specialize (Ht ltac:(lia)). apply bool_decide_eq_true in Ht. by replace (a + (x - a)) with x in Ht by lia.
Qed.

(** The semaphore of the examples of Calls.v *)
Lemma uhyve_irqhandler_faults_witness :
  uhyve_irqhandler sample_root true (fun _ _ => 0) 0 0 0 (sample_net BootInfo.sample_bay (mkUhyveNetwork 1 [] false) sample_calls) = Panic.
Proof.
  assert (Hp : exists r c, sys_sem_post 0 1 sample_calls = Done (r, c)).
  { assert (Ht : match sys_sem_post 0 1 sample_calls with Done _ => true | _ => false end = true) by (vm_compute; reflexivity).
    destruct (sys_sem_post 0 1 sample_calls) as [[r c]| |]; [by exists r, c|discriminate Ht|discriminate Ht]. }
  destruct Hp as (r & c & Hp). revert Hp. generalize sample_calls. intros c0 Hp.
  apply (uhyve_irqhandler_faults sample_root 0 0 true (fun _ _ => 0) 0 _ (mkUhyveNetwork 1 [] false) r c);
    [reflexivity|discriminate|exact Hp|vm_compute; reflexivity|discriminate|].
  apply (page_key_range (cpu BootInfo.sample_bay) 0x10001000 24). vm_compute. reflexivity.
Defined.

End sample.
